(* ===== verification/_CoqProject ===== *)
-Q . S2P
Prelude.v
Cnum.v
Tokeniser.v
Value.v
ValueOps.v
ValueProps.v
SymbolTable.v
Scheduler.v
Filtering.v
Message.v
Machine.v
MachineProps.v
Expression.v
ExpressionProps.v
Handlers.v
StableStates.v
AutoStates.v
AutoStatesProps.v
BitOps.v
Names.v
Properties.v
NamesProps.v
PropertiesProps.v
Lists.v
DynamicValues.v
StoreActions.v
SetOperations.v
DynamicValuesProps.v
ListsProps.v
SetsProps.v
ListSamples.v
Control.v
ControlProps.v
CommandProps.v
Modbus.v
ModbusProps.v
MappingFile.v
ModbusMachine.v
ModbusMachineProps.v
Json.v
JsonProps.v
JsonEnds.v
MessageEncoding.v
MessageEncodingProps.v
Transitions.v
TransitionsProps.v
TransitionOrder.v
DispatchProps.v
IOComponents.v
IOMaskProps.v
IOProps.v
IOOutputs.v
IOCycle.v
MachineActions.v
MachineActionsProps.v
Channels.v
ChannelFilters.v
ChannelProps.v
ChannelThrottle.v
ChannelSync.v
ChannelSamples.v
Router.v
RouterProps.v
Subscription.v
SubscriptionProps.v
Assignments.v
AssignmentsProps.v
Persistence.v
PersistenceProps.v
PersistenceRestart.v
Shell.v
ShellProps.v
ShellMachines.v
Logging.v
LoggingProps.v
EtherCAT.v
EtherCATProps.v
ControlSystem.v
ControlSystemProps.v
