(* ===== verification/Prelude.v ===== *)
(** * Verification of the Clockwork interpreter (latproc/clockwork)

    Clockwork (src/iod/src) runs control programs made of machines. A machine has
    properties, states and rules (WHEN conditions) that choose its state, and it
    executes actions: commands, transitions and handlers of messages. A
    processing thread lets machines with work execute their actions ([idle]) and
    re-evaluate their rules; a scheduler delivers packages, actions and triggers
    at later times; a dispatcher moves messages into the mail queues of machines.
    The development is a shallow embedding of that core.

    ** The parts and their files

    - Prelude: outcomes ([Ok], [Undef] for behaviour C++ leaves undefined, [Abort]
      for a failed assert), a state monad over outcomes, machine integers, shared
      tactics and lemmas. Cnum: IEEE numbers, [strtol], [strtod] and [printf] as
      far as values use them.
    - Tokeniser (symboltable.cpp): the table of symbol names and their ids.
    - Value, ValueOps, ValueProps (value.cpp): the dynamically typed values, every
      constructor, comparison, arithmetic operator and conversion. A field that
      was not set is [None]; reading it is [Undef]. Dynamic values
      (dynamic_value.cpp) enter as the class [DynEnv]: the value an object
      computes.
    - SymbolTable (symboltable.cpp): property maps by name and by token, keywords,
      merging.
    - Scheduler (Scheduler.cpp): the time-ordered queue and a turn of the loop of
      the scheduler thread. The clock is a list of readings; activations and
      handshakes are events.
    - Filtering (filtering.cpp): the ring buffers of analogue inputs, their window
      statistics, the regression, Butterworth and rate filters.
    - Message (Message.cpp): messages, packages, mail queues.
    - Machine, MachineProps (Action.cpp, MachineInstance.cpp): reference counted
      actions and triggers on a heap, the stack of actions of a machine ([start],
      [push], [stop], [clearAllActions]), mail, [idle], and [setNeedsCheck] with
      the sets the processing thread works from. What the subclasses of [Action]
      override is the class [Virtuals], which Control implements.
    - Expression, ExpressionProps (Expression.cpp): predicates, their resolution
      in the scope of a machine (class [Scope]), the stack evaluator, and the
      timer clauses from which events are scheduled (class [Timers]).
    - Handlers (MachineInstance.cpp, State.cpp): states, transitions, and the
      choice of a handler for a message.
    - StableStates (StableState.cpp, ConditionHandler.cpp, MachineInstance.cpp):
      rules, their timers and the choice of the earliest timer.
    - AutoStates, AutoStatesProps (MachineInstance.cpp, ConditionHandler.cpp): the
      check of a machine's rules ([setStableState], [checkStableStates]) with
      subconditions and flags. [setState] and [execute], which the check calls,
      and the resolution of names are the class [Surroundings].
    - Transitions, TransitionsProps, TransitionOrder, DispatchProps
      (MachineInstance.cpp, Dispatcher.cpp): [setState] with its notifications, the
      execution and sending of messages, enabling, disabling and resuming, and the
      dispatcher. What a handler does is the class [Reactions], the conditions of
      transitions are in the class [Hub]; other processes are told by events.
    - MachineActions, MachineActionsProps (SetStateAction.cpp, CallMethodAction.cpp,
      SendMessageAction.cpp and the like): the actions that change, call, message,
      enable and disable other machines.
    - Assignments, AssignmentsProps (PredicateAction.cpp, ExpressionAction.cpp):
      assignments of expressions, INC and DEC.
    - BitOps (bit_ops.cpp): the masked copy of process data.
    - Names, Properties, Lists (MachineInstance.cpp, Parameter.cpp): a store of
      machines with their parameters, locals and properties; the search for a
      machine ([lookup], with its cache), for a value ([getValue]) and the update
      of a property ([setValue]); the entries of a LIST. Calls of other parts are
      recorded as events; [setState] is the class [StateControl] (with the laws
      [SteadyControl]), the clock is [Clock]. NamesProps, PropertiesProps and
      ListsProps hold their properties.
    - DynamicValues (dynamic_value.cpp): ANY, ALL, COUNT, FIND, SUM, MEAN, MIN, MAX,
      BITSET, ITEM, TAKE and the other operators on lists; StoreActions and
      SetOperations: the actions that sort, clear, fill and combine lists and copy
      properties ([std::sort] is the class [StdSort], printing the class
      [Printer]). Properties in DynamicValuesProps and SetsProps; ListSamples has the
      sample stores and the inputs on which the list code fails.
    - Control (MachineCommandAction.cpp, IfCommandAction.cpp, LockAction.cpp,
      UnlockAction.cpp, WaitAction.cpp, FireTriggerAction.cpp, AbortAction.cpp):
      [run], [checkComplete] and the destructors of the control actions, an
      implementation of the interface [Virtuals] of the action stack; what they
      ask of their machine is the class [Environs]. ControlProps and CommandProps
      hold properties and samples.
    - Modbus (ModbusInterface.cpp, clockwork.cpp): the addresses of exported
      machines, their counters, and the mapping file with its writer and loader;
      ModbusMachine (MachineInstance.cpp, IODCommands.cpp): the exports of a
      machine, updates sent and received. ModbusProps, MappingFile and
      ModbusMachineProps hold properties and samples.
    - Json, JsonProps, JsonEnds (cJSON.c): values of JSON, their text and the parser.
      MessageEncoding, MessageEncodingProps (MessageEncoding.cpp): commands and their
      parameters as JSON.
    - IOComponents, IOMaskProps, IOProps, IOOutputs, IOCycle (IOComponent.cpp): inputs
      and outputs, the map of the process data, what arrives from and is sent to the
      hardware. EtherCAT, EtherCATProps (ECInterface.cpp): the other end of it, the
      process image of the bus, and the state of its master and slaves. ControlSystem,
      ControlSystemProps (ControlSystemMachine.cpp): the machine that follows the bus,
      on the store of Names. The master is a library: its results are inputs and the
      class [MasterCalls]; reading and writing words of the image is [Ecrt].
    - Channels, ChannelFilters, ChannelProps, ChannelThrottle, ChannelSync and
      ChannelSamples (Channel.cpp, SyncRemoteStatesAction.cpp): the channels between
      processes, the machines they carry, what they send and when. Router, RouterProps
      (MessagingInterface.cpp): the routing of messages between threads and systems.
      Subscription, SubscriptionProps (ConnectionManager.cpp): how a client gets its
      channel.
    - Persistence, PersistenceProps, PersistenceRestart (PersistentStore.cpp,
      persistd.cpp, clockwork.cpp): the file of persistent values, the daemon that
      keeps it, and loading it at the start.
    - Shell, ShellProps, ShellMachines (ClientInterface.cpp, IODCommands.cpp): the text
      of a command, the commands on properties (on the store of Names) and those that
      change machines (on the state of Transitions).
    - Logging, LoggingProps (Logger.cpp, MessageLog.cpp, Statistic.h, IODCommands.cpp):
      debug groups, the log of messages, statistics and their commands.

    ** What the theorems show

    - Values: equality, inequality and the four orders agree with each other, for
      every mix of kinds; symbols are interned; the arithmetic operators keep
      fields initialised; division has a result; integers survive their text.
    - Tables: merging and adding change exactly the names they should.
    - Scheduler: the queue is a stable priority queue (refinement of a
      specification on sequences of operations); a turn ends and takes exactly what
      is due off the queue.
    - Filters: a ring buffer is the list of the latest samples, and the averages
      are the means of windows of that list.
    - Machines: actions nest like calls, [stop] releases exactly what it removes,
      mail is executed in order, [setNeedsCheck] returns on any dependency graph.
    - Predicates: the stack evaluator computes the value of the expression tree,
      and an event for a timer clause falls exactly where the clause changes.
    - Handlers: the handler chosen for a message is entitled to it, and a caller
      that waits gets its answer.
    - Rules: the first rule that holds decides the state and exactly the change
      it needs is queued; the earliest timer is chosen; a copied rule gets its timer back.
    - Names and properties: [lookup] with its cache is the search without one; a
      property that is set is found; the state of a LIST says whether it has
      entries, along any history of changes.
    - Lists: quantifiers, sums, extremes and bit sets are what their names say,
      within the range of the integers; union and sorting compute union and order;
      a number written to a list of switches is read back.
    - Control: LOCK and UNLOCK are a re-entrant mutex per machine, in any
      interleaving, and a lock that is released goes to a machine that waits; a
      WAIT ends when its time is up and the action below it goes on.
    - Modbus: exports never share an address, also with those of a loaded file;
      the file gives every export its address back after a restart.
    - Transitions: a change of state runs its notifications in order; along any history,
      with handlers that start changes themselves, machines stay in states of their
      class; a change that is denied is tried again or aborted; mail arrives in the order it was sent; a CALL
      ends with the answer of the machine it called; an assignment stores the value of
      its expression.
    - Input and output: data from the bus are merged bit by bit; what changes in the
      image of the bus reaches the program, and an output that is switched goes through
      the image and comes back to its owners; the machine that follows the bus reaches
      the state of the bus in at most three turns.
    - Messages between processes: commands survive their encoding; a channel carries
      the machines its filters choose and sends each change once, the last one of a
      throttled property, and everything at the start; messages cross two routers
      unchanged; a client gets its channel.
    - Persistence and shell: changes that persistd was told of are in the file a later
      start loads; a number set with PROPERTY is what GET answers.
    - Log: it holds the longest end of its history that fits.
    - Where the code departs from that, a lemma or theorem shows how far: the modulus
      of floats, concatenated symbols, the window of [stddev], clauses with the timer
      on the right, the early return of the stack evaluator, the timers of [setState]
      and of subconditions, TAKE LAST, the buffer of INCLUDE, UNION and SELECT on
      machines, commands with a step that fails, texts in the mapping file, a request
      for a channel that is not answered, the log after CLEAR MESSAGES, saving the log,
      failures of the bus that are never noticed.

    ** Bounds and fuel

    Loops whose end depends on data take fuel and are [Undef] without it.
    [setNeedsCheck] gets two visits per machine, which [needs_check_terminates]
    shows to be enough; [eval_stack] gets the length of the stack, which suffices
    because every call reads a node; the mail loop gets the length of the queue;
    [scheduleTimerEvents] gets the height of the predicate; loops over ring
    buffers get the size of the buffer. The scheduler gets one clock reading per
    queued item ([turn_takes_due]). The action loop of [idle] has a
    fuel of its own, since actions may run forever. Searches that follow names
    through machines nest up to [call_depth] of [Clock], the depth at which the
    program's stack ends; the control actions nest up to the depth of [virtuals].
    [runActions] gets one round for each step of a command, since every round ends
    the loop or moves on; the loop of [checkComplete] gets two. [setState_n] nests to
    depth 2: the call itself and the call for a property that names the state; enabling
    and disabling follow owned machines to the depth they are given, and their theorems
    hold for any depth that reaches the machines. Handlers that perform operations which
    lead to handlers ([scripted]) nest to any depth that is given. The JSON parser gets the length of
    the text, which JsonEnds shows to be enough; [words_n] of the shell likewise.
    Integers keep their width: [int_of] and [long_of] are [Undef] out of range,
    unsigned sums and conversions wrap.

    ** What is not modelled

    The parser of the language is input of a parser generator. The threads and their
    loops (ProcessingThread.cpp, ecat_thread.cpp) poll sockets and call the operations
    modelled here; the order of these calls is not modelled. The export of classes as
    C code (MachineClass.cpp) only prints. Programs that bridge libraries (the modbus
    and MQTT daemons, the device connector), regular expressions, plugins, SDO requests
    of the bus, its configuration files, and the actions on files and patterns are left
    out, as are the texts of most diagnostics. The parts were modelled one after the
    other, so some share no state: AutoStates and Names see [setState] through a class
    where Transitions models it on a state of its own. *)
From stdpp Require Export base tactics option list gmap strings numbers.
From Stdlib Require Export ZArith Lia.

(** ** Outcomes

    [Ok a] is a normal return; [Undef] is behaviour the C++ standard leaves
    undefined (an indeterminate read, a signed overflow, a null or dangling
    pointer, an out-of-range conversion); [Abort] is a failed [assert] or a call
    of [abort()]. *)
Inductive res (A : Type) : Type :=
| Ok (a : A)
| Undef
| Abort.
Arguments Ok {_} _.
Arguments Undef {_}.
Arguments Abort {_}.

#[export] Instance res_ret : MRet res := fun A a => Ok a.
#[export] Instance res_bind : MBind res := fun A B f x =>
  match x with Ok a => f a | Undef => Undef | Abort => Abort end.
#[export] Instance res_fmap : FMap res := fun A B f x =>
  match x with Ok a => Ok (f a) | Undef => Undef | Abort => Abort end.

(** Reading a field that may hold an indeterminate value. *)
Definition rd {A} (o : option A) : res A :=
  match o with Some a => Ok a | None => Undef end.

(** [assert (b)]. *)
Definition assert (b : bool) : res unit := if b then Ok tt else Abort.

(** ** Stateful computations: state passing over [res] *)
Definition SM (S A : Type) : Type := S -> res (A * S).
Definition sret {S A} (a : A) : SM S A := fun s => Ok (a, s).
Definition sbind {S A B} (m : SM S A) (f : A -> SM S B) : SM S B := fun s =>
  match m s with
  | Ok (a, s') => f a s'
  | Undef => Undef
  | Abort => Abort
  end.
Definition slift {S A} (r : res A) : SM S A := fun s =>
  match r with Ok a => Ok (a, s) | Undef => Undef | Abort => Abort end.

Declare Scope sm_scope.
Delimit Scope sm_scope with sm.
Notation "'let!' x := m 'in' k" := (sbind m (fun x => k))
  (at level 10, x name, m at level 100, k at level 200) : sm_scope.
Notation "'let?' x := m 'in' k" := (sbind (slift m) (fun x => k))
  (at level 10, x name, m at level 100, k at level 200) : sm_scope.
Notation "'run!' m 'in' k" := (sbind m (fun _ => k))
  (at level 10, m at level 100, k at level 200) : sm_scope.

(** ** Machine integers *)
Open Scope Z_scope.
Definition LONG_MIN : Z := - 2 ^ 63.
Definition LONG_MAX : Z := 2 ^ 63 - 1.
Definition INT_MIN : Z := - 2 ^ 31.
Definition INT_MAX : Z := 2 ^ 31 - 1.

Definition in_long (z : Z) : bool := (LONG_MIN <=? z) && (z <=? LONG_MAX).
Definition in_int (z : Z) : bool := (INT_MIN <=? z) && (z <=? INT_MAX).

(** The result of an operation on [long] (or [int]): undefined when it is not
    representable. *)
Definition long_of (z : Z) : res Z := if in_long z then Ok z else Undef.
Definition int_of (z : Z) : res Z := if in_int z then Ok z else Undef.

(** Unsigned arithmetic wraps; conversion to a signed type is modulo [2^w]. *)
Definition u8 (z : Z) : Z := z mod 2 ^ 8.
Definition u16 (z : Z) : Z := z mod 2 ^ 16.
Definition u32 (z : Z) : Z := z mod 2 ^ 32.
Definition u64 (z : Z) : Z := z mod 2 ^ 64.
Definition to_s64 (z : Z) : Z := (z + 2 ^ 63) mod 2 ^ 64 - 2 ^ 63.
Definition to_s32 (z : Z) : Z := (z + 2 ^ 31) mod 2 ^ 32 - 2 ^ 31.

(** C++ division and remainder truncate towards zero. *)
Definition c_div (a b : Z) : res Z := if b =? 0 then Undef else long_of (Z.quot a b).
Definition c_rem (a b : Z) : res Z :=
  if b =? 0 then Undef else if in_long (Z.quot a b) then Ok (Z.rem a b) else Undef.

(** ** Automation *)
Create HintDb cw.
Create Rewrite HintDb cw.

Lemma in_long_spec z : in_long z = true <-> LONG_MIN <= z <= LONG_MAX.
Proof. unfold in_long. rewrite andb_true_iff, !Z.leb_le. lia. Qed.

Lemma in_int_spec z : in_int z = true <-> INT_MIN <= z <= INT_MAX.
Proof. unfold in_int. rewrite andb_true_iff, !Z.leb_le. lia. Qed.

Lemma long_of_ok z : LONG_MIN <= z <= LONG_MAX -> long_of z = Ok z.
Proof. intros H. unfold long_of. by rewrite (proj2 (in_long_spec z) H). Qed.

Lemma long_of_inv z z' : long_of z = Ok z' -> z' = z /\ in_long z = true.
Proof. unfold long_of. destruct (in_long z) eqn:E; [by intros [= ->] | done]. Qed.

Lemma u64_range z : 0 <= u64 z < 2 ^ 64.
Proof. apply Z.mod_pos_bound. lia. Qed.

Lemma u32_range z : 0 <= u32 z < 2 ^ 32.
Proof. apply Z.mod_pos_bound. lia. Qed.

Lemma u64_small z : 0 <= z < 2 ^ 64 -> u64 z = z.
Proof. apply Z.mod_small. Qed.

Lemma to_s64_small z : LONG_MIN <= z <= LONG_MAX -> to_s64 z = z.
Proof. unfold to_s64, LONG_MIN, LONG_MAX. intros H. rewrite Z.mod_small; lia. Qed.

#[export] Hint Resolve u64_range u32_range : cw.
#[export] Hint Rewrite u64_small to_s64_small using lia : cw.

(** Case analysis on the scrutinee of a [match] or an [if] of the goal or a
    hypothesis, keeping the equation. *)
Ltac case_res :=
  match goal with
  | |- context [match ?x with _ => _ end] =>
      lazymatch x with context [match _ with _ => _ end] => fail | _ => destruct x eqn:? end
  | H : context [match ?x with _ => _ end] |- _ =>
      lazymatch x with context [match _ with _ => _ end] => fail | _ => destruct x eqn:? end
  end.
Ltac crush_res := repeat (simplify_eq/=; try done; case_res); simplify_eq/=; try done.

(** ** Inversion of monadic computations *)
Lemma bind_Ok {A B} (x : res A) (f : A -> res B) b :
  (x ≫= f) = Ok b <-> exists a, x = Ok a /\ f a = Ok b.
Proof. destruct x; cbn; naive_solver. Qed.

Lemma fmap_Ok {A B} (f : A -> B) (x : res A) b :
  f <$> x = Ok b <-> exists a, x = Ok a /\ b = f a.
Proof. destruct x; cbn; naive_solver. Qed.

Lemma sbind_Ok {S A B} (m : SM S A) (f : A -> SM S B) s r :
  sbind m f s = Ok r <-> exists a s', m s = Ok (a, s') /\ f a s' = Ok r.
Proof. unfold sbind. destruct (m s) as [[a s'] | |]; naive_solver. Qed.

Lemma sbind_cong {S A B} (m : SM S A) (f g : A -> SM S B) s :
  (forall a s', m s = Ok (a, s') -> f a s' = g a s') -> sbind m f s = sbind m g s.
Proof. intros Hfg. unfold sbind. destruct (m s) as [[a s'] | |]; [by apply Hfg | done | done]. Qed.
Lemma sbind_cong2 {S A B} (m m' : SM S A) (f g : A -> SM S B) s :
  m s = m' s -> (forall a s', f a s' = g a s') -> sbind m f s = sbind m' g s.
Proof. intros E Hfg. unfold sbind. rewrite E. destruct (m' s) as [[a s'] | |]; [by apply Hfg | done | done]. Qed.

Lemma sbind_run {S A B} (m : SM S A) (f : A -> SM S B) s a s' :
  m s = Ok (a, s') -> sbind m f s = f a s'.
Proof. intros E. unfold sbind. by rewrite E. Qed.

Lemma slift_run {S A B} (r : res A) (f : A -> SM S B) s a : r = Ok a -> sbind (slift r) f s = f a s.
Proof. by intros ->. Qed.
Lemma slift_Ok {S A} (x : res A) (s : S) r : slift x s = Ok r <-> exists a, x = Ok a /\ r = (a, s).
Proof. unfold slift. destruct x; naive_solver. Qed.

Lemma rd_Ok {A} (o : option A) a : rd o = Ok a <-> o = Some a.
Proof. destruct o; cbn; naive_solver. Qed.

Lemma assert_Ok b u : assert b = Ok u <-> b = true.
Proof. destruct u, b; cbn; naive_solver. Qed.

(** Break the hypotheses that say a computation returned into its steps. *)
Ltac res_inv :=
  repeat match goal with
  | H : sbind _ _ _ = Ok _ |- _ => apply sbind_Ok in H as (? & ? & ? & ?)
  | H : slift _ _ = Ok _ |- _ => apply slift_Ok in H as (? & ? & ?)
  | H : (_ ≫= _) = Ok _ |- _ => apply bind_Ok in H as (? & ? & ?)
  | H : _ <$> _ = Ok _ |- _ => apply fmap_Ok in H as (? & ? & ?)
  | H : rd _ = Ok _ |- _ => apply rd_Ok in H
  | H : assert _ = Ok _ |- _ => apply assert_Ok in H
  | H : sret _ _ = Ok _ |- _ => unfold sret in H
  | H : long_of _ = Ok _ |- _ => apply long_of_inv in H as [? ?]
  | H : in_long _ = true |- _ => apply in_long_spec in H
  | H : (_, _) = (_, _) |- _ => injection H as ? ?
  end; simplify_eq/=.

(** ** Bounds of 64-bit results *)
Lemma long_shiftr z : LONG_MIN <= z <= LONG_MAX <-> Z.shiftr z 63 = 0 \/ Z.shiftr z 63 = -1.
Proof.
  rewrite Z.shiftr_div_pow2 by lia. unfold LONG_MIN, LONG_MAX.
  pose proof (Z.div_mod z (2 ^ 63) ltac:(lia)). pose proof (Z.mod_pos_bound z (2 ^ 63) ltac:(lia)).
  nia.
Qed.

Lemma long_land x y : LONG_MIN <= x <= LONG_MAX -> LONG_MIN <= y <= LONG_MAX ->
  LONG_MIN <= Z.land x y <= LONG_MAX.
Proof. rewrite !long_shiftr, Z.shiftr_land. intros [-> | ->] [-> | ->]; cbn; auto. Qed.

Lemma long_lor x y : LONG_MIN <= x <= LONG_MAX -> LONG_MIN <= y <= LONG_MAX ->
  LONG_MIN <= Z.lor x y <= LONG_MAX.
Proof. rewrite !long_shiftr, Z.shiftr_lor. intros [-> | ->] [-> | ->]; cbn; auto. Qed.

Lemma long_lxor x y : LONG_MIN <= x <= LONG_MAX -> LONG_MIN <= y <= LONG_MAX ->
  LONG_MIN <= Z.lxor x y <= LONG_MAX.
Proof. rewrite !long_shiftr, Z.shiftr_lxor. intros [-> | ->] [-> | ->]; cbn; auto. Qed.

Lemma c_div_range x y z : c_div x y = Ok z -> LONG_MIN <= z <= LONG_MAX.
Proof. unfold c_div. case_match; [done |]. intros [-> Hr]%long_of_inv. by apply in_long_spec. Qed.

Lemma c_rem_range x y z : LONG_MIN <= x <= LONG_MAX -> c_rem x y = Ok z ->
  LONG_MIN <= z <= LONG_MAX.
Proof.
  unfold c_rem. intros Hx. case_match eqn:Hy; [done |]. case_match; [|done]. intros [= <-].
  apply Z.eqb_neq in Hy. pose proof (Z.rem_bound_abs x y Hy).
  destruct (Z.le_gt_cases 0 x) as [Hp|Hn].
  - pose proof (Z.rem_nonneg x y Hy Hp). pose proof (Z.rem_le x (Z.abs y) Hp ltac:(lia)).
    rewrite Z.rem_abs_r in * by done. unfold LONG_MIN in *. lia.
  - pose proof (Z.rem_nonpos x y Hy ltac:(lia)).
    pose proof (Z.rem_le (- x) (Z.abs y) ltac:(lia) ltac:(lia)) as Hle.
    rewrite Z.rem_abs_r, Z.rem_opp_l in Hle by done. unfold LONG_MAX in *. lia.
Qed.

Lemma long_of_range x z : long_of x = Ok z -> LONG_MIN <= z <= LONG_MAX.
Proof. intros [-> Hr]%long_of_inv. by apply in_long_spec. Qed.
Lemma long_INT_MIN : LONG_MIN <= INT_MIN <= LONG_MAX.
Proof. unfold LONG_MIN, LONG_MAX, INT_MIN. lia. Qed.
Lemma long_INT_MAX : LONG_MIN <= INT_MAX <= LONG_MAX.
Proof. unfold LONG_MIN, LONG_MAX, INT_MAX. lia. Qed.
Lemma long_0 : LONG_MIN <= 0 <= LONG_MAX.
Proof. unfold LONG_MIN, LONG_MAX. lia. Qed.
#[export] Hint Resolve long_INT_MIN long_INT_MAX long_0 : cw.
#[export] Hint Resolve c_div_range c_rem_range long_of_range long_land long_lor long_lxor : cw.

(** ** Definedness: a computation that returns *)
Definition sdef {S A} (m : SM S A) (s : S) : Prop := exists a s', m s = Ok (a, s').

Lemma sdef_ret {S A} (a : A) (s : S) : sdef (sret a) s.
Proof. by exists a, s. Qed.

Lemma sdef_rd {S A B} (o : option A) a (f : A -> SM S B) s :
  o = Some a -> sdef (f a) s -> sdef (sbind (slift (rd o)) f) s.
Proof. by intros -> Hf. Qed.

Lemma sdef_lift {S A B} (r : res A) a (f : A -> SM S B) s :
  r = Ok a -> sdef (f a) s -> sdef (sbind (slift r) f) s.
Proof. by intros -> Hf. Qed.

Lemma sdef_bind {S A B} (m : SM S A) (f : A -> SM S B) s :
  sdef m s -> (forall a s', m s = Ok (a, s') -> sdef (f a) s') -> sdef (sbind m f) s.
Proof. intros (a & s' & Hm) Hf. unfold sdef, sbind. rewrite Hm. by apply Hf. Qed.

(** Run a computation forward as far as its steps are known to return. *)
Ltac sdef_step :=
  match goal with
  | |- sdef (sret _) _ => apply sdef_ret
  | |- sdef (sbind (slift (rd _)) _) _ => eapply sdef_rd; [eassumption |]
  | |- sdef (sbind (slift (Ok _)) _) _ => eapply sdef_lift; [reflexivity |]
  | |- sdef (if ?b then _ else _) _ => destruct b eqn:?
  end.

(** Evaluate the decided equalities that follow from the hypotheses. *)
Ltac decide_simp :=
  repeat first [rewrite bool_decide_true by congruence | rewrite bool_decide_false by congruence].

(** ** Texts *)
Lemma string_cons_app c (a b : string) : (String c a +:+ b = String c (a +:+ b))%string.
Proof. done. Qed.
Lemma string_app_assoc (a b c : string) : ((a +:+ b) +:+ c = a +:+ b +:+ c)%string.
Proof. induction a as [|x a IH]; [done |]. by rewrite !string_cons_app, IH. Qed.
Lemma string_app_nil_r (a : string) : (a +:+ "" = a)%string.
Proof. induction a as [|x a IH]; [done |]. by rewrite string_cons_app, IH. Qed.
Lemma string_length_app (a b : string) : String.length (a +:+ b) = (String.length a + String.length b)%nat.
Proof. induction a as [|x a IH]; [done |]. rewrite string_cons_app. cbn. by rewrite IH. Qed.
