(* ===== verification/Cnum.v ===== *)
(** C numbers and number formatting.

    The parts of the C and C++ standard libraries the interpreter's values rely
    on: IEEE-754 doubles and floats (the executable binary64 and binary32 of the
    Standard Library's [SpecFloat]; it has one NaN without payload), their
    conversions to and from [long], [strtol] and [strtod] in the "C" locale, and
    the printf conversions ["%ld"], ["%lf"], ["%6.6lf"] and ["%1.20e"]. *)
From S2P Require Import Prelude.
From Stdlib Require Import SpecFloat Ascii.
Open Scope Z_scope.
Open Scope list_scope.

(** ** Characters and C strings *)
Definition code (c : ascii) : Z := Z.of_N (N_of_ascii c).
Definition chr (z : Z) : ascii := ascii_of_N (Z.to_N z).
Definition is_digit (c : ascii) : bool := (48 <=? code c) && (code c <=? 57).
Definition is_space (c : ascii) : bool :=
  (code c =? 32) || ((9 <=? code c) && (code c <=? 13)).
Definition lower (c : ascii) : ascii :=
  if (65 <=? code c) && (code c <=? 90) then chr (code c + 32) else c.
Definition hex_val (c : ascii) : option Z :=
  if is_digit c then Some (code c - 48)
  else let d := code (lower c) in
       if (97 <=? d) && (d <=? 102) then Some (d - 87) else None.
Definition is_hex (c : ascii) : bool := match hex_val c with Some _ => true | None => false end.

(** [std::string::c_str()] as a C function reads it: up to the first NUL. *)
Fixpoint c_str (l : list ascii) : list ascii :=
  match l with
  | [] => []
  | c :: l' => if code c =? 0 then [] else c :: c_str l'
  end.

(** The longest prefix whose characters satisfy [p], and the rest. *)
Fixpoint span (p : ascii -> bool) (l : list ascii) : list ascii * list ascii :=
  match l with
  | [] => ([], [])
  | c :: l' => if p c then let '(a, b) := span p l' in (c :: a, b) else ([], l)
  end.

Definition digits_val (l : list ascii) : Z :=
  fold_left (fun acc c => acc * 10 + (code c - 48)) l 0.
Definition hex_digits_val (l : list ascii) : Z :=
  fold_left (fun acc c => acc * 16 + default 0 (hex_val c)) l 0.

Definition take_sign (l : list ascii) : bool * list ascii :=
  match l with
  | c :: l' => if code c =? 45 then (true, l') else if code c =? 43 then (false, l') else (false, l)
  | [] => (false, [])
  end.

(** [strtol (l, &end, 10)]: the value and what [end] points at. Without a digit
    nothing is consumed; a value out of range is clamped. *)
Definition strtol (l : list ascii) : Z * list ascii :=
  let '(neg, l1) := take_sign (snd (span is_space l)) in
  match span is_digit l1 with
  | ([], _) => (0, l)
  | (ds, rest) =>
      let v := if neg then - digits_val ds else digits_val ds in
      (Z.max LONG_MIN (Z.min LONG_MAX v), rest)
  end.

(** ** Doubles and floats *)
Abbreviation double := spec_float.
Definition prec64 : Z := 53.
Definition emax64 : Z := 1024.
Definition fadd : double -> double -> double := SFadd prec64 emax64.
Definition fsub : double -> double -> double := SFsub prec64 emax64.
Definition fmul : double -> double -> double := SFmul prec64 emax64.
Definition fdiv : double -> double -> double := SFdiv prec64 emax64.
Definition fsqrt : double -> double := SFsqrt prec64 emax64.
Definition fopp : double -> double := SFopp.
Definition fabs : double -> double := SFabs.
Definition feqb : double -> double -> bool := SFeqb.
Definition fleb : double -> double -> bool := SFleb.
Definition fltb : double -> double -> bool := SFltb.
Definition fzero : double := S754_zero false.

(** [(double) z] for an integer [z], and [(float) x] for a double [x] (a float is
    kept as the double of the same value). *)
Definition float_of_Z (z : Z) : double := binary_normalize prec64 emax64 z 0 false.
Definition to_f32 (x : double) : double :=
  match x with
  | S754_finite s m e => binary_round 24 128 s m e
  | _ => x
  end.

(** The integer part of a finite double, towards zero. *)
Definition trunc_mag (m : positive) (e : Z) : Z :=
  if 0 <=? e then Z.pos m * 2 ^ e else Z.pos m / 2 ^ (- e).
Definition ftrunc (x : double) : option Z :=
  match x with
  | S754_zero _ => Some 0
  | S754_finite s m e => Some (if s then - trunc_mag m e else trunc_mag m e)
  | _ => None
  end.
(** [::round]: to nearest, halfway cases away from zero. *)
Definition fround (x : double) : option Z :=
  match x with
  | S754_zero _ => Some 0
  | S754_finite s m e =>
      let r := if 0 <=? e then Z.pos m * 2 ^ e
               else (2 * Z.pos m + 2 ^ (- e)) / (2 * 2 ^ (- e)) in
      Some (if s then - r else r)
  | _ => None
  end.

(** Conversion of a double to [long]: undefined out of range. *)
Definition to_long (o : option Z) : res Z := match o with Some z => long_of z | None => Undef end.
Definition long_of_float (x : double) : res Z := to_long (ftrunc x).

(** The double nearest to [m * 10^e]. *)
Definition dec_float (s : bool) (m e : Z) : double :=
  match m with
  | Zpos p =>
      if 0 <=? e then binary_round prec64 emax64 s (p * Z.to_pos (10 ^ e)) 0
      else fdiv (S754_finite s p 0) (S754_finite false (Z.to_pos (10 ^ (- e))) 0)
  | _ => S754_zero s
  end.

(** ** strtod *)
Definition strip_prefix (p l : list ascii) : option (list ascii) :=
  if decide (map lower (take (length p) l) = p) then Some (drop (length p) l) else None.

Definition dot : ascii := chr 46.
Definition take_frac (p : ascii -> bool) (l : list ascii) : list ascii * list ascii :=
  match l with
  | c :: l' => if code c =? 46 then span p l' else ([], l)
  | [] => ([], [])
  end.
(** An optional exponent part: it counts only when it has a digit. *)
Definition take_exp (mark : Z) (l : list ascii) : Z * list ascii :=
  match l with
  | c :: l' =>
      if code (lower c) =? mark then
        let '(neg, l2) := take_sign l' in
        match span is_digit l2 with
        | ([], _) => (0, l)
        | (ds, rest) => (if neg then - digits_val ds else digits_val ds, rest)
        end
      else (0, l)
  | [] => (0, [])
  end.

Definition parse_dec (s : bool) (l : list ascii) : option (double * list ascii) :=
  let '(ip, l1) := span is_digit l in
  let '(fp, l2) := take_frac is_digit l1 in
  match ip ++ fp with
  | [] => None
  | ds =>
      let '(e, l3) := take_exp 101 l2 in
      Some (dec_float s (digits_val ds) (e - Z.of_nat (length fp)), l3)
  end.

Definition parse_hex (s : bool) (l : list ascii) : option (double * list ascii) :=
  let '(ip, l1) := span is_hex l in
  let '(fp, l2) := take_frac is_hex l1 in
  match ip ++ fp with
  | [] => None
  | ds =>
      let '(e, l3) := take_exp 112 l2 in
      let m := hex_digits_val ds in
      Some (match m with
            | Zpos p => binary_round prec64 emax64 s p (e - 4 * Z.of_nat (length fp))
            | _ => S754_zero s
            end, l3)
  end.

Definition is_nchar (c : ascii) : bool :=
  is_digit c || (code c =? 95) ||
  ((97 <=? code (lower c)) && (code (lower c) <=? 122)).

(** The optional [(n-char-sequence)] after ["nan"]. *)
Definition skip_nan_payload (l : list ascii) : list ascii :=
  match l with
  | c :: l' =>
      if code c =? 40 then
        match snd (span is_nchar l') with
        | c2 :: rest => if code c2 =? 41 then rest else l
        | [] => l
        end
      else l
  | [] => []
  end.

Definition strtod (l : list ascii) : double * list ascii :=
  let '(neg, l1) := take_sign (snd (span is_space l)) in
  match strip_prefix (String.list_ascii_of_string "infinity"%string) l1 with
  | Some rest => (S754_infinity neg, rest)
  | None =>
  match strip_prefix (String.list_ascii_of_string "inf"%string) l1 with
  | Some rest => (S754_infinity neg, rest)
  | None =>
  match strip_prefix (String.list_ascii_of_string "nan"%string) l1 with
  | Some rest => (S754_nan, skip_nan_payload rest)
  | None =>
  match (match strip_prefix (String.list_ascii_of_string "0x"%string) l1 with
         | Some hexpart => parse_hex neg hexpart
         | None => None
         end) with
  | Some r => r
  | None =>
  match parse_dec neg l1 with
  | Some r => r
  | None => (fzero, l)
  end end end end end.

(** ** printf *)
Definition digit (d : Z) : ascii := chr (48 + d).

(** The decimal digits of [n >= 0], most significant first; [fuel] bounds their
    number. *)
Fixpoint digits (fuel : nat) (n : Z) : list ascii :=
  match fuel with
  | O => []
  | S f => if n <? 10 then [digit n] else digits f (n / 10) ++ [digit (n mod 10)]
  end.
Definition print_nat (n : Z) : list ascii := digits (S (Z.to_nat (Z.log2 n))) n.

(** ["%ld"]. *)
Definition print_long (z : Z) : list ascii :=
  if z <? 0 then chr 45 :: print_nat (- z) else print_nat z.

(** [m * 2^e * 10^6] rounded to the nearest integer, ties to even. *)
Definition scale6 (m : positive) (e : Z) : Z :=
  if 0 <=? e then Z.pos m * 2 ^ e * 10 ^ 6
  else
    let n := Z.pos m * 10 ^ 6 in
    let d := 2 ^ (- e) in
    let q := n / d in
    match 2 * (n mod d) ?= d with
    | Lt => q
    | Gt => q + 1
    | Eq => if Z.even q then q else q + 1
    end.
Definition pad_left (c : ascii) (w : nat) (l : list ascii) : list ascii :=
  repeat c (w - length l) ++ l.
Definition fixed6 (s : bool) (n : Z) : list ascii :=
  (if s then [chr 45] else []) ++ print_nat (n / 10 ^ 6) ++ [dot]
  ++ pad_left (chr 48) 6 (print_nat (n mod 10 ^ 6)).
(** ["%lf"] and ["%6.6lf"]. *)
Definition print_lf (x : double) : list ascii :=
  match x with
  | S754_zero s => fixed6 s 0
  | S754_finite s m e => fixed6 s (scale6 m e)
  | S754_infinity s => (if s then [chr 45] else []) ++ String.list_ascii_of_string "inf"%string
  | S754_nan => String.list_ascii_of_string "nan"%string
  end.
Definition print_double (x : double) : list ascii := pad_left (chr 32) 6 (print_lf x).

(** ["%1.20e"]. The decimal exponent of [n / d]: the greatest [k] with
    [10^k <= n / d], found by a search around an estimate from the numbers of
    binary digits; [fuel] bounds its steps. *)
Fixpoint dec_exponent (fuel : nat) (n d k : Z) : Z :=
  match fuel with
  | O => k
  | S f =>
      if n * 10 ^ Z.max 0 (- k) <? d * 10 ^ Z.max 0 k then dec_exponent f n d (k - 1)
      else if d * 10 ^ Z.max 0 (k + 1) <=? n * 10 ^ Z.max 0 (- (k + 1))
      then dec_exponent f n d (k + 1) else k
  end.
(** [n / d] rounded to the nearest integer, ties to even. *)
Definition round_even (n d : Z) : Z :=
  let q := n / d in
  match 2 * (n mod d) ?= d with
  | Lt => q
  | Gt => q + 1
  | Eq => if Z.even q then q else q + 1
  end.
Definition exp_digits (s : bool) (m k : Z) : list ascii :=
  (if s then [chr 45] else []) ++ print_nat (m / 10 ^ 20) ++ [dot]
  ++ pad_left (chr 48) 20 (print_nat (m mod 10 ^ 20))
  ++ chr 101 :: (if k <? 0 then chr 45 else chr 43) :: pad_left (chr 48) 2 (print_nat (Z.abs k)).
Definition print_e20 (x : double) : list ascii :=
  match x with
  | S754_finite s m e =>
      let n := Z.pos m * 2 ^ Z.max 0 e in
      let d := 2 ^ Z.max 0 (- e) in
      let k := dec_exponent 4 n d ((Z.log2 n - Z.log2 d) * 30103 / 100000) in
      let r := round_even (n * 10 ^ Z.max 0 (20 - k)) (d * 10 ^ Z.max 0 (k - 20)) in
      if 10 ^ 21 <=? r then exp_digits s (10 ^ 20) (k + 1) else exp_digits s r k
  | S754_zero s => exp_digits s 0 0
  | _ => print_lf x
  end.
(** [snprintf (buf, n, ...)] keeps at most [n - 1] characters. *)
Definition snprintf_buf (n : nat) (l : list ascii) : list ascii := take (n - 1) l.

(** ** Lemmas: decimal printing and reading *)
Lemma digit_cases d : 0 <= d < 10 ->
  code (digit d) = 48 + d /\ is_digit (digit d) = true /\ is_space (digit d) = false.
Proof.
  intros Hd.
  assert (d = 0 \/ d = 1 \/ d = 2 \/ d = 3 \/ d = 4 \/ d = 5 \/ d = 6 \/ d = 7 \/ d = 8 \/ d = 9)
    as Hc by lia.
  repeat (destruct Hc as [-> | Hc]; [done |]). by subst.
Qed.

Lemma digits_val_snoc l c : digits_val (l ++ [c]) = digits_val l * 10 + (code c - 48).
Proof. unfold digits_val. by rewrite fold_left_app. Qed.

Lemma digits_sound fuel n : 0 <= n -> n < 10 ^ Z.of_nat fuel -> (0 < fuel)%nat ->
  digits_val (digits fuel n) = n /\ Forall (fun c => is_digit c = true) (digits fuel n).
Proof.
  revert n. induction fuel as [|f IH]; intros n Hn Hlt Hf; [lia |]. cbn [digits].
  destruct (Z.ltb_spec n 10) as [Hs | Hb].
  - destruct (digit_cases n) as (Hc & Hd & _); [lia |].
    split; [unfold digits_val; cbn; rewrite Hc; lia | by repeat constructor].
  - assert (n mod 10 = n - 10 * (n / 10)) by (rewrite Z.mod_eq; lia).
    pose proof (Z.mod_pos_bound n 10 ltac:(lia)).
    destruct (digit_cases (n mod 10)) as (Hc & Hd & _); [lia |].
    rewrite Nat2Z.inj_succ, Z.pow_succ_r in Hlt by lia.
    assert (0 < f)%nat by (destruct f; [cbn in Hlt; lia | lia]).
    assert (0 <= n / 10) by (apply Z.div_pos; lia).
    assert (n / 10 < 10 ^ Z.of_nat f) by (apply Z.div_lt_upper_bound; lia).
    destruct (IH (n / 10)) as [Hv Ha]; [done..|].
    split; [rewrite digits_val_snoc, Hv, Hc; lia |].
    apply Forall_app; split; [done | by repeat constructor].
Qed.

Lemma print_nat_fuel n : 0 <= n -> n < 10 ^ Z.of_nat (S (Z.to_nat (Z.log2 n))).
Proof.
  intros Hn. destruct (decide (n = 0)) as [-> | Hz]; [done |].
  pose proof (Z.log2_spec n ltac:(lia)) as [_ H].
  pose proof (Z.log2_nonneg n).
  rewrite Nat2Z.inj_succ, Z2Nat.id by lia.
  eapply Z.lt_le_trans; [exact H |]. apply Z.pow_le_mono_l. lia.
Qed.

Lemma print_nat_sound n : 0 <= n ->
  digits_val (print_nat n) = n /\ Forall (fun c => is_digit c = true) (print_nat n).
Proof. intros Hn. apply digits_sound; [done | by apply print_nat_fuel | lia]. Qed.

Lemma digits_length fuel n k : 0 <= n -> n < 10 ^ Z.of_nat (S k) ->
  (length (digits fuel n) <= S k)%nat.
Proof.
  revert n k. induction fuel as [|f IH]; intros n k Hn Hlt; [cbn; lia |]. cbn [digits].
  destruct (Z.ltb_spec n 10) as [Hs | Hb]; [cbn; lia |].
  destruct k as [|k]; [cbn in Hlt; lia |].
  rewrite length_app. cbn [length].
  assert (length (digits f (n / 10)) <= S k)%nat; [|lia].
  apply IH; [apply Z.div_pos; lia |].
  apply Z.div_lt_upper_bound; [lia |]. rewrite Nat2Z.inj_succ, Z.pow_succ_r in Hlt; lia.
Qed.

Lemma digits_head fuel n : 0 <= n ->
  match digits (S fuel) n with c :: _ => is_digit c = true | [] => False end.
Proof.
  revert n. induction fuel as [|f IH]; intros n Hn.
  - cbn. destruct (Z.ltb_spec n 10); [by apply digit_cases |].
    apply digit_cases, Z.mod_pos_bound. lia.
  - cbn [digits]. destruct (Z.ltb_spec n 10); [by apply digit_cases |].
    specialize (IH (n / 10) ltac:(apply Z.div_pos; lia)). cbn [digits] in IH.
    destruct (n / 10 <? 10); [done |].
    destruct (digits f (n / 10 / 10)); done.
Qed.

Lemma span_all p l : Forall (fun c => p c = true) l -> span p l = (l, []).
Proof. induction 1 as [|c l Hc _ IH]; cbn; [done |]. by rewrite Hc, IH. Qed.

Lemma digit_not_special c : is_digit c = true ->
  is_space c = false /\ (code c =? 45) = false /\ (code c =? 43) = false /\ (code c =? 0) = false.
Proof. unfold is_digit, is_space. intros H. repeat split; lia. Qed.

Lemma c_str_digits l : Forall (fun c => is_digit c = true) l -> c_str l = l.
Proof.
  induction 1 as [|c l Hc _ IH]; cbn; [done |].
  destruct (digit_not_special c Hc) as (_ & _ & _ & ->). by rewrite IH.
Qed.

Lemma c_str_print_long z : c_str (print_long z) = print_long z.
Proof.
  unfold print_long. destruct (Z.ltb_spec z 0).
  - cbn [c_str]. replace (code (chr 45) =? 0) with false by done.
    rewrite c_str_digits; [done |]. apply print_nat_sound. lia.
  - apply c_str_digits, print_nat_sound. lia.
Qed.

(** Reading a printed [long] gives it back and consumes the whole text. *)
Lemma strtol_print_long z : LONG_MIN <= z <= LONG_MAX -> strtol (print_long z) = (z, []).
Proof.
  intros Hz. unfold print_long, strtol.
  destruct (Z.ltb_spec z 0).
  - destruct (print_nat_sound (- z)) as [Hv Ha]; [lia |].
    pose proof (digits_head (Z.to_nat (Z.log2 (- z))) (- z) ltac:(lia)) as Hh.
    fold (print_nat (- z)) in Hh.
    cbn [span]. replace (is_space (chr 45)) with false by done. cbn [snd take_sign].
    replace (code (chr 45) =? 45) with true by done.
    rewrite (span_all _ _ Ha). destruct (print_nat (- z)) eqn:E; [done |].
    rewrite Hv. f_equal. lia.
  - destruct (print_nat_sound z) as [Hv Ha]; [lia |].
    pose proof (digits_head (Z.to_nat (Z.log2 z)) z ltac:(lia)) as Hh.
    fold (print_nat z) in Hh.
    destruct (print_nat z) as [|c l] eqn:E; [done |].
    destruct (digit_not_special c Hh) as (Hs & Hm & Hp & _).
    cbn [span]. rewrite Hs. cbn [snd take_sign]. rewrite Hm, Hp.
    rewrite (span_all _ _ Ha), Hv. f_equal. lia.
Qed.

(** A printed [long] has at most 20 characters. *)
Lemma print_long_length z : LONG_MIN <= z <= LONG_MAX -> (length (print_long z) <= 20)%nat.
Proof.
  unfold LONG_MIN, LONG_MAX. intros Hz. unfold print_long, print_nat.
  destruct (Z.ltb_spec z 0); cbn [length];
    [enough (length (digits (S (Z.to_nat (Z.log2 (- z)))) (- z)) <= 19)%nat by lia |
     enough (length (digits (S (Z.to_nat (Z.log2 z))) z) <= 19)%nat by lia];
    apply digits_length; change (10 ^ Z.of_nat 19) with 10000000000000000000; lia.
Qed.

(** ** Lemmas: comparison and subtraction of doubles *)
Definition is_nan (x : double) : bool := match x with S754_nan => true | _ => false end.

Lemma SFcompare_antisym x y : SFcompare y x = CompOpp <$> SFcompare x y.
Proof.
  destruct x as [[]|[]| |[] mx ex], y as [[]|[]| |[] my ey]; cbn; try done.
  all: rewrite (Z.compare_antisym ex ey); destruct (ex ?= ey)%Z; cbn; try done.
  all: change (Pos.compare_cont Eq my mx) with (my ?= mx)%positive;
    change (Pos.compare_cont Eq mx my) with (mx ?= my)%positive;
    rewrite (Pos.compare_antisym mx my); by destruct (mx ?= my)%positive.
Qed.

Lemma SFcompare_total x y : is_nan x = false -> is_nan y = false ->
  exists c, SFcompare x y = Some c.
Proof. destruct x as [[]|[]| |[] mx ex], y as [[]|[]| |[] my ey]; cbn; eauto; done. Qed.

Lemma fleb_negb x y : is_nan x = false -> is_nan y = false -> fleb x y = negb (fltb y x).
Proof.
  intros Hx Hy. unfold fleb, fltb, SFleb, SFltb. rewrite (SFcompare_antisym x y).
  destruct (SFcompare_total x y Hx Hy) as [[] ->]; done.
Qed.

Lemma feqb_refl x : is_nan x = false -> feqb x x = true.
Proof.
  intros Hx. unfold feqb, SFeqb.
  destruct (SFcompare_total x x Hx Hx) as [c Hc].
  pose proof (SFcompare_antisym x x) as Ha. rewrite Hc in *. by destruct c.
Qed.

Lemma feqb_sym x y : feqb x y = feqb y x.
Proof.
  unfold feqb, SFeqb. rewrite (SFcompare_antisym x y). by destruct (SFcompare x y) as [[]|].
Qed.

Lemma shr_1_nonneg r : 0 <= shr_m r -> 0 <= shr_m (shr_1 r).
Proof. destruct r as [m rr s]; cbn. destruct m as [|[]|[]]; cbn; lia. Qed.

Lemma iter_pos_inv {A} (P : A -> Prop) f (n : positive) x :
  (forall a, P a -> P (f a)) -> P x -> P (iter_pos f n x).
Proof. intros Hf. revert x. induction n; cbn; eauto. Qed.

Lemma shr_nonneg r e n : 0 <= shr_m r -> 0 <= shr_m (fst (shr r e n)).
Proof.
  intros Hr. destruct n; cbn; [done | | done].
  by apply (iter_pos_inv (fun r => 0 <= shr_m r)); [apply shr_1_nonneg |].
Qed.

Lemma shr_fexp_nonneg p q m e l : 0 <= m -> 0 <= shr_m (fst (shr_fexp p q m e l)).
Proof.
  intros Hm. unfold shr_fexp. apply shr_nonneg.
  by destruct l as [|[]].
Qed.

Lemma round_nearest_even_nonneg m l : 0 <= m -> 0 <= round_nearest_even m l.
Proof. intros Hm. destruct l as [|[]]; cbn; try lia. destruct (Z.even m); lia. Qed.

Lemma binary_round_aux_not_nan p q s m e l : 0 <= m ->
  is_nan (binary_round_aux p q s m e l) = false.
Proof.
  intros Hm. unfold binary_round_aux.
  pose proof (shr_fexp_nonneg p q m e l Hm) as H1.
  destruct (shr_fexp p q m e l) as [r1 e1]; cbn [fst] in H1.
  pose proof (shr_fexp_nonneg p q _ e1 loc_Exact
    (round_nearest_even_nonneg _ (loc_of_shr_record r1) H1)) as H2.
  destruct (shr_fexp p q _ e1 loc_Exact) as [r2 e2]; cbn [fst] in H2.
  destruct (shr_m r2); [done | by case_match | lia].
Qed.

Lemma binary_normalize_not_nan p q m e s : is_nan (binary_normalize p q m e s) = false.
Proof.
  destruct m; cbn; [done | |]; unfold binary_round; case_match;
    apply binary_round_aux_not_nan; lia.
Qed.

Lemma float_of_Z_not_nan z : is_nan (float_of_Z z) = false.
Proof. apply binary_normalize_not_nan. Qed.

(** A difference of two doubles is NaN only when an operand is, or both are the
    same infinity, in which case they compare equal. *)
Lemma fsub_nan x y : is_nan x = false -> is_nan y = false -> feqb x y = false ->
  is_nan (fsub x y) = false.
Proof.
  destruct x as [[]|[]| |sx mx ex], y as [[]|[]| |sy my ey]; try done.
  intros _ _ _. unfold fsub; cbn -[binary_normalize]. apply binary_normalize_not_nan.
Qed.

Lemma fabs_not_nan x : is_nan (fabs x) = is_nan x.
Proof. by destruct x. Qed.

(** ["x == y || fabs (x - y) <= d"] and ["x != y && fabs (x - y) > d"] are
    complementary unless an operand is NaN. *)
Lemma near_complement x y d : is_nan x = false -> is_nan y = false -> is_nan d = false ->
  (negb (feqb x y) && fltb d (fabs (fsub x y)))
  = negb (feqb x y || fleb (fabs (fsub x y)) d).
Proof.
  intros Hx Hy Hd. destruct (feqb x y) eqn:E; cbn; [done |].
  pose proof (fsub_nan x y Hx Hy E).
  rewrite fleb_negb; [by rewrite negb_involutive | by rewrite fabs_not_nan | done].
Qed.
#[export] Hint Resolve float_of_Z_not_nan : cw.

Lemma long_of_float_range x z : long_of_float x = Ok z -> LONG_MIN <= z <= LONG_MAX.
Proof. unfold long_of_float, to_long. case_match; [apply long_of_range | done]. Qed.
#[export] Hint Resolve long_of_float_range : cw.
