(* ===== verification/Tokeniser.v ===== *)
(** The tokeniser (symboltable.cpp): the table that gives every symbol name an
    integer id, created with the interpreter's built-in names. *)
From S2P Require Import Prelude.
Open Scope Z_scope.

Record Tokeniser := mkTokeniser {
  tokens : gmap string Z;
  next : Z
}.

Definition Tokeniser_new : Tokeniser := mkTokeniser ∅ 0.

(** [Tokeniser::getTokenId]; [next] is an [int]. *)
Definition getTokenId (name : string) : SM Tokeniser Z := fun t =>
  match tokens t !! name with
  | Some id => Ok (id, t)
  | None => n ← int_of (next t + 1); Ok (n, mkTokeniser (<[name := n]> (tokens t)) n)
  end.

(** The static members of [ClockworkToken], set by [Tokeniser::instance]. *)
Record ClockworkToken := mkClockworkToken {
  tokEXTERNAL : Z; tokPOINT : Z; tokLIST : Z; tokTIMER : Z; tokREFERENCE : Z;
  tokITEM : Z; tokVARIABLE : Z; tokCONSTANT : Z; tokCONDITION : Z;
  tokMQTTPUBLISHER : Z; tokMQTTSUBSCRIBER : Z; tokPOLLING_DELAY : Z;
  tokCYCLE_DELAY : Z; tokMessage : Z; tokSYSTEMSETTINGS : Z; tokTRACEABLE : Z;
  tokVALUE : Z; tok_on : Z; tok_off : Z; tokDEBUG : Z; tokTRACE : Z
}.

Definition instance : SM Tokeniser ClockworkToken :=
  (let! tEXTERNAL := getTokenId "EXTERNAL" in
   let! tPOINT := getTokenId "POINT" in
   let! tLIST := getTokenId "LIST" in
   let! tTIMER := getTokenId "TIMER" in
   let! tREFERENCE := getTokenId "REFERENCE" in
   let! tITEM := getTokenId "ITEM" in
   let! tVARIABLE := getTokenId "VARIABLE" in
   let! tCONSTANT := getTokenId "CONSTANT" in
   let! tCONDITION := getTokenId "CONDITION" in
   let! tMQTTPUBLISHER := getTokenId "MQTTPUBLISHER" in
   let! tMQTTSUBSCRIBER := getTokenId "MQTTSUBSCRIBER" in
   let! tPOLLING_DELAY := getTokenId "POLLING_DELAY" in
   let! tCYCLE_DELAY := getTokenId "CYCLE_DELAY" in
   let! tMessage := getTokenId "message" in
   let! tSYSTEMSETTINGS := getTokenId "SYSTEMSETTINGS" in
   let! tTRACEABLE := getTokenId "TRACEABLE" in
   let! tVALUE := getTokenId "VALUE" in
   let! ton := getTokenId "on" in
   let! toff := getTokenId "off" in
   let! tDEBUG := getTokenId "DEBUG" in
   let! tTRACE := getTokenId "TRACE" in
   sret (mkClockworkToken tEXTERNAL tPOINT tLIST tTIMER tREFERENCE tITEM tVARIABLE
     tCONSTANT tCONDITION tMQTTPUBLISHER tMQTTSUBSCRIBER tPOLLING_DELAY tCYCLE_DELAY
     tMessage tSYSTEMSETTINGS tTRACEABLE tVALUE ton toff tDEBUG tTRACE))%sm.

(** ** Invariant: ids are positive, allocated in order and never shared *)
Record tok_wf (t : Tokeniser) : Prop := {
  tok_range : forall s id, tokens t !! s = Some id -> 1 <= id <= next t;
  tok_inj : forall s1 s2 id, tokens t !! s1 = Some id -> tokens t !! s2 = Some id -> s1 = s2;
  tok_next : 0 <= next t <= INT_MAX
}.

(** [t'] extends [t]: no name ever changes its id. *)
Definition tok_ext (t t' : Tokeniser) : Prop :=
  tokens t ⊆ tokens t' /\ next t <= next t'.

Lemma tok_ext_refl t : tok_ext t t.
Proof. split; [done | lia]. Qed.

Lemma tok_ext_trans t1 t2 t3 : tok_ext t1 t2 -> tok_ext t2 t3 -> tok_ext t1 t3.
Proof. intros [H1 H2] [H3 H4]. split; [by transitivity (tokens t2) | lia]. Qed.

Lemma tok_wf_new : tok_wf Tokeniser_new.
Proof.
  split; cbn; [intros s id H | intros s1 s2 id H | unfold INT_MAX; lia];
    by apply lookup_empty_Some in H.
Qed.

Lemma getTokenId_inv name t id t' : tok_wf t -> getTokenId name t = Ok (id, t') ->
  tok_wf t' /\ tok_ext t t' /\ tokens t' !! name = Some id.
Proof.
  intros Hwf. unfold getTokenId. destruct (tokens t !! name) as [n|] eqn:E.
  { intros [= <- <-]. auto using tok_ext_refl. }
  cbn. unfold int_of. destruct (in_int (next t + 1)) eqn:Hi; [|done].
  apply in_int_spec in Hi. cbn. intros [= <- <-]. destruct Hwf as [Hr Hinj Hn].
  split; [split; cbn; [| | lia]|].
  - intros s id' [[<- <-] | [_ Hs]]%lookup_insert_Some; [lia |]. specialize (Hr _ _ Hs). lia.
  - intros s1 s2 id' [[<- <-] | [N1 H1]]%lookup_insert_Some [[<- Hid] | [N2 H2]]%lookup_insert_Some;
      [done | apply Hr in H2; lia | subst; apply Hr in H1; lia | by eapply Hinj].
  - split; [|apply lookup_insert_eq]. split; cbn; [by apply insert_subseteq | lia].
Qed.

Lemma getTokenId_defined name t : tok_wf t -> next t < INT_MAX ->
  exists id t', getTokenId name t = Ok (id, t').
Proof.
  intros Hwf Hn. unfold getTokenId. destruct (tokens t !! name); [eauto |].
  cbn. unfold int_of. rewrite (proj2 (in_int_spec (next t + 1))); [eauto |].
  destruct Hwf. unfold INT_MIN, INT_MAX in *. lia.
Qed.

Lemma getTokenId_next name t id t' : getTokenId name t = Ok (id, t') -> next t' <= next t + 1.
Proof.
  unfold getTokenId. destruct (tokens t !! name); [intros [= _ <-]; lia |].
  cbn. unfold int_of. case_match; [|done]. cbn. intros [= _ <-]. cbn. lia.
Qed.

Lemma tok_ext_lookup t t' s id : tok_ext t t' -> tokens t !! s = Some id -> tokens t' !! s = Some id.
Proof. intros [H _] Hs. by eapply lookup_weaken. Qed.
#[export] Hint Resolve tok_ext_refl tok_wf_new : cw.
