(* ===== verification/Value.v ===== *)
(** Values (value.h, value.cpp): the dynamically typed values of the language,
    their constructors, conversions, comparisons and arithmetic. *)
From S2P Require Import Prelude Cnum Tokeniser.
From Stdlib Require Import SpecFloat Ascii.
Open Scope Z_scope.

(** ** Data *)
Inductive Kind := t_empty | t_integer | t_string | t_bool | t_symbol | t_dynamic | t_float.
#[export] Instance Kind_eq_dec : EqDecision Kind.
Proof. solve_decision. Defined.

Definition Kind_eqb (a b : Kind) : bool :=
  match a, b with
  | t_empty, t_empty | t_integer, t_integer | t_string, t_string | t_bool, t_bool
  | t_symbol, t_symbol | t_dynamic, t_dynamic | t_float, t_float => true
  | _, _ => false
  end.
Lemma Kind_eqb_eq a b : Kind_eqb a b = true <-> a = b.
Proof. by destruct a, b. Qed.

(** A [DynamicValueBase] object, by address. *)
Definition dynref := positive.

(** All the fields of [class Value] but the two lookup caches ([cached_machine],
    [cached_value]). A constructor that does not initialise a field leaves it
    indeterminate: [None]. For [dyn_value], [None] is the null pointer. *)
Record Value := mkValue {
  kind : Kind;
  bValue : option bool;
  iValue : option Z;
  fValue : option double;
  sValue : string;
  token_id : option Z;
  dyn_value : option dynref
}.
#[export] Instance double_eq_dec : EqDecision double.
Proof. solve_decision. Defined.
#[export] Instance Value_eq_dec : EqDecision Value.
Proof. solve_decision. Defined.

(** The virtual [operator()()] of the dynamic values that exist, and how deep a
    chain of dynamic values that evaluate to dynamic values is followed before
    the recursion exhausts the stack. *)
Class DynEnv := {
  dyn_call : dynref -> Value;
  dyn_depth : nat
}.

(** ** Constructors *)
Definition Value_kind (k : Kind) : Value := mkValue k None None None "" (Some 0) None.
Definition Value_empty : Value := Value_kind t_empty.
(** No machine has a dynamic property. *)
Definition no_dyn : DynEnv := {| dyn_call := fun _ => Value_empty; dyn_depth := 1 |}.
Definition Value_bool (b : bool) : Value := mkValue t_bool (Some b) None None "" (Some 0) None.
Definition Value_long (z : Z) : Value := mkValue t_integer None (Some z) None "" (Some 0) None.
Definition Value_int (z : Z) : Value := Value_long z.
Definition Value_uint (z : Z) : Value := Value_long z.
Definition Value_ulong (z : Z) : Value := Value_long (to_s64 z).
Definition Value_double (x : double) : Value :=
  mkValue t_float None None (Some x) "" (Some 0) None.
Definition Value_float (x : double) : Value := Value_double x.
(** [Value (DynamicValueBase * )]: [token_id] is not initialised. *)
Definition Value_dyn (p : option dynref) : Value := mkValue t_dynamic None None None "" None p.

Definition mkString (k : Kind) (s : string) (tok : Z) : Value :=
  mkValue k None None None s (Some tok) None.
Definition mkBoolTok (b : bool) (tok : Z) : Value :=
  mkValue t_bool (Some b) None None "" (Some tok) None.

(** [Value (const char *, Kind)]: only a symbol that is not a literal is
    tokenised. *)
Definition Value_cstr (str : string) (k : Kind) : SM Tokeniser Value :=
  (if Kind_eqb k t_symbol && negb (bool_decide (str = "")) then
     if bool_decide (str = "FALSE") then sret (mkBoolTok false 0)
     else if bool_decide (str = "TRUE") then sret (mkBoolTok true 0)
     else if bool_decide (str = "NULL") then sret (mkString t_empty "" 0)
     else let! id := getTokenId str in sret (mkString t_symbol str id)
   else sret (mkString k str 0))%sm.

(** [Value (std::string, Kind)]: every non-empty symbol text is tokenised, the
    literals too. *)
Definition Value_str (str : string) (k : Kind) : SM Tokeniser Value :=
  (if Kind_eqb k t_symbol && negb (bool_decide (str = "")) then
     let! id := getTokenId str in
     sret (if bool_decide (str = "FALSE") then mkBoolTok false id
           else if bool_decide (str = "TRUE") then mkBoolTok true id
           else if bool_decide (str = "NULL") then mkString t_empty "" id
           else mkString t_symbol str id)
   else sret (mkString k str 0))%sm.

(** [operator=]: only the fields of the new kind are copied, the others keep
    their old contents. *)
Definition assign (dst src : Value) : Value :=
  let d := mkValue (kind src) (bValue dst) (iValue dst) (fValue dst) (sValue dst)
             (token_id dst) None in
  match kind src with
  | t_bool => mkValue (kind src) (bValue src) (iValue d) (fValue d) (sValue d) (token_id d) None
  | t_integer => mkValue (kind src) (bValue d) (iValue src) (fValue d) (sValue d) (token_id d) None
  | t_float => mkValue (kind src) (bValue d) (iValue d) (fValue src) (sValue d) (token_id d) None
  | t_string => mkValue (kind src) (bValue d) (iValue d) (fValue d) (sValue src) (token_id d) None
  | t_symbol =>
      mkValue (kind src) (bValue d) (iValue d) (fValue d) (sValue src) (token_id src) None
  | t_dynamic =>
      mkValue (kind src) (bValue d) (iValue d) (fValue d) (sValue d) (token_id d) (dyn_value src)
  | t_empty => d
  end.

Definition set_kind (k : Kind) (v : Value) : Value :=
  mkValue k (bValue v) (iValue v) (fValue v) (sValue v) (token_id v) (dyn_value v).
Definition set_i (i : Z) (v : Value) : Value :=
  mkValue (kind v) (bValue v) (Some i) (fValue v) (sValue v) (token_id v) (dyn_value v).
Definition set_f (f : double) (v : Value) : Value :=
  mkValue (kind v) (bValue v) (iValue v) (Some f) (sValue v) (token_id v) (dyn_value v).
Definition set_b (b : bool) (v : Value) : Value :=
  mkValue (kind v) (Some b) (iValue v) (fValue v) (sValue v) (token_id v) (dyn_value v).
Definition set_s (s : string) (tok : Z) (v : Value) : Value :=
  mkValue (kind v) (bValue v) (iValue v) (fValue v) s (Some tok) (dyn_value v).

Definition toString (v : Value) : Value :=
  if Kind_eqb (kind v) t_symbol then set_kind t_string v else v.
Definition toSymbol (v : Value) : Value :=
  if Kind_eqb (kind v) t_string then set_kind t_symbol v else v.
Definition isNull (v : Value) : bool := Kind_eqb (kind v) t_empty.
Definition numeric (v : Value) : bool :=
  Kind_eqb (kind v) t_integer || Kind_eqb (kind v) t_float.

(** ** Conversions *)
Definition chars (s : string) : list ascii := String.list_ascii_of_string s.
Definition str (l : list ascii) : string := String.string_of_list_ascii l.
Definition at_end (l : list ascii) : bool := match l with [] => true | _ => false end.

(** [stringToLong] and [stringToFloat]: the out parameter is set even when the
    conversion fails. *)
Definition stringToLong (s : string) : bool * Z :=
  let '(x, rest) := strtol (c_str (chars s)) in (at_end rest, x).
Definition stringToFloat (s : string) : bool * double :=
  let '(x, rest) := strtod (c_str (chars s)) in (at_end rest, x).

(** [Value::trunc] and [Value::round]. *)
Definition trunc (v : Value) : res Z :=
  match kind v with
  | t_integer => rd (iValue v)
  | t_float => f ← rd (fValue v); long_of_float f
  | _ => Ok 0
  end.
Definition round (v : Value) : res Z :=
  match kind v with
  | t_integer => rd (iValue v)
  | t_float => f ← rd (fValue v); to_long (fround f)
  | _ => Ok 0
  end.
Definition toFloat (v : Value) : res double :=
  match kind v with
  | t_integer => i ← rd (iValue v); Ok (float_of_Z i)
  | t_float => rd (fValue v)
  | t_string => let '(ok, x) := stringToFloat (sValue v) in Ok (if ok then x else fzero)
  | _ => Ok fzero
  end.

Section Conversions.
Context `{DynEnv}.

(** [asInteger (long &x)], with the contents of [x] before the call; the result
    holds the returned flag and [x] afterwards. *)
Fixpoint asInteger_n (d : nat) (v : Value) (x : option Z) : res (bool * option Z) :=
  match kind v with
  | t_integer => i ← rd (iValue v); Ok (true, Some i)
  | t_float => f ← rd (fValue v); i ← long_of_float f; Ok (true, Some i)
  | t_string | t_symbol =>
      let '(ok, i) := stringToLong (sValue v) in Ok (ok, Some i)
  | t_bool => b ← rd (bValue v); Ok (true, Some (if b : bool then 1 else 0))
  | t_dynamic =>
      p ← rd (dyn_value v);
      match d with O => Undef | S d' => asInteger_n d' (dyn_call p) x end
  | t_empty => Ok (false, x)
  end.
Definition asInteger : Value -> option Z -> res (bool * option Z) := asInteger_n dyn_depth.

Fixpoint asFloat_n (d : nat) (v : Value) (x : option double) : res (bool * option double) :=
  match kind v with
  | t_float => f ← rd (fValue v); Ok (true, Some f)
  | t_integer => i ← rd (iValue v); Ok (true, Some (float_of_Z i))
  | t_string | t_symbol =>
      let '(ok, f) := stringToFloat (sValue v) in Ok (ok, Some f)
  | t_bool => b ← rd (bValue v); Ok (true, Some (if b : bool then float_of_Z 1 else fzero))
  | t_dynamic =>
      p ← rd (dyn_value v);
      match d with O => Undef | S d' => asFloat_n d' (dyn_call p) x end
  | t_empty => Ok (false, x)
  end.
Definition asFloat : Value -> option double -> res (bool * option double) := asFloat_n dyn_depth.

Fixpoint asBoolean_n (d : nat) (v : Value) (x : option bool) : res (bool * option bool) :=
  match kind v with
  | t_bool => b ← rd (bValue v); Ok (true, Some b)
  | t_integer => i ← rd (iValue v); Ok (true, Some (negb (i =? 0)))
  | t_float => f ← rd (fValue v); Ok (true, Some (negb (feqb f fzero)))
  | t_string | t_symbol =>
      if bool_decide (sValue v = "true") || bool_decide (sValue v = "TRUE") then Ok (true, Some true)
      else if bool_decide (sValue v = "false") || bool_decide (sValue v = "FALSE")
      then Ok (true, Some false)
      else Ok (false, x)
  | t_dynamic =>
      p ← rd (dyn_value v);
      match d with O => Undef | S d' => asBoolean_n d' (dyn_call p) x end
  | t_empty => Ok (false, x)
  end.
Definition asBoolean : Value -> option bool -> res (bool * option bool) := asBoolean_n dyn_depth.

(** [asString ()], without a format. *)
Fixpoint asString_n (d : nat) (v : Value) : res string :=
  match kind v with
  | t_bool => b ← rd (bValue v); Ok (if b : bool then "true" else "false")
  | t_integer => i ← rd (iValue v); Ok (str (snprintf_buf 25 (print_long i)))
  | t_float => f ← rd (fValue v); Ok (str (snprintf_buf 25 (print_double f)))
  | t_empty => Ok "null"
  | t_symbol | t_string => Ok (sValue v)
  | t_dynamic =>
      p ← rd (dyn_value v);
      match d with O => Undef | S d' => asString_n d' (dyn_call p) end
  end.
Definition asString : Value -> res string := asString_n dyn_depth.

Definition quote : string := str [chr 34].
(** [Value::quoted]: quotes are added unless the text both starts and ends with
    one. *)
Definition quoted (v : Value) : res string :=
  s ← asString v;
  let l := chars s in
  match l with
  | c :: _ =>
      if negb (code c =? 34) || negb (code (List.last l c) =? 34)
      then Ok (quote +:+ s +:+ quote) else Ok s
  | [] => Ok (quote +:+ s +:+ quote)
  end.

(** ** Comparison *)
Definition as_string_kind (k : Kind) : Kind := match k with t_symbol => t_string | _ => k end.
Definition numeric_types (a b : Kind) : bool :=
  (Kind_eqb a t_integer || Kind_eqb a t_float) &&
  (Kind_eqb b t_integer || Kind_eqb b t_float).
Definition ZERO_DISTANCE : double := Eval vm_compute in dec_float false 1 (-8).

(** The coercion prefix the four comparison operators share: when the kinds mix
    numbers (or a string with something else) and one side is a float or an
    integer, both sides are converted and compared; a failed conversion gives
    [dflt]. [None]: the operator goes on with its kind-specific comparison. *)
Definition coerced (fcmp : double -> double -> bool) (icmp : Z -> Z -> bool) (dflt : bool)
    (v w : Value) : res (option bool) :=
  let a := as_string_kind (kind v) in
  let b := as_string_kind (kind w) in
  if numeric_types a b ||
     (negb (Kind_eqb a b) && (Kind_eqb a t_string || Kind_eqb b t_string))
  then
    if Kind_eqb a t_float || Kind_eqb b t_float then
      '(okx, x) ← asFloat v None;
      if negb okx then Ok (Some dflt) else
      '(oky, y) ← asFloat w None;
      if negb oky then Ok (Some dflt) else
      x' ← rd x; y' ← rd y; Ok (Some (fcmp x' y'))
    else if Kind_eqb a t_integer || Kind_eqb b t_integer then
      '(okx, x) ← asInteger v None;
      if negb okx then Ok (Some dflt) else
      '(oky, y) ← asInteger w None;
      if negb oky then Ok (Some dflt) else
      x' ← rd x; y' ← rd y; Ok (Some (icmp x' y'))
    else Ok None
  else Ok None.

Definition str_geb (s t : string) : bool :=
  match String.compare s t with Lt => false | _ => true end.
Definition str_leb (s t : string) : bool :=
  match String.compare s t with Gt => false | _ => true end.

(** [operator>=] and [operator<=]: the final [switch] is on the kind of the left
    operand and knows neither booleans nor dynamic values. *)
Definition ordered (fcmp : double -> double -> bool) (icmp : Z -> Z -> bool)
    (scmp : string -> string -> bool) (v w : Value) : res bool :=
  c ← coerced fcmp icmp false v w;
  match c with
  | Some r => Ok r
  | None =>
      if negb (Kind_eqb (as_string_kind (kind v)) (as_string_kind (kind w))) then Ok false
      else match kind v with
           | t_empty => Ok false
           | t_integer => x ← rd (iValue v); y ← rd (iValue w); Ok (icmp x y)
           | t_float => x ← rd (fValue v); y ← rd (fValue w); Ok (fcmp x y)
           | t_symbol | t_string => Ok (scmp (sValue v) (sValue w))
           | t_bool | t_dynamic => Ok false
           end
  end.
Definition value_ge : Value -> Value -> res bool :=
  ordered (fun x y => fleb y x) (fun x y => y <=? x) str_geb.
Definition value_le : Value -> Value -> res bool :=
  ordered (fun x y => fleb x y) (fun x y => x <=? y) str_leb.
Definition value_lt (v w : Value) : res bool := negb <$> value_ge v w.
Definition value_gt (v w : Value) : res bool := negb <$> value_le v w.

Definition fnear (x y : double) : bool := feqb x y || fleb (fabs (fsub x y)) ZERO_DISTANCE.
Definition ffar (x y : double) : bool := negb (feqb x y) && fltb ZERO_DISTANCE (fabs (fsub x y)).

Definition value_eq (v w : Value) : res bool :=
  if Kind_eqb (kind v) t_symbol && Kind_eqb (kind w) t_symbol then
    x ← rd (token_id v); y ← rd (token_id w); Ok (x =? y)
  else
  c ← coerced fnear Z.eqb false v w;
  match c with
  | Some r => Ok r
  | None =>
      if negb (Kind_eqb (as_string_kind (kind v)) (as_string_kind (kind w))) then Ok false
      else match as_string_kind (kind v) with
           | t_empty => Ok true
           | t_float => x ← rd (fValue v); y ← rd (fValue w); Ok (fnear x y)
           | t_integer => x ← rd (iValue v); y ← rd (iValue w); Ok (x =? y)
           | t_symbol => x ← rd (token_id v); y ← rd (token_id w); Ok (x =? y)
           | t_string => Ok (bool_decide (sValue v = sValue w))
           | t_bool => x ← rd (bValue v); y ← rd (bValue w); Ok (Bool.eqb x y)
           | t_dynamic => Ok false
           end
  end.

Definition value_ne (v w : Value) : res bool :=
  if Kind_eqb (kind v) t_symbol && Kind_eqb (kind w) t_symbol then
    x ← rd (token_id v); y ← rd (token_id w); Ok (negb (x =? y))
  else
  c ← coerced ffar (fun x y => negb (x =? y)) true v w;
  match c with
  | Some r => Ok r
  | None =>
      if negb (Kind_eqb (as_string_kind (kind v)) (as_string_kind (kind w))) then Ok true
      else match as_string_kind (kind v) with
           | t_empty => Ok false
           | t_integer => x ← rd (iValue v); y ← rd (iValue w); Ok (negb (x =? y))
           | t_float => x ← rd (fValue v); y ← rd (fValue w); Ok (ffar x y)
           | t_symbol => x ← rd (token_id v); y ← rd (token_id w); Ok (negb (x =? y))
           | t_string => Ok (negb (bool_decide (sValue v = sValue w)))
           | t_bool => x ← rd (bValue v); y ← rd (bValue w); Ok (negb (Bool.eqb x y))
           | t_dynamic => Ok false
           end
  end.

(** [Value::identical]: floats are compared exactly. *)
Definition identical (v w : Value) : res bool :=
  if negb (Kind_eqb (kind v) t_float) || negb (Kind_eqb (kind w) t_float)
  then value_eq v w
  else x ← rd (fValue v); y ← rd (fValue w); Ok (feqb x y).

(** [operator&&], [operator||] and [operator!]; the built-in operators on the
    fields short-circuit. *)
Definition value_and (v w : Value) : res bool :=
  match kind v with
  | t_integer =>
      x ← rd (iValue v);
      if x =? 0 then Ok false else y ← rd (iValue w); Ok (negb (y =? 0))
  | t_bool => x ← rd (bValue v); if x : bool then rd (bValue w) else Ok false
  | _ => Ok false
  end.
Definition value_or (v w : Value) : res bool :=
  match kind v with
  | t_integer =>
      x ← rd (iValue v);
      if x =? 0 then y ← rd (iValue w); Ok (negb (y =? 0)) else Ok true
  | t_bool => x ← rd (bValue v); if x : bool then Ok true else rd (bValue w)
  | _ => Ok false
  end.
Definition value_not (v : Value) : res bool :=
  match kind v with
  | t_empty => Ok true
  | t_integer => x ← rd (iValue v); Ok (x =? 0)
  | t_bool => x ← rd (bValue v); Ok (negb x)
  | t_symbol | t_string => Ok false
  | t_dynamic | t_float => Ok true
  end.
End Conversions.

Lemma value_eq_symbols `{DynEnv} v w x y : kind v = t_symbol -> kind w = t_symbol ->
  token_id v = Some x -> token_id w = Some y -> value_eq v w = Ok (x =? y).
Proof. intros Kv Kw Tv Tw. unfold value_eq. rewrite Kv, Kw. cbn. by rewrite Tv, Tw. Qed.
