(* ===== verification/ValueOps.v ===== *)
(** Arithmetic on values (value.cpp): the [ValueOperations] functors, the
    coercions of [TypeFix] and the operators built on them. *)
From S2P Require Import Prelude Cnum Tokeniser Value.
From Stdlib Require Import SpecFloat Ascii.
Open Scope Z_scope.

Section Ops.
Context `{DynEnv}.
Local Open Scope sm_scope.

(** ** The functors of namespace [ValueOperations] *)
Definition Sum (a b : Value) : SM Tokeniser Value :=
  match kind a, kind b with
  | t_integer, t_integer =>
      let? x := rd (iValue a) in let? y := rd (iValue b) in
      let? z := long_of (x + y) in sret (Value_long z)
  | t_integer, t_float =>
      let? x := rd (iValue a) in let? y := rd (fValue b) in
      sret (Value_double (fadd y (float_of_Z x)))
  | t_integer, _ => let? x := rd (iValue a) in sret (Value_long x)
  | t_float, t_float =>
      let? x := rd (fValue a) in let? y := rd (fValue b) in sret (Value_double (fadd x y))
  | t_float, t_integer =>
      let? x := rd (fValue a) in let? y := rd (iValue b) in
      sret (Value_double (fadd x (float_of_Z y)))
  | t_float, _ => let? x := rd (fValue a) in sret (Value_double x)
  | _, t_integer => let? y := rd (iValue b) in sret (Value_long y)
  | _, t_float => let? y := rd (fValue b) in sret (Value_double y)
  | t_string, _ => let? s := asString b in Value_str (sValue a +:+ s) t_string
  | t_symbol, _ => let? s := asString b in Value_str (sValue a +:+ s) t_symbol
  | _, _ => sret (Value_int 0)
  end.

Definition Minus (a b : Value) : SM Tokeniser Value :=
  match kind a, kind b with
  | t_integer, t_integer =>
      let? x := rd (iValue a) in let? y := rd (iValue b) in
      let? z := long_of (x - y) in sret (Value_long z)
  | t_integer, t_float =>
      let? x := rd (iValue a) in let? y := rd (fValue b) in
      sret (Value_double (fsub (float_of_Z x) y))
  | t_integer, _ => let? x := rd (iValue a) in sret (Value_long x)
  | t_float, t_float =>
      let? x := rd (fValue a) in let? y := rd (fValue b) in sret (Value_double (fsub x y))
  | t_float, t_integer =>
      let? x := rd (fValue a) in let? y := rd (iValue b) in
      sret (Value_double (fsub x (float_of_Z y)))
  | t_float, _ => let? x := rd (fValue a) in sret (Value_double x)
  | _, t_integer => let? y := rd (iValue b) in let? z := long_of (- y) in sret (Value_long z)
  | _, t_float => let? y := rd (fValue b) in sret (Value_double (fopp y))
  | t_string, _ => sret a
  | t_symbol, _ => sret a
  | _, _ => sret (Value_int 0)
  end.

Definition Multiply (a b : Value) : SM Tokeniser Value :=
  match kind a, kind b with
  | t_integer, t_integer =>
      let? x := rd (iValue a) in let? y := rd (iValue b) in
      let? z := long_of (x * y) in sret (Value_long z)
  | t_integer, t_float =>
      let? x := rd (iValue a) in let? y := rd (fValue b) in
      sret (Value_double (fmul y (float_of_Z x)))
  | t_float, t_float =>
      let? x := rd (fValue a) in let? y := rd (fValue b) in sret (Value_double (fmul x y))
  | t_float, t_integer =>
      let? x := rd (fValue a) in let? y := rd (iValue b) in
      sret (Value_double (fmul x (float_of_Z y)))
  | _, _ => sret (Value_int 0)
  end.

Definition saturated (neg : bool) : Value := Value_int (if neg then INT_MIN else INT_MAX).

Definition Divide (a b : Value) : SM Tokeniser Value :=
  match kind a with
  | t_integer =>
      let? x := rd (iValue a) in
      if x =? 0 then sret a else
      match kind b with
      | t_integer =>
          let? y := rd (iValue b) in
          if y =? 0 then sret (saturated (x <? 0))
          else let? z := c_div x y in sret (Value_long z)
      | t_float =>
          let? y := rd (fValue b) in
          if feqb y fzero then sret (saturated (x <? 0))
          else sret (Value_double (fdiv (float_of_Z x) y))
      | _ => sret a
      end
  | t_float =>
      let? x := rd (fValue a) in
      if feqb x fzero then sret (Value_double fzero) else
      match kind b with
      | t_float =>
          let? y := rd (fValue b) in
          if feqb y fzero then sret (saturated (fltb x fzero))
          else sret (Value_double (fdiv x y))
      | t_integer =>
          let? y := rd (iValue b) in
          if y =? 0 then sret (saturated (fltb x fzero))
          else sret (Value_double (fdiv x (float_of_Z y)))
      | _ => sret (Value_int 0)
      end
  | _ => sret a
  end.

Definition Modulus (a b : Value) : SM Tokeniser Value :=
  match kind b with
  | t_integer =>
      let? y := rd (iValue b) in
      if y =? 0 then sret (Value_int 0) else
      match kind a with
      | t_integer => let? x := rd (iValue a) in let? z := c_rem x y in sret (Value_long z)
      | t_float =>
          let? x := rd (fValue a) in let? xi := long_of_float x in
          let? z := c_rem xi y in sret (Value_long z)
      | _ => sret (Value_int 0)
      end
  | _ => sret a
  end.

(** The bit operators read [iValue] whatever the kinds are. *)
Definition bit_op (f : Z -> Z -> Z) (a b : Value) : SM Tokeniser Value :=
  let? x := rd (iValue a) in let? y := rd (iValue b) in sret (Value_long (f x y)).
Definition BitAnd : Value -> Value -> SM Tokeniser Value := bit_op Z.land.
Definition BitOr : Value -> Value -> SM Tokeniser Value := bit_op Z.lor.
Definition BitXOr : Value -> Value -> SM Tokeniser Value := bit_op Z.lxor.

(** [TypeFix::operator()]: coerce operands of different kinds and apply [op]. *)
Definition is_text (k : Kind) : bool := match k with t_string | t_symbol => true | _ => false end.
Definition is_number (k : Kind) : bool := match k with t_integer | t_float => true | _ => false end.
Definition TypeFix (op : Value -> Value -> SM Tokeniser Value) (a b : Value)
    : SM Tokeniser Value :=
  if Kind_eqb (kind a) (kind b) then sret a
  else if is_number (kind a) && is_text (kind b) then
    match stringToLong (sValue b) with
    | (true, x) => op a (assign Value_empty (Value_long x))
    | (false, _) =>
        match stringToFloat (sValue b) with
        | (true, x) => op a (assign Value_empty (Value_double x))
        | (false, _) => sret a
        end
    end
  else if is_text (kind a) then
    let? s := asString b in let! bs := Value_str s t_string in op a bs
  else if (Kind_eqb (kind a) t_integer && Kind_eqb (kind b) t_float) ||
          (Kind_eqb (kind a) t_float && Kind_eqb (kind b) t_integer)
  then op a b
  else sret a.

(** ** The compound assignments: the new contents of [*this] *)
Definition add_assign (v w : Value) : SM Tokeniser Value :=
  if negb (Kind_eqb (kind v) (kind w)) then
    let! r := TypeFix Sum v w in sret (assign v r)
  else match kind v with
  | t_integer =>
      let? x := rd (iValue v) in let? y := rd (iValue w) in
      let? z := long_of (x + y) in sret (set_i z v)
  | t_float => let? x := rd (fValue v) in let? y := rd (fValue w) in sret (set_f (fadd x y) v)
  | t_bool =>
      (* no break: the text of the other value is appended as well *)
      let? x := rd (bValue v) in let? y := rd (bValue w) in
      let? s := asString w in sret (set_s (sValue v +:+ s) 0 (set_b (x || y) v))
  | t_symbol | t_string => let? s := asString w in sret (set_s (sValue v +:+ s) 0 v)
  | t_empty | t_dynamic => sret v
  end.

Definition sub_assign (v w : Value) : SM Tokeniser Value :=
  if negb (Kind_eqb (kind v) (kind w)) then
    let! r := TypeFix Minus v w in sret (assign v r)
  else match kind v with
  | t_integer =>
      let? x := rd (iValue v) in let? y := rd (iValue w) in
      let? z := long_of (x - y) in sret (set_i z v)
  | t_float => let? x := rd (fValue v) in let? y := rd (fValue w) in sret (set_f (fsub x y) v)
  | t_bool => let? x := rd (bValue v) in let? y := rd (bValue w) in sret (set_b (x || y) v)
  | _ => sret v
  end.

Definition mul_assign (v w : Value) : SM Tokeniser Value :=
  if negb (Kind_eqb (kind v) (kind w)) then
    if is_text (kind v) then sret v
    else let! r := TypeFix Multiply v w in sret (assign v r)
  else match kind v with
  | t_integer =>
      let? x := rd (iValue v) in let? y := rd (iValue w) in
      let? z := long_of (x * y) in sret (set_i z v)
  | t_float => let? x := rd (fValue v) in let? y := rd (fValue w) in sret (set_f (fmul x y) v)
  | t_bool => let? x := rd (bValue v) in let? y := rd (bValue w) in sret (set_b (x && y) v)
  | _ => sret v
  end.

Definition div_assign (v w : Value) : SM Tokeniser Value :=
  if negb (Kind_eqb (kind v) (kind w)) then
    let! r := TypeFix Divide v w in sret (assign v r)
  else match kind v with
  | t_integer =>
      let? x := rd (iValue v) in
      if x =? 0 then sret v else
      let? y := rd (iValue w) in
      if y =? 0 then sret (set_i (if x <? 0 then INT_MIN else INT_MAX) v)
      else let? z := c_div x y in sret (set_i z v)
  | t_float =>
      let? x := rd (fValue v) in
      if feqb x fzero then sret v else
      let? y := rd (fValue w) in
      if feqb y fzero
      then sret (set_f (float_of_Z (if fltb x fzero then INT_MIN else INT_MAX)) v)
      else sret (set_f (fdiv x y) v)
  | t_bool => let? x := rd (bValue v) in let? y := rd (bValue w) in sret (set_b (x && y) v)
  | _ => sret v
  end.

Definition mod_assign (v w : Value) : SM Tokeniser Value :=
  if negb (Kind_eqb (kind v) (kind w)) then
    let! r := TypeFix Modulus v w in sret (assign v r)
  else match kind v with
  | t_integer =>
      let? y := rd (iValue w) in
      if y =? 0 then sret (set_i 0 v)
      else let? x := rd (iValue v) in let? z := c_rem x y in sret (set_i z v)
  | t_float =>
      let? fy := rd (fValue w) in
      if feqb fy fzero then sret (set_kind t_integer (set_i 0 v))
      else
        (* the divisor is the other value's integer field *)
        let? fx := rd (fValue v) in let? x := long_of_float fx in
        let? y := rd (iValue w) in let? z := c_rem x y in
        sret (set_kind t_integer (set_i z v))
  | t_bool => let? x := rd (bValue v) in let? y := rd (bValue w) in sret (set_b (xorb x y) v)
  | _ => sret v
  end.

Definition bit_assign (f : Z -> Z -> Z) (g : bool -> bool -> bool) (v w : Value)
    : SM Tokeniser Value :=
  if negb (Kind_eqb (kind v) (kind w)) then
    let! r := TypeFix (bit_op f) v w in sret (assign v r)
  else match kind v with
  | t_integer => let? x := rd (iValue v) in let? y := rd (iValue w) in sret (set_i (f x y) v)
  | t_bool => let? x := rd (bValue v) in let? y := rd (bValue w) in sret (set_b (g x y) v)
  | _ => sret v
  end.
Definition and_assign : Value -> Value -> SM Tokeniser Value := bit_assign Z.land andb.
Definition or_assign : Value -> Value -> SM Tokeniser Value := bit_assign Z.lor orb.
Definition xor_assign : Value -> Value -> SM Tokeniser Value := bit_assign Z.lxor xorb.

(** [operator~] changes the value in place. *)
Definition value_compl (v : Value) : res Value :=
  match kind v with
  | t_integer => x ← rd (iValue v); Ok (set_i (Z.lnot x) v)
  | t_bool => x ← rd (bValue v); Ok (set_b (negb x) v)
  | _ => Ok v
  end.

(** Unary minus. *)
Definition value_neg (v : Value) : res Value :=
  match kind v with
  | t_integer => x ← rd (iValue v); z ← long_of (- x); Ok (Value_long z)
  | t_float => x ← rd (fValue v); Ok (Value_double (fopp x))
  | t_symbol | t_string =>
      match stringToLong (sValue v) with
      | (true, x) => z ← long_of (- x); Ok (Value_long z)
      | (false, _) => Ok v
      end
  | _ => Ok v
  end.

(** The binary operators work on a copy of the left operand. *)
Definition value_add := add_assign.
Definition value_sub := sub_assign.
Definition value_mul := mul_assign.
Definition value_div := div_assign.
Definition value_mod := mod_assign.
End Ops.

(** ** Well-formed values

    The field a value's kind selects is initialised and, for an integer, in the
    range of [long]. *)
Definition initialised (v : Value) : Prop :=
  match kind v with
  | t_integer => exists i, iValue v = Some i /\ LONG_MIN <= i <= LONG_MAX
  | t_bool => is_Some (bValue v)
  | t_float => is_Some (fValue v)
  | t_symbol => is_Some (token_id v)
  | t_dynamic => is_Some (dyn_value v)
  | t_empty | t_string => True
  end.

Lemma assign_kind dst src : kind (assign dst src) = kind src.
Proof. unfold assign. by destruct (kind src) eqn:E. Qed.

Lemma assign_initialised dst src : initialised src -> initialised (assign dst src).
Proof. unfold initialised, assign. by destruct (kind src) eqn:E. Qed.

Lemma init_long z : LONG_MIN <= z <= LONG_MAX -> initialised (Value_long z).
Proof. intros Hz. by exists z. Qed.

Lemma init_double x : initialised (Value_double x).
Proof. by exists x. Qed.

Lemma init_saturated b : initialised (saturated b).
Proof. apply init_long. destruct b; unfold LONG_MIN, LONG_MAX, INT_MIN, INT_MAX; lia. Qed.

Lemma init_zero : initialised (Value_int 0).
Proof. apply init_long. unfold LONG_MIN, LONG_MAX. lia. Qed.

Lemma init_str s k v t t' : k = t_string \/ k = t_symbol -> Value_str s k t = Ok (v, t') ->
  initialised v.
Proof.
  intros Hk. unfold Value_str. case_match.
  - intros Hv. res_inv. unfold initialised. repeat case_match; cbn; done || by eexists.
  - intros Hv. res_inv. destruct Hk as [-> | ->]; [done | by eexists].
Qed.
#[export] Hint Resolve init_long init_double init_saturated init_zero assign_initialised : cw.

Lemma stringToLong_range s b z : stringToLong s = (b, z) -> LONG_MIN <= z <= LONG_MAX.
Proof.
  unfold stringToLong, strtol. intros Hz. repeat (case_match; simplify_eq/=);
    unfold LONG_MIN, LONG_MAX; lia.
Qed.

(** An operation keeps the fields it reads and writes initialised. *)
Definition preserves (op : Value -> Value -> SM Tokeniser Value) : Prop :=
  forall v w t r t', initialised v -> initialised w -> op v w t = Ok (r, t') -> initialised r.

Section Preservation.
Context `{DynEnv}.

Ltac init_inv :=
  repeat match goal with
  | H : exists _, _ /\ _ |- _ => destruct H as (? & ? & ?)
  | H : is_Some _ |- _ => destruct H
  end; simplify_eq/=.

Ltac functor_tac :=
  intros v w t r t' Hv Hw; unfold initialised in Hv, Hw;
  destruct (kind v) eqn:Kv, (kind w) eqn:Kw; init_inv; intros Hop;
  repeat (progress res_inv || (case_match; simplify_eq/=));
  eauto using init_str with cw;
  try (unfold initialised; rewrite ?Kv; eauto; done).

Lemma Sum_preserves : preserves Sum.
Proof. unfold Sum. functor_tac. Qed.
Lemma Minus_preserves : preserves Minus.
Proof. unfold Minus. functor_tac. Qed.
Lemma Multiply_preserves : preserves Multiply.
Proof. unfold Multiply. functor_tac. Qed.
Lemma Divide_preserves : preserves Divide.
Proof. unfold Divide. functor_tac. Qed.
Lemma Modulus_preserves : preserves Modulus.
Proof. unfold Modulus. functor_tac. Qed.

Lemma bit_op_preserves f :
  (forall x y, LONG_MIN <= x <= LONG_MAX -> LONG_MIN <= y <= LONG_MAX ->
    LONG_MIN <= f x y <= LONG_MAX) ->
  forall v w t r t', initialised v -> initialised w -> kind v = t_integer -> kind w = t_integer ->
    bit_op f v w t = Ok (r, t') -> initialised r.
Proof.
  intros Hf v w t r t' Hv Hw Kv Kw. unfold bit_op, initialised in *. rewrite Kv in Hv.
  rewrite Kw in Hw. init_inv. intros Hop. res_inv. eauto with cw.
Qed.

Lemma TypeFix_preserves op : preserves op -> preserves (TypeFix op).
Proof.
  intros Hop v w t r t' Hv Hw. unfold TypeFix.
  repeat case_match; intros Ht; res_inv; try done.
  - eapply Hop; [exact Hv | | exact Ht]. apply assign_initialised, init_long.
    eapply stringToLong_range; eauto.
  - eapply Hop; [exact Hv | | exact Ht]. apply assign_initialised, init_double.
  - eapply Hop; [exact Hv | | eassumption]. eapply (init_str _ t_string); eauto.
  - exact (Hop _ _ _ _ _ Hv Hw Ht).
Qed.

(** The compound assignments built from a functor and an in-place case. *)
Ltac assign_tac lem :=
  intros v w t r t' Hv Hw Hop;
  case_match; [repeat case_match; res_inv; try done;
     apply assign_initialised; eapply (TypeFix_preserves _ lem); [exact Hv | exact Hw | eassumption] |];
  unfold initialised in Hv, Hw;
  match goal with Hk : negb (Kind_eqb (kind _) (kind _)) = false |- _ =>
    apply negb_false_iff, Kind_eqb_eq in Hk; rewrite <- Hk in Hw end;
  destruct (kind v) eqn:Kv; init_inv;
  repeat (progress res_inv || (case_match; simplify_eq/=));
  unfold initialised; cbn; rewrite ?Kv; cbn; eauto 6 with cw.

Lemma add_assign_preserves : preserves add_assign.
Proof. unfold add_assign. assign_tac Sum_preserves. Qed.
Lemma sub_assign_preserves : preserves sub_assign.
Proof. unfold sub_assign. assign_tac Minus_preserves. Qed.
Lemma mul_assign_preserves : preserves mul_assign.
Proof. unfold mul_assign. assign_tac Multiply_preserves. Qed.
Lemma div_assign_preserves : preserves div_assign.
Proof. unfold div_assign. assign_tac Divide_preserves. Qed.
Lemma mod_assign_preserves : preserves mod_assign.
Proof. unfold mod_assign. assign_tac Modulus_preserves. Qed.
End Preservation.

(** ** Properties of values *)
Section Properties.
Context `{DynEnv}.

(** The arithmetic operators never hand on an uninitialised field: applied to
    values whose kind's field is initialised (and integers in the range of
    [long]), the results of [+], [-], [*], [/] and [%] are such values again,
    on every branch of the coercions. *)
Theorem arithmetic_preserves_initialised :
  Forall preserves [value_add; value_sub; value_mul; value_div; value_mod].
Proof.
  repeat constructor; [apply add_assign_preserves | apply sub_assign_preserves |
    apply mul_assign_preserves | apply div_assign_preserves | apply mod_assign_preserves].
Qed.

Lemma asString_defined v : initialised v -> kind v <> t_dynamic -> exists s, asString v = Ok s.
Proof.
  unfold initialised, asString. intros Hv Hd.
  destruct dyn_depth; destruct (kind v) eqn:K; cbn; rewrite K; try done;
    repeat match goal with
    | Hx : exists _, _ /\ _ |- _ => destruct Hx as (? & -> & ?)
    | Hx : is_Some _ |- _ => destruct Hx as [? ->] end; cbn; eauto.
Qed.

Lemma Value_str_string s t : Value_str s t_string t = Ok (mkString t_string s 0, t).
Proof. done. Qed.

(** Break [initialised] hypotheses for values of known kinds. *)
Ltac init_cases v w :=
  unfold initialised in *; destruct (kind v) eqn:?, (kind w) eqn:?; try done;
  repeat match goal with
  | Hx : exists _, _ /\ _ |- _ => destruct Hx as (? & ? & ?)
  | Hx : is_Some _ |- _ => destruct Hx
  end.

Lemma c_div_defined x y : LONG_MIN < x <= LONG_MAX -> y <> 0 -> exists z, c_div x y = Ok z.
Proof.
  intros Hx Hy. unfold c_div. rewrite (proj2 (Z.eqb_neq _ _) Hy). exists (Z.quot x y).
  apply long_of_ok. assert (Z.abs (Z.quot x y) <= Z.abs x).
  { rewrite <- Z.quot_abs by done. apply Z.quot_le_upper_bound; nia. }
  unfold LONG_MIN, LONG_MAX in *. lia.
Qed.

Ltac div_step :=
  match goal with |- sdef (sbind (slift (c_div ?x ?y)) _) _ =>
    assert (x <> LONG_MIN) by congruence;
    destruct (c_div_defined x y) as [z Hz]; [lia | lia |];
    eapply sdef_lift; [exact Hz | apply sdef_ret]
  end.

Lemma Divide_defined v w t : initialised v -> initialised w -> iValue v <> Some LONG_MIN ->
  sdef (Divide v w) t.
Proof.
  intros Hv Hw Hm. unfold Divide. init_cases v w; repeat sdef_step.
  div_step.
Qed.

Lemma TypeFix_defined op v w t : initialised w -> kind w <> t_dynamic ->
  (forall b t', initialised b -> sdef (op v b) t') -> sdef (TypeFix op v w) t.
Proof.
  intros Hw Dw Hop. unfold TypeFix. repeat sdef_step; try by apply Hop.
  - destruct (stringToLong (sValue w)) as [[] x] eqn:E.
    + apply Hop, assign_initialised, init_long. by eapply stringToLong_range.
    + destruct (stringToFloat (sValue w)) as [[] y]; [|apply sdef_ret].
      apply Hop, assign_initialised, init_double.
  - destruct (asString_defined w Hw Dw) as [s Hs]. eapply sdef_lift; [exact Hs |].
    apply sdef_bind; [by eexists _, t |].
    intros b t' Hb. apply Hop. by eapply (init_str _ t_string); [left |].
Qed.

(** Division of values always has a result: division by zero saturates and
    operands that are not numbers are passed through, so the only way [v / w] can
    be undefined, for operands with their fields initialised and no dynamic value
    on the right, is the overflow of dividing the smallest [long]. *)
Theorem div_defined v w t :
  initialised v -> initialised w -> kind w <> t_dynamic -> iValue v <> Some LONG_MIN ->
  exists r t', value_div v w t = Ok (r, t').
Proof.
  intros Hv Hw Dw Hm. change (sdef (value_div v w) t). unfold value_div, div_assign.
  sdef_step.
  - apply sdef_bind; [|intros; apply sdef_ret].
    apply TypeFix_defined; [done.. |]. intros b t' Hb. by apply Divide_defined.
  - apply negb_false_iff, Kind_eqb_eq in Heqb.
    init_cases v w; repeat sdef_step.
    div_step.
Qed.
End Properties.
