(* ===== verification/ValueProps.v ===== *)
(** Properties of symbols, equality, ordering and text conversion of values. *)
From S2P Require Import Prelude Cnum Tokeniser Value ValueOps.
From Stdlib Require Import SpecFloat Ascii.
Open Scope Z_scope.

(** Texts the constructors do not turn into a symbol. *)
Definition is_literal (s : string) : bool :=
  bool_decide (s = "") || bool_decide (s = "FALSE") || bool_decide (s = "TRUE") ||
  bool_decide (s = "NULL").

Lemma is_literal_false s : is_literal s = false ->
  bool_decide (s = "") = false /\ bool_decide (s = "FALSE") = false /\
  bool_decide (s = "TRUE") = false /\ bool_decide (s = "NULL") = false.
Proof. unfold is_literal. rewrite !orb_false_iff. tauto. Qed.

Lemma Value_str_symbol s t v t' : tok_wf t -> is_literal s = false ->
  Value_str s t_symbol t = Ok (v, t') ->
  tok_wf t' /\ tok_ext t t' /\
  exists id, tokens t' !! s = Some id /\ v = mkString t_symbol s id.
Proof.
  intros Hwf (He & Hf & Ht & Hn)%is_literal_false. unfold Value_str.
  rewrite He, Hf, Ht, Hn.
  cbn. intros Hv. res_inv.
  match goal with Hg : getTokenId _ _ = _ |- _ =>
    apply getTokenId_inv in Hg as (? & ? & ?); eauto end.
Qed.

Lemma Value_cstr_symbol s t : is_literal s = false -> Value_cstr s t_symbol t = Value_str s t_symbol t.
Proof.
  intros (He & Hf & Ht & Hn)%is_literal_false. unfold Value_cstr, Value_str.
  rewrite He, Hf, Ht, Hn. done.
Qed.

Section Props.
Context `{DynEnv}.

(** Symbols are interned: two symbols made at any two moments of a run (the
    token table may have grown in between) are equal by [operator==], which
    compares token ids only, exactly when their texts are equal. *)
Theorem symbol_equality t s1 s2 v1 v2 t1 t1' t2 :
  tok_wf t -> is_literal s1 = false -> is_literal s2 = false ->
  Value_str s1 t_symbol t = Ok (v1, t1) ->
  tok_wf t1' -> tok_ext t1 t1' ->
  Value_cstr s2 t_symbol t1' = Ok (v2, t2) ->
  value_eq v1 v2 = Ok (bool_decide (s1 = s2)).
Proof.
  intros Hwf L1 L2 H1 Hwf' Hext H2. rewrite Value_cstr_symbol in H2 by done.
  apply Value_str_symbol in H1 as (_ & _ & id1 & Hid1 & ->); [|done..].
  apply Value_str_symbol in H2 as (Hwf2 & Hext2 & id2 & Hid2 & ->); [|done..].
  eapply tok_ext_lookup in Hid1; [|eassumption]. eapply tok_ext_lookup in Hid1; [|eassumption].
  erewrite value_eq_symbols by done. f_equal. destruct (decide (s1 = s2)) as [-> | Hne].
  - rewrite bool_decide_true by done. simplify_eq. apply Z.eqb_refl.
  - rewrite bool_decide_false by done. apply Z.eqb_neq. intros ->.
    destruct Hne. by eapply tok_inj.
Qed.

(** A value that does not read as NaN. *)
Definition no_nan (v : Value) : Prop :=
  forall x, asFloat v None = Ok (true, Some x) -> is_nan x = false.

Lemma asFloat_float v x : kind v = t_float -> fValue v = Some x -> asFloat v None = Ok (true, Some x).
Proof. unfold asFloat. destruct dyn_depth; cbn; intros -> ->; done. Qed.

Lemma asFloat_true d v x o : asFloat_n d v o = Ok (true, x) -> is_Some x.
Proof.
  revert v. induction d as [|d IH]; intros v; cbn; destruct (kind v);
    intros Hv; repeat (progress res_inv || (case_match; simplify_eq/=)); eauto.
Qed.

Lemma ZERO_DISTANCE_not_nan : is_nan ZERO_DISTANCE = false.
Proof. done. Qed.

Lemma coerced_complement v w r : no_nan v -> no_nan w ->
  coerced fnear Z.eqb false v w = Ok r ->
  coerced ffar (fun x y => negb (x =? y)) true v w = Ok (negb <$> r).
Proof.
  intros Nv Nw. unfold coerced.
  case_match; [|by intros [= <-]]. case_match.
  { destruct (asFloat v None) as [[okx x] | |] eqn:Ev; [|done..].
    destruct okx; cbn; [|by intros [= <-]].
    destruct (asFloat w None) as [[oky y] | |] eqn:Ew; [|done..].
    destruct oky; cbn; [|by intros [= <-]].
    destruct x as [x|]; [|done]. destruct y as [y|]; [|done]. cbn. intros [= <-]. cbn.
    do 2 f_equal. apply near_complement; [by apply Nv | by apply Nw | apply ZERO_DISTANCE_not_nan]. }
  case_match; [|by intros [= <-]].
  destruct (asInteger v None) as [[okx x] | |]; [|done..].
  destruct okx; cbn; [|by intros [= <-]].
  destruct (asInteger w None) as [[oky y] | |]; [|done..].
  destruct oky; cbn; [|by intros [= <-]].
  destruct x; [|done]. destruct y; [|done]. cbn. by intros [= <-].
Qed.

(** [operator!=] is the negation of [operator==] whenever the latter returns,
    for any two values that are not both dynamic and do not read as NaN. *)
Theorem ne_negates_eq v w b :
  no_nan v -> no_nan w -> (kind v <> t_dynamic \/ kind w <> t_dynamic) ->
  value_eq v w = Ok b -> value_ne v w = Ok (negb b).
Proof.
  intros Nv Nw Hd. unfold value_eq, value_ne. case_match.
  { intros Hb. res_inv. by rewrite H1, H2. }
  destruct (coerced fnear Z.eqb false v w) as [r | |] eqn:E; [|done..].
  rewrite (coerced_complement _ _ _ Nv Nw E). cbn.
  destruct r as [r|]; cbn; [by intros [= ->] |].
  destruct (Kind_eqb (as_string_kind (kind v)) (as_string_kind (kind w))) eqn:Ek; cbn;
    [|by intros [= <-]].
  apply Kind_eqb_eq in Ek.
  destruct (kind v) eqn:Kv; cbn in *; intros Hb; res_inv;
    repeat match goal with Hf : ?o = Some _ |- context [?o] => rewrite Hf end; cbn; try done.
  - destruct (kind w); cbn in Ek; naive_solver.
  - f_equal. apply near_complement; [| |apply ZERO_DISTANCE_not_nan].
    + apply Nv, asFloat_float; eauto.
    + apply Nw, asFloat_float; eauto. by destruct (kind w).
Qed.

(** ** Ordering *)
Lemma str_leb_geb s1 s2 : str_leb s1 s2 = str_geb s2 s1.
Proof.
  unfold str_leb, str_geb. rewrite (String.compare_antisym s1 s2).
  by destruct (String.compare s2 s1).
Qed.

Lemma asFloat_defined v x : initialised v -> kind v <> t_dynamic -> exists b y, asFloat v x = Ok (b, y).
Proof.
  unfold initialised, asFloat. intros Hv Hd.
  destruct dyn_depth; destruct (kind v) eqn:K; cbn; rewrite K; try done;
    repeat match goal with
    | Hx : exists _, _ /\ _ |- _ => destruct Hx as (? & -> & ?)
    | Hx : is_Some _ |- _ => destruct Hx as [? ->] end; cbn; repeat case_match; eauto.
Qed.

Lemma asInteger_defined v x : initialised v -> kind v <> t_dynamic -> kind v <> t_float ->
  exists b y, asInteger v x = Ok (b, y).
Proof.
  unfold initialised, asInteger. intros Hv Hd Hf.
  destruct dyn_depth; destruct (kind v) eqn:K; cbn; rewrite K; try done;
    repeat match goal with
    | Hx : exists _, _ /\ _ |- _ => destruct Hx as (? & -> & ?)
    | Hx : is_Some _ |- _ => destruct Hx as [? ->] end; cbn; repeat case_match; eauto.
Qed.
(** [<=] and [>=] mirror each other: for any two values with their fields
    initialised that are not dynamic, [v <= w] and [w >= v] give the same answer
    (hence also [v > w] and [w < v]), whatever coercions apply. *)
Theorem le_mirrors_ge v w :
  initialised v -> initialised w -> kind v <> t_dynamic -> kind w <> t_dynamic ->
  value_le v w = value_ge w v /\ value_gt v w = value_lt w v.
Proof.
  intros Hv Hw Dv Dw.
  assert (value_le v w = value_ge w v) as E; [|by unfold value_gt, value_lt; rewrite E].
  unfold value_le, value_ge, ordered, coerced.
  destruct (asFloat_defined v None Hv Dv) as (bv & xv & ->).
  destruct (asFloat_defined w None Hw Dw) as (bw & xw & ->).
  destruct (kind v) eqn:Kv, (kind w) eqn:Kw; try done; cbn;
    try (destruct (asInteger_defined v None) as (cv & yv & ->); [done | congruence..|]);
    try (destruct (asInteger_defined w None) as (cw & yw & ->); [done | congruence..|]);
    repeat match goal with b : bool |- _ => destruct b; cbn; try done end;
    repeat match goal with o : option _ |- _ => destruct o; cbn; try done end;
    by rewrite ?str_leb_geb.
Qed.

(** A number that is not NaN. *)
Definition proper_number (v : Value) : Prop :=
  (exists i, kind v = t_integer /\ iValue v = Some i) \/
  (exists x, kind v = t_float /\ fValue v = Some x /\ is_nan x = false).

Lemma proper_asFloat v : proper_number v ->
  exists x, asFloat v None = Ok (true, Some x) /\ is_nan x = false.
Proof.
  intros [(i & K & E) | (x & K & E & N)]; unfold asFloat; destruct dyn_depth; cbn;
    rewrite K, E; cbn; eauto with cw.
Qed.

(** Numbers are totally ordered: of [v < w], [v > w] and "[v <= w] and
    [v >= w]" exactly one holds, for integers and floats (NaN excluded) in any
    mix. *)
Theorem numbers_trichotomy v w : proper_number v -> proper_number w ->
  exists lt gt le ge,
    value_lt v w = Ok lt /\ value_gt v w = Ok gt /\ value_le v w = Ok le /\ value_ge v w = Ok ge /\
    ((lt = true /\ gt = false /\ ge = false) \/ (gt = true /\ lt = false /\ le = false) \/
     (le = true /\ ge = true /\ lt = false /\ gt = false)).
Proof.
  intros Hv Hw.
  assert (exists le ge, value_le v w = Ok le /\ value_ge v w = Ok ge /\ le || ge = true)
    as (le & ge & Hle & Hge & Htot).
  2: { exists (negb ge), (negb le), le, ge. unfold value_lt, value_gt. rewrite Hle, Hge.
       destruct le, ge; naive_solver. }
  destruct (proper_asFloat v Hv) as (x & Ex & Nx).
  destruct (proper_asFloat w Hw) as (y & Ey & Ny).
  assert (fleb x y || fleb y x = true) as Hf.
  { rewrite (fleb_negb y x) by done. unfold fleb, fltb, SFleb, SFltb.
    destruct (SFcompare_total x y Nx Ny) as [[] ->]; done. }
  unfold value_le, value_ge, ordered, coerced. rewrite Ex, Ey.
  destruct Hv as [(i & Kv & Ei) | (f & Kv & Ei & _)], Hw as [(j & Kw & Ej) | (g & Kw & Ej & _)];
    rewrite Kv, Kw; cbn; eauto 6.
  unfold asInteger. destruct dyn_depth; cbn; rewrite Kv, Kw, Ei, Ej; cbn;
    do 2 eexists; (split; [done | split; [done |]]); lia.
Qed.

(** ** Text *)
Lemma asInteger_string s : asInteger (mkString t_string s 0) None =
  let '(ok, i) := stringToLong s in Ok (ok, Some i).
Proof. unfold asInteger. by destruct dyn_depth. Qed.

Lemma chars_str l : chars (str l) = l.
Proof. apply String.list_ascii_of_string_of_list_ascii. Qed.

(** An integer survives its text form: the text of any [long] fits the 25
    byte buffer of [asString] untruncated, and reading that text back as an
    integer gives the same number. *)
Theorem integer_text_roundtrip z : LONG_MIN <= z <= LONG_MAX ->
  exists s, asString (Value_long z) = Ok s /\ s = str (print_long z) /\
    asInteger (mkString t_string s 0) None = Ok (true, Some z).
Proof.
  intros Hz. exists (str (print_long z)).
  assert (snprintf_buf 25 (print_long z) = print_long z) as Hfit.
  { unfold snprintf_buf. apply take_ge. pose proof (print_long_length z Hz). lia. }
  assert (asString (Value_long z) = Ok (str (snprintf_buf 25 (print_long z)))) as ->
    by (unfold asString; by destruct dyn_depth).
  rewrite Hfit. split; [done |].
  split; [done |].
  rewrite asInteger_string. unfold stringToLong.
  by rewrite chars_str, c_str_print_long, strtol_print_long.
Qed.

(** ** Behaviours that differ from what the operators mean to do *)

(** [%] of two floats is undefined: the divisor is read from the integer
    field of the right operand, which a float value does not have. *)
Theorem float_modulus_undefined x y t :
  feqb y fzero = false -> value_mod (Value_double x) (Value_double y) t = Undef.
Proof.
  intros Hy. unfold value_mod, mod_assign. cbn. unfold sbind, slift. cbn. rewrite Hy.
  unfold long_of_float, to_long, long_of. by repeat case_match; simplify_eq/=.
Qed.

(** The texts of concatenated symbols do not matter to [==]: the results of
    any two [symbol + symbol] compare equal, because [+=] resets the token id. *)
Theorem concatenated_symbols_equal v1 v2 v3 v4 t t1 t' t2 a b :
  kind v1 = t_symbol -> kind v2 = t_symbol -> kind v3 = t_symbol -> kind v4 = t_symbol ->
  value_add v1 v2 t = Ok (a, t1) -> value_add v3 v4 t' = Ok (b, t2) ->
  value_eq a b = Ok true.
Proof.
  intros K1 K2 K3 K4. unfold value_add, add_assign. rewrite K1, K2, K3, K4. cbn.
  intros Ha Hb. res_inv. by erewrite value_eq_symbols by done.
Qed.
End Props.

(** ** Concrete instances *)

Lemma symbol_equality_w :
  @value_eq no_dyn (mkString t_symbol "pump" 1) (mkString t_symbol "valve" 2) = Ok false.
Proof.
  exact (@symbol_equality no_dyn Tokeniser_new "pump" "valve" _ _
    (mkTokeniser {["pump" := 1]} 1) (mkTokeniser {["pump" := 1]} 1)
    (mkTokeniser {["valve" := 2; "pump" := 1]} 2)
    tok_wf_new eq_refl eq_refl eq_refl
    (proj1 (getTokenId_inv "pump" Tokeniser_new 1 _ tok_wf_new eq_refl)) (tok_ext_refl _) eq_refl).
Defined.

Lemma no_nan_long z : @no_nan no_dyn (Value_long z).
Proof. intros x [= <-]. apply float_of_Z_not_nan. Qed.

Lemma ne_negates_eq_w : @value_ne no_dyn (Value_long 3) (Value_long 4) = Ok true.
Proof.
  apply (@ne_negates_eq no_dyn (Value_long 3) (Value_long 4) false);
    [apply no_nan_long | apply no_nan_long | left; discriminate | reflexivity].
Defined.

Lemma init_one : initialised (Value_long 1).
Proof. apply init_long. unfold LONG_MIN, LONG_MAX. lia. Qed.

Lemma div_defined_w : exists r t', @value_div no_dyn (Value_long 1) (Value_long 0) Tokeniser_new = Ok (r, t').
Proof.
  apply (@div_defined no_dyn); [apply init_one | apply init_zero | discriminate | discriminate].
Defined.

Lemma le_mirrors_ge_w :
  @value_le no_dyn (Value_long 1) (mkString t_string "2" 0)
  = @value_ge no_dyn (mkString t_string "2" 0) (Value_long 1) /\
  @value_gt no_dyn (Value_long 1) (mkString t_string "2" 0)
  = @value_lt no_dyn (mkString t_string "2" 0) (Value_long 1).
Proof.
  apply (@le_mirrors_ge no_dyn); [apply init_one | exact I | discriminate | discriminate].
Defined.

Lemma numbers_trichotomy_w : exists lt gt le ge,
  @value_lt no_dyn (Value_long 1) (Value_double fzero) = Ok lt /\
  @value_gt no_dyn (Value_long 1) (Value_double fzero) = Ok gt /\
  @value_le no_dyn (Value_long 1) (Value_double fzero) = Ok le /\
  @value_ge no_dyn (Value_long 1) (Value_double fzero) = Ok ge /\
  ((lt = true /\ gt = false /\ ge = false) \/ (gt = true /\ lt = false /\ le = false) \/
   (le = true /\ ge = true /\ lt = false /\ gt = false)).
Proof.
  apply (@numbers_trichotomy no_dyn).
  - left. exists 1. split; reflexivity.
  - right. exists fzero. repeat split; reflexivity.
Defined.

Lemma integer_text_roundtrip_w : exists s, @asString no_dyn (Value_long (-42)) = Ok s /\
  s = str (print_long (-42)) /\ @asInteger no_dyn (mkString t_string s 0) None = Ok (true, Some (-42)).
Proof. apply (@integer_text_roundtrip no_dyn). unfold LONG_MIN, LONG_MAX. lia. Defined.

Lemma float_modulus_undefined_w :
  @value_mod no_dyn (Value_double (float_of_Z 7)) (Value_double (float_of_Z 2)) Tokeniser_new = Undef.
Proof. apply (@float_modulus_undefined no_dyn). reflexivity. Defined.

Lemma concatenated_symbols_equal_w :
  @value_eq no_dyn (mkString t_symbol "ab" 0) (mkString t_symbol "cd" 0) = Ok true.
Proof.
  exact (@concatenated_symbols_equal no_dyn (mkString t_symbol "a" 1) (mkString t_symbol "b" 2)
    (mkString t_symbol "c" 3) (mkString t_symbol "d" 4) Tokeniser_new Tokeniser_new Tokeniser_new
    Tokeniser_new _ _ eq_refl eq_refl eq_refl eq_refl eq_refl eq_refl).
Defined.

(** The text of a float of 10^24 or more is cut at 24 characters and reads back
    as a different number: 10^30 comes back as about 10^23. *)
Definition float_1e30 : double := Eval vm_compute in dec_float false 1 30.
Definition float_back : double := Eval vm_compute in dec_float false 100000000000000001988462 0.
Example large_float_text :
  @asString no_dyn (Value_double float_1e30) = Ok "100000000000000001988462"%string /\
  @asFloat no_dyn (mkString t_string "100000000000000001988462" 0) None
  = Ok (true, Some float_back) /\
  fltb float_back float_1e30 = true.
Proof. vm_compute. repeat split. Qed.

(** Booleans are not ordered: each of two booleans is both less and greater than
    the other. *)
Example booleans_unordered b c :
  @value_lt no_dyn (Value_bool b) (Value_bool c) = Ok true /\
  @value_gt no_dyn (Value_bool b) (Value_bool c) = Ok true.
Proof. done. Qed.
