(* ===== verification/SymbolTable.v ===== *)
(** Symbol tables (symboltable.h, symboltable.cpp): the property maps of the
    machines and the table of keywords that shadows them. *)
From S2P Require Import Prelude Cnum Tokeniser Value.
From stdpp Require Import sorting.
Open Scope Z_scope.

(** ** Data *)
Record SymbolTable := mkST {
  st : gmap string Value;
  stok : gmap Z Value
}.
Inductive ReplaceMode := ST_REPLACE | NO_REPLACE.

Definition SymbolTable_new : SymbolTable := mkST ∅ ∅.
Definition Null : Value := Value_empty.

(** [m[k] = v] on a [std::map]: a missing entry is created empty, and the
    assignment of a [Value] keeps the fields its kind does not use. *)
Definition map_assign `{Countable K} (k : K) (v : Value) (m : gmap K Value) : gmap K Value :=
  <[k := assign (default Value_empty (m !! k)) v]> m.

(** The entries of a [std::map] in iteration order. *)
Definition entry_le (a b : string * Value) : Prop := str_leb (fst a) (fst b) = true.
#[export] Instance entry_le_dec : RelDecision entry_le.
Proof. intros a b. unfold entry_le. apply _. Defined.
Definition entries (m : gmap string Value) : list (string * Value) :=
  merge_sort entry_le (map_to_list m).

(** Keys and entries in the order a [std::set] or a [std::map] is walked. *)
Definition str_le (a b : string) : Prop := str_leb a b = true.
#[export] Instance str_le_dec : RelDecision str_le.
Proof. intros a b. unfold str_le. apply _. Defined.
Definition names_of (s : gset string) : list string := merge_sort str_le (elements s).
Definition keys_of {A} (m : gmap string A) : list string := names_of (dom m).
Definition in_order {A} (m : gmap string A) : list (string * A) :=
  omap (fun k => v ← m !! k; Some (k, v)) (keys_of m).

(** ** Operations *)
Section Operations.
Local Open Scope sm_scope.

(** Storing one entry: a symbol is also entered under the token of its name. *)
Definition store (name : string) (val : Value) (s : SymbolTable) : SM Tokeniser SymbolTable :=
  let st' := map_assign name val (st s) in
  if Kind_eqb (kind val) t_symbol then
    let! tok := getTokenId name in sret (mkST st' (map_assign tok val (stok s)))
  else sret (mkST st' (stok s)).

(** [add (name, val, mode)]: the result says whether the value was stored. *)
Definition add (name : string) (val : Value) (mode : ReplaceMode) (s : SymbolTable)
    : SM Tokeniser (bool * SymbolTable) :=
  let present := match st s !! name with Some _ => true | None => false end in
  if match mode with ST_REPLACE => true | NO_REPLACE => negb present end then
    let! s' := store name val s in sret (true, s')
  else sret (false, s).

(** One turn of the loop of [add (const SymbolTable &, mode)]. *)
Definition add_entry (mode : ReplaceMode) (s : SymbolTable) (e : string * Value)
    : SM Tokeniser SymbolTable :=
  let '(name, val) := e in
  if match mode, st s !! name with NO_REPLACE, Some _ => true | _, _ => false end
  then sret s
  else if negb (bool_decide (name = "NAME")) && negb (bool_decide (name = "STATE"))
  then store name val s
  else sret s.
Fixpoint add_entries (mode : ReplaceMode) (l : list (string * Value)) (s : SymbolTable)
    : SM Tokeniser SymbolTable :=
  match l with
  | [] => sret s
  | e :: l' => let! s' := add_entry mode s e in add_entries mode l' s'
  end.
Definition add_table (orig : SymbolTable) (mode : ReplaceMode) (s : SymbolTable)
    : SM Tokeniser SymbolTable := add_entries mode (entries (st orig)) s.

Fixpoint store_all (l : list (string * Value)) (s : SymbolTable) : SM Tokeniser SymbolTable :=
  match l with
  | [] => sret s
  | (name, val) :: l' => let! s' := store name val s in store_all l' s'
  end.
(** The copy constructor starts from empty maps; [operator=] clears [st] only. *)
Definition SymbolTable_copy (orig : SymbolTable) : SM Tokeniser SymbolTable :=
  store_all (entries (st orig)) SymbolTable_new.
Definition table_assign (orig s : SymbolTable) : SM Tokeniser SymbolTable :=
  store_all (entries (st orig)) (mkST ∅ (stok s)).

Definition push_back (item : string * Value) (s : SymbolTable) : SymbolTable :=
  mkST (map_assign (fst item) (snd item) (st s)) (stok s).
Definition clear (s : SymbolTable) : SymbolTable := mkST ∅ ∅.
Definition exists_name (name : string) (s : SymbolTable) : bool :=
  match st s !! name with Some _ => true | None => false end.
Definition exists_tok (tok : Z) (s : SymbolTable) : bool :=
  match stok s !! tok with Some _ => true | None => false end.
End Operations.

Section Lookup.
Context `{DynEnv}.
(** The static table of keywords, once it exists. *)
Variable keywords : option SymbolTable.

(** The keyword table looks only in itself; every other table gives way to it
    when it has a value other than [Null] under the name. *)
Definition own_find (name : string) (s : SymbolTable) : Value :=
  default Null (st s !! name).
Definition find (name : string) (s : SymbolTable) : res Value :=
  match keywords with
  | Some kw => let r := own_find name kw in
      d ← value_ne r Null; if d : bool then Ok r else Ok (own_find name s)
  | None => Ok (own_find name s)
  end.
Definition lookup (name : string) (s : SymbolTable) : res Value := find name s.

(** [lookup (const Value &)] goes by token id. *)
Definition own_lookup_tok (tok : option Z) (s : SymbolTable) : res Value :=
  id ← rd tok; Ok (default Null (stok s !! id)).
Definition lookup_value (name : Value) (s : SymbolTable) : res Value :=
  match keywords with
  | Some kw => r ← own_lookup_tok (token_id name) kw;
      d ← value_ne r Null; if d : bool then Ok r else own_lookup_tok (token_id name) s
  | None => own_lookup_tok (token_id name) s
  end.

(** [isKeyword (const Value &)] and [isKeyword (const char * )]. *)
Definition isKeyword_name (name : string) : bool :=
  match keywords with Some kw => exists_name name kw | None => false end.
Definition isKeyword (name : Value) : res bool :=
  match keywords with
  | Some kw =>
      if Kind_eqb (kind name) t_symbol || Kind_eqb (kind name) t_string then
        id ← rd (token_id name);
        if negb (id =? 0) && exists_tok id kw then Ok true else Ok (exists_name (sValue name) kw)
      else Ok false
  | None => Ok false
  end.
End Lookup.

(** The table made by the first [SymbolTable] constructor; the number [0] is an
    [int] and the text [""] an empty symbol. *)
Section Keywords.
Local Open Scope sm_scope.
Definition add0 (name : string) (v : Value) (s : SymbolTable) : SM Tokeniser SymbolTable :=
  let! r := add name v ST_REPLACE s in sret (snd r).
Fixpoint add_all (l : list string) (v : Value) (s : SymbolTable) : SM Tokeniser SymbolTable :=
  match l with
  | [] => sret s
  | n :: l' => let! s' := add0 n v s in add_all l' v s'
  end.
Definition keyword_table : SM Tokeniser SymbolTable :=
  let! s := add_all ["NOW"; "CLOCK"; "SECONDS"; "MINUTE"; "HOUR"; "DAY"; "MONTH"; "YR"; "YEAR"]
              (Value_int 0) SymbolTable_new in
  let! e := Value_cstr "" t_symbol in
  add_all ["TIMESEQ"; "LOCALTIME"; "UTCTIME"; "TIMEZONE"; "TIMESTAMP"; "UTCTIMESTAMP";
           "ISOTIMESTAMP"; "RANDOM"] e s.
End Keywords.

(** ** Lemmas *)
Lemma store_st name val s t s' t' : store name val s t = Ok (s', t') ->
  st s' = map_assign name val (st s).
Proof. unfold store. case_match; intros Hs; res_inv; done. Qed.

Lemma map_assign_eq `{Countable K} (k : K) v m :
  map_assign k v m !! k = Some (assign (default Value_empty (m !! k)) v).
Proof. apply lookup_insert_eq. Qed.

Lemma map_assign_ne `{Countable K} (k k' : K) v m : k <> k' -> map_assign k v m !! k' = m !! k'.
Proof. apply lookup_insert_ne. Qed.

Lemma elem_of_names s n : n ∈ names_of s <-> n ∈ s.
Proof. unfold names_of. by rewrite merge_sort_Permutation, elem_of_elements. Qed.
Lemma elem_of_in_order {A} (t : gmap string A) k v : (k, v) ∈ in_order t <-> t !! k = Some v.
Proof.
  unfold in_order. rewrite list_elem_of_omap. split.
  - intros (k' & _ & E). destruct (t !! k') eqn:Ek; cbn in E; [|done]. by injection E as <- <-.
  - intros E. exists k. split; [|by rewrite E]. unfold keys_of. rewrite elem_of_names. by apply elem_of_dom.
Qed.
Lemma in_order_keys {A} (t : gmap string A) : (fst <$> in_order t) = keys_of t.
Proof.
  unfold in_order. assert (Hk : Forall (fun n => is_Some (t !! n)) (keys_of t)).
  { apply Forall_forall. intros n Hn. unfold keys_of in Hn. rewrite elem_of_names in Hn. by apply elem_of_dom. }
  induction Hk as [|n l [v Hv] _ IH]; [done |]. cbn. rewrite Hv. cbn. by rewrite IH.
Qed.
Lemma NoDup_keys {A} (t : gmap string A) : NoDup (keys_of t).
Proof. unfold keys_of, names_of. rewrite merge_sort_Permutation. apply NoDup_elements. Qed.

Lemma entries_perm m : entries m ≡ₚ map_to_list m.
Proof. apply merge_sort_Permutation. Qed.

Lemma entries_NoDup m : NoDup (fst <$> entries m).
Proof. rewrite (entries_perm m). apply NoDup_fst_map_to_list. Qed.

Lemma elem_of_entries k v m : (k, v) ∈ entries m <-> m !! k = Some v.
Proof. rewrite (entries_perm m). apply elem_of_map_to_list. Qed.

(** What one entry of a bulk [add] leaves under its name. *)
Definition merged (mode : ReplaceMode) (name : string) (old : option Value) (val : Value)
    : option Value :=
  if bool_decide (name = "NAME") || bool_decide (name = "STATE") then old
  else match mode, old with
       | NO_REPLACE, Some _ => old
       | _, _ => Some (assign (default Value_empty old) val)
       end.

Lemma add_entry_spec mode s name val t s' t' : add_entry mode s (name, val) t = Ok (s', t') ->
  st s' !! name = merged mode name (st s !! name) val /\
  (forall k, k <> name -> st s' !! k = st s !! k).
Proof.
  unfold add_entry, merged. intros Hs.
  destruct mode, (st s !! name) as [o|] eqn:E;
    destruct (bool_decide (name = "NAME")) eqn:EN, (bool_decide (name = "STATE")) eqn:ES;
    cbn in *; res_inv; try (by rewrite E); try done;
    (apply store_st in Hs as ->; rewrite map_assign_eq, E; split; [done |];
     intros k Hk; by rewrite map_assign_ne).
Qed.

Lemma add_entries_spec mode l s t s' t' : NoDup (fst <$> l) ->
  add_entries mode l s t = Ok (s', t') ->
  (forall k v, (k, v) ∈ l -> st s' !! k = merged mode k (st s !! k) v) /\
  (forall k, k ∉ fst <$> l -> st s' !! k = st s !! k).
Proof.
  revert s t. induction l as [|[n v] l IH]; intros s t Hnd Hs; cbn in Hs.
  { res_inv. split; [|done]. intros k v Hkv. by apply elem_of_nil in Hkv. }
  apply NoDup_cons in Hnd as [Hni Hnd]. apply sbind_Ok in Hs as (s1 & t1 & H1 & H2).
  apply add_entry_spec in H1 as [He Ho]. destruct (IH _ _ Hnd H2) as [Hin Hout].
  split.
  - intros k w [[= -> ->] | Hl]%elem_of_cons; [by rewrite Hout |].
    rewrite (Hin k w Hl), Ho; [done |]. intros ->. destruct Hni.
    apply list_elem_of_fmap. by exists (n, w).
  - intros k Hk. cbn in Hk. apply not_elem_of_cons in Hk as [Hkn Hkl].
    by rewrite (Hout k Hkl), (Ho k Hkn).
Qed.

(** Ids are left for [n] more names. *)
Definition tok_room (n : nat) (t : Tokeniser) : Prop := tok_wf t /\ next t + Z.of_nat n <= INT_MAX.

Lemma store_defined name val s t n : tok_room (S n) t ->
  exists s' t', store name val s t = Ok (s', t') /\ tok_room n t'.
Proof.
  intros [Hwf Hn]. unfold store. case_match; [|do 2 eexists; split; [done | split; [done | lia]]].
  destruct (getTokenId_defined name t Hwf ltac:(lia)) as (id & t' & Hg).
  unfold sbind. rewrite Hg. do 2 eexists. split; [done |].
  apply getTokenId_inv in Hg as Hg'; [|done]. apply getTokenId_next in Hg.
  split; [by destruct Hg' | lia].
Qed.

Lemma add_entries_defined mode l s t : tok_room (length l) t ->
  exists s' t', add_entries mode l s t = Ok (s', t').
Proof.
  revert s t. induction l as [|[n v] l IH]; intros s t Ht; [by do 2 eexists |].
  cbn [add_entries]. unfold add_entry, sbind.
  assert (tok_room (length l) t) as Ht' by (destruct Ht; split; [done | cbn in *; lia]).
  match goal with |- context [if ?c then sret s else _] => destruct c end; [apply IH, Ht' |].
  match goal with |- context [if ?c then store _ _ _ else _] => destruct c end; [|apply IH, Ht'].
  destruct (store_defined n v s t _ Ht) as (s1 & t1 & -> & H1). apply IH, H1.
Qed.

Section Props.
Context `{DynEnv}.

(** Merging one table into another ([add (const SymbolTable &, mode)])
    returns, as long as token ids are left for its names; it gives every name of
    the source its value unless the name is already present and the mode is
    [NO_REPLACE], never touches [NAME] and [STATE], and leaves every other name
    of the target as it was. *)
Theorem add_table_spec orig mode s t : tok_room (size (st orig)) t ->
  exists s' t', add_table orig mode s t = Ok (s', t') /\
    forall k, st s' !! k = match st orig !! k with
                           | Some v => merged mode k (st s !! k) v
                           | None => st s !! k
                           end.
Proof.
  intros Ht. destruct (add_entries_defined mode (entries (st orig)) s t) as (s' & t' & Hs).
  { by rewrite (entries_perm (st orig)), length_map_to_list. }
  exists s', t'. split; [done |]. intros k. apply add_entries_spec in Hs as [Hin Hout]; [|apply entries_NoDup].
  destruct (st orig !! k) as [v|] eqn:E; [by apply Hin, elem_of_entries |].
  apply Hout. intros ([k' v] & -> & Hv)%list_elem_of_fmap. cbn in *.
  apply elem_of_entries in Hv. congruence.
Qed.

(** [add] returns, as long as a token id is left; a refused [add]
    ([NO_REPLACE] on a present name) changes nothing; after any other, a name
    that is not a keyword is found with the value's kind and the field of that
    kind, and every other such name is found as before. *)
Theorem find_after_add kw name val mode s t k : tok_room 1 t -> own_find k kw = Null ->
  exists stored s' t', add name val mode s t = Ok ((stored, s'), t') /\
  find (Some kw) k s' =
    Ok (if stored && bool_decide (k = name)
        then assign (default Value_empty (st s !! name)) val else own_find k s) /\
  (stored = false <-> mode = NO_REPLACE /\ exists_name name s = true).
Proof.
  intros Ht Hk. destruct (store_defined name val s t 0 Ht) as (s1 & t1 & Hs & _).
  unfold add, find, exists_name. rewrite Hk. unfold sbind. pose proof (store_st _ _ _ _ _ _ Hs) as Hst.
  destruct mode, (st s !! name) as [o|] eqn:E; cbn; rewrite ?Hs; do 3 eexists;
    (split; [done |]; cbn; split; [|naive_solver]); f_equal;
    unfold own_find; try done; rewrite Hst;
    (destruct (decide (k = name)) as [-> | Hne];
     [rewrite bool_decide_true, map_assign_eq, E by done
     | rewrite bool_decide_false, map_assign_ne by done]); done.
Qed.
End Props.

(** ** Witnesses *)
Definition sample_table : SymbolTable := push_back ("NAME", Value_int 1) (push_back ("a", Value_int 2) SymbolTable_new).
Lemma room_new n : Z.of_nat n <= INT_MAX -> tok_room n Tokeniser_new.
Proof. intros Hn. split; [apply tok_wf_new | done]. Qed.

Lemma add_table_spec_w : exists s' t',
  add_table sample_table ST_REPLACE SymbolTable_new Tokeniser_new = Ok (s', t') /\
  st s' !! "NAME" = None /\ exists v, st s' !! "a" = Some v /\ iValue v = Some 2.
Proof.
  destruct (add_table_spec sample_table ST_REPLACE SymbolTable_new Tokeniser_new) as (s' & t' & Hs & Hk).
  { apply room_new. vm_compute. done. }
  exists s', t'. split; [exact Hs |]. split; [exact (Hk "NAME") |].
  eexists. split; [exact (Hk "a") | reflexivity].
Defined.

Lemma find_after_add_w : exists stored s' t' v,
  add "a" (Value_int 7) NO_REPLACE SymbolTable_new Tokeniser_new = Ok ((stored, s'), t') /\
  @find no_dyn (Some sample_table) "b" s' = Ok v /\ stored = true.
Proof.
  destruct (@find_after_add no_dyn sample_table "a" (Value_int 7) NO_REPLACE SymbolTable_new
    Tokeniser_new "b") as (stored & s' & t' & Ha & Hf & Hs).
  { apply room_new. vm_compute. done. }
  { vm_compute. reflexivity. }
  do 4 eexists. split; [exact Ha |]. split; [exact Hf |].
  destruct stored; [done |]. by destruct (proj1 Hs eq_refl) as [_ He].
Defined.
