(* ===== verification/Scheduler.v ===== *)
(** The scheduler (Scheduler.h, Scheduler.cpp): the time-ordered queue of
    packages, actions and triggers, and the protocol by which the scheduler thread
    asks the processing thread for time and activates what is due. *)
From S2P Require Import Prelude.
From Stdlib Require Import Sorting.Sorted.
Open Scope Z_scope.

(** ** Scheduled items *)

(** What an item activates: exactly one of the three pointers of [ScheduledItem]
    is set by its constructors. *)
Inductive Payload :=
| PPackage (p : positive)
| PAction (a : positive)
| PTrigger (t : positive).
Record ScheduledItem := mkItem {
  payload : Payload;
  delivery_time : Z
}.
#[export] Instance Payload_eq_dec : EqDecision Payload.
Proof. solve_decision. Defined.
#[export] Instance ScheduledItem_eq_dec : EqDecision ScheduledItem.
Proof. solve_decision. Defined.

(** [calcDeliveryTime (delay)] at clock reading [now], and the constructors that
    start from a given time: [uint64_t] arithmetic. *)
Definition calcDeliveryTime (now delay : Z) : Z := u64 (now + delay).
Definition ScheduledItem_new (now delay : Z) (p : Payload) : ScheduledItem :=
  mkItem p (calcDeliveryTime now delay).
Definition ScheduledItem_from (starting delay : Z) (p : Payload) : ScheduledItem :=
  mkItem p (u64 (starting + delay)).

Definition item_lt (a b : ScheduledItem) : bool := delivery_time a <? delivery_time b.
Definition item_ge (a b : ScheduledItem) : bool := delivery_time b <=? delivery_time a.

(** ** PriorityQueue *)
Fixpoint push (item : ScheduledItem) (queue : list ScheduledItem) : list ScheduledItem :=
  match queue with
  | [] => [item]
  | queued :: rest =>
      if item_lt item queued then item :: queued :: rest else queued :: push item rest
  end.
(** [front ()] and [pop_front ()] of an empty list are undefined. *)
Definition top (queue : list ScheduledItem) : res ScheduledItem :=
  match queue with it :: _ => Ok it | [] => Undef end.
Definition queue_pop (queue : list ScheduledItem) : res (list ScheduledItem) :=
  match queue with _ :: rest => Ok rest | [] => Undef end.
Definition queue_empty (queue : list ScheduledItem) : bool :=
  match queue with [] => true | _ => false end.

(** [PriorityQueue::check]: [prev] is set once, to the first item. *)
Fixpoint check_from (prev : option ScheduledItem) (queue : list ScheduledItem) : res bool :=
  match queue with
  | [] => Ok true
  | cur :: rest =>
      match prev with
      | None => check_from (Some cur) rest
      | Some p => _ ← assert (item_ge cur p); check_from prev rest
      end
  end.
Definition check (queue : list ScheduledItem) : res bool := check_from None queue.

(** ** Scheduler *)
Inductive SchedState := e_waiting | e_have_work | e_waiting_cw | e_running | e_aborted.
#[export] Instance SchedState_eq_dec : EqDecision SchedState.
Proof. solve_decision. Defined.

Record Scheduler := mkScheduler {
  items : list ScheduledItem;
  next_time : Z;
  state : SchedState;
  next_delay_time : Z;
  notification_sent : Z
}.
Definition Scheduler_new : Scheduler := mkScheduler [] 0 e_waiting 0 0.

Definition set_items l s := mkScheduler l (next_time s) (state s) (next_delay_time s) (notification_sent s).
Definition set_next_time t s := mkScheduler (items s) t (state s) (next_delay_time s) (notification_sent s).
Definition set_state x s := mkScheduler (items s) (next_time s) x (next_delay_time s) (notification_sent s).
Definition set_delay d s := mkScheduler (items s) (next_time s) (state s) d (notification_sent s).

Definition empty (s : Scheduler) : bool := queue_empty (items s).
(** [next ()]: the null pointer when nothing is scheduled. *)
Definition sched_next (s : Scheduler) : option ScheduledItem := head (items s).
Definition sched_pop (s : Scheduler) : res Scheduler :=
  q ← queue_pop (items s); Ok (set_items q s).

(** The difference of two [uint64_t] times as an [int64_t]. *)
Definition time_diff (a b : Z) : Z := to_s64 (a - b).

(** [getNextDelay ()] at clock reading [now] remembers the time of the next item;
    [getNextDelay (start)] does not. *)
Definition getNextDelay (now : Z) (s : Scheduler) : Z * Scheduler :=
  match sched_next s with
  | None => (1000000, s)
  | Some t => (time_diff (delivery_time t) now, set_next_time (delivery_time t) s)
  end.
Definition getNextDelay_from (start : Z) (s : Scheduler) : Z :=
  match sched_next s with
  | None => 1000000
  | Some t => time_diff (delivery_time t) start
  end.
Definition ready (start : Z) (s : Scheduler) : bool :=
  if empty s then false else getNextDelay_from start s <=? 0.

(** [Scheduler::add]: [now1] and [now2] are the two clock readings, [has_thread]
    says whether a thread was registered; the flag returned is whether it is
    interrupted. *)
Definition add (item : ScheduledItem) (now1 now2 : Z) (has_thread : bool) (s : Scheduler)
    : res (bool * Scheduler) :=
  let '(d, s0) := getNextDelay now1 s in
  let s1 := set_delay d s0 in
  let s2 := set_items (push item (items s1)) s1 in
  t ← top (items s2);
  let s3 := set_next_time (delivery_time t) s2 in
  let delay := time_diff (next_time s3) now2 in
  if (delay <=? next_delay_time s3) || (next_delay_time s3 <=? 0)
  then Ok (has_thread, set_delay delay s3)
  else Ok (false, s3).

Definition stop (s : Scheduler) : Scheduler := set_state e_aborted s.

(** ** The loop of [Scheduler::idle] *)

(** What activating an item does to the scheduler (a trigger's owner, a receiver
    or an action may schedule further items) and whether a trigger is enabled. *)
Class Activation := {
  trigger_enabled : positive -> bool;
  activate : Payload -> Scheduler -> Scheduler
}.

Inductive SchedEvent :=
| SendSched | RecvOk | Activated (it : ScheduledItem) (at_time : Z) | Discarded (it : ScheduledItem)
| SendDone | RecvAck.

Section Idle.
Context `{Activation}.

(** One turn of the inner loop: take the next item and activate it; [poll] is the
    last clock reading. A disabled trigger is dropped without being fired. *)
Definition run_item (poll : Z) (s : Scheduler) : res (SchedEvent * Scheduler) :=
  it ← top (items s);
  s1 ← sched_pop s;
  let s2 := set_next_time 0 s1 in
  match payload it with
  | PTrigger t =>
      if trigger_enabled t then Ok (Activated it poll, activate (payload it) s2)
      else Ok (Discarded it, s2)
  | PPackage _ | PAction _ => Ok (Activated it poll, activate (payload it) s2)
  end.

(** The inner loop, reading the clock after every item; [None] when the readings
    run out before it stops. *)
Fixpoint run_loop (clock : list Z) (poll : Z) (is_ready : bool) (s : Scheduler)
    : res (option (Z * list SchedEvent * Scheduler)) :=
  if bool_decide (state s = e_running) && is_ready then
    match clock with
    | [] => Ok None
    | now :: clock' =>
        '(ev, s') ← run_item poll s;
        r ← run_loop clock' now (ready now s') s';
        match r with
        | Some (p, evs, s'') => Ok (Some (p, ev :: evs, s''))
        | None => Ok None
        end
    end
  else Ok (Some (poll, [], s)).

(** One turn of the outer loop: [last_poll] is the clock reading of the previous
    turn, [now] the reading after the sleep. *)
Definition idle_iter (last_poll now : Z) (clock : list Z) (s : Scheduler)
    : res (option (Z * list SchedEvent * Scheduler)) :=
  let s0 := set_delay (getNextDelay_from last_poll s) s in
  let is_ready := ready now s0 in
  if negb is_ready && bool_decide (state s0 = e_waiting) then Ok (Some (now, [], s0))
  else
    let '(ev1, s1) :=
      if bool_decide (state s0 = e_waiting) && is_ready
      then ([SendSched], set_state e_waiting_cw s0) else ([], s0) in
    let '(ev2, s2) :=
      if bool_decide (state s1 = e_waiting_cw) then ([RecvOk], set_state e_running s1)
      else ([], s1) in
    r ← run_loop clock now is_ready s2;
    match r with
    | None => Ok None
    | Some (p, ev3, s3) =>
        if bool_decide (state s3 = e_running)
        then Ok (Some (p, ev1 ++ ev2 ++ ev3 ++ [SendDone; RecvAck], set_state e_waiting s3))
        else Ok (Some (p, ev1 ++ ev2 ++ ev3, s3))
    end.
End Idle.

(** ** The queue is ordered *)
Definition not_after (a b : ScheduledItem) : Prop := delivery_time a <= delivery_time b.
Definition ordered (q : list ScheduledItem) : Prop := StronglySorted not_after q.

Lemma push_split item q : ordered q ->
  exists before after, q = before ++ after /\ push item q = before ++ item :: after /\
    Forall (fun x => delivery_time x <= delivery_time item) before /\
    Forall (fun x => delivery_time item < delivery_time x) after.
Proof.
  induction 1 as [|x q Hq IH Hx]; cbn; [by exists [], [] |].
  unfold item_lt. destruct (Z.ltb_spec (delivery_time item) (delivery_time x)).
  - exists [], (x :: q). split_and!; [done..| by constructor |]. constructor; [done |].
    eapply List.Forall_impl; [|exact Hx]. unfold not_after. lia.
  - destruct IH as (b & a & -> & -> & Hb & Ha). exists (x :: b), a.
    split_and!; [done.. | by constructor | done].
Qed.

Lemma push_ordered item q : ordered q -> ordered (push item q).
Proof.
  induction 1 as [|x q Hq IH Hx]; cbn; [by repeat constructor |].
  unfold item_lt. destruct (Z.ltb_spec (delivery_time item) (delivery_time x)).
  - constructor; [by constructor |]. constructor; [unfold not_after; lia |].
    eapply List.Forall_impl; [|exact Hx]. unfold not_after. lia.
  - constructor; [done |]. destruct (push_split item q Hq) as (b & a & -> & -> & Hb & Ha).
    apply Forall_app in Hx as [Hxb Hxa]. apply Forall_app; split; [done |].
    constructor; [unfold not_after; lia | done].
Qed.

Lemma push_perm item q : push item q ≡ₚ item :: q.
Proof.
  induction q as [|x q IH]; cbn; [done |]. case_match; [done |]. by rewrite IH, Permutation_swap.
Qed.
#[export] Hint Resolve push_ordered : cw.

(** ** Specification of the queue

    The items in the order in which they arrived; the next one is the earliest
    arrival among those with the least delivery time. *)
Fixpoint spec_take (arrived : list ScheduledItem) : option (ScheduledItem * list ScheduledItem) :=
  match arrived with
  | [] => None
  | x :: rest =>
      match spec_take rest with
      | Some (y, rest') => if item_lt y x then Some (y, x :: rest') else Some (x, rest)
      | None => Some (x, [])
      end
  end.

Inductive QueueOp := OpPush (it : ScheduledItem) | OpPop.

(** The items that the [OpPop]s of a sequence of operations deliver. *)
Fixpoint spec_run (ops : list QueueOp) (arrived : list ScheduledItem) : res (list ScheduledItem) :=
  match ops with
  | [] => Ok []
  | OpPush it :: ops' => spec_run ops' (arrived ++ [it])
  | OpPop :: ops' =>
      match spec_take arrived with
      | Some (it, rest) => l ← spec_run ops' rest; Ok (it :: l)
      | None => Undef
      end
  end.
Fixpoint queue_run (ops : list QueueOp) (queue : list ScheduledItem) : res (list ScheduledItem) :=
  match ops with
  | [] => Ok []
  | OpPush it :: ops' => queue_run ops' (push it queue)
  | OpPop :: ops' =>
      it ← top queue; queue' ← queue_pop queue; l ← queue_run ops' queue'; Ok (it :: l)
  end.

Definition pushed (arrived : list ScheduledItem) : list ScheduledItem :=
  fold_left (fun q it => push it q) arrived [].

(** Insertion in front of the items that are not earlier. *)
Fixpoint insert_early (x : ScheduledItem) (q : list ScheduledItem) : list ScheduledItem :=
  match q with
  | [] => [x]
  | y :: q' => if item_lt y x then y :: insert_early x q' else x :: y :: q'
  end.

Lemma push_insert_early z x q : push z (insert_early x q) = insert_early x (push z q).
Proof.
  unfold item_lt. induction q as [|y q IH]; cbn; unfold item_lt;
    repeat (case_match; cbn; unfold item_lt in *; cbn); try (by rewrite IH); lia || done.
Qed.

Lemma pushed_snoc l z : pushed (l ++ [z]) = push z (pushed l).
Proof. unfold pushed. by rewrite fold_left_app. Qed.

Lemma pushed_cons x l : pushed (x :: l) = insert_early x (pushed l).
Proof.
  induction l as [|z l IH] using rev_ind; [done |].
  by rewrite app_comm_cons, !pushed_snoc, IH, push_insert_early.
Qed.

Lemma spec_take_pushed l :
  match spec_take l with
  | Some (y, l') => pushed l = y :: pushed l'
  | None => l = []
  end.
Proof.
  induction l as [|x l IH]; cbn [spec_take]; [done |].
  destruct (spec_take l) as [[y l']|]; [|by subst].
  destruct (item_lt y x) eqn:E; rewrite !pushed_cons, IH; cbn [insert_early]; by rewrite E.
Qed.

(** C1: the priority queue implements its specification: for every sequence of
    pushes and pops, the linked list that [push] keeps sorted delivers exactly the
    items that the specification delivers, earliest first and in arrival order
    among equal times, and it is undefined exactly when the specification is. *)
Theorem queue_refines_spec ops : queue_run ops [] = spec_run ops [].
Proof.
  enough (forall l, queue_run ops (pushed l) = spec_run ops l) as Hg by apply (Hg []).
  induction ops as [|[it|] ops IH]; intros l; cbn; [done | by rewrite <- pushed_snoc |].
  pose proof (spec_take_pushed l) as Ht.
  destruct (spec_take l) as [[y l']|]; [|by subst].
  rewrite Ht. cbn. by rewrite IH.
Qed.

(** ** The scheduler activates items when they are due *)
Definition time_ok (t : Z) : Prop := 0 <= t < 2 ^ 62.
Definition sched_ok (s : Scheduler) : Prop :=
  ordered (items s) /\ Forall (fun it => time_ok (delivery_time it)) (items s).

Lemma time_diff_exact a b : time_ok a -> time_ok b -> time_diff a b = a - b.
Proof. unfold time_ok, time_diff. intros. apply to_s64_small. unfold LONG_MIN, LONG_MAX. lia. Qed.

Lemma ready_spec now s : sched_ok s -> time_ok now ->
  ready now s = match items s with it :: _ => delivery_time it <=? now | [] => false end.
Proof.
  intros [_ Hb] Hn. unfold ready, empty, getNextDelay_from, sched_next.
  destruct (items s) as [|it q]; cbn; [done |].
  rewrite time_diff_exact; [lia | by inversion Hb | done].
Qed.

Lemma not_ready_all_later now s : sched_ok s -> time_ok now -> ready now s = false ->
  Forall (fun it => now < delivery_time it) (items s).
Proof.
  intros Hok Hn. rewrite ready_spec by done. destruct Hok as [Ho _].
  destruct (items s) as [|it q]; [done |]. intros Hr. inversion Ho as [|? ? _ Hall]; subst.
  constructor; [lia |]. eapply List.Forall_impl; [|exact Hall]. unfold not_after. lia.
Qed.

(** The promise of the components that items activate: whatever they schedule
    keeps the queue ordered and within the range of times, and the only change of
    state they can make is to stop the scheduler. *)
Class ActivationOk `{Activation} : Prop := {
  activate_ok : forall p s, sched_ok s -> sched_ok (activate p s);
  activate_state : forall p s, state (activate p s) = state s \/ state (activate p s) = e_aborted
}.

Section Safety.
Context `{ActivationOk}.

Lemma set_items_ok l s : ordered l -> Forall (fun it => time_ok (delivery_time it)) l ->
  sched_ok (set_items l s).
Proof. by split. Qed.

Lemma run_item_ok poll s ev s' : sched_ok s -> run_item poll s = Ok (ev, s') ->
  sched_ok s' /\ (state s' = state s \/ state s' = e_aborted) /\
  match ev with
  | Activated it t => t = poll /\ head (items s) = Some it
  | Discarded it => head (items s) = Some it
  | _ => False
  end.
Proof.
  intros [Ho Hb] Hr. unfold run_item, sched_pop in Hr.
  destruct (items s) as [|it q]; [done |]. cbn in Hr.
  apply StronglySorted_inv in Ho as [Ho _]. apply Forall_cons_1 in Hb as [_ Hb].
  assert (sched_ok (set_next_time 0 (set_items q s))) as Hok by done.
  repeat case_match; simplify_eq; split_and!; auto using activate_ok;
    apply (activate_state _ (set_next_time 0 (set_items q s))).
Qed.

Lemma run_loop_ok clock poll r s p evs s' :
  sched_ok s -> time_ok poll -> Forall time_ok clock -> r = ready poll s ->
  run_loop clock poll r s = Ok (Some (p, evs, s')) ->
  sched_ok s' /\ time_ok p /\ (state s' = e_running -> ready p s' = false) /\
  (state s = e_running \/ state s = e_aborted -> state s' = e_running \/ state s' = e_aborted) /\
  (forall it t, Activated it t ∈ evs -> delivery_time it <= t).
Proof.
  revert poll r s p evs s'. induction clock as [|now clock IH];
    intros poll r s p evs s' Hok Hp Hc -> Hr; cbn in Hr;
    (destruct (bool_decide (state s = e_running) && ready poll s) eqn:E;
     [|simplify_eq; split_and!; [done | done | | done |];
       [intros Hs; rewrite bool_decide_true in E by done; by destruct (ready p s')
       | intros it t Hin; by apply elem_of_nil in Hin]]); [done |].
  apply bind_Ok in Hr as ([ev s1] & H1 & Hr). apply bind_Ok in Hr as (r2 & H2 & Hr).
  destruct r2 as [[[p2 evs2] s2]|]; [|done]. injection Hr as <- <- <-.
  destruct (run_item_ok _ _ _ _ Hok H1) as (Hok1 & Hst & Hev).
  apply Forall_cons_1 in Hc as [Hnow Hc].
  destruct (IH _ _ _ _ _ _ Hok1 Hnow Hc eq_refl H2) as (Hok2 & Hp2 & Hl & Hst2 & Hin).
  split_and!; [done | done | done | |].
  { intros Hs. apply Hst2. destruct Hst as [-> | ->]; [done | by right]. }
  intros it t [<- | Ht]%elem_of_cons; [|by apply Hin].
  destruct Hev as [-> Hh]. apply andb_true_iff in E as [_ Hrd]. rewrite ready_spec in Hrd by done.
  destruct (items s); [done |]. simplify_eq/=. lia.
Qed.

(** Nothing is activated early and nothing due is left behind: in one turn
    of the scheduler's loop every item activated has a delivery time not after the
    clock reading that let it through, and when the turn ends back in the waiting
    state, every item still queued lies after the last clock reading. *)
Theorem idle_activates_due_items last_poll now clock s p evs s' :
  sched_ok s -> time_ok now -> Forall time_ok clock -> state s = e_waiting ->
  idle_iter last_poll now clock s = Ok (Some (p, evs, s')) ->
  (forall it t, Activated it t ∈ evs -> delivery_time it <= t) /\
  (state s' = e_waiting -> Forall (fun it => p < delivery_time it) (items s')).
Proof.
  intros Hok Hn Hc Hs Hi. unfold idle_iter in Hi.
  set (s0 := set_delay (getNextDelay_from last_poll s) s) in *.
  assert (sched_ok s0) as Hok0 by done. change (state s) with (state s0) in Hs.
  rewrite Hs in Hi. cbn in Hi.
  destruct (ready now s0) eqn:Er; cbn in Hi.
  - rewrite bool_decide_true in Hi by done.
    apply bind_Ok in Hi as (r & Hl & Hi). destruct r as [[[p3 ev3] s3]|]; [|done].
    apply run_loop_ok in Hl as (Hok3 & Hp3 & Hl3 & Hst3 & Hin); [|done..].
    specialize (Hst3 (or_introl eq_refl)).
    destruct (decide (state s3 = e_running)) as [E3 | E3].
    + rewrite bool_decide_true in Hi by done. injection Hi as <- <- <-. split.
      * intros it t Ht. apply Hin. set_solver.
      * intros _. apply (not_ready_all_later p3 s3); auto.
    + rewrite bool_decide_false in Hi by done. injection Hi as <- <- <-. split.
      * intros it t Ht. apply Hin. set_solver.
      * intros Hw. destruct Hst3; congruence.
  - injection Hi as <- <- <-. split; [intros it t Ht; by apply elem_of_nil in Ht |].
    intros _. by apply (not_ready_all_later now s0).
Qed.
End Safety.

(** ** The loop comes to an end *)
Section Termination.
Context `{Activation}.
Hypothesis nothing_new : forall p s, items (activate p s) = items s.

Lemma run_item_defined poll s : ready poll s = true ->
  exists ev s', run_item poll s = Ok (ev, s') /\ items s = match items s with it :: _ => it :: items s' | [] => [] end.
Proof.
  unfold ready, empty, run_item, sched_pop. destruct (items s) as [|it q] eqn:E; [done |]. intros _. cbn.
  destruct (payload it) as [| |t]; [| |destruct (trigger_enabled t)]; do 2 eexists;
    (split; [done |]); by rewrite ?nothing_new.
Qed.

Lemma run_loop_terminates clock poll s : (length (items s) <= length clock)%nat ->
  exists p evs s', run_loop clock poll (ready poll s) s = Ok (Some (p, evs, s')).
Proof.
  revert poll s. induction clock as [|now clock IH]; intros poll s Hl; cbn;
    (destruct (bool_decide (state s = e_running) && ready poll s) eqn:E; [|by eauto]);
    apply andb_true_iff in E as [_ Hr];
    destruct (run_item_defined poll s Hr) as (ev & s1 & Hi & Hs).
  - unfold ready, empty in Hr. destruct (items s); [done | cbn in Hl; lia].
  - rewrite Hi. cbn. destruct (IH now s1) as (p & evs & s2 & ->); [|cbn; eauto].
    destruct (items s) eqn:E; cbn in Hl; [unfold ready, empty in Hr; by rewrite E in Hr |].
    injection Hs as ->. lia.
Qed.

(** A turn of the scheduler's loop ends: when the activated items schedule
    nothing new, as many clock readings as there are queued items are enough for
    the turn to return (it neither runs out of readings nor is undefined). *)
Theorem idle_turn_terminates last_poll now clock s :
  (length (items s) <= length clock)%nat ->
  exists p evs s', idle_iter last_poll now clock s = Ok (Some (p, evs, s')).
Proof.
  intros Hl. unfold idle_iter.
  set (s0 := set_delay (getNextDelay_from last_poll s) s).
  destruct (negb (ready now s0) && bool_decide (state s0 = e_waiting)); [by eauto |].
  set (b1 := bool_decide (state s0 = e_waiting) && ready now s0).
  assert (forall x y, ready now (set_state y (set_state x s0)) = ready now s0) as Hset by done.
  destruct b1; cbn;
    match goal with |- context [if ?c then ([RecvOk], _) else _] => destruct c end; cbn;
    match goal with |- context [run_loop clock now (ready now s0) ?s2] =>
      destruct (run_loop_terminates clock now s2 Hl) as (p & evs & s3 & Hrun);
      change (ready now s2) with (ready now s0) in Hrun; rewrite Hrun end;
    cbn; case_match; eauto.
Qed.
End Termination.

(** ** A turn takes exactly what is due *)
Section Delivery.
Context `{Activation}.
(** An item whose trigger is disabled. *)
Definition disabled (it : ScheduledItem) : bool :=
  match payload it with PTrigger t => negb (trigger_enabled t) | _ => false end.
(** The item an event is about, and what the event says of it. *)
Definition taken_by (ev : SchedEvent) : option ScheduledItem :=
  match ev with Activated it _ | Discarded it => Some it | _ => None end.
Definition in_time (ev : SchedEvent) : Prop :=
  match ev with
  | Activated it t => disabled it = false /\ delivery_time it <= t
  | Discarded it => disabled it = true
  | _ => True
  end.
Hypothesis quiet : forall p s, items (activate p s) = items s /\ state (activate p s) = state s.

Lemma run_item_takes poll s : sched_ok s -> time_ok poll -> ready poll s = true ->
  exists ev s' it, run_item poll s = Ok (ev, s') /\ items s = it :: items s' /\ taken_by ev = Some it /\ in_time ev /\
    sched_ok s' /\ state s' = state s.
Proof.
  intros Hok Hp Hr. rewrite ready_spec in Hr by done. destruct Hok as [Ho Hb].
  destruct (items s) as [|it q] eqn:E; [done |]. apply StronglySorted_inv in Ho as [Ho _]. apply Forall_cons_1 in Hb as [_ Hb].
  unfold run_item, sched_pop. rewrite E. cbn.
  destruct (payload it) as [| |t] eqn:Ep; [| |destruct (trigger_enabled t) eqn:Et]; do 2 eexists; exists it;
    (split; [reflexivity |]); unfold sched_ok, in_time, disabled; rewrite ?Ep, ?Et, ?(proj1 (quiet _ _)), ?(proj2 (quiet _ _));
    (split_and!; try done; lia).
Qed.
Lemma run_loop_takes clock : forall poll s, sched_ok s -> time_ok poll -> Forall time_ok clock -> state s = e_running ->
  (length (items s) <= length clock)%nat ->
  exists p evs s', run_loop clock poll (ready poll s) s = Ok (Some (p, evs, s')) /\ state s' = e_running /\
    items s = omap taken_by evs ++ items s' /\ Forall in_time evs /\ Forall (fun it => p < delivery_time it) (items s').
Proof.
  induction clock as [|now clock IH]; intros poll s Hok Hp Hc Hs Hl; cbn [run_loop]; rewrite bool_decide_true by done; cbn [andb];
    (destruct (ready poll s) eqn:Er; [|exists poll, [], s; split_and!; try done; by apply not_ready_all_later]);
    destruct (run_item_takes poll s Hok Hp Er) as (ev & s1 & it & R & Ei & Et & Ht & Hok1 & Hs1); rewrite Ei in Hl; cbn in Hl; [lia |].
  apply Forall_cons_1 in Hc as [Hn Hc]. rewrite R. cbn [mbind res_bind].
  destruct (IH now s1) as (p & evs & s2 & R2 & S2 & I2 & T2 & L2); [done | done | done | congruence | lia |].
  exists p, (ev :: evs), s2. rewrite R2. cbn. split; [done |]. split; [done |]. rewrite Et, Ei, I2.
  split; [done |]. split; [by constructor | done].
Qed.

(** C37: a turn of the scheduler's loop that starts in the waiting state returns to it and
    takes exactly what is due from the front of the queue, in the order of the queue:
    every item it activates has a delivery time not after the clock reading that let it
    through, items whose trigger is disabled are dropped and all others are activated,
    and every item that is left lies after the last clock reading; with nothing due there
    are no messages to the program, otherwise the exchange is opened before the first item
    and closed after the last. The queue is in order, all times are below [2 ^ 62]
    microseconds, there are as many clock readings as items, and what is activated neither
    schedules items nor stops the scheduler. *)
Theorem turn_takes_due last_poll now clock s :
  sched_ok s -> time_ok now -> Forall time_ok clock -> state s = e_waiting -> (length (items s) <= length clock)%nat ->
  exists p evs s', idle_iter last_poll now clock s =
      Ok (Some (p, match evs with [] => [] | _ => [SendSched; RecvOk] ++ evs ++ [SendDone; RecvAck] end, s')) /\
    state s' = e_waiting /\ items s = omap taken_by evs ++ items s' /\ Forall in_time evs /\
    Forall (fun it => p < delivery_time it) (items s').
Proof.
  intros Hok Hn Hc Hs Hl. unfold idle_iter. set (s0 := set_delay (getNextDelay_from last_poll s) s).
  assert (sched_ok s0) as Hok0 by done. change (state s) with (state s0) in Hs. rewrite Hs.
  destruct (ready now s0) eqn:Er; cbn -[run_loop].
  - rewrite bool_decide_true by done. cbn -[run_loop]. rewrite bool_decide_true by done. cbn -[run_loop].
    set (s2 := set_state e_running (set_state e_waiting_cw s0)).
    destruct (run_loop_takes clock now s2) as (p & evs & s' & R & S' & I & T & L); [done | done | done | done | done |].
    change (ready now s2) with (ready now s0) in R. rewrite Er in R.
    exists p, evs, (set_state e_waiting s'). rewrite R. cbn. rewrite bool_decide_true by done. split; [|done].
    destruct evs; [|done]. exfalso. destruct clock as [|c clock]; cbn in R.
    + rewrite ready_spec in Er by done. change (items s0) with (items s) in Er.
      destruct (items s); [done | cbn in Hl; lia].
    + destruct (run_item now s2) as [[ev s3]| |]; [|done | done]. cbn in R.
      destruct (run_loop clock c (ready c s3) s3) as [[[[? ?] ?]|]| |]; done.
  - exists now, [], s0. split; [done |]. split; [done |]. split; [done |]. split; [constructor |]. by apply not_ready_all_later.
Qed.
End Delivery.

(** ** Concrete instances *)
Definition idle_activation : Activation :=
  {| trigger_enabled := fun _ => true; activate := fun _ s => s |}.
Lemma idle_activation_ok : @ActivationOk idle_activation.
Proof. split; [done | by left]. Qed.

Definition item_at (t : Z) : ScheduledItem := mkItem (PTrigger 1) t.
Definition two_items : Scheduler := mkScheduler [item_at 5; item_at 20] 0 e_waiting 0 0.
Lemma two_items_ok : sched_ok two_items.
Proof.
  split; [|by repeat constructor].
  constructor; [by repeat constructor |]. repeat constructor. unfold not_after. cbn. lia.
Qed.

Lemma idle_activates_due_items_w :
  (forall it t, Activated it t ∈ [SendSched; RecvOk; Activated (item_at 5) 10; SendDone; RecvAck] ->
     delivery_time it <= t) /\
  (e_waiting = e_waiting -> Forall (fun it => 12 < delivery_time it) [item_at 20]).
Proof.
  apply (@idle_activates_due_items idle_activation idle_activation_ok 0 10 [12] two_items 12 _
    (mkScheduler [item_at 20] 0 e_waiting 5 0));
    [exact two_items_ok | unfold time_ok; lia | repeat constructor; unfold time_ok; lia
    | reflexivity | vm_compute; reflexivity].
Defined.

Lemma idle_turn_terminates_w : exists p evs s',
  @idle_iter idle_activation 0 10 [12; 13] two_items = Ok (Some (p, evs, s')).
Proof. apply (@idle_turn_terminates idle_activation); [reflexivity | cbn; lia]. Defined.

Lemma turn_takes_due_w : exists evs, omap taken_by evs = [item_at 5] /\ Forall (@in_time idle_activation) evs /\
  @idle_iter idle_activation 0 10 [12; 13] two_items =
    Ok (Some (12, [SendSched; RecvOk; Activated (item_at 5) 10; SendDone; RecvAck], mkScheduler [item_at 20] 0 e_waiting 5 0)).
Proof.
  destruct (@turn_takes_due idle_activation ltac:(by split) 0 10 [12; 13] two_items two_items_ok)
    as (p & evs & s' & R & _ & I & T & _); [unfold time_ok; lia | repeat constructor; unfold time_ok; lia | done | done |].
  assert (items s' = [item_at 20]) as Hs.
  { apply (f_equal (fun r => match r with Ok (Some (_, _, x)) => items x | _ => [] end)) in R. by vm_compute in R. }
  exists evs. rewrite Hs in I. change (items two_items) with ([item_at 5] ++ [item_at 20]) in I. apply app_inv_tail in I.
  split; [by rewrite I |]. split; [exact T |]. vm_compute. reflexivity.
Defined.

(** [PriorityQueue::check] compares every item with the first one only: a queue
    out of order after its head passes. *)
Example check_misses_disorder :
  check [item_at 1; item_at 3; item_at 2] = Ok true /\ ~ ordered [item_at 1; item_at 3; item_at 2].
Proof.
  split; [done |]. intros Ho. apply StronglySorted_inv in Ho as [Ho _].
  apply StronglySorted_inv in Ho as [_ Ho]. apply Forall_cons_1 in Ho as [Ho _].
  unfold not_after in Ho. cbn in Ho. lia.
Qed.
