(* ===== verification/Filtering.v ===== *)
(** Sample buffers and filters (filtering.h, filtering.cpp): the ring buffers
    behind analogue inputs, counters and rate estimators.

    The loops run on an explicit bound; a loop that did not end within it would be
    reported as [Undef], and the theorems show that this does not happen. *)
From S2P Require Import Prelude Cnum.
From Stdlib Require Import SpecFloat.
Open Scope Z_scope.

(** ** Data *)

(** The fields of [Buffer] with the array of the subclass. Array cells and
    [total_] are indeterminate ([None]) until they are assigned; nothing but the
    running total itself is computed from [total_]. *)
Record Buffer (V : Type) := mkBuffer {
  BUFSIZE : Z;
  front : Z;
  back : Z;
  total_ : option double;
  buf : list (option V)
}.
Arguments mkBuffer {_} _ _ _ _ _.
Arguments BUFSIZE {_} _.
Arguments front {_} _.
Arguments back {_} _.
Arguments total_ {_} _.
Arguments buf {_} _.

(** How a subclass converts a cell to a double ([getFloatAtIndex]). *)
Class Sample (V : Type) := sample_float : V -> double.
#[export] Instance long_sample : Sample Z := float_of_Z.
#[export] Instance double_sample : Sample double := id.

Section Ring.
Context {V : Type} `{!Sample V}.

Definition Buffer_new (size : Z) : Buffer V :=
  mkBuffer size (-1) (-1) None (replicate (Z.to_nat size) None).

(** [int] remainder; [unsigned int] remainder. *)
Definition i_rem (a b : Z) : res Z := if b =? 0 then Undef else Ok (Z.rem a b).
Definition u_rem (a b : Z) : res Z := if u32 b =? 0 then Undef else Ok (u32 a mod u32 b).

Definition length_ (b : Buffer V) : res Z :=
  if front b =? -1 then Ok 0
  else r ← i_rem (front b - back b + BUFSIZE b) (BUFSIZE b); Ok (r + 1).

Definition reset (b : Buffer V) : Buffer V := mkBuffer (BUFSIZE b) (-1) (-1) (Some fzero) (buf b).

(** [buf[i]]. *)
Definition cell (i : Z) (b : Buffer V) : res V :=
  if i <? 0 then Undef else
  match buf b !! Z.to_nat i with Some (Some v) => Ok v | _ => Undef end.
Definition set_cell (i : Z) (v : V) (b : Buffer V) : res (Buffer V) :=
  if (0 <=? i) && (i <? Z.of_nat (length (buf b)))
  then Ok (mkBuffer (BUFSIZE b) (front b) (back b) (total_ b) (<[Z.to_nat i := Some v]> (buf b)))
  else Undef.

Definition total_add (f : double -> double -> double) (o : option double) (v : V) : option double :=
  t ← o; Some (f t (sample_float v)).

(** [LongBuffer::append] and [FloatBuffer::append] (the same code). *)
Definition append (v : V) (b : Buffer V) : res (Buffer V) :=
  f ← i_rem (front b + 1) (BUFSIZE b);
  t1 ← (if f =? back b then old ← cell f b; Ok (total_add fsub (total_ b) old) else Ok (total_ b));
  b1 ← set_cell f v (mkBuffer (BUFSIZE b) f (back b) t1 (buf b));
  let t2 := total_add fadd (total_ b1) v in
  bk ← (if (f =? back b) || (back b =? -1) then i_rem (back b + 1) (BUFSIZE b) else Ok (back b));
  Ok (mkBuffer (BUFSIZE b) f bk t2 (buf b1)).

(** [get (n)] and [set (n, v)]: the index is computed in unsigned arithmetic. *)
Definition index_of (n : Z) (b : Buffer V) : res Z := u_rem (front b + BUFSIZE b - n) (BUFSIZE b).
Definition get (n : Z) (b : Buffer V) : res V := i ← index_of n b; cell i b.
Definition set (n : Z) (v : V) (b : Buffer V) : res (Buffer V) := i ← index_of n b; set_cell i v b.

Definition getFloatAtOffset (offset : Z) (b : Buffer V) : res double :=
  v ← get offset b; Ok (sample_float v).
Definition getFloatAtIndex (i : Z) (b : Buffer V) : res double :=
  v ← cell i b; Ok (sample_float v).

Definition c_0001 : double := Eval vm_compute in dec_float false 1 (-4).
Definition difference (ia ib : Z) (b : Buffer V) : res double :=
  x ← getFloatAtOffset ia b; y ← getFloatAtOffset ib b;
  let d := fsub x y in
  Ok (if fleb c_0001 (fabs d) then d else fzero).
Definition distance (ia ib : Z) (b : Buffer V) : res double :=
  d ← difference ia ib b;
  let a := fabs d in Ok (if fltb a c_0001 then fzero else a).

(** The sum from index [i] up to, not including, [front]; the final index is
    [front]. *)
Fixpoint sum_to_front (fuel : nat) (i : Z) (acc : double) (b : Buffer V) : res double :=
  if i =? front b then Ok acc
  else match fuel with
       | O => Undef
       | S fuel' =>
           x ← getFloatAtIndex i b;
           i' ← i_rem (i + 1) (BUFSIZE b);
           sum_to_front fuel' i' (fadd acc x) b
       end.
Definition average (n : Z) (b : Buffer V) : res double :=
  if front b =? -1 then Ok fzero
  else if n =? 0 then Ok fzero
  else
    len ← length_ b;
    if len <=? 0 then Ok fzero
    else
      let n' := if len <? n then len else n in
      i ← i_rem (front b + BUFSIZE b - n' + 1) (BUFSIZE b);
      s ← sum_to_front (Z.to_nat (BUFSIZE b)) i fzero b;
      x ← getFloatAtIndex (front b) b;
      Ok (fdiv (fadd s x) (float_of_Z n')).

(** The [do ... while (i != front)] loop of [stddev]. *)
Fixpoint sum_sq (fuel : nat) (i : Z) (avg acc : double) (b : Buffer V) : res double :=
  match fuel with
  | O => Undef
  | S fuel' =>
      x ← getFloatAtIndex i b;
      let val := fsub x avg in
      let acc' := fadd acc (fmul val val) in
      i' ← i_rem (i + 1) (BUFSIZE b);
      if i' =? front b then Ok acc' else sum_sq fuel' i' avg acc' b
  end.
Definition stddev (n : Z) (b : Buffer V) : res double :=
  avg ← average n b;
  if front b =? -1 then Ok fzero
  else if n =? 0 then Ok fzero
  else
    len ← length_ b;
    if len <=? 1 then Ok fzero
    else
      let n' := if len <? n then len else n in
      i ← i_rem (front b + BUFSIZE b - n' + 1) (BUFSIZE b);
      s ← sum_sq (Z.to_nat (BUFSIZE b)) i avg fzero b;
      Ok (fsqrt (fdiv s (float_of_Z (n' - 1)))).
End Ring.

(** ** FloatBuffer *)
Abbreviation FloatBuffer := (Buffer double).
Abbreviation LongBuffer := (Buffer Z).
Definition FloatBuffer_append : double -> FloatBuffer -> res FloatBuffer := append.

(** [findMovement]: how far back the signal last differed by [amount]. *)
Fixpoint find_back (fuel : nat) (amount current : double) (max_len n idx : Z) (b : FloatBuffer)
    : res Z :=
  if negb (idx =? back b) && (n <? max_len) then
    match fuel with
    | O => Undef
    | S fuel' =>
        let idx' := if idx - 1 =? -1 then BUFSIZE b - 1 else idx - 1 in
        x ← cell idx' b;
        if fleb amount (fabs (fsub current x)) then Ok (n + 1)
        else find_back fuel' amount current max_len (n + 1) idx' b
    end
  else Ok n.
Definition findMovement (amount : double) (max_len : Z) (b : FloatBuffer) : res Z :=
  l ← length_ b;
  if l =? 0 then Abort
  else current ← cell (front b) b;
       find_back (Z.to_nat (BUFSIZE b)) amount current max_len 0 (front b) b.

(** [inner_product]: samples and the running sum are [float]s. *)
Fixpoint inner_loop (coefficients : list double) (i : Z) (sum : double) (b : FloatBuffer)
    : res double :=
  match coefficients with
  | [] => Ok sum
  | c :: cs =>
      len ← length_ b;
      x ← (if i <? len then get i b else Ok fzero);
      inner_loop cs (i + 1) (to_f32 (fadd sum (fmul (to_f32 x) c))) b
  end.
Definition inner_product (coefficients : list double) (b : FloatBuffer) : res double :=
  inner_loop coefficients 0 fzero b.

(** [movingAverage (n)]. *)
Fixpoint sum_recent (k : nat) (i : Z) (acc : double) (b : FloatBuffer) : res double :=
  match k with
  | O => Ok acc
  | S k' => x ← get i b; sum_recent k' (i + 1) (fadd acc x) b
  end.
Definition movingAverage (n : Z) (b : FloatBuffer) : res double :=
  if n =? 0 then Ok fzero
  else
    len ← length_ b;
    let n' := if len <? n then len else n in
    s ← sum_recent (Z.to_nat n') 0 fzero b;
    Ok (fdiv s (float_of_Z n')).

(** [slopeFromLeastSquaresFit]: sums over offsets [i] from [n] down to 1. *)
Fixpoint slope_loop (i : nat) (n : Z) (t0 sx sy sxx sxy : double) (time_buf : LongBuffer)
    (b : FloatBuffer) : res (double * double * double * double) :=
  match i with
  | O => Ok (sx, sy, sxx, sxy)
  | S i' =>
      yi ← get (Z.of_nat i) b; yn ← get n b;
      let y := fsub yi yn in
      ti ← get (Z.of_nat i) time_buf;
      let x := fsub (float_of_Z ti) t0 in
      slope_loop i' n t0 (fadd sx x) (fadd sy y) (fadd sxx (fmul x x)) (fadd sxy (fmul x y))
        time_buf b
  end.
Definition c_00001f : double := Eval vm_compute in to_f32 (dec_float false 1 (-5)).
Definition slopeFromLeastSquaresFit (time_buf : LongBuffer) (b : FloatBuffer) : res double :=
  len ← length_ b;
  let n := len - 1 in
  if n <=? 0 then Ok fzero
  else
    tn ← get n time_buf;
    '(sx, sy, sxx, sxy) ← slope_loop (Z.to_nat n) n (float_of_Z tn) fzero fzero fzero fzero time_buf b;
    let fn := float_of_Z n in
    let denom := fsub (fmul fn sxx) (fmul sx sx) in
    if fltb (fabs denom) c_00001f then Ok fzero
    else Ok (fdiv (fsub (fmul fn sxy) (fmul sx sy)) denom).

(** ** ButterworthFilter *)
Record ButterworthFilter := mkFilter {
  c_coefficients : list double;
  signal_buf : FloatBuffer;
  d_coefficients : list double;
  filtered_buf : FloatBuffer
}.
Definition ButterworthFilter_new (cs ds : list double) : ButterworthFilter :=
  mkFilter cs (Buffer_new (Z.of_nat (length cs) + 1)) ds (Buffer_new (Z.of_nat (length ds) + 1)).
Definition filter (x : double) (f : ButterworthFilter) : res (double * ButterworthFilter) :=
  sb ← append x (signal_buf f);
  s2 ← inner_product (c_coefficients f) sb;
  s1 ← match d_coefficients f with
       | [] => Undef
       | _ :: ds => inner_product ds (filtered_buf f)
       end;
  let filtered := to_f32 (fsub s2 s1) in
  fb ← append filtered (filtered_buf f);
  Ok (filtered, mkFilter (c_coefficients f) sb (d_coefficients f) fb).

(** ** SampleBuffer *)
Record SampleBuffer := mkSamples {
  sb_values : FloatBuffer;
  sb_times : list (option Z)
}.
Definition SampleBuffer_new (size : Z) : SampleBuffer :=
  mkSamples (Buffer_new size) (replicate (Z.to_nat size) None).

Definition time_cell (i : Z) (s : SampleBuffer) : res Z :=
  if i <? 0 then Undef else
  match sb_times s !! Z.to_nat i with Some (Some t) => Ok t | _ => Undef end.

(** Store at the next position, as at the end of [append] and in [quickAppend]. *)
Definition quickAppend (val : double) (time : Z) (s : SampleBuffer) : res SampleBuffer :=
  let b := sb_values s in
  f ← i_rem (front b + 1) (BUFSIZE b);
  t1 ← (if f =? back b then old ← cell f b; Ok (total_add fsub (total_ b) old) else Ok (total_ b));
  bk ← (if (f =? back b) || (back b =? -1) then i_rem (back b + 1) (BUFSIZE b) else Ok (back b));
  let t2 := total_add fadd t1 val in
  b' ← set_cell f val (mkBuffer (BUFSIZE b) f bk t2 (buf b));
  if f <? Z.of_nat (length (sb_times s))
  then Ok (mkSamples b' (<[Z.to_nat f := Some time]> (sb_times s))) else Undef.

(** Conversion of a double to [int]. *)
Definition int_of_float (x : double) : res Z :=
  match ftrunc x with Some z => int_of z | None => Undef end.

(** The loop that fills in missing samples, for [i] from [missing] down to 1; times
    are [uint64_t]. *)
Fixpoint fill (i : nat) (missing : Z) (val mean_change : double) (time last_time : Z)
    (s : SampleBuffer) : res SampleBuffer :=
  match i with
  | O => Ok s
  | S i' =>
      let zi := Z.of_nat i in
      s' ← quickAppend (fsub val (fmul (float_of_Z zi) mean_change))
             (u64 (time - u64 (zi * u64 (time - last_time)) / missing)) s;
      fill i' missing val mean_change time last_time s'
  end.

Definition sample_append (val : double) (time : Z) (s : SampleBuffer) : res SampleBuffer :=
  let b := sb_values s in
  same ← (if front b =? -1 then Ok false else t ← time_cell (front b) s; Ok (t =? time));
  if same : bool then Ok s
  else
    n ← length_ b;
    s' ← (if Z.quot (BUFSIZE b) 2 <? n then
            vf ← cell (front b) b; vb ← cell (back b) b;
            tf ← time_cell (front b) s; tb ← time_cell (back b) s;
            let fn := float_of_Z n in
            let mean_change := fdiv (fsub vf vb) fn in
            let period := fdiv (float_of_Z (u64 (tf - tb))) fn in
            missing ← int_of_float (fdiv (float_of_Z (u64 (time - tf))) period);
            if 3 <=? missing then
              let s1 := mkSamples (reset b) (sb_times s) in
              let half := Z.quot (BUFSIZE b) 2 in
              let m := if half <? missing then half else missing in
              fill (Z.to_nat m) m val mean_change time tf s1
            else Ok s
          else Ok s);
    quickAppend val time s'.

(** [rate ()]: change of value over time between the oldest and newest sample. *)
Definition rate (s : SampleBuffer) : res double :=
  let b := sb_values s in
  if (front b =? back b) || (back b =? -1) then Ok fzero
  else
    v1 ← cell (back b) b; v2 ← cell (front b) b;
    t1 ← time_cell (back b) s; t2 ← time_cell (front b) s;
    Ok (fdiv (fsub v2 v1) (fsub (float_of_Z t2) (float_of_Z t1))).

(** ** The ring holds the most recent samples

    [repr b l]: the buffer holds exactly the samples [l], newest first. *)
Section Representation.
Context {V : Type} `{!Sample V}.

Record repr (b : Buffer V) (l : list V) : Prop := {
  repr_size : 0 < BUFSIZE b < 2 ^ 30;
  repr_buf : length (buf b) = Z.to_nat (BUFSIZE b);
  repr_len : Z.of_nat (length l) <= BUFSIZE b;
  repr_empty : l = [] -> front b = -1 /\ back b = -1;
  repr_front : l <> [] -> 0 <= front b < BUFSIZE b;
  repr_back : l <> [] -> back b = (front b - Z.of_nat (length l) + 1) mod BUFSIZE b;
  repr_cells : forall k v, l !! k = Some v ->
    buf b !! Z.to_nat ((front b - Z.of_nat k) mod BUFSIZE b) = Some (Some v)
}.

Lemma Buffer_new_repr size : 0 < size < 2 ^ 30 -> repr (Buffer_new size) [].
Proof. intros Hs. split; cbn; try done; [apply length_replicate | lia]. Qed.

Lemma reset_repr b l : repr b l -> repr (reset b) [].
Proof. intros [Hs Hb Hl _ _ _ _]. split; cbn; try done. lia. Qed.

Lemma i_rem_mod a b : 0 <= a -> 0 < b -> i_rem a b = Ok (a mod b).
Proof. intros Ha Hb. unfold i_rem. rewrite (proj2 (Z.eqb_neq b 0)), Z.rem_mod_nonneg; [done | lia..]. Qed.

Lemma mod_in (a b : Z) : 0 < b -> 0 <= a mod b < b.
Proof. apply Z.mod_pos_bound. Qed.

Lemma cell_repr b l k v : repr b l -> l !! k = Some v ->
  cell ((front b - Z.of_nat k) mod BUFSIZE b) b = Ok v.
Proof.
  intros Hr Hk. unfold cell. pose proof (mod_in (front b - Z.of_nat k) (BUFSIZE b)) as Hm.
  destruct Hr. rewrite (proj2 (Z.ltb_ge _ _)) by lia. by erewrite repr_cells0.
Qed.

Lemma front_nonneg b l : repr b l -> l <> [] -> (front b =? -1) = false.
Proof. intros [] Hl. specialize (repr_front0 Hl). lia. Qed.

Lemma length_repr b l : repr b l -> length_ b = Ok (Z.of_nat (length l)).
Proof.
  intros Hr. unfold length_. destruct (decide (l = [])) as [-> | Hl].
  - destruct (repr_empty _ _ Hr eq_refl) as [-> _]. done.
  - rewrite (front_nonneg _ _ Hr Hl). destruct Hr. specialize (repr_front0 Hl).
    assert (0 < Z.of_nat (length l)) by (destruct l; [done | cbn; lia]).
    pose proof (mod_in (front b - Z.of_nat (length l) + 1) (BUFSIZE b) ltac:(lia)).
    rewrite (repr_back0 Hl), i_rem_mod by lia. cbn. f_equal.
    rewrite <- Zplus_mod_idemp_l, Zminus_mod_idemp_r, Zplus_mod_idemp_l.
    replace (front b - (front b - Z.of_nat (length l) + 1) + BUFSIZE b)
      with (Z.of_nat (length l) - 1 + 1 * BUFSIZE b) by lia.
    rewrite Z_mod_plus_full, Z.mod_small; lia.
Qed.

Lemma mod_shift_ne (f x y B : Z) : 0 < B -> 0 <= x < B -> 0 <= y < B -> x <> y ->
  (f - x) mod B <> (f - y) mod B.
Proof.
  intros HB Hx Hy Hne E.
  pose proof (Z.div_mod (f - x) B ltac:(lia)). pose proof (Z.div_mod (f - y) B ltac:(lia)).
  rewrite E in *. set (p := (f - x) / B) in *. set (q := (f - y) / B) in *.
  assert (x - y = B * (q - p)) by lia. assert (q - p = 0 \/ q - p >= 1 \/ q - p <= -1) by lia. nia.
Qed.

Lemma set_cell_Ok i (v : V) (b : Buffer V) : 0 <= i < Z.of_nat (length (buf b)) ->
  set_cell i v b = Ok (mkBuffer (BUFSIZE b) (front b) (back b) (total_ b)
                        (<[Z.to_nat i := Some v]> (buf b))).
Proof. intros Hi. unfold set_cell. by rewrite (proj2 (Z.leb_le _ _)), (proj2 (Z.ltb_lt _ _)) by lia. Qed.

Lemma mod_mod_add (a b c B : Z) : 0 < B -> a mod B = c -> (a + b) mod B = (c + b) mod B.
Proof. intros HB <-. by rewrite Zplus_mod_idemp_l. Qed.

(** Where [append] finds [front] and [back]. *)
Lemma append_positions b l : repr b l ->
  let f := (front b + 1) mod BUFSIZE b in
  i_rem (front b + 1) (BUFSIZE b) = Ok f /\
  (f =? back b) = bool_decide (Z.of_nat (length l) = BUFSIZE b) /\
  (back b =? -1) = bool_decide (l = []).
Proof.
  intros Hr f. destruct (decide (l = [])) as [-> | Hl].
  - destruct (repr_empty _ _ Hr eq_refl) as [Hf Hb]. destruct Hr. subst f. rewrite Hf, Hb in *.
    rewrite i_rem_mod, Z.mod_0_l by lia. cbn. rewrite (bool_decide_false (0 = _)) by lia. done.
  - destruct Hr. specialize (repr_front0 Hl). specialize (repr_back0 Hl).
    pose proof (mod_in (front b - Z.of_nat (length l) + 1) (BUFSIZE b) ltac:(lia)).
    rewrite i_rem_mod by lia. split; [done |]. split.
    + rewrite repr_back0. subst f. destruct (decide (Z.of_nat (length l) = BUFSIZE b)) as [E|E].
      * rewrite bool_decide_true, Z.eqb_eq by done. rewrite E.
        replace (front b - BUFSIZE b + 1) with (front b + 1 + (-1) * BUFSIZE b) by lia.
        by rewrite Z_mod_plus_full.
      * rewrite bool_decide_false, Z.eqb_neq by done.
        assert (length l <> 0%nat) by (by destruct l).
        replace (front b - Z.of_nat (length l) + 1) with (front b + 1 - Z.of_nat (length l)) by lia.
        rewrite <- (Z.sub_0_r (front b + 1)) at 1. apply mod_shift_ne; lia.
    + rewrite bool_decide_false by done. lia.
Qed.

Lemma append_cells b l v k w : repr b l ->
  take (Z.to_nat (BUFSIZE b)) (v :: l) !! k = Some w ->
  let f := (front b + 1) mod BUFSIZE b in
  <[Z.to_nat f := Some v]> (buf b) !! Z.to_nat ((f - Z.of_nat k) mod BUFSIZE b) = Some (Some w).
Proof.
  intros Hr Hk f. pose proof (repr_size _ _ Hr). pose proof (mod_in (front b + 1) (BUFSIZE b) ltac:(lia)).
  rewrite lookup_take_Some in Hk. destruct Hk as [Hk Hlt]. destruct k as [|k].
  - injection Hk as ->. rewrite Z.sub_0_r. subst f. rewrite Z.mod_mod by lia.
    apply list_lookup_insert_eq. rewrite (repr_buf _ _ Hr). lia.
  - cbn in Hk.
    assert (Z.to_nat f <> Z.to_nat ((f - Z.of_nat (S k)) mod BUFSIZE b)) as Hne.
    { pose proof (mod_in (f - Z.of_nat (S k)) (BUFSIZE b) ltac:(lia)) as Hm.
      pose proof (mod_shift_ne f 0 (Z.of_nat (S k)) (BUFSIZE b)) as Hs.
      rewrite Z.sub_0_r, (Z.mod_small f) in Hs by done. intros E. apply Hs; lia. }
    rewrite list_lookup_insert_ne by done. subst f. rewrite Zminus_mod_idemp_l.
    replace (front b + 1 - Z.of_nat (S k)) with (front b - Z.of_nat k) by lia.
    by apply (repr_cells _ _ Hr).
Qed.

(** The state [append] leaves, given where it stores the sample. *)
Lemma append_repr_at b l v t bk : repr b l ->
  let f := (front b + 1) mod BUFSIZE b in
  bk = (f - Z.of_nat (length (take (Z.to_nat (BUFSIZE b)) (v :: l))) + 1) mod BUFSIZE b ->
  repr (mkBuffer (BUFSIZE b) f bk t (<[Z.to_nat f := Some v]> (buf b)))
    (take (Z.to_nat (BUFSIZE b)) (v :: l)).
Proof.
  intros Hr f Hbk. pose proof (repr_size _ _ Hr). pose proof (repr_buf _ _ Hr).
  pose proof (mod_in (front b + 1) (BUFSIZE b) ltac:(lia)).
  split; cbn [BUFSIZE front back buf]; try done.
  - by rewrite length_insert.
  - rewrite length_take. lia.
  - destruct (Z.to_nat (BUFSIZE b)) eqn:E; [lia | done].
  - intros k w Hk. by apply append_cells with l.
Qed.

Lemma append_repr b l v : repr b l -> exists b',
  append v b = Ok b' /\ repr b' (take (Z.to_nat (BUFSIZE b)) (v :: l)) /\ BUFSIZE b' = BUFSIZE b.
Proof.
  intros Hr. destruct (append_positions b l Hr) as (Hf & Hfull & Hempty).
  pose proof (append_repr_at b l v) as Hat. cbn [length] in Hat.
  unfold append. rewrite Hf. cbn [mbind res_bind]. rewrite Hfull, Hempty.
  set (f := (front b + 1) mod BUFSIZE b) in *.
  pose proof (repr_size _ _ Hr). pose proof (repr_buf _ _ Hr). pose proof (repr_len _ _ Hr).
  pose proof (mod_in (front b + 1) (BUFSIZE b) ltac:(lia)) as Hfr. fold f in Hfr.
  rewrite length_take in Hat. cbn [length] in Hat.
  destruct (decide (Z.of_nat (length l) = BUFSIZE b)) as [E1|E1];
    [rewrite (bool_decide_true _ E1) | rewrite (bool_decide_false _ E1)].
  - assert (l <> []) as Hl by (intros ->; cbn in E1; lia).
    rewrite bool_decide_true, Z.eqb_eq in Hfull by done. symmetry in Hfull. rename Hfull into Hb.
    destruct (lookup_lt_is_Some_2 l (length l - 1)) as [w Hw]; [destruct l; cbn in *; [done | lia] |].
    assert (cell f b = Ok w) as ->.
    { rewrite <- (cell_repr _ _ _ _ Hr Hw). f_equal. subst f.
      rewrite <- (Z_mod_plus_full (front b + 1) (-1)). f_equal. destruct l; cbn in *; [done | lia]. }
    cbn [mbind res_bind]. rewrite set_cell_Ok by (cbn; lia).
    cbn [mbind res_bind orb buf total_ BUFSIZE]. rewrite i_rem_mod by lia.
    cbn [mbind res_bind]. eexists. split; [done |]. split; [|done]. apply Hat; [done |].
    rewrite Hb, Nat.min_l by lia. rewrite <- (Z_mod_plus_full (f + 1) (-1)). f_equal. lia.
  - cbn [mbind res_bind]. rewrite set_cell_Ok by (cbn; lia).
    cbn [mbind res_bind orb buf total_ BUFSIZE].
    assert (Z.of_nat (Z.to_nat (BUFSIZE b) `min` S (length l)) = Z.of_nat (length l) + 1) as Hmin by lia.
    rewrite Hmin in Hat. case_bool_decide as E2.
    + destruct (repr_empty _ _ Hr E2) as [Ef Eb]. rewrite Eb, i_rem_mod by lia.
      cbn [mbind res_bind]. eexists. split; [done |]. split; [|done]. apply Hat; [done |].
      subst f. rewrite Ef, E2. cbn. rewrite Z.mod_0_l; [done | lia].
    + cbn [mbind res_bind]. eexists. split; [done |]. split; [|done]. apply Hat; [done |].
      rewrite (repr_back _ _ Hr E2). subst f.
      replace ((front b + 1) mod BUFSIZE b - (Z.of_nat (length l) + 1) + 1)
        with ((front b + 1) mod BUFSIZE b - Z.of_nat (length l)) by lia.
      rewrite Zminus_mod_idemp_l. f_equal. lia.
Qed.

Lemma u_rem_mod a b : 0 <= a < 2 ^ 32 -> 0 < b < 2 ^ 32 -> u_rem a b = Ok (a mod b).
Proof.
  intros Ha Hb. unfold u_rem, u32. rewrite !(Z.mod_small _ (2 ^ 32)) by lia.
  rewrite (proj2 (Z.eqb_neq b 0)) by lia. done.
Qed.

Lemma get_repr b l k v : repr b l -> l !! k = Some v -> get (Z.of_nat k) b = Ok v.
Proof.
  intros Hr Hk. assert (l <> []) as Hl by (by intros ->).
  pose proof (lookup_lt_Some _ _ _ Hk). pose proof (repr_size _ _ Hr). pose proof (repr_len _ _ Hr).
  pose proof (repr_front _ _ Hr Hl). unfold get, index_of.
  rewrite u_rem_mod by lia. cbn. rewrite <- (cell_repr _ _ _ _ Hr Hk). f_equal.
  rewrite <- (Z_mod_plus_full (front b - Z.of_nat k) 1). f_equal. lia.
Qed.

Fixpoint append_all (vs : list V) (b : Buffer V) : res (Buffer V) :=
  match vs with
  | [] => Ok b
  | v :: vs' => b' ← append v b; append_all vs' b'
  end.

Lemma append_all_repr vs b l : repr b l -> exists b',
  append_all vs b = Ok b' /\ repr b' (take (Z.to_nat (BUFSIZE b)) (rev vs ++ l)).
Proof.
  revert b l. induction vs as [|v vs IH]; intros b l Hr; cbn.
  - exists b. split; [done |]. rewrite take_ge; [done |]. pose proof (repr_len _ _ Hr). lia.
  - destruct (append_repr b l v Hr) as (b1 & -> & Hr1 & Hs). cbn.
    destruct (IH _ _ Hr1) as (b2 & -> & Hr2). exists b2. split; [done |].
    rewrite Hs in Hr2. rewrite <- app_assoc. cbn [app].
    assert (forall n (x y : list V), take n (x ++ take n y) = take n (x ++ y)) as Htake.
    { intros n x y. rewrite !take_app, take_take. f_equal. f_equal. lia. }
    by rewrite Htake in Hr2.
Qed.

(** ** Sums over a window

    Position [k] of the ring is [(front - k) mod BUFSIZE]. *)
Definition pos (b : Buffer V) (k : nat) : Z := (front b - Z.of_nat k) mod BUFSIZE b.

Lemma pos_next b l k : repr b l -> l <> [] ->
  i_rem (pos b (S k) + 1) (BUFSIZE b) = Ok (pos b k).
Proof.
  intros Hr Hl. pose proof (repr_size _ _ Hr). unfold pos.
  pose proof (mod_in (front b - Z.of_nat (S k)) (BUFSIZE b) ltac:(lia)).
  rewrite i_rem_mod, Zplus_mod_idemp_l by lia. f_equal. f_equal. lia.
Qed.

Lemma pos_front b l k : repr b l -> l <> [] -> (k < length l)%nat ->
  (pos b k =? front b) = Nat.eqb k 0.
Proof.
  intros Hr Hl Hk. pose proof (repr_size _ _ Hr). pose proof (repr_front _ _ Hr Hl).
  pose proof (repr_len _ _ Hr). unfold pos. destruct k as [|k].
  - rewrite Z.sub_0_r, Z.mod_small by lia. by rewrite Z.eqb_refl.
  - cbn [Nat.eqb]. apply Z.eqb_neq. pose proof (mod_shift_ne (front b) (Z.of_nat (S k)) 0 (BUFSIZE b)) as Hs.
    rewrite Z.sub_0_r, (Z.mod_small (front b)) in Hs by lia. apply Hs; lia.
Qed.

Lemma at_pos b l k v : repr b l -> l !! k = Some v -> getFloatAtIndex (pos b k) b = Ok (sample_float v).
Proof. intros Hr Hk. unfold getFloatAtIndex, pos. by rewrite (cell_repr _ _ _ _ Hr Hk). Qed.

(** The start of the window of [n'] samples. *)
Lemma window_start b l n : repr b l -> l <> [] -> 0 < n <= Z.of_nat (length l) ->
  i_rem (front b + BUFSIZE b - n + 1) (BUFSIZE b) = Ok (pos b (Z.to_nat n - 1)).
Proof.
  intros Hr Hl Hn. pose proof (repr_size _ _ Hr). pose proof (repr_front _ _ Hr Hl).
  pose proof (repr_len _ _ Hr). rewrite i_rem_mod by lia. f_equal. unfold pos.
  rewrite <- (Z_mod_plus_full (front b - Z.of_nat _) 1). f_equal. lia.
Qed.

Lemma take_S_lookup {A} (l : list A) k v : l !! k = Some v ->
  rev (take (S k) l) = v :: rev (take k l).
Proof. intros Hk. erewrite take_S_r by done. by rewrite rev_app_distr. Qed.

Lemma sum_to_front_repr b l fuel k acc : repr b l -> (k < length l)%nat -> (k <= fuel)%nat ->
  sum_to_front fuel (pos b k) acc b =
  Ok (fold_left (fun a v => fadd a (sample_float v)) (rev (take k (tail l))) acc).
Proof.
  intros Hr. revert fuel acc. induction k as [|k IH]; intros fuel acc Hk Hf.
  - assert (l <> []) by (intros ->; cbn in Hk; lia).
    destruct fuel; cbn; by rewrite (pos_front b l 0).
  - assert (l <> []) as Hl by (intros ->; cbn in Hk; lia).
    destruct fuel as [|fuel]; [lia |]. cbn [sum_to_front].
    rewrite (pos_front b l) by done. cbn [Nat.eqb].
    destruct (lookup_lt_is_Some_2 l (S k) Hk) as [v Hv].
    rewrite (at_pos b l _ _ Hr Hv). cbn [mbind res_bind].
    rewrite (pos_next b l k Hr Hl). cbn [mbind res_bind]. rewrite IH by lia.
    rewrite (take_S_lookup (tail l) k v); [done |]. by destruct l.
Qed.

Lemma sum_sq_repr b l fuel k avg acc : repr b l -> (S k < length l)%nat -> (k < fuel)%nat ->
  sum_sq fuel (pos b (S k)) avg acc b =
  Ok (fold_left (fun a v => fadd a (fmul (fsub (sample_float v) avg) (fsub (sample_float v) avg)))
        (rev (take (S k) (tail l))) acc).
Proof.
  intros Hr. revert fuel acc. induction k as [|k IH]; intros fuel acc Hk Hf;
    (destruct fuel as [|fuel]; [lia |]); cbn [sum_sq];
    (assert (l <> []) as Hl by (intros ->; cbn in Hk; lia));
    match goal with |- context [getFloatAtIndex (pos b ?j) b] =>
      destruct (lookup_lt_is_Some_2 l j Hk) as [v Hv] end;
    rewrite (at_pos b l _ _ Hr Hv); cbn [mbind res_bind];
    rewrite (pos_next b l _ Hr Hl); cbn [mbind res_bind]; rewrite (pos_front b l) by (done || lia);
    cbn [Nat.eqb]; [|rewrite IH by lia];
    match type of Hv with _ !! S ?j = _ => rewrite (take_S_lookup (tail l) j v) by (by destruct l) end;
    done.
Qed.

Lemma average_repr b l n : repr b l -> l <> [] -> 0 < n ->
  let w := take (Z.to_nat n) l in
  average n b = Ok (fdiv (fold_left (fun a v => fadd a (sample_float v)) (rev w) fzero)
                      (float_of_Z (Z.of_nat (length w)))).
Proof.
  intros Hr Hl Hn w. unfold average. rewrite (front_nonneg _ _ Hr Hl), (length_repr _ _ Hr).
  rewrite (proj2 (Z.eqb_neq n 0)) by lia. cbn [mbind res_bind].
  pose proof (repr_len _ _ Hr). pose proof (repr_size _ _ Hr).
  destruct l as [|x l]; [done |]. rewrite (proj2 (Z.leb_gt _ 0)) by (cbn [length]; lia).
  assert ((if Z.of_nat (length (x :: l)) <? n then Z.of_nat (length (x :: l)) else n)
    = Z.of_nat (length w)) as -> by (subst w; rewrite length_take; case_match; lia).
  assert (0 < Z.of_nat (length w) <= Z.of_nat (length (x :: l))) as Hw
    by (subst w; rewrite length_take; cbn [length]; lia).
  rewrite (window_start b (x :: l)) by done. cbn [mbind res_bind].
  rewrite (sum_to_front_repr b (x :: l)) by (done || lia). cbn [mbind res_bind tail].
  replace (front b) with (pos b 0) by (unfold pos; rewrite Z.sub_0_r, Z.mod_small;
    [done | by apply (repr_front _ _ Hr)]).
  rewrite (at_pos b (x :: l) 0 x) by done. cbn [mbind res_bind].
  rewrite Nat2Z.id. f_equal. f_equal.
  assert (w = x :: take (length w - 1) l) as Hwl.
  { subst w. destruct (Z.to_nat n) as [|m] eqn:E; [lia |]. cbn. f_equal.
    rewrite Nat.sub_0_r, length_take. destruct (Nat.le_ge_cases m (length l)).
    - by rewrite Nat.min_l by lia.
    - by rewrite Nat.min_r, !take_ge by lia. }
  rewrite Hwl at 2. cbn [rev]. by rewrite fold_left_app.
Qed.

Lemma stddev_repr b l n : repr b l -> 1 < n -> (1 < length l)%nat ->
  let w := take (Z.to_nat n) l in
  exists avg, average n b = Ok avg /\
  stddev n b = Ok (fsqrt (fdiv
    (fold_left (fun a v => fadd a (fmul (fsub (sample_float v) avg) (fsub (sample_float v) avg)))
       (rev (tail w)) fzero) (float_of_Z (Z.of_nat (length w) - 1)))).
Proof.
  intros Hr Hn Hl2 w. assert (l <> []) as Hl by (intros ->; cbn in Hl2; lia).
  pose proof (average_repr b l n Hr Hl ltac:(lia)) as Havg. eexists. split; [exact Havg |].
  unfold stddev. rewrite Havg. cbn [mbind res_bind].
  rewrite (front_nonneg _ _ Hr Hl), (length_repr _ _ Hr), (proj2 (Z.eqb_neq n 0)) by lia.
  cbn [mbind res_bind]. pose proof (repr_len _ _ Hr). pose proof (repr_size _ _ Hr).
  rewrite (proj2 (Z.leb_gt _ 1)) by lia.
  assert ((if Z.of_nat (length l) <? n then Z.of_nat (length l) else n)
    = Z.of_nat (length w)) as -> by (subst w; rewrite length_take; case_match; lia).
  assert (1 < Z.of_nat (length w) <= Z.of_nat (length l)) as Hw
    by (subst w; rewrite length_take; lia).
  rewrite (window_start b l) by (done || lia). cbn [mbind res_bind]. rewrite Nat2Z.id.
  replace (length w - 1)%nat with (S (length w - 2)) by lia.
  rewrite (sum_sq_repr b l) by (done || lia). cbn [mbind res_bind].
  replace (take (S (length w - 2)) (tail l)) with (tail w); [done |].
  subst w. destruct l as [|x l]; [done |]. destruct (Z.to_nat n) as [|m] eqn:E; [lia |].
  cbn [take tail length] in *. rewrite length_take in *. destruct (Nat.le_ge_cases m (length l)).
  - f_equal. lia.
  - rewrite !take_ge; [done | lia..].
Qed.
End Representation.

Lemma sum_recent_repr (b : FloatBuffer) l k i acc : repr b l -> (i + k <= length l)%nat ->
  sum_recent k (Z.of_nat i) acc b = Ok (fold_left fadd (take k (drop i l)) acc).
Proof.
  intros Hr. revert i acc. induction k as [|k IH]; intros i acc Hk; [by rewrite take_0 |].
  destruct (lookup_lt_is_Some_2 l i ltac:(lia)) as [v Hv]. cbn [sum_recent].
  rewrite (get_repr _ _ _ _ Hr Hv). cbn [mbind res_bind].
  replace (Z.of_nat i + 1) with (Z.of_nat (S i)) by lia. rewrite IH by lia.
  by rewrite (drop_S l v i Hv).
Qed.

Lemma movingAverage_repr (b : FloatBuffer) l n : repr b l -> 0 < n ->
  let w := take (Z.to_nat n) l in
  movingAverage n b = Ok (fdiv (fold_left fadd w fzero) (float_of_Z (Z.of_nat (length w)))).
Proof.
  intros Hr Hn w. unfold movingAverage. rewrite (length_repr _ _ Hr), (proj2 (Z.eqb_neq n 0)) by lia.
  cbn [mbind res_bind].
  assert ((if Z.of_nat (length l) <? n then Z.of_nat (length l) else n)
    = Z.of_nat (length w)) as -> by (subst w; rewrite length_take; case_match; lia).
  rewrite Nat2Z.id, (sum_recent_repr b l (length w) 0) by (done || (subst w; rewrite length_take; lia)).
  cbn [mbind res_bind drop]. do 3 f_equal. subst w. rewrite length_take, drop_0.
  destruct (Nat.le_ge_cases (Z.to_nat n) (length l)).
  - by rewrite Nat.min_l by lia.
  - by rewrite Nat.min_r, !take_ge by lia.
Qed.

(** ** Properties *)
Section Properties.
Context {V : Type} `{!Sample V}.
Variable size : Z.
Hypothesis size_ok : 0 < size < 2 ^ 30.

(** The samples a buffer of [size] cells should hold, newest first. *)
Definition recent (size : Z) (vs : list V) : list V := take (Z.to_nat size) (rev vs).

Lemma append_all_new (vs : list V) :
  exists b, append_all vs (Buffer_new size) = Ok b /\ repr b (recent size vs).
Proof.
  destruct (append_all_repr vs (Buffer_new size) [] (Buffer_new_repr _ size_ok)) as (b & Hb & Hr).
  exists b. split; [done |]. by rewrite app_nil_r in Hr.
Qed.

(** C40: a ring buffer of [size] cells never reads an unset cell and holds exactly
    the last [size] samples: after any sequence of appends the length is the
    number of samples kept, [get k] is the [k]-th most recent sample, and after
    [reset] the buffer is empty again. *)
Theorem ring_keeps_recent (vs : list V) :
  exists b, append_all vs (Buffer_new size) = Ok b /\
    length_ b = Ok (Z.min size (Z.of_nat (length vs))) /\
    (forall k v, recent size vs !! k = Some v -> get (Z.of_nat k) b = Ok v) /\
    length_ (reset b) = Ok 0.
Proof.
  destruct (append_all_new vs) as (b & Hb & Hr). exists b. split; [done |]. split.
  - rewrite (length_repr _ _ Hr). unfold recent. rewrite length_take, length_rev. f_equal. lia.
  - split; [|by apply (length_repr _ _ (reset_repr _ _ Hr))]. intros k v Hk. by eapply get_repr.
Qed.

(** [average (n)] is the mean of the [n] most recent samples (of all of them
    when there are fewer), summed from the oldest of the window to the newest. *)
Theorem average_is_window_mean (vs : list V) n : vs <> [] -> 0 < n ->
  let w := take (Z.to_nat n) (recent size vs) in
  exists b, append_all vs (Buffer_new size) = Ok b /\
    average n b = Ok (fdiv (fold_left (fun a v => fadd a (sample_float v)) (rev w) fzero)
                        (float_of_Z (Z.of_nat (length w)))).
Proof.
  intros Hvs Hn w. destruct (append_all_new vs) as (b & Hb & Hr). exists b. split; [done |].
  apply average_repr; [done | | done]. unfold recent.
  intros E%(f_equal length). rewrite length_take, length_rev in E. destruct vs; cbn in *; [done | lia].
Qed.

(** [stddev (n)] divides by the window length less one, but its loop stops
    before the newest sample: the sum of squares ranges over the window without
    it. *)
Theorem stddev_omits_newest (vs : list V) n : (1 < length vs)%nat -> 1 < size -> 1 < n ->
  let w := take (Z.to_nat n) (recent size vs) in
  exists b avg, append_all vs (Buffer_new size) = Ok b /\ average n b = Ok avg /\
    stddev n b = Ok (fsqrt (fdiv
      (fold_left (fun a v => fadd a (fmul (fsub (sample_float v) avg) (fsub (sample_float v) avg)))
         (rev (tail w)) fzero) (float_of_Z (Z.of_nat (length w) - 1)))).
Proof.
  intros Hvs Hs Hn w. destruct (append_all_new vs) as (b & Hb & Hr).
  destruct (stddev_repr b _ n Hr Hn) as (avg & Ha & Hd); [|by exists b, avg].
  unfold recent. rewrite length_take, length_rev. lia.
Qed.
End Properties.

(** [movingAverage (n)] of a float buffer is the mean of the [n] most recent
    samples (of all when there are fewer), summed from the newest to the oldest;
    of an empty buffer it is the quotient of zero by zero. *)
Theorem movingAverage_is_window_mean size (vs : list double) n : 0 < size < 2 ^ 30 -> 0 < n ->
  let w := take (Z.to_nat n) (recent size vs) in
  exists b, append_all vs (Buffer_new size) = Ok b /\
    movingAverage n b = Ok (fdiv (fold_left fadd w fzero) (float_of_Z (Z.of_nat (length w)))) /\
    (vs = [] -> movingAverage n b = Ok S754_nan).
Proof.
  intros Hs Hn w. destruct (append_all_new size Hs vs) as (b & Hb & Hr). exists b. split; [done |].
  pose proof (movingAverage_repr b _ n Hr Hn) as Hm. split; [exact Hm |].
  intros ->. rewrite Hm. unfold recent. cbn [rev]. by rewrite !take_nil.
Qed.

(** Witnesses. *)
Definition longs : list Z := [10; 20; 30; 40].
Lemma ring_keeps_recent_w : exists b, append_all longs (Buffer_new 3) = Ok b /\
  length_ b = Ok 3 /\ get 2 b = Ok 20.
Proof.
  destruct (ring_keeps_recent 3 ltac:(lia) longs) as (b & Hb & Hl & Hg & _).
  exists b. split; [done |]. split; [exact Hl |]. by apply (Hg 2%nat).
Defined.

Lemma average_is_window_mean_w : exists b, append_all longs (Buffer_new 3) = Ok b /\
  average 2 b = Ok (float_of_Z 35).
Proof.
  destruct (average_is_window_mean 3 ltac:(lia) longs 2 ltac:(done) ltac:(lia)) as (b & Hb & Ha).
  exists b. split; [done |]. rewrite Ha. vm_compute. reflexivity.
Defined.

Lemma stddev_omits_newest_w : exists b, append_all [1; 1; 4] (Buffer_new 3) = Ok b /\
  stddev 3 b = Ok (float_of_Z 1).
Proof.
  destruct (stddev_omits_newest 3 ltac:(lia) [1; 1; 4] 3 ltac:(cbn; lia) ltac:(lia) ltac:(lia))
    as (b & avg & Hb & Ha & Hd).
  exists b. split; [done |]. rewrite Hd.
  assert (avg = float_of_Z 2) as ->; [|vm_compute; reflexivity].
  vm_compute in Hb. injection Hb as <-. vm_compute in Ha. by injection Ha.
Defined.

Lemma movingAverage_is_window_mean_w : exists b, append_all [] (Buffer_new 3) = Ok b /\
  movingAverage 4 b = Ok S754_nan.
Proof.
  destruct (movingAverage_is_window_mean 3 [] 4 ltac:(lia) ltac:(lia)) as (b & Hb & _ & Hm).
  exists b. split; [done |]. by apply Hm.
Defined.
