(* ===== verification/Message.v ===== *)
(** Messages, packages and mail queues (Message.h, Message.cpp, Receiver.h). *)
From S2P Require Import Prelude Cnum Tokeniser Value SymbolTable.
Open Scope Z_scope.

(** Objects are referred to by address: machines, actions, triggers and the other
    transmitters and receivers. *)
Definition ptr : Set := positive.

Inductive MessageType := SIMPLEMSG | ENTERMSG | LEAVEMSG | ENABLEMSG | DISABLEMSG.
#[export] Instance MessageType_eq_dec : EqDecision MessageType.
Proof. solve_decision. Defined.

(** [params] is null or an owned list. *)
Record Message := mkMessage {
  m_kind : MessageType;
  seq : Z;
  text : string;
  params : option (list Value)
}.
#[export] Instance Message_eq_dec : EqDecision Message.
Proof. solve_decision. Defined.

(** The static counter [Message::sequence] is an [unsigned long]. *)
Definition Message_new (msg : string) (t : MessageType) (ps : option (list Value)) (sequence : Z)
    : Message * Z :=
  let s := u64 (sequence + 1) in (mkMessage t s msg ps, s).
Definition Message_copy (orig : Message) : Message :=
  mkMessage (m_kind orig) (seq orig) (text orig) (params orig).

Definition message_eq (a b : Message) : bool := bool_decide (text a = text b).
Definition message_eq_text (a : Message) (msg : option string) : bool :=
  match msg with None => false | Some m => bool_decide (text a = m) end.
(** The order of the keys of [receives_functions]. *)
Definition message_lt (a b : Message) : bool :=
  match String.compare (text a) (text b) with Lt => true | _ => false end.
Definition isSimple (m : Message) : bool := bool_decide (m_kind m = SIMPLEMSG).
Definition isEnable (m : Message) : bool := bool_decide (m_kind m = ENABLEMSG).

Section Params.
Context `{DynEnv}.
(** [makeParams]: the list stops at the first parameter that equals [Null]. *)
Definition makeParams (p1 p2 p3 p4 : Value) : res (list Value) :=
  d2 ← value_ne p2 Null;
  if negb d2 then Ok [p1] else
  d3 ← value_ne p3 Null;
  if negb d3 then Ok [p1; p2] else
  d4 ← value_ne p4 Null;
  Ok (if d4 : bool then [p1; p2; p3; p4] else [p1; p2; p3]).
End Params.

(** A package: the receiver may be null (a broadcast). *)
Record Package := mkPackage {
  transmitter : option ptr;
  receiver : option ptr;
  message : Message;
  needs_receipt : bool
}.
#[export] Instance Package_eq_dec : EqDecision Package.
Proof. solve_decision. Defined.
Definition Package_copy (other : Package) : Package :=
  mkPackage (transmitter other) (receiver other) (Message_copy (message other)) (needs_receipt other).
Definition Package_assign (dst other : Package) : Package := Package_copy other.

(** [Receiver::hasPending]. *)
Fixpoint hasPending (msg : Message) (mail_queue : list Package) : bool :=
  match mail_queue with
  | [] => false
  | p :: rest => if message_eq (message p) msg then true else hasPending msg rest
  end.

(** ** Lemmas *)
Lemma Package_copy_id p : Package_copy p = p.
Proof. by destruct p as [t r [k s x ps] n]. Qed.
#[export] Hint Rewrite Package_copy_id : cw.

Lemma hasPending_spec msg q :
  hasPending msg q = true <-> exists p, p ∈ q /\ text (message p) = text msg.
Proof.
  induction q as [|p q IH]; cbn.
  { split; [done |]. intros (p & Hp & _). by apply elem_of_nil in Hp. }
  unfold message_eq. case_bool_decide as E.
  - split; [|done]. intros _. exists p. split; [left | done].
  - rewrite IH. split; intros (p' & Hp & Ht).
    + exists p'. split; [by right | done].
    + apply elem_of_cons in Hp as [-> | Hp]; [done | by exists p'].
Qed.
