(* ===== verification/Machine.v ===== *)
(** Triggers, actions and the action stack of a machine (Action.h, Action.cpp,
    MachineInstance.cpp): reference counts, the status of an action, the stack it
    is executed from, and the sets that queue a machine for processing.

    Objects live on a heap; using an object that was deleted is [Undef]. The
    methods the subclasses of [Action] override are an interface, [Virtuals]. The
    interpreter's trace mode ([tracing ()]) is off. *)
From S2P Require Import Prelude Cnum Tokeniser Value SymbolTable Message.
Open Scope Z_scope.

(** ** Data *)
Inductive Status := New | Running | Complete | Failed | Suspended | NeedsRetry.
#[export] Instance Status_eq_dec : EqDecision Status.
Proof. solve_decision. Defined.

(** The subclass of [TriggerOwner] a trigger reports to; a stable state may have
    no owner. *)
Inductive TriggerOwner := OwnAction (a : ptr) | OwnMachine (m : ptr) | OwnStable (m : option ptr).

Record Trigger := mkTrigger {
  t_name : string;
  seen : bool;
  t_owner : option TriggerOwner;
  t_refs : Z;
  is_active : bool;
  holders : list ptr
}.

(** The subclass of an action, as far as it is modelled, with its fields: the
    steps of a [MachineCommand] (MachineCommandAction.h) with the state it
    requires, and the actions of Control.v. A condition is known by a number. *)
Record Command := mkCommand {
  steps : list ptr;
  last_step : nat;
  current_step : nat;
  within : string;
  switch_state : bool
}.
Inductive Body :=
| BHandleMessage (package : Package)
| BAbort (abort_fail : bool) (msg : string)
| BWait (wait_time : Z) (property_name : string) (use_property : bool)
| BSetState (target new_state : string)
| BFireTrigger (pending_trigger : option ptr)
| BLock (machine_name : string) (found : option ptr)
| BUnlock (machine_name : string) (found : option ptr)
| BIf (condition : nat) (command : ptr)
| BIfElse (condition : nat) (command else_command : ptr)
| BCommand (c : Command)
| BOther (n : nat).

Record Action := mkAction {
  a_refs : Z;
  a_owner : ptr;
  error_str : string;
  status : Status;
  saved_status : Status;
  blocked : option ptr;
  trigger : option ptr;
  started_ : bool;
  aborted_ : bool;
  timeout_msg : option string;
  error_msg : option string;
  body : Body
}.

Record MachineClass := mkClass {
  sm_token : Z;
  allow_auto_states : bool
}.
Record Machine := mkMachine {
  m_name : string;
  is_enabled : bool;
  machine_active : bool;
  error_state : Z;
  state_machine : option MachineClass;
  needs_check : Z;
  active_actions : list ptr;
  mail_queue : list Package;
  has_work : bool;
  next_poll : Z;
  depends : list ptr;
  action_errors : Z;
  locked : option ptr
}.

(** What the modelled code asks of the channels, of the message log and of the
    scheduler. *)
Inductive Effect :=
| SendPropertyChanges (m : ptr)
| LogError (m : ptr)
| Schedule (delay : Z) (t : ptr)
| ScheduleAction (delay : Z) (a : ptr).

Record World := mkWorld {
  triggers : gmap ptr Trigger;
  actions : gmap ptr Action;
  machines : gmap ptr Machine;
  runnable : gset ptr;
  busy_machines : gset ptr;
  pending_state_change : gset ptr;
  num_machines_with_work : Z;
  total_machines_needing_check : Z;
  effects : list Effect
}.

(** Field updates. *)
Definition set_status x a := mkAction (a_refs a) (a_owner a) (error_str a) x (saved_status a)
  (blocked a) (trigger a) (started_ a) (aborted_ a) (timeout_msg a) (error_msg a) (body a).
Definition set_saved x a := mkAction (a_refs a) (a_owner a) (error_str a) (status a) x
  (blocked a) (trigger a) (started_ a) (aborted_ a) (timeout_msg a) (error_msg a) (body a).
Definition set_arefs x a := mkAction x (a_owner a) (error_str a) (status a) (saved_status a)
  (blocked a) (trigger a) (started_ a) (aborted_ a) (timeout_msg a) (error_msg a) (body a).
Definition set_blocked x a := mkAction (a_refs a) (a_owner a) (error_str a) (status a) (saved_status a)
  x (trigger a) (started_ a) (aborted_ a) (timeout_msg a) (error_msg a) (body a).
Definition set_atrigger x a := mkAction (a_refs a) (a_owner a) (error_str a) (status a) (saved_status a)
  (blocked a) x (started_ a) (aborted_ a) (timeout_msg a) (error_msg a) (body a).
Definition set_started x a := mkAction (a_refs a) (a_owner a) (error_str a) (status a) (saved_status a)
  (blocked a) (trigger a) x (aborted_ a) (timeout_msg a) (error_msg a) (body a).
Definition set_error x a := mkAction (a_refs a) (a_owner a) x (status a) (saved_status a)
  (blocked a) (trigger a) (started_ a) (aborted_ a) (timeout_msg a) (error_msg a) (body a).
Definition set_aborted x a := mkAction (a_refs a) (a_owner a) (error_str a) (status a) (saved_status a)
  (blocked a) (trigger a) (started_ a) x (timeout_msg a) (error_msg a) (body a).
Definition set_body x a := mkAction (a_refs a) (a_owner a) (error_str a) (status a) (saved_status a)
  (blocked a) (trigger a) (started_ a) (aborted_ a) (timeout_msg a) (error_msg a) x.

Definition set_seen x t := mkTrigger (t_name t) x (t_owner t) (t_refs t) (is_active t) (holders t).
Definition set_towner x t := mkTrigger (t_name t) (seen t) x (t_refs t) (is_active t) (holders t).
Definition set_trefs x t := mkTrigger (t_name t) (seen t) (t_owner t) x (is_active t) (holders t).
Definition set_active x t := mkTrigger (t_name t) (seen t) (t_owner t) (t_refs t) x (holders t).
Definition set_holders x t := mkTrigger (t_name t) (seen t) (t_owner t) (t_refs t) (is_active t) x.

Definition set_needs x m := mkMachine (m_name m) (is_enabled m) (machine_active m) (error_state m)
  (state_machine m) x (active_actions m) (mail_queue m) (has_work m) (next_poll m) (depends m) (action_errors m) (locked m).
Definition set_stack x m := mkMachine (m_name m) (is_enabled m) (machine_active m) (error_state m)
  (state_machine m) (needs_check m) x (mail_queue m) (has_work m) (next_poll m) (depends m) (action_errors m) (locked m).
Definition set_mail x m := mkMachine (m_name m) (is_enabled m) (machine_active m) (error_state m)
  (state_machine m) (needs_check m) (active_actions m) x (has_work m) (next_poll m) (depends m) (action_errors m) (locked m).
Definition set_work x m := mkMachine (m_name m) (is_enabled m) (machine_active m) (error_state m)
  (state_machine m) (needs_check m) (active_actions m) (mail_queue m) x (next_poll m) (depends m) (action_errors m) (locked m).
Definition set_poll x m := mkMachine (m_name m) (is_enabled m) (machine_active m) (error_state m)
  (state_machine m) (needs_check m) (active_actions m) (mail_queue m) (has_work m) x (depends m) (action_errors m) (locked m).
Definition set_errors x m := mkMachine (m_name m) (is_enabled m) (machine_active m) (error_state m)
  (state_machine m) (needs_check m) (active_actions m) (mail_queue m) (has_work m) (next_poll m) (depends m) x (locked m).
Definition set_locked x m := mkMachine (m_name m) (is_enabled m) (machine_active m) (error_state m)
  (state_machine m) (needs_check m) (active_actions m) (mail_queue m) (has_work m) (next_poll m) (depends m) (action_errors m) x.

Definition with_triggers x w := mkWorld x (actions w) (machines w) (runnable w) (busy_machines w)
  (pending_state_change w) (num_machines_with_work w) (total_machines_needing_check w) (effects w).
Definition with_actions x w := mkWorld (triggers w) x (machines w) (runnable w) (busy_machines w)
  (pending_state_change w) (num_machines_with_work w) (total_machines_needing_check w) (effects w).
Definition with_machines x w := mkWorld (triggers w) (actions w) x (runnable w) (busy_machines w)
  (pending_state_change w) (num_machines_with_work w) (total_machines_needing_check w) (effects w).
Definition with_runnable x w := mkWorld (triggers w) (actions w) (machines w) x (busy_machines w)
  (pending_state_change w) (num_machines_with_work w) (total_machines_needing_check w) (effects w).
Definition with_busy x w := mkWorld (triggers w) (actions w) (machines w) (runnable w) x
  (pending_state_change w) (num_machines_with_work w) (total_machines_needing_check w) (effects w).
Definition with_pending x w := mkWorld (triggers w) (actions w) (machines w) (runnable w) (busy_machines w)
  x (num_machines_with_work w) (total_machines_needing_check w) (effects w).
Definition with_work x w := mkWorld (triggers w) (actions w) (machines w) (runnable w) (busy_machines w)
  (pending_state_change w) x (total_machines_needing_check w) (effects w).
Definition with_checks x w := mkWorld (triggers w) (actions w) (machines w) (runnable w) (busy_machines w)
  (pending_state_change w) (num_machines_with_work w) x (effects w).
Definition with_effects x w := mkWorld (triggers w) (actions w) (machines w) (runnable w) (busy_machines w)
  (pending_state_change w) (num_machines_with_work w) (total_machines_needing_check w) x.

Abbreviation M := (SM World).
Local Open Scope sm_scope.

(** ** The heap *)
Definition modify (f : World -> World) : M unit := fun w => Ok (tt, f w).
Definition get_trigger (t : ptr) : M Trigger := fun w =>
  match triggers w !! t with Some x => Ok (x, w) | None => Undef end.
Definition get_action (a : ptr) : M Action := fun w =>
  match actions w !! a with Some x => Ok (x, w) | None => Undef end.
Definition get_machine (m : ptr) : M Machine := fun w =>
  match machines w !! m with Some x => Ok (x, w) | None => Undef end.
Definition upd_trigger (t : ptr) (f : Trigger -> Trigger) : M unit :=
  let! x := get_trigger t in modify (fun w => with_triggers (<[t := f x]> (triggers w)) w).
Definition upd_action (a : ptr) (f : Action -> Action) : M unit :=
  let! x := get_action a in modify (fun w => with_actions (<[a := f x]> (actions w)) w).
Definition upd_machine (m : ptr) (f : Machine -> Machine) : M unit :=
  let! x := get_machine m in modify (fun w => with_machines (<[m := f x]> (machines w)) w).
Definition alloc_action (x : Action) : M ptr := fun w =>
  let p := fresh (dom (actions w)) in Ok (p, with_actions (<[p := x]> (actions w)) w).
Definition alloc_trigger (x : Trigger) : M ptr := fun w =>
  let p := fresh (dom (triggers w)) in Ok (p, with_triggers (<[p := x]> (triggers w)) w).
Definition emit (e : Effect) : M unit := modify (fun w => with_effects (effects w ++ [e]) w).

(** [ProcessingThread::activate], [suspend], [is_pending]; [SharedWorkSet]. *)
Definition activate (m : ptr) : M unit := modify (fun w => with_runnable ({[m]} ∪ runnable w) w).
Definition suspend_machine (m : ptr) : M unit := modify (fun w => with_runnable (runnable w ∖ {[m]}) w).
Definition is_pending (m : ptr) (w : World) : bool := bool_decide (m ∈ runnable w).
Definition workset_add (m : ptr) : M unit := modify (fun w => with_busy ({[m]} ∪ busy_machines w) w).
Definition workset_remove (m : ptr) : M unit := modify (fun w => with_busy (busy_machines w ∖ {[m]}) w).
Definition pending_insert (m : ptr) : M unit :=
  modify (fun w => with_pending ({[m]} ∪ pending_state_change w) w).

(** [num_machines_with_work++] and [++total_machines_needing_check]: [unsigned]. *)
Definition count_work : M unit := modify (fun w => with_work (u32 (num_machines_with_work w + 1)) w).
Definition count_check : M unit :=
  modify (fun w => with_checks (u32 (total_machines_needing_check w + 1)) w).

(** ** Operations *)
Section Operations.
Variable tk : ClockworkToken.

(** [MachineInstance::executingCommand]: actions execute from the back. *)
Definition executing (m : Machine) : option ptr := list.last (active_actions m).
Definition executingCommand (m : ptr) : M (option ptr) :=
  let! x := get_machine m in sret (executing x).

(** The loop over the dependents of a list or a reference. *)
Fixpoint check_dependents (check : ptr -> M unit) (l : list ptr) : M unit :=
  match l with
  | [] => sret tt
  | d :: l' =>
      let! x := get_machine d in
      run! (if is_enabled x && (needs_check x <? 2) then check d else sret tt) in
      check_dependents check l'
  end.

(** [setNeedsCheck], with a bound on the depth of its recursion. *)
Fixpoint setNeedsCheck_n (depth : nat) (m : ptr) : M unit :=
  match depth with
  | O => fun _ => Undef
  | S depth' =>
      let! x := get_machine m in
      match state_machine x with
      | None => sret tt
      | Some sm =>
          if negb (is_enabled x) then sret tt else
          run! (if needs_check x =? 0 then count_check else sret tt) in
          let? n := int_of (needs_check x + 1) in
          run! upd_machine m (set_needs n) in
          run! (if negb (bool_decide (active_actions x = [])) || negb (bool_decide (mail_queue x = []))
                then workset_add m
                else if allow_auto_states sm then pending_insert m
                else workset_add m) in
          run! activate m in
          run! upd_machine m (set_poll 0) in
          if (sm_token sm =? tokLIST tk) || (sm_token sm =? tokREFERENCE tk)
          then check_dependents (setNeedsCheck_n depth') (depends x)
          else sret tt
      end
  end.
(** Two visits to every machine are enough. *)
Definition check_depth (w : World) : nat := S (2 * size (machines w)).
Definition setNeedsCheck (m : ptr) : M unit := fun w => setNeedsCheck_n (check_depth w) m w.

(** *** Triggers *)
Definition Trigger_new (own : option TriggerOwner) (n : string) : M ptr :=
  alloc_trigger (mkTrigger n false own 1 true []).
Definition trigger_retain (t : ptr) : M unit := upd_trigger t (fun x => set_trefs (t_refs x + 1) x).
Definition trigger_release (t : ptr) : M unit :=
  let! x := get_trigger t in
  let? _u := assert (0 <? t_refs x) in
  run! upd_trigger t (set_trefs (t_refs x - 1)) in
  if t_refs x - 1 =? 0 then modify (fun w => with_triggers (delete t (triggers w)) w) else sret tt.
Definition addHolder (t a : ptr) : M unit := upd_trigger t (fun x => set_holders (holders x ++ [a]) x).
Definition removeHolder (t a : ptr) : M unit :=
  upd_trigger t (fun x => set_holders (filter (fun h => h <> a) (holders x)) x).
Definition matches (event : string) (x : Trigger) : bool :=
  is_active x && bool_decide (event = t_name x).
Definition disable (t : ptr) : M unit := upd_trigger t (set_active false).

(** [triggerFired] of the owner; that of an action does nothing. *)
Definition triggerFired (own : TriggerOwner) (t : ptr) : M unit :=
  match own with
  | OwnAction _ => sret tt
  | OwnMachine m =>
      let! x := get_trigger t in
      run! (if matches "publish" x then emit (SendPropertyChanges m) else sret tt) in
      setNeedsCheck m
  | OwnStable (Some m) => setNeedsCheck m
  | OwnStable None => sret tt
  end.
Definition fire (t : ptr) : M unit :=
  let! x := get_trigger t in
  if seen x then sret tt else
  run! upd_trigger t (set_seen true) in
  match t_owner x with Some own => triggerFired own t | None => sret tt end.

(** *** Actions *)
Definition Action_new (m : ptr) (t : option ptr) (b : Body) : M ptr :=
  alloc_action (mkAction 1 m "" New Running None t false false None None b).
Definition retain (a : ptr) : M unit := upd_action a (fun x => set_arefs (a_refs x + 1) x).

Definition cleanupTrigger (a : ptr) : M unit :=
  let! x := get_action a in
  match trigger x with
  | None => sret tt
  | Some t =>
      run! removeHolder t a in run! trigger_release t in upd_action a (set_atrigger None)
  end.
Definition setTrigger (t : option ptr) (a : ptr) : M unit :=
  let! x := get_action a in
  if bool_decide (trigger x = t) then sret tt else
  run! cleanupTrigger a in
  match t with
  | None => sret tt
  | Some t' =>
      run! addHolder t' a in
      run! upd_trigger t' (set_towner (Some (OwnAction a))) in
      upd_action a (set_atrigger (Some t'))
  end.
Definition disableTrigger (a : ptr) : M unit :=
  let! x := get_action a in
  match trigger x with Some t => disable t | None => sret tt end.
Definition action_start (a : ptr) : M unit :=
  let! x := get_action a in
  let? _u := assert (negb (started_ x)) in upd_action a (set_started true).
Definition action_stop (a : ptr) : M unit := upd_action a (set_started false).
Definition abort_action (a : ptr) : M unit := upd_action a (set_aborted true).
Definition setBlocker (b : option ptr) (a : ptr) : M unit := upd_action a (set_blocked b).
Definition reset (a : ptr) : M unit :=
  run! upd_action a (fun x => set_started false (set_blocked None (set_saved Running
         (set_error "" (set_status New x))))) in
  cleanupTrigger a.
(** [reset] is virtual: [MachineCommand::reset] only changes the status. *)
Definition reset_virtual (a : ptr) : M unit :=
  let! x := get_action a in
  match body x with
  | BCommand _ => upd_action a (set_status New)
  | _ => reset a
  end.
Definition suspend (a : ptr) : M unit :=
  upd_action a (fun x => match status x with
                         | Suspended => x
                         | st => set_status Suspended (set_saved st x)
                         end).
Definition resume (a : ptr) : M unit :=
  run! upd_action a (fun x => set_status (match saved_status x with Suspended => Running | st => st end) x) in
  let! x := get_action a in setNeedsCheck (a_owner x).

(** The methods the subclasses override: [run], [checkComplete] and the
    destructor, which runs before that of [Action]. *)
Class Virtuals := {
  run : ptr -> M Status;
  checkComplete : ptr -> M Status;
  destructor : ptr -> M unit
}.
Context `{!Virtuals}.

(** [release] deletes the action with its last reference. *)
Definition release (a : ptr) : M unit :=
  let! x := get_action a in
  run! upd_action a (set_arefs (a_refs x - 1)) in
  if a_refs x - 1 =? 0 then
    run! cleanupTrigger a in
    run! destructor a in
    run! cleanupTrigger a in
    modify (fun w => with_actions (delete a (actions w)) w)
  else sret tt.

Definition is_final (s : Status) : bool := match s with Complete | Failed => true | _ => false end.
Definition poll_status (a : ptr) : M unit :=
  let! x := get_action a in
  match status x with
  | Running | Suspended => let! s := checkComplete a in upd_action a (set_status s)
  | _ => sret tt
  end.
Definition complete (a : ptr) : M bool :=
  run! poll_status a in let! x := get_action a in sret (is_final (status x)).
Definition running (a : ptr) : M bool :=
  let! x := get_action a in
  run! (match status x with New => let! s := run a in upd_action a (set_status s) | _ => sret tt end) in
  run! poll_status a in
  let! y := get_action a in sret (match status y with Running | New => true | _ => false end).

(** *** The action stack of a machine *)
Definition enqueueAction (a m : ptr) : M unit :=
  run! upd_machine m (fun x => set_stack (a :: active_actions x) x) in
  run! count_work in
  run! upd_machine m (set_work true) in
  run! workset_add m in activate m.

(** [Action::operator()]. The exception message goes through a [Value], which
    drops the texts [TRUE], [FALSE] and [NULL]. *)
Definition value_text (s : string) : string :=
  if bool_decide (s = "TRUE") || bool_decide (s = "FALSE") || bool_decide (s = "NULL") then "" else s.
Definition start_action (a : ptr) : M Status :=
  run! reset_virtual a in
  run! upd_action a (set_status Running) in
  let! s := run a in
  run! upd_action a (set_status s) in
  let! x := get_action a in
  run! (match s with
        | Failed =>
            match error_msg x, timeout_msg x with
            | Some msg, _ | None, Some msg =>
                let! aa := Action_new (a_owner x) None (BAbort true (value_text msg)) in
                enqueueAction aa (a_owner x)
            | None, None => sret tt
            end
        | _ => sret tt
        end) in
  sret s.

Definition start (a m : ptr) : M unit :=
  let! x := get_action a in
  if started_ x then sret tt else
  run! action_start a in
  let! curr := executingCommand m in
  if negb (bool_decide (curr = Some a)) then
    run! retain a in
    run! upd_machine m (fun y => set_stack (active_actions y ++ [a]) y) in
    activate m
  else setNeedsCheck m.

(** The loop of [stop]: every entry for the action is erased and released. The
    position is an index into the list. *)
Fixpoint erase_all (fuel : nat) (i : nat) (a m : ptr) : M unit :=
  match fuel with
  | O => sret tt
  | S fuel' =>
      let! x := get_machine m in
      match active_actions x !! i with
      | None => sret tt
      | Some q =>
          if bool_decide (q = a) then
            run! upd_machine m (fun y => set_stack (delete i (active_actions y)) y) in
            run! release a in
            erase_all fuel' i a m
          else erase_all fuel' (S i) a m
      end
  end.
(** Unblock and resume the action that is now on top. *)
Definition resume_top (m : ptr) : M unit :=
  let! top := executingCommand m in
  match top with
  | None => sret tt
  | Some n =>
      run! setBlocker None n in
      let! y := get_action n in
      match status y with Suspended => resume n | _ => sret tt end
  end.
Definition stop (a m : ptr) : M unit :=
  run! setTrigger None a in
  run! action_stop a in
  let! x := get_machine m in
  run! erase_all (length (active_actions x)) 0 a m in
  run! resume_top m in
  setNeedsCheck m.

Definition push (new_action m : ptr) : M unit :=
  let! top := executingCommand m in
  run! (match top with
        | None => sret tt
        | Some b => run! suspend b in setBlocker (Some new_action) b
        end) in
  run! upd_machine m (fun x => set_stack (active_actions x ++ [new_action]) x) in
  run! action_start new_action in
  run! count_work in
  run! upd_machine m (set_work true) in
  run! workset_add m in activate m.

(** [recover]: remove an action that has completed. *)
Definition recover (a : ptr) : M unit :=
  let! x := get_action a in
  let? _u := assert (is_final (status x)) in stop a (a_owner x).

(** Dropping one action of the stack in [clearAllActions]. *)
Definition clear_action (a : ptr) : M unit :=
  let! x := get_action a in
  run! (match trigger x with
        | Some t => let! y := get_trigger t in
            if is_active y && negb (seen y) then disableTrigger a else sret tt
        | None => sret tt
        end) in
  release a.
Fixpoint clear_actions (fuel : nat) (m : ptr) : M unit :=
  let! x := get_machine m in
  match active_actions x with
  | [] => sret tt
  | a :: rest =>
      match fuel with
      | O => fun _ => Undef
      | S fuel' =>
          run! upd_machine m (set_stack rest) in
          run! clear_action a in
          clear_actions fuel' m
      end
  end.
Definition clearAllActions (m : ptr) : M unit :=
  let! x := get_machine m in
  run! clear_actions (length (active_actions x)) m in
  upd_machine m (fun y => set_work false (set_mail [] y)).

(** *** Messages *)
Definition handle (msg : Message) (from : option ptr) (send_receipt : bool) (m : ptr) : M unit :=
  let! x := get_machine m in
  if negb (is_enabled x) then sret tt else
  let! hma := Action_new m None (BHandleMessage (mkPackage from (Some m) msg send_receipt)) in
  run! enqueueAction hma m in
  run! workset_add m in activate m.

(** [MachineInstance::enqueue]. *)
Definition enqueue (p : Package) (m : ptr) : M unit :=
  run! upd_machine m (fun x => set_work true (set_mail (mail_queue x ++ [p]) x)) in
  setNeedsCheck m.

(** The loop of [idle] that hands out the mail. *)
Fixpoint read_mail (fuel : nat) (m : ptr) : M unit :=
  let! x := get_machine m in
  match mail_queue x with
  | [] => sret tt
  | p :: rest =>
      match fuel with
      | O => fun _ => Undef
      | S fuel' =>
          run! upd_machine m (set_mail rest) in
          run! handle (message p) (transmitter p) (needs_receipt p) m in
          read_mail fuel' m
      end
  end.

(** *** [idle] *)

(** How one turn of the action loop ends: go on with the next action, or return
    from [idle] because the action is still waiting. *)
Inductive Turn := NextAction | Waiting.

(** The action is not finished: does the machine still have work? *)
Definition waiting_action (curr m : ptr) : M unit :=
  let! x := get_action curr in
  run! (match body x with
        | BWait _ _ _ =>
            let! top := executingCommand m in
            let? e := rd top in
            let! y := get_action e in
            let? t := rd (trigger y) in
            let! z := get_trigger t in
            upd_machine m (set_work (seen z))
        | _ => upd_machine m (set_work true)
        end) in
  release curr.

(** The action has finished: make sure it left the stack. *)
Definition finished_action (last m : ptr) : M unit :=
  let! x := get_action last in
  run! (match status x with
        | Failed => upd_machine m (fun y => set_errors (u32 (action_errors y + 1)) y)
        | _ => sret tt
        end) in
  let! curr := executingCommand m in
  if bool_decide (curr = Some last) then
    run! stop last m in
    run! release last in
    let! curr' := executingCommand m in
    slift (assert (negb (bool_decide (curr' = Some last))))
  else release last.

Definition idle_turn (curr m : ptr) : M Turn :=
  run! retain curr in
  let! x := get_action curr in
  match status x with
  | New | NeedsRetry =>
      let! r := start_action curr in
      match r with
      | Failed =>
          run! emit (LogError m) in
          run! upd_machine m (set_work true) in
          run! finished_action curr m in sret NextAction
      | Complete => run! finished_action curr m in sret NextAction
      | _ => run! release curr in sret Waiting
      end
  | _ =>
      let! done := complete curr in
      if done : bool then run! finished_action curr m in sret NextAction
      else run! waiting_action curr m in sret Waiting
  end.

(** [None]: the bound was reached with an action still to run. *)
Fixpoint idle_loop (fuel : nat) (m : ptr) : M (option Turn) :=
  let! top := executingCommand m in
  match top with
  | None => sret (Some NextAction)
  | Some curr =>
      match fuel with
      | O => sret None
      | S fuel' =>
          let! t := idle_turn curr m in
          match t with Waiting => sret (Some Waiting) | NextAction => idle_loop fuel' m end
      end
  end.

Definition idle (fuel : nat) (m : ptr) : M (option Turn) :=
  run! suspend_machine m in
  let! x := get_machine m in
  if negb (error_state x =? 0) || negb (is_enabled x)
     || (negb (machine_active x) && bool_decide (executing x = None))
     || match state_machine x with None => true | _ => false end
  then sret (Some Waiting) else
  let! t := idle_loop fuel m in
  match t with
  | Some NextAction =>
      let! y := get_machine m in
      run! read_mail (length (mail_queue y)) m in
      let! z := get_machine m in
      run! (if bool_decide (mail_queue z = []) && bool_decide (active_actions z = [])
            then upd_machine m (set_work false) else sret tt) in
      let! z' := get_machine m in
      run! (if has_work z' then activate m else sret tt) in
      sret (Some NextAction)
  | r => sret r
  end.
End Operations.
