(* ===== verification/MachineProps.v ===== *)
(** Properties of the action stack: queueing a machine for a check terminates,
    the stack discipline of [push] and [stop], reference counts, the delivery of
    mail, and the life of a trigger. *)
From S2P Require Import Prelude Cnum Tokeniser Value SymbolTable Message Machine.
Open Scope Z_scope.
Local Open Scope sm_scope.

(** ** Running the heap operations *)
Lemma get_machine_run m x w : machines w !! m = Some x -> get_machine m w = Ok (x, w).
Proof. intros E. unfold get_machine. by rewrite E. Qed.
Lemma get_action_run a x w : actions w !! a = Some x -> get_action a w = Ok (x, w).
Proof. intros E. unfold get_action. by rewrite E. Qed.
Lemma get_trigger_run t x w : triggers w !! t = Some x -> get_trigger t w = Ok (x, w).
Proof. intros E. unfold get_trigger. by rewrite E. Qed.
Lemma upd_machine_run m f x w : machines w !! m = Some x ->
  upd_machine m f w = Ok (tt, with_machines (<[m := f x]> (machines w)) w).
Proof. intros E. unfold upd_machine. by rewrite (sbind_run _ _ _ _ _ (get_machine_run _ _ _ E)). Qed.
Lemma upd_action_run a f x w : actions w !! a = Some x ->
  upd_action a f w = Ok (tt, with_actions (<[a := f x]> (actions w)) w).
Proof. intros E. unfold upd_action. by rewrite (sbind_run _ _ _ _ _ (get_action_run _ _ _ E)). Qed.
Lemma upd_trigger_run t f x w : triggers w !! t = Some x ->
  upd_trigger t f w = Ok (tt, with_triggers (<[t := f x]> (triggers w)) w).
Proof. intros E. unfold upd_trigger. by rewrite (sbind_run _ _ _ _ _ (get_trigger_run _ _ _ E)). Qed.

(** Run the next step of a computation whose objects are known to exist. *)
Ltac look := first [eassumption | by rewrite lookup_insert_eq | by simplify_map_eq
                   | cbn; by simplify_map_eq].
Ltac heap_step :=
  lazymatch goal with
  | |- context [sbind (get_machine ?m) ?f ?w] =>
      erewrite (sbind_run (get_machine m) f w) by (apply get_machine_run; look); cbv beta
  | |- context [sbind (get_action ?m) ?f ?w] =>
      erewrite (sbind_run (get_action m) f w) by (apply get_action_run; look); cbv beta
  | |- context [sbind (get_trigger ?m) ?f ?w] =>
      erewrite (sbind_run (get_trigger m) f w) by (apply get_trigger_run; look); cbv beta
  | |- context [sbind (upd_machine ?m ?g) ?f ?w] =>
      erewrite (sbind_run (upd_machine m g) f w) by (apply upd_machine_run; look); cbv beta
  | |- context [sbind (upd_action ?m ?g) ?f ?w] =>
      erewrite (sbind_run (upd_action m g) f w) by (apply upd_action_run; look); cbv beta
  | |- context [sbind (upd_trigger ?m ?g) ?f ?w] =>
      erewrite (sbind_run (upd_trigger m g) f w) by (apply upd_trigger_run; look); cbv beta
  | |- context [sbind (modify ?g) ?f ?w] => rewrite (sbind_run (modify g) f w tt (g w) eq_refl); cbv beta
  | |- context [sbind (sret ?a) ?f ?w] => rewrite (sbind_run (sret a) f w a w eq_refl); cbv beta
  end.

(** ** [setNeedsCheck] *)

(** How often the anti-recursion check can still let a machine through. *)
Definition checks_left (x : Machine) : nat := Z.to_nat (2 - needs_check x).
Definition budget (w : World) : nat :=
  map_fold (fun _ x n => (checks_left x + n)%nat) O (machines w).

Lemma budget_insert (mm : gmap ptr Machine) m y : mm !! m = None ->
  map_fold (fun _ x n => (checks_left x + n)%nat) O (<[m := y]> mm) =
  (checks_left y + map_fold (fun _ x n => (checks_left x + n)%nat) O mm)%nat.
Proof.
  intros E. apply (map_fold_insert_L (fun (_ : ptr) x n => (checks_left x + n)%nat)); [intros; lia | done].
Qed.

Lemma budget_update w m x y : machines w !! m = Some x ->
  (budget (with_machines (<[m := y]> (machines w)) w) + checks_left x = budget w + checks_left y)%nat.
Proof.
  intros E. unfold budget. cbn. rewrite <- (insert_delete_eq (machines w) m y).
  rewrite <- (insert_delete_id (machines w) m x E) at 2.
  rewrite !budget_insert by apply lookup_delete_eq. lia.
Qed.

Lemma budget_bound w : (forall m x, machines w !! m = Some x -> 0 <= needs_check x) ->
  (budget w <= 2 * size (machines w))%nat.
Proof.
  unfold budget. induction (machines w) as [|m x mm Hm IH] using map_ind; intros Hn.
  - rewrite map_fold_empty. lia.
  - rewrite budget_insert, map_size_insert_None by done.
    specialize (Hn m x ltac:(by simplify_map_eq)) as Hx.
    assert (map_fold (fun _ x n => (checks_left x + n)%nat) O mm <= 2 * size mm)%nat.
    { apply IH. intros m' x' Hm'. apply (Hn m'). rewrite lookup_insert_ne; [done |]. intros ->; congruence. }
    unfold checks_left in *. lia.
Qed.

(** What queueing a check may change: the check counters and poll times of
    machines and the sets of queued machines; the counters only grow. *)
Definition mach_frame (x y : Machine) : Prop :=
  y = set_poll (next_poll y) (set_needs (needs_check y) x) /\ needs_check x <= needs_check y.
Record checked (w w' : World) : Prop := {
  ck_triggers : triggers w' = triggers w;
  ck_actions : actions w' = actions w;
  ck_effects : effects w' = effects w;
  ck_work : num_machines_with_work w' = num_machines_with_work w;
  ck_machines : map_Forall2 (fun _ => mach_frame) (machines w) (machines w');
  ck_runnable : runnable w ⊆ runnable w';
  ck_busy : busy_machines w ⊆ busy_machines w';
  ck_pending : pending_state_change w ⊆ pending_state_change w'
}.

Lemma mach_frame_refl x : mach_frame x x.
Proof. split; [by destruct x | lia]. Qed.
Lemma mach_frame_trans x y z : mach_frame x y -> mach_frame y z -> mach_frame x z.
Proof. intros [E1 H1] [E2 H2]. split; [|lia]. rewrite E2, E1. by destruct x. Qed.

Lemma checked_refl w : checked w w.
Proof.
  split; try done. intros m. destruct (machines w !! m); constructor. apply mach_frame_refl.
Qed.
Lemma checked_trans w1 w2 w3 : checked w1 w2 -> checked w2 w3 -> checked w1 w3.
Proof.
  intros [] []. split; try congruence; try (by etrans).
  intros m. specialize (ck_machines0 m). specialize (ck_machines1 m).
  destruct ck_machines0; inversion ck_machines1; subst; constructor.
  by eapply mach_frame_trans.
Qed.
#[export] Instance checked_preorder : PreOrder checked.
Proof. split; [exact checked_refl | exact checked_trans]. Qed.

Lemma checked_lookup w w' m x : checked w w' -> machines w !! m = Some x ->
  exists y, machines w' !! m = Some y /\ mach_frame x y.
Proof. intros [] E. specialize (ck_machines0 m). rewrite E in ck_machines0. inversion ck_machines0; eauto. Qed.

(** One machine's counters change. *)
Lemma checked_update w m x y r b p c : machines w !! m = Some x -> mach_frame x y ->
  runnable w ⊆ r -> busy_machines w ⊆ b -> pending_state_change w ⊆ p ->
  checked w (mkWorld (triggers w) (actions w) (<[m := y]> (machines w)) r b p
    (num_machines_with_work w) c (effects w)).
Proof.
  intros E Hf Hr Hb Hp. split; cbn; try done. intros m'.
  destruct (decide (m = m')) as [<- | Hne].
  - rewrite lookup_insert_eq, E. by constructor.
  - rewrite lookup_insert_ne by done. destruct (machines w !! m'); constructor. apply mach_frame_refl.
Qed.

(** A heap without dangling dependents and with counters that count. *)
Record checks_ok (w : World) : Prop := {
  co_counts : forall m x, machines w !! m = Some x -> 0 <= needs_check x;
  co_depends : forall m x d, machines w !! m = Some x -> d ∈ depends x -> is_Some (machines w !! d)
}.
Lemma mach_frame_depends x y : mach_frame x y -> depends y = depends x.
Proof. by intros [-> _]. Qed.
Lemma checked_inv w w' m y : checked w w' -> machines w' !! m = Some y ->
  exists x, machines w !! m = Some x /\ mach_frame x y.
Proof. intros [] E. specialize (ck_machines0 m). rewrite E in ck_machines0. inversion ck_machines0; eauto. Qed.
Lemma checked_ok w w' : checked w w' -> checks_ok w -> checks_ok w'.
Proof.
  intros Hc [Hn Hd]. split.
  - intros m y (x & Ex & [_ Hle])%(checked_inv _ _ _ _ Hc). specialize (Hn m x Ex). lia.
  - intros m y d (x & Ex & Hf)%(checked_inv _ _ _ _ Hc) Hin.
    rewrite (mach_frame_depends _ _ Hf) in Hin. destruct (Hd m x d Ex Hin) as [z Hz].
    destruct (checked_lookup _ _ _ _ Hc Hz) as (z' & -> & _). done.
Qed.
Lemma checked_size w w' : checked w w' -> size (machines w') = size (machines w).
Proof.
  intros Hc. rewrite <- !size_dom. f_equal. apply set_eq. intros m. rewrite !elem_of_dom.
  split; intros [x Hx];
    [destruct (checked_inv _ _ _ _ Hc Hx) as (y & -> & _)
    | destruct (checked_lookup _ _ _ _ Hc Hx) as (y & -> & _)]; done.
Qed.

(** No check counter is above [B]. *)
Definition bounded (B : Z) (w : World) : Prop := map_Forall (fun _ x => needs_check x <= B) (machines w).

Section Checks.
Variable tk : ClockworkToken.

Lemma checks_left_budget w m x : machines w !! m = Some x -> (checks_left x <= budget w)%nat.
Proof.
  intros E. pose proof (budget_update w m x (set_needs 2 x) E) as Hb. unfold checks_left in *. cbn in *. lia.
Qed.

(** The depth of recursion a call on [x] needs. *)
Definition depth_for (w : World) (x : Machine) : nat :=
  (budget w + if (needs_check x <? 2)%Z then 0 else 1)%nat.

Lemma check_dependents_total depth l w :
  (forall m w x, checks_ok w -> machines w !! m = Some x -> needs_check x < INT_MAX ->
     (depth_for w x <= depth)%nat ->
     exists w', setNeedsCheck_n tk depth m w = Ok (tt, w') /\ checked w w' /\ (budget w' <= budget w)%nat /\
       forall B, 2 <= B -> needs_check x < B -> bounded B w -> bounded B w') ->
  checks_ok w -> (budget w <= depth)%nat -> (forall d, d ∈ l -> is_Some (machines w !! d)) ->
  exists w', check_dependents (setNeedsCheck_n tk depth) l w = Ok (tt, w') /\ checked w w' /\
    (budget w' <= budget w)%nat /\ forall B, 2 <= B -> bounded B w -> bounded B w'.
Proof.
  intros IH. revert w. induction l as [|d l IHl]; intros w Hok Hb Hl; cbn [check_dependents].
  { exists w. split; [done |]. split; [reflexivity |]. split; [lia | done]. }
  destruct (Hl d ltac:(left)) as [x Hx]. heap_step.
  assert (exists w1, (if is_enabled x && (needs_check x <? 2) then setNeedsCheck_n tk depth d
    else sret tt) w = Ok (tt, w1) /\ checked w w1 /\ (budget w1 <= budget w)%nat /\
    forall B, 2 <= B -> bounded B w -> bounded B w1) as (w1 & H1 & C1 & B1 & U1).
  { destruct (is_enabled x && (needs_check x <? 2)) eqn:E.
    - apply andb_true_iff in E as [_ E]. destruct (IH d w x) as (w1 & ? & ? & ? & U1);
        [done | done | unfold INT_MAX; lia | unfold depth_for; rewrite E; lia |].
      exists w1. do 3 (split; [done |]). intros B HB. apply U1; lia.
    - exists w. split; [done |]. split; [reflexivity |]. split; [lia | done]. }
  rewrite (sbind_run _ _ _ _ _ H1). destruct (IHl w1) as (w2 & H2 & C2 & B2 & U2).
  - by eapply checked_ok.
  - lia.
  - intros d' Hd. destruct (Hl d') as [y Hy]; [by right |].
    destruct (checked_lookup _ _ _ _ C1 Hy) as (z & -> & _). done.
  - exists w2. split; [done |]. split; [by etrans |]. split; [lia | auto].
Qed.

(** The world in which [setNeedsCheck] visits the dependents. *)
Lemma setNeedsCheck_visit w m x sm : machines w !! m = Some x -> state_machine x = Some sm ->
  is_enabled x = true -> 0 <= needs_check x < INT_MAX ->
  exists w1, checked w w1 /\ (budget w1 + checks_left x = budget w + Z.to_nat (1 - needs_check x))%nat /\
    m ∈ runnable w1 /\ m ∈ busy_machines w1 ∪ pending_state_change w1 /\
    (forall B, needs_check x < B -> bounded B w -> bounded B w1) /\
    forall depth, setNeedsCheck_n tk (S depth) m w =
      if (sm_token sm =? tokLIST tk) || (sm_token sm =? tokREFERENCE tk)
      then check_dependents (setNeedsCheck_n tk depth) (depends x) w1 else Ok (tt, w1).
Proof.
  intros Ex Esm Een Hn.
  set (y := set_poll 0 (set_needs (needs_check x + 1) x)).
  set (c := if needs_check x =? 0 then u32 (total_machines_needing_check w + 1) else total_machines_needing_check w).
  set (work := negb (bool_decide (active_actions x = [])) || negb (bool_decide (mail_queue x = []))
               || negb (allow_auto_states sm)).
  set (w1 := mkWorld (triggers w) (actions w) (<[m := y]> (machines w)) ({[m]} ∪ runnable w)
    (if work then {[m]} ∪ busy_machines w else busy_machines w)
    (if work then pending_state_change w else {[m]} ∪ pending_state_change w)
    (num_machines_with_work w) c (effects w)).
  exists w1. split.
  { apply checked_update with x; [done | | set_solver | destruct work; set_solver | destruct work; set_solver].
    split; [done | cbn; lia]. }
  split.
  { pose proof (budget_update w m x y Ex) as Hb. unfold budget, checks_left in *. cbn in *. lia. }
  split; [set_solver |]. split; [subst w1; cbn; destruct work; set_solver |].
  split; [intros B HB Hw; apply map_Forall_insert_2; [cbn; lia | done] |].
  intros depth. cbn [setNeedsCheck_n]. heap_step. rewrite Esm, Een. cbn [negb].
  erewrite (sbind_run (if needs_check x =? 0 then count_check else sret tt) _ _ tt (with_checks c w))
    by (subst c; destruct (needs_check x =? 0); [done | by destruct w]).
  unfold sbind at 1, slift at 1, int_of. rewrite (proj2 (in_int_spec _)) by (unfold INT_MIN, INT_MAX in *; lia).
  heap_step.
  erewrite (sbind_run _ _ _ tt (with_machines _ (with_checks c
    (with_busy (if work then {[m]} ∪ busy_machines w else busy_machines w)
      (with_pending (if work then pending_state_change w else {[m]} ∪ pending_state_change w) w))))).
  2: { subst work. destruct (negb (bool_decide (active_actions x = [])) || _); [done |].
       destruct (allow_auto_states sm); done. }
  unfold activate. heap_step. heap_step. cbn [machines with_machines with_runnable].
  rewrite insert_insert_eq.
  destruct ((sm_token sm =? tokLIST tk) || (sm_token sm =? tokREFERENCE tk)); done.
Qed.

Lemma setNeedsCheck_n_total depth : forall m w x, checks_ok w -> machines w !! m = Some x ->
  needs_check x < INT_MAX -> (depth_for w x <= depth)%nat ->
  exists w', setNeedsCheck_n tk depth m w = Ok (tt, w') /\ checked w w' /\ (budget w' <= budget w)%nat /\
    forall B, 2 <= B -> needs_check x < B -> bounded B w -> bounded B w'.
Proof.
  induction depth as [|depth IH]; intros m w x Hok Ex Hn Hd.
  - unfold depth_for in Hd. pose proof (checks_left_budget w m x Ex). unfold checks_left in *.
    destruct (needs_check x <? 2) eqn:E; lia.
  - destruct (state_machine x) as [sm|] eqn:Esm;
      [|exists w; cbn [setNeedsCheck_n]; heap_step; rewrite Esm; split; [done | split; [reflexivity | split; [lia | done]]]].
    destruct (is_enabled x) eqn:Een;
      [|exists w; cbn [setNeedsCheck_n]; heap_step; rewrite Esm, Een; split; [done | split; [reflexivity | split; [lia | done]]]].
    pose proof (co_counts _ Hok m x Ex).
    destruct (setNeedsCheck_visit w m x sm Ex Esm Een ltac:(lia)) as (w1 & C1 & B1 & _ & _ & U1 & Hrun).
    rewrite Hrun. pose proof (checked_ok _ _ C1 Hok) as Hok1.
    assert ((budget w1 <= budget w)%nat) by (unfold checks_left in *; lia).
    destruct ((sm_token sm =? tokLIST tk) || _); [|exists w1; split; [done | split; [done | split; [lia | auto]]]].
    destruct (check_dependents_total depth (depends x) w1 IH Hok1) as (w2 & H2 & C2 & B2 & U2).
    + unfold depth_for, checks_left in *. destruct (needs_check x <? 2) eqn:E; lia.
    + intros d Hin. destruct (co_depends _ Hok m x d Ex Hin) as [z Hz].
      destruct (checked_lookup _ _ _ _ C1 Hz) as (z' & -> & _). done.
    + exists w2. split; [done |]. split; [by etrans |]. split; [lia | auto].
Qed.

Lemma depth_for_fits w x : checks_ok w -> (depth_for w x <= check_depth w)%nat.
Proof.
  intros Hok. pose proof (budget_bound w (co_counts _ Hok)). unfold depth_for, check_depth.
  destruct (needs_check x <? 2); lia.
Qed.

Lemma setNeedsCheck_ok m w x : checks_ok w -> machines w !! m = Some x -> needs_check x < INT_MAX ->
  exists w', setNeedsCheck tk m w = Ok (tt, w') /\ checked w w' /\
    forall B, 2 <= B -> needs_check x < B -> bounded B w -> bounded B w'.
Proof.
  intros Hok Ex Hn.
  destruct (setNeedsCheck_n_total _ m w x Hok Ex Hn (depth_for_fits w x Hok)) as (w' & Hr & Hc & _ & Hu).
  by exists w'.
Qed.

(** The machine is queued by the call. *)
Lemma setNeedsCheck_queues m w x sm w' : machines w !! m = Some x -> state_machine x = Some sm ->
  is_enabled x = true -> 0 <= needs_check x < INT_MAX -> checks_ok w ->
  setNeedsCheck tk m w = Ok (tt, w') ->
  m ∈ runnable w' /\ m ∈ busy_machines w' ∪ pending_state_change w'.
Proof.
  intros Ex Esm Een Hn Hok Hrun.
  destruct (setNeedsCheck_visit w m x sm Ex Esm Een Hn) as (w1 & C1 & B1 & Hr & Hq & _ & Hv).
  unfold setNeedsCheck, check_depth in Hrun. rewrite Hv in Hrun.
  destruct ((sm_token sm =? tokLIST tk) || _); [|injection Hrun as <-; done].
  pose proof (budget_bound w (co_counts _ Hok)).
  destruct (check_dependents_total (2 * size (machines w)) (depends x) w1
    (setNeedsCheck_n_total _) (checked_ok _ _ C1 Hok)) as (w2 & H2 & C2 & _).
  - unfold checks_left in *. lia.
  - intros d Hin. destruct (co_depends _ Hok m x d Ex Hin) as [z Hz].
    destruct (checked_lookup _ _ _ _ C1 Hz) as (z' & -> & _). done.
  - rewrite H2 in Hrun. injection Hrun as <-. destruct C2. set_solver.
Qed.
End Checks.

(** ** The stack *)

(** [w] with the stack of [m] and the reference count of [a] replaced. *)
Definition stacked (w : World) (m : ptr) (x : Machine) (s : list ptr) (a : ptr) (y : Action) (r : Z) : World :=
  with_machines (<[m := set_stack s x]> (machines w)) (with_actions (<[a := set_arefs r y]> (actions w)) w).

Lemma stacked_id w m x a y : machines w !! m = Some x -> actions w !! a = Some y ->
  w = stacked w m x (active_actions x) a y (a_refs y).
Proof.
  intros Ex Ey. unfold stacked. destruct x, y, w; cbn in *.
  unfold with_machines, with_actions; cbn. by rewrite !insert_id.
Qed.

Section Stack.
Context (tk : ClockworkToken) `{!Virtuals}.

Lemma release_held a y w : actions w !! a = Some y -> a_refs y <> 1 ->
  release a w = Ok (tt, with_actions (<[a := set_arefs (a_refs y - 1) y]> (actions w)) w).
Proof.
  intros Ey Hr. unfold release. heap_step. heap_step.
  rewrite (proj2 (Z.eqb_neq _ 0)) by lia. done.
Qed.

Definition occurrences (a : ptr) (l : list ptr) : nat := length (filter (fun q => q = a) l).
Definition without (a : ptr) (l : list ptr) : list ptr := filter (fun q => q <> a) l.

Lemma erase_all_spec w m x a y pre rest r :
  Forall (fun q => q <> a) pre -> Z.of_nat (occurrences a rest) < r ->
  erase_all (length rest) (length pre) a m (stacked w m x (pre ++ rest) a y r) =
  Ok (tt, stacked w m x (pre ++ without a rest) a y (r - Z.of_nat (occurrences a rest))).
Proof.
  revert pre r. induction rest as [|q rest IH]; intros pre r Hpre Hr; cbn [length erase_all].
  { change (occurrences a []) with O. by rewrite Z.sub_0_r. }
  unfold occurrences, without in *. rewrite !filter_cons in *.
  rewrite (sbind_run _ _ _ (set_stack (pre ++ q :: rest) x) (stacked w m x (pre ++ q :: rest) a y r))
    by (apply get_machine_run; unfold stacked; cbn; by simplify_map_eq).
  cbn [active_actions set_stack]. rewrite list_lookup_middle by done.
  destruct (decide (q = a)) as [-> | Hne].
  - rewrite bool_decide_true by done. rewrite decide_False by (intros Hn; by apply Hn).
    erewrite (sbind_run (upd_machine _ _)) by (apply upd_machine_run; unfold stacked; cbn; by simplify_map_eq).
    cbn [active_actions set_stack]. rewrite delete_middle.
    erewrite (sbind_run (release a)) by (apply (release_held _ (set_arefs r y)); cbn in *;
      [unfold stacked; cbn; by simplify_map_eq | cbn in Hr; lia]).
    match goal with |- erase_all _ _ _ _ ?w' = _ =>
      replace w' with (stacked w m x (pre ++ rest) a y (r - 1)) end.
    2: { unfold stacked, with_machines, with_actions; cbn. by rewrite !insert_insert_eq. }
    cbn [length] in *. rewrite IH by (done || lia). do 2 f_equal. f_equal. lia.
  - rewrite bool_decide_false by done. rewrite decide_True by done.
    assert (stacked w m x (pre ++ q :: rest) a y r = stacked w m x ((pre ++ [q]) ++ rest) a y r) as ->
      by (by rewrite <- app_assoc).
    replace (S (length pre)) with (length (pre ++ [q])) by (rewrite length_app; cbn; lia).
    rewrite IH; [by rewrite <- app_assoc | | done].
    apply Forall_app. split; [done | by repeat constructor].
Qed.

Lemma erase_all_whole w m x a y : machines w !! m = Some x -> actions w !! a = Some y ->
  Z.of_nat (occurrences a (active_actions x)) < a_refs y ->
  erase_all (length (active_actions x)) 0 a m w =
  Ok (tt, stacked w m x (without a (active_actions x)) a y
            (a_refs y - Z.of_nat (occurrences a (active_actions x)))).
Proof.
  intros Ex Ey Hr. rewrite (stacked_id w m x a y Ex Ey) at 1.
  apply (erase_all_spec w m x a y [] (active_actions x) (a_refs y)); [constructor | done].
Qed.

(** Dropping an action's reference to its trigger. *)
Definition drop_trigger (a : ptr) (o : option ptr) (tm : gmap ptr Trigger) : gmap ptr Trigger :=
  match o ≫= (fun t => pair t <$> tm !! t) with
  | None => tm
  | Some (t, z) =>
      if t_refs z =? 1 then delete t tm
      else <[t := set_trefs (t_refs z - 1) (set_holders (filter (fun h => h <> a) (holders z)) z)]> tm
  end.
Definition trigger_live (o : option ptr) (w : World) : Prop :=
  forall t, o = Some t -> exists z, triggers w !! t = Some z /\ 0 < t_refs z.

Lemma cleanupTrigger_run a y w : actions w !! a = Some y -> trigger_live (trigger y) w ->
  cleanupTrigger a w = Ok (tt, with_actions (<[a := set_atrigger None y]> (actions w))
                                 (with_triggers (drop_trigger a (trigger y) (triggers w)) w)).
Proof.
  intros Ey Hl. unfold cleanupTrigger. heap_step. unfold drop_trigger.
  destruct (trigger y) as [t|] eqn:Et; cbn.
  2: { replace (set_atrigger None y) with y by (by destruct y; cbn in *; subst).
       rewrite insert_id by done. by destruct w. }
  destruct (Hl t eq_refl) as (z & Ez & Hz). rewrite Ez. cbn.
  unfold removeHolder. heap_step. unfold trigger_release.
  erewrite (sbind_run _ _ _ _ _); [|].
  2: { heap_step. unfold sbind at 1, slift, assert. cbn [t_refs set_holders].
       rewrite (proj2 (Z.ltb_lt _ _)) by done.
       erewrite (sbind_run (upd_trigger _ _)) by (apply upd_trigger_run; cbn; by simplify_map_eq).
       instantiate (1 := with_triggers (if t_refs z =? 1 then delete t (triggers w) else
         <[t := set_trefs (t_refs z - 1) (set_holders (filter (fun h => h <> a) (holders z)) z)]> (triggers w)) w).
       instantiate (1 := tt).
       destruct (t_refs z =? 1) eqn:E1.
       - rewrite (proj2 (Z.eqb_eq _ 0)) by lia. unfold modify, with_triggers. cbn.
         by rewrite insert_insert_eq, delete_insert_eq.
       - rewrite (proj2 (Z.eqb_neq _ 0)) by lia. unfold with_triggers. cbn.
         by rewrite insert_insert_eq. }
  erewrite upd_action_run by (cbn; eassumption). done.
Qed.

Lemma setTrigger_none_run a y w : actions w !! a = Some y -> trigger_live (trigger y) w ->
  setTrigger None a w = Ok (tt, with_actions (<[a := set_atrigger None y]> (actions w))
                                  (with_triggers (drop_trigger a (trigger y) (triggers w)) w)).
Proof.
  intros Ey Hl. unfold setTrigger. heap_step. case_bool_decide as E.
  - rewrite E. unfold drop_trigger. cbn. replace (set_atrigger None y) with y by (by destruct y; cbn in *; subst).
    rewrite insert_id by done. by destruct w.
  - rewrite (sbind_run _ _ _ _ _ (cleanupTrigger_run a y w Ey Hl)). done.
Qed.

(** The stack of [m] after [stop], before the next action is resumed. *)
Definition stopped (a : ptr) (x : Machine) (y : Action) : Action :=
  set_arefs (a_refs y - Z.of_nat (occurrences a (active_actions x))) (set_started false (set_atrigger None y)).
Definition removed (a m : ptr) (x : Machine) (y : Action) (w : World) : World :=
  with_machines (<[m := set_stack (without a (active_actions x)) x]> (machines w))
    (with_actions (<[a := stopped a x y]> (actions w))
      (with_triggers (drop_trigger a (trigger y) (triggers w)) w)).

Lemma stop_removes w m x a y : machines w !! m = Some x -> actions w !! a = Some y ->
  trigger_live (trigger y) w -> Z.of_nat (occurrences a (active_actions x)) < a_refs y ->
  stop tk a m w = sbind (resume_top tk m) (fun _ => setNeedsCheck tk m) (removed a m x y w).
Proof.
  intros Ex Ey Hl Hr. unfold stop. rewrite (sbind_run _ _ _ _ _ (setTrigger_none_run a y w Ey Hl)).
  unfold action_stop. heap_step. heap_step.
  erewrite (sbind_run (erase_all _ _ _ _)); [reflexivity |].
  erewrite erase_all_whole; [|cbn; eassumption | cbn; by simplify_map_eq | done].
  f_equal. f_equal. unfold stacked, removed, with_machines, with_actions, with_triggers. cbn.
  by rewrite !insert_insert_eq.
Qed.

(** The action below, after the one above it is gone. *)
Definition unblocked (z : Action) : Action :=
  let z1 := set_blocked None z in
  match status z with
  | Suspended => set_status (match saved_status z with Suspended => Running | st => st end) z1
  | _ => z1
  end.

Lemma bounded_mono B B' w : bounded B w -> B <= B' -> bounded B' w.
Proof. intros Hb Hle. apply map_Forall_impl with (1 := Hb). cbn. lia. Qed.

(** Each check raises the counters by at most one. *)
Lemma resume_top_run w m x n z B : machines w !! m = Some x -> executing x = Some n ->
  actions w !! n = Some z -> checks_ok w -> bounded B w -> 1 <= B < INT_MAX -> is_Some (machines w !! a_owner z) ->
  exists w', resume_top tk m w = Ok (tt, w') /\
    checked (with_actions (<[n := unblocked z]> (actions w)) w) w' /\ bounded (B + 1) w'.
Proof.
  intros Ex En Ez Hok Hb HB [o Ho]. unfold resume_top, executingCommand.
  rewrite (sbind_run _ _ _ (executing x) w) by (heap_step; done).
  rewrite En. unfold setBlocker. heap_step. heap_step. unfold unblocked. cbn [status set_blocked].
  pose proof (Hb _ _ Ho) as Hbo. cbn in Hbo.
  destruct (status z) eqn:Es;
    try (eexists; split; [reflexivity |]; split; [reflexivity |]; exact (bounded_mono B (B + 1) w Hb ltac:(lia))).
  unfold resume. heap_step. heap_step. cbn [a_owner set_status set_blocked saved_status].
  match goal with |- exists w', setNeedsCheck tk _ ?w1 = _ /\ _ =>
    destruct (setNeedsCheck_ok tk (a_owner z) w1 o) as (w' & Hr & Hc & Hu) end;
    [by destruct Hok | done | lia |].
  exists w'. split; [done |]. cbn [actions with_actions] in Hc. rewrite insert_insert_eq in Hc.
  split; [exact Hc |]. apply Hu; [lia | lia |]. exact (bounded_mono B (B + 1) w Hb ltac:(lia)).
Qed.

Lemma without_last_ne a l n : list.last (without a l) = Some n -> n <> a.
Proof. intros Hl. apply last_Some_elem_of in Hl. by apply list_elem_of_filter in Hl as [? _]. Qed.

Lemma checks_ok_set w w' m x y : checks_ok w -> machines w !! m = Some x ->
  machines w' = <[m := y]> (machines w) -> 0 <= needs_check y -> depends y = depends x ->
  checks_ok w'.
Proof.
  intros [Hn Hd] Ex E En Ed. split; rewrite E.
  - intros m' z [[<- <-] | [_ Hy]]%lookup_insert_Some; [done | by apply (Hn m' z)].
  - intros m' z d Hy Hin. rewrite lookup_insert_is_Some'. right.
    apply lookup_insert_Some in Hy as [[<- <-] | [_ Hy]]; [rewrite Ed in Hin; by apply (Hd m x) | by apply (Hd m' z)].
Qed.
Lemma checks_ok_update w w' m x y : checks_ok w -> machines w !! m = Some x ->
  machines w' = <[m := y]> (machines w) -> needs_check y = needs_check x -> depends y = depends x ->
  checks_ok w'.
Proof.
  intros Hok Ex E En Ed. eapply checks_ok_set; [done .. | | done]. rewrite En. by apply (co_counts _ Hok m).
Qed.

Lemma resume_top_any w m x B : machines w !! m = Some x -> checks_ok w -> bounded B w -> 1 <= B < INT_MAX ->
  (forall n, executing x = Some n -> exists z, actions w !! n = Some z /\ is_Some (machines w !! a_owner z)) ->
  exists w' am, resume_top tk m w = Ok (tt, w') /\ bounded (B + 1) w' /\
    checked (with_actions am w) w' /\
    forall b, am !! b = (fun z => if bool_decide (executing x = Some b) then unblocked z else z) <$> actions w !! b.
Proof.
  intros Ex Hok Hb HB Htop. destruct (executing x) as [n|] eqn:En.
  - destruct (Htop n eq_refl) as (z & Ez & Hm).
    destruct (resume_top_run w m x n z B) as (w2 & H2 & C2 & Hb2); [done .. |].
    exists w2, (<[n := unblocked z]> (actions w)). split; [done |]. split; [done |]. split; [exact C2 |].
    intros b. destruct (decide (n = b)) as [-> | Hnb].
    + rewrite lookup_insert_eq, Ez. cbn. by rewrite bool_decide_true.
    + rewrite lookup_insert_ne by done. destruct (actions w !! b); [|done]. cbn.
      by rewrite bool_decide_false by congruence.
  - exists w, (actions w). unfold resume_top, executingCommand.
    rewrite (sbind_run _ _ _ (executing x) w) by (by heap_step). rewrite En. split; [done |].
    split; [exact (bounded_mono B (B + 1) w Hb ltac:(lia)) |].
    split; [destruct w; reflexivity |]. intros b. by destruct (actions w !! b).
Qed.

(** Everything [stop] does, up to the counters of the checks. *)
Lemma stop_checked w m x a y B :
  checks_ok w -> bounded B w -> 1 <= B -> B + 2 <= INT_MAX ->
  machines w !! m = Some x -> actions w !! a = Some y -> trigger_live (trigger y) w ->
  Z.of_nat (occurrences a (active_actions x)) < a_refs y ->
  (forall n, list.last (without a (active_actions x)) = Some n ->
     exists z, actions w !! n = Some z /\ is_Some (machines w !! a_owner z)) ->
  exists w' am, stop tk a m w = Ok (tt, w') /\ bounded (B + 2) w' /\
    checked (with_actions am (removed a m x y w)) w' /\
    am !! a = Some (stopped a x y) /\
    forall b, b <> a -> am !! b =
      (fun z => if bool_decide (list.last (without a (active_actions x)) = Some b) then unblocked z else z) <$> actions w !! b.
Proof.
  intros Hok Hb HB HB2 Ex Ey Hl Hr Htop. rewrite (stop_removes w m x a y Ex Ey Hl Hr).
  set (l := without a (active_actions x)) in *. set (w1 := removed a m x y w).
  assert (machines w1 !! m = Some (set_stack l x)) as E1 by (subst w1; unfold removed; cbn; by simplify_map_eq).
  assert (forall b, b <> a -> actions w1 !! b = actions w !! b) as Hother
    by (intros b Hne; subst w1; unfold removed; cbn; by rewrite lookup_insert_ne).
  assert (checks_ok w1) as Hok1 by (by apply (checks_ok_update w w1 m x (set_stack l x))).
  destruct (resume_top_any w1 m (set_stack l x) B) as (w2 & am & H2 & Hb2 & C2 & Ha); [done | done | | lia | |].
  { apply map_Forall_insert_2; [exact (Hb m x Ex) | done]. }
  { intros n Hn. destruct (Htop n Hn) as (z & Ez & Hm). exists z.
    rewrite Hother by (exact (without_last_ne a (active_actions x) n Hn)). split; [done |]. subst w1. unfold removed. cbn.
    destruct (decide (m = a_owner z)) as [<- |]; [by rewrite lookup_insert_eq | by rewrite lookup_insert_ne]. }
  rewrite (sbind_run _ _ _ _ _ H2). destruct (checked_lookup _ _ _ _ C2 E1) as (x2 & E2 & F2).
  pose proof (Hb2 _ _ E2) as Hx2. cbn in Hx2.
  destruct (setNeedsCheck_ok tk m w2 x2) as (w3 & H3 & C3 & Hu); [|done | lia |].
  { apply (checked_ok _ _ C2). by destruct Hok1. }
  exists w3, am. split; [done |]. split; [apply Hu; [lia | lia | exact (bounded_mono _ (B + 2) _ Hb2 ltac:(lia))] |].
  split; [by etrans |]. split.
  - rewrite Ha. subst w1. unfold removed. cbn [actions with_machines with_actions]. rewrite lookup_insert_eq. cbn.
    rewrite bool_decide_false; [done |]. intros Hn. by apply without_last_ne in Hn.
  - intros b Hba. by rewrite Ha, Hother.
Qed.

Lemma stop_ok w m x a y :
  checks_ok w -> bounded (INT_MAX - 2) w ->
  machines w !! m = Some x -> actions w !! a = Some y -> trigger_live (trigger y) w ->
  Z.of_nat (occurrences a (active_actions x)) < a_refs y ->
  (forall n, list.last (without a (active_actions x)) = Some n ->
     exists z, actions w !! n = Some z /\ is_Some (machines w !! a_owner z)) ->
  exists w' x', stop tk a m w = Ok (tt, w') /\ machines w' !! m = Some x' /\
    active_actions x' = without a (active_actions x) /\
    triggers w' = drop_trigger a (trigger y) (triggers w) /\
    actions w' !! a = Some (stopped a x y) /\
    forall b z, b <> a -> actions w !! b = Some z ->
      actions w' !! b = Some (if bool_decide (list.last (without a (active_actions x)) = Some b)
                              then unblocked z else z).
Proof.
  intros Hok Hb Ex Ey Hl Hr Htop.
  destruct (stop_checked w m x a y (INT_MAX - 2)) as (w' & am & Hs & _ & C & Ha & Hoth); [done | done | done | done | done .. |].
  destruct (checked_lookup _ _ m (set_stack (without a (active_actions x)) x) C) as (x' & Ex' & F);
    [unfold removed; cbn; by simplify_map_eq |].
  exists w', x'. do 2 (split; [done |]). split; [by destruct F as [-> _] |].
  split; [by rewrite (ck_triggers _ _ C) |]. rewrite (ck_actions _ _ C). cbn [actions with_actions]. split; [done |].
  intros b z Hba Hz. rewrite Hoth, Hz by done. done.
Qed.

(** The state [push] leaves. *)
Definition suspended (z : Action) : Action :=
  match status z with Suspended => z | st => set_status Suspended (set_saved st z) end.
Definition pushed_actions (a : ptr) (y : Action) (x : Machine) (am : gmap ptr Action) : gmap ptr Action :=
  <[a := set_started true y]>
    (match executing x ≫= (fun b => pair b <$> am !! b) with
     | Some (b, z) => <[b := set_blocked (Some a) (suspended z)]> am
     | None => am
     end).
Definition pushed (a m : ptr) (x : Machine) (y : Action) (w : World) : World :=
  mkWorld (triggers w) (pushed_actions a y x (actions w))
    (<[m := set_work true (set_stack (active_actions x ++ [a]) x)]> (machines w))
    ({[m]} ∪ runnable w) ({[m]} ∪ busy_machines w) (pending_state_change w)
    (u32 (num_machines_with_work w + 1)) (total_machines_needing_check w) (effects w).

Lemma push_run w m x a y : machines w !! m = Some x -> actions w !! a = Some y -> started_ y = false ->
  (forall b, executing x = Some b -> b <> a /\ is_Some (actions w !! b)) ->
  push a m w = Ok (tt, pushed a m x y w).
Proof.
  intros Ex Ey Es Htop. unfold push, executingCommand.
  rewrite (sbind_run _ _ _ (executing x) w) by (by heap_step).
  set (am := match executing x ≫= (fun b => pair b <$> actions w !! b) with
             | Some (b, z) => <[b := set_blocked (Some a) (suspended z)]> (actions w)
             | None => actions w end).
  assert (actions (with_actions am w) !! a = Some y) as Ea.
  { cbn. subst am. destruct (executing x) as [b|]; [|done]. cbn.
    destruct (Htop b eq_refl) as [Hne [z Hz]]. rewrite Hz. cbn. by rewrite lookup_insert_ne. }
  erewrite (sbind_run (match executing x with Some _ => _ | None => _ end) _ _ tt (with_actions am w)).
  2: { subst am. destruct (executing x) as [b|]; [|by destruct w]. cbn.
       destruct (Htop b eq_refl) as [Hne [z Hz]]. rewrite Hz. cbn. unfold suspend. heap_step.
       unfold setBlocker. erewrite upd_action_run by (cbn; by simplify_map_eq).
       unfold with_actions. cbn. rewrite insert_insert_eq. unfold suspended. by destruct (status z). }
  heap_step. unfold action_start. rewrite (sbind_run _ _ _ tt (with_actions (<[a := set_started true y]> am)
    (with_machines (<[m := set_stack (active_actions x ++ [a]) x]> (machines w)) (with_actions am w)))).
  2: { heap_step. unfold sbind at 1, slift, assert. rewrite Es. cbn [negb]. by erewrite upd_action_run. }
  unfold count_work, workset_add, activate. heap_step. heap_step. heap_step.
  unfold modify, pushed, with_machines, with_runnable, with_busy, with_work. cbn. by rewrite insert_insert_eq.
Qed.

(** C19: [stop] removes every entry for the action from the machine's stack and
    keeps the order of the others; it releases one reference per entry, the
    trigger's reference with them; the action that is then on top is unblocked
    and, if it was suspended, gets back the status it was suspended in. No other
    action or trigger changes, no event is recorded, and of the machines, this one
    and others, only the counters of pending checks and the poll times change; no
    machine leaves a queue. The action is one that is also referenced from
    elsewhere, as [idle] makes sure for the action it runs, and the counters of
    checks do not overflow. *)
Theorem stop_spec w m x a y :
  checks_ok w -> bounded (INT_MAX - 2) w ->
  machines w !! m = Some x -> actions w !! a = Some y -> trigger_live (trigger y) w ->
  Z.of_nat (occurrences a (active_actions x)) < a_refs y ->
  (forall n, list.last (without a (active_actions x)) = Some n ->
     exists z, actions w !! n = Some z /\ is_Some (machines w !! a_owner z)) ->
  exists w' x', stop tk a m w = Ok (tt, w') /\
    machines w' !! m = Some x' /\ mach_frame (set_stack (without a (active_actions x)) x) x' /\
    (forall m', m' <> m -> option_Forall2 mach_frame (machines w !! m') (machines w' !! m')) /\
    triggers w' = drop_trigger a (trigger y) (triggers w) /\
    actions w' !! a = Some (stopped a x y) /\
    (forall b, b <> a -> actions w' !! b =
       (fun z => if bool_decide (list.last (without a (active_actions x)) = Some b) then unblocked z else z) <$> actions w !! b) /\
    effects w' = effects w /\ num_machines_with_work w' = num_machines_with_work w /\
    runnable w ⊆ runnable w' /\ busy_machines w ⊆ busy_machines w' /\ pending_state_change w ⊆ pending_state_change w'.
Proof.
  intros Hok Hb Ex Ey Hl Hr Htop.
  destruct (stop_checked w m x a y (INT_MAX - 2)) as (w' & am & Hs & _ & C & Ha & Hoth); [done | done | done | done | done .. |].
  destruct (checked_lookup _ _ m (set_stack (without a (active_actions x)) x) C) as (x' & Ex' & F);
    [unfold removed; cbn; by simplify_map_eq |].
  exists w', x'. do 3 (split; [done |]). split.
  { intros m' Hne. pose proof (ck_machines _ _ C m') as Hm. unfold removed in Hm. cbn in Hm. by rewrite lookup_insert_ne in Hm. }
  split; [by rewrite (ck_triggers _ _ C) |]. rewrite (ck_actions _ _ C). cbn [actions with_actions]. split; [done |].
  split; [done |]. by destruct C.
Qed.

Lemma without_fresh a l : a ∉ l -> without a (l ++ [a]) = l /\ occurrences a (l ++ [a]) = 1%nat.
Proof.
  intros Ha. assert (without a l = l /\ occurrences a l = O) as [E1 E2].
  { unfold without, occurrences. induction l as [|q l IH]; [done |].
    apply not_elem_of_cons in Ha as [Hq Hl]. destruct (IH Hl) as [E1 E2].
    rewrite !filter_cons, decide_True, decide_False, E1 by done. done. }
  unfold without, occurrences in *. rewrite !list.filter_app, length_app, E1, E2, !filter_cons.
  rewrite decide_False by (intros Hn; by apply Hn). rewrite decide_True by done. cbn. by rewrite app_nil_r.
Qed.

Definition push_stop (a m : ptr) : M unit := run! push a m in stop tk a m.

(** Actions nest like calls: pushing an action on a machine and stopping it
    again leaves the machine's stack as it was, the action below it with the
    status it had (it was suspended in between) and no longer blocked, and one
    reference to the pushed action fewer. *)
Theorem push_stop_restores w m x a y b z :
  checks_ok w -> bounded (INT_MAX - 2) w ->
  machines w !! m = Some x -> executing x = Some b -> a ∉ active_actions x ->
  actions w !! a = Some y -> started_ y = false -> 1 < a_refs y -> trigger_live (trigger y) w ->
  actions w !! b = Some z -> is_Some (machines w !! a_owner z) -> status z <> Suspended ->
  exists w' x' y' z', push_stop a m w = Ok (tt, w') /\
    machines w' !! m = Some x' /\ active_actions x' = active_actions x /\
    actions w' !! a = Some y' /\ started_ y' = false /\ a_refs y' = a_refs y - 1 /\
    actions w' !! b = Some z' /\ status z' = status z /\ blocked z' = None.
Proof.
  intros Hok Hb Ex Eb Ha Ey Es Hr Hl Ez [o Ho] Hz.
  assert (b <> a) as Hba by (intros ->; by apply last_Some_elem_of in Eb).
  unfold push_stop. rewrite (sbind_run _ _ _ tt (pushed a m x y w)).
  2: { apply push_run; try done. intros b' Hb'. by simplify_eq. }
  set (x1 := set_work true (set_stack (active_actions x ++ [a]) x)).
  destruct (without_fresh a (active_actions x) Ha) as [Hw Hocc].
  assert (actions (pushed a m x y w) !! b = Some (set_blocked (Some a) (suspended z))) as Eb1.
  { unfold pushed, pushed_actions. cbn. rewrite Eb. cbn. rewrite Ez. cbn.
    by rewrite lookup_insert_ne, lookup_insert_eq. }
  destruct (stop_ok (pushed a m x y w) m x1 a (set_started true y)) as (w' & x' & Hs & Ex' & Est & _ & Ea & Hoth).
  - by apply (checks_ok_update w _ m x x1).
  - apply map_Forall_insert_2; [exact (Hb m x Ex) | done].
  - unfold pushed. cbn. by simplify_map_eq.
  - unfold pushed, pushed_actions. cbn. by simplify_map_eq.
  - exact Hl.
  - change (active_actions x1) with (active_actions x ++ [a]). rewrite Hocc. cbn. lia.
  - change (active_actions x1) with (active_actions x ++ [a]). rewrite Hw. intros n Hn. replace n with b by (unfold executing in Eb; congruence).
    eexists. split; [exact Eb1 |]. replace (a_owner _) with (a_owner z) by (unfold suspended; by destruct (status z)).
    unfold pushed. cbn. rewrite lookup_insert_is_Some'. by right; exists o.
  - exists w', x', (stopped a x1 (set_started true y)), (unblocked (set_blocked (Some a) (suspended z))).
    split; [done |]. split; [done |]. split; [rewrite Est; subst x1; exact Hw |]. split; [done |].
    split; [done |]. split; [unfold stopped; cbn [a_refs set_arefs]; change (active_actions x1) with (active_actions x ++ [a]);
      rewrite Hocc; done |].
    rewrite (Hoth b _ Hba Eb1), bool_decide_true by (change (active_actions x1) with (active_actions x ++ [a]); by rewrite Hw).
    unfold unblocked, suspended. by destruct (status z).
Qed.
End Stack.

(** ** Clearing the stack *)
Section Clearing.
Context `{!Virtuals}.
Hypothesis plain_destructor : forall a w, destructor a w = Ok (tt, w).

(** What is left of an action after its references from [l] are released. *)
Definition released (l : list ptr) (b : ptr) (y : Action) : option Action :=
  if bool_decide (b ∈ l) && (a_refs y - Z.of_nat (occurrences b l) =? 0) then None
  else Some (set_arefs (a_refs y - Z.of_nat (occurrences b l)) y).

Lemma occurrences_cons_eq a l : occurrences a (a :: l) = S (occurrences a l).
Proof. unfold occurrences. by rewrite filter_cons_True. Qed.
Lemma occurrences_cons_ne a b l : a <> b -> occurrences b (a :: l) = occurrences b l.
Proof. intros Hne. unfold occurrences. by rewrite filter_cons_False. Qed.
Lemma occurrences_out a l : a ∉ l -> occurrences a l = O.
Proof.
  induction l as [|b l IH]; [done |]. intros [Hne Hni]%not_elem_of_cons. rewrite occurrences_cons_ne by done. by apply IH.
Qed.
Lemma occurrences_in a l : a ∈ l -> (0 < occurrences a l)%nat.
Proof.
  intros Hin. unfold occurrences. destruct (filter (fun q => q = a) l) eqn:E; [|cbn; lia].
  exfalso. apply (not_elem_of_nil a). rewrite <- E. by apply list_elem_of_filter.
Qed.
Lemma released_out l b y : b ∉ l -> released l b y = Some y.
Proof.
  intros Hni. unfold released. rewrite bool_decide_false, occurrences_out by done. cbn. rewrite Z.sub_0_r. by destruct y.
Qed.

(** The actions after one reference to [a] is dropped. *)
Definition dropped (a : ptr) (y : Action) (am : gmap ptr Action) : gmap ptr Action :=
  if a_refs y =? 1 then delete a am else <[a := set_arefs (a_refs y - 1) y]> am.
Lemma dropped_ne a b y am : b <> a -> dropped a y am !! b = am !! b.
Proof. intros Hne. unfold dropped. by destruct (a_refs y =? 1); simplify_map_eq. Qed.

(** Dropping one action that has no trigger: it is deleted with its last
    reference. *)
Lemma clear_action_run a y w : actions w !! a = Some y -> trigger y = None ->
  clear_action a w = Ok (tt, with_actions (dropped a y (actions w)) w).
Proof.
  intros Ey Et. unfold clear_action, dropped. heap_step. rewrite Et. heap_step. destruct (Z.eqb_spec (a_refs y) 1) as [E1 | E1].
  - unfold release. heap_step. heap_step. rewrite E1. change (1 - 1 =? 0) with true. cbv iota.
    assert (forall v, actions v !! a = Some (set_arefs (1 - 1) y) -> cleanupTrigger a v = Ok (tt, v)) as Hc.
    { intros v Ev. unfold cleanupTrigger. erewrite sbind_run by (by apply get_action_run). cbn. by rewrite Et. }
    rewrite (sbind_run _ _ _ _ _ (Hc _ (lookup_insert_eq _ _ _))), (sbind_run _ _ _ _ _ (plain_destructor _ _)),
      (sbind_run _ _ _ _ _ (Hc _ (lookup_insert_eq _ _ _))).
    unfold modify, with_actions. cbn. by rewrite delete_insert_eq.
  - by apply release_held.
Qed.

(** Every action of [l] exists, has no trigger, and enough references. *)
Definition accounted (l : list ptr) (w : World) : Prop := forall a, a ∈ l ->
  exists y, actions w !! a = Some y /\ trigger y = None /\ Z.of_nat (occurrences a l) <= a_refs y.

Lemma released_step a l y am b : am !! a = Some y -> Z.of_nat (occurrences a (a :: l)) <= a_refs y ->
  dropped a y am !! b ≫= released l b = am !! b ≫= released (a :: l) b.
Proof.
  intros Ey Hr. rewrite occurrences_cons_eq in Hr. destruct (decide (b = a)) as [-> | Hne].
  - unfold dropped. rewrite Ey. cbn. unfold released. rewrite (bool_decide_true (a ∈ a :: l)) by left.
    rewrite occurrences_cons_eq. destruct (Z.eqb_spec (a_refs y) 1) as [E1 | E1].
    + rewrite lookup_delete_eq. cbn. by rewrite (proj2 (Z.eqb_eq _ 0)) by lia.
    + rewrite lookup_insert_eq. cbn. replace (a_refs y - 1 - Z.of_nat (occurrences a l)) with
        (a_refs y - Z.of_nat (S (occurrences a l))) by lia.
      case_bool_decide as Hin; cbn; [by destruct (_ =? 0) |]. rewrite occurrences_out by done.
      by rewrite (proj2 (Z.eqb_neq _ 0)) by lia.
  - rewrite dropped_ne by done. destruct (am !! b) as [z|]; [|done]. cbn. unfold released.
    rewrite occurrences_cons_ne by done. replace (bool_decide (b ∈ a :: l)) with (bool_decide (b ∈ l)); [done |].
    apply bool_decide_ext. set_solver.
Qed.
Lemma accounted_step a l y w v : accounted (a :: l) w -> actions w !! a = Some y ->
  actions v = dropped a y (actions w) -> accounted l v.
Proof.
  intros Hacc Ey Ev b Hin. destruct (Hacc b) as (z & Ez & Ezt & Hz); [by right |]. rewrite Ev.
  destruct (decide (b = a)) as [-> | Hne].
  - rewrite Ey in Ez. injection Ez as <-. rewrite occurrences_cons_eq in Hz. exists (set_arefs (a_refs y - 1) y). unfold dropped.
    rewrite (proj2 (Z.eqb_neq _ 1)) by (pose proof (occurrences_in a l Hin); lia).
    rewrite lookup_insert_eq. cbn. split; [done |]. split; [done | lia].
  - exists z. rewrite dropped_ne by done. by rewrite occurrences_cons_ne in Hz by done.
Qed.

Lemma clear_actions_run m : forall l w x, machines w !! m = Some x -> active_actions x = l -> accounted l w ->
  exists w', clear_actions (length l) m w = Ok (tt, w') /\ machines w' !! m = Some (set_stack [] x) /\
    forall b, actions w' !! b = actions w !! b ≫= released l b.
Proof.
  induction l as [|a l IH]; intros w x Ex El Hacc.
  { exists w. cbn [clear_actions length]. heap_step. rewrite El. split; [done |].
    split; [destruct x; cbn in El; by subst |]. intros b. destruct (actions w !! b) eqn:Eb; [|done]. cbn.
    by rewrite released_out by apply not_elem_of_nil. }
  destruct (Hacc a) as (y & Ey & Et & Hr); [by left |].
  set (w1 := with_actions (dropped a y (actions w)) (with_machines (<[m := set_stack l x]> (machines w)) w)).
  destruct (IH w1 (set_stack l x)) as (w' & Rw & Hm & Hb).
  - apply lookup_insert_eq.
  - done.
  - by apply (accounted_step a l y w w1).
  - exists w'. split; [|split; [exact Hm |]].
    + cbn [clear_actions length]. heap_step. rewrite El. heap_step.
      erewrite sbind_run by (by apply (clear_action_run a y)). exact Rw.
    + intros b. rewrite Hb. by apply released_step.
Qed.

(** Clearing a machine's actions returns, empties its stack and its mail, and
    releases exactly the references the stack held: an action whose references
    were all on the stack is deleted, any other action loses one reference per
    entry and is otherwise unchanged. No deleted action is touched, also when an
    action is on the stack several times. (Actions without triggers, whose
    destructors have no other effect.) *)
Theorem clearAllActions_releases w m x : machines w !! m = Some x -> accounted (active_actions x) w ->
  exists w', clearAllActions m w = Ok (tt, w') /\
    machines w' !! m = Some (set_work false (set_mail [] (set_stack [] x))) /\
    forall b, actions w' !! b = actions w !! b ≫= released (active_actions x) b.
Proof.
  intros Ex Hacc. destruct (clear_actions_run m _ w x Ex eq_refl Hacc) as (w1 & R1 & Hm & Hb).
  eexists. split; [|split].
  - unfold clearAllActions. heap_step. rewrite (sbind_run _ _ _ _ _ R1). apply upd_machine_run. exact Hm.
  - apply lookup_insert_eq.
  - exact Hb.
Qed.
End Clearing.

(** ** Mail *)
Section Mail.
Context (tk : ClockworkToken) `{!Virtuals}.

(** The action made for a package. *)
Definition handler_for (m : ptr) (p : Package) : Action :=
  mkAction 1 m "" New Running None None false false None None
    (BHandleMessage (mkPackage (transmitter p) (Some m) (message p) (needs_receipt p))).
Definition handled (m : ptr) (x : Machine) (p : Package) (h : ptr) (w : World) : World :=
  mkWorld (triggers w) (<[h := handler_for m p]> (actions w))
    (<[m := set_work true (set_stack (h :: active_actions x) x)]> (machines w))
    ({[m]} ∪ runnable w) ({[m]} ∪ busy_machines w) (pending_state_change w)
    (u32 (num_machines_with_work w + 1)) (total_machines_needing_check w) (effects w).

Lemma handle_run w m x p : machines w !! m = Some x -> is_enabled x = true ->
  exists h, actions w !! h = None /\
    handle (message p) (transmitter p) (needs_receipt p) m w = Ok (tt, handled m x p h w).
Proof.
  intros Ex En. exists (fresh (dom (actions w))). split; [apply not_elem_of_dom, is_fresh |].
  unfold handle. heap_step. rewrite En. cbn [negb]. unfold Action_new.
  rewrite (sbind_run _ _ _ (fresh (dom (actions w)))
    (with_actions (<[fresh (dom (actions w)) := handler_for m p]> (actions w)) w)) by done.
  unfold enqueueAction, count_work, workset_add, activate.
  rewrite (sbind_run _ _ _ tt (handled m x p (fresh (dom (actions w))) w)).
  2: { heap_step. heap_step. heap_step. heap_step. unfold modify. unfold handled. cbn.
       by rewrite insert_insert_eq. }
  heap_step. unfold modify, handled, with_busy, with_runnable. cbn. do 2 f_equal.
  f_equal; set_solver.
Qed.

Lemma read_mail_spec m q : forall w x, machines w !! m = Some x -> is_enabled x = true -> mail_queue x = q ->
  exists w' hs, read_mail (length q) m w = Ok (tt, w') /\ actions w ⊆ actions w' /\
    Forall2 (fun p h => actions w' !! h = Some (handler_for m p)) q hs /\
    machines w' !! m = Some (set_mail [] (set_stack (rev hs ++ active_actions x)
                               (set_work (has_work x || negb (bool_decide (q = []))) x))) /\
    (q <> [] -> m ∈ runnable w').
Proof.
  induction q as [|p q IH]; intros w x Ex En Eq; cbn [length read_mail]; heap_step; rewrite Eq.
  { exists w, []. split; [done |]. split; [done |]. split; [constructor |]. split; [|done].
    rewrite Ex. cbn. f_equal. rewrite orb_false_r. destruct x. cbn in *. by subst. }
  heap_step. cbn [is_enabled] in *.
  set (w1 := with_machines (<[m := set_mail q x]> (machines w)) w).
  destruct (handle_run w1 m (set_mail q x) p) as (h & Hh & Hrun); [subst w1; cbn; by simplify_map_eq | done |].
  rewrite (sbind_run _ _ _ _ _ Hrun).
  destruct (IH (handled m (set_mail q x) p h w1) (set_work true (set_stack (h :: active_actions x) (set_mail q x))))
    as (w' & hs & Hr & Hsub & Hall & Ex' & Hin); [unfold handled; cbn; by simplify_map_eq | done | done |].
  exists w', (h :: hs). split; [done |]. cbn [handled actions] in Hsub.
  assert (actions w' !! h = Some (handler_for m p)) as Hh'.
  { eapply lookup_weaken; [|exact Hsub]. apply lookup_insert_eq. }
  split. { etrans; [|exact Hsub]. by apply insert_subseteq. }
  split; [by constructor |]. split.
  - rewrite Ex'. f_equal. cbn [rev]. rewrite <- app_assoc. cbn. by rewrite orb_true_r.
  - intros _. destruct q as [|p' q']; [|by apply Hin]. cbn in Hr. unfold sbind, get_machine in Hr. cbn in Hr.
    rewrite lookup_insert_eq in Hr. cbn in Hr. injection Hr as <-. cbn. set_solver.
Qed.

(** With no action on its stack, [idle] of an enabled, active machine turns
    its whole mail queue into message handlers, which will execute in the order
    the messages arrived (actions execute from the back of the stack); nothing is
    lost or duplicated, and the machine stays runnable exactly when it had mail. *)
Theorem idle_takes_mail w m x sm fuel :
  machines w !! m = Some x -> error_state x = 0 -> is_enabled x = true -> machine_active x = true ->
  state_machine x = Some sm -> active_actions x = [] ->
  exists w' x', idle tk fuel m w = Ok (Some NextAction, w') /\ machines w' !! m = Some x' /\
    mail_queue x' = [] /\
    ((fun a => actions w' !! a) <$> rev (active_actions x')) = Some ∘ handler_for m <$> mail_queue x /\
    has_work x' = negb (bool_decide (mail_queue x = [])) /\
    (m ∈ runnable w' <-> mail_queue x <> []).
Proof.
  intros Ex Eerr En Eact Esm Est. unfold idle, suspend_machine. heap_step. heap_step.
  rewrite Eerr, En, Eact, Esm. cbn [Z.eqb negb andb orb].
  set (w1 := with_runnable (runnable w ∖ {[m]}) w).
  assert (machines w1 !! m = Some x) as E1 by done.
  rewrite (sbind_run _ _ _ (Some NextAction) w1).
  2: { destruct fuel; cbn [idle_loop]; unfold executingCommand;
         rewrite (sbind_run _ _ _ None w1) by (heap_step; unfold executing; by rewrite Est); done. }
  heap_step. destruct (read_mail_spec m (mail_queue x) w1 x E1 En eq_refl) as (w2 & hs & Hr & _ & Hall & E2 & Hin).
  rewrite (sbind_run _ _ _ _ _ Hr). rewrite Est, app_nil_r in E2.
  assert ((fun a => actions w2 !! a) <$> hs = Some ∘ handler_for m <$> mail_queue x) as Hbodies.
  { clear -Hall. induction Hall as [|p h q hs Hph Hall IH]; [done |]. cbn. by rewrite Hph, IH. }
  heap_step. cbn [mail_queue active_actions set_mail set_stack set_work].
  destruct (mail_queue x) as [|p q] eqn:Eq.
  - inversion Hall; subst hs. cbn in Hr. unfold sbind, get_machine in Hr. rewrite E1 in Hr. cbn in Hr.
    rewrite Eq in Hr. injection Hr as <-.
    rewrite (bool_decide_true (rev [] = [])), (bool_decide_true ([] = [])) by done. cbn [andb].
    heap_step. heap_step. cbn [has_work set_work]. heap_step. do 2 eexists. split; [done |]. split; [cbn; by simplify_map_eq |]. cbn.
    do 3 (split; [done |]). set_solver.
  - assert (rev hs <> []) as Hne by (destruct hs; [by inversion Hall | cbn; by destruct (rev hs)]).
    rewrite (bool_decide_false (rev hs = [])) by done.
    cbn [andb]. rewrite (bool_decide_true ([] = [])) by done. cbn [andb].
    heap_step. heap_step. cbn [has_work set_mail set_stack set_work]. rewrite orb_true_r.
    unfold activate. heap_step. do 2 eexists. split; [done |]. cbn. split; [exact E2 |]. cbn.
    rewrite rev_involutive, orb_true_r. split; [done |]. split; [done |]. split; [done |].
    split; [done | set_solver].
Qed.
End Mail.

(** ** Termination of checks, and triggers *)
Section Triggers.
Variable tk : ClockworkToken.

(** C35: [setNeedsCheck] always returns although lists and references pass it on
    to their dependents and dependency graphs may have cycles: the test
    [needs_check < 2] bounds the recursion by two visits per machine. It changes
    no action and no trigger, never decreases a counter, and leaves the machine,
    if it is enabled and has a class, queued for action processing or for a
    stable state test and runnable. *)
Theorem needs_check_terminates w m x : checks_ok w -> machines w !! m = Some x -> needs_check x < INT_MAX ->
  exists w', setNeedsCheck tk m w = Ok (tt, w') /\ checked w w' /\
    (is_enabled x = true -> is_Some (state_machine x) ->
     m ∈ runnable w' /\ m ∈ busy_machines w' ∪ pending_state_change w').
Proof.
  intros Hok Ex Hn. destruct (setNeedsCheck_ok tk m w x Hok Ex Hn) as (w' & Hr & Hc & _).
  exists w'. split; [done |]. split; [done |]. intros En [sm Esm].
  apply (setNeedsCheck_queues tk m w x sm w'); try done. split; [by apply (co_counts _ Hok m) | done].
Qed.

(** A trigger fires once: firing a trigger that is owned by a machine marks it
    seen and queues its owner for a check; firing it again changes nothing. *)
Theorem fire_once w t z m x : checks_ok w -> triggers w !! t = Some z -> seen z = false ->
  t_owner z = Some (OwnMachine m) -> machines w !! m = Some x -> is_enabled x = true ->
  is_Some (state_machine x) -> needs_check x < INT_MAX ->
  exists w', fire tk t w = Ok (tt, w') /\ triggers w' = <[t := set_seen true z]> (triggers w) /\
    m ∈ runnable w' /\ fire tk t w' = Ok (tt, w').
Proof.
  intros Hok Ez Hs Ho Ex En [sm Esm] Hn.
  unfold fire at 1. heap_step. rewrite Hs, Ho. heap_step. cbn [triggerFired]. heap_step.
  set (w1 := with_triggers (<[t := set_seen true z]> (triggers w)) w).
  set (w2 := if matches "publish" (set_seen true z)
             then with_effects (effects w ++ [SendPropertyChanges m]) w1 else w1).
  rewrite (sbind_run _ _ _ tt w2) by (subst w2; by destruct (matches _ _)).
  assert (machines w2 = machines w /\ triggers w2 = triggers w1) as [Em Et] by (subst w2; by destruct (matches _ _)).
  assert (checks_ok w2) as Hok2 by (destruct Hok; split; rewrite Em; eauto).
  destruct (setNeedsCheck_ok tk m w2 x) as (w' & Hr & Hc & _); [done | by rewrite Em | done |].
  exists w'. split; [done |]. rewrite (ck_triggers _ _ Hc), Et. split; [done |]. split.
  - apply (setNeedsCheck_queues tk m w2 x sm w'); try done; [by rewrite Em |].
    split; [by apply (co_counts _ Hok m) | done].
  - unfold fire. erewrite (sbind_run (get_trigger t)) by (apply get_trigger_run;
      rewrite (ck_triggers _ _ Hc), Et; apply lookup_insert_eq). done.
Qed.
End Triggers.

(** ** Concrete instances *)
Definition no_virtuals : Virtuals :=
  {| run := fun _ => sret Complete; checkComplete := fun _ => sret Running; destructor := fun _ => sret tt |}.
Definition some_tokens : ClockworkToken :=
  mkClockworkToken 1 2 3 4 5 6 7 8 9 10 11 12 13 14 15 16 17 18 19 20 21.
Definition idle_action (r : Z) : Action :=
  mkAction r 1%positive "" New Running None None false false None None (BOther 0).
Definition running_action : Action := set_status Running (set_started true (idle_action 2)).
(** Two lists that depend on each other. *)
Definition list_machine (deps stack : list ptr) (mail : list Package) : Machine :=
  mkMachine "m" true true 0 (Some (mkClass (tokLIST some_tokens) true)) 0 stack mail false 0 deps 0 None.
Definition a_package : Package := mkPackage (Some 2%positive) (Some 1%positive) (mkMessage SIMPLEMSG 1 "go" None) false.
Definition two_lists : World :=
  mkWorld {[ 1%positive := mkTrigger "t" false (Some (OwnMachine 2%positive)) 1 true [] ]}
    {[ 1%positive := running_action; 2%positive := idle_action 2 ]}
    {[ 1%positive := list_machine [2%positive] [1%positive] [];
       2%positive := list_machine [1%positive] [] [a_package; a_package] ]} ∅ ∅ ∅ 0 0 [].

Lemma two_lists_ok : checks_ok two_lists.
Proof.
  split; unfold two_lists; cbn [machines].
  - intros m x [[<- <-] | [_ [<- <-]%lookup_singleton_Some]]%lookup_insert_Some; cbn; lia.
  - intros m x d [[<- <-] | [_ [<- <-]%lookup_singleton_Some]]%lookup_insert_Some;
      cbn; intros ->%list_elem_of_singleton; by eexists.
Qed.
Lemma two_lists_bounded : bounded (INT_MAX - 2) two_lists.
Proof. unfold bounded, two_lists, INT_MAX. cbn [machines]. apply map_Forall_insert_2; [cbn; lia |]. apply map_Forall_singleton. cbn. lia. Qed.

Lemma needs_check_terminates_w : exists w', setNeedsCheck some_tokens 1%positive two_lists = Ok (tt, w') /\
  1%positive ∈ runnable w'.
Proof.
  destruct (needs_check_terminates some_tokens two_lists 1%positive (list_machine [2%positive] [1%positive] []) two_lists_ok)
    as (w' & Hr & _ & Hq); [reflexivity | cbn; unfold INT_MAX; lia |].
  exists w'. split; [exact Hr |]. apply Hq; [reflexivity | by eexists].
Defined.

Lemma fire_once_w : exists w', fire some_tokens 1%positive two_lists = Ok (tt, w') /\
  fire some_tokens 1%positive w' = Ok (tt, w').
Proof.
  destruct (fire_once some_tokens two_lists 1%positive (mkTrigger "t" false (Some (OwnMachine 2%positive)) 1 true []) 2%positive
    (list_machine [1%positive] [] [a_package; a_package]) two_lists_ok)
    as (w' & H1 & _ & _ & H2); [reflexivity .. | by eexists | cbn; unfold INT_MAX; lia |].
  exists w'. split; [exact H1 | exact H2].
Defined.

(** An action with two entries above one that is suspended. *)
Definition nested : World :=
  mkWorld ∅
    {[ 1%positive := mkAction 2 1%positive "" Suspended Running (Some 2%positive) None true false None None (BOther 0);
       2%positive := set_arefs 3 running_action ]}
    {[ 1%positive := list_machine [2%positive] [1%positive; 2%positive; 2%positive] []; 2%positive := list_machine [1%positive] [] [] ]}
    ∅ ∅ ∅ 0 0 [].
Lemma nested_ok : checks_ok nested /\ bounded (INT_MAX - 2) nested.
Proof.
  split; [split; unfold nested; cbn [machines] |].
  - intros m x [[<- <-] | [_ [<- <-]%lookup_singleton_Some]]%lookup_insert_Some; cbn; lia.
  - intros m x d [[<- <-] | [_ [<- <-]%lookup_singleton_Some]]%lookup_insert_Some;
      cbn; intros ->%list_elem_of_singleton; by eexists.
  - unfold bounded, nested, INT_MAX. cbn [machines]. apply map_Forall_insert_2; [cbn; lia |]. apply map_Forall_singleton. cbn. lia.
Qed.
Lemma stop_spec_w : exists w' x', @stop some_tokens no_virtuals 2%positive 1%positive nested = Ok (tt, w') /\
  machines w' !! 1%positive = Some x' /\ active_actions x' = [1%positive] /\
  (status <$> actions w' !! 1%positive) = Some Running /\ (a_refs <$> actions w' !! 2%positive) = Some 1.
Proof.
  destruct (@stop_spec some_tokens no_virtuals nested 1%positive (list_machine [2%positive] [1%positive; 2%positive; 2%positive] [])
    2%positive (set_arefs 3 running_action) (proj1 nested_ok) (proj2 nested_ok)) as (w' & x' & Hr & Hm & Hf & _ & _ & Ha & Hb & _);
    [reflexivity | reflexivity | by intros t | reflexivity | |].
  - intros n Hn. vm_compute in Hn. injection Hn as <-. eexists. split; [reflexivity |]. by eexists.
  - exists w', x'. split; [exact Hr |]. split; [exact Hm |]. split; [by destruct Hf as [-> _] |].
    assert (Hne : (1%positive : ptr) <> 2%positive) by done. pose proof (Hb _ Hne) as H1.
    split; [exact (f_equal (fmap status) H1) | exact (f_equal (fmap a_refs) Ha)].
Defined.

Lemma push_stop_restores_w : exists w' x', @push_stop some_tokens no_virtuals 2%positive 1%positive two_lists = Ok (tt, w') /\
  machines w' !! 1%positive = Some x' /\ active_actions x' = [1%positive].
Proof.
  destruct (@push_stop_restores some_tokens no_virtuals two_lists 1%positive (list_machine [2%positive] [1%positive] [])
    2%positive (idle_action 2) 1%positive running_action two_lists_ok two_lists_bounded)
    as (w' & x' & y' & z' & Hr & Hm & Hs & _);
    [reflexivity | reflexivity | cbn; intros Hin; apply list_elem_of_singleton in Hin; done
    | reflexivity | reflexivity | cbn; lia | by intros t | reflexivity | by eexists | done |].
  exists w', x'. split; [exact Hr |]. split; [exact Hm | exact Hs].
Defined.

Lemma idle_takes_mail_w : exists w' x', @idle some_tokens no_virtuals 0 2%positive two_lists = Ok (Some NextAction, w') /\
  machines w' !! 2%positive = Some x' /\ mail_queue x' = [] /\ has_work x' = true.
Proof.
  destruct (@idle_takes_mail some_tokens no_virtuals two_lists 2%positive
    (list_machine [1%positive] [] [a_package; a_package]) (mkClass (tokLIST some_tokens) true) 0)
    as (w' & x' & Hr & Hm & Hq & _ & Hw & _); [reflexivity .. |].
  exists w', x'. split; [exact Hr |]. split; [exact Hm |]. split; [exact Hq | exact Hw].
Defined.

Lemma clearAllActions_releases_w : exists w' x', @clearAllActions no_virtuals 1%positive two_lists = Ok (tt, w') /\
  machines w' !! 1%positive = Some x' /\ active_actions x' = [] /\
  actions w' !! 1%positive = Some (set_arefs 1 running_action).
Proof.
  destruct (@clearAllActions_releases no_virtuals (fun _ _ => eq_refl) two_lists 1%positive
    (list_machine [2%positive] [1%positive] [])) as (w' & Hr & Hm & Hb); [reflexivity | |].
  - intros a Ha. apply list_elem_of_singleton in Ha as ->. exists running_action. split; [reflexivity |]. split; [reflexivity |].
    vm_compute. discriminate.
  - eexists w', _. split; [exact Hr |]. split; [exact Hm |]. split; [reflexivity |]. rewrite Hb. reflexivity.
Defined.
