(* ===== verification/Expression.v ===== *)
(** Predicates (Expression.h, Expression.cpp): the expressions of conditions. A
    predicate is resolved against the scope of a machine and flattened onto a
    stack ([prep]), and the stack is evaluated ([eval_stack]). *)
From S2P Require Import Prelude Cnum Tokeniser Value ValueOps SymbolTable Message.
Open Scope Z_scope.

(** ** Data *)
Inductive PredicateOperator :=
| opNone | opGE | opGT | opLE | opLT | opEQ | opNE | opAND | opOR | opNOT | opUnaryMinus
| opPlus | opMinus | opTimes | opDivide | opMod | opAssign | opMatch | opBitAnd | opBitOr
| opBitXOr | opNegate | opAny | opAll | opCount | opIncludes | opInteger | opFloat
| opAbsoluteValue | opString.
#[export] Instance PredicateOperator_eq_dec : EqDecision PredicateOperator.
Proof. solve_decision. Defined.

(** The text of an operator; the case of [opString] falls through to [opAny]. *)
Definition op_text (o : PredicateOperator) : string :=
  match o with
  | opNone => "None" | opGE => ">=" | opGT => ">" | opLE => "<=" | opLT => "<" | opEQ => "=="
  | opNE => "!=" | opAND => "AND" | opOR => "OR" | opNOT => "NOT" | opUnaryMinus => "-"
  | opPlus => "+" | opMinus => "-" | opTimes => "*" | opDivide => "/" | opAbsoluteValue => "ABS"
  | opMod => "%" | opAssign => ":=" | opMatch => "~" | opBitAnd => "&" | opBitOr => "|"
  | opNegate => "~" | opBitXOr => "^" | opInteger => "AS INTEGER" | opFloat => "AS FLOAT"
  | opString => "ANY" | opAny => "ANY" | opAll => "ALL" | opCount => "COUNT"
  | opIncludes => "INCLUDES"
  end.
Definition op_toC (o : PredicateOperator) : string :=
  match o with opAND => "&&" | opOR => "||" | opNOT => "!" | opAssign => "=" | _ => op_text o end.

(** Where a cached pointer to a value points: the predicate's own entry, the
    constants of [SymbolTable], the state or value of a machine, or a property
    found by the machine. *)
Inductive VRef := ROwn | RTrue | RFalse | RCurrentState | RCurrentValue (m : ptr) | RProp (p : ptr).

(** [left_p] and [right_p] may be null. [dyn_value] is the machine value made for
    a comparison of states; it is kept for display. *)
Inductive Predicate := mkPred {
  left_p : option Predicate;
  op : PredicateOperator;
  right_p : option Predicate;
  entry : Value;
  p_mi : option ptr;
  p_dyn : option (ptr * string);
  cached_entry : option VRef;
  last_calculation : option VRef;
  priority : Z;
  lookup_error : bool;
  needs_reevaluation : bool
}.

(** ** Constructors *)
Definition default_priority (v : Value) : Z :=
  if Kind_eqb (kind v) t_symbol && bool_decide (sValue v = "DEFAULT") then 1 else 0.
Definition Predicate_value (v : Value) : Predicate :=
  mkPred None opNone None v None None None None (default_priority v) false true.
Definition Predicate_node (l : option Predicate) (o : PredicateOperator) (r : option Predicate) : Predicate :=
  mkPred l o r Value_empty None None None None 0 false true.

(** The copy constructor: pointers into the original are not kept. The clone of a
    dynamic entry is a new object of the same class. *)
Fixpoint Predicate_copy (p : Predicate) : Predicate :=
  match p with
  | mkPred l o r e _ dv _ _ prio _ _ =>
      mkPred (match l with Some q => Some (Predicate_copy q) | None => None end) o
        (match r with Some q => Some (Predicate_copy q) | None => None end)
        (assign Value_empty e) None dv None None prio false true
  end.

(** ** What a predicate asks of the machine it is evaluated in *)
Class Scope := {
  scope_lookup : Value -> option ptr;
  scope_hasState : option ptr -> string -> bool;
  scope_resolve : string -> ptr;
  property_value : ptr -> Value;
  current_state : Value;
  current_value : ptr -> Value;
  regex_matches : string -> string -> bool
}.

Definition Value_true : Value := Value_bool true.
Definition Value_false : Value := Value_bool false.

Section Resolve.
Context `{!Scope} `{!DynEnv}.

Definition deref (own : Value) (r : VRef) : Value :=
  match r with
  | ROwn => own
  | RTrue => Value_true
  | RFalse => Value_false
  | RCurrentState => current_state
  | RCurrentValue m => current_value m
  | RProp p => property_value p
  end.

(** [resolveCacheMiss]: the pointer found, and the new [cached_entry]; a null
    pointer is [None]. *)
Definition resolveCacheMiss (e : Value) (mi : option ptr) (left : bool) (cached : option VRef)
    : res (option VRef * option VRef) :=
  if Kind_eqb (kind e) t_symbol then
    match mi with
    | Some found =>
        null ← value_eq (current_value found) Null;
        if null : bool then Ok (None, None)
        else Ok (Some (RCurrentValue found), Some (RCurrentValue found))
    | None =>
        let s := sValue e in
        let r := if left && bool_decide (s = "DEFAULT") then RTrue
                 else if bool_decide (s = "SELF") then RCurrentState
                 else if bool_decide (s = "TRUE") then RTrue
                 else if bool_decide (s = "FALSE") then RFalse
                 else if scope_hasState None s then ROwn
                 else let q := scope_resolve s in
                      if isNull (property_value q) then ROwn else RProp q in
        Ok (Some r, Some r)
    end
  else Ok (Some ROwn, cached).

(** [resolve]: the cache is flushed first when [reevaluate] is set. The results
    are the pointer, the cache and the machine value. *)
Definition resolve (p_cached : option VRef) (dv : option (ptr * string)) (e : Value) (mi : option ptr)
    (left reevaluate : bool) : res (option VRef * option VRef * option (ptr * string)) :=
  let cached := if reevaluate then None else p_cached in
  let dv' := if reevaluate then None else dv in
  match cached with
  | Some r => Ok (Some r, Some r, dv')
  | None => '(r, c) ← resolveCacheMiss e mi left None; Ok (r, c, dv')
  end.

(** ** Flattening *)
Inductive ExprNode := NVal (v : Value) | NOp (o : PredicateOperator).

(** A comparison of two symbols of which one names a machine and the other one
    of its states: the new entry and machine value of the two operands. *)
Definition is_leaf_op (p : Predicate) : bool := bool_decide (op p = opNone).
Definition state_comparison (l r : Predicate) (o : PredicateOperator)
    : res (Value * option (ptr * string) * (Value * option (ptr * string))) :=
  let same := (entry l, p_dyn l, (entry r, p_dyn r)) in
  if is_leaf_op l && is_leaf_op r && (bool_decide (o = opEQ) || bool_decide (o = opNE))
     && Kind_eqb (kind (entry l)) t_symbol && Kind_eqb (kind (entry r)) t_symbol
  then match scope_lookup (entry l), scope_lookup (entry r) with
       | Some lhm, None =>
           if scope_hasState (Some lhm) (sValue (entry r)) then
             _ ← assert (bool_decide (p_dyn l = None));
             Ok (entry l, Some (lhm, sValue (entry l)), (set_kind t_string (entry r), p_dyn r))
           else Ok same
       | None, Some rhm =>
           if scope_hasState (Some rhm) (sValue (entry l)) then
             _ ← assert (bool_decide (p_dyn l = None));
             Ok (set_kind t_string (entry l), p_dyn l, (entry r, Some (rhm, sValue (entry r))))
           else Ok same
       | _, _ => Ok same
       end
  else Ok same.

Definition is_unary (o : PredicateOperator) : bool :=
  match o with opNOT | opInteger | opFloat | opString => true | _ => false end.

(** [prep]: what is pushed (top of the stack first) and the predicate with its
    caches updated. [e] and [dv] stand for the entry and machine value of the
    node, which the comparison above it may just have changed. *)
Fixpoint prep_node (p : Predicate) (e : Value) (dv : option (ptr * string)) (left reevaluate : bool)
    {struct p} : res (list ExprNode * Predicate) :=
  match p with
  | mkPred l o r _ mi _ cached last prio err need =>
      match l, r with
      | Some lp, Some rp =>
          '(el, dl, (er, dr)) ← state_comparison lp rp o;
          '(cl, l') ← prep_node lp el dl true reevaluate;
          '(cr, r') ← prep_node rp er dr false reevaluate;
          Ok (NOp o :: cr ++ cl, mkPred (Some l') o (Some r') e mi dv cached last prio err need)
      | Some _, None => Undef
      | None, _ =>
          if is_unary o then
            match r with
            | Some rp =>
                '(cr, r') ← prep_node rp (entry rp) (p_dyn rp) false reevaluate;
                Ok (NOp o :: cr ++ [NVal Value_true],
                    mkPred l o (Some r') e mi dv cached last prio err need)
            | None => Undef
            end
          else
            '(ptr, c, dv') ← resolve cached dv e mi left reevaluate;
            result ← rd ptr;
            null ← value_eq (deref e result) Null;
            let result' := if null : bool then ROwn else result in
            let err' := match (if reevaluate then None else cached) with Some _ => err | None => false end in
            Ok ([NVal (deref e result')],
                mkPred l o r e mi dv' (Some result') (Some result') prio err' false)
      end
  end.
Definition prep (p : Predicate) (left reevaluate : bool) : res (list ExprNode * Predicate) :=
  prep_node p (entry p) (p_dyn p) left reevaluate.
End Resolve.

(** ** Evaluation *)
Section Eval.
Context `{!Scope} `{!DynEnv}.
Local Open Scope sm_scope.

(** The value of a dynamic value after it has been recalculated. *)
Definition recalculated (v : Value) : res Value :=
  if Kind_eqb (kind v) t_dynamic then p ← rd (dyn_value v); Ok (dyn_call p) else Ok v.
(** [Value lhs; lhs = v]. *)
Definition operand (v : Value) : Value := assign Value_empty v.

Definition bool_result (r : res bool) : SM Tokeniser Value :=
  let? b := r in sret (Value_bool b).

(** The [switch] of [eval_stack]; [a] and [b] are the operands before they were
    copied to [lhs] and [rhs]. *)
Definition apply_op (o : PredicateOperator) (a b lhs rhs : Value) : SM Tokeniser Value :=
  match o with
  | opGE => bool_result (value_ge lhs rhs)
  | opGT => bool_result (value_gt lhs rhs)
  | opLE => bool_result (value_le lhs rhs)
  | opLT => bool_result (value_lt lhs rhs)
  | opEQ => bool_result (value_eq lhs rhs)
  | opNE => bool_result (value_ne lhs rhs)
  | opAND => bool_result (value_and lhs rhs)
  | opOR => bool_result (value_or lhs rhs)
  | opNOT => bool_result (value_not rhs)
  | opUnaryMinus => slift (value_neg rhs)
  | opPlus => value_add lhs rhs
  | opMinus => value_sub lhs rhs
  | opTimes => value_mul lhs rhs
  | opDivide => value_div lhs rhs
  | opAbsoluteValue =>
      let? neg := value_lt rhs (Value_int 0) in
      if neg : bool then slift (value_neg rhs) else sret rhs
  | opMod => value_mod lhs rhs
  | opBitAnd => and_assign lhs rhs
  | opBitOr => or_assign lhs rhs
  | opNegate => slift (value_compl rhs)
  | opBitXOr => xor_assign lhs rhs
  | opInteger =>
      let? r := asInteger rhs None in
      match r with
      | (true, x) => let? i := rd x in sret (Value_long i)
      | (false, _) => sret (Value_int 0)
      end
  | opFloat => let? x := toFloat rhs in sret (Value_double x)
  | opString => let? s := asString rhs in Value_str s t_string
  | opAssign => sret rhs
  | opMatch => let? s := asString a in let? t := asString b in sret (Value_bool (regex_matches s t))
  | opAny | opCount | opAll | opIncludes => sret a
  | opNone => sret (Value_int 0)
  end.

(** The early return for a dynamic right operand. *)
Definition short_circuit (o : PredicateOperator) (b rhs : Value) : res bool :=
  if Kind_eqb (kind b) t_dynamic && Kind_eqb (kind rhs) t_bool then
    match o with
    | opAND => x ← rd (bValue rhs); Ok (negb x)
    | opOR => x ← rd (bValue rhs); Ok x
    | _ => Ok false
    end
  else Ok false.

(** [eval_stack]: the value and the rest of the stack. Reading past the end is
    undefined; every call reads at least one node, so the length of the stack
    bounds the depth. *)
Fixpoint eval_stack (fuel : nat) (stack : list ExprNode) : SM Tokeniser (Value * list ExprNode) :=
  match fuel, stack with
  | S fuel', NVal v :: rest => let? r := recalculated v in sret (r, rest)
  | S fuel', NOp o :: rest =>
      let! rb := eval_stack fuel' rest in
      let b := fst rb in
      let? b' := recalculated b in
      let rhs := operand b' in
      let? stop := short_circuit o b rhs in
      if stop : bool then sret (rhs, snd rb) else
      let! ra := eval_stack fuel' (snd rb) in
      let a := fst ra in
      let? a' := recalculated a in
      let! r := apply_op o a b (operand a') rhs in
      sret (r, snd ra)
  | _, _ => fun _ => Undef
  end.

(** [Evaluator::evaluate] and [Predicate::evaluate]: the stack is rebuilt. *)
Definition evaluate_with (p : Predicate) (reevaluate : bool) : SM Tokeniser (Value * Predicate) :=
  let? r := prep p true reevaluate in
  let! v := eval_stack (length (fst r)) (fst r) in
  sret (fst v, snd r).
Definition Evaluator_evaluate (p : option Predicate) : SM Tokeniser (Value * option Predicate) :=
  match p with
  | None => sret (Null, None)
  | Some q => let! r := evaluate_with q true in sret (fst r, Some (snd r))
  end.
Definition Predicate_evaluate (p : Predicate) : SM Tokeniser (Value * Predicate) :=
  evaluate_with p (needs_reevaluation p).

(** [Condition::operator()]: a condition holds when it has a predicate and its
    result is the boolean true. *)
Definition Condition_holds (p : option Predicate) : SM Tokeniser (bool * option Predicate) :=
  match p with
  | None => sret (false, None)
  | Some q =>
      let! r := evaluate_with q (needs_reevaluation q) in
      let last_result := operand (fst r) in
      if Kind_eqb (kind last_result) t_bool
      then let? b := rd (bValue last_result) in sret (b, Some (snd r))
      else sret (false, Some (snd r))
  end.

(** ** Reference semantics

    The value of a flattened expression as a tree. *)
Inductive Tree := TVal (v : Value) | TOp (o : PredicateOperator) (l r : Tree).
Fixpoint flatten (t : Tree) : list ExprNode :=
  match t with TVal v => [NVal v] | TOp o l r => NOp o :: flatten r ++ flatten l end.
(** Right operand first, then the left one, then the operator. *)
Fixpoint tree_value (t : Tree) : SM Tokeniser Value :=
  match t with
  | TVal v => slift (recalculated v)
  | TOp o l r =>
      let! b := tree_value r in
      let! a := tree_value l in
      apply_op o a b (operand a) (operand b)
  end.

(** The tree a predicate stands for once its leaves are resolved. *)
Fixpoint tree_of (p : Predicate) (e : Value) (dv : option (ptr * string)) (left reevaluate : bool)
    {struct p} : res Tree :=
  match p with
  | mkPred l o r _ mi _ cached _ _ _ _ =>
      match l, r with
      | Some lp, Some rp =>
          '(el, dl, (er, dr)) ← state_comparison lp rp o;
          tl ← tree_of lp el dl true reevaluate;
          tr ← tree_of rp er dr false reevaluate;
          Ok (TOp o tl tr)
      | Some _, None => Undef
      | None, _ =>
          if is_unary o then
            match r with
            | Some rp => tr ← tree_of rp (entry rp) (p_dyn rp) false reevaluate;
                         Ok (TOp o (TVal Value_true) tr)
            | None => Undef
            end
          else
            '(ptr, _, _) ← resolve cached dv e mi left reevaluate;
            result ← rd ptr;
            null ← value_eq (deref e result) Null;
            Ok (TVal (deref e (if null : bool then ROwn else result)))
      end
  end.
End Eval.

(** ** Timer clauses *)

(** [stringEndsWith]. *)
Definition stringEndsWith (s subs : string) : bool :=
  let n1 := String.length s in let n2 := String.length subs in
  (n2 <=? n1)%nat && bool_decide (String.substring (n1 - n2) n2 s = subs).

(** What scheduling a timer event asks of the machines: the timers (of the target
    for [None]), lookup by name, and names. *)
Class Timers := {
  timer_value : option ptr -> res Z;
  lookup_name : string -> option ptr;
  target_name : string;
  machine_name : ptr -> string
}.

Section TimerClauses.
Variable tk : ClockworkToken.

Definition is_TIMER (e : Value) : res bool :=
  if Kind_eqb (kind e) t_symbol then id ← rd (token_id e); Ok (id =? tokTIMER tk) else Ok false.
Definition is_machine_TIMER (e : Value) : bool :=
  Kind_eqb (kind e) t_symbol && stringEndsWith (sValue e) ".TIMER".
Definition is_timer (e : Value) : res bool :=
  b ← is_TIMER e; Ok (b || is_machine_TIMER e).

Definition is_leaf (p : Predicate) : bool := match left_p p with None => true | Some _ => false end.

(** [usesTimer]: the flag and the out parameter. *)
Fixpoint usesTimer (p : Predicate) (timer_val : Value) : res (bool * Value) :=
  match p with
  | mkPred (Some lp) _ r _ _ _ _ _ _ _ _ =>
      if is_leaf lp then
        b ← is_timer (entry lp);
        if b : bool then
          match r with Some rp => Ok (true, assign timer_val (entry rp)) | None => Undef end
        else Ok (false, timer_val)
      else
        '(b, tv) ← usesTimer lp timer_val;
        if b : bool then Ok (true, tv)
        else match r with Some rp => usesTimer rp tv | None => Undef end
  | mkPred None _ _ e _ _ _ _ _ _ _ => b ← is_TIMER e; Ok (b, timer_val)
  end.

Fixpoint findTimerClauses (p : Predicate) : res (list Predicate) :=
  match p with
  | mkPred l _ r _ _ _ _ _ _ _ _ =>
      cl ← match l with
           | None => Ok []
           | Some lp => if is_leaf lp then b ← is_timer (entry lp); Ok (if b : bool then [p] else [])
                        else findTimerClauses lp
           end;
      cr ← match r with
           | None => Ok []
           | Some rp => if is_leaf rp then b ← is_timer (entry rp); Ok (if b : bool then [p] else [])
                        else findTimerClauses rp
           end;
      Ok (cl ++ cr)
  end.

Definition getTimerValue (p : Predicate) : res Value :=
  match left_p p with
  | None => Undef
  | Some lp =>
      b ← is_timer (entry lp);
      if b : bool then match right_p p with Some rp => Ok (entry rp) | None => Undef end
      else match right_p p with
           | None => Undef
           | Some rp => c ← is_timer (entry rp); Ok (if c : bool then entry lp else Null)
           end
  end.

(** *** [scheduleTimerEvents] *)
Context `{!Scope} `{!DynEnv} `{!Timers}.
Local Open Scope sm_scope.

Definition MIN_TIMER : Z := -100000.

(** The time of the event for a clause [TIMER op n] or [n op TIMER]. *)
Definition event_time (o : PredicateOperator) (n : Z) : res Z :=
  match o with opGT | opLE => long_of (n + 1) | _ => Ok n end.

(** A timer clause: the other side is evaluated. The results are the scheduled
    time, the current time and the evaluated side. A side that is not a number
    leaves the current time at 0. *)
Definition timer_clause (o : PredicateOperator) (side : option Predicate) (timed : option ptr)
    : SM Tokeniser (Z * Z * option Predicate) :=
  let! r := Evaluator_evaluate side in
  let? i := asInteger (fst r) (Some MIN_TIMER) in
  let? n := rd (snd i) in
  if fst i then
    let? now := timer_value timed in
    let? t := event_time o n in
    sret (t, now, snd r)
  else sret (n, 0, snd r).

(** The machine named before the first dot. *)
Fixpoint before_dot (s : string) : string :=
  match s with
  | EmptyString => EmptyString
  | String c s' => if (code c =? 46) then EmptyString else String c (before_dot s')
  end.

(** The end of the method: keep the earlier of two events. The flag says that the
    target is to be checked again soon. *)
Definition earlier (scheduled now : Z) (timed : option ptr) (earliest : option (Z * string))
    : res (option (Z * string) * bool) :=
  if scheduled =? MIN_TIMER then Ok (earliest, false) else
  d ← long_of (scheduled - now);
  t ← long_of (d * 1000);
  if 0 <? t then
    let name := "Timer " +:+ target_name +:+
                match timed with Some m => " " +:+ machine_name m | None => "" end in
    Ok (match earliest with
        | None => Some (t, name)
        | Some (d0, n0) => if t <? d0 then Some (t, name) else Some (d0, n0)
        end, false)
  else Ok (earliest, (-2000) <=? t).

(** Which side of a node holds a timer. *)
Inductive ClauseKind := LeftTimer | LeftMachineTimer | RightTimer | RightMachineTimer | NoTimer.
Definition clause_kind (l r : option Predicate) : res ClauseKind :=
  lt ← match l with Some lp => is_TIMER (entry lp) | None => Ok false end;
  if lt && bool_decide (is_Some r) then Ok LeftTimer else
  if match l with Some lp => is_machine_TIMER (entry lp) | None => false end then Ok LeftMachineTimer else
  rt ← match r with Some rp => is_TIMER (entry rp) | None => Ok false end;
  if rt && bool_decide (is_Some l) then Ok RightTimer else
  if match l, r with Some _, Some rp => is_machine_TIMER (entry rp) | _, _ => false end
  then Ok RightMachineTimer else Ok NoTimer.

Definition entry_of (p : option Predicate) : Value := match p with Some q => entry q | None => Value_empty end.
Definition set_sides (l r : option Predicate) (p : Predicate) : Predicate :=
  mkPred l (op p) r (entry p) (p_mi p) (p_dyn p) (cached_entry p) (last_calculation p) (priority p)
    (lookup_error p) (needs_reevaluation p).

(** The clause of the node itself: times, machine, and the two sides after the
    evaluation. *)
Definition node_clause (k : ClauseKind) (p : Predicate)
    : SM Tokeniser (Z * Z * option ptr * option Predicate * option Predicate) :=
  let l := left_p p in let r := right_p p in
  match k with
  | LeftTimer => let! c := timer_clause (op p) r None in sret (fst c, None, l, snd c)
  | LeftMachineTimer =>
      match lookup_name (before_dot (sValue (entry_of l))) with
      | Some m => let! c := timer_clause (op p) r (Some m) in sret (fst c, Some m, l, snd c)
      | None => sret (MIN_TIMER, 0, None, l, r)
      end
  | RightTimer => let! c := timer_clause (op p) l None in sret (fst c, None, snd c, r)
  | RightMachineTimer =>
      match lookup_name (before_dot (sValue (entry_of r))) with
      | Some m => let! c := timer_clause (op p) l (Some m) in sret (fst c, Some m, snd c, r)
      | None => sret (MIN_TIMER, 0, None, l, r)
      end
  | NoTimer => sret (MIN_TIMER, 0, None, l, r)
  end.

(** The result is the earliest event, the number of calls of [setNeedsCheck] on
    the target, and the predicate. *)
Fixpoint scheduleTimerEvents (depth : nat) (p : Predicate) (earliest : option (Z * string))
    : SM Tokeniser (option (Z * string) * nat * Predicate) :=
  match depth with
  | O => fun _ => Undef
  | S depth' =>
      let? k := clause_kind (left_p p) (right_p p) in
      let! c := node_clause k p in
      match c with
      | (scheduled, now, timed, l, r) =>
          let! el := match k, l with
                     | NoTimer, Some lp =>
                         let! x := scheduleTimerEvents depth' lp earliest in
                         sret (fst x, Some (snd x))
                     | _, _ => sret ((earliest, O), l)
                     end in
          let! er := match r with
                     | Some rp =>
                         let! x := scheduleTimerEvents depth' rp (fst (fst el)) in
                         sret (fst x, Some (snd x))
                     | None => sret ((fst (fst el), O), r)
                     end in
          let? e := earlier scheduled now timed (fst (fst er)) in
          sret (fst e, (snd (fst el) + snd (fst er) + if snd e then 1 else 0)%nat,
                set_sides (snd el) (snd er) p)
      end
  end.
Fixpoint height (p : Predicate) : nat :=
  match p with
  | mkPred l _ r _ _ _ _ _ _ _ _ =>
      S (Nat.max (match l with Some lp => height lp | None => 0 end)
                 (match r with Some rp => height rp | None => 0 end))
  end.
End TimerClauses.
