(* ===== verification/ExpressionProps.v ===== *)
(** Properties of predicates: the stack evaluator computes the value of the
    expression, and the timer clauses that are scheduled. *)
From S2P Require Import Prelude Cnum Tokeniser Value ValueOps SymbolTable Message Expression.
Open Scope Z_scope.

(** ** Results of operators are never dynamic *)
Definition flat (v : Value) : Prop := kind v <> t_dynamic.

Section Flat.
Context `{!DynEnv}.
Definition keeps_flat (f : Value -> Value -> SM Tokeniser Value) : Prop :=
  forall a b t r t', flat a -> f a b t = Ok (r, t') -> flat r.

Lemma Value_str_flat s k t r t' : k <> t_dynamic -> Value_str s k t = Ok (r, t') -> flat r.
Proof. unfold Value_str, flat. intros Hk Hr. repeat case_match; res_inv; repeat case_match; cbn; try done. Qed.

Lemma assign_flat v r : flat r -> flat (assign v r).
Proof. unfold flat, assign. destruct (kind r) eqn:E; cbn; congruence. Qed.

Ltac flat_cases :=
  repeat (case_match; try done); res_inv; try done;
  repeat (case_match; res_inv; try done);
  try (match goal with Hv : Value_str _ _ _ = Ok _ |- _ => apply Value_str_flat in Hv end);
  unfold flat in *; cbn in *; congruence.

Lemma Sum_flat : keeps_flat Sum.
Proof. intros a b t r t' Ha Hr. unfold Sum in Hr. flat_cases. Qed.
Lemma Minus_flat : keeps_flat Minus.
Proof. intros a b t r t' Ha Hr. unfold Minus in Hr. flat_cases. Qed.
Lemma Multiply_flat : keeps_flat Multiply.
Proof. intros a b t r t' Ha Hr. unfold Multiply in Hr. flat_cases. Qed.
Lemma Divide_flat : keeps_flat Divide.
Proof. intros a b t r t' Ha Hr. unfold Divide in Hr. flat_cases. Qed.
Lemma Modulus_flat : keeps_flat Modulus.
Proof. intros a b t r t' Ha Hr. unfold Modulus in Hr. flat_cases. Qed.
Lemma bit_op_flat f : keeps_flat (bit_op f).
Proof. intros a b t r t' Ha Hr. unfold bit_op in Hr. flat_cases. Qed.

Lemma TypeFix_flat f : keeps_flat f -> keeps_flat (TypeFix f).
Proof.
  intros Hf a b t r t' Ha Hr. unfold TypeFix in Hr.
  repeat (case_match; try (by eapply Hf)); res_inv; try done; by eapply Hf.
Qed.

Lemma bit_assign_flat f g : keeps_flat (bit_assign f g).
Proof.
  intros a b t r t' Ha Hr. unfold bit_assign in Hr. case_match; res_inv.
  - match goal with Hx : TypeFix _ _ _ _ = _ |- _ => apply (TypeFix_flat _ (bit_op_flat f)) in Hx end;
      [by apply assign_flat | done].
  - flat_cases.
Qed.
Ltac assign_case lem :=
  match goal with Hx : TypeFix _ _ _ _ = _ |- _ => apply (TypeFix_flat _ lem) in Hx end;
  [by apply assign_flat | done].
Lemma add_assign_flat : keeps_flat add_assign.
Proof. intros a b t r t' Ha Hr. unfold add_assign in Hr. case_match; res_inv; [assign_case Sum_flat | flat_cases]. Qed.
Lemma sub_assign_flat : keeps_flat sub_assign.
Proof. intros a b t r t' Ha Hr. unfold sub_assign in Hr. case_match; res_inv; [assign_case Minus_flat | flat_cases]. Qed.
Lemma mul_assign_flat : keeps_flat mul_assign.
Proof.
  intros a b t r t' Ha Hr. unfold mul_assign in Hr. case_match; [case_match |]; res_inv;
    [done | assign_case Multiply_flat | flat_cases].
Qed.
Lemma div_assign_flat : keeps_flat div_assign.
Proof. intros a b t r t' Ha Hr. unfold div_assign in Hr. case_match; res_inv; [assign_case Divide_flat | flat_cases]. Qed.
Lemma mod_assign_flat : keeps_flat mod_assign.
Proof. intros a b t r t' Ha Hr. unfold mod_assign in Hr. case_match; res_inv; [assign_case Modulus_flat | flat_cases]. Qed.
Lemma value_neg_flat v r : flat v -> value_neg v = Ok r -> flat r.
Proof. intros Hv Hr. unfold value_neg in Hr. flat_cases. Qed.
Lemma value_compl_flat v r : flat v -> value_compl v = Ok r -> flat r.
Proof. intros Hv Hr. unfold value_compl in Hr. flat_cases. Qed.
End Flat.

(** ** The stack evaluator *)
Section Evaluation.
Context `{!Scope} `{!DynEnv}.
(** Recalculating a dynamic value gives a plain value. *)
Hypothesis flat_results : forall p, flat (dyn_call p).

Lemma recalculated_flat v r : recalculated v = Ok r -> flat r.
Proof.
  unfold recalculated. destruct (Kind_eqb (kind v) t_dynamic) eqn:E; intros Hr; res_inv; [apply flat_results |].
  intros Hk. by rewrite Hk in E.
Qed.
Lemma recalculated_id v : flat v -> recalculated v = Ok v.
Proof. unfold recalculated, flat. destruct (kind v); cbn; congruence. Qed.
Lemma operand_flat v : flat v -> flat (operand v).
Proof. apply assign_flat. Qed.

Lemma apply_op_flat o a b lhs rhs t r t' : flat a -> flat lhs -> flat rhs ->
  apply_op o a b lhs rhs t = Ok (r, t') -> flat r.
Proof.
  intros Ha Hl Hr. destruct o; cbn [apply_op]; unfold bool_result; intros E;
    try (res_inv; done);
    first [ exact (add_assign_flat _ _ _ _ _ Hl E) | exact (sub_assign_flat _ _ _ _ _ Hl E)
          | exact (mul_assign_flat _ _ _ _ _ Hl E) | exact (div_assign_flat _ _ _ _ _ Hl E)
          | exact (mod_assign_flat _ _ _ _ _ Hl E) | exact (bit_assign_flat _ _ _ _ _ _ _ Hl E) | idtac ];
    res_inv; repeat case_match; res_inv; try done;
    try first [by eapply value_neg_flat | by eapply value_compl_flat].
  by apply (Value_str_flat x1 t_string t r t').
Qed.

Lemma tree_value_flat tr t r t' : tree_value tr t = Ok (r, t') -> flat r.
Proof.
  revert t r t'. induction tr as [v | o l IHl r' IHr]; intros t r t' E; cbn in E; res_inv.
  - by eapply recalculated_flat.
  - eapply apply_op_flat; [..|eassumption]; eauto using operand_flat.
Qed.

Lemma short_circuit_flat o b rhs : flat b -> short_circuit o b rhs = Ok false.
Proof. unfold short_circuit, flat. destruct (kind b); cbn; congruence. Qed.

Lemma eval_code tr rest fuel t : (length (flatten tr) <= fuel)%nat ->
  eval_stack fuel (flatten tr ++ rest) t = match tree_value tr t with
                                        | Ok (v, t') => Ok ((v, rest), t')
                                        | Undef => Undef
                                        | Abort => Abort
                                        end.
Proof.
  revert rest fuel t. induction tr as [v | o l IHl r IHr]; intros rest fuel t Hf;
    (destruct fuel as [|fuel]; [cbn in Hf; lia |]); cbn [flatten app] in *.
  - cbn. unfold sbind, slift. by destruct (recalculated v).
  - cbn in Hf. rewrite length_app in Hf. cbn [eval_stack tree_value]. rewrite <- app_assoc.
    unfold sbind, slift. rewrite IHr by lia.
    destruct (tree_value r t) as [[b t1] | |] eqn:Eb; [cbn [fst snd] | done | done].
    pose proof (tree_value_flat _ _ _ _ Eb) as Hb.
    rewrite (recalculated_id b Hb), short_circuit_flat, IHl by (done || lia).
    destruct (tree_value l t1) as [[a t2] | |] eqn:Ea; [cbn [fst snd] | done | done].
    rewrite (recalculated_id a) by (by eapply tree_value_flat).
    by destruct (apply_op o a b (operand a) (operand b) t2) as [[? ?] | |].
Qed.
End Evaluation.

Section Flatten.
Context `{!Scope} `{!DynEnv}.
Lemma prep_code : forall p e dv left re,
  fst <$> prep_node p e dv left re = flatten <$> tree_of p e dv left re.
Proof.
  fix IH 1. intros [[lp|] o [rp|] e0 mi dv0 cached last prio err need] e dv left re; cbn [prep_node tree_of].
  - destruct (state_comparison lp rp o) as [[[el dl] [er dr]] | |]; [cbn | done | done].
    pose proof (IH lp el dl true re) as Hl. pose proof (IH rp er dr false re) as Hr.
    destruct (prep_node lp el dl true re) as [[cl l'] | |], (tree_of lp el dl true re) as [tl | |]; try done.
    destruct (prep_node rp er dr false re) as [[cr r'] | |], (tree_of rp er dr false re) as [tr | |]; try done.
    cbn in *. injection Hl as ->. injection Hr as ->. done.
  - done.
  - destruct (is_unary o).
    + pose proof (IH rp (entry rp) (p_dyn rp) false re) as Hr.
      destruct (prep_node rp _ _ false re) as [[cr r'] | |], (tree_of rp _ _ false re) as [tr | |]; try done.
      cbn in *. by injection Hr as ->.
    + destruct (resolve cached dv e mi left re) as [[[q c] dv'] | |]; [cbn | done | done].
      destruct (rd q) as [result | |]; [cbn | done | done].
      by destruct (value_eq (deref e result) Null).
  - destruct (is_unary o); [done |].
    destruct (resolve cached dv e mi left re) as [[[q c] dv'] | |]; [cbn | done | done].
    destruct (rd q) as [result | |]; [cbn | done | done].
    by destruct (value_eq (deref e result) Null).
Qed.

(** C10: evaluating a predicate with the stack ([prep] flattens it, [eval_stack]
    evaluates the flattened form) gives the value of the expression tree, right
    operands before left ones, and fails exactly when that fails: the stack is
    never read past its end, whatever operators are nested in it. Recalculating a
    dynamic value is assumed to give a plain value, not again a dynamic one; then no
    AND and no OR is cut short ([nested_short_circuit_misreads] is about the others). *)
Theorem evaluate_is_tree_value p re t : (forall q, flat (dyn_call q)) ->
  (fun r => (fst (fst r), snd r)) <$> evaluate_with p re t =
  (tr ← tree_of p (entry p) (p_dyn p) true re; tree_value tr t).
Proof.
  intros Hflat. unfold evaluate_with, prep. pose proof (prep_code p (entry p) (p_dyn p) true re) as Hc.
  unfold sbind at 1, slift at 1.
  destruct (prep_node p (entry p) (p_dyn p) true re) as [[c p'] | |], (tree_of p _ _ true re) as [tr | |]; try done.
  cbn in Hc. injection Hc as ->. cbn [fst snd mbind res_bind].
  pose proof (eval_code Hflat tr [] (length (flatten tr)) t ltac:(lia)) as He. rewrite app_nil_r in He.
  unfold sbind at 1. rewrite He. by destruct (tree_value tr t) as [[v t'] | |].
Qed.
End Flatten.

(** ** Timer events *)
Section Scheduling.
Variable tk : ClockworkToken.
Context `{!Scope} `{!DynEnv} `{!Timers}.

Ltac destruct_pairs := repeat match goal with x : (_ * _)%type |- _ => destruct x end; cbn in *.

(** Evaluating a predicate keeps its shape. *)
Lemma prep_height : forall p e dv left re c p', prep_node p e dv left re = Ok (c, p') -> height p' = height p.
Proof.
  fix IH 1. intros [[lp|] o [rp|] e0 mi dv0 cached last prio err need] e dv left re c p' Hp; cbn [prep_node] in Hp.
  - repeat (res_inv; destruct_pairs). cbn.
    match goal with Hl : prep_node lp _ _ _ _ = _, Hr : prep_node rp _ _ _ _ = _ |- _ =>
      by rewrite (IH lp _ _ _ _ _ _ Hl), (IH rp _ _ _ _ _ _ Hr) end.
  - done.
  - destruct (is_unary o); res_inv.
    + repeat (res_inv; destruct_pairs). cbn.
      match goal with Hr : prep_node rp _ _ _ _ = _ |- _ => by rewrite (IH rp _ _ _ _ _ _ Hr) end.
    + by repeat (res_inv; destruct_pairs).
  - destruct (is_unary o); [done |]. by repeat (res_inv; destruct_pairs).
Qed.

Definition opt_height (p : option Predicate) : nat := match p with Some q => height q | None => O end.
Lemma Evaluator_height p t v p' t' : Evaluator_evaluate p t = Ok ((v, p'), t') -> opt_height p' = opt_height p.
Proof.
  destruct p as [q|]; cbn; intros He; [|unfold sret in He; by simplify_eq]. unfold evaluate_with, prep in He.
  repeat (res_inv; destruct_pairs). by eapply prep_height.
Qed.

Lemma timer_clause_height o side m t s n p' t' :
  timer_clause o side m t = Ok ((s, n, p'), t') -> opt_height p' = opt_height side.
Proof.
  unfold timer_clause. intros Hc. repeat (res_inv; destruct_pairs).
  match goal with He : Evaluator_evaluate _ _ = _ |- _ => apply Evaluator_height in He end.
  by repeat (case_match; res_inv).
Qed.

Lemma node_clause_height k p t s n m l r t' : node_clause k p t = Ok ((s, n, m, l, r), t') ->
  opt_height l = opt_height (left_p p) /\ opt_height r = opt_height (right_p p).
Proof.
  unfold node_clause. intros Hc. repeat case_match; res_inv; try done;
    match goal with He : timer_clause _ _ _ _ = Ok (?c, _) |- _ => destruct c as [[? ?] ?];
      apply timer_clause_height in He end; cbn in *; simplify_eq; done.
Qed.

Lemma height_sides p : height p = S (Nat.max (opt_height (left_p p)) (opt_height (right_p p))).
Proof. by destruct p. Qed.

(** The height of a predicate is enough depth. *)
Lemma schedule_depth depth1 depth2 : forall p earliest t, (height p <= depth1)%nat -> (height p <= depth2)%nat ->
  scheduleTimerEvents tk depth1 p earliest t = scheduleTimerEvents tk depth2 p earliest t.
Proof.
  revert depth2. induction depth1 as [|d1 IH]; intros d2 p earliest t Hd1 Hd2; rewrite height_sides in *; [lia |].
  destruct d2 as [|d2]; [lia |]. cbn [scheduleTimerEvents].
  apply sbind_cong. intros k t0 _. apply sbind_cong. intros [[[[s n] m] l] r] t1 Ec.
  apply node_clause_height in Ec as [Hl Hr]. apply sbind_cong2.
  - destruct k; try done. destruct l as [lp|]; [|done]. cbn [opt_height] in Hl. apply sbind_cong2; [|done].
    apply IH; lia.
  - intros el t2. apply sbind_cong2; [|done]. destruct r as [rp|]; [|done]. cbn [opt_height] in Hr.
    apply sbind_cong2; [|done]. apply IH; lia.
Qed.

(** [e] is an event no later than [e0]. *)
Definition no_later (e e0 : option (Z * string)) : Prop :=
  match e0, e with
  | Some (d0, _), Some (d, _) => d <= d0
  | Some _, None => False
  | None, _ => True
  end.
Definition positive_event (e : option (Z * string)) : Prop :=
  match e with Some (d, _) => 0 < d | None => True end.
Lemma no_later_refl e : no_later e e.
Proof. destruct e as [[d n]|]; cbn; lia. Qed.
Lemma no_later_trans e1 e2 e3 : no_later e1 e2 -> no_later e2 e3 -> no_later e1 e3.
Proof. destruct e1 as [[]|], e2 as [[]|], e3 as [[]|]; cbn; try done; lia. Qed.

Lemma earlier_no_later s n m e e' b : earlier s n m e = Ok (e', b) ->
  no_later e' e /\ (positive_event e -> positive_event e').
Proof.
  unfold earlier. intros He. repeat (case_match; res_inv); try (split; [apply no_later_refl | done]);
    cbn; split; try done; lia.
Qed.

(** Looking for timer events in a predicate never loses the event found so
    far: [scheduleTimerEvents] returns an event that is no later than the one it
    was given (of this or of another rule), and no event with a delay that is not
    positive. *)
Theorem schedule_keeps_earliest depth p earliest t earliest' n p' t' :
  scheduleTimerEvents tk depth p earliest t = Ok ((earliest', n, p'), t') ->
  no_later earliest' earliest /\ (positive_event earliest -> positive_event earliest').
Proof.
  revert p earliest t earliest' n p' t'.
  induction depth as [|d IH]; intros p earliest t earliest' n p' t' Hs; cbn [scheduleTimerEvents] in Hs; [done |].
  apply sbind_Ok in Hs as (k & t0 & _ & Hs). apply sbind_Ok in Hs as ([[[[s now] m] l] r] & t1 & _ & Hs).
  apply sbind_Ok in Hs as ([[e1 n1] l'] & t2 & Hl & Hs). apply sbind_Ok in Hs as ([[e2 n2] r'] & t3 & Hr & Hs).
  assert (no_later e1 earliest /\ (positive_event earliest -> positive_event e1)) as [L1 P1].
  { destruct k; try (res_inv; split; [apply no_later_refl | done]).
    destruct l as [lp|]; [|res_inv; split; [apply no_later_refl | done]]. res_inv. destruct_pairs.
    simplify_eq. by eapply IH. }
  assert (no_later e2 e1 /\ (positive_event e1 -> positive_event e2)) as [L2 P2].
  { destruct r as [rp|]; [|res_inv; split; [apply no_later_refl | done]]. res_inv. destruct_pairs.
    simplify_eq. by eapply IH. }
  apply sbind_Ok in Hs as ([e3 b] & t4 & He & Hs). apply slift_Ok in He as (e4 & He & E4); simplify_eq.
  cbn in He. apply earlier_no_later in He as [L3 P3]. res_inv.
  split; [by eapply no_later_trans, no_later_trans | auto].
Qed.

(** The comparison of the timer with a number, and the number with the timer. *)
Definition compares (o : PredicateOperator) (x y : Z) : bool :=
  match o with opGE => y <=? x | opGT => y <? x | opLE => x <=? y | opLT => x <? y | _ => false end.
Definition is_order (o : PredicateOperator) : Prop := o = opGE \/ o = opGT \/ o = opLE \/ o = opLT.

Definition timer_leaf (e : Value) : Prop := kind e = t_symbol /\ token_id e = Some (tokTIMER tk).
Definition number_leaf (n : Z) : Predicate := Predicate_value (Value_long n).
Definition clause (e : Value) (o : PredicateOperator) (n : Z) : Predicate :=
  Predicate_node (Some (Predicate_value e)) o (Some (number_leaf n)).
Definition reversed_clause (n : Z) (o : PredicateOperator) (e : Value) : Predicate :=
  Predicate_node (Some (number_leaf n)) o (Some (Predicate_value e)).

Lemma eval_number n t : exists p', Evaluator_evaluate (Some (number_leaf n)) t = Ok ((Value_long n, Some p'), t) /\
  left_p p' = None /\ right_p p' = None.
Proof. eexists. split; [reflexivity | done]. Qed.

Lemma is_TIMER_leaf e : timer_leaf e -> is_TIMER tk e = Ok true.
Proof. intros [Hk Ht]. unfold is_TIMER. rewrite Hk, Ht. cbn. by rewrite Z.eqb_refl. Qed.

Lemma schedule_childless d p e t : left_p p = None -> right_p p = None -> exists p',
  scheduleTimerEvents tk (S d) p e t = Ok ((e, O, p'), t).
Proof. intros Hl Hr. eexists. cbn [scheduleTimerEvents]. unfold node_clause. rewrite Hl, Hr. reflexivity. Qed.

Lemma timer_clause_number o n now s t : timer_value None = Ok now -> event_time o n = Ok s ->
  exists p', timer_clause o (Some (number_leaf n)) None t = Ok ((s, now, Some p'), t) /\
    left_p p' = None /\ right_p p' = None.
Proof.
  intros Hnow Hs. destruct (eval_number n t) as (p' & He & Hl). exists p'. split; [|done].
  unfold timer_clause, sbind at 1. rewrite He. unfold asInteger, sbind, slift. cbn [fst snd].
  destruct dyn_depth; cbn; by rewrite Hnow, Hs.
Qed.

(** The event of a clause with a future time. *)
Lemma earlier_future s now m : now < s -> (s - now) * 1000 <= LONG_MAX -> s <> MIN_TIMER ->
  exists name, earlier s now m None = Ok (Some ((s - now) * 1000, name), false).
Proof.
  intros Hlt Hmax Hmin. unfold earlier. rewrite (proj2 (Z.eqb_neq _ _)) by done. unfold LONG_MAX in *.
  rewrite long_of_ok by (unfold LONG_MIN, LONG_MAX; lia). cbn.
  rewrite long_of_ok by (unfold LONG_MIN, LONG_MAX; lia). cbn.
  rewrite (proj2 (Z.ltb_lt _ _)) by lia. by eexists.
Qed.

Lemma schedule_clause e o n now s t : timer_leaf e -> timer_value None = Ok now -> event_time o n = Ok s ->
  now < s -> (s - now) * 1000 <= LONG_MAX -> s <> MIN_TIMER ->
  exists name p', scheduleTimerEvents tk (height (clause e o n)) (clause e o n) None t =
    Ok ((Some ((s - now) * 1000, name), O, p'), t).
Proof.
  intros He Hnow Hs Hlt Hmax Hmin. change (height (clause e o n)) with (S 1).
  destruct (timer_clause_number o n now s t Hnow Hs) as (p' & Hc & Hl & Hr).
  destruct (schedule_childless O p' None t Hl Hr) as (p2 & H2).
  destruct (earlier_future s now None Hlt Hmax Hmin) as (name & Hn).
  remember 1%nat as d eqn:Ed. clear Ed. cbn [scheduleTimerEvents].
  assert (clause_kind tk (left_p (clause e o n)) (right_p (clause e o n)) = Ok LeftTimer) as ->.
  { unfold clause_kind. cbn [left_p right_p clause Predicate_node Predicate_value entry].
    rewrite (is_TIMER_leaf e He). cbn [mbind res_bind andb]. by rewrite bool_decide_true by by eexists. }
  unfold sbind, slift. cbn [node_clause left_p right_p op clause Predicate_node]. unfold sbind. rewrite Hc.
  cbn [sret fst snd]. rewrite H2. cbn [sret fst snd]. rewrite Hn. by do 2 eexists.
Qed.

(** C36: the event scheduled for a clause [TIMER op n] is exactly when the clause
    changes: its truth stays what it is now until the scheduled time, and is the
    opposite from then on. *)
Theorem timer_event_exact e o n now t : is_order o -> timer_leaf e -> timer_value None = Ok now ->
  LONG_MIN < n < LONG_MAX -> now < n -> (n + 1 - now) * 1000 <= LONG_MAX -> n <> MIN_TIMER -> n + 1 <> MIN_TIMER ->
  exists delay name p', scheduleTimerEvents tk (height (clause e o n)) (clause e o n) None t =
    Ok ((Some (delay * 1000, name), O, p'), t) /\
    (forall x, now <= x < now + delay -> compares o x n = compares o now n) /\
    (forall x, now + delay <= x -> compares o x n = negb (compares o now n)).
Proof.
  intros Ho He Hnow Hn Hlt Hmax Hm1 Hm2.
  assert (exists s, event_time o n = Ok s /\ (s = n \/ s = n + 1) /\
    (forall x, now <= x < s -> compares o x n = compares o now n) /\
    (forall x, s <= x -> compares o x n = negb (compares o now n))) as (s & Hs & Hcase & Hbefore & Hafter).
  { unfold event_time. rewrite long_of_ok by lia.
    destruct Ho as [-> | [-> | [-> | ->]]]; eexists; (split; [reflexivity |]); cbn; (split; [lia |]); split; intros x Hx; lia. }
  destruct (schedule_clause e o n now s t He Hnow Hs) as (name & p' & Hr); [lia.. |].
  exists (s - now), name, p'. split; [done |]. split; intros x Hx; [apply Hbefore | apply Hafter]; lia.
Qed.

Lemma schedule_reversed e o n now s t : timer_leaf e -> timer_value None = Ok now -> event_time o n = Ok s ->
  now < s -> (s - now) * 1000 <= LONG_MAX -> s <> MIN_TIMER ->
  exists name p', scheduleTimerEvents tk (height (reversed_clause n o e)) (reversed_clause n o e) None t =
    Ok ((Some ((s - now) * 1000, name), O, p'), t).
Proof.
  intros He Hnow Hs Hlt Hmax Hmin. change (height (reversed_clause n o e)) with (S 1).
  destruct (timer_clause_number o n now s t Hnow Hs) as (p' & Hc & Hl & Hr).
  destruct (schedule_childless O (Predicate_value e) None t eq_refl eq_refl) as (p2 & H2).
  destruct (earlier_future s now None Hlt Hmax Hmin) as (name & Hn).
  remember 1%nat as d eqn:Ed. clear Ed. cbn [scheduleTimerEvents].
  assert (clause_kind tk (left_p (reversed_clause n o e)) (right_p (reversed_clause n o e)) = Ok RightTimer) as ->.
  { unfold clause_kind. cbn [left_p right_p reversed_clause number_leaf Predicate_node Predicate_value entry].
    rewrite (is_TIMER_leaf e He). cbn [is_TIMER Value_long kind Kind_eqb mbind res_bind andb is_machine_TIMER].
    by rewrite (bool_decide_true (is_Some (Some (Predicate_value (Value_long n))))) by by eexists. }
  unfold sbind, slift. cbn [node_clause left_p right_p op reversed_clause Predicate_node]. unfold sbind. rewrite Hc.
  cbn [sret fst snd]. rewrite H2. cbn [sret fst snd]. rewrite Hn. by do 2 eexists.
Qed.

(** A clause written the other way round, [n op TIMER], is scheduled at the
    wrong millisecond: for [>] and [<=] the clause has already changed one
    millisecond before the event, for [>=] and [<] it has not changed yet when the
    event comes. *)
Theorem reversed_timer_event_off_by_one e o n now t : is_order o -> timer_leaf e -> timer_value None = Ok now ->
  LONG_MIN < n < LONG_MAX -> now < n -> (n + 1 - now) * 1000 <= LONG_MAX -> n <> MIN_TIMER -> n + 1 <> MIN_TIMER ->
  exists delay name p', scheduleTimerEvents tk (height (reversed_clause n o e)) (reversed_clause n o e) None t =
    Ok ((Some (delay * 1000, name), O, p'), t) /\
    (o = opGT \/ o = opLE -> compares o n (now + delay - 1) = negb (compares o n now)) /\
    (o = opGE \/ o = opLT -> compares o n (now + delay) = compares o n now).
Proof.
  intros Ho He Hnow Hn Hlt Hmax Hm1 Hm2.
  assert (exists s, event_time o n = Ok s /\ (s = n \/ s = n + 1) /\
    (o = opGT \/ o = opLE -> s = n + 1) /\ (o = opGE \/ o = opLT -> s = n)) as (s & Hs & Hcase & Hlate & Hearly).
  { unfold event_time. rewrite long_of_ok by lia.
    destruct Ho as [-> | [-> | [-> | ->]]]; eexists; (split; [reflexivity |]); (split; [lia |]);
      split; intros [? | ?]; (done || lia). }
  destruct (schedule_reversed e o n now s t He Hnow Hs) as (name & p' & Hr); [lia.. |].
  exists (s - now), name, p'. split; [done |].
  split; [intros Ho'; specialize (Hlate Ho') | intros Ho'; specialize (Hearly Ho')];
    destruct Ho' as [-> | ->]; cbn; lia.
Qed.

(** [usesTimer] does not look at the right operand when the left one is a
    plain value that is not a timer: a timer there ([x AND TIMER >= 10], [10 <=
    TIMER]) is not reported, although [findTimerClauses] does find the clause
    [10 <= TIMER]. *)
Theorem usesTimer_skips_right o l r v : left_p l = None -> is_timer tk (entry l) = Ok false ->
  usesTimer tk (Predicate_node (Some l) o (Some r)) v = Ok (false, v) /\
  (left_p r = None -> is_timer tk (entry r) = Ok true ->
   findTimerClauses tk (Predicate_node (Some l) o (Some r)) = Ok [Predicate_node (Some l) o (Some r)]).
Proof.
  intros Hl Ht. cbn [usesTimer Predicate_node findTimerClauses]. unfold is_leaf. rewrite Hl, Ht. split; [done |].
  intros Hr Htr. by rewrite Hr, Htr.
Qed.
End Scheduling.

Section ShortCircuit.
Context `{!Scope} `{!DynEnv}.

(** The early return of [eval_stack] leaves the left operand's nodes on the
    stack. When the right operand of a nested [AND] is a dynamic value whose
    result is again a dynamic value with the value false, the enclosing operator
    takes the skipped operand for its own left operand: in [l op (a AND d)] it
    computes [a op false] and leaves [l] unread. *)
Theorem nested_short_circuit_misreads o a l d1 d2 v t : flat a ->
  kind (dyn_call d1) = t_dynamic -> dyn_value (dyn_call d1) = Some d2 ->
  kind (dyn_call d2) = t_bool -> bValue (dyn_call d2) = Some false ->
  apply_op o a (operand (dyn_call d2)) (operand a) (operand (operand (dyn_call d2))) t = Ok (v, t) ->
  eval_stack 3 [NOp o; NOp opAND; NVal (Value_dyn (Some d1)); NVal a; NVal l] t = Ok ((v, [NVal l]), t).
Proof.
  intros Ha K1 E1 K2 E2 Hv.
  assert (eval_stack 2 [NOp opAND; NVal (Value_dyn (Some d1)); NVal a; NVal l] t =
    Ok ((operand (dyn_call d2), [NVal a; NVal l]), t)) as Hin.
  { cbn [eval_stack]. unfold sbind, slift. cbn [recalculated kind Value_dyn Kind_eqb dyn_value rd mbind res_bind fst snd sret].
    unfold recalculated. rewrite K1, E1. cbn [Kind_eqb rd mbind res_bind]. unfold short_circuit. rewrite K1.
    unfold operand, assign. rewrite K2. cbn. by rewrite E2. }
  remember 2%nat as d eqn:Ed. cbn [eval_stack]. unfold sbind, slift. rewrite Hin. cbn [fst snd].
  assert (flat (operand (dyn_call d2))) as Hf by (apply assign_flat; unfold flat; congruence).
  rewrite (recalculated_id _ Hf), (short_circuit_flat _ _ _ Hf). subst d. cbn [eval_stack]. unfold sbind, slift.
  rewrite (recalculated_id a Ha). cbn [sret fst snd]. rewrite (recalculated_id a Ha). by rewrite Hv.
Qed.
End ShortCircuit.

(** ** Concrete instances *)
Definition empty_scope : Scope :=
  {| scope_lookup := fun _ => None; scope_hasState := fun _ _ => false; scope_resolve := fun _ => 1%positive;
     property_value := fun _ => Value_empty; current_state := mkString t_string "on" 0;
     current_value := fun _ => Value_empty; regex_matches := fun _ _ => false |}.
Definition some_timers : Timers :=
  {| timer_value := fun _ => Ok 40; lookup_name := fun _ => None; target_name := "m"; machine_name := fun _ => "" |}.
(** Dynamic value 1 has the dynamic value 2 as its result, which is false. *)
Definition chained_dyn : DynEnv :=
  {| dyn_call := fun p => match p with 1%positive => Value_dyn (Some 2%positive) | _ => Value_bool false end;
     dyn_depth := 2 |}.
Definition tokens21 : ClockworkToken :=
  mkClockworkToken 1 2 3 4 5 6 7 8 9 10 11 12 13 14 15 16 17 18 19 20 21.
Definition TIMER_symbol : Value := mkString t_symbol "TIMER" 4.
Definition sum_predicate : Predicate :=
  Predicate_node (Some (number_leaf 7)) opMinus
    (Some (Predicate_node (Some (number_leaf 2)) opPlus (Some (number_leaf 3)))).

Lemma evaluate_is_tree_value_w :
  (fun r => (iValue (fst (fst r)), snd r)) <$> @evaluate_with empty_scope no_dyn sum_predicate true Tokeniser_new =
  Ok (Some 2, Tokeniser_new).
Proof.
  assert (forall q, flat (@dyn_call no_dyn q)) as Hflat by (intros q; unfold flat; cbn; discriminate).
  transitivity ((fun r : Value * Tokeniser => (iValue (fst r), snd r)) <$>
    ((fun r => (fst (fst r), snd r)) <$> @evaluate_with empty_scope no_dyn sum_predicate true Tokeniser_new)).
  - by destruct (evaluate_with sum_predicate true Tokeniser_new).
  - rewrite (@evaluate_is_tree_value empty_scope no_dyn sum_predicate true Tokeniser_new Hflat). reflexivity.
Defined.

Lemma schedule_keeps_earliest_w : exists r, no_later r (Some (5000, "x")) /\ r = Some (5000, "x").
Proof.
  eexists. split; [|reflexivity].
  eapply (proj1 (@schedule_keeps_earliest tokens21 empty_scope no_dyn some_timers 2 (clause TIMER_symbol opGE 50)
    (Some (5000, "x")) Tokeniser_new (Some (5000, "x")) O _ Tokeniser_new ltac:(vm_compute; reflexivity))).
Defined.

Lemma timer_event_exact_w : exists delay name p',
  @scheduleTimerEvents tokens21 empty_scope no_dyn some_timers 2 (clause TIMER_symbol opGE 50) None Tokeniser_new =
  Ok ((Some (delay * 1000, name), O, p'), Tokeniser_new) /\ compares opGE (40 + delay) 50 = true.
Proof.
  destruct (@timer_event_exact tokens21 empty_scope no_dyn some_timers TIMER_symbol opGE 50 40 Tokeniser_new)
    as (delay & name & p' & Hs & _ & Ha);
    [by left | split; reflexivity | reflexivity | unfold LONG_MIN, LONG_MAX; lia | lia
    | unfold LONG_MAX; lia | done | done |].
  exists delay, name, p'. split; [exact Hs | apply Ha; lia].
Defined.

Lemma reversed_timer_event_off_by_one_w : exists delay name p',
  @scheduleTimerEvents tokens21 empty_scope no_dyn some_timers 2 (reversed_clause 50 opLE TIMER_symbol) None Tokeniser_new =
  Ok ((Some (delay * 1000, name), O, p'), Tokeniser_new) /\ compares opLE 50 (40 + delay - 1) = true.
Proof.
  destruct (@reversed_timer_event_off_by_one tokens21 empty_scope no_dyn some_timers TIMER_symbol opLE 50 40 Tokeniser_new)
    as (delay & name & p' & Hs & Hlate & _);
    [right; right; by left | split; reflexivity | reflexivity | unfold LONG_MIN, LONG_MAX; lia | lia
    | unfold LONG_MAX; lia | done | done |].
  exists delay, name, p'. split; [exact Hs | apply Hlate; by right].
Defined.

Lemma usesTimer_skips_right_w :
  usesTimer tokens21 (reversed_clause 50 opLE TIMER_symbol) Value_empty = Ok (false, Value_empty) /\
  findTimerClauses tokens21 (reversed_clause 50 opLE TIMER_symbol) = Ok [reversed_clause 50 opLE TIMER_symbol].
Proof.
  destruct (usesTimer_skips_right tokens21 opLE (number_leaf 50) (Predicate_value TIMER_symbol) Value_empty
    eq_refl eq_refl) as [Hu Hf]. split; [exact Hu |]. apply Hf; reflexivity.
Defined.

Lemma nested_short_circuit_misreads_w :
  exists v, @eval_stack empty_scope chained_dyn 3
    [NOp opEQ; NOp opAND; NVal (Value_dyn (Some 1%positive)); NVal (Value_bool false); NVal (Value_bool true)]
    Tokeniser_new = Ok ((v, [NVal (Value_bool true)]), Tokeniser_new) /\ bValue v = Some true.
Proof.
  eexists. split.
  - eapply (@nested_short_circuit_misreads empty_scope chained_dyn opEQ (Value_bool false) (Value_bool true)
      1%positive 2%positive (Value_bool true) Tokeniser_new); try reflexivity. unfold flat. cbn. discriminate.
  - reflexivity.
Defined.
