(* ===== verification/Handlers.v ===== *)
(** Which messages a machine receives and how it chooses their handler
    (State.cpp, Transition.h, MachineInstance.cpp: receives, findMatchingCommand,
    findReceiveHandler, findHandler, prepareCompletionMessage), in the build
    without EtherCAT hardware (EC_SIMULATOR). *)
From S2P Require Import Prelude Cnum Tokeniser Value SymbolTable Message.
Open Scope Z_scope.

(** ** States *)
Record State := mkState {
  s_text : string;
  s_val : Z;
  s_token : Z
}.
Section States.
Local Open Scope sm_scope.
Definition State_new (msg : string) : SM Tokeniser State :=
  let! id := getTokenId msg in sret (mkState msg 0 id).
(** Copying and assigning look the text up again. *)
Definition State_copy (orig : State) : SM Tokeniser State :=
  let! id := getTokenId (s_text orig) in sret (mkState (s_text orig) (s_val orig) id).
End States.
Definition state_eq (a b : State) : bool := (s_token a =? s_token b) && (s_val a =? s_val b).
Definition state_ne (a b : State) : bool := negb (s_token a =? s_token b) || negb (s_val a =? s_val b).

(** ** Machines, as far as messages are concerned *)
Record Transition := mkTransition {
  source : State;
  dest : State;
  tr_trigger : Message;
  condition : option nat
}.
(** A command or receive method: the state named by WITHIN (empty if there is
    none) and whether it switches to it by itself. *)
Record Command := mkCommand {
  c_id : ptr;
  state_name : string;
  switch_state : bool
}.
Record Instance_ := mkInstance {
  self : ptr;
  i_name : string;
  i_enabled : bool;
  current : State;
  io_interface : option ptr;
  listens : list ptr;
  commands : list (string * Command);
  receives_functions : list (Message * Command);
  transitions : list Transition;
  stable_names : list string
}.

(** What the choice of a handler needs from elsewhere: conditions of transitions,
    which transmitters are machines, the state ANY and the coils exported for
    commands. *)
Class Hub := {
  cond_holds : nat -> bool;
  is_machine : ptr -> bool;
  any_state : State;
  command_coil : string -> bool
}.

Section Messages.
Context `{!Hub}.

(** [dependsOn]: every transmitter that is not a machine counts. *)
Definition dependsOn (from : option ptr) (x : Instance_) : bool :=
  match from with
  | None => false
  | Some f => if is_machine f then bool_decide (f ∈ listens x) else true
  end.

Definition has_command (name : string) (x : Instance_) : bool :=
  existsb (fun c => bool_decide (fst c = name)) (commands x).
Definition has_receive (m : Message) (x : Instance_) : bool :=
  existsb (fun c => message_eq (fst c) m) (receives_functions x).

(** [receives]: the answer, and whether a check of the machine is registered. *)
Definition receives (m : Message) (from : option ptr) (x : Instance_) : bool * bool :=
  if negb (i_enabled x) then (false, false) else
  if (isSimple m || isEnable m) &&
     (bool_decide (from = Some (self x))
      || (bool_decide (is_Some (io_interface x)) && bool_decide (from = io_interface x))
      || match from with Some f => bool_decide (f ∈ listens x) | None => false end)
  then (true, false) else
  if has_command (text m) x then (true, false) else
  if has_receive m x then (true, false) else
  if isSimple m && existsb (fun t => message_eq (tr_trigger t) m) (transitions x) then (true, false) else
  (false, bool_decide (is_Some from) && dependsOn from x).

(** [findMatchingCommand]: the entries of a multimap with equal keys are
    adjacent. *)
Definition within (c : Command) (x : Instance_) : bool :=
  bool_decide (state_name c = "") || switch_state c
  || (negb (switch_state c) && bool_decide (s_text (current x) = state_name c)).
Definition entries_of (name : string) (x : Instance_) : list Command :=
  snd <$> filter (fun c => fst c = name) (commands x).
Definition findMatchingCommand (name : string) (x : Instance_) : option Command :=
  head (filter (fun c => within c x = true) (entries_of name x)).

(** What choosing a handler does to the machine, in order. *)
Inductive Prep :=
| PushCompletion (to : ptr) (response : string)
| LogNoSender (name : string)
| EnqueueStateTest (dest : string) (states : list nat)
| PushMoveState (dest : string)
| CoilOff (name : string).
Inductive Handler :=
| HCommand (c : Command)
| HMoveState (dest : string).

(** [prepareCompletionMessage]: the sender must be a machine. *)
Definition prepareCompletionMessage (from : option ptr) (msg : string) (x : Instance_) : res (list Prep) :=
  match from with
  | Some f => if is_machine f then Ok [PushCompletion f (i_name x +:+ "." +:+ msg +:+ "_done")] else Abort
  | None => Ok [LogNoSender msg]
  end.
Definition respond (response_required : bool) (from : option ptr) (msg : string) (x : Instance_)
    : res (list Prep) :=
  if response_required then prepareCompletionMessage from msg x else Ok [].

(** [findReceiveHandler]. *)
Definition receive_entries (name : string) (x : Instance_) : list Command :=
  snd <$> filter (fun c => text (fst c) = name) (receives_functions x).
Definition findReceiveHandler (from : option ptr) (m : Message) (short_name : string) (response_required : bool)
    (x : Instance_) : res (option Handler * list Prep) :=
  let answer h := ps ← respond response_required from short_name x; Ok (h, ps) in
  match receive_entries (text m) x with
  | _ :: _ =>
      answer (HCommand <$>
        head (filter (fun c => state_name c = "" \/ state_name c = s_text (current x))
                (receive_entries (text m) x)))
  | [] =>
      if bool_decide (from = Some (self x)) then
        if bool_decide (short_name = text m) then answer None
        else answer (HCommand <$> head (receive_entries short_name x))
      else answer None
  end.

(** The text after the first dot, if there is one. *)
Fixpoint after_dot (s : string) : option string :=
  match s with
  | EmptyString => None
  | String c s' => if (code c =? 46) then Some s' else after_dot s'
  end.
Definition short_name_of (m : Message) : string := default (text m) (after_dot (text m)).

(** The positions of the stable states with a name. *)
Fixpoint positions (n : nat) (name : string) (l : list string) : list nat :=
  match l with
  | [] => []
  | s :: l' => (if bool_decide (s = name) then [n] else []) ++ positions (S n) name l'
  end.

(** A matching transition: with a linked command the state change is prepared
    first and the command is the handler; otherwise the handler is the state
    change. *)
Definition take_transition (t : Transition) (from : option ptr) (response_required : bool) (x : Instance_)
    : res (option Handler * list Prep) :=
  let name := text (tr_trigger t) in
  let target := s_text (dest t) in
  if has_command name x then
    let tests := positions 0 target (stable_names x) in
    let p1 := match tests with [] => [] | _ => [EnqueueStateTest target tests] end in
    p2 ← respond response_required from name x;
    let p3 := match tests with [] => [PushMoveState target] | _ => [] end in
    let p4 := if command_coil (i_name x +:+ "." +:+ name) then [CoilOff name] else [] in
    match findMatchingCommand name x with
    | Some c => Ok (Some (HCommand c), p1 ++ p2 ++ p3 ++ p4)
    | None =>
        p5 ← respond response_required from name x;
        Ok (Some (HMoveState target), p1 ++ p2 ++ p3 ++ p4 ++ p5)
    end
  else ps ← respond response_required from name x; Ok (Some (HMoveState target), ps).

Definition transition_matches (short_name : string) (x : Instance_) (t : Transition) : bool :=
  bool_decide (text (tr_trigger t) = short_name)
  && (state_eq (current x) (source t) || state_eq (source t) any_state)
  && match condition t with None => true | Some c => cond_holds c end.
Definition foreign_matches (m : Message) (short_name : string) (x : Instance_) (t : Transition) : bool :=
  (bool_decide (text (tr_trigger t) = text m) || bool_decide (text (tr_trigger t) = short_name))
  && state_eq (current x) (source t).

Definition findHandler (m : Message) (from : option ptr) (response_required : bool) (x : Instance_)
    : res (option Handler * list Prep) :=
  let short_name := short_name_of m in
  let by_receive ps := r ← findReceiveHandler from m short_name response_required x;
                       Ok (fst r, ps ++ snd r) in
  if bool_decide (from = Some (self x)) || bool_decide (text m = short_name) then
    match head (filter (fun t => transition_matches short_name x t = true) (transitions x)) with
    | Some t => take_transition t from response_required x
    | None =>
        if has_command short_name x then
          ps ← respond response_required from short_name x;
          match findMatchingCommand short_name x with
          | Some c => Ok (Some (HCommand c), ps)
          | None => by_receive ps
          end
        else by_receive []
    end
  else
    match head (filter (fun t => foreign_matches m short_name x t = true) (transitions x)) with
    | Some t =>
        ps ← respond response_required from short_name x;
        Ok (Some (HMoveState (s_text (dest t))), ps)
    | None => by_receive []
    end.
End Messages.

(** ** Properties *)

(** Two states made from names compare equal exactly when the names are
    equal, however many names were tokenised in between; [!=] is the negation. *)
Theorem states_equal_iff_names t a s1 t1 t1' b s2 t2 :
  tok_wf t -> State_new a t = Ok (s1, t1) -> tok_wf t1' -> tok_ext t1 t1' -> State_new b t1' = Ok (s2, t2) ->
  state_eq s1 s2 = bool_decide (a = b) /\ state_ne s1 s2 = negb (state_eq s1 s2).
Proof.
  intros Hwf Ha Hwf' Hext Hb. unfold State_new in *. res_inv.
  match goal with H1 : getTokenId a t = _, H2 : getTokenId b t1' = _ |- _ =>
    apply getTokenId_inv in H1 as (_ & _ & L1); [|done]; apply getTokenId_inv in H2 as (W2 & E2 & L2); [|done] end.
  apply (tok_ext_lookup _ _ _ _ Hext) in L1. apply (tok_ext_lookup _ _ _ _ E2) in L1.
  unfold state_eq, state_ne. cbn. split; [|by destruct (_ =? _)]. rewrite andb_true_r.
  case_bool_decide as E.
  - subst. rewrite L1 in L2. injection L2 as ->. apply Z.eqb_refl.
  - apply Z.eqb_neq. intros ->. by apply E, (tok_inj _ W2 _ _ _ L1 L2).
Qed.

Section Choice.
Context `{!Hub}.

Lemma head_filter {A} (P : A -> Prop) `{!forall a, Decision (P a)} (l : list A) a :
  head (filter P l) = Some a -> P a /\ a ∈ l.
Proof.
  intros E. apply (list_elem_of_filter P l a). destruct (filter P l); [done |]. injection E as ->. left.
Qed.

Lemma entries_of_spec name c x : c ∈ entries_of name x -> (name, c) ∈ commands x.
Proof.
  unfold entries_of. intros ([n c'] & -> & [E Hin]%list_elem_of_filter)%list_elem_of_fmap. cbn in *. by subst.
Qed.
Lemma receive_entries_spec name c x : c ∈ receive_entries name x ->
  exists k, (k, c) ∈ receives_functions x /\ text k = name.
Proof.
  unfold receive_entries. intros ([n c'] & -> & [E Hin]%list_elem_of_filter)%list_elem_of_fmap. cbn in *. eauto.
Qed.
Lemma findMatchingCommand_spec name c x : findMatchingCommand name x = Some c ->
  (name, c) ∈ commands x /\ within c x = true.
Proof. intros [Hw Hin]%head_filter. split; [by apply entries_of_spec | done]. Qed.

(** When a handler may be chosen for a message. *)
Definition justified (m : Message) (from : option ptr) (x : Instance_) (h : Handler) : Prop :=
  match h with
  | HMoveState d => exists t, t ∈ transitions x /\ s_text (dest t) = d /\
      (text (tr_trigger t) = short_name_of m \/ text (tr_trigger t) = text m) /\
      (state_eq (current x) (source t) = true \/ state_eq (source t) any_state = true)
  | HCommand c =>
      (exists name, (name, c) ∈ commands x /\ within c x = true) \/
      (exists k, (k, c) ∈ receives_functions x /\
        ((text k = text m /\ (state_name c = "" \/ state_name c = s_text (current x))) \/
         (from = Some (self x) /\ text k = short_name_of m)))
  end.

Lemma findReceiveHandler_sound from m rr x h ps :
  findReceiveHandler from m (short_name_of m) rr x = Ok (Some h, ps) -> justified m from x h.
Proof.
  unfold findReceiveHandler. intros Hf. destruct (receive_entries (text m) x) as [|c0 l] eqn:El.
  - repeat (case_bool_decide; res_inv); try done.
    destruct (receive_entries (short_name_of m) x) as [|c l'] eqn:Es; cbn in *; [done |]. simplify_eq.
    right. destruct (receive_entries_spec (short_name_of m) c x) as (k & Hk & Ht); [rewrite Es; left |].
    exists k. split; [done |]. by right.
  - rewrite <- El in Hf. res_inv.
    destruct (head (filter _ (receive_entries (text m) x))) as [c|] eqn:Eh; [|done]. cbn in *. simplify_eq.
    apply head_filter in Eh as [Hs Hin]. right. destruct (receive_entries_spec _ _ _ Hin) as (k & Hk & Ht).
    exists k. split; [done |]. left. by split.
Qed.

(** The handler [findHandler] chooses is entitled to the message: a state
    change comes from a transition on the message that starts in the current
    state (or in ANY), a command is one whose WITHIN clause allows the current
    state, and a receive method is registered for the message and allows the
    current state (for the short form of a message the machine sends to itself,
    the state is not checked). *)
Theorem findHandler_justified m from rr x h ps :
  findHandler m from rr x = Ok (Some h, ps) -> justified m from x h.
Proof.
  unfold findHandler. intros Hf.
  destruct (bool_decide (from = Some (self x)) || bool_decide (text m = short_name_of m)).
  - destruct (head _) as [t|] eqn:Et.
    + apply head_filter in Et as [Hm Hin]. unfold transition_matches in Hm.
      apply andb_true_iff in Hm as [[Hn Hs]%andb_true_iff _]. apply bool_decide_eq_true in Hn.
      apply orb_true_iff in Hs.
      assert (justified m from x (HMoveState (s_text (dest t)))) as Hmove by (exists t; auto).
      unfold take_transition in Hf. destruct (has_command _ x); res_inv; [|done].
      destruct (findMatchingCommand _ x) as [c|] eqn:Ec; res_inv; [|done].
      left. exists (text (tr_trigger t)). by apply findMatchingCommand_spec.
    + destruct (has_command _ x); res_inv.
      * destruct (findMatchingCommand _ x) as [c|] eqn:Ec; res_inv.
        -- left. exists (short_name_of m). by apply findMatchingCommand_spec.
        -- destruct x1 as [h' ps']. cbn in *. simplify_eq. by eapply findReceiveHandler_sound.
      * destruct x0 as [h' ps']. cbn in *. simplify_eq. by eapply findReceiveHandler_sound.
  - destruct (head _) as [t|] eqn:Et; res_inv.
    + apply head_filter in Et as [Hm Hin]. unfold foreign_matches in Hm. apply andb_true_iff in Hm as [Hn Hs].
      exists t. repeat split; auto. apply orb_true_iff in Hn as [Hn%bool_decide_eq_true | Hn%bool_decide_eq_true]; auto.
    + destruct x0 as [h' ps']. cbn in *. simplify_eq. by eapply findReceiveHandler_sound.
Qed.

(** Completion messages among the prepared actions. *)
Definition is_completion (p : Prep) : bool := match p with PushCompletion _ _ => true | _ => false end.
Definition completions (ps : list Prep) : nat := length (filter (fun p => is_completion p = true) ps).

Lemma completions_app p q : completions (p ++ q) = (completions p + completions q)%nat.
Proof. unfold completions. by rewrite list.filter_app, length_app. Qed.

Lemma respond_machine f name x : is_machine f = true ->
  exists ps, respond true (Some f) name x = Ok ps /\ completions ps = 1%nat.
Proof. intros Hf. unfold respond, prepareCompletionMessage. rewrite Hf. by eexists. Qed.

(** The name of a command that exists but does not match the current state. *)
Definition unmatched (name : string) (x : Instance_) : bool :=
  has_command name x && bool_decide (findMatchingCommand name x = None).
(** The transition or command that decides whether the sender is answered twice. *)
Definition answers (m : Message) (from : option ptr) (x : Instance_) : nat :=
  if bool_decide (from = Some (self x)) || bool_decide (text m = short_name_of m) then
    match head (filter (fun t => transition_matches (short_name_of m) x t = true) (transitions x)) with
    | Some t => if unmatched (text (tr_trigger t)) x then 2 else 1
    | None => if unmatched (short_name_of m) x then 2 else 1
    end
  else 1.

Lemma findReceiveHandler_answers f m short x : is_machine f = true ->
  exists h ps, findReceiveHandler (Some f) m short true x = Ok (h, ps) /\ completions ps = 1%nat.
Proof.
  intros Hf. unfold findReceiveHandler.
  destruct (respond_machine f short x Hf) as (ps & -> & Hps). cbn [mbind res_bind].
  repeat case_match; eauto.
Qed.

Lemma take_transition_answers t f x : is_machine f = true ->
  exists h ps, take_transition t (Some f) true x = Ok (h, ps) /\
    completions ps = if unmatched (text (tr_trigger t)) x then 2%nat else 1%nat.
Proof.
  intros Hf. unfold take_transition, unmatched.
  destruct (respond_machine f (text (tr_trigger t)) x Hf) as (ps & -> & Hps). cbn [mbind res_bind].
  destruct (has_command _ x); cbn [andb]; [|eauto].
  set (p1 := match positions _ _ _ with [] => [] | _ => _ end).
  set (p3 := match positions _ _ _ with [] => _ | _ => [] end).
  set (p4 := if command_coil _ then _ else _).
  assert (completions p1 = O /\ completions p3 = O /\ completions p4 = O) as (H1 & H3 & H4).
  { subst p1 p3 p4. by destruct (positions _ _ _), (command_coil _). }
  destruct (findMatchingCommand _ x); do 2 eexists; (split; [reflexivity |]);
    rewrite !completions_app, H1, H3, H4, Hps;
    [rewrite bool_decide_false by done | rewrite bool_decide_true by done]; done.
Qed.

(** When a machine calls another one and waits for the answer, [findHandler]
    prepares exactly one completion message, except that it prepares two when the
    message names a command that exists but whose WITHIN clause does not allow
    the current state. *)
Theorem completion_messages m f x : is_machine f = true ->
  exists h ps, findHandler m (Some f) true x = Ok (h, ps) /\ completions ps = answers m (Some f) x.
Proof.
  intros Hf. unfold findHandler, answers, unmatched.
  destruct (bool_decide (Some f = Some (self x)) || bool_decide (text m = short_name_of m)).
  - destruct (head _) as [t|]; [by apply take_transition_answers |].
    destruct (findReceiveHandler_answers f m (short_name_of m) x Hf) as (h & ps & -> & Hps).
    destruct (respond_machine f (short_name_of m) x Hf) as (ps' & -> & Hps'). cbn [mbind res_bind].
    destruct (has_command _ x); cbn [andb fst snd app]; [|eauto].
    destruct (findMatchingCommand _ x);
      [rewrite bool_decide_false by done | rewrite bool_decide_true by done]; [eauto |].
    do 2 eexists. split; [reflexivity |]. by rewrite completions_app, Hps, Hps'.
  - destruct (respond_machine f (short_name_of m) x Hf) as (ps' & -> & Hps').
    destruct (findReceiveHandler_answers f m (short_name_of m) x Hf) as (h & ps & -> & Hps).
    cbn [mbind res_bind fst snd app]. destruct (head _); eauto.
Qed.

(** Every completion message is for [f], and names the method [name] of [x]. *)
Definition answer_to (f : ptr) (name : string) (x : Instance_) (p : Prep) : Prop :=
  match p with
  | PushCompletion to r => to = f /\ r = (i_name x +:+ "." +:+ name +:+ "_done")%string
  | _ => True
  end.
Lemma respond_to rr f name x ps : respond rr (Some f) name x = Ok ps -> Forall (answer_to f name x) ps.
Proof.
  unfold respond, prepareCompletionMessage. destruct rr; [|by intros [= <-]].
  destruct (is_machine f); [|done]. intros [= <-]. by repeat constructor.
Qed.
Lemma findReceiveHandler_to f m short rr x h ps : findReceiveHandler (Some f) m short rr x = Ok (h, ps) ->
  Forall (answer_to f short x) ps.
Proof.
  unfold findReceiveHandler. intros Hf. repeat case_match; res_inv; by eapply respond_to.
Qed.
Lemma take_transition_to t f rr x h ps : take_transition t (Some f) rr x = Ok (h, ps) ->
  Forall (answer_to f (text (tr_trigger t)) x) ps.
Proof.
  unfold take_transition. intros Hf. destruct (has_command _ x); res_inv; [|by eapply respond_to].
  destruct (findMatchingCommand _ x); res_inv; rewrite ?Forall_app; repeat split; try (by eapply respond_to);
    by repeat case_match; repeat constructor.
Qed.
(** The answer to a message is named by the part of its text after the first dot. *)
Lemma findHandler_to m f rr x h ps : findHandler m (Some f) rr x = Ok (h, ps) ->
  Forall (answer_to f (short_name_of m) x) ps.
Proof.
  unfold findHandler. intros Hf.
  destruct (bool_decide (Some f = Some (self x)) || bool_decide (text m = short_name_of m)).
  - destruct (head _) as [t|] eqn:Et.
    + apply head_filter in Et as [Hm _]. unfold transition_matches in Hm.
      apply andb_true_iff in Hm as [[Hn _]%andb_true_iff _]. apply bool_decide_eq_true in Hn. rewrite <- Hn.
      by eapply take_transition_to.
    + destruct (has_command _ x); res_inv; [destruct (findMatchingCommand _ x); res_inv |];
        rewrite ?Forall_app; repeat split; try (by eapply respond_to);
        match goal with E : findReceiveHandler _ _ _ _ _ = Ok ?r |- _ => destruct r; by eapply findReceiveHandler_to end.
  - destruct (head _) as [t|] eqn:Et; res_inv; [by eapply respond_to |].
    match goal with E : findReceiveHandler _ _ _ _ _ = Ok ?r |- _ => destruct r; by eapply findReceiveHandler_to end.
Qed.
(** A message that wants an answer gets at least one. *)
Lemma answers_once m f x : is_machine f = true -> exists h ps, findHandler m (Some f) true x = Ok (h, ps) /\
  exists r, PushCompletion f r ∈ ps.
Proof.
  intros Hf. destruct (completion_messages m f x Hf) as (h & ps & E & Hn). exists h, ps. split; [done |].
  assert (completions ps <> O) as Hne.
  { rewrite Hn. unfold answers. repeat case_match; lia. }
  unfold completions in Hne. destruct (filter _ ps) as [|p l] eqn:Ef; [done |].
  assert (p ∈ filter (fun p => is_completion p = true) ps) as [Hc Hin]%list_elem_of_filter by (rewrite Ef; left).
  destruct p as [to r| | | |]; try done. exists r.
  pose proof (findHandler_to m f true x h ps E) as Ha. rewrite Forall_forall in Ha.
  destruct (Ha _ (proj1 (list_elem_of_In _ _) Hin)) as [-> _]. done.
Qed.
End Choice.

(** ** Witnesses *)
Definition some_hub : Hub :=
  {| cond_holds := fun _ => true; is_machine := fun _ => true; any_state := mkState "ANY" 0 99;
     command_coil := fun _ => false |}.
Definition go : Message := mkMessage SIMPLEMSG 1 "go" None.
Definition state_a : State := mkState "a" 0 1.
Definition state_b : State := mkState "b" 0 2.
(** A machine in state [a] with a transition on [go] and a command [go] that is
    only allowed in [b]. *)
Definition busy_instance : Instance_ :=
  mkInstance 1%positive "m" true state_a None [] [("go", mkCommand 7%positive "b" false)] []
    [mkTransition state_a state_b go None] [].

Lemma states_equal_iff_names_w : exists s1 s2 t1 t2, State_new "a" Tokeniser_new = Ok (s1, t1) /\
  State_new "b" t1 = Ok (s2, t2) /\ state_eq s1 s2 = false.
Proof.
  do 4 eexists. split; [reflexivity |]. split; [reflexivity |].
  refine (proj1 (states_equal_iff_names Tokeniser_new "a" _ _ _ "b" _ _ tok_wf_new eq_refl _ (tok_ext_refl _) eq_refl)).
  eapply getTokenId_inv; [apply tok_wf_new | reflexivity].
Defined.

Lemma findHandler_justified_w : exists h ps, @findHandler some_hub go (Some 2%positive) false busy_instance = Ok (Some h, ps) /\
  @justified some_hub go (Some 2%positive) busy_instance h.
Proof.
  do 2 eexists. split; [vm_compute; reflexivity |].
  eapply (@findHandler_justified some_hub go (Some 2%positive) false busy_instance). vm_compute. reflexivity.
Defined.

Lemma completion_messages_w : exists h ps, @findHandler some_hub go (Some 2%positive) true busy_instance = Ok (h, ps) /\
  completions ps = 2%nat.
Proof. exact (@completion_messages some_hub go 2%positive busy_instance eq_refl). Defined.
