(* ===== verification/StableStates.v ===== *)
(** Stable states and their timers (StableState.h, StableState.cpp,
    ConditionHandler.cpp, and the timer part of [setState] and
    [setupSubconditionTriggers] in MachineInstance.cpp). *)
From S2P Require Import Prelude Cnum Tokeniser Value ValueOps SymbolTable Message Machine MachineProps Expression.
Open Scope Z_scope.
Local Open Scope sm_scope.

(** ** Data *)
Record ConditionHandler := mkCondHandler {
  h_predicate : Predicate;
  h_uses_timer : bool;
  h_trigger : option ptr;
  triggered : bool;
  command_name : string;
  flag_name : string
}.
Record StableState := mkStable {
  ss_name : string;
  ss_predicate : Predicate;
  ss_uses_timer : bool;
  ss_timer_val : Value;
  ss_trigger : option ptr;
  subcondition_handlers : option (list ConditionHandler);
  ss_owner : option ptr
}.

Section Rules.
Variable tk : ClockworkToken.
Context `{!DynEnv}.
(** [MachineInstance::getValue] by name. *)
Variable get_value : string -> Value.

(** The constructor: the timer value is found in the condition. *)
Definition StableState_new (s : string) (p : Predicate) : res StableState :=
  '(uses, v) ← usesTimer tk p (Value_int 0);
  Ok (mkStable s (Predicate_copy p) uses v None None None).

(** [initialiseMachines] (clockwork.cpp) looks for the timers again in the copies
    of the rules that a machine has, and in their subconditions. *)
Fixpoint refresh_handlers (l : list ConditionHandler) : res (list ConditionHandler) :=
  match l with
  | [] => Ok []
  | h :: l' =>
      '(b, _) ← usesTimer tk (h_predicate h) (Value_int 0);
      r ← refresh_handlers l';
      Ok (mkCondHandler (h_predicate h) b (h_trigger h) (triggered h) (command_name h) (flag_name h) :: r)
  end.
Definition refresh_rule (s : StableState) : res StableState :=
  '(b, v) ← usesTimer tk (ss_predicate s) (ss_timer_val s);
  hs ← match subcondition_handlers s with
       | Some l => r ← refresh_handlers l; Ok (Some r)
       | None => Ok None
       end;
  Ok (mkStable (ss_name s) (ss_predicate s) (if b : bool then true else ss_uses_timer s) v (ss_trigger s) hs
        (ss_owner s)).

(** *** Triggers of rules *)

(** Disable a trigger if it is enabled and give up the reference to it. *)
Definition drop_rule_trigger (o : option ptr) : M unit :=
  match o with
  | None => sret tt
  | Some t =>
      let! x := get_trigger t in
      run! (if is_active x then disable t else sret tt) in
      trigger_release t
  end.
(** [ConditionHandler::reset]. *)
Definition handler_reset (h : ConditionHandler) : M ConditionHandler :=
  run! drop_rule_trigger (h_trigger h) in
  sret (mkCondHandler (h_predicate h) (h_uses_timer h) None false (command_name h) (flag_name h)).

(** Copying a handler retains its trigger, destroying it releases it. *)
Fixpoint retain_handlers (l : list ConditionHandler) : M unit :=
  match l with
  | [] => sret tt
  | h :: l' =>
      run! (match h_trigger h with Some t => trigger_retain t | None => sret tt end) in retain_handlers l'
  end.
Fixpoint release_handlers (l : list ConditionHandler) : M unit :=
  match l with
  | [] => sret tt
  | h :: l' =>
      run! (match h_trigger h with Some t => trigger_release t | None => sret tt end) in release_handlers l'
  end.
(** The copy constructor and the destructor of a stable state. *)
Definition StableState_copy (s : StableState) : M StableState :=
  run! (match subcondition_handlers s with Some l => retain_handlers l | None => sret tt end) in
  sret (mkStable (ss_name s) (Predicate_copy (ss_predicate s)) (ss_uses_timer s) (Value_int 0) None
          (subcondition_handlers s) (ss_owner s)).
Definition StableState_destroy (s : StableState) : M unit :=
  run! drop_rule_trigger (ss_trigger s) in
  match subcondition_handlers s with Some l => release_handlers l | None => sret tt end.

(** *** The timer of a rule in [setState]: [None] skips the rule *)
Definition rule_timer (s : StableState) : res (option Z) :=
  let v := ss_timer_val s in
  base ← match kind v with
         | t_symbol | t_string =>
             let w := get_value (sValue v) in
             if Kind_eqb (kind w) t_integer then i ← rd (iValue w); Ok (Some i) else Ok None
         | t_integer => i ← rd (iValue v); Ok (Some i)
         | t_float => f ← rd (fValue v); i ← long_of_float f; Ok (Some i)
         | _ => Ok None
         end;
  match base with
  | None => Ok None
  | Some i =>
      match op (ss_predicate s) with
      | opGT => t ← long_of (i + 1); Ok (Some t)
      | opLT => t ← long_of (i - 1); Ok (Some t)
      | _ => Ok (Some i)
      end
  end.

(** *** [setupSubconditionTriggers] *)

(** One timer clause of a subcondition. *)
Definition clause_timer (timer_val : Z) (node : Predicate) : res Z :=
  tv ← getTimerValue tk node;
  null ← value_eq tv Null;
  if null : bool then Ok timer_val else
  let after i := if bool_decide (op node = opGT) then i + 1 else i in
  match kind tv with
  | t_symbol | t_string =>
      let v := get_value (sValue tv) in
      if Kind_eqb (kind v) t_integer then
        i ← rd (iValue v); Ok (if (0 <=? i) && (i <? timer_val) then after i else timer_val)
      else Ok timer_val
  | t_integer => i ← rd (iValue tv); Ok (if i <? timer_val then after i else timer_val)
  | _ => Ok timer_val
  end.
Fixpoint clauses_timer (timer_val : Z) (l : list Predicate) : res Z :=
  match l with [] => Ok timer_val | n :: l' => t ← clause_timer timer_val n; clauses_timer t l' end.

(** The handlers of the rule: each one that uses a timer is reset; in the rule of
    the current state its timer, if earlier than [earliest], is the result. *)
Fixpoint subcondition_timer (active : bool) (earliest result : Z) (l : list ConditionHandler)
    : M (Z * list ConditionHandler) :=
  match l with
  | [] => sret (result, [])
  | h :: l' =>
      if h_uses_timer h then
        let! h' := handler_reset h in
        let? r := (if active then
                     cs ← findTimerClauses tk (h_predicate h);
                     t ← clauses_timer LONG_MAX cs;
                     Ok (if (t <? LONG_MAX) && (t <? earliest) then t else result)
                   else Ok result) in
        let! x := subcondition_timer active earliest r l' in
        sret (fst x, h' :: snd x)
      else
        let! x := subcondition_timer active earliest result l' in
        sret (fst x, h :: snd x)
  end.
Definition setupSubconditionTriggers (current : string) (s : StableState) (earliest : Z)
    : M (Z * StableState) :=
  match subcondition_handlers s with
  | None => fun _ => Undef
  | Some l =>
      let! x := subcondition_timer (bool_decide (ss_name s = current)) earliest earliest l in
      sret (fst x, mkStable (ss_name s) (ss_predicate s) (ss_uses_timer s) (ss_timer_val s) (ss_trigger s)
                     (Some (snd x)) (ss_owner s))
  end.

(** *** The loop over the rules: the rule with the earliest timer so far *)
Definition consider (idx : nat) (t : Z) (best : option nat * Z) : option nat * Z :=
  if (t <? snd best) || bool_decide (fst best = None) then (Some idx, t) else best.
Definition scan_rule (current : string) (idx : nat) (s : StableState) (best : option nat * Z)
    : M (option nat * Z * StableState) :=
  let! r := (if ss_uses_timer s then
               run! drop_rule_trigger (ss_trigger s) in
               let s' := mkStable (ss_name s) (ss_predicate s) (ss_uses_timer s) (ss_timer_val s) None
                           (subcondition_handlers s) (ss_owner s) in
               let? t := rule_timer s in
               sret (match t with None => None | Some i => Some (consider idx i best) end, s')
             else sret (Some best, s)) in
  match fst r with
  | None => sret (best, snd r)
  | Some best' =>
      match subcondition_handlers (snd r) with
      | None => sret (best', snd r)
      | Some _ =>
          let! x := setupSubconditionTriggers current (snd r) (snd best') in
          sret (if fst x <? snd best' then (Some idx, fst x) else best', snd x)
      end
  end.
Fixpoint scan_rules (current : string) (idx : nat) (l : list StableState) (best : option nat * Z)
    : M (option nat * Z * list StableState) :=
  match l with
  | [] => sret (best, [])
  | s :: l' =>
      let! r := scan_rule current idx s best in
      let! r' := scan_rules current (S idx) l' (fst r) in
      sret (fst r', snd r :: snd r')
  end.

(** *** The timer for the chosen rule

    It is set on a copy of the rule that goes out of scope at the end. The result
    is the delay and trigger of the scheduled item, which retains the trigger. *)
Definition arm_timer (m : ptr) (s : StableState) (timer_val : Z) : M (option (Z * ptr)) :=
  let! c := StableState_copy s in
  if 0 <? timer_val then
    let! x := get_machine m in
    let! t := Trigger_new (Some (OwnMachine m)) ("SSTimer " +:+ m_name x +:+ " " +:+ ss_name s) in
    let? delay := long_of (timer_val * 1000) in
    run! trigger_retain t in
    run! StableState_destroy (mkStable (ss_name c) (ss_predicate c) (ss_uses_timer c) (ss_timer_val c)
           (Some t) (subcondition_handlers c) (ss_owner c)) in
    sret (Some (delay, t))
  else
    run! (if -2 <=? timer_val then activate m else sret tt) in
    run! StableState_destroy c in
    sret None.

Definition setState_timers (m : ptr) (current : string) (l : list StableState)
    : M (option (Z * ptr) * list StableState) :=
  let! r := scan_rules current 0 l (None, LONG_MAX) in
  match fst (fst r) with
  | None => sret (None, snd r)
  | Some i =>
      let? s := rd (snd r !! i) in
      let! a := arm_timer m s (snd (fst r)) in
      sret (a, snd r)
  end.
End Rules.

(** *** Choosing a stable state *)
Section Choose.
Variable holds : Predicate -> bool.
Fixpoint isStableState (state_name : string) (l : list StableState) : bool :=
  match l with
  | [] => false
  | s :: l' => if bool_decide (ss_name s = state_name) then true else isStableState state_name l'
  end.
(** [firstValidStableState]: an empty name counts as not found. *)
Fixpoint first_true (l : list StableState) : string :=
  match l with [] => "" | s :: l' => if holds (ss_predicate s) then ss_name s else first_true l' end.
Definition firstValidStableState (default_state : string) (l : list StableState) : string :=
  let found := first_true l in if bool_decide (found = "") then default_state else found.
End Choose.

(** ** Properties *)
Section Properties.
Variable tk : ClockworkToken.
Context `{!DynEnv}.
Variable get_value : string -> Value.

Lemma assign_copy d v : assign d (assign Value_empty v) = assign d v.
Proof. by destruct v as [[]]. Qed.
Lemma is_timer_copy v : is_timer tk (assign Value_empty v) = is_timer tk v.
Proof. by destruct v as [[]]. Qed.
Lemma is_TIMER_copy v : is_TIMER tk (assign Value_empty v) = is_TIMER tk v.
Proof. by destruct v as [[]]. Qed.
Lemma copy_entry p : entry (Predicate_copy p) = assign Value_empty (entry p).
Proof. by destruct p. Qed.
Lemma copy_leaf p : is_leaf (Predicate_copy p) = is_leaf p.
Proof. by destruct p as [[]]. Qed.

Fixpoint usesTimer_copy (p : Predicate) {struct p} : forall v,
  usesTimer tk (Predicate_copy p) v = usesTimer tk p v.
Proof.
  destruct p as [[lp|] o r e c dv lc ld prio ne ex]; intros v; cbn [Predicate_copy usesTimer];
    [|by rewrite is_TIMER_copy].
  rewrite copy_leaf, copy_entry, is_timer_copy, usesTimer_copy.
  destruct r as [rp|]; [|done]. rewrite copy_entry, assign_copy.
  destruct (is_leaf lp); [done |]. destruct (usesTimer tk lp v) as [[b tv]| |]; cbn; [|done..].
  destruct b; [done | apply usesTimer_copy].
Qed.

(** Copying a stable state loses the timer of its condition, and
    initialisation recovers it: the copy of a rule, as the machines of a class hold
    it, counts as a rule with a timer of 0 until [initialiseMachines] looks for the
    timer again; from then on it has the timer of the rule it was copied from. *)
Theorem copied_rule_timer_recovered nm p s w : StableState_new tk nm p = Ok s ->
  exists c, StableState_copy s w = Ok (c, w) /\ ss_timer_val c = Value_int 0 /\
  exists r, refresh_rule tk c = Ok r /\ ss_timer_val r = ss_timer_val s /\
    ss_uses_timer r = ss_uses_timer s /\ rule_timer get_value r = rule_timer get_value s.
Proof.
  unfold StableState_new. intros Hn. destruct (usesTimer tk p (Value_int 0)) as [[b v]| |] eqn:Ep; cbn in Hn;
    simplify_eq. eexists. split; [reflexivity |]. split; [reflexivity |].
  unfold refresh_rule. cbn [ss_predicate ss_timer_val ss_uses_timer subcondition_handlers].
  rewrite !usesTimer_copy, Ep. cbn. eexists. split; [reflexivity |]. cbn. split; [done |].
  split; [by destruct b |]. unfold rule_timer. cbn [ss_timer_val ss_predicate].
  by destruct p.
Qed.

Lemma drop_rule_trigger_run t z w : triggers w !! t = Some z -> is_active z = true -> 1 < t_refs z ->
  drop_rule_trigger (Some t) w =
  Ok (tt, with_triggers (<[t := set_trefs (t_refs z - 1) (set_active false z)]> (triggers w)) w).
Proof.
  intros Ez Ha Hr. unfold drop_rule_trigger. heap_step. rewrite Ha. unfold disable. heap_step.
  unfold trigger_release. erewrite (sbind_run (get_trigger t)) by (apply get_trigger_run; cbn; apply lookup_insert_eq).
  cbn [t_refs set_active]. unfold sbind at 1, slift at 1. rewrite (proj2 (Z.ltb_lt 0 (t_refs z))) by lia. cbn [assert].
  erewrite (sbind_run (upd_trigger _ _)) by (apply upd_trigger_run; cbn; apply lookup_insert_eq).
  rewrite (proj2 (Z.eqb_neq (t_refs z - 1) 0)) by lia. unfold with_triggers. cbn. by rewrite insert_insert_eq.
Qed.

(** The timer that [setState] schedules for a rule never fires: it belongs to
    a copy of the rule, whose destructor disables the trigger before [setState]
    returns. The scheduled item is left with the only reference to a disabled
    trigger, and the scheduler fires enabled triggers only. *)
Theorem state_timer_never_fires m s timer_val w x :
  machines w !! m = Some x -> subcondition_handlers s = None -> 0 < timer_val -> timer_val * 1000 <= LONG_MAX ->
  exists t w' tr, arm_timer m s timer_val w = Ok (Some (timer_val * 1000, t), w') /\
    triggers w !! t = None /\ triggers w' !! t = Some tr /\ is_active tr = false /\ seen tr = false /\ t_refs tr = 1.
Proof.
  intros Ex Hs Ht Hmax. set (t := fresh (dom (triggers w))).
  set (z := mkTrigger ("SSTimer " +:+ m_name x +:+ " " +:+ ss_name s) false (Some (OwnMachine m)) 1 true []).
  set (w1 := with_triggers (<[t := z]> (triggers w)) w).
  set (w2 := with_triggers (<[t := set_trefs 2 z]> (triggers w1)) w1).
  exists t, (with_triggers (<[t := set_trefs 1 (set_active false (set_trefs 2 z))]> (triggers w2)) w2),
    (set_trefs 1 (set_active false (set_trefs 2 z))).
  split; [|split; [apply not_elem_of_dom, is_fresh | split; [apply lookup_insert_eq | done]]].
  unfold arm_timer, StableState_copy. rewrite Hs.
  rewrite (sbind_run _ _ w (mkStable (ss_name s) (Predicate_copy (ss_predicate s)) (ss_uses_timer s) (Value_int 0)
    None None (ss_owner s)) w) by reflexivity.
  rewrite (proj2 (Z.ltb_lt 0 timer_val)) by done. heap_step.
  rewrite (sbind_run (Trigger_new _ _) _ w t w1) by reflexivity.
  unfold sbind at 1, slift at 1. rewrite long_of_ok by (unfold LONG_MIN; lia).
  rewrite (sbind_run (trigger_retain t) _ w1 tt w2)
    by (unfold trigger_retain; erewrite upd_trigger_run by apply lookup_insert_eq; reflexivity).
  unfold StableState_destroy. cbn [ss_trigger subcondition_handlers].
  assert (drop_rule_trigger (Some t) w2 = Ok (tt, with_triggers (<[t := set_trefs 1 (set_active false (set_trefs 2 z))]> (triggers w2)) w2)) as Hd
    by (apply (drop_rule_trigger_run t (set_trefs 2 z)); [apply lookup_insert_eq | done | cbn; lia]).
  by rewrite (sbind_run _ _ w2 tt _ (eq_trans (sbind_run _ _ _ _ _ Hd) eq_refl)).
Qed.

(** A rule without pending trigger and subconditions, whose timer is defined. *)
Definition plain_rule (s : StableState) : Prop :=
  ss_trigger s = None /\ subcondition_handlers s = None /\ exists o, rule_timer get_value s = Ok o.
Definition timer_of (s : StableState) : option Z :=
  if ss_uses_timer s then match rule_timer get_value s with Ok o => o | _ => None end else None.

Lemma scan_rule_plain current idx s best w : plain_rule s ->
  scan_rule tk get_value current idx s best w =
  Ok ((match timer_of s with Some t => consider idx t best | None => best end, s), w).
Proof.
  intros (Htr & Hsub & o & Ho). unfold scan_rule, timer_of. rewrite Htr, Ho. destruct s; cbn in *. subst.
  destruct ss_uses_timer0; [|reflexivity]. unfold sbind, slift, drop_rule_trigger, sret. cbn.
  destruct o; reflexivity.
Qed.

(** The scan as a fold over the timers. *)
Fixpoint fold_timers (idx : nat) (l : list StableState) (best : option nat * Z) : option nat * Z :=
  match l with
  | [] => best
  | s :: l' => fold_timers (S idx) l' (match timer_of s with Some t => consider idx t best | None => best end)
  end.
Lemma scan_rules_plain current idx l best w : Forall plain_rule l ->
  scan_rules tk get_value current idx l best w = Ok ((fold_timers idx l best, l), w).
Proof.
  intros Hl. revert idx best. induction Hl as [|s l Hs Hl IH]; intros idx best; [reflexivity |].
  cbn [scan_rules fold_timers]. rewrite (sbind_run _ _ _ _ _ (scan_rule_plain current idx s best w Hs)).
  cbn [fst snd]. by rewrite (sbind_run _ _ _ _ _ (IH _ _)).
Qed.

(** What the scan has found after the rules before [idx]. *)
Definition found (all : list StableState) (idx : nat) (best : option nat * Z) : Prop :=
  match fst best with
  | None => snd best = LONG_MAX /\ forall j s, (j < idx)%nat -> all !! j = Some s -> timer_of s = None
  | Some i => (i < idx)%nat /\ (exists s, all !! i = Some s /\ timer_of s = Some (snd best)) /\
      forall j s t, (j < idx)%nat -> all !! j = Some s -> timer_of s = Some t -> snd best <= t
  end.

Lemma found_step all idx best s : found all idx best -> all !! idx = Some s ->
  found all (S idx) (match timer_of s with Some t => consider idx t best | None => best end).
Proof.
  intros Hf Hs. assert (forall j, (j < S idx)%nat -> j = idx \/ (j < idx)%nat) as Hj by lia.
  destruct best as [[i|] e]; unfold found in *; cbn in Hf.
  - destruct Hf as (Hi & Hex & Hmin). destruct (timer_of s) as [t|] eqn:Et; cbn.
    + unfold consider. cbn. destruct (t <? e) eqn:E; cbn; rewrite ?orb_false_r; cbn.
      * split; [lia |]. split; [by exists s |]. intros j s' t' [-> | Hlt]%Hj Hs' Ht'; [simplify_eq; lia |].
        specialize (Hmin _ _ _ Hlt Hs' Ht'). lia.
      * split; [lia |]. split; [done |]. intros j s' t' [-> | Hlt]%Hj Hs' Ht'; [simplify_eq; lia | by eapply Hmin].
    + split; [lia |]. split; [done |]. intros j s' t' [-> | Hlt]%Hj Hs' Ht'; [by simplify_eq | by eapply Hmin].
  - destruct Hf as [-> Hnone]. destruct (timer_of s) as [t|] eqn:Et.
    + unfold consider. cbn [fst snd]. rewrite (bool_decide_true (None = None)) by done. rewrite orb_true_r. cbn.
      split; [lia |]. split; [by exists s |]. intros j s' t' [-> | Hlt]%Hj Hs' Ht'; [simplify_eq; lia |].
      rewrite (Hnone _ _ Hlt Hs') in Ht'. done.
    + cbn. split; [done |]. intros j s' [-> | Hlt]%Hj Hs'; [by simplify_eq | by eapply Hnone].
Qed.

Lemma fold_timers_found all : forall l pre best, all = pre ++ l -> found all (length pre) best ->
  found all (length all) (fold_timers (length pre) l best).
Proof.
  induction l as [|s l IH]; intros pre best Hall Hf; cbn [fold_timers].
  { by rewrite Hall, app_nil_r in Hf |- *. }
  replace (S (length pre)) with (length (pre ++ [s])) by (rewrite length_app; cbn; lia).
  apply IH; [by rewrite <- app_assoc |]. rewrite length_app. cbn. rewrite Nat.add_1_r.
  apply found_step; [done |]. rewrite Hall. by apply list_lookup_middle.
Qed.

(** Among rules that have no pending trigger and no subconditions, [setState]
    picks the rule with the earliest timer: no rule with a timer is skipped in
    favour of a later one, and no rule is picked only when none has a timer. The
    rules and the heap are left as they were. *)
Theorem scan_picks_earliest current l w : Forall plain_rule l ->
  exists best, scan_rules tk get_value current 0 l (None, LONG_MAX) w = Ok ((best, l), w) /\
    found l (length l) best.
Proof.
  intros Hl. eexists. split; [by apply scan_rules_plain |].
  apply (fold_timers_found l l [] (None, LONG_MAX)); [done |]. split; [done |]. cbn. intros; lia.
Qed.

(** With several subconditions [setupSubconditionTriggers] does not keep the
    earliest timer but the last one that is earlier than the bound it was given:
    of two handlers with timers [t1] and [t2] below the bound, [t2] is the result
    even when [t1] is earlier. *)
Theorem subcondition_last_wins h1 h2 earliest cs1 cs2 t1 t2 w :
  h_uses_timer h1 = true -> h_uses_timer h2 = true -> h_trigger h1 = None -> h_trigger h2 = None ->
  findTimerClauses tk (h_predicate h1) = Ok cs1 -> findTimerClauses tk (h_predicate h2) = Ok cs2 ->
  clauses_timer tk get_value LONG_MAX cs1 = Ok t1 -> clauses_timer tk get_value LONG_MAX cs2 = Ok t2 ->
  t1 < t2 -> t2 < earliest -> earliest <= LONG_MAX ->
  exists hs, subcondition_timer tk get_value true earliest earliest [h1; h2] w = Ok ((t2, hs), w).
Proof.
  intros U1 U2 T1 T2 F1 F2 C1 C2 H12 H2e He. eexists. cbn [subcondition_timer].
  unfold handler_reset. rewrite U1, U2, T1, T2. unfold sbind, slift, drop_rule_trigger, sret. cbn.
  rewrite F1. cbn. rewrite C1. cbn. rewrite F2. cbn. rewrite C2. cbn.
  rewrite (proj2 (Z.ltb_lt t2 LONG_MAX)), (proj2 (Z.ltb_lt t2 earliest)) by lia. cbn. reflexivity.
Qed.
End Properties.

(** ** Witnesses *)
Definition timer_rule (o : PredicateOperator) (n : Z) : StableState :=
  mkStable "s" (Predicate_node (Some (Predicate_value (mkString t_symbol "TIMER" 4))) o
    (Some (Predicate_value (Value_long n)))) true (Value_long n) None None None.
Definition timer_handler (n : Z) : ConditionHandler :=
  mkCondHandler (ss_predicate (timer_rule opGE n)) true None false "go" "".
Definition no_values (s : string) : Value := Value_empty.

Lemma copied_rule_timer_recovered_w : exists s c r,
  StableState_new some_tokens "s" (ss_predicate (timer_rule opGE 5000)) = Ok s /\
  StableState_copy s two_lists = Ok (c, two_lists) /\ refresh_rule some_tokens c = Ok r /\
  rule_timer no_values r = Ok (Some 5000).
Proof.
  eexists.
  destruct (copied_rule_timer_recovered some_tokens no_values "s" (ss_predicate (timer_rule opGE 5000)) _ two_lists eq_refl)
    as (c & Hc & _ & r & Hr & _ & _ & Ht).
  exists c, r. split; [reflexivity |]. split; [exact Hc |]. split; [exact Hr |]. rewrite Ht. reflexivity.
Defined.

Lemma state_timer_never_fires_w : exists t w' tr,
  arm_timer 1%positive (timer_rule opGE 10) 10 two_lists = Ok (Some (10000, t), w') /\
  triggers w' !! t = Some tr /\ is_active tr = false.
Proof.
  destruct (state_timer_never_fires 1%positive (timer_rule opGE 10) 10 two_lists (list_machine [2%positive] [1%positive] []))
    as (t & w' & tr & Ha & _ & Ht & Hi & _); [reflexivity | reflexivity | lia | unfold LONG_MAX; lia |].
  exists t, w', tr. split; [exact Ha |]. split; [exact Ht | exact Hi].
Defined.

Lemma scan_picks_earliest_w : exists best,
  @scan_rules some_tokens no_dyn no_values "s" 0 [timer_rule opGE 30; timer_rule opGE 20] (None, LONG_MAX) two_lists =
  Ok ((best, [timer_rule opGE 30; timer_rule opGE 20]), two_lists) /\ snd best <= 20.
Proof.
  destruct (@scan_picks_earliest some_tokens no_dyn no_values "s" [timer_rule opGE 30; timer_rule opGE 20] two_lists)
    as ([[i|] e] & Hs & Hf).
  - repeat constructor; by eexists.
  - exists (Some i, e). split; [exact Hs |]. destruct Hf as (_ & _ & Hmin).
    apply (Hmin 1%nat (timer_rule opGE 20)); [cbn; lia | reflexivity | reflexivity].
  - destruct Hf as [_ Hnone]. specialize (Hnone O (timer_rule opGE 30) ltac:(cbn; lia) eq_refl). discriminate.
Defined.

Lemma subcondition_last_wins_w : exists hs,
  @subcondition_timer some_tokens no_dyn no_values true 100 100 [timer_handler 10; timer_handler 20] two_lists =
  Ok ((20, hs), two_lists).
Proof.
  apply (@subcondition_last_wins some_tokens no_dyn no_values (timer_handler 10) (timer_handler 20) 100
    [ss_predicate (timer_rule opGE 10)] [ss_predicate (timer_rule opGE 20)] 10 20 two_lists);
    try reflexivity; unfold LONG_MAX; lia.
Defined.
