(* ===== verification/AutoStates.v ===== *)
(** Choosing the state of a machine (MachineInstance.cpp: setStableState,
    checkStableStates, updateLastEvaluationTime, fixListState;
    ConditionHandler.cpp: check).

    The rules of the machines are part of the state: the code iterates over them
    in place while it calls code that may change them. The trace mode is off. *)
From S2P Require Import Prelude Cnum Tokeniser Value ValueOps SymbolTable Message Machine MachineProps Expression.
From S2P Require Import StableStates.
Open Scope Z_scope.
Local Open Scope sm_scope.

Record AWorld := mkAWorld {
  aw : World;
  atoks : Tokeniser;
  arules : gmap ptr (list StableState)
}.
Abbreviation AM := (SM AWorld).

(** What the check of a machine asks of the rest of the interpreter: how names in
    its predicates resolve, the timers, lookup, the states of machines, and the
    operations [setState] and [execute]. *)
Class Surroundings := {
  scope_of : ptr -> World -> Scope;
  dyn_of : World -> DynEnv;
  timers_of : ptr -> World -> Timers;
  lookup_machine : ptr -> string -> World -> option ptr;
  state_name : ptr -> World -> string;
  has_state : ptr -> string -> World -> bool;
  has_members : ptr -> World -> bool;
  set_state : ptr -> string -> AM unit;
  execute_command : ptr -> string -> AM unit
}.

Section Auto.
Variable tk : ClockworkToken.
Context `{!Surroundings}.

(** *** Access to the parts of the state *)
Definition world : AM World := fun s => Ok (aw s, s).
Definition on_heap {A} (m : M A) : AM A := fun s =>
  '(a, w) ← m (aw s); Ok (a, mkAWorld w (atoks s) (arules s)).
Definition get_rule (m : ptr) (i : nat) : AM StableState := fun s =>
  r ← rd (arules s !! m ≫= fun l => l !! i); Ok (r, s).
Definition upd_rule (m : ptr) (i : nat) (f : StableState -> StableState) : AM unit := fun s =>
  Ok (tt, mkAWorld (aw s) (atoks s) (alter (alter f i) m (arules s))).
Definition set_predicate (p : Predicate) (s : StableState) : StableState :=
  mkStable (ss_name s) p (ss_uses_timer s) (ss_timer_val s) (ss_trigger s) (subcondition_handlers s) (ss_owner s).
Definition map_handlers (f : list ConditionHandler -> list ConditionHandler) (s : StableState) : StableState :=
  mkStable (ss_name s) (ss_predicate s) (ss_uses_timer s) (ss_timer_val s) (ss_trigger s)
    (f <$> subcondition_handlers s) (ss_owner s).
Definition get_handler (m : ptr) (i j : nat) : AM ConditionHandler :=
  let! r := get_rule m i in slift (rd (subcondition_handlers r ≫= fun l => l !! j)).
Definition upd_handler (m : ptr) (i j : nat) (f : ConditionHandler -> ConditionHandler) : AM unit :=
  upd_rule m i (map_handlers (alter f j)).
Definition set_h_predicate (p : Predicate) (h : ConditionHandler) : ConditionHandler :=
  mkCondHandler p (h_uses_timer h) (h_trigger h) (triggered h) (command_name h) (flag_name h).
Definition set_triggered (b : bool) (h : ConditionHandler) : ConditionHandler :=
  mkCondHandler (h_predicate h) (h_uses_timer h) (h_trigger h) b (command_name h) (flag_name h).

(** *** Conditions and timer events, in the scope of machine [m] *)
Definition holds (m : ptr) (p : Predicate) : AM (bool * Predicate) := fun s =>
  '((b, q), t) ← @Condition_holds (scope_of m (aw s)) (dyn_of (aw s)) (Some p) (atoks s);
  p' ← rd q;
  Ok ((b, p'), mkAWorld (aw s) t (arules s)).
Fixpoint check_times (n : nat) (m : ptr) : M unit :=
  match n with O => sret tt | S n' => run! setNeedsCheck tk m in check_times n' m end.
Definition schedule (m : ptr) (p : Predicate) (ptd : option (Z * string))
    : AM (option (Z * string) * Predicate) := fun s =>
  '((e, n, p'), t) ← @scheduleTimerEvents tk (scope_of m (aw s)) (dyn_of (aw s)) (timers_of m (aw s))
                       (height p) p ptd (atoks s);
  '(_, w) ← check_times n m (aw s);
  Ok ((e, p'), mkAWorld w t (arules s)).

(** [enqueueAction (SetStateActionTemplate ("SELF", state).factory (m))]. *)
Definition enqueue_state (m : ptr) (state : string) : AM unit :=
  on_heap (let! a := Action_new m None (BSetState "SELF" state) in enqueueAction a m).

(** *** [ConditionHandler::check] *)

(** [setState ( *findState (state))]: the state must exist. *)
Definition set_known_state (m : ptr) (state : string) : AM unit :=
  let! w := world in if has_state m state w then set_state m state else fun _ => Undef.
(** Bring a flag to the state [on] or [off]. *)
Definition set_flag (f : ptr) (state : string) : AM unit :=
  let! w := world in
  if bool_decide (state_name f w = state) then sret tt else
  let! y := on_heap (get_machine f) in
  let? _u := rd (state_machine y) in
  if negb (machine_active y) then set_known_state f state else enqueue_state f state.

Definition handler_condition (m : ptr) (i j : nat) : AM bool :=
  let! h := get_handler m i j in
  let! r := holds m (h_predicate h) in
  run! upd_handler m i j (set_h_predicate (snd r)) in
  sret (fst r).
(** The trigger of a handler, if any, has fired. *)
Definition handler_fired (h : ConditionHandler) : AM bool :=
  match h_trigger h with
  | None => sret true
  | Some t => let! x := on_heap (get_trigger t) in sret (seen x)
  end.
Definition handler_check (m : ptr) (i j : nat) : AM bool :=
  let! h := get_handler m i j in
  run! (if bool_decide (command_name h = "FLAG") then
          let! w := world in
          match lookup_machine m (flag_name h) w with
          | None => sret tt
          | Some f =>
              let! b := handler_condition m i j in
              set_flag f (if b : bool then "on" else "off")
          end
        else
          let! due := (if triggered h then sret false else
                       let! fired := handler_fired h in
                       if fired : bool then handler_condition m i j else sret false) in
          if due : bool then
            run! upd_handler m i j (set_triggered true) in
            run! execute_command m (command_name h) in
            let! h' := get_handler m i j in
            match h_trigger h' with Some t => on_heap (disable t) | None => sret tt end
          else
            let! _b := handler_condition m i j in sret tt) in
  let! h' := get_handler m i j in sret (triggered h').

(** The subconditions of the rule of the current state. *)
Fixpoint check_handlers (n j : nat) (m : ptr) (i : nat) (ptd : option (Z * string))
    : AM (option (Z * string)) :=
  match n with
  | O => sret ptd
  | S n' =>
      let! done := handler_check m i j in
      let! ptd' := (if done : bool then sret ptd else
                    let! h := get_handler m i j in
                    let! e := schedule m (h_predicate h) ptd in
                    run! upd_handler m i j (set_h_predicate (snd e)) in
                    sret (fst e)) in
      check_handlers n' (S j) m i ptd'
  end.
Definition handler_count (s : StableState) : nat := length (default [] (subcondition_handlers s)).

(** *** [setStableState] *)
Definition schedule_rule (m : ptr) (i : nat) (ptd : option (Z * string)) : AM (option (Z * string)) :=
  let! s := get_rule m i in
  if ss_uses_timer s then
    let! e := schedule m (ss_predicate s) ptd in
    run! upd_rule m i (set_predicate (snd e)) in
    sret (fst e)
  else sret ptd.

(** The loop over the rules, up to the first one whose condition holds. The
    results are that rule's index, whether the state is to change, and the
    earliest timer event. *)
Fixpoint check_rules (n i : nat) (m : ptr) (ptd : option (Z * string))
    : AM (option nat * bool * option (Z * string)) :=
  match n with
  | O => sret (None, false, ptd)
  | S n' =>
      let! s := get_rule m i in
      let! r := holds m (ss_predicate s) in
      run! upd_rule m i (set_predicate (snd r)) in
      if fst r then
        let! w := world in
        if negb (bool_decide (state_name m w = ss_name s)) then
          run! upd_rule m i (map_handlers (fmap (set_triggered false))) in
          run! enqueue_state m (ss_name s) in
          sret (Some i, true, ptd)
        else
          let! ptd1 := check_handlers (handler_count s) 0 m i ptd in
          let! ptd2 := schedule_rule m i ptd1 in
          sret (Some i, false, ptd2)
      else
        let! ptd' := schedule_rule m i ptd in
        check_rules n' (S i) m ptd'
  end.

(** Turn off the flags of the rules that are not active. *)
Fixpoint flags_off (n j : nat) (m : ptr) (i : nat) : AM unit :=
  match n with
  | O => sret tt
  | S n' =>
      let! h := get_handler m i j in
      run! (if bool_decide (command_name h = "FLAG") then
              let! w := world in
              match lookup_machine m (flag_name h) w with
              | None => sret tt
              | Some f =>
                  let! y := on_heap (get_machine f) in
                  let? _u := rd (state_machine y) in
                  if bool_decide (state_name f w = "off") then sret tt else set_known_state f "off"
              end
            else sret tt) in
      flags_off n' (S j) m i
  end.
Fixpoint reset_flags (n i : nat) (m : ptr) (active : option nat) (changed : bool) : AM unit :=
  match n with
  | O => sret tt
  | S n' =>
      let! s := get_rule m i in
      run! (if changed && negb (bool_decide (active = Some i))
            then flags_off (handler_count s) 0 m i else sret tt) in
      reset_flags n' (S i) m active changed
  end.

(** A trigger for the earliest event; the scheduled item keeps it. *)
Definition add_trigger (m : ptr) (ptd : option (Z * string)) : AM unit :=
  match ptd with
  | None => sret tt
  | Some (delay, label) =>
      on_heap (let! t := Trigger_new (Some (OwnMachine m)) label in
               run! trigger_retain t in
               run! emit (Schedule delay t) in
               trigger_release t)
  end.

(** [updateLastEvaluationTime]: the clock, the poll interval of the machine, of
    its class and of the system. *)
Record Polling := mkPolling { now : Z; idle_time : Z; class_delay : Z; system_delay : Z }.
Definition poll_time (p : Polling) : Z :=
  u64 (now p + if negb (idle_time p =? 0) then idle_time p
               else if negb (class_delay p =? 0) then class_delay p else system_delay p).

(** The hardware state of a point, the content of a list or a reference. *)
Definition assert_state (m : ptr) (state : string) : AM unit :=
  let! w := world in
  let? _u := assert (has_state m state w) in set_state m state.
Definition fixListState (m : ptr) : AM unit :=
  let! w := world in assert_state m (if has_members m w then "nonempty" else "empty").

Definition rule_count (m : ptr) : AM nat := fun s => Ok (length (default [] (arules s !! m)), s).

Definition setStableState (m : ptr) (p : Polling) (io_state : option string) : AM bool :=
  run! on_heap (suspend_machine m) in
  let! x := on_heap (get_machine m) in
  match state_machine x with
  | None => sret false
  | Some sm =>
      if negb (allow_auto_states sm) then sret false else
      if negb (bool_decide (executing x = None)) || negb (bool_decide (mail_queue x = [])) then sret false else
      run! on_heap (upd_machine m (fun y => set_poll (poll_time p) (set_needs 0 y))) in
      match io_state with
      | Some name =>
          let! w := world in
          run! (if has_state m name w then set_state m name else on_heap (emit (LogError m))) in
          sret false
      | None =>
          if sm_token sm =? tokLIST tk then run! fixListState m in sret false
          else if sm_token sm =? tokREFERENCE tk then
            let! w := world in
            run! assert_state m (if has_members m w then "ASSIGNED" else "EMPTY") in sret false
          else
            let! n := rule_count m in
            let! r := check_rules n 0 m None in
            let! n' := rule_count m in
            run! reset_flags n' 0 m (fst (fst r)) (snd (fst r)) in
            run! add_trigger m (snd r) in
            sret (snd (fst r))
      end
  end.

(** *** [checkStableStates]: the machines queued for a check *)
Definition pending_erase (m : ptr) : M unit :=
  modify (fun w => with_pending (pending_state_change w ∖ {[m]}) w).
Definition check_machine (polling : ptr -> Polling) (io_state : ptr -> option string) (m : ptr) : AM unit :=
  let! x := on_heap (get_machine m) in
  if bool_decide (executing x = None) && bool_decide (mail_queue x = []) then
    let! keep := (if negb (is_enabled x) then sret false else
                  let? sm := rd (state_machine x) in
                  if negb (allow_auto_states sm) then sret false
                  else setStableState m (polling m) (io_state m)) in
    if keep : bool then sret tt else on_heap (pending_erase m)
  else if is_enabled x then
    on_heap (run! workset_add m in run! pending_erase m in activate m)
  else sret tt.
Fixpoint check_machines (polling : ptr -> Polling) (io_state : ptr -> option string) (to_process : list ptr)
    : AM unit :=
  match to_process with
  | [] => sret tt
  | m :: rest => run! check_machine polling io_state m in check_machines polling io_state rest
  end.
Definition checkStableStates (polling : ptr -> Polling) (io_state : ptr -> option string) (to_process : list ptr)
    : AM bool :=
  run! on_heap (modify (with_checks 0)) in
  run! check_machines polling io_state to_process in sret true.
End Auto.
