(* ===== verification/AutoStatesProps.v ===== *)
(** Properties of the choice of states: the first rule whose condition holds
    decides, and the machine is left with exactly the state change it needs. *)
From S2P Require Import Prelude Cnum Tokeniser Value ValueOps SymbolTable Message Machine MachineProps Expression.
From S2P Require Import ExpressionProps StableStates AutoStates.
Open Scope Z_scope.
Local Open Scope sm_scope.

(** Worlds that differ in check counters, poll times and queues only. *)
Definition same_machine (x y : Machine) : Prop := y = set_poll (next_poll y) (set_needs (needs_check y) x).
Record unseen (w w' : World) : Prop := {
  un_triggers : triggers w' = triggers w;
  un_actions : actions w' = actions w;
  un_machines : map_Forall2 (fun _ => same_machine) (machines w) (machines w')
}.
Lemma same_machine_stack x y : same_machine x y -> active_actions y = active_actions x.
Proof. by intros ->. Qed.
Lemma same_machine_trans x y z : same_machine x y -> same_machine y z -> same_machine x z.
Proof. unfold same_machine. intros -> ->. by destruct x. Qed.
Lemma unseen_trans w1 w2 w3 : unseen w1 w2 -> unseen w2 w3 -> unseen w1 w3.
Proof.
  intros [T1 A1 M1] [T2 A2 M2]. split; [congruence | congruence |]. intros m. specialize (M1 m). specialize (M2 m).
  destruct M1; inversion M2; subst; constructor. by eapply same_machine_trans.
Qed.
Lemma checked_unseen w w' : checked w w' -> unseen w w'.
Proof.
  intros []. split; [done | done |]. intros m. specialize (ck_machines m).
  inversion ck_machines as [x y [Hf _] |]; constructor. done.
Qed.
Lemma unseen_lookup w w' m x : unseen w w' -> machines w !! m = Some x ->
  exists y, machines w' !! m = Some y /\ same_machine x y.
Proof. intros [] E. specialize (un_machines0 m). rewrite E in un_machines0. inversion un_machines0; eauto. Qed.

(** No predicate, timer or lookup depends on check counters and queues. *)
Class SteadySurroundings `{!Surroundings} : Prop := {
  steady_scope m w w' : unseen w w' -> scope_of m w' = scope_of m w;
  steady_dyn w w' : unseen w w' -> dyn_of w' = dyn_of w;
  steady_timers m w w' : unseen w w' -> timers_of m w' = timers_of m w;
  steady_state m w w' : unseen w w' -> state_name m w' = state_name m w
}.

Section Choice.
Variable tk : ClockworkToken.
Context `{!Surroundings} `{!SteadySurroundings}.

Lemma check_times_ok n : forall w m B, checks_ok w -> is_Some (machines w !! m) -> bounded B w -> 2 <= B ->
  B + Z.of_nat n <= INT_MAX ->
  exists w', check_times tk n m w = Ok (tt, w') /\ checked w w' /\ bounded (B + Z.of_nat n) w'.
Proof.
  induction n as [|n IH]; intros w m B Hok [x Hx] Hb H2 Hn.
  { exists w. split; [done |]. split; [done |]. by rewrite Z.add_0_r. }
  pose proof (Hb m x Hx) as Hle. cbn in Hle.
  destruct (setNeedsCheck_ok tk m w x Hok Hx) as (w1 & R1 & C1 & B1); [lia |].
  destruct (IH w1 m (B + 1)) as (w2 & R2 & C2 & B2).
  - by eapply checked_ok.
  - destruct (checked_lookup _ _ _ _ C1 Hx) as (y & -> & _). done.
  - apply B1; [lia | lia |]. intros m' x' Hx'. specialize (Hb m' x' Hx'). cbn in *. lia.
  - lia.
  - lia.
  - exists w2. cbn [check_times]. rewrite (sbind_run _ _ _ _ _ R1). split; [done |].
    split; [by etransitivity |]. by replace (B + Z.of_nat (S n)) with (B + 1 + Z.of_nat n) by lia.
Qed.

(** Rule [s] of machine [m] evaluates to [b] in world [w] and, if it uses a
    timer, looking for its timer events returns and asks for [n] more checks. *)
Definition evaluates (m : ptr) (w : World) (s : StableState) (b : bool) (n : nat) : Prop :=
  forall t, exists p' t1,
    @Condition_holds (scope_of m w) (dyn_of w) (Some (ss_predicate s)) t = Ok ((b, Some p'), t1) /\
    (ss_uses_timer s = true -> forall e, exists e' p'' t2,
      @scheduleTimerEvents tk (scope_of m w) (dyn_of w) (timers_of m w) (height p') p' e t1 = Ok ((e', n, p''), t2)).

Lemma holds_run m w0 s b n st : evaluates m w0 s b n -> unseen w0 (aw st) ->
  exists p' t1, holds m (ss_predicate s) st = Ok ((b, p'), mkAWorld (aw st) t1 (arules st)) /\
    (ss_uses_timer s = true -> forall e, exists e' p'' t2,
      @scheduleTimerEvents tk (scope_of m (aw st)) (dyn_of (aw st)) (timers_of m (aw st)) (height p') p' e t1 =
      Ok ((e', n, p''), t2)).
Proof.
  intros He Hu. destruct (He (atoks st)) as (p' & t1 & Hc & Hs). exists p', t1. unfold holds.
  rewrite (steady_scope _ _ _ Hu), (steady_dyn _ _ Hu), (steady_timers _ _ _ Hu), Hc. done.
Qed.

Lemma get_rule_run m i l r st : arules st !! m = Some l -> l !! i = Some r -> get_rule m i st = Ok (r, st).
Proof. intros E1 E2. unfold get_rule. rewrite E1. cbn. by rewrite E2. Qed.

(** No subcondition of the rule keeps a flag. *)
Definition flagless (s : StableState) : Prop :=
  Forall (fun h => command_name h <> "FLAG") (default [] (subcondition_handlers s)).
(** The rules from [i] on are those of [rest], none keeps flags. *)
Definition rules_from (m : ptr) (i : nat) (rest : list StableState) (st : AWorld) : Prop :=
  exists pre, arules st !! m = Some (pre ++ rest) /\ length pre = i /\ Forall flagless (pre ++ rest).
Lemma rules_from_head m i s rest st : rules_from m i (s :: rest) st ->
  get_rule m i st = Ok (s, st) /\ flagless s.
Proof.
  intros (pre & E & <- & Hf). split.
  - eapply get_rule_run; [exact E |]. by apply list_lookup_middle.
  - apply Forall_app in Hf as [_ Hf]. by inversion Hf.
Qed.
Lemma rules_from_update m i s rest st p w t : rules_from m i (s :: rest) st ->
  rules_from m i (set_predicate p s :: rest) (mkAWorld w t (alter (alter (set_predicate p) i) m (arules st))).
Proof.
  intros (pre & E & <- & Hf). exists pre. cbn [arules]. rewrite lookup_alter_eq, E. cbn.
  rewrite alter_app_r_alt, Nat.sub_diag by lia. cbn. split; [done |]. split; [done |].
  apply Forall_app in Hf as [H1 H2]. inversion H2; subst. by apply Forall_app_2; [| constructor].
Qed.
Lemma rules_from_step m i s rest st : rules_from m i (s :: rest) st -> rules_from m (S i) rest st.
Proof.
  intros (pre & E & <- & Hf). exists (pre ++ [s]). rewrite <- app_assoc, length_app. cbn.
  split; [done |]. split; [lia | done].
Qed.
Lemma rules_from_world m i rest w t st : rules_from m i rest st -> rules_from m i rest (mkAWorld w t (arules st)).
Proof. done. Qed.

(** The timer events of a rule. *)
Lemma schedule_rule_run m i s rest p' st n e B : rules_from m i (set_predicate p' s :: rest) st ->
  (ss_uses_timer s = true -> forall e, exists e' p'' t2,
    @scheduleTimerEvents tk (scope_of m (aw st)) (dyn_of (aw st)) (timers_of m (aw st)) (height p') p' e (atoks st) =
    Ok ((e', n, p''), t2)) ->
  checks_ok (aw st) -> is_Some (machines (aw st) !! m) -> bounded B (aw st) -> 2 <= B -> B + Z.of_nat n <= INT_MAX ->
  exists e' p'' st', schedule_rule tk m i e st = Ok (e', st') /\ checked (aw st) (aw st') /\
    bounded (B + Z.of_nat n) (aw st') /\ rules_from m i (set_predicate p'' s :: rest) st'.
Proof.
  intros Hr Hs Hok Hm Hb H2 Hn. unfold schedule_rule.
  rewrite (sbind_run _ _ _ _ _ (proj1 (rules_from_head _ _ _ _ _ Hr))). cbn [set_predicate ss_uses_timer ss_predicate].
  destruct (ss_uses_timer s) eqn:Eu.
  - destruct (Hs eq_refl e) as (e' & p'' & t2 & He). destruct (check_times_ok n (aw st) m B Hok Hm Hb H2 Hn) as (w' & Rc & Cc & Bc).
    exists e', p'', (mkAWorld w' t2 (alter (alter (set_predicate p'') i) m (arules st))).
    erewrite sbind_run; [|unfold schedule; rewrite He; cbn; rewrite Rc; reflexivity].
    split; [reflexivity |]. split; [done |]. split; [done |].
    apply (rules_from_update m i (set_predicate p' s) rest st p'' w' t2) in Hr. exact Hr.
  - exists e, p', st. split; [done |]. split; [done |]. split; [|done].
    intros m' x' Hx'. specialize (Hb m' x' Hx'). cbn in *. lia.
Qed.

(** The state change that a machine is left with. *)
Definition bodies (w : World) (x : Machine) : list (option Body) :=
  (fun a => body <$> actions w !! a) <$> active_actions x.
Lemma enqueue_state_run m x state st : machines (aw st) !! m = Some x -> active_actions x = [] ->
  exists st' x', enqueue_state m state st = Ok (tt, st') /\ arules st' = arules st /\
    machines (aw st') !! m = Some x' /\ bodies (aw st') x' = [Some (BSetState "SELF" state)].
Proof.
  intros Hx Hs. destruct st as [w t rules]. cbn in Hx. set (a := fresh (dom (actions w))).
  eexists _, _. split.
  - unfold enqueue_state, on_heap, Action_new, alloc_action, enqueueAction, upd_machine, get_machine, modify, sbind.
    cbn. rewrite Hx. cbn. rewrite lookup_insert_eq. cbn. reflexivity.
  - cbn. split; [done |]. split; [apply lookup_insert_eq |]. unfold bodies. cbn. rewrite Hs. cbn.
    by rewrite lookup_insert_eq.
Qed.

(** The rule that decides, if it is that of the current state, has no subconditions. *)
Definition settled_plainly (truth : StableState -> bool) (current : string) (l : list StableState) : Prop :=
  forall c, List.find truth l = Some c -> current = ss_name c -> subcondition_handlers c = None.
(** What the loop over the rules leaves behind. *)
Definition wanted (truth : StableState -> bool) (current : string) (l : list StableState) : list (option Body) :=
  match List.find truth l with
  | Some c => if bool_decide (current = ss_name c) then [] else [Some (BSetState "SELF" (ss_name c))]
  | None => []
  end.
Definition no_flags (m : ptr) (len : nat) (st : AWorld) : Prop :=
  exists l, arules st !! m = Some l /\ length l = len /\ Forall flagless l.
Lemma rules_from_none m i rest st : rules_from m i rest st -> no_flags m (i + length rest) st.
Proof. intros (pre & E & <- & Hf). exists (pre ++ rest). by rewrite length_app. Qed.

Lemma check_rules_run m w0 x0 truth calls : machines w0 !! m = Some x0 -> active_actions x0 = [] ->
  forall rest i ptd st B, rules_from m i rest st ->
  Forall (fun s => evaluates m w0 s (truth s) (calls s)) rest -> settled_plainly truth (state_name m w0) rest ->
  unseen w0 (aw st) -> checks_ok (aw st) -> bounded B (aw st) -> 2 <= B ->
  B + Z.of_nat (list_sum (calls <$> rest)) <= INT_MAX ->
  exists active e st' x', check_rules tk (length rest) i m ptd st =
      Ok ((active, negb (bool_decide (wanted truth (state_name m w0) rest = [])), e), st') /\
    no_flags m (i + length rest) st' /\ machines (aw st') !! m = Some x' /\
    bodies (aw st') x' = wanted truth (state_name m w0) rest.
Proof.
  intros Hx0 Hs0. induction rest as [|s rest IH]; intros i ptd st B Hr He Hp Hu Hok Hb H2 HB.
  { destruct (unseen_lookup _ _ _ _ Hu Hx0) as (x & Hx & Hsame). exists None, ptd, st, x. split; [done |].
    split; [by apply rules_from_none in Hr |]. split; [done |]. unfold bodies. by rewrite (same_machine_stack _ _ Hsame), Hs0. }
  apply Forall_cons_1 in He as [He Hrest]. change (list_sum (calls <$> s :: rest)) with (calls s + list_sum (calls <$> rest))%nat in HB.
  destruct (rules_from_head _ _ _ _ _ Hr) as [Hget Hflag].
  destruct (holds_run m w0 s _ _ st He Hu) as (p' & t1 & Hh & Hsch).
  set (st1 := mkAWorld (aw st) t1 (alter (alter (set_predicate p') i) m (arules st))).
  assert (rules_from m i (set_predicate p' s :: rest) st1) as Hr1 by (by apply rules_from_update).
  destruct (unseen_lookup _ _ _ _ Hu Hx0) as (x & Hx & Hsame).
  assert (active_actions x = []) as Hsx by (by rewrite (same_machine_stack _ _ Hsame)).
  cbn [check_rules length]. rewrite (sbind_run _ _ _ _ _ Hget), (sbind_run _ _ _ _ _ Hh).
  rewrite (sbind_run _ _ _ tt st1) by reflexivity. cbn [fst snd].
  unfold wanted. cbn [List.find]. destruct (truth s) eqn:Et.
  - rewrite (sbind_run world _ st1 (aw st) st1) by reflexivity. rewrite (steady_state m _ _ Hu).
    destruct (bool_decide (state_name m w0 = ss_name s)) eqn:Ename; cbn [negb].
    + apply bool_decide_eq_true in Ename.
      assert (subcondition_handlers s = None) as Hnone by (apply Hp; [cbn; by rewrite Et | done]).
      unfold handler_count. rewrite Hnone. cbn [default length check_handlers].
      rewrite (sbind_run (sret ptd) _ st1 ptd st1) by reflexivity.
      destruct (schedule_rule_run m i s rest p' st1 (calls s) ptd B Hr1 Hsch Hok) as (e' & p'' & st' & Rs & Cs & _ & Hr2);
        [by eexists | done | done | lia |].
      destruct (checked_lookup _ _ _ _ Cs Hx) as (y & Hy & [Hf _]).
      exists (Some i), e', st', y. rewrite (sbind_run _ _ _ _ _ Rs). split; [done |].
      split; [by apply rules_from_none in Hr2 |]. split; [done |]. unfold bodies. by rewrite (same_machine_stack _ _ Hf), Hsx.
    + set (st2 := mkAWorld (aw st) t1 (alter (alter (map_handlers (fmap (set_triggered false))) i) m (arules st1))).
      rewrite (sbind_run _ _ _ tt st2) by reflexivity.
      destruct (enqueue_state_run m x (ss_name s) st2 Hx Hsx) as (st' & x' & Re & Ea & Hx' & Hbod).
      exists (Some i), ptd, st', x'. rewrite (sbind_run _ _ _ _ _ Re). split; [done |]. split; [|done].
      destruct (rules_from_none _ _ _ _ Hr1) as (l & El & Hlen & Hfl).
      exists (alter (map_handlers (fmap (set_triggered false))) i l). rewrite Ea. cbn [arules st2].
      rewrite lookup_alter_eq, El. split; [done |]. rewrite length_alter. split; [done |].
      apply Forall_alter; [done |]. intros r _ Hn. unfold flagless in *. cbn in *.
      destruct (subcondition_handlers r); [|done]. cbn in *. by apply Forall_fmap.
  - destruct (schedule_rule_run m i s rest p' st1 (calls s) ptd B Hr1 Hsch Hok) as (e' & p'' & st' & Rs & Cs & Bs & Hr2);
      [by eexists | done | done | lia |].
    rewrite (sbind_run _ _ _ _ _ Rs). apply rules_from_step in Hr2.
    destruct (IH (S i) e' st' (B + Z.of_nat (calls s))) as (active & e'' & st'' & x' & R & N & Hx' & Hbod); try done.
    + intros c Hc. apply Hp. cbn. by rewrite Et.
    + eapply unseen_trans; [exact Hu | by apply checked_unseen].
    + by eapply checked_ok.
    + lia.
    + lia.
    + exists active, e'', st'', x'. split; [exact R |]. split; [|done]. by rewrite Nat.add_succ_comm in N.
Qed.

(** The last steps change neither machines nor actions. *)
Lemma flags_off_run m i l s st : arules st !! m = Some l -> l !! i = Some s -> flagless s ->
  forall n j, (j + n <= handler_count s)%nat -> flags_off n j m i st = Ok (tt, st).
Proof.
  intros El Es Hf. induction n as [|n IH]; intros j Hj; [done |]. cbn [flags_off]. unfold handler_count in *.
  unfold flagless in Hf. destruct (lookup_lt_is_Some_2 (default [] (subcondition_handlers s)) j) as [h Hh]; [lia |].
  rewrite (sbind_run (get_handler m i j) _ st h st).
  2: { unfold get_handler. rewrite (sbind_run _ _ _ _ _ (get_rule_run m i l s st El Es)).
       destruct (subcondition_handlers s); [|done]. cbn in *. unfold slift. by rewrite Hh. }
  rewrite Forall_lookup in Hf. rewrite bool_decide_false by (by apply (Hf j)).
  rewrite (sbind_run (sret tt) _ st tt st) by done. apply IH. lia.
Qed.
Lemma reset_flags_plain m active changed : forall n i st, no_flags m (i + n) st ->
  reset_flags n i m active changed st = Ok (tt, st).
Proof.
  induction n as [|n IH]; intros i st Hn; [done |]. cbn [reset_flags].
  destruct Hn as (l & El & Hlen & Hf). destruct (lookup_lt_is_Some_2 l i) as [s Hs]; [lia |].
  rewrite (sbind_run _ _ _ _ _ (get_rule_run m i l s st El Hs)).
  rewrite Forall_lookup in Hf.
  rewrite (sbind_run _ _ st tt st) by (destruct (changed && _); [|done]; apply (flags_off_run m i l s st El Hs (Hf i s Hs)); lia).
  apply IH. exists l. split; [done |]. split; [lia |]. by apply Forall_lookup.
Qed.
Lemma add_trigger_run m ptd st : exists st', add_trigger m ptd st = Ok (tt, st') /\
  machines (aw st') = machines (aw st) /\ actions (aw st') = actions (aw st).
Proof.
  destruct ptd as [[d label]|]; [|by exists st]. destruct st as [w t rules]. eexists. split.
  - unfold add_trigger, on_heap, Trigger_new, alloc_trigger, trigger_retain, trigger_release, upd_trigger,
      get_trigger, emit, modify, slift, assert, sbind.
    repeat first [progress cbn | rewrite lookup_insert_eq | progress change (0 <? 1 + 1) with true
      | progress change (1 + 1 - 1 =? 0) with false]. reflexivity.
  - done.
Qed.

(** C2: the first rule whose condition holds decides the state. A check of a machine
    whose class has automatic states, is no LIST and no REFERENCE, without a device, with
    nothing to execute and no mail returns; if the state of that rule is not the current
    one, exactly one action is queued, which changes to it, and the check reports a
    change; otherwise (also when no condition holds) nothing is queued. Later rules, true
    or not, have no influence. Every rule can be evaluated and its timer events found
    ([evaluates]); rules may have subconditions with commands, but none with FLAG, and the
    rule that decides has none if it is that of the current state. What conditions look
    up does not depend on check counters and queues, and the counters of pending checks
    must not overflow. *)
Theorem first_true_rule_wins m p w t rules l x sm truth calls B :
  machines w !! m = Some x -> state_machine x = Some sm -> allow_auto_states sm = true ->
  active_actions x = [] -> mail_queue x = [] ->
  sm_token sm <> tokLIST tk -> sm_token sm <> tokREFERENCE tk ->
  rules !! m = Some l -> Forall flagless l -> settled_plainly truth (state_name m w) l ->
  Forall (fun s => evaluates m w s (truth s) (calls s)) l ->
  checks_ok w -> bounded B w -> 2 <= B -> B + Z.of_nat (list_sum (calls <$> l)) <= INT_MAX ->
  exists st' x', setStableState tk m p None (mkAWorld w t rules) =
      Ok (negb (bool_decide (wanted truth (state_name m w) l = [])), st') /\
    machines (aw st') !! m = Some x' /\ bodies (aw st') x' = wanted truth (state_name m w) l.
Proof.
  intros Hx Hsm Hauto Hstack Hmail Hl Href Hrules Hplain Hsp He Hok Hb H2 HB.
  set (x1 := set_poll (poll_time p) (set_needs 0 x)).
  set (w1 := with_machines (<[m := x1]> (machines w)) (with_runnable (runnable w ∖ {[m]}) w)).
  assert (unseen w w1) as Hu.
  { split; [done | done |]. intros m'. cbn. destruct (decide (m = m')) as [<- | Hne].
    - rewrite lookup_insert_eq, Hx. by constructor.
    - rewrite lookup_insert_ne by done. destruct (machines w !! m') as [y|]; constructor. by destruct y. }
  assert (checks_ok w1) as Hok1.
  { by apply (checks_ok_set w w1 m x x1). }
  assert (bounded B w1) as Hb1 by (apply map_Forall_insert_2; [cbn; lia | done]).
  destruct (check_rules_run m w x truth calls Hx Hstack l 0 None (mkAWorld w1 t rules) B)
    as (active & e & st2 & x2 & R & N & Hx2 & Hbod); try done.
  { by exists []. }
  destruct (add_trigger_run m e st2) as (st3 & Ra & Em & Ea).
  exists st3, x2. rewrite Em. split; [|split; [done |]]; cycle 1.
  { unfold bodies in *. by rewrite Ea. }
  unfold setStableState. rewrite (sbind_run _ _ _ tt (mkAWorld (with_runnable (runnable w ∖ {[m]}) w) t rules)) by reflexivity.
  erewrite sbind_run; [|unfold on_heap, get_machine; cbn; rewrite Hx; reflexivity].
  rewrite Hsm, Hauto. unfold executing. rewrite Hstack, Hmail. cbn [negb list.last].
  rewrite !bool_decide_true by done. cbn [negb orb].
  rewrite (sbind_run _ _ _ tt (mkAWorld w1 t rules))
    by (unfold on_heap, upd_machine, get_machine, sbind; cbn; rewrite Hx; reflexivity).
  rewrite (proj2 (Z.eqb_neq _ _) Hl), (proj2 (Z.eqb_neq _ _) Href).
  erewrite (sbind_run (rule_count m)); [|unfold rule_count; cbn; rewrite Hrules; reflexivity]. cbn [default].
  rewrite (sbind_run _ _ _ _ _ R).
  destruct N as (l2 & El2 & Hlen & Hf2).
  erewrite (sbind_run (rule_count m)); [|unfold rule_count; rewrite El2; reflexivity]. cbn [default fst snd].
  rewrite (sbind_run _ _ _ tt st2) by (apply reset_flags_plain; by exists l2).
  by rewrite (sbind_run _ _ _ _ _ Ra).
Qed.
End Choice.

(** ** Witness *)
Definition quiet_surroundings : Surroundings :=
  {| scope_of := fun _ _ => empty_scope; dyn_of := fun _ => no_dyn; timers_of := fun _ _ => some_timers;
     lookup_machine := fun _ _ _ => None; state_name := fun _ _ => "off"; has_state := fun _ _ _ => true;
     has_members := fun _ _ => false; set_state := fun _ _ => sret tt; execute_command := fun _ _ => sret tt |}.
Lemma quiet_steady : @SteadySurroundings quiet_surroundings.
Proof. by split. Qed.

(** Rules [broken WHEN 1 > 2; on WHEN 1 < 2; off WHEN 1 < 2] of a machine that is
    off; the rule of [on] executes a command [warn] when a subcondition holds. *)
Definition order_rule (name : string) (o : PredicateOperator) : StableState :=
  mkStable name (Predicate_node (Some (number_leaf 1)) o (Some (number_leaf 2))) false (Value_int 0) None None None.
Definition warned (s : StableState) : StableState :=
  mkStable (ss_name s) (ss_predicate s) (ss_uses_timer s) (ss_timer_val s) (ss_trigger s)
    (Some [mkCondHandler (number_leaf 1) false None false "warn" ""]) (ss_owner s).
Definition three_rules : list StableState := [order_rule "broken" opGT; warned (order_rule "on" opLT); order_rule "off" opLT].
Definition order_truth (s : StableState) : bool := bool_decide (op (ss_predicate s) = opLT).
Definition plain_machine : Machine := mkMachine "m" true true 0 (Some (mkClass 99 true)) 0 [] [] false 0 [] 0 None.
Definition plain_world : World := mkWorld ∅ ∅ {[ 1%positive := plain_machine ]} ∅ ∅ ∅ 0 0 [].
Lemma plain_world_ok : checks_ok plain_world.
Proof. split; cbn [machines plain_world]; intros m x; [|intros d]; intros [<- <-]%lookup_singleton_Some; [cbn; lia | by intros ?%elem_of_nil]. Qed.
Lemma order_rule_evaluates name o : o = opGT \/ o = opLT ->
  @evaluates some_tokens quiet_surroundings 1%positive plain_world (order_rule name o) (bool_decide (o = opLT)) 0.
Proof. intros [-> | ->] t; do 2 eexists; (split; [lazy; reflexivity | intros _ e; do 3 eexists; lazy; reflexivity]). Qed.

Lemma first_true_rule_wins_w : exists st' x',
  @setStableState some_tokens quiet_surroundings 1%positive (mkPolling 0 0 0 100) None
    (mkAWorld plain_world Tokeniser_new {[ 1%positive := three_rules ]}) = Ok (true, st') /\
  machines (aw st') !! 1%positive = Some x' /\ bodies (aw st') x' = [Some (BSetState "SELF" "on")].
Proof.
  apply (@first_true_rule_wins some_tokens quiet_surroundings quiet_steady 1%positive (mkPolling 0 0 0 100) plain_world
    Tokeniser_new {[ 1%positive := three_rules ]} three_rules plain_machine (mkClass 99 true) order_truth (fun _ => 0%nat) 2);
    try reflexivity; try (cbn; lia).
  - by repeat constructor.
  - by intros c [= <-].
  - repeat constructor; [by apply order_rule_evaluates; left | | by apply order_rule_evaluates; right].
    exact (order_rule_evaluates "on" opLT ltac:(by right)).
  - apply plain_world_ok.
  - apply map_Forall_singleton. cbn. lia.
  - unfold INT_MAX. cbn. lia.
Defined.
