(* ===== verification/BitOps.v ===== *)
(** Bits of process data (bit_ops.cpp): single bits of a byte and the masked copy
    by which the outputs of the machines are merged into the data exchanged with
    the hardware. *)
From S2P Require Import Prelude.
Open Scope Z_scope.

(** A byte is a number below 256. *)
Definition byte (z : Z) : Prop := 0 <= z < 256.

(** [set_bit]: the shift is on [int], its result is cut to a byte. *)
Definition set_bit (q bitpos val : Z) : res Z :=
  if bitpos <? 32 then
    let bitmask := u8 (Z.shiftl 1 bitpos) in
    Ok (if negb (val =? 0) then u8 (Z.lor q bitmask) else u8 (Z.land q (u8 (255 - bitmask))))
  else Undef.

(** The inner loop of [copyMaskedBits]. *)
Definition copy_bit (bitmask dest src mask : Z) : Z :=
  if negb (Z.land mask bitmask =? 0) then
    if negb (Z.land src bitmask =? 0) then u8 (Z.lor dest bitmask)
    else u8 (Z.land dest (u8 (255 - bitmask)))
  else dest.
Fixpoint copy_bits (n : nat) (bitmask dest src mask : Z) : Z :=
  match n with
  | O => dest
  | S n' => copy_bits n' (Z.shiftr bitmask 1) (copy_bit bitmask dest src mask) src mask
  end.
(** The outer loop: byte by byte; reading or writing outside of a buffer is
    undefined. *)
Fixpoint copyMaskedBits (len : nat) (dest src mask : list Z) : res (list Z) :=
  match len with
  | O => Ok dest
  | S len' =>
      match dest, src, mask with
      | d :: dest', s :: src', m :: mask' =>
          rest ← copyMaskedBits len' dest' src' mask';
          Ok (copy_bits 8 128 d s m :: rest)
      | _, _, _ => Undef
      end
  end.

(** ** Properties *)
Lemma byte_bits z k : byte z -> 8 <= k -> Z.testbit z k = false.
Proof.
  intros Hz Hk. destruct (Z.eq_dec z 0) as [-> | Hne]; [apply Z.bits_0 |].
  apply Z.bits_above_log2; [apply Hz |]. apply Z.lt_le_trans with 8; [|done].
  apply Z.log2_lt_pow2; unfold byte in *; cbn; lia.
Qed.
Lemma u8_bits z k : 0 <= k -> Z.testbit (u8 z) k = (k <? 8) && Z.testbit z k.
Proof.
  intros Hk. unfold u8. destruct (Z.ltb_spec k 8).
  - by apply Z.mod_pow2_bits_low.
  - cbn. apply Z.mod_pow2_bits_high. lia.
Qed.
Lemma u8_byte z : byte (u8 z).
Proof. apply Z.mod_pos_bound. lia. Qed.
Lemma mask_bit z k : 0 <= k -> negb (Z.land z (2 ^ k) =? 0) = Z.testbit z k.
Proof.
  intros Hk. destruct (Z.testbit z k) eqn:E.
  - apply negb_true_iff, Z.eqb_neq. intros H0. apply (f_equal (fun x => Z.testbit x k)) in H0.
    rewrite Z.land_spec, Z.pow2_bits_true, E, Z.bits_0 in H0 by done. done.
  - apply negb_false_iff, Z.eqb_eq. apply Z.bits_inj'. intros j Hj. rewrite Z.land_spec, Z.bits_0.
    destruct (Z.eq_dec j k) as [-> | Hne]; [by rewrite E |]. rewrite Z.pow2_bits_false by done. apply andb_false_r.
Qed.
Lemma bit_cases k : 0 <= k < 8 -> k = 0 \/ k = 1 \/ k = 2 \/ k = 3 \/ k = 4 \/ k = 5 \/ k = 6 \/ k = 7.
Proof. lia. Qed.
Lemma cleared_bits k j : 0 <= k < 8 -> 0 <= j < 8 -> Z.testbit (u8 (255 - 2 ^ k)) j = negb (j =? k).
Proof.
  intros Hk Hj.
  apply bit_cases in Hk, Hj. destruct_or! Hk; destruct_or! Hj; subst; reflexivity.
Qed.

(** Setting or clearing one bit of a byte. *)
Definition put_bit (b : bool) (k d : Z) : Z :=
  if b then u8 (Z.lor d (2 ^ k)) else u8 (Z.land d (u8 (255 - 2 ^ k))).
Lemma put_bit_spec b k d j : byte d -> 0 <= k < 8 -> 0 <= j ->
  Z.testbit (put_bit b k d) j = if j =? k then b else Z.testbit d j.
Proof.
  intros Hd Hk Hj. unfold put_bit. destruct (Z.ltb_spec j 8) as [H8 | H8].
  - destruct b; rewrite u8_bits by done; rewrite (proj2 (Z.ltb_lt j 8)) by done; cbn [andb].
    + rewrite Z.lor_spec, Z.pow2_bits_eqb by lia. rewrite (Z.eqb_sym k j). destruct (j =? k); [apply orb_true_r | apply orb_false_r].
    + rewrite Z.land_spec, cleared_bits by lia. destruct (j =? k); [apply andb_false_r | apply andb_true_r].
  - rewrite (byte_bits (if b then _ else _)) by (try lia; destruct b; apply u8_byte).
    rewrite (proj2 (Z.eqb_neq j k)) by lia. by rewrite byte_bits.
Qed.
Lemma put_bit_byte b k d : byte (put_bit b k d).
Proof. unfold put_bit. destruct b; apply u8_byte. Qed.

(** What a masked copy should do to bit [k]. *)
Definition chosen (d s m k : Z) : bool := if Z.testbit m k then Z.testbit s k else Z.testbit d k.
Lemma copy_bit_spec k d s m j : byte d -> 0 <= k < 8 -> 0 <= j ->
  byte (copy_bit (2 ^ k) d s m) /\
  Z.testbit (copy_bit (2 ^ k) d s m) j = if j =? k then chosen d s m k else Z.testbit d j.
Proof.
  intros Hd Hk Hj. unfold copy_bit, chosen. rewrite !mask_bit by lia. destruct (Z.testbit m k).
  - pose proof (put_bit_byte (Z.testbit s k) k d). pose proof (put_bit_spec (Z.testbit s k) k d j Hd Hk Hj).
    unfold put_bit in *. by destruct (Z.testbit s k).
  - split; [done |]. destruct (Z.eqb_spec j k); [by subst | done].
Qed.
Lemma copy_bits_spec n : forall d s m j, (n < 8)%nat -> byte d -> 0 <= j ->
  byte (copy_bits (S n) (2 ^ Z.of_nat n) d s m) /\
  Z.testbit (copy_bits (S n) (2 ^ Z.of_nat n) d s m) j = if j <=? Z.of_nat n then chosen d s m j else Z.testbit d j.
Proof.
  induction n as [|n IH]; intros d s m j Hn Hd Hj; cbn [copy_bits].
  { destruct (copy_bit_spec 0 d s m j Hd) as [Hb Hbit]; [lia | done |]. change (2 ^ Z.of_nat 0) with (2 ^ 0).
    split; [done |]. rewrite Hbit. change (Z.of_nat 0) with 0. destruct (Z.eqb_spec j 0); [by subst |].
    by rewrite (proj2 (Z.leb_gt j 0)) by lia. }
  destruct (copy_bit_spec (Z.of_nat (S n)) d s m j Hd) as [Hb Hbit]; [lia | done |].
  replace (Z.shiftr (2 ^ Z.of_nat (S n)) 1) with (2 ^ Z.of_nat n)
    by (rewrite Z.shiftr_div_pow2, <- Z.pow_sub_r by lia; f_equal; lia).
  destruct (IH _ s m j ltac:(lia) Hb Hj) as [Hb' Hbit']. cbn [copy_bits] in *. split; [done |]. rewrite Hbit'.
  unfold chosen. rewrite Hbit. destruct (Z.leb_spec j (Z.of_nat n)).
  - rewrite (proj2 (Z.leb_le j _)) by lia. by rewrite (proj2 (Z.eqb_neq j _)) by lia.
  - destruct (Z.eqb_spec j (Z.of_nat (S n))) as [-> | Hne]; [by rewrite Z.leb_refl |].
    by rewrite (proj2 (Z.leb_gt j _)) by lia.
Qed.

Lemma copy_byte d s m : byte d -> byte s -> byte m -> copy_bits 8 128 d s m = Z.lor (Z.land s m) (Z.ldiff d m).
Proof.
  intros Hd Hs Hm. change 128 with (2 ^ Z.of_nat 7). apply Z.bits_inj'. intros j Hj. rewrite Z.lor_spec, Z.land_spec, Z.ldiff_spec.
  destruct (copy_bits_spec 7 d s m j ltac:(lia) Hd Hj) as [_ ->]. unfold chosen.
  destruct (Z.leb_spec j (Z.of_nat 7)).
  - destruct (Z.testbit m j), (Z.testbit s j), (Z.testbit d j); done.
  - rewrite !byte_bits by (try done; lia). done.
Qed.

(** The masked copy is the bitwise merge: on buffers of bytes of at least
    [len] bytes it returns, every one of the first [len] bytes becomes the source
    where the mask is set and keeps its bits elsewhere, and the bytes after them
    are left alone. *)
Theorem copyMaskedBits_merges len : forall dest src mask,
  Forall byte dest -> Forall byte src -> Forall byte mask ->
  (len <= length dest)%nat -> (len <= length src)%nat -> (len <= length mask)%nat ->
  exists out, copyMaskedBits len dest src mask = Ok out /\ drop len out = drop len dest /\
    forall i d s m, (i < len)%nat -> dest !! i = Some d -> src !! i = Some s -> mask !! i = Some m ->
      out !! i = Some (Z.lor (Z.land s m) (Z.ldiff d m)).
Proof.
  induction len as [|len IH]; intros dest src mask Hd Hs Hm Ld Ls Lm.
  { exists dest. cbn. split; [done |]. split; [done |]. lia. }
  destruct Hd as [|d dest Hd Hds], Hs as [|s src Hs Hss], Hm as [|m mask Hm Hms]; cbn in Ld, Ls, Lm; try lia.
  destruct (IH dest src mask Hds Hss Hms) as (out & Hr & Hdrop & Hbits); [lia .. |].
  exists (copy_bits 8 128 d s m :: out). cbn [copyMaskedBits]. rewrite Hr. split; [reflexivity |].
  split; [exact Hdrop |]. intros [|i] d' s' m' Hi; cbn.
  - intros [= <-] [= <-] [= <-]. f_equal. by apply copy_byte.
  - apply Hbits. lia.
Qed.

(** [set_bit] changes the bit it is asked to change and no other; a position
    beyond the byte leaves the byte as it is. *)
Theorem set_bit_spec q bitpos val : byte q -> 0 <= bitpos < 32 ->
  exists q', set_bit q bitpos val = Ok q' /\ byte q' /\
    forall j, 0 <= j < 8 -> Z.testbit q' j = if j =? bitpos then negb (val =? 0) else Z.testbit q j.
Proof.
  intros Hq Hb. unfold set_bit. rewrite (proj2 (Z.ltb_lt bitpos 32)) by lia. eexists. split; [reflexivity |].
  split; [destruct (negb _); apply u8_byte |]. intros j Hj.
  rewrite Z.shiftl_mul_pow2, Z.mul_1_l by lia. destruct (Z.ltb_spec bitpos 8).
  - replace (u8 (2 ^ bitpos)) with (2 ^ bitpos)
      by (symmetry; apply Z.mod_small; split; [lia |]; apply Z.pow_lt_mono_r; lia).
    pose proof (put_bit_spec (negb (val =? 0)) bitpos q j Hq ltac:(lia) ltac:(lia)) as Hp.
    unfold put_bit in Hp. by destruct (negb (val =? 0)).
  - replace (u8 (2 ^ bitpos)) with 0.
    + rewrite (proj2 (Z.eqb_neq j bitpos)) by lia.
      destruct (negb (val =? 0)); rewrite u8_bits, (proj2 (Z.ltb_lt j 8)) by lia; cbn [andb];
        [by rewrite Z.lor_0_r |].
      rewrite Z.land_spec. replace (Z.testbit (u8 (255 - 0)) j) with true; [apply andb_true_r |].
      apply bit_cases in Hj. by destruct_or! Hj; subst.
    + symmetry. unfold u8. replace (2 ^ bitpos) with (2 ^ (bitpos - 8) * 2 ^ 8) by (rewrite <- Z.pow_add_r by lia; f_equal; lia).
      apply Z.mod_mul. lia.
Qed.

(** ** Witnesses *)
Lemma copyMaskedBits_merges_w : exists out,
  copyMaskedBits 1 [240; 7] [15; 0] [60; 0] = Ok out /\ out !! 0%nat = Some 204 /\ drop 1 out = [7].
Proof.
  destruct (copyMaskedBits_merges 1 [240; 7] [15; 0] [60; 0]) as (out & Hr & Hd & Hb);
    [repeat constructor; lia .. | cbn; lia | cbn; lia | cbn; lia |].
  exists out. split; [exact Hr |]. split; [|exact Hd]. apply (Hb 0%nat 240 15 60); [lia | reflexivity ..].
Defined.
Lemma set_bit_spec_w : exists q', set_bit 5 1 1 = Ok q' /\ Z.testbit q' 1 = true /\ Z.testbit q' 2 = true.
Proof.
  destruct (set_bit_spec 5 1 1) as (q' & Hr & _ & Hb); [unfold byte; lia | lia |].
  exists q'. split; [exact Hr |]. split; rewrite Hb by lia; reflexivity.
Defined.
