(* ===== verification/Names.v ===== *)
(** The machines as the interpreter finds them by name (MachineInstance.cpp,
    Parameter.cpp): parameters, locals and the cache of names of a machine, the
    search for a machine ([lookup]), the search for a value ([getValue]) and the
    update of a property ([setValue]), and the lists the parameters of a LIST
    make.

    A [Store] is the part of the interpreter these operations read and write.
    What they ask of the components modelled elsewhere, or of devices, is
    recorded in order as [Event]s. *)
From S2P Require Import Prelude Cnum Tokeniser Value SymbolTable ValueOps Message.
Open Scope Z_scope.

(** ** Data *)

(** Where a [const Value &] result lives; [RNull] is [SymbolTable::Null]. *)
Inductive Ref :=
| RNull
| RParam (m : ptr) (i : nat)
| RProp (m : ptr) (key : string)
| RClass (m : ptr) (key : string)
| RGlobal (key : string)
| RKeyword (key : string)
| RTimer (m : ptr).
#[export] Instance Ref_eq_dec : EqDecision Ref.
Proof. solve_decision. Defined.

(** A [Value] with its two lookup caches. *)
Record MValue := mkMV {
  base : Value;
  cached_machine : option ptr;
  cached_value : option Ref
}.
Definition plain (v : Value) : MValue := mkMV v None None.

Record Param := mkParam {
  val : MValue;
  machine : option ptr;
  real_name : string
}.
(** [Parameter::Parameter (Value)]. The value is copied: the pointer to a cached
    value is not. *)
Definition mv_copy (v : MValue) : MValue := mkMV (base v) (cached_machine v) None.
Definition Param_of (v : MValue) : Param := mkParam (mv_copy v) None "".

Record MachineClass := mkClass {
  c_name : string;
  c_token : Z;
  c_parameters : list Param;
  c_properties : SymbolTable;
  global_references : gmap string (option ptr);
  c_states : list string;
  local_properties : gset string;
  plugin_filter : option (Z -> Z)
}.

(** The fields of a machine that do not change while it runs. [io_interface] says
    whether the address is signed; [owner_channel] whether the channel of a shadow
    is connected. *)
Record Fixed := mkFixed {
  i_name : string;
  i_type : string;
  owner : option ptr;
  state_machine : option MachineClass;
  expected_authority : Z;
  is_shadow : bool;
  owner_channel : option bool;
  io_interface : option bool;
  mq_interface : bool;
  published : bool;
  modbus_exports : gset string;
  receives_change : bool
}.

Record MachineInstance := mkInstance {
  fixed : Fixed;
  locals : list Param;
  parameters : list Param;
  localised_names : gmap string (option ptr);
  properties : SymbolTable;
  current_state : string;
  is_enabled : bool;
  start_time : Z;
  timer_result : Value;
  depends : gset ptr;
  listens : gset ptr;
  idle_time : Z;
  is_traceable : bool;
  change_pending : bool;
  num_errors : Z
}.

(** Calls of other parts: the message log, the stable state checks, the state
    machine, channels, devices and MQTT, and the action stack (the start and the
    stop of an action of the machine). *)
Inductive Event :=
| ELog (m : ptr) (about : string)
| ENeedsCheck (m : ptr)
| ENotify (m : ptr)
| EFlush (m : ptr)
| EState (m : ptr) (old new : string)
| EPropertyChange (m : ptr) (property : string) (v : Value) (authority : Z)
| EForward (m : ptr) (property : string) (v : Value)
| EModbus (m : ptr) (property : string) (v : Value)
| EPublish (m : ptr) (topic text : string)
| EOutput (m : ptr) (word : Z)
| EQueueChange (m : ptr)
| EPollingDelay (z : Z)
| EStart (m : ptr)
| EStop (m : ptr)
| EPurge.

Record Store := mkStore {
  heap : gmap ptr MachineInstance;
  machines : gmap string ptr;
  globals : SymbolTable;
  keywords : SymbolTable;
  tok : Tokeniser;
  events : list Event
}.

(** Field updates. *)
Definition set_locals x i := mkInstance (fixed i) x (parameters i) (localised_names i) (properties i)
  (current_state i) (is_enabled i) (start_time i) (timer_result i) (depends i) (listens i)
  (idle_time i) (is_traceable i) (change_pending i) (num_errors i).
Definition set_parameters x i := mkInstance (fixed i) (locals i) x (localised_names i) (properties i)
  (current_state i) (is_enabled i) (start_time i) (timer_result i) (depends i) (listens i)
  (idle_time i) (is_traceable i) (change_pending i) (num_errors i).
Definition set_names x i := mkInstance (fixed i) (locals i) (parameters i) x (properties i)
  (current_state i) (is_enabled i) (start_time i) (timer_result i) (depends i) (listens i)
  (idle_time i) (is_traceable i) (change_pending i) (num_errors i).
Definition set_properties x i := mkInstance (fixed i) (locals i) (parameters i) (localised_names i) x
  (current_state i) (is_enabled i) (start_time i) (timer_result i) (depends i) (listens i)
  (idle_time i) (is_traceable i) (change_pending i) (num_errors i).
Definition set_current x t i := mkInstance (fixed i) (locals i) (parameters i) (localised_names i)
  (properties i) x (is_enabled i) t (timer_result i) (depends i) (listens i)
  (idle_time i) (is_traceable i) (change_pending i) (num_errors i).
Definition set_timer x i := mkInstance (fixed i) (locals i) (parameters i) (localised_names i)
  (properties i) (current_state i) (is_enabled i) (start_time i) x (depends i) (listens i)
  (idle_time i) (is_traceable i) (change_pending i) (num_errors i).
Definition set_depends x i := mkInstance (fixed i) (locals i) (parameters i) (localised_names i)
  (properties i) (current_state i) (is_enabled i) (start_time i) (timer_result i) x (listens i)
  (idle_time i) (is_traceable i) (change_pending i) (num_errors i).
Definition set_listens x i := mkInstance (fixed i) (locals i) (parameters i) (localised_names i)
  (properties i) (current_state i) (is_enabled i) (start_time i) (timer_result i) (depends i) x
  (idle_time i) (is_traceable i) (change_pending i) (num_errors i).
Definition set_idle x i := mkInstance (fixed i) (locals i) (parameters i) (localised_names i)
  (properties i) (current_state i) (is_enabled i) (start_time i) (timer_result i) (depends i)
  (listens i) x (is_traceable i) (change_pending i) (num_errors i).
Definition set_traceable x i := mkInstance (fixed i) (locals i) (parameters i) (localised_names i)
  (properties i) (current_state i) (is_enabled i) (start_time i) (timer_result i) (depends i)
  (listens i) (idle_time i) x (change_pending i) (num_errors i).
Definition set_pending x i := mkInstance (fixed i) (locals i) (parameters i) (localised_names i)
  (properties i) (current_state i) (is_enabled i) (start_time i) (timer_result i) (depends i)
  (listens i) (idle_time i) (is_traceable i) x (num_errors i).
Definition set_errors x i := mkInstance (fixed i) (locals i) (parameters i) (localised_names i)
  (properties i) (current_state i) (is_enabled i) (start_time i) (timer_result i) (depends i)
  (listens i) (idle_time i) (is_traceable i) (change_pending i) x.

Definition with_heap x s := mkStore x (machines s) (globals s) (keywords s) (tok s) (events s).
Definition with_keywords x s := mkStore (heap s) (machines s) (globals s) x (tok s) (events s).
Definition with_tok x s := mkStore (heap s) (machines s) (globals s) (keywords s) x (events s).
Definition with_events x s := mkStore (heap s) (machines s) (globals s) (keywords s) (tok s) x.

Definition NM := SM Store.

Definition get (m : ptr) : NM MachineInstance := fun s =>
  match heap s !! m with Some i => Ok (i, s) | None => Undef end.
Definition modify (m : ptr) (f : MachineInstance -> MachineInstance) : NM unit := fun s =>
  match heap s !! m with
  | Some i => Ok (tt, with_heap (<[m := f i]> (heap s)) s)
  | None => Undef
  end.
Definition emit (e : Event) : NM unit := fun s => Ok (tt, with_events (events s ++ [e]) s).
Definition tokenise {A} (t : SM Tokeniser A) : NM A := fun s =>
  match t (tok s) with
  | Ok (a, t') => Ok (a, with_tok t' s)
  | Undef => Undef
  | Abort => Abort
  end.
(** An error that is logged and kept in [error_messages]. *)
Definition report (m : ptr) (about : string) : NM unit :=
  (run! emit (ELog m about) in modify m (fun i => set_errors (num_errors i + 1) i))%sm.

(** ** Names *)

(** The text before and after the first dot. *)
Fixpoint split_dot (name : string) : option (string * string) :=
  match name with
  | EmptyString => None
  | String c rest =>
      if Ascii.eqb c (chr 46) then Some (EmptyString, rest)
      else match split_dot rest with
           | Some (a, b) => Some (String c a, b)
           | None => None
           end
  end.

Definition is_symbol (p : Param) : bool := Kind_eqb (kind (base (val p))) t_symbol.
Definition goes_by (name : string) (p : Param) : bool :=
  is_symbol p && bool_decide (sValue (base (val p)) = name).
Definition goes_by_either (name : string) (p : Param) : bool :=
  is_symbol p && (bool_decide (sValue (base (val p)) = name) || bool_decide (real_name p = name)).

(** The three loops of [lookup_cache_miss]: the first local of the name, whose
    machine may be null; the first linked parameter of the name; the machine in
    the place of the first linked formal parameter of the class, with the number
    of formals of the name that have no actual. *)
Fixpoint find_local (name : string) (l : list Param) : option (option ptr) :=
  match l with
  | [] => None
  | p :: l' => if goes_by name p then Some (machine p) else find_local name l'
  end.
Fixpoint find_parameter (name : string) (l : list Param) : option ptr :=
  match l with
  | [] => None
  | p :: l' =>
      match machine p with
      | Some m => if goes_by_either name p then Some m else find_parameter name l'
      | None => find_parameter name l'
      end
  end.
Fixpoint find_formal (name : string) (formals actuals : list Param) : option ptr * nat :=
  match formals with
  | [] => (None, O)
  | f :: formals' =>
      let rest := find_formal name formals' (tail actuals) in
      if goes_by_either name f then
        match actuals with
        | a :: _ => match machine a with Some m => (Some m, O) | None => rest end
        | [] => (fst rest, S (snd rest))
        end
      else rest
  end.

Fixpoint times (n : nat) (c : NM unit) : NM unit :=
  match n with O => sret tt | S n' => (run! c in times n' c)%sm end.

(** What surrounds one evaluation: the keyword values [getKeyValue] computes from
    the clock and the random source, the time in microseconds, and how deep calls
    nest before they exhaust the stack. *)
Class Clock := {
  keyword_now : string -> Value;
  microsecs : Z;
  call_depth : nat
}.

Section Lookup.
Context `{DynEnv} `{Clock}.
(** The ids of the built-in names. *)
Variable ct : ClockworkToken.
Local Open Scope sm_scope.

(** The end of [lookup_cache_miss]: a machine that was found is remembered. *)
Definition cache_local_name (m : ptr) (name : string) (found : option ptr) : NM (option ptr) :=
  match found with
  | Some f => run! modify m (fun i => set_names (<[name := Some f]> (localised_names i)) i) in
      sret (Some f)
  | None => sret None
  end.

Definition lookup_simple (m : ptr) (name : string) : NM (option ptr) :=
  let! i := get m in
  if bool_decide (name = "SELF") || bool_decide (name = i_name (fixed i)) then
    let? c := rd (state_machine (fixed i)) in
    cache_local_name m name
      (if c_token c =? tokCONDITION ct then Some (default m (owner (fixed i))) else Some m)
  else if bool_decide (name = "OWNER") then
    cache_local_name m name (Some (default m (owner (fixed i))))
  else match find_local name (locals i) with
  | Some found => cache_local_name m name found
  | None =>
    match find_parameter name (parameters i) with
    | Some p => cache_local_name m name (Some p)
    | None =>
      let r := match state_machine (fixed i) with
               | Some c => find_formal name (c_parameters c) (parameters i)
               | None => (None, O)
               end in
      run! times (snd r) (report m name) in
      match fst r with
      | Some p => cache_local_name m name (Some p)
      | None => fun s =>
          match machines s !! name with
          | Some g => cache_local_name m name (Some g) s
          | None => Ok (None, s)
          end
      end
    end
  end.

(** [lookup (const std::string &)] with [lookup_cache_miss]: each unit of fuel is
    one dot of the name. *)
Fixpoint lookup_n (n : nat) (m : ptr) (name : string) : NM (option ptr) :=
  let! i := get m in
  match localised_names i !! name with
  | Some r => sret r
  | None =>
      match split_dot name with
      | None => lookup_simple m name
      | Some (machine_name, extra) =>
          match n with
          | O => fun _ => Undef
          | S n' =>
              let! mi := lookup_n n' m machine_name in
              match mi with
              | Some other => lookup_n n' other extra
              | None => sret None
              end
          end
      end
  end.
Definition lookup (m : ptr) (name : string) : NM (option ptr) :=
  lookup_n (String.length name) m name.

(** [lookup (Parameter &)] of the [k]-th parameter of the list [l], asked of the
    machine [m]. *)
Definition lookup_parameter (m l : ptr) (k : nat) : NM (option ptr) :=
  let! i := get l in
  let? p := rd (parameters i !! k) in
  if is_symbol p then
    match machine p with
    | Some r => sret (Some r)
    | None =>
        let! r := lookup m (real_name p) in
        run! modify l (fun i => set_parameters
          (alter (fun q => mkParam (val q) r (real_name q)) k (parameters i)) i) in
        sret r
    end
  else sret None.

(** [lookup (Value &)]: the value with its cache filled in. *)
Definition lookup_value (m : ptr) (v : MValue) : NM (option ptr * MValue) :=
  match cached_machine v with
  | Some r => sret (Some r, v)
  | None =>
      if Kind_eqb (kind (base v)) t_symbol || Kind_eqb (kind (base v)) t_string then
        let! r := lookup m (sValue (base v)) in
        sret (r, mkMV (base v) r (cached_value v))
      else sret (None, v)
  end.

(** ** Values *)

(** The value a reference leads to; a property that was erased or a parameter
    that was removed leaves it dangling. *)
Definition deref (r : Ref) (s : Store) : res Value :=
  match r with
  | RNull => Ok Null
  | RParam m k => i ← rd (heap s !! m); p ← rd (parameters i !! k); Ok (base (val p))
  | RProp m key => i ← rd (heap s !! m); rd (st (properties i) !! key)
  | RClass m key => i ← rd (heap s !! m); c ← rd (state_machine (fixed i));
      rd (st (c_properties c) !! key)
  | RGlobal key => rd (st (globals s) !! key)
  | RKeyword key => rd (st (keywords s) !! key)
  | RTimer m => i ← rd (heap s !! m); Ok (timer_result i)
  end.
Definition load (r : Ref) : NM Value := fun s => v ← deref r s; Ok (v, s).

(** [SymbolTable::lookup (const char * )] as a reference: the keyword table
    shadows the table. *)
Definition table_ref (own : Ref) (key : string) (t : SymbolTable) : NM Ref := fun s =>
  d ← value_ne (own_find key (keywords s)) Null;
  Ok (if d : bool then RKeyword key
      else match st t !! key with Some _ => own | None => RNull end, s).

(** [x == SymbolTable::Null]. *)
Definition is_null_value (v : Value) : res bool := value_eq v Null.

(** [getKeyValue]: the entry of the keyword table is brought up to date. *)
Definition getKeyValue (key : string) : NM Ref := fun s =>
  match st (keywords s) !! key with
  | Some old => Ok (RKeyword key, with_keywords
      (mkST (<[key := assign old (keyword_now key)]> (st (keywords s))) (stok (keywords s))) s)
  | None => Ok (RNull, s)
  end.

(** [MachineTimerValue::operator() ()] and [getTimerVal]; the clock is a
    [uint64_t] and the division is one of [long]. *)
Definition getTimerVal (m : ptr) : NM Ref :=
  let! i := get m in
  if is_enabled i then
    run! modify m (set_timer (assign (timer_result i)
      (Value_long (Z.quot (to_s64 (u64 (microsecs - start_time i))) 1000)))) in
    sret (RTimer m)
  else sret (RTimer m).

(** The loop that looks for the value of a VARIABLE or CONSTANT among its
    parameters: it indexes the formal parameters of the class by the actual ones. *)
Fixpoint formal_index (property : string) (k : nat) (formals actuals : list Param) : res (option nat) :=
  match actuals with
  | [] => Ok None
  | _ :: actuals' =>
      match formals with
      | [] => Undef
      | f :: formals' =>
          if goes_by property f then Ok (Some k) else formal_index property (S k) formals' actuals'
      end
  end.
Definition is_variable (c : MachineClass) : bool :=
  (c_token c =? tokVARIABLE ct) || (c_token c =? tokCONSTANT ct).
Definition own_parameter (property : string) (i : MachineInstance) : res (option nat) :=
  match state_machine (fixed i) with
  | Some c => if is_variable c then formal_index property 0 (c_parameters c) (parameters i) else Ok None
  | None => Ok None
  end.
(** [state_machine->global_references.count (property)] and the entry. *)
Definition global_reference (property : string) (i : MachineInstance) : option (option ptr) :=
  match state_machine (fixed i) with
  | Some c => global_references c !! property
  | None => None
  end.

(** The part of [getValue] after the global references: the timer, the keywords,
    the properties of the machine and of its class, the global symbols. [None]
    goes on to the machines of the name. *)
Definition own_value (m : ptr) (property : string) (property_val : Value) : NM (option Ref) :=
  let! i := get m in
  let? t := rd (token_id property_val) in
  if t =? tokTIMER ct then let! r := getTimerVal m in sret (Some r)
  else fun s =>
  if exists_name property (keywords s) then
    (let! r := getKeyValue property in sret (Some r)) s
  else
    (let! r := table_ref (RProp m property) property (properties i) in
     let! x := load r in
     let? null := is_null_value x in
     if null : bool then
       match state_machine (fixed i) with
       | None => sret None
       | Some c =>
           if exists_name property (c_properties c) then
             let! r' := table_ref (RClass m property) property (c_properties c) in sret (Some r')
           else fun s' =>
             if exists_name property (globals s') then
               (let! r' := table_ref (RGlobal property) property (globals s') in sret (Some r')) s'
             else Ok (None, s')
       end
     else sret (Some r)) s.

(** [getValue (const std::string &)]. The fuel bounds the nesting of the calls. *)
Fixpoint getValue_n (n : nat) (m : ptr) (property : string) : NM Ref :=
  match n with
  | O => fun _ => Undef
  | S n' =>
    let! i := get m in
    match split_dot property with
    | Some (name, prop) =>
        let! other := lookup m name in
        match other with
        | Some o => getValue_n n' o prop
        | None =>
            let! i' := get m in
            let? c := rd (state_machine (fixed i')) in
            if (c_token c =? tokREFERENCE ct) && bool_decide (name = "ITEM")
               && bool_decide (locals i' = []) then sret RNull
            else run! report m property in sret RNull
        end
    | None =>
        let! property_val := tokenise (Value_str property t_symbol) in
        let? own := own_parameter property i in
        match own with
        | Some k => sret (RParam m k)
        | None =>
          run! (match state_machine (fixed i) with
                | None => modify m (fun i => set_errors (num_errors i + 1) i)
                | Some _ => sret tt
                end) in
          match global_reference property i with
          | Some (Some g) => getValue_n n' g "VALUE"
          | missing =>
            run! (match missing with Some None => report m property | _ => sret tt end) in
            let! r := own_value m property property_val in
            match r with
            | Some r => sret r
            | None =>
                let! found := lookup m property in
                match found with
                | Some g =>
                    let! gi := get g in
                    let? c := rd (state_machine (fixed gi)) in
                    if is_variable c then getValue_n n' g "VALUE" else sret RNull
                | None => sret RNull
                end
            end
          end
        end
    end
  end.
Definition getValue (m : ptr) (property : string) : NM Ref := getValue_n call_depth m property.

(** The part of [getMutableValue] that corresponds to [own_value]: the timer, a
    keyword and a property of the class trip an assertion. *)
Definition own_mutable (m : ptr) (property : string) (property_val : Value) : NM (option Ref) :=
  let! i := get m in
  let? t := rd (token_id property_val) in
  if t =? tokTIMER ct then fun _ => Abort
  else fun s =>
  if exists_name property (keywords s) then Abort
  else
    (let! r := table_ref (RProp m property) property (properties i) in
     let! x := load r in
     let? null := is_null_value x in
     if null : bool then
       match state_machine (fixed i) with
       | None => sret None
       | Some c =>
           if exists_name property (c_properties c) then fun _ => Abort
           else fun s' =>
             if exists_name property (globals s') then
               (let! r' := table_ref (RGlobal property) property (globals s') in sret (Some r')) s'
             else Ok (None, s')
       end
     else sret (Some r)) s.

(** [getMutableValue]; [None] is the null pointer. *)
Fixpoint getMutableValue_n (n : nat) (m : ptr) (property : string) : NM (option Ref) :=
  match n with
  | O => fun _ => Undef
  | S n' =>
    let! i := get m in
    match split_dot property with
    | Some (name, prop) =>
        let! other := lookup m name in
        match other with
        | Some o => getMutableValue_n n' o prop
        | None =>
            let! i' := get m in
            let? c := rd (state_machine (fixed i')) in
            if (c_token c =? tokREFERENCE ct) && bool_decide (name = "ITEM")
               && bool_decide (locals i' = []) then sret None
            else run! report m property in sret None
        end
    | None =>
        let! property_val := tokenise (Value_str property t_symbol) in
        let? own := own_parameter property i in
        match own with
        | Some k => sret (Some (RParam m k))
        | None =>
          run! (match state_machine (fixed i) with
                | None => modify m (fun i => set_errors (num_errors i + 1) i)
                | Some _ => sret tt
                end) in
          match global_reference property i with
          | Some (Some g) => getMutableValue_n n' g "VALUE"
          | missing =>
            run! (match missing with Some None => report m property | _ => sret tt end) in
            let! r := own_mutable m property property_val in
            match r with
            | Some r => sret (Some r)
            | None =>
                let! found := lookup m property in
                match found with
                | Some g =>
                    let! gi := get g in
                    let? c := rd (state_machine (fixed gi)) in
                    if is_variable c then getMutableValue_n n' g "VALUE" else sret None
                | None => sret None
                end
            end
          end
        end
    end
  end.
Definition getMutableValue (m : ptr) (property : string) : NM (option Ref) :=
  getMutableValue_n call_depth m property.

(** [getValue (Value &)]: the reference is kept in the value asked for. *)
Definition getValue_of (m : ptr) (property : MValue) : NM (Ref * MValue) :=
  match cached_value property with
  | Some r => sret (r, property)
  | None =>
      let? _ := assert (Kind_eqb (kind (base property)) t_symbol || Kind_eqb (kind (base property)) t_string) in
      let! r := getMutableValue m (sValue (base property)) in
      match r with
      | Some r => sret (r, mkMV (base property) (cached_machine property) (Some r))
      | None => sret (RNull, property)
      end
  end.

(** [fullName]: the names of the owners, outermost first. The copy the machine keeps of it
    is left out: owners and names do not change once they are set. *)
Fixpoint fullName_n (n : nat) (m : ptr) (suffix : string) : NM string :=
  match n with
  | O => fun _ => Undef
  | S n' =>
    let! i := get m in
    let name := (i_name (fixed i) +:+ suffix)%string in
    match owner (fixed i) with
    | Some o => fullName_n n' o ("." +:+ name)%string
    | None => sret name
    end
  end.
Definition fullName (m : ptr) : NM string := fullName_n call_depth m "".
End Lookup.
