(* ===== verification/Properties.v ===== *)
(** Updating the properties of a machine (MachineInstance.cpp: [setValue],
    [isPersistent], [modbusName]; CopyPropertiesAction.cpp), as built for the
    interpreter [cw] (EC_SIMULATOR, no USE_SDO). *)
From S2P Require Import Prelude Cnum Tokeniser Value SymbolTable ValueOps Message Names.
Open Scope Z_scope.

Section Update.
Context `{DynEnv} `{Clock}.
Variable ct : ClockworkToken.
Local Open Scope sm_scope.

(** [properties.add (name, value, ST_REPLACE)]. *)
Definition add_property (m : ptr) (name : string) (v : Value) : NM unit :=
  let! i := get m in
  let! r := tokenise (SymbolTable.add name v ST_REPLACE (properties i)) in
  modify m (set_properties (snd r)).

(** [modbusName]: the name a property is exported by. *)
Definition modbusName (m : ptr) (property : string) (property_val : Value) : NM string :=
  let! i := get m in
  let! prefix := match owner (fixed i) with
                 | Some o => let! oi := get o in sret (i_name (fixed oi) +:+ ".")%string
                 | None => sret ""
                 end in
  let name := (prefix +:+ i_name (fixed i))%string in
  let? t := rd (token_id property_val) in
  sret (if t =? tokVALUE ct then name else (name +:+ "." +:+ property)%string).

(** [properties.lookup (name).asString ()]. *)
Definition property_text (m : ptr) (name : string) : NM string :=
  let! i := get m in
  let! r := table_ref (RProp m name) name (properties i) in
  let! v := load r in
  slift (asString v).

(** Whether an MQTT publisher sends the property that is being set. *)
Definition publishes (i : MachineInstance) (c : MachineClass) (t : Z) : bool :=
  (c_token c =? tokMQTTPUBLISHER ct) && mq_interface (fixed i) && (t =? tokMessage ct).

(** Storing the value: through the filter of a plugin, or as it is; the result
    says whether the property changed. *)
Definition differs (prev new : Value) (kinds : bool) : res bool :=
  same ← identical prev new;
  if negb same || (kinds && negb (Kind_eqb (kind prev) (kind new))) then Ok true
  else d ← value_ne new Null; if d : bool then value_eq prev Null else Ok false.
Definition store_value (m : ptr) (c : MachineClass) (property : string) (prev new : Value) : NM bool :=
  match plugin_filter c with
  | Some f =>
      if Kind_eqb (kind new) t_integer || negb (Kind_eqb (kind new) t_float) then
        let? x := rd (iValue new) in
        let filtered := Value_int (to_s32 (f x)) in
        let? same := identical prev filtered in
        let? changed := (if negb same then Ok true
                         else d ← value_ne new Null;
                              if d : bool then value_eq prev Null else Ok false) in
        if changed : bool then run! add_property m property filtered in sret true else sret false
      else
        let? changed := differs prev new true in
        if changed : bool then run! add_property m property new in sret true else sret false
  | None =>
      let? changed := differs prev new true in
      if changed : bool then run! add_property m property new in sret true else sret false
  end.

(** The output of a VALUE property to the device of the machine. *)
Definition drive_output (m : ptr) (signed : bool) (new : Value) : NM unit :=
  let? r := asInteger new (Some 0) in
  if fst r then
    let? value := rd (snd r) in
    let word := Z.land value 4294967295 in
    run! emit (EOutput m (if signed then to_s32 word else u32 word)) in
    add_property m "VALUE" (Value_long value)
  else emit (ELog m "could not set value").

(** What follows a change: outputs, MQTT, channels, Modbus, the message to the
    machine's own handler and the checks of the dependent machines. *)
Definition after_change (m : ptr) (c : MachineClass) (property : string) (property_val new : Value)
    (t authority : Z) : NM unit :=
  let! i := get m in
  run! (match io_interface (fixed i) with
        | Some signed => if t =? tokVALUE ct then drive_output m signed new else sret tt
        | None => sret tt
        end) in
  run! (if publishes i c t then
          let! topic := property_text m "topic" in
          let? text := asString new in
          emit (EPublish m topic text)
        else sret tt) in
  let! property_name := modbusName m property property_val in
  run! (if published (fixed i) then
          run! emit (EPropertyChange m property new authority) in
          if bool_decide (property_name ∈ modbus_exports (fixed i))
          then emit (EModbus m property_name new) else sret tt
        else sret tt) in
  let! i' := get m in
  run! (if receives_change (fixed i') && negb (change_pending i') then
          run! modify m (set_pending true) in emit (EQueueChange m)
        else sret tt) in
  if negb (t =? tokTRACE ct) && negb (t =? tokDEBUG ct) then
    run! emit (ENeedsCheck m) in emit (ENotify m)
  else sret tt.

(** A machine that expects an authority refuses a change without one; a shadow
    forwards it to its channel. *)
Definition refuse_value (m : ptr) (i : MachineInstance) (property : string) (v : Value) : NM bool :=
  if is_shadow (fixed i) then
    match owner_channel (fixed i) with
    | Some true => run! emit (EForward m property v) in sret true
    | _ => sret false
    end
  else sret false.

(** The POLLING_DELAY property. *)
Definition polling (m : ptr) (c : MachineClass) (new : Value) : NM unit :=
  let? r := asInteger new (Some 0) in
  let? delay := rd (snd r) in
  run! (if fst r then modify m (set_idle delay) else sret tt) in
  if c_token c =? tokSYSTEMSETTINGS ct then emit (EPollingDelay delay) else sret tt.

(** The TRACEABLE property; the texts compared with are the two booleans. *)
Definition traceable (m : ptr) (new : Value) : NM unit :=
  let! yes := tokenise (Value_cstr "TRUE" t_symbol) in
  let? on := value_eq new yes in
  run! (if on : bool then modify m (set_traceable true) else sret tt) in
  let! no := tokenise (Value_cstr "FALSE" t_symbol) in
  let? off := value_eq new no in
  if off : bool then modify m (set_traceable false) else sret tt.

(** Setting a property of the machine itself. *)
Definition set_own (m : ptr) (c : MachineClass) (property : string) (property_val new : Value)
    (t authority : Z) : NM bool :=
  let! i := get m in
  let! r := table_ref (RProp m property) property (properties i) in
  let! prev := load r in
  run! (if publishes i c t then
          let? old := asString prev in
          let! topic := property_text m "topic" in
          emit (EPublish m topic old)
        else sret tt) in
  let! changed := store_value m c property prev new in
  if changed : bool
  then run! after_change m c property property_val new t authority in sret true
  else sret true.

(** [setValue]. *)
Fixpoint setValue_n (n : nat) (m : ptr) (property : string) (new : Value) (authority : Z) : NM bool :=
  match n with
  | O => fun _ => Undef
  | S n' =>
    if bool_decide (property = "") then run! emit (ELog m "empty name") in sret false
    else match split_dot property with
    | Some (name, prop) =>
        let! other := lookup ct m name in
        match other with
        | Some o => if bool_decide (prop = "") then run! emit (ELog m property) in sret false
                    else setValue_n n' o prop new 0
        | None => run! emit (ELog m property) in sret false
        end
    | None =>
        let! i := get m in
        if negb (expected_authority (fixed i) =? 0) && (authority =? 0)
        then refuse_value m i property new
        else
          let! property_val := tokenise (Value_str property t_symbol) in
          let? t := rd (token_id property_val) in
          if negb (t =? tokPOLLING_DELAY ct) && (t =? tokTRACEABLE ct) then
            run! traceable m new in sret true
          else
            let? c := rd (state_machine (fixed i)) in
            run! (if t =? tokPOLLING_DELAY ct then polling m c new else sret tt) in
            match global_references c !! property with
            | Some g => set_variable n' g new
            | None =>
                let! i' := get m in
                let! r := table_ref (RProp m property) property (properties i') in
                let! prev := load r in
                let? null := value_eq prev Null in
                if null && negb (t =? tokVALUE ct) && negb (bool_decide (property = i_name (fixed i)))
                then
                  let! g := lookup ct m property in
                  match g with
                  | Some _ => set_variable n' g new
                  | None => set_own m c property property_val new t authority
                  end
                else set_own m c property property_val new t authority
            end
    end
  end
(** A machine that stands for a variable: its VALUE is set unless it is a
    constant. *)
with set_variable (n : nat) (g : option ptr) (new : Value) : NM bool :=
  match n with
  | O => fun _ => Undef
  | S n' =>
    match g with
    | Some g =>
        let! gi := get g in
        let? c := rd (state_machine (fixed gi)) in
        if c_token c =? tokCONSTANT ct then sret false else setValue_n n' g "VALUE" new 0
    | None => sret false
    end
  end.
Definition setValue (m : ptr) (property : string) (new : Value) (authority : Z) : NM bool :=
  setValue_n call_depth m property new authority.

(** [isPersistent]; "true" is a symbol. *)
Definition isPersistent (m : ptr) : NM bool :=
  let! r := getValue ct m "PERSISTENT" in
  let! v := load r in
  let? null := value_eq v Null in
  if null : bool then sret false
  else let! yes := tokenise (Value_cstr "true" t_symbol) in slift (value_eq v yes).
End Update.
