(* ===== verification/NamesProps.v ===== *)
(** What the search for a machine by name computes (Names.v): it terminates, it
    agrees with a definition that has no cache, and it changes nothing but the
    cache; what the search for a value returns; setting a property and reading it
    back. *)
From S2P Require Import Prelude Cnum Tokeniser Value SymbolTable ValueOps Message Names Properties.
Open Scope Z_scope.

(** ** Names without a cache *)

(** What a machine is without its cache of names and its count of errors. *)
Definition forget (i : MachineInstance) : MachineInstance := set_errors 0 (set_names ∅ i).

Section Resolve.
Variable ct : ClockworkToken.

(** The machine a name without a dot stands for. *)
Definition resolve_simple (s : Store) (m : ptr) (name : string) : option ptr :=
  i ← heap s !! m;
  if bool_decide (name = "SELF") || bool_decide (name = i_name (fixed i)) then
    c ← state_machine (fixed i);
    if c_token c =? tokCONDITION ct then Some (default m (owner (fixed i))) else Some m
  else if bool_decide (name = "OWNER") then Some (default m (owner (fixed i)))
  else match find_local name (locals i) with
  | Some found => found
  | None =>
      match find_parameter name (parameters i) with
      | Some p => Some p
      | None =>
          match (c ← state_machine (fixed i); fst (find_formal name (c_parameters c) (parameters i))) with
          | Some p => Some p
          | None => machines s !! name
          end
      end
  end.
(** A path: each part is a name in the machine the parts before it lead to. *)
Fixpoint resolve_n (n : nat) (s : Store) (m : ptr) (name : string) : option ptr :=
  match split_dot name with
  | None => resolve_simple s m name
  | Some (a, b) =>
      match n with
      | O => None
      | S n' => o ← resolve_simple s m a; resolve_n n' s o b
      end
  end.
Definition resolve (s : Store) (m : ptr) (name : string) : option ptr :=
  resolve_n (String.length name) s m name.

(** ** Invariants of a store *)

(** Every pointer leads to a machine, and every machine has a class. *)
Record links_ok (s : Store) (i : MachineInstance) : Prop := {
  lk_class : is_Some (state_machine (fixed i));
  lk_owner : forall o, owner (fixed i) = Some o -> is_Some (heap s !! o);
  lk_locals : forall p x, p ∈ locals i -> machine p = Some x -> is_Some (heap s !! x);
  lk_parameters : forall p x, p ∈ parameters i -> machine p = Some x -> is_Some (heap s !! x)
}.
Record store_ok (s : Store) : Prop := {
  so_links : forall m i, heap s !! m = Some i -> links_ok s i;
  so_machines : forall name x, machines s !! name = Some x -> is_Some (heap s !! x)
}.
(** Every remembered name is what the search without a cache gives. *)
Definition names_ok (s : Store) : Prop :=
  forall m i name r, heap s !! m = Some i -> localised_names i !! name = Some r ->
    r = resolve s m name.

(** The stores a search goes through: nothing but caches, error counts and the
    log differs. *)
Record same_names (s s' : Store) : Prop := {
  sn_heap : forget <$> heap s = forget <$> heap s';
  sn_machines : machines s = machines s';
  sn_globals : globals s = globals s';
  sn_keywords : keywords s = keywords s';
  sn_tok : tok s = tok s'
}.
#[export] Instance same_names_equiv : Equivalence same_names.
Proof.
  split.
  - by intros s.
  - intros s s' []. by split.
  - intros s1 s2 s3 [] []. split; congruence.
Qed.
End Resolve.

(** ** Paths *)
Lemma split_dot_spec name a b : split_dot name = Some (a, b) ->
  split_dot a = None /\ (String.length b < String.length name)%nat.
Proof.
  revert a b. induction name as [|c name IH]; intros a b; cbn -[chr]; [done |].
  destruct (Ascii.eqb c (chr 46)) eqn:Ec; [intros ?; simplify_eq; cbn; split; [done | lia] |].
  destruct (split_dot name) as [[a' b'] |] eqn:E; [|done].
  destruct (IH _ _ eq_refl) as [IHa IHb]. intros ?; simplify_eq. cbn -[chr]. rewrite Ec, IHa. split; [done | lia].
Qed.

Section Search.
Context `{DynEnv} `{Clock}.
Variable ct : ClockworkToken.

Lemma same_lookup s s' m i : same_names s s' -> heap s !! m = Some i ->
  exists i', heap s' !! m = Some i' /\ forget i = forget i'.
Proof.
  intros S E. pose proof (f_equal (fun h => h !! m) (sn_heap _ _ S)) as L. cbv beta in L.
  rewrite !lookup_fmap, E in L. destruct (heap s' !! m) as [i'|]; cbn in L; [|done].
  exists i'. split; [done |]. congruence.
Qed.
Lemma forget_inv i i' : forget i = forget i' ->
  fixed i = fixed i' /\ locals i = locals i' /\ parameters i = parameters i' /\ properties i = properties i'.
Proof. destruct i, i'. cbn. by intros [= -> -> -> -> _ _ _ _ _ _ _ _ _]. Qed.
Lemma same_inv s s' m i : same_names s s' -> heap s !! m = Some i -> exists i', heap s' !! m = Some i' /\
  fixed i = fixed i' /\ locals i = locals i' /\ parameters i = parameters i' /\ properties i = properties i'.
Proof.
  intros S E. destruct (same_lookup _ _ _ _ S E) as (i' & E' & F). exists i'. split; [done |].
  by apply forget_inv.
Qed.

Lemma resolve_simple_same s s' m name : same_names s s' ->
  resolve_simple ct s m name = resolve_simple ct s' m name.
Proof.
  intros S. unfold resolve_simple. rewrite <- (sn_machines _ _ S).
  destruct (heap s !! m) as [i|] eqn:E.
  - destruct (same_inv _ _ _ _ S E) as (i' & -> & F & L & P & _). cbn. by rewrite F, L, P.
  - destruct (heap s' !! m) as [i'|] eqn:E'; [|done].
    symmetry in S. destruct (same_inv _ _ _ _ S E') as (i & E2 & _). congruence.
Qed.
Lemma resolve_n_same n s s' m name : same_names s s' ->
  resolve_n ct n s m name = resolve_n ct n s' m name.
Proof.
  intros S. revert m name. induction n as [|n IH]; intros m name; cbn;
    destruct (split_dot name) as [[a b]|]; [done | by apply resolve_simple_same | | by apply resolve_simple_same].
  rewrite (resolve_simple_same _ _ _ _ S). destruct (resolve_simple ct s' m a); [|done]. apply IH.
Qed.
Lemma resolve_fuel n n' s m name : (String.length name <= n)%nat -> (String.length name <= n')%nat ->
  resolve_n ct n s m name = resolve_n ct n' s m name.
Proof.
  revert n' m name. induction n as [|n IH]; intros n' m name Hn Hn'.
  - destruct name; [|cbn in Hn; lia]. by destruct n'.
  - cbn. destruct (split_dot name) as [[a b]|] eqn:E.
    + apply split_dot_spec in E as E'. destruct E' as [_ Hb]. destruct n' as [|n']; [lia |].
      cbn. rewrite E. destruct (resolve_simple ct s m a); [|done]. cbn. apply IH; lia.
    + destruct n'; cbn; by rewrite E.
Qed.
Lemma resolve_dot s m name a b : split_dot name = Some (a, b) ->
  resolve ct s m name = o ← resolve_simple ct s m a; resolve ct s o b.
Proof.
  intros E. unfold resolve. pose proof (split_dot_spec _ _ _ E) as [_ Hb].
  destruct (String.length name) as [|n] eqn:Hn; [lia |]. cbn. rewrite E.
  destruct (resolve_simple ct s m a); [|done]. cbn. apply resolve_fuel; lia.
Qed.
Lemma resolve_nodot s m name : split_dot name = None -> resolve ct s m name = resolve_simple ct s m name.
Proof. intros E. unfold resolve. destruct (String.length name); cbn; by rewrite E. Qed.

(** ** Store steps *)
Lemma get_run m i s : heap s !! m = Some i -> get m s = Ok (i, s).
Proof. intros E. unfold get. by rewrite E. Qed.
Lemma modify_run m f i s : heap s !! m = Some i ->
  modify m f s = Ok (tt, with_heap (<[m := f i]> (heap s)) s).
Proof. intros E. unfold modify. by rewrite E. Qed.

(** A change of one machine that a search may make. *)
Lemma same_modify m f i s : heap s !! m = Some i -> forget (f i) = forget i ->
  same_names s (with_heap (<[m := f i]> (heap s)) s).
Proof.
  intros E F. split; [|done..]. cbn. rewrite fmap_insert, F. symmetry. apply insert_id.
  by rewrite lookup_fmap, E.
Qed.
Lemma same_emit s l : same_names s (with_events l s).
Proof. by destruct s. Qed.

(** Steps that leave the caches as they are. *)
Definition quiet (s s' : Store) : Prop :=
  same_names s s' /\ forall m, localised_names <$> heap s !! m = localised_names <$> heap s' !! m.
Lemma quiet_refl s : quiet s s.
Proof. by split. Qed.
Lemma quiet_trans s1 s2 s3 : quiet s1 s2 -> quiet s2 s3 -> quiet s1 s3.
Proof. intros [A1 B1] [A2 B2]. split; [by etransitivity |]. intros m. by rewrite B1. Qed.

Lemma report_run m about i s : heap s !! m = Some i ->
  exists s', report m about s = Ok (tt, s') /\ quiet s s' /\ is_Some (heap s' !! m).
Proof.
  intros E. unfold report, sbind, emit. cbn. erewrite modify_run by (cbn; exact E).
  eexists. split; [done |]. split; [|cbn; rewrite lookup_insert_eq; eauto].
  split.
  - etransitivity; [apply (same_emit s (events s ++ [ELog m about])) |].
    by apply (same_modify m (fun i => set_errors (num_errors i + 1) i) i (with_events _ s)).
  - intros x. cbn. destruct (decide (x = m)) as [->|N].
    + by rewrite lookup_insert_eq, E.
    + by rewrite lookup_insert_ne.
Qed.
Lemma times_report n m about s : is_Some (heap s !! m) ->
  exists s', times n (report m about) s = Ok (tt, s') /\ quiet s s' /\ is_Some (heap s' !! m).
Proof.
  revert s. induction n as [|n IH]; intros s Hm; cbn.
  - exists s. split; [done |]. split; [apply quiet_refl | done].
  - destruct Hm as [i E]. destruct (report_run m about i s E) as (s1 & R & Q & H1).
    destruct (IH s1 H1) as (s2 & R2 & Q2 & H2). exists s2. unfold sbind. rewrite R, R2.
    split; [done |]. split; [by eapply quiet_trans | done].
Qed.

Lemma names_quiet s s' : quiet s s' -> names_ok ct s -> names_ok ct s'.
Proof.
  intros [S Q] N m i' name r E' Hr. specialize (Q m). rewrite E' in Q.
  destruct (heap s !! m) as [i|] eqn:E; cbn in Q; [|done]. injection Q as Q. rewrite <- Q in Hr.
  rewrite (N _ _ _ _ E Hr). by apply resolve_n_same.
Qed.
Lemma cache_run m name found i s : heap s !! m = Some i -> found = resolve ct s m name ->
  exists s', cache_local_name m name found s = Ok (found, s') /\ same_names s s' /\
    (names_ok ct s -> names_ok ct s').
Proof.
  intros E Hf. destruct found as [f|]; cbn; [|by exists s].
  unfold sbind. rewrite (modify_run _ _ _ _ E). eexists. split; [done |].
  assert (S : same_names s (with_heap (<[m := set_names (<[name := Some f]> (localised_names i)) i]> (heap s)) s))
    by (by apply (same_modify m (fun i => set_names (<[name := Some f]> (localised_names i)) i))).
  split; [exact S |]. intros N m' i' name' r E' Hr.
  transitivity (resolve ct s m' name'); [|by apply resolve_n_same].
  cbn in E'. destruct (decide (m' = m)) as [->|Hm].
  - rewrite lookup_insert_eq in E'. injection E' as <-. cbn in Hr.
    destruct (decide (name' = name)) as [->|Hn].
    + rewrite lookup_insert_eq in Hr. by injection Hr as <-.
    + rewrite lookup_insert_ne in Hr by done. by apply (N _ _ _ _ E).
  - rewrite lookup_insert_ne in E' by done. by apply (N _ _ _ _ E').
Qed.

Lemma lookup_simple_run m name i s : store_ok s -> heap s !! m = Some i -> split_dot name = None ->
  exists s', lookup_simple ct m name s = Ok (resolve_simple ct s m name, s') /\ same_names s s' /\
    (names_ok ct s -> names_ok ct s').
Proof.
  intros W E Hd. pose proof (resolve_nodot s m name Hd) as R.
  pose proof (lk_class _ _ (so_links _ W _ _ E)) as [c Hc].
  unfold lookup_simple. unfold sbind at 1. rewrite (get_run _ _ _ E).
  unfold resolve_simple in R |- *. rewrite E in R |- *. cbn [mbind option_bind] in R |- *.
  destruct (bool_decide (name = "SELF") || bool_decide (name = i_name (fixed i))).
  { rewrite Hc in R |- *. cbn [mbind option_bind] in R |- *. unfold sbind, slift, rd.
    rewrite <- R. destruct (c_token c =? tokCONDITION ct); by eapply cache_run. }
  destruct (bool_decide (name = "OWNER")); [by rewrite <- R; eapply cache_run |].
  destruct (find_local name (locals i)) as [found|]; [by rewrite <- R; eapply cache_run |].
  destruct (find_parameter name (parameters i)) as [p|]; [by rewrite <- R; eapply cache_run |].
  rewrite Hc in R |- *. cbn [mbind option_bind] in R |- *.
  destruct (find_formal name (c_parameters c) (parameters i)) as [r errs]. cbn [fst snd] in R |- *.
  destruct (times_report errs m name s (mk_is_Some _ _ E)) as (s1 & T & Q & [i1 E1]).
  unfold sbind at 1. rewrite T. pose proof (proj1 Q) as S1. unfold resolve in R.
  destruct r as [p|].
  - rewrite (resolve_n_same _ _ _ _ _ S1) in R.
    destruct (cache_run m name (Some p) i1 s1 E1 (eq_sym R)) as (s2 & -> & S2 & N2). exists s2.
    split; [done |]. split; [by etransitivity |]. intros N. apply N2. by eapply names_quiet.
  - rewrite <- (sn_machines _ _ S1). destruct (machines s !! name) as [g|].
    + rewrite (resolve_n_same _ _ _ _ _ S1) in R.
      destruct (cache_run m name (Some g) i1 s1 E1 (eq_sym R)) as (s2 & -> & S2 & N2). exists s2.
      split; [done |]. split; [by etransitivity |]. intros N. apply N2. by eapply names_quiet.
    + exists s1. split; [done |]. split; [done |]. by apply names_quiet.
Qed.

(** A found machine exists. *)
Lemma resolve_simple_live m name x s : store_ok s -> resolve_simple ct s m name = Some x -> is_Some (heap s !! x).
Proof.
  intros W. unfold resolve_simple. destruct (heap s !! m) as [i|] eqn:E; [|done]. cbn.
  pose proof (so_links _ W _ _ E) as L. destruct L as [[c Hc] Lo Ll Lp]. rewrite Hc. cbn.
  assert (Ho : is_Some (heap s !! default m (owner (fixed i)))).
  { destruct (owner (fixed i)) as [o|] eqn:Eo; cbn; [by apply Lo | by rewrite E]. }
  destruct (_ || _). { case_match; intros [= <-]; [done | by rewrite E]. }
  case_match. { by intros [= <-]. }
  destruct (find_local name (locals i)) as [f|] eqn:F.
  { intros ->. clear -F Ll. induction (locals i) as [|p l IH]; cbn in F; [done |].
    destruct (goes_by name p); [simplify_eq; apply (Ll p); [set_solver | done] |].
    apply IH; try done. intros q y Hq. apply Ll. set_solver. }
  destruct (find_parameter name (parameters i)) as [f|] eqn:F'.
  { intros [= ->]. clear -F' Lp. induction (parameters i) as [|p l IH]; cbn in F'; [done |].
    assert (forall q y, q ∈ l -> machine q = Some y -> is_Some (heap s !! y)) by (intros; eapply Lp; set_solver).
    destruct (machine p) eqn:Em; [|by apply IH]. destruct (goes_by_either name p); [|by apply IH].
    simplify_eq. apply (Lp p); [set_solver | done]. }
  destruct (fst (find_formal _ _ _)) as [f|] eqn:F2; [|apply (so_machines _ W)].
  intros [= ->]. clear -F2 Lp. revert F2 Lp. generalize (parameters i).
  induction (c_parameters c) as [|q fs IH]; intros l F2 Lp; cbn in F2; [done |].
  assert (Lt : forall q y, q ∈ tail l -> machine q = Some y -> is_Some (heap s !! y)).
  { intros q' y Hq. apply Lp. destruct l; [done |]. cbn in Hq. set_solver. }
  destruct (goes_by_either name q); [|by apply (IH (tail l))].
  destruct l as [|a l]; [by apply (IH (tail [])) |].
  destruct (machine a) eqn:Ea; [|by apply (IH (tail (a :: l)))].
  simplify_eq/=. apply (Lp a); [set_solver | done].
Qed.

Lemma store_ok_same s s' : same_names s s' -> store_ok s -> store_ok s'.
Proof.
  intros S W.
  assert (L : forall x, is_Some (heap s !! x) -> is_Some (heap s' !! x)).
  { intros x [i E]. destruct (same_inv _ _ _ _ S E) as (i' & -> & _). eauto. }
  split.
  - intros m i' E'. destruct (same_inv _ _ m i' (symmetry S) E') as (i & E & F & Lo & P & _).
    destruct (so_links _ W _ _ E) as [A B C D].
    split; rewrite ?F, ?Lo, ?P; try done; eauto.
  - intros name x. rewrite <- (sn_machines _ _ S). intros Hx. by apply L, (so_machines _ W _ _ Hx).
Qed.

Lemma lookup_n_run n m name i s : (String.length name <= n)%nat -> store_ok s -> names_ok ct s ->
  heap s !! m = Some i ->
  exists s', lookup_n ct n m name s = Ok (resolve ct s m name, s') /\ same_names s s' /\ names_ok ct s'.
Proof.
  revert m name i s. induction n as [|n IH]; intros m name i s Hn W N E;
    cbn [lookup_n]; unfold sbind at 1; rewrite (get_run _ _ _ E);
    (destruct (localised_names i !! name) as [r|] eqn:Hr;
     [exists s; rewrite <- (N _ _ _ _ E Hr); done |]);
    destruct (split_dot name) as [[a b]|] eqn:D;
    try (rewrite resolve_nodot by done;
         destruct (lookup_simple_run m name i s W E D) as (s' & -> & S & Ns); exists s'; auto).
  - destruct name; [done | cbn in Hn; lia].
  - destruct (split_dot_spec _ _ _ D) as [Da Hb].
    assert (Ha : (String.length a <= n)%nat).
    { clear -D Hn. revert a D n Hn. induction name as [|ch name IH]; intros a D n Hn; cbn -[chr] in D; [done |].
      cbn in Hn. destruct (Ascii.eqb ch (chr 46)); [simplify_eq; cbn; lia |].
      destruct (split_dot name) as [[a' b']|] eqn:E; [|done]. simplify_eq. cbn.
      destruct n as [|n]; [destruct name; [done | cbn in Hn; lia] |].
      pose proof (IH a' eq_refl n ltac:(lia)). lia. }
    destruct (IH m a i s Ha W N E) as (s1 & R1 & S1 & N1).
    unfold sbind at 1. rewrite R1, (resolve_nodot _ _ _ Da), (resolve_dot _ _ _ _ _ D).
    destruct (resolve_simple ct s m a) as [o|] eqn:Ro; cbn; [|by exists s1].
    destruct (resolve_simple_live _ _ _ _ W Ro) as [oi Eo].
    destruct (same_inv _ _ _ _ S1 Eo) as (oi' & Eo' & _).
    destruct (IH o b oi' s1 ltac:(lia) (store_ok_same _ _ S1 W) N1 Eo') as (s2 & -> & S2 & N2).
    exists s2. split; [|split; [by etransitivity | done]].
    do 2 f_equal. symmetry. by apply resolve_n_same.
Qed.
End Search.

(** ** The search for a machine *)
Section Theorems.
Context `{DynEnv} `{Clock}.
Variable ct : ClockworkToken.

(** C7: the search for a machine by name is a cache in front of a plain
    definition, and it terminates: from a store in which every pointer leads to a
    machine with a class and every remembered name is right, [lookup] of any name,
    with any number of dots, returns what [resolve] defines without a cache
    (SELF and OWNER, locals, parameters, formal parameters of the class, global
    machines, and for a dotted name the search of each part in the machine found
    so far); it changes nothing but caches, error counts and the log; the
    remembered names stay right, so that the same search again gives the same
    machine. *)
Theorem lookup_resolves s m name : store_ok s -> names_ok ct s -> is_Some (heap s !! m) ->
  exists s', lookup ct m name s = Ok (resolve ct s m name, s') /\ same_names s s' /\
    store_ok s' /\ names_ok ct s' /\
    exists s'', lookup ct m name s' = Ok (resolve ct s m name, s'') /\ same_names s s''.
Proof.
  intros W N [i E]. destruct (lookup_n_run ct (String.length name) m name i s ltac:(lia) W N E) as (s' & L & S & N').
  pose proof (store_ok_same _ _ S W) as W'. destruct (same_inv _ _ _ _ S E) as (i' & E' & _).
  destruct (lookup_n_run ct (String.length name) m name i' s' ltac:(lia) W' N' E') as (s'' & L' & S' & _).
  exists s'. repeat (split; [done |]). exists s''. split; [|by etransitivity].
  unfold lookup. rewrite L'. do 2 f_equal. symmetry. by apply resolve_n_same.
Qed.
End Theorems.

(** ** Checking a store *)
Definition live (s : Store) (o : option ptr) : bool :=
  match o with Some x => bool_decide (is_Some (heap s !! x)) | None => true end.
Definition links_okb (s : Store) (i : MachineInstance) : bool :=
  bool_decide (is_Some (state_machine (fixed i))) && live s (owner (fixed i)) &&
  forallb (fun p => live s (machine p)) (locals i) && forallb (fun p => live s (machine p)) (parameters i).
Definition store_okb (s : Store) : bool :=
  bool_decide (map_Forall (fun _ i => links_okb s i = true) (heap s)) &&
  bool_decide (map_Forall (fun _ x => live s (Some x) = true) (machines s)).
Lemma live_spec s x : live s (Some x) = true -> is_Some (heap s !! x).
Proof. apply bool_decide_eq_true. Qed.
Lemma live_list s l p x : forallb (fun p => live s (machine p)) l = true -> p ∈ l -> machine p = Some x ->
  is_Some (heap s !! x).
Proof.
  rewrite forallb_forall. intros F Hp Hx. apply list_elem_of_In in Hp. specialize (F p Hp).
  rewrite Hx in F. by apply live_spec.
Qed.
Lemma store_okb_ok s : store_okb s = true -> store_ok s.
Proof.
  unfold store_okb. rewrite andb_true_iff, !bool_decide_eq_true. intros [L M]. split.
  - intros m i E. specialize (L m i E). unfold links_okb in L. rewrite !andb_true_iff in L.
    destruct L as [[[C O] Lo] Pa]. split.
    + by apply bool_decide_eq_true in C.
    + intros o Ho. rewrite Ho in O. by apply live_spec.
    + intros p x. by apply live_list.
    + intros p x. by apply live_list.
  - intros name x E. apply live_spec. exact (M name x E).
Qed.
(** Before the first search nothing is remembered. *)
Lemma names_ok_fresh ct s :
  bool_decide (map_Forall (fun _ i => localised_names i = ∅) (heap s)) = true -> names_ok ct s.
Proof.
  rewrite bool_decide_eq_true. intros F m i name r E Hr. by rewrite (F m i E), lookup_empty in Hr.
Qed.

(** ** A sample: a list of two doors, and the machine that asks *)
Definition tokens0 : ClockworkToken * Tokeniser := Eval vm_compute in
  match Tokeniser.instance Tokeniser_new with
  | Ok r => r
  | _ => (mkClockworkToken 0 0 0 0 0 0 0 0 0 0 0 0 0 0 0 0 0 0 0 0 0, Tokeniser_new)
  end.
Definition ct0 : ClockworkToken := fst tokens0.
Definition sample_tok : Tokeniser := Eval vm_compute in
  match (sbind (getTokenId "front") (fun _ => getTokenId "back")) (snd tokens0) with
  | Ok (_, t) => t
  | _ => Tokeniser_new
  end.
Definition symbol_of (s : string) : MValue := plain (mkString t_symbol s (default 0 (tokens sample_tok !! s))).
Definition sample_class (name : string) (t : Z) (states : list string) : MachineClass :=
  mkClass name t [] SymbolTable_new ∅ states ∅ None.
Definition sample_fixed (name type : string) (c : MachineClass) : Fixed :=
  mkFixed name type None (Some c) 0 false None None false false ∅ false.
Definition sample_machine (f : Fixed) (params : list Param) (state : string) : MachineInstance :=
  mkInstance f [] params ∅ SymbolTable_new state true 0 Value_empty ∅ ∅ 0 false false 0.
Definition door (name state : string) : MachineInstance :=
  sample_machine (sample_fixed name "DOOR" (sample_class "DOOR" 100 ["open"; "closed"])) [] state.
Definition doors : MachineInstance :=
  sample_machine (sample_fixed "doors" "LIST" (sample_class "LIST" (tokLIST ct0) ["empty"; "nonempty"]))
    [mkParam (symbol_of "front") (Some 2%positive) "front"; mkParam (symbol_of "back") (Some 3%positive) "back"]
    "nonempty".
Definition watcher : MachineInstance :=
  sample_machine (sample_fixed "watcher" "WATCHER" (sample_class "WATCHER" 101 ["idle"])) [] "idle".
Definition sample_store : Store :=
  mkStore (list_to_map [(1%positive, doors); (2%positive, door "front" "open"); (3%positive, door "back" "closed");
                        (4%positive, watcher)])
    (list_to_map [("doors", 1%positive); ("front", 2%positive); ("back", 3%positive); ("watcher", 4%positive)])
    SymbolTable_new SymbolTable_new sample_tok [].
Definition sample_clock : Clock := {| keyword_now := fun _ => Value_empty; microsecs := 0; call_depth := 5 |}.

Lemma sample_ok : store_ok sample_store.
Proof. apply store_okb_ok. by vm_compute. Qed.
Lemma sample_names : names_ok ct0 sample_store.
Proof. apply names_ok_fresh. by vm_compute. Qed.

Lemma lookup_resolves_w : exists s', lookup ct0 4%positive "doors.back" sample_store = Ok (Some 3%positive, s').
Proof.
  destruct (lookup_resolves ct0 sample_store 4%positive "doors.back" sample_ok sample_names
    ltac:(eexists; by vm_compute)) as (s' & L & _).
  exists s'. rewrite L. f_equal.
Defined.
