(* ===== verification/PropertiesProps.v ===== *)
(** Setting a property and reading it back; what a refused or a special update
    does (Properties.v). *)
From S2P Require Import Prelude Cnum Tokeniser Value SymbolTable ValueOps ValueProps Message Names Properties NamesProps.
Open Scope Z_scope.

(** ** Values *)
Section Values.
Context `{DynEnv}.
Lemma asInteger_true d v x o : asInteger_n d v o = Ok (true, x) -> is_Some x.
Proof.
  revert v. induction d as [|d IH]; intros v; cbn; destruct (kind v);
    intros Hv; repeat (progress res_inv || (case_match; simplify_eq/=)); eauto.
Qed.
Lemma value_eq_defined v w : initialised v -> initialised w -> kind v <> t_dynamic -> kind w <> t_dynamic ->
  exists b, value_eq v w = Ok b.
Proof.
  intros Hv Hw Dv Dw. unfold value_eq, coerced.
  destruct (asFloat_defined v None Hv Dv) as (bv & xv & Fv). rewrite Fv.
  destruct (asFloat_defined w None Hw Dw) as (bw & xw & Fw). rewrite Fw.
  unfold initialised in Hv, Hw.
  destruct (kind v) eqn:Kv, (kind w) eqn:Kw; try done; cbn; eauto;
    try (destruct (asInteger_defined v None) as (cv & yv & Iv); [unfold initialised; by rewrite Kv | congruence..| rewrite Iv; cbn]);
    try (destruct (asInteger_defined w None) as (cw & yw & Iw); [unfold initialised; by rewrite Kw | congruence..| rewrite Iw; cbn]);
    repeat match goal with b : bool |- _ => destruct b; cbn; eauto end;
    repeat match goal with
    | E : asFloat _ _ = Ok (true, _) |- _ => apply asFloat_true in E as [? ->]
    | E : asInteger _ _ = Ok (true, _) |- _ => apply asInteger_true in E as [? ->]
    | E : exists _, _ /\ _ |- _ => destruct E as (? & -> & ?)
    | E : is_Some _ |- _ => destruct E as [? ->] end; cbn; eauto.
Qed.
(** A value that is not empty is not [SymbolTable::Null]. *)
Lemma not_null v : kind v <> t_empty -> value_eq v Null = Ok false /\ value_ne v Null = Ok true.
Proof. intros Hk. unfold value_eq, value_ne, coerced. cbn. by destruct (kind v). Qed.
Lemma null_null : value_eq Null Null = Ok true /\ value_ne Null Null = Ok false.
Proof. done. Qed.

(** A value that compares equal to itself. *)
Definition comparable (v : Value) : Prop :=
  initialised v /\ kind v <> t_dynamic /\ kind v <> t_empty /\ (forall x, fValue v = Some x -> kind v = t_float -> is_nan x = false).
Lemma identical_assign old v : comparable v -> identical (assign old v) v = Ok true.
Proof.
  intros (Hi & Hd & He & Hn). unfold initialised in Hi. unfold identical, value_eq, coerced, assign.
  destruct (kind v) eqn:K; cbn; try done.
  - destruct Hi as (i & Hi & _). unfold asInteger.
    destruct dyn_depth; cbn; rewrite K; cbn; rewrite Hi; cbn; by rewrite Z.eqb_refl.
  - by rewrite bool_decide_eq_true_2.
  - destruct Hi as [b ->]. cbn. by rewrite eqb_reflx.
  - destruct Hi as [t ->]. cbn. by rewrite Z.eqb_refl.
  - destruct Hi as [x Hx]. rewrite Hx. cbn. specialize (Hn x Hx eq_refl).
    destruct x as [s|s| |s m e]; try done; cbn; destruct s; unfold feqb, SpecFloat.SFeqb; cbn; by rewrite ?Z.compare_refl, ?Pos.compare_refl.
Qed.
End Values.

(** ** Names of properties *)

(** The ids of the names the updates treat specially are those of the table. *)
Record built_in (ct : ClockworkToken) (t : Tokeniser) : Prop := {
  bi_timer : tokens t !! "TIMER" = Some (tokTIMER ct);
  bi_polling : tokens t !! "POLLING_DELAY" = Some (tokPOLLING_DELAY ct);
  bi_traceable : tokens t !! "TRACEABLE" = Some (tokTRACEABLE ct);
  bi_value : tokens t !! "VALUE" = Some (tokVALUE ct)
}.
Lemma built_in_ext ct t t' : tok_ext t t' -> built_in ct t -> built_in ct t'.
Proof. intros E []. split; by eapply tok_ext_lookup. Qed.
Lemma other_token t p q id id' : tok_wf t -> tokens t !! p = Some id -> tokens t !! q = Some id' ->
  p <> q -> (id =? id') = false.
Proof. intros W Hp Hq N. apply Z.eqb_neq. intros ->. by apply N, (tok_inj _ W _ _ id'). Qed.
Lemma tokenise_name p s : tok_wf (tok s) -> next (tok s) < INT_MAX -> p <> "" ->
  exists v id t', tokenise (Value_str p t_symbol) s = Ok (v, with_tok t' s) /\
    token_id v = Some id /\ tokens t' !! p = Some id /\ tok_wf t' /\ tok_ext (tok s) t'.
Proof.
  intros W R N. destruct (getTokenId_defined p (tok s) W R) as (id & t' & G).
  destruct (getTokenId_inv _ _ _ _ W G) as (W' & X & T).
  unfold tokenise, Value_str. rewrite bool_decide_eq_false_2 by done. cbn. unfold sbind. rewrite G. cbn.
  eexists _, id, t'. split; [done |]. split; [|done]. by repeat case_match.
Qed.
Lemma tokenise_known p s id : tokens (tok s) !! p = Some id -> p <> "" ->
  exists v, tokenise (Value_str p t_symbol) s = Ok (v, s) /\ token_id v = Some id.
Proof.
  intros T N. unfold tokenise, Value_str. rewrite bool_decide_eq_false_2 by done. cbn.
  unfold sbind, getTokenId. rewrite T. cbn.
  eexists. split; [by destruct s |]. by repeat case_match.
Qed.

Section RoundTrip.
Context `{DynEnv} `{Clock}.
Variable ct : ClockworkToken.

(** What a machine keeps through an update of its properties. *)
Definition kept (i i' : MachineInstance) : Prop :=
  fixed i' = fixed i /\ parameters i' = parameters i /\ locals i' = locals i /\ properties i' = properties i.
Lemma kept_refl i : kept i i.
Proof. done. Qed.

Lemma add_property_run m p v i s id : heap s !! m = Some i -> tokens (tok s) !! p = Some id ->
  exists T, add_property m p v s = Ok (tt, with_heap (<[m := set_properties T i]> (heap s)) s) /\
    st T = map_assign p v (st (properties i)).
Proof.
  intros E T. unfold add_property. rewrite (sbind_run _ _ _ _ _ (get_run m i s E)).
  assert (A : exists T, SymbolTable.add p v ST_REPLACE (properties i) (tok s) = Ok ((true, T), tok s) /\
                st T = map_assign p v (st (properties i))).
  { unfold SymbolTable.add, store. destruct (Kind_eqb (kind v) t_symbol); cbn; [|by eexists].
    unfold sbind, getTokenId. rewrite T. cbn. by eexists. }
  destruct A as (T' & A & S). exists T'. split; [|done]. unfold sbind, tokenise. rewrite A.
  cbn [snd]. replace (with_tok (tok s) s) with s by (by destruct s). by rewrite (modify_run _ _ _ _ E).
Qed.

Lemma modbusName_run m p pv i s id : heap s !! m = Some i -> token_id pv = Some id ->
  (forall o, owner (fixed i) = Some o -> is_Some (heap s !! o)) ->
  exists name, modbusName ct m p pv s = Ok (name, s).
Proof.
  intros E T O. unfold modbusName. rewrite (sbind_run _ _ _ _ _ (get_run m i s E)).
  destruct (owner (fixed i)) as [o|]; cbn.
  - destruct (O o eq_refl) as [oi Eo]. unfold sbind. rewrite (get_run _ _ _ Eo). cbn. rewrite T. cbn. eauto.
  - unfold sbind. cbn. rewrite T. cbn. eauto.
Qed.

Lemma after_change_run m c p pv new t auth i s : heap s !! m = Some i -> token_id pv = Some t ->
  (forall o, owner (fixed i) = Some o -> is_Some (heap s !! o)) -> mq_interface (fixed i) = false ->
  (io_interface (fixed i) = None \/ (t =? tokVALUE ct) = false) ->
  exists s' i', after_change ct m c p pv new t auth s = Ok (tt, s') /\ heap s' !! m = Some i' /\
    kept i i' /\ keywords s' = keywords s /\ tok s' = tok s /\
    (forall o, o <> m -> heap s' !! o = heap s !! o).
Proof.
  intros E T O Q IO. unfold after_change. rewrite (sbind_run _ _ _ _ _ (get_run m i s E)).
  rewrite (sbind_run _ _ s tt s) by (destruct (io_interface (fixed i)); [by destruct IO as [? | ->] | done]).
  unfold publishes. rewrite Q, andb_false_r. cbn [andb].
  rewrite (sbind_run _ _ s tt s) by done.
  destruct (modbusName_run m p pv i s t E T O) as (name & N). rewrite (sbind_run _ _ _ _ _ N).
  assert (P : exists s1, (if published (fixed i) then
      sbind (emit (EPropertyChange m p new auth)) (fun _ => if bool_decide (name ∈ modbus_exports (fixed i))
        then emit (EModbus m name new) else sret tt) else sret tt) s = Ok (tt, s1) /\
      heap s1 = heap s /\ keywords s1 = keywords s /\ tok s1 = tok s).
  { destruct (published (fixed i)); [|by exists s]. unfold sbind. cbn. case_bool_decide; by eexists. }
  destruct P as (s1 & P & H1 & K1 & T1). rewrite (sbind_run _ _ _ _ _ P).
  rewrite <- H1 in E. rewrite (sbind_run _ _ _ _ _ (get_run m i s1 E)).
  rewrite <- K1, <- T1, <- H1. clear -E.
  assert (C : exists s2 i', (if receives_change (fixed i) && negb (change_pending i)
      then sbind (modify m (set_pending true)) (fun _ => emit (EQueueChange m)) else sret tt) s1 = Ok (tt, s2) /\
      heap s2 !! m = Some i' /\ kept i i' /\ keywords s2 = keywords s1 /\ tok s2 = tok s1 /\
      (forall o, o <> m -> heap s2 !! o = heap s1 !! o)).
  { destruct (_ && _); [|by exists s1, i]. unfold sbind. rewrite (modify_run _ _ _ _ E).
    eexists _, _. split; [done |]. cbn. rewrite lookup_insert_eq. do 4 (split; [done |]).
    intros o Ho. by rewrite lookup_insert_ne. }
  destruct C as (s2 & i' & C & E2 & K & K2 & T2 & L2). rewrite (sbind_run _ _ _ _ _ C).
  clear C. destruct (_ && _); [|by exists s2, i']. by eexists _, i'.
Qed.

(** Storing a comparable value. *)
Lemma store_value_run m c p prev new i s id : heap s !! m = Some i -> plugin_filter c = None ->
  tokens (tok s) !! p = Some id -> prev = default Null (st (properties i) !! p) ->
  initialised prev -> kind prev <> t_dynamic -> comparable new ->
  exists b s' i' w, store_value m c p prev new s = Ok (b, s') /\ heap s' !! m = Some i' /\
    fixed i' = fixed i /\ parameters i' = parameters i /\ keywords s' = keywords s /\ tok s' = tok s /\
    (forall o, o <> m -> heap s' !! o = heap s !! o) /\
    st (properties i') !! p = Some w /\ identical w new = Ok true /\ kind w = kind new /\
    (forall k, k <> p -> st (properties i') !! k = st (properties i) !! k).
Proof.
  intros E F T -> Ip Dp Hc. unfold store_value. rewrite F.
  set (prev := default Null (st (properties i) !! p)) in *.
  destruct Hc as (Hi & Hd & He & Hn). pose proof (conj Hi (conj Hd (conj He Hn))) as Hc.
  assert (Hid : exists same, identical prev new = Ok same).
  { unfold identical. destruct (value_eq_defined prev new Ip Hi Dp Hd) as [b Hb].
    destruct (Kind_eqb (kind prev) t_float) eqn:Kp, (Kind_eqb (kind new) t_float) eqn:Kn; cbn; eauto.
    apply Kind_eqb_eq in Kp, Kn. unfold initialised in Ip, Hi. rewrite Kp in Ip. rewrite Kn in Hi.
    destruct Ip as [? ->], Hi as [? ->]. cbn. eauto. }
  destruct Hid as [same Hsame]. unfold differs. rewrite Hsame. cbn.
  destruct (not_null new He) as [_ Nn]. rewrite Nn. cbn.
  assert (St : exists s' i' w, sbind (add_property m p new) (fun _ => sret true) s = Ok (true, s') /\
    heap s' !! m = Some i' /\ fixed i' = fixed i /\ parameters i' = parameters i /\ keywords s' = keywords s /\
    tok s' = tok s /\ (forall o, o <> m -> heap s' !! o = heap s !! o) /\
    st (properties i') !! p = Some w /\ identical w new = Ok true /\ kind w = kind new /\
    (forall k, k <> p -> st (properties i') !! k = st (properties i) !! k)).
  { destruct (add_property_run m p new i s id E T) as (T' & A & S'). rewrite (sbind_run _ _ _ _ _ A).
    eexists _, _, _. split; [done |]. cbn. rewrite lookup_insert_eq. split; [done |]. cbn.
    split; [done |]. split; [done |]. split; [done |]. split; [done |]. split.
    { intros o Ho. by rewrite lookup_insert_ne. }
    rewrite S'. unfold map_assign. rewrite lookup_insert_eq. split; [done |].
    split; [by apply identical_assign | split; [apply assign_kind |]]. intros k Hk. by rewrite lookup_insert_ne. }
  destruct (negb same || negb (Kind_eqb (kind prev) (kind new))) eqn:Ch.
  { rewrite (slift_run _ _ _ _ eq_refl). destruct St as (s' & i' & w & St). by exists true, s', i', w. }
  apply orb_false_iff in Ch as [Hs%negb_false_iff Hk%negb_false_iff]. apply Kind_eqb_eq in Hk.
  rewrite Hs in Hsame. destruct (st (properties i) !! p) as [w|] eqn:Hw.
  - destruct (not_null w) as [Nw _]; [unfold prev in Hk; cbn in Hk; congruence |].
    change prev with w. rewrite Nw. cbn. exists false, s, i, w.
    split; [done |]. split; [done |]. repeat (split; [done |]). done.
  - exfalso. apply He. by rewrite <- Hk.
Qed.

(** A property that is set and read as a property of the machine itself: no
    plugin filter, variable, keyword or authority is involved, and its name is
    neither dotted nor one of those treated specially. *)
Record settable (s : Store) (m : ptr) (i : MachineInstance) (c : MachineClass) (p : string) : Prop := {
  sv_inst : heap s !! m = Some i;
  sv_class : state_machine (fixed i) = Some c;
  sv_filter : plugin_filter c = None;
  sv_global : global_references c !! p = None;
  sv_variable : is_variable ct c = false;
  sv_authority : expected_authority (fixed i) = 0;
  sv_name : p <> "" /\ split_dot p = None;
  sv_keyword : st (keywords s) !! p = None;
  sv_special : p ∉ ["TIMER"; "POLLING_DELAY"; "TRACEABLE"];
  sv_plain : mq_interface (fixed i) = false /\ (io_interface (fixed i) = None \/ p <> "VALUE");
  sv_tok : tok_wf (tok s) /\ next (tok s) < INT_MAX /\ built_in ct (tok s);
  sv_target :
    match st (properties i) !! p with
    | Some v => initialised v /\ kind v <> t_dynamic /\ kind v <> t_empty
    | None => resolve ct s m p = None
    end
}.

Lemma table_ref_run own p t s : st (keywords s) !! p = None ->
  table_ref own p t s = Ok (match st t !! p with Some _ => own | None => RNull end, s).
Proof.
  intros K. unfold table_ref, own_find. rewrite K. cbn [default].
  by rewrite (proj2 null_null).
Qed.
Lemma load_prop m p i s : heap s !! m = Some i ->
  load (match st (properties i) !! p with Some _ => RProp m p | None => RNull end) s =
    Ok (default Null (st (properties i) !! p), s).
Proof.
  intros E. unfold load. destruct (st (properties i) !! p) eqn:P; cbn; [|done]. rewrite E. cbn. by rewrite P.
Qed.

(** Setting a property of the machine itself stores the value. *)
(** A machine that was there is there, if only one of them changed. *)
Lemma others_live s s' m i i' o : heap s !! m = Some i -> heap s' !! m = Some i' -> (forall o, o <> m -> heap s' !! o = heap s !! o) ->
  is_Some (heap s !! o) -> is_Some (heap s' !! o).
Proof. intros E E' L Ho. destruct (decide (o = m)) as [-> | Hn]; [by exists i' | by rewrite L]. Qed.
Lemma set_own_run m c p pv new t auth i s : heap s !! m = Some i -> plugin_filter c = None ->
  tokens (tok s) !! p = Some t -> token_id pv = Some t -> st (keywords s) !! p = None ->
  match st (properties i) !! p with Some v => initialised v /\ kind v <> t_dynamic | None => True end ->
  (forall o, owner (fixed i) = Some o -> is_Some (heap s !! o)) -> mq_interface (fixed i) = false ->
  (io_interface (fixed i) = None \/ (t =? tokVALUE ct) = false) -> comparable new ->
  exists s' i' w, set_own ct m c p pv new t auth s = Ok (true, s') /\ heap s' !! m = Some i' /\
    fixed i' = fixed i /\ parameters i' = parameters i /\ keywords s' = keywords s /\ tok s' = tok s /\
    st (properties i') !! p = Some w /\ identical w new = Ok true /\ kind w = kind new /\
    (forall o, o <> m -> heap s' !! o = heap s !! o) /\
    (forall k, k <> p -> st (properties i') !! k = st (properties i) !! k).
Proof.
  intros E F T V K P O Q IO Hc. unfold set_own.
  rewrite (sbind_run _ _ _ _ _ (get_run m i s E)), (sbind_run _ _ _ _ _ (table_ref_run _ _ _ _ K)),
    (sbind_run _ _ _ _ _ (load_prop m p i s E)).
  unfold publishes. rewrite Q, andb_false_r. cbn [andb].
  rewrite (sbind_run _ _ s tt s) by done.
  set (prev := default Null (st (properties i) !! p)).
  assert (Hp : initialised prev /\ kind prev <> t_dynamic).
  { unfold prev. destruct (st (properties i) !! p); [done | by cbn]. }
  destruct (store_value_run m c p prev new i s t E F T eq_refl (proj1 Hp) (proj2 Hp) Hc)
    as (b & s1 & i1 & w & S1 & E1 & F1 & P1 & K1 & T1 & L1 & W1 & I1 & D1 & X1).
  rewrite (sbind_run _ _ _ _ _ S1). destruct b; [|by exists s1, i1, w].
  destruct (after_change_run m c p pv new t auth i1 s1) as (s2 & i2 & A & E2 & (F2 & P2 & _ & Pr2) & K2 & T2 & L2);
    rewrite ?F1; try done; [intros o Ho; by eapply others_live; [exact E | exact E1 | exact L1 | apply O] |].
  rewrite (sbind_run _ _ _ _ _ A). exists s2, i2, w.
  split; [done |]. split; [done |]. rewrite Pr2. split; [congruence |]. split; [congruence |]. split; [congruence |]. split; [congruence |]. split; [done |]. split; [done |]. split; [done |].
  split; [|done]. intros o Ho. by rewrite L2, L1.
Qed.

Lemma own_value_run m p pv t c i w s : heap s !! m = Some i -> state_machine (fixed i) = Some c ->
  token_id pv = Some t -> (t =? tokTIMER ct) = false -> st (keywords s) !! p = None ->
  st (properties i) !! p = Some w -> kind w <> t_empty ->
  own_value ct m p pv s = Ok (Some (RProp m p), s).
Proof.
  intros E C V N K W Hk. unfold own_value.
  rewrite (sbind_run _ _ _ _ _ (get_run m i s E)), V. cbn [rd]. rewrite (slift_run _ _ _ _ eq_refl), N.
  unfold exists_name. rewrite K.
  rewrite (sbind_run _ _ _ _ _ (table_ref_run _ _ _ _ K)), (sbind_run _ _ _ _ _ (load_prop m p i s E)), W.
  cbn [default]. unfold is_null_value. rewrite (slift_run _ _ _ _ (proj1 (not_null w Hk))). done.
Qed.
Lemma getValue_own n m p t c i w s : heap s !! m = Some i -> state_machine (fixed i) = Some c ->
  is_variable ct c = false -> global_references c !! p = None -> p <> "" -> split_dot p = None ->
  tokens (tok s) !! p = Some t -> (t =? tokTIMER ct) = false -> st (keywords s) !! p = None ->
  st (properties i) !! p = Some w -> kind w <> t_empty ->
  getValue_n ct (S n) m p s = Ok (RProp m p, s).
Proof.
  intros E C V G Np D T N K W Hk. cbn [getValue_n].
  rewrite (sbind_run _ _ _ _ _ (get_run m i s E)), D.
  destruct (tokenise_known p s t T Np) as (pv & Tk & Ti). rewrite (sbind_run _ _ _ _ _ Tk).
  unfold own_parameter. rewrite C, V. rewrite (slift_run _ _ _ _ eq_refl). rewrite (sbind_run _ _ s tt s) by done.
  unfold global_reference. rewrite C, G. rewrite (sbind_run _ _ s tt s) by done.
  by rewrite (sbind_run _ _ _ _ _ (own_value_run m p pv t c i w s E C Ti N K W Hk)).
Qed.

(** The token table plays no part in the names of machines. *)
Lemma resolve_tok t s m p : resolve ct (with_tok t s) m p = resolve ct s m p.
Proof.
  unfold resolve. generalize (String.length p) as k. intros k. revert m p.
  induction k as [|k IH]; intros m p; cbn; case_match; try done.
  case_match. change (resolve_simple ct (with_tok t s) m) with (resolve_simple ct s m).
  destruct (resolve_simple ct s m _); [|done]. apply IH.
Qed.
Lemma store_ok_tok t s : store_ok s -> store_ok (with_tok t s).
Proof. intros [L M]. split; [|done]. intros m i E. by destruct (L m i E). Qed.
Lemma names_ok_tok t s : names_ok ct s -> names_ok ct (with_tok t s).
Proof. intros N m i name r E Hr. rewrite resolve_tok. by apply (N m i). Qed.

(** Setting a property of the machine itself, then reading it. *)
Lemma set_own_get n s m c p pv new t auth s1 i : store_ok s1 -> settable s m i c p -> comparable new ->
  tok_wf (tok s1) -> built_in ct (tok s1) -> tokens (tok s1) !! p = Some t -> token_id pv = Some t ->
  keywords s1 = keywords s ->
  (exists i1, heap s1 !! m = Some i1 /\ fixed i1 = fixed i /\ properties i1 = properties i) ->
  exists s' r s'' w, set_own ct m c p pv new t auth s1 = Ok (true, s') /\
    getValue_n ct (S n) m p s' = Ok (r, s'') /\ deref r s'' = Ok w /\ identical w new = Ok true /\
    kind w = kind new.
Proof.
  intros W1 [E C F G V A [Np D] K Sp [Q IO] _ Tg] Hc Tw B Tp Ti K1 (i1 & E1 & F1 & P1).
  destruct (set_own_run m c p pv new t auth i1 s1) as (s' & i' & w & R & E' & F' & _ & K' & T' & Pw & I & Kw & _ & _);
    rewrite ?F1, ?P1, ?K1; try done.
  - destruct (st (properties i) !! p); naive_solver.
  - intros o Ho. apply (lk_owner _ _ (so_links _ W1 _ _ E1)). by rewrite F1.
  - destruct IO as [-> | Hv]; [by left |]. right. by eapply other_token; [| | exact (bi_value _ _ B) |].
  - exists s', (RProp m p), s', w. split; [done |]. split; [|split; [|done]].
    + destruct Hc as (_ & _ & Hne & _).
      eapply getValue_own with (i := i') (c := c) (t := t) (w := w);
        rewrite ?F', ?F1, ?K', ?K1, ?T'; try done; [|by rewrite Kw].
      eapply other_token; [done | exact Tp | exact (bi_timer _ _ B) | set_solver].
    + cbn. rewrite E'. cbn. by rewrite Pw.
Qed.

(** A property that was set reads back: setting a property of a machine to a
    value that is initialised, neither empty, dynamic nor NaN, succeeds, and
    [getValue] of that name on the resulting store leads to a value of the same
    kind that is identical to the one set, whether the property existed before,
    had the same value already, or is new. *)
Theorem set_then_get s m i c p new authority : store_ok s -> names_ok ct s -> settable s m i c p ->
  comparable new -> (0 < call_depth)%nat ->
  exists s' r s'' w, setValue ct m p new authority s = Ok (true, s') /\
    getValue ct m p s' = Ok (r, s'') /\ deref r s'' = Ok w /\
    identical w new = Ok true /\ kind w = kind new.
Proof.
  intros W N St Hc Hd. pose proof St as [E C F G V A [Np D] K Sp _ (Tw & Tr & B) Tg].
  unfold setValue, getValue. destruct call_depth as [|n]; [lia |]. cbn [setValue_n].
  rewrite bool_decide_eq_false_2, D by done.
  rewrite (sbind_run _ _ _ _ _ (get_run m i s E)), A. cbn [Z.eqb negb andb].
  destruct (tokenise_name p s Tw Tr Np) as (pv & t & t1 & Tk & Ti & Tp & Tw1 & X).
  rewrite (sbind_run _ _ _ _ _ Tk), Ti. cbn [rd]. rewrite (slift_run _ _ _ _ eq_refl).
  pose proof (built_in_ext _ _ _ X B) as B1.
  rewrite (other_token _ _ _ _ _ Tw1 Tp (bi_polling _ _ B1)) by set_solver.
  rewrite (other_token _ _ _ _ _ Tw1 Tp (bi_traceable _ _ B1)) by set_solver. cbn [negb andb].
  rewrite C. cbn [rd]. rewrite (slift_run _ _ _ _ eq_refl), (sbind_run _ _ _ tt (with_tok t1 s)) by done.
  rewrite G, (sbind_run _ _ _ _ _ (get_run m i (with_tok t1 s) E)),
    (sbind_run _ _ _ _ _ (table_ref_run _ _ _ (with_tok t1 s) K)),
    (sbind_run _ _ _ _ _ (load_prop m p i (with_tok t1 s) E)).
  pose proof (store_ok_tok t1 _ W) as Wt. pose proof (names_ok_tok t1 _ N) as Nt.
  destruct (st (properties i) !! p) as [v|] eqn:P; cbn [default].
  - rewrite (slift_run _ _ _ _ (proj1 (not_null v (proj2 (proj2 Tg))))). cbn [andb].
    eapply set_own_get; try done; eauto.
  - rewrite (slift_run _ _ _ _ (proj1 null_null)).
    destruct (_ && _); [|eapply set_own_get; try done; eauto].
    destruct (lookup_n_run ct (String.length p) m p i (with_tok t1 s) ltac:(lia) Wt Nt E) as (s2 & L & S2 & _).
    rewrite resolve_tok, Tg in L. unfold lookup. rewrite (sbind_run _ _ _ _ _ L).
    destruct (same_inv _ _ _ _ S2 E) as (i2 & E2 & F2 & _ & _ & P2).
    pose proof (sn_keywords _ _ S2) as K2. pose proof (sn_tok _ _ S2) as T2. cbn in K2, T2.
    apply (set_own_get n s m c p pv new t authority s2 i); rewrite <- ?T2, <- ?K2; try done;
      [by eapply store_ok_same | by exists i2].
Qed.
End RoundTrip.

(** ** Witness *)
Lemma tok_wf_check t : bool_decide (map_Forall (fun _ id => 1 <= id <= next t) (tokens t)) = true ->
  bool_decide (NoDup (map_to_list (tokens t)).*2) = true -> bool_decide (0 <= next t <= INT_MAX) = true ->
  tok_wf t.
Proof.
  rewrite !bool_decide_eq_true. intros R D N. split; [exact R | | done].
  intros s1 s2 id E1 E2. apply elem_of_map_to_list, list_elem_of_lookup in E1 as [k1 E1].
  apply elem_of_map_to_list, list_elem_of_lookup in E2 as [k2 E2].
  assert (k1 = k2) as ->.
  { eapply (NoDup_lookup _ k1 k2 id D); by rewrite list_lookup_fmap, ?E1, ?E2. }
  congruence.
Qed.
Definition watcher_class : MachineClass := sample_class "WATCHER" 101 ["idle"].
Lemma watcher_settable : settable ct0 sample_store 4%positive watcher watcher_class "count".
Proof.
  split; [reflexivity.. | by split | reflexivity | set_solver | by split; [|left] | | reflexivity].
  split; [by apply tok_wf_check; vm_compute | split; [by vm_compute |]]. split; by vm_compute.
Qed.
Lemma set_then_get_w : exists s' r s'' w,
  @setValue no_dyn sample_clock ct0 4%positive "count" (Value_int 7) 0 sample_store = Ok (true, s') /\
  @getValue no_dyn sample_clock ct0 4%positive "count" s' = Ok (r, s'') /\ deref r s'' = Ok w /\
  @identical no_dyn w (Value_int 7) = Ok true.
Proof.
  destruct (@set_then_get no_dyn sample_clock ct0 sample_store 4%positive watcher watcher_class "count" (Value_int 7) 0
    sample_ok sample_names watcher_settable ltac:(split; [by exists 7 | by split]) ltac:(by apply Nat.lt_0_succ))
    as (s' & r & s'' & w & A & B & C & D & _).
  by exists s', r, s'', w.
Defined.
