(* ===== verification/Lists.v ===== *)
(** List machines (MachineInstance.cpp, value.cpp, dynamic_value.cpp): the
    dependencies between machines, the parameters of a LIST and the local of a
    REFERENCE, and how a list is written out. *)
From S2P Require Import Prelude Cnum Tokeniser Value SymbolTable ValueOps Message Names Properties.
From Stdlib Require Import Ascii SpecFloat.
Open Scope Z_scope.

(** ** Writing values to a stream *)

(** The digits of [m * 2^e] times [10^k], rounded to an integer, ties to even. *)
Definition scale10 (m : positive) (e k : Z) : Z :=
  let num := Zpos m * 2 ^ Z.max e 0 * 10 ^ Z.max k 0 in
  let den := 2 ^ Z.max (- e) 0 * 10 ^ Z.max (- k) 0 in
  let q := num / den in
  let r := 2 * (num mod den) in
  if (den <? r) || ((r =? den) && Z.odd q) then q + 1 else q.
(** The exponent of the first significant digit of a number below [10^-k]. *)
Fixpoint sci_exp (fuel : nat) (m : positive) (e prec k : Z) : Z :=
  match fuel with
  | O => k
  | S f => if scale10 m e (k + prec) <? 10 ^ prec then sci_exp f m e prec (k + 1) else k
  end.
(** [std::scientific] with a precision, of a number of magnitude below one; the
    smallest double is above [10^-324]. *)
Definition print_sci (prec : Z) (s : bool) (m : positive) (e : Z) : list ascii :=
  let k := sci_exp 325 m e prec 1 in
  let n := scale10 m e (k + prec) in
  let frac := pad_left (chr 48) (Z.to_nat prec) (print_nat (n mod 10 ^ prec)) in
  (if s then [chr 45] else []) ++ print_nat (n / 10 ^ prec) ++ [dot] ++ frac ++
  [chr 101; chr 45] ++ pad_left (chr 48) 2 (print_nat k).

Definition float_1em4 : double := Eval vm_compute in dec_float false 1 (-4).
Definition is_fzero (x : double) : bool := feqb x fzero.

(** How a dynamic value writes itself. *)
Class Printer := { show_dynamic : dynref -> string }.

Section Show.
Context `{Printer}.
(** [Value::operator<<]. The precision of the stream is changed by the numbers
    written and used by later ones. *)
Definition show (prec : Z) (v : Value) : res (string * Z) :=
  match kind v with
  | t_empty => Ok ("(empty)", prec)
  | t_integer => i ← rd (iValue v); Ok (str (print_long i), prec)
  | t_float =>
      x ← rd (fValue v);
      if negb (is_fzero x) && fleb x float_1em4 && fleb (fopp float_1em4) x then
        match x with
        | S754_finite s m e => Ok (str (print_sci prec s m e), prec)
        | _ => Ok ("", prec)
        end
      else if is_fzero x then
        Ok (match x with S754_zero true => "-0.0" | _ => "0.0" end, 1)
      else
        Ok (match x with
            | S754_infinity neg => if neg then "-inf" else "inf"
            | S754_nan => "nan"
            | _ => str (print_double x)
            end, 6)
  | t_symbol => Ok (sValue v, prec)
  | t_string => Ok (quote +:+ sValue v +:+ quote, prec)
  | t_bool => b ← rd (bValue v); Ok (if b : bool then "true" else "false", prec)
  | t_dynamic => Ok (match dyn_value v with Some d => show_dynamic d | None => "<null>" end, prec)
  end.
Fixpoint show_list (prec : Z) (delim : string) (l : list Value) : res string :=
  match l with
  | [] => Ok ""
  | v :: l' =>
      r ← show prec v;
      rest ← show_list (snd r) "," l';
      Ok (delim +:+ fst r +:+ rest)
  end.
End Show.

(** ** Dependencies *)

(** [setState (const char * )] on another machine: what its handlers do is not
    part of the lists. *)
Class StateControl := { setState : ptr -> string -> NM unit }.

Section Dependencies.
Local Open Scope sm_scope.
Definition addDependancy (m d : ptr) : NM unit :=
  if bool_decide (d = m) then sret tt else modify m (fun i => set_depends ({[d]} ∪ depends i) i).
Definition removeDependancy (m d : ptr) : NM unit :=
  if bool_decide (d = m) then sret tt else modify m (fun i => set_depends (depends i ∖ {[d]}) i).
(** The stable states forget the results of their conditions. *)
Definition listenTo (m d : ptr) : NM unit :=
  let! i := get m in
  if bool_decide (d ∈ listens i) then sret tt
  else
    run! modify m (set_listens ({[d]} ∪ listens i)) in
    run! emit (EFlush m) in emit (ENeedsCheck m).
Definition stopListening (m d : ptr) : NM unit :=
  run! modify m (fun i => set_listens (listens i ∖ {[d]}) i) in
  run! emit (EFlush m) in emit (ENeedsCheck m).

(** The same calls with a null machine: no dependency, and nothing is listened
    to ([removeDependancy] and [stopListening] take the null pointer). *)
Definition removeDependancy_opt (m : ptr) (d : option ptr) : NM unit :=
  match d with Some d => removeDependancy m d | None => sret tt end.
Definition stopListening_opt (m : ptr) (d : option ptr) : NM unit :=
  match d with
  | Some d => stopListening m d
  | None => run! get m in run! emit (EFlush m) in emit (ENeedsCheck m)
  end.
End Dependencies.

(** ** The entries of a list *)
Definition insert_at {A} (k : nat) (x : A) (l : list A) : list A := take k l ++ x :: drop k l.

(** Where [addParameter] puts an entry. [position] is an [int]: its increment may
    overflow, and a negative one inserts in front of the last entry, which an
    empty list does not have. *)
Definition place {A} (p : A) (position : Z) (before : bool) (l : list A) : res (list A) :=
  if position <? 0 then
    if before then
      match l with [] => Undef | _ => Ok (insert_at (length l - 1) p l) end
    else Ok (l ++ [p])
  else
    pos ← (if before then Ok position else int_of (position + 1));
    Ok (if pos <? Z.of_nat (length l) then insert_at (Z.to_nat pos) p l else l ++ [p]).

Section Entries.
Context `{DynEnv} `{Clock} `{StateControl}.
Variable ct : ClockworkToken.
Local Open Scope sm_scope.

(** [addParameter (const Parameter &, ...)]. *)
Definition addParameter (l : ptr) (p : Param) (mi : option ptr) (position : Z) (before : bool) : NM unit :=
  let! i := get l in
  let? ps := place p position before (parameters i) in
  run! modify l (set_parameters ps) in
  run! (match mi with
        | Some m => run! addDependancy l m in run! listenTo l m in
                    run! addDependancy m l in listenTo m l
        | None => sret tt
        end) in
  let! i' := get l in
  run! (if bool_decide (i_type (fixed i') = "LIST") && negb (bool_decide (parameters i' = []))
           && negb (bool_decide (current_state i' = "nonempty"))
        then setState l "nonempty" else sret tt) in
  run! emit (ENeedsCheck l) in emit (ENotify l).

(** [addParameter (Value, ...)]. *)
Definition addParameter_value (l : ptr) (param : MValue) (mi : option ptr) (position : Z)
    (before : bool) : NM unit :=
  let p := Param_of param in
  match mi with
  | Some m =>
      let! name := fullName m in
      addParameter l (mkParam (val p) (Some m) name) mi position before
  | None =>
      if Kind_eqb (kind (base param)) t_symbol then
        let! r := lookup_value ct l (mv_copy param) in
        match fst r with
        | Some m =>
            let! name := fullName m in
            addParameter l (mkParam (val p) (Some m) name) (Some m) position before
        | None =>
            let! v := getValue_of ct l (mv_copy param) in
            let! x := load (fst v) in
            addParameter l (mkParam (mkMV (assign (base (val p)) x) None None) None "") None position before
        end
      else addParameter l p None position before
  end.

(** [removeParameter]. *)
Definition removeParameter (l : ptr) (which : Z) : NM unit :=
  let! i := get l in
  if (which <? 0) || (Z.of_nat (length (parameters i)) <=? which) then sret tt
  else
    let k := Z.to_nat which in
    let? p := rd (parameters i !! k) in
    run! (match machine p with
          | Some m => run! removeDependancy m l in run! stopListening m l in
                      run! removeDependancy l m in stopListening l m
          | None => sret tt
          end) in
    run! modify l (fun i => set_parameters (delete k (parameters i)) i) in
    let! i' := get l in
    run! (if bool_decide (i_type (fixed i') = "LIST") && bool_decide (parameters i' = [])
             && negb (bool_decide (current_state i' = "empty"))
          then setState l "empty" else sret tt) in
    run! emit (ENeedsCheck l) in emit (ENotify l).

(** The loop over the dependent machines. *)
Fixpoint each (l : list ptr) (f : ptr -> NM unit) : NM unit :=
  match l with [] => sret tt | d :: l' => run! f d in each l' f end.
Definition for_depends (m : ptr) (f : ptr -> NM unit) : NM unit :=
  let! i := get m in each (elements (depends i)) f.

(** A LIST tells its dependents; a REFERENCE changes state. *)
Definition local_changed (m : ptr) (state : string) : NM unit :=
  run! emit (ENeedsCheck m) in
  let! i := get m in
  if bool_decide (i_type (fixed i) = "LIST") then emit (ENotify m)
  else if bool_decide (i_type (fixed i) = "REFERENCE") then
    run! setState m state in emit (ENotify m)
  else sret tt.

(** [addLocal]: the new local keeps the machine it is given, even when a machine
    is found by its name. *)
Definition addLocal (m : ptr) (param : MValue) (mi : option ptr) : NM unit :=
  run! modify m (fun i => set_locals
    (locals i ++ [mkParam (mv_copy param) mi ""]) i) in
  let! mi' := match mi with
              | Some x => sret (Some x)
              | None => if Kind_eqb (kind (base param)) t_symbol
                        then let? name := asString (base param) in lookup ct m name
                        else sret None
              end in
  run! for_depends m (fun dep =>
    run! (match mi' with
          | Some x => run! addDependancy x dep in listenTo dep x
          | None => sret tt
          end) in
    emit (ENeedsCheck dep)) in
  run! (match mi' with
        | Some x => run! addDependancy x m in run! listenTo m x in emit (EFlush m)
        | None => sret tt
        end) in
  local_changed m "ASSIGNED".

(** [removeLocal]; a negative index reads in front of the vector. *)
Definition removeLocal (m : ptr) (index : Z) : NM unit :=
  let! i := get m in
  if Z.of_nat (length (locals i)) <=? index then sret tt
  else
    let k := Z.to_nat index in
    let? p := (if index <? 0 then Undef else rd (locals i !! k)) in
    run! (match machine p with
          | Some x =>
              let! xi := get x in
              run! modify m (fun i => set_names (delete (i_name (fixed xi)) (localised_names i)) i) in
              run! stopListening m x in
              run! removeDependancy x m in
              for_depends m (fun dep =>
                run! removeDependancy x dep in
                run! stopListening dep x in
                emit (ENeedsCheck dep))
          | None => sret tt
          end) in
    run! modify m (fun i => set_names (delete (sValue (base (val p))) (localised_names i)) i) in
    run! modify m (fun i => set_locals (delete k (locals i)) i) in
    local_changed m "EMPTY".

(** [displayList]: the DEBUG property shows the entries. *)
Definition displayList `{Printer} (l : ptr) : NM unit :=
  let! i := get l in
  let? text := show_list 6 "" ((fun p => base (val p)) <$> parameters i) in
  run! setValue ct l "DEBUG" (mkString t_string ("[" +:+ text +:+ "]") 0) 0 in
  sret tt.
End Entries.
