(* ===== verification/DynamicValues.v ===== *)
(** The operators of the language that compute a value from a list or from the
    names in scope (dynamic_value.cpp): ANY, ALL, COUNT, FIND, SUM, MEAN, MIN,
    MAX, SERIALISE, INCLUDES, SIZE, FIRST and LAST, ITEM, BITSET, ENABLED,
    EXISTS, property lookup, CAST, CLASS and AS STRING.

    Each operator is a function of its object: [last_result], the pointer to the
    property that names a state and the list that was found are kept between
    evaluations. The machine that asks is [mi]. *)
From S2P Require Import Prelude Cnum Tokeniser Value SymbolTable ValueOps Message Names Properties Lists.
Open Scope Z_scope.

(** ** Objects *)
Record DynamicValue := mkDynamic {
  last_result : MValue;
  state_property : option Ref;
  machine_list : option ptr
}.
(** A fresh operator: its constructor leaves [last_result] empty. *)
Definition DynamicValue_new : DynamicValue := mkDynamic (plain Value_empty) None None.
(** [operator=] of values that carry their caches. *)
Definition mv_assign (dst src : MValue) : MValue :=
  mkMV (assign (base dst) (base src)) (cached_machine src) (cached_value src).
Definition result_mv (v : MValue) (d : DynamicValue) : DynamicValue :=
  mkDynamic (mv_assign (last_result d) v) (state_property d) (machine_list d).
Definition result (v : Value) : DynamicValue -> DynamicValue := result_mv (plain v).
Definition answer (d : DynamicValue) : Value := base (last_result d).
Definition with_property (r : Ref) (d : DynamicValue) : DynamicValue :=
  mkDynamic (last_result d) (Some r) (machine_list d).
Definition with_list (l : option ptr) (d : DynamicValue) : DynamicValue :=
  mkDynamic (last_result d) (state_property d) l.

(** ** Loops over the positions of a list *)
Section Loops.
Local Open Scope sm_scope.
(** Stop at the first position the body accepts. *)
Fixpoint first_index (n k : nat) (body : nat -> NM bool) : NM (option nat) :=
  match n with
  | O => sret None
  | S n' => let! stop := body k in
      if stop : bool then sret (Some k) else first_index n' (S k) body
  end.
(** Fold over all the positions. *)
Fixpoint fold_index {A} (n k : nat) (a : A) (body : nat -> A -> NM A) : NM A :=
  match n with
  | O => sret a
  | S n' => let! a' := body k a in fold_index n' (S k) a' body
  end.
End Loops.

Section Operators.
Context `{DynEnv} `{Clock} `{StateControl} `{Printer}.
Variable ct : ClockworkToken.
Local Open Scope sm_scope.

(** The [k]-th entry of the list [l]. *)
Definition entry (l : ptr) (k : nat) : NM Param :=
  let! i := get l in slift (rd (parameters i !! k)).
(** Its machine, looked up from [mi] when it is not linked yet. *)
Definition entry_machine (mi l : ptr) (k : nat) : NM (option ptr) :=
  let! p := entry l k in
  match machine p with
  | Some x => sret (Some x)
  | None => run! lookup_parameter ct mi l k in
      let! p' := entry l k in sret (machine p')
  end.
Definition list_size (l : ptr) : NM nat := let! i := get l in sret (length (parameters i)).
Definition is_list (l : ptr) : NM bool :=
  let! i := get l in sret (bool_decide (i_type (fixed i) = "LIST")).
Definition missing (mi : ptr) (name : string) (v : Value) (d : DynamicValue) : NM DynamicValue :=
  run! emit (ELog mi name) in sret (result v (with_list None d)).

(** The state an operator asks for: the text of the property of that name, which
    is searched for on the first evaluation only, or the name itself. *)
Definition state_of (mi : ptr) (state : string) (d : DynamicValue) : NM (Ref * DynamicValue) :=
  match state_property d with
  | Some r => sret (r, d)
  | None => let! r := getValue ct mi state in sret (r, with_property r d)
  end.
Definition state_text (state : string) (r : Ref) : NM string :=
  if bool_decide (r = RNull) then sret state else let! v := load r in slift (asString v).

Definition in_state (text : string) (x : ptr) : NM bool :=
  let! i := get x in sret (bool_decide (text = current_state i)).
Definition is_in_mode (check_enabled : bool) (x : ptr) : NM bool :=
  let! i := get x in sret (Bool.eqb check_enabled (is_enabled i)).

(** One turn of the loops of ANY and ALL: an entry without a machine is passed
    over. *)
Definition test_entry (mi l : ptr) (want : bool) (test : ptr -> NM bool) (k : nat) : NM bool :=
  let! x := entry_machine mi l k in
  match x with
  | Some x => let! b := test x in sret (Bool.eqb b want)
  | None => sret false
  end.
Definition any_entry (mi l : ptr) (test : ptr -> NM bool) : NM bool :=
  let! n := list_size l in
  let! r := first_index n 0 (test_entry mi l true test) in
  sret (bool_decide (is_Some r)).
Definition all_entries (mi l : ptr) (test : ptr -> NM bool) : NM bool :=
  let! n := list_size l in
  match n with
  | O => sret false
  | _ => let! r := first_index n 0 (test_entry mi l false test) in
      sret (negb (bool_decide (is_Some r)))
  end.
Definition count_entries (mi l : ptr) (test : ptr -> NM bool) : NM Z :=
  let! n := list_size l in
  fold_index n 0 0 (fun k c =>
    let! b := test_entry mi l true test k in
    if b : bool then slift (int_of (c + 1)) else sret c).

Definition AnyInValue (state list_name : string) (mi : ptr) (d : DynamicValue) : NM DynamicValue :=
  let! sp := state_of mi state d in
  let! ml := lookup ct mi list_name in
  match ml with
  | None => missing mi list_name (Value_bool false) (snd sp)
  | Some l =>
      let! text := state_text state (fst sp) in
      let! b := any_entry mi l (in_state text) in
      sret (result (Value_bool b) (with_list ml (snd sp)))
  end.

Definition AllInValue (state list_name : string) (mi : ptr) (d : DynamicValue) : NM DynamicValue :=
  let! sp := state_of mi state d in
  let! ml := lookup ct mi list_name in
  match ml with
  | None => missing mi list_name (Value_bool false) (snd sp)
  | Some l =>
      let! n := list_size l in
      match n with
      | O => sret (result (Value_bool false) (with_list ml (snd sp)))
      | _ =>
          let! text := state_text state (fst sp) in
          let! b := all_entries mi l (in_state text) in
          sret (result (Value_bool b) (with_list ml (snd sp)))
      end
  end.

Definition CountValue (state list_name : string) (mi : ptr) (d : DynamicValue) : NM DynamicValue :=
  let! sp := state_of mi state d in
  let! ml := lookup ct mi list_name in
  match ml with
  | None => missing mi list_name (Value_int 0) (snd sp)
  | Some l =>
      let! n := list_size l in
      match n with
      | O => sret (result (Value_int 0) (with_list ml (snd sp)))
      | _ =>
          let! text := state_text state (fst sp) in
          let! c := count_entries mi l (in_state text) in
          sret (result (Value_int c) (with_list ml (snd sp)))
      end
  end.

Definition AnyEnabledDisabledValue (check_enabled : bool) (list_name : string) (mi : ptr)
    (d : DynamicValue) : NM DynamicValue :=
  let! ml := lookup ct mi list_name in
  match ml with
  | None => missing mi list_name (Value_bool false) d
  | Some l =>
      let! b := any_entry mi l (is_in_mode check_enabled) in
      sret (result (Value_bool b) (with_list ml d))
  end.
Definition AllEnabledDisabledValue (check_enabled : bool) (list_name : string) (mi : ptr)
    (d : DynamicValue) : NM DynamicValue :=
  let! ml := lookup ct mi list_name in
  match ml with
  | None => missing mi list_name (Value_bool false) d
  | Some l =>
      let! b := all_entries mi l (is_in_mode check_enabled) in
      sret (result (Value_bool b) (with_list ml d))
  end.

(** The value an entry contributes to SUM, MEAN, MIN and MAX: a property of its
    machine, if it has one, or the entry itself when no property is named. *)
Definition element (mi l : ptr) (property : string) (k : nat) : NM (option Value) :=
  if bool_decide (property = "") then let! p := entry l k in sret (Some (base (val p)))
  else
    let! x := entry_machine mi l k in
    match x with
    | Some x => let! r := getValue ct x property in let! v := load r in sret (Some v)
    | None => sret None
    end.

(** The common start of the operators that need a LIST: [work] runs on a list
    that has entries; otherwise the result is the integer [0]. *)
Definition on_list (list_name : string) (mi : ptr) (d : DynamicValue)
    (work : ptr -> nat -> DynamicValue -> NM DynamicValue) : NM DynamicValue :=
  let! ml := lookup ct mi list_name in
  match ml with
  | None => missing mi list_name (Value_int 0) d
  | Some l =>
      let! yes := is_list l in
      if yes : bool then
        let! n := list_size l in
        match n with
        | O => sret (result (Value_int 0) (with_list ml d))
        | _ => work l n (with_list ml d)
        end
      else run! emit (ELog mi list_name) in sret (result (Value_int 0) (with_list ml d))
  end.

Definition add_element (sum : Value) (v : option Value) : NM Value :=
  match v with
  | Some v => let! r := tokenise (value_add sum v) in sret (assign sum r)
  | None => sret sum
  end.
Definition SumValue (property list_name : string) (mi : ptr) (d : DynamicValue) : NM DynamicValue :=
  on_list list_name mi d (fun l n d =>
    let! sum := fold_index n 0 (Value_int 0) (fun k sum =>
      let! v := element mi l property k in add_element sum v) in
    sret (result sum d)).

Definition MeanValue (property list_name : string) (mi : ptr) (d : DynamicValue) : NM DynamicValue :=
  on_list list_name mi d (fun l n d =>
    let! r := fold_index n 0 (Value_int 0, 0) (fun k a =>
      let! v := element mi l property k in
      let! sum := add_element (fst a) v in
      match v with
      | Some _ => let? c := int_of (snd a + 1) in sret (sum, c)
      | None => sret (sum, snd a)
      end) in
    let d' := result (Value_int 0) d in
    if snd r =? 0 then sret d'
    else
      let? f := asFloat (fst r) None in
      if fst f then let? x := rd (snd f) in sret (result (Value_double (fdiv x (float_of_Z (snd r)))) d')
      else sret d').

(** MIN and MAX: the first value is taken, and each later one that compares
    better. *)
Definition best (better : Value -> Value -> res bool) (start : Value) (mi l : ptr)
    (property : string) (n : nat) : NM (Value * bool) :=
  fold_index n 0 (start, true) (fun k a =>
    let! v := element mi l property k in
    match v with
    | None => sret a
    | Some v =>
        if snd a then sret (assign (fst a) v, false)
        else let? b := better v (fst a) in
             if b : bool then sret (assign (fst a) v, false) else sret a
    end).
Definition MinValue (property list_name : string) (mi : ptr) (d : DynamicValue) : NM DynamicValue :=
  on_list list_name mi d (fun l n d =>
    let! r := best value_lt (Value_long LONG_MAX) mi l property n in sret (result (fst r) d)).
Definition MaxValue (property list_name : string) (mi : ptr) (d : DynamicValue) : NM DynamicValue :=
  on_list list_name mi d (fun l n d =>
    let! r := best value_gt (Value_long LONG_MIN) mi l property n in sret (result (fst r) d)).

(** SERIALISE: an entry that is a symbol is written by its VALUE. The
    delimiter follows every entry but the last that is written. *)
Definition SerialiseValue (property delim list_name : string) (mi : ptr) (d : DynamicValue)
    : NM DynamicValue :=
  on_list list_name mi d (fun l n d =>
    let! r := fold_index n 0 ("", 6) (fun k a =>
      let! p := entry l k in
      let! v := (if negb (bool_decide (property = "")) || is_symbol p
                 then element mi l (if bool_decide (property = "") then "VALUE" else property) k
                 else sret (Some (base (val p)))) in
      match v with
      | None => sret a
      | Some v =>
          let? t := show (snd a) (toSymbol (assign Value_empty v)) in
          sret ((fst a +:+ fst t +:+ (if (k <? n - 1)%nat then delim else ""))%string, snd t)
      end) in
    let! v := tokenise (Value_str (fst r) t_symbol) in
    sret (mkDynamic (plain (toString (assign (answer d) v))) (state_property d) (machine_list d))).

(** INCLUDES: the list is looked for on the first evaluation only. *)
Definition IncludesValue (item : Value) (list_name : string) (mi : ptr) (d : DynamicValue)
    : NM DynamicValue :=
  let! ml := match machine_list d with Some l => sret (Some l) | None => lookup ct mi list_name end in
  match ml with
  | None => missing mi list_name (Value_bool false) d
  | Some l =>
      let! n := list_size l in
      let! r := first_index n 0 (fun k =>
        run! entry_machine mi l k in
        let! p := entry l k in
        let? same := value_eq item (base (val p)) in
        if same : bool then sret true
        else let? text := asString item in sret (bool_decide (text = real_name p))) in
      sret (result (Value_bool (bool_decide (is_Some r))) (with_list ml d))
  end.

Definition SizeValue (list_name : string) (mi : ptr) (d : DynamicValue) : NM DynamicValue :=
  let! ml := lookup ct mi list_name in
  match ml with
  | None => missing mi list_name (Value_int 0) d
  | Some l => let! n := list_size l in
      sret (result (Value_long (to_s64 (Z.of_nat n))) (with_list ml d))
  end.

(** BITSET: the first entry is the most significant bit of an [unsigned long]. *)
Definition entry_bit (state : string) (p : Param) : NM bool :=
  match machine p with
  | Some x => in_state state x
  | None => let? r := asBoolean (base (val p)) None in
      if fst r then slift (rd (snd r)) else sret false
  end.
Definition add_bit (state : string) (l : ptr) (k : nat) (bits : Z) : NM Z :=
  let! p := entry l k in
  let! b := entry_bit state p in
  sret (u64 (u64 (bits * 2) + (if b : bool then 1 else 0))).
Definition BitsetValue (state list_name : string) (mi : ptr) (d : DynamicValue) : NM DynamicValue :=
  let! ml := lookup ct mi list_name in
  match ml with
  | None => missing mi list_name (Value_bool false) d
  | Some l =>
      let! n := list_size l in
      let! bits := fold_index n 0 0 (add_bit state l) in
      sret (result (Value_ulong bits) (with_list ml d))
  end.

(** The position of the local named ITEM, or the end of the locals. *)
Fixpoint item_index (l : list Param) : res (bool * nat) :=
  match l with
  | [] => Ok (false, O)
  | p :: l' =>
      s ← asString (base (val p));
      if bool_decide (s = "ITEM") then Ok (true, O)
      else r ← item_index l'; Ok (fst r, S (snd r))
  end.
(** The local that stands for the entry [a] while a condition is tested. *)
Definition set_item (l : ptr) (idx : nat) (a : MValue) (x : option ptr) : NM unit :=
  let! item := tokenise (Value_cstr "ITEM" t_symbol) in
  let! i := get l in
  let v := match locals i !! idx with Some p => assign (base (val p)) (base a) | None => base a end in
  let p := mkParam (plain (assign v item)) x (sValue (base a)) in
  modify l (fun i => set_locals
    (if (idx <? length (locals i))%nat then <[idx := p]> (locals i) else locals i ++ [p]) i).
Definition drop_item (l : ptr) (idx : nat) : NM unit :=
  modify l (fun i => set_locals (delete idx (locals i)) i).

(** INDEX OF: the condition is tested with ITEM standing for each entry in
    turn. *)
Definition FindValue (list_name : string) (condition : option (ptr -> NM bool)) (mi : ptr)
    (d : DynamicValue) : NM DynamicValue :=
  let! ml := lookup ct mi list_name in
  match ml with
  | None => missing mi list_name (Value_int 0) d
  | Some l =>
      let! n := list_size l in
      match n with
      | O => sret (result (Value_int (-1)) (with_list ml d))
      | _ =>
          let! i := get l in
          let? idx := item_index (locals i) in
          let! r := first_index n 0 (fun k =>
            let! p := entry l k in
            let! x := match machine p with
                      | Some x => sret (Some x)
                      | None => lookup_parameter ct mi l k
                      end in
            match x with
            | None => sret false
            | Some x =>
                run! set_item l (snd idx) (mv_copy (val p)) (Some x) in
                match condition with
                | None => sret true
                | Some c =>
                    run! modify l (fun i => set_names (<["ITEM" := Some x]> (localised_names i)) i) in
                    c mi
                end
            end) in
          run! (if fst idx then sret tt else drop_item l (snd idx)) in
          sret (result (Value_int match r with Some k => Z.of_nat k | None => -1 end) (with_list ml d))
      end
  end.

(** ABS. *)
Definition AbsoluteValue (property : string) (mi : ptr) (d : DynamicValue) : NM DynamicValue :=
  let! r := getValue ct mi property in
  let! v := load r in
  let d1 := result v d in
  let? negative := value_lt (answer d1) (Value_int 0) in
  if negative : bool then
    let! r' := getValue ct mi property in
    let! v' := load r' in
    let? w := value_neg v' in sret (result w d1)
  else sret d1.

(** An entry taken from a list carries the machine it is linked to. *)
Definition take_entry (p : Param) (d : DynamicValue) : DynamicValue :=
  let d' := result_mv (val p) d in
  match machine p, cached_machine (last_result d') with
  | Some x, None => mkDynamic (mkMV (base (last_result d')) (Some x) (cached_value (last_result d')))
                      (state_property d') (machine_list d')
  | _, _ => d'
  end.

(** LAST OF and TAKE LAST FROM: taking an entry unlinks the machine of the first
    entry. *)
Definition PopListBackValue (remove : bool) (list_name : string) (mi : ptr) (d : DynamicValue)
    : NM DynamicValue :=
  let! ml := lookup ct mi list_name in
  match ml with
  | None => missing mi list_name (Value_bool false) d
  | Some l =>
      let! i := get l in
      let d' := result (Value_bool false) (with_list ml d) in
      match List.rev (parameters i) with
      | [] => sret d'
      | p :: _ =>
          let d' := take_entry p d' in
          if remove then
            let? first := rd (parameters i !! 0%nat) in
            run! removeDependancy_opt l (machine first) in
            run! stopListening_opt l (machine first) in
            run! modify l (fun i => set_parameters (take (length (parameters i) - 1) (parameters i)) i) in
            run! emit (ENeedsCheck l) in
            run! displayList ct l in sret d'
          else sret d'
      end
  end.

(** FIRST OF and TAKE FIRST FROM, of a REFERENCE or of a list. A linked local of
    a REFERENCE makes the code read the first parameter of the REFERENCE. *)
Definition PopListFrontValue (remove : bool) (list_name : string) (mi : ptr) (d : DynamicValue)
    : NM DynamicValue :=
  let! ml := lookup ct mi list_name in
  match ml with
  | None => missing mi list_name (Value_bool false) d
  | Some l =>
      let! i := get l in
      let d' := result (Value_bool false) (with_list ml d) in
      if bool_decide (i_type (fixed i) = "REFERENCE") then
        match locals i with
        | [] => sret d'
        | p :: _ =>
            run! (match machine p, cached_machine (val p) with
                  | Some _, None =>
                      let! q := entry l 0 in
                      match machine q with
                      | None => run! lookup_parameter ct mi l 0 in sret tt
                      | Some _ => sret tt
                      end
                  | _, _ => sret tt
                  end) in
            let d' := take_entry p d' in
            if remove then
              run! removeLocal l 0 in
              run! emit (ENeedsCheck l) in
              run! displayList ct l in sret d'
            else sret d'
        end
      else
        match parameters i with
        | [] => sret d'
        | p :: _ =>
            let d' := take_entry p d' in
            if remove then
              run! removeDependancy_opt l (machine p) in
              run! stopListening_opt l (machine p) in
              run! modify l (fun i => set_parameters (tail (parameters i)) i) in
              if bool_decide (i_type (fixed i) = "LIST") then
                run! emit (ENeedsCheck l) in
                run! displayList ct l in sret d'
              else sret d'
            else sret d'
        end
  end.

(** ITEM ... OF. *)
Definition index_value (index : Value) (mi : ptr) : NM (option Z) :=
  let! r := match kind index with
            | t_symbol =>
                let! r := getValue ct mi (sValue index) in
                let! v := load r in slift (asInteger v (Some (-1)))
            | t_integer => let? z := rd (iValue index) in sret (true, Some z)
            | _ => slift (asInteger index (Some (-1)))
            end in
  if fst r : bool then let? z := rd (snd r) in sret (Some z) else sret None.
Definition ItemAtPosValue (remove : bool) (index : Value) (list_name : string) (mi : ptr)
    (d : DynamicValue) : NM DynamicValue :=
  let! ml := lookup ct mi list_name in
  match ml with
  | None => missing mi list_name (Value_bool false) d
  | Some l =>
      let d' := with_list ml d in
      let! n := list_size l in
      match n with
      | O => sret (result (Value_bool false) d')
      | _ =>
          let! idx := index_value index mi in
          match idx with
          | None => run! emit (ELog mi "non-numeric index") in sret (result (Value_bool false) d')
          | Some z =>
              if (0 <=? z) && (z <? Z.of_nat n) then
                let k := Z.to_nat z in
                run! entry_machine mi l k in
                let! p := entry l k in
                let d' := result_mv (val p) d' in
                if remove then
                  run! modify l (fun i => set_parameters (delete k (parameters i)) i) in
                  let! yes := is_list l in
                  if yes : bool then
                    run! emit (ENeedsCheck l) in
                    run! displayList ct l in sret d'
                  else sret d'
                else sret d'
              else sret (result (Value_bool false) d')
          end
      end
  end.

(** ENABLED and DISABLED, EXISTS, CLASS OF. *)
Definition EnabledValue (want : bool) (machine_name : string) (mi : ptr) (d : DynamicValue)
    : NM DynamicValue :=
  let! x := lookup ct mi machine_name in
  match x with
  | None => missing mi machine_name (Value_bool false) d
  | Some x => let! i := get x in
      sret (result (Value_bool (if want then is_enabled i else negb (is_enabled i))) d)
  end.
Definition ExistsValue (machine_name : string) (mi : ptr) (d : DynamicValue) : NM DynamicValue :=
  let! x := lookup ct mi machine_name in
  sret (result (Value_bool (bool_decide (is_Some x))) d).
Definition ClassNameValue (machine_name : string) (mi : ptr) (d : DynamicValue) : NM DynamicValue :=
  let! x := lookup ct mi machine_name in
  let! c := match x with
            | Some x => let! i := get x in sret (state_machine (fixed i))
            | None => sret None
            end in
  match c with
  | None => run! emit (ELog mi machine_name) in
      let! v := tokenise (Value_cstr "NULL" t_symbol) in sret (result v d)
  | Some c => let! v := tokenise (Value_cstr (c_name c) t_symbol) in sret (result v d)
  end.

(** The property a property names, of another machine. *)
Definition PropertyLookupValue (property_name machine_name : string) (mi : ptr) (d : DynamicValue)
    : NM DynamicValue :=
  let! r := getValue ct mi property_name in
  let! v := load r in
  let prop := toSymbol v in
  if isNull prop then missing mi property_name (Value_bool false) d
  else
    let! x := lookup ct mi machine_name in
    match x with
    | None => missing mi machine_name (Value_bool false) d
    | Some x =>
        let? name := asString prop in
        let! r' := getValue ct x name in
        let! v' := load r' in
        let d' := result v' d in
        sret (if isNull (answer d') then result prop d' else d')
    end.

(** CAST. A kind other than STRING and NUMBER leaves the last result. *)
Definition CastValue (property kind_name : string) (mi : ptr) (d : DynamicValue) : NM DynamicValue :=
  let! i := get mi in
  let! r := table_ref (RProp mi property) property (properties i) in
  let! v := load r in
  if bool_decide (kind_name = "STRING") then
    let? s := asString v in
    let! w := tokenise (Value_str s t_symbol) in sret (result w d)
  else if bool_decide (kind_name = "NUMBER") then
    let? z := asInteger v (Some 0) in
    if fst z then let? x := rd (snd z) in sret (result (Value_long x) d)
    else sret (result (Value_bool false) d)
  else sret d.

(** An expression, and an assignment. *)
Definition ExpressionValue (condition : option (ptr -> NM bool)) (mi : ptr) (d : DynamicValue)
    : NM DynamicValue :=
  let! b := match condition with Some c => c mi | None => sret false end in
  sret (result (Value_bool b) d).
Definition AssignmentValue (src : Value) (dest_name : string) (mi : ptr) (d : DynamicValue)
    : NM DynamicValue :=
  let! v := (if Kind_eqb (kind src) t_symbol
             then let! r := getValue ct mi (sValue src) in load r else sret src) in
  let d' := result v d in
  run! setValue ct mi dest_name (answer d') 0 in sret d'.
End Operators.
