(* ===== verification/StoreActions.v ===== *)
(** The actions that work on lists and properties (ClearListAction.cpp,
    SetListEntriesAction.cpp, PopListAction.cpp, SortListAction.cpp,
    CopyPropertiesAction.cpp, IncludeAction.cpp): the [run] method of each, from
    the start of the action to its status. The members an action keeps between
    runs are arguments; [owner] is the machine it runs for. *)
From S2P Require Import Prelude Cnum Tokeniser Value SymbolTable ValueOps Message Machine Names Properties Lists DynamicValues.
Open Scope Z_scope.

(** ** Sorting *)

(** [std::sort]: defined when the comparison is a strict weak ordering of the
    elements, and then some sorted permutation. *)
Class StdSort := {
  std_sort : forall {A : Type}, (A -> A -> bool) -> list A -> list A;
  std_sort_perm : forall {A} (lt : A -> A -> bool) l, std_sort lt l ≡ₚ l;
  std_sort_sorted : forall {A} (lt : A -> A -> bool) l,
    (forall x, x ∈ l -> lt x x = false) ->
    (forall x y z, x ∈ l -> y ∈ l -> z ∈ l -> lt x y = true -> lt y z = true -> lt x z = true) ->
    (forall x y z, x ∈ l -> y ∈ l -> z ∈ l -> lt x y = false -> lt y z = false -> lt x z = false) ->
    forall i j x y, (i < j)%nat -> std_sort lt l !! i = Some x -> std_sort lt l !! j = Some y ->
      lt y x = false
}.
(** Irreflexive, transitive, and with a transitive incomparability. *)
Definition strict_weak {A} (lt : A -> A -> bool) (l : list A) : bool :=
  forallb (fun x => negb (lt x x)) l &&
  forallb (fun x => forallb (fun y => forallb (fun z =>
    (negb (lt x y && lt y z) || lt x z) && (lt x y || lt y z || negb (lt x z))) l) l) l.

(** A comparison that may be undefined, tabulated on the pairs of elements. *)
Fixpoint all_res {A B} (f : A -> res B) (l : list A) : res (list B) :=
  match l with [] => Ok [] | x :: l' => y ← f x; ys ← all_res f l'; Ok (y :: ys) end.
Definition sort_with {A} `{StdSort} (cmp : A -> A -> res bool) (l : list A) : res (list A) :=
  _ ← all_res (fun x => all_res (cmp x) l) l;
  let lt x y := match cmp x y with Ok b => b | _ => false end in
  if strict_weak lt l then Ok (std_sort lt l) else Undef.

Section Comparisons.
Context `{DynEnv}.
Definition str_ltb (s t : string) : bool := match String.compare s t with Lt => true | _ => false end.
(** An entry with the value of the property of its machine. *)
Definition Keyed : Type := Param * Value.
Definition ordered_by {A} (ascending : bool) (f : A -> A -> res bool) (a b : A) : res bool :=
  if ascending then f a b else f b a.
Definition StringValueSorter (ascending : bool) : Param -> Param -> res bool :=
  ordered_by ascending (fun a b =>
    x ← asString (base (val a)); y ← asString (base (val b)); Ok (str_ltb x y)).
Definition NumericValueSorter (ascending : bool) (a b : Param) : res bool :=
  if negb (Kind_eqb (kind (base (val a))) t_integer) || negb (Kind_eqb (kind (base (val b))) t_integer)
  then Ok true
  else
    x ← asInteger (base (val a)) None;
    if negb (fst x) then Ok true else
    y ← asInteger (base (val b)) None;
    if negb (fst y) then Ok true else
    i ← rd (snd x); j ← rd (snd y);
    Ok (if ascending then i <? j else j <? i).
Definition PropertyValueStringSorter (ascending : bool) (a b : Keyed) : res bool :=
  match machine (fst a), machine (fst b) with
  | None, _ => Ok true
  | Some _, None => Ok false
  | Some _, Some _ => ordered_by ascending (fun a b => value_lt (snd a) (snd b)) a b
  end.
Definition PropertyValueNumericSorter (ascending : bool) (a b : Keyed) : res bool :=
  match machine (fst a), machine (fst b) with
  | None, _ => Ok true
  | Some _, None => Ok false
  | Some _, Some _ =>
      x ← asInteger (snd a) None;
      if negb (fst x) then Ok true else
      y ← asInteger (snd b) None;
      if negb (fst y) then Ok false else
      i ← rd (snd x); j ← rd (snd y);
      Ok (if ascending then i <? j else j <? i)
  end.
End Comparisons.

Section Actions.
Context `{DynEnv} `{Clock} `{StateControl} `{Printer} `{StdSort}.
Variable ct : ClockworkToken.
Local Open Scope sm_scope.

(** Every action starts by pushing itself and ends by stopping itself. *)
Definition finish (owner : ptr) (st : Status) : NM Status := run! emit (EStop owner) in sret st.

(** The entries with the value of a property of their machines; an entry without
    a machine has none. *)
Fixpoint keyed (property : string) (l : list Param) : NM (list Keyed) :=
  match l with
  | [] => sret []
  | p :: l' =>
      let! v := match machine p with
                | Some x => let! r := getValue ct x property in load r
                | None => sret Value_empty
                end in
      let! rest := keyed property l' in sret ((p, v) :: rest)
  end.
(** The test that selects the comparison: every linked entry has an integer. *)
Fixpoint all_integers (l : list Keyed) : res bool :=
  match l with
  | [] => Ok true
  | (p, v) :: l' =>
      match machine p with
      | None => all_integers l'
      | Some _ => r ← asInteger v None; if fst r : bool then all_integers l' else Ok false
      end
  end.
Definition SortListAction (list_name property : string) (ascending : bool) (owner : ptr) : NM Status :=
  run! emit (EStart owner) in
  let! ml := lookup ct owner list_name in
  match ml with
  | None => finish owner Failed
  | Some l =>
      let! yes := is_list l in
      if yes : bool then
        let! i := get l in
        match parameters i with
        | [] => finish owner Complete
        | p :: _ =>
            let! sorted :=
              (if is_symbol p then
                 let! ks := keyed property (parameters i) in
                 let? ints := all_integers ks in
                 let? r := sort_with (if ints : bool then PropertyValueNumericSorter ascending
                                      else PropertyValueStringSorter ascending) ks in
                 sret (fst <$> r)
               else
                 slift (sort_with
                   (if forallb (fun q => Kind_eqb (kind (base (val q))) t_integer) (parameters i)
                    then NumericValueSorter ascending else StringValueSorter ascending) (parameters i))) in
            run! modify l (set_parameters sorted) in
            finish owner Complete
        end
      else finish owner Failed
  end.

(** CLEAR. *)
Definition unlink_entry (l : ptr) (p : Param) : NM unit :=
  match machine p with
  | Some x => run! stopListening l x in removeDependancy x l
  | None => sret tt
  end.
Fixpoint unlink_entries (l : ptr) (ps : list Param) : NM unit :=
  match ps with [] => sret tt | p :: ps' => run! unlink_entry l p in unlink_entries l ps' end.
Definition ClearListAction (dest : MValue) (owner : ptr) : NM (Status * MValue) :=
  run! emit (EStart owner) in
  let! messages := tokenise (Value_cstr "MESSAGES" t_symbol) in
  let? log := value_eq (base dest) messages in
  if log : bool then
    run! emit EPurge in let! st := finish owner Complete in sret (st, dest)
  else
    let! r := lookup_value ct owner dest in
    let! st := match fst r with
      | None => sret Failed
      | Some l =>
          let! i := get l in
          if bool_decide (i_type (fixed i) = "LIST") then
            run! unlink_entries l (parameters i) in
            run! modify l (set_parameters []) in
            run! emit (ENeedsCheck l) in sret Complete
          else if bool_decide (i_type (fixed i) = "REFERENCE") then
            run! removeLocal l 0 in
            run! modify l (fun i => set_names (delete "ITEM" (localised_names i)) i) in sret Complete
          else sret Failed
      end in
    let! st' := finish owner st in sret (st', snd r).

(** SET ENTRIES OF ... FROM BITSET: the last entry is the least significant
    bit. *)
Fixpoint setListEntries (k : nat) (l : ptr) (bitmap : Z) : NM unit :=
  match k with
  | O => sret tt
  | S k' =>
      let! p := entry l k' in
      run! (match machine p with
            | Some x => setState x (if Z.odd bitmap then "on" else "off")
            | None => sret tt
            end) in
      setListEntries k' l (bitmap / 2)
  end.
(** The conversion of a [double] to [unsigned long]. *)
Definition ulong_of_float (x : double) : res Z :=
  match ftrunc x with
  | Some z => if (0 <=? z) && (z <? 2 ^ 64) then Ok z else Undef
  | None => Undef
  end.
Definition SetListEntriesAction (source dest : MValue) (owner : ptr) : NM (Status * MValue * MValue) :=
  run! emit (EStart owner) in
  let! r := lookup_value ct owner dest in
  match fst r with
  | None => let! st := finish owner Failed in sret (st, source, snd r)
  | Some l =>
      let! i := get l in
      if bool_decide (i_type (fixed i) = "LIST") then
        let n := length (parameters i) in
        let! src := match kind (base source) with
          | t_integer => let? z := rd (iValue (base source)) in
              run! setListEntries n l (u64 z) in sret source
          | t_float => let? x := rd (fValue (base source)) in let? z := ulong_of_float x in
              run! setListEntries n l z in sret source
          | t_symbol =>
              let! v := getValue_of ct owner source in
              let! x := load (fst v) in
              let? z := asInteger x None in
              if fst z then let? z' := rd (snd z) in
                run! setListEntries n l (u64 z') in sret (snd v)
              else sret (snd v)
          | _ => sret source
          end in
        let! st := finish owner Complete in sret (st, src, snd r)
      else let! st := finish owner Failed in sret (st, source, snd r)
  end.

(** The action that should take the last entry of a list: the position it reads
    is the one past the end. *)
Definition PopBackAction (list_name : string) (cached : option ptr) (owner : ptr) : NM (Status * option ptr) :=
  run! emit (EStart owner) in
  let! ml := match cached with Some l => sret (Some l) | None => lookup ct owner list_name end in
  match ml with
  | None => let! st := finish owner Failed in sret (st, ml)
  | Some l =>
      let! yes := is_list l in
      if yes : bool then
        let! n := list_size l in
        match n with
        | O => let! st := finish owner Failed in sret (st, ml)
        | _ =>
            let! p := entry l n in
            if is_symbol p then
              let! x := match machine p with
                        | Some x => sret (Some x)
                        | None => lookup ct owner (sValue (base (val p)))
                        end in
              match x with
              | None => let! st := finish owner Failed in sret (st, ml)
              | Some x => run! getValue ct x "VALUE" in
                  let! st := finish owner Complete in sret (st, ml)
              end
            else let! st := finish owner Complete in sret (st, ml)
        end
      else let! st := finish owner Failed in sret (st, ml)
  end.

(** COPY PROPERTIES: all the properties but STATE, NAME and the local ones of
    the destination's class, or those named. *)
Definition copied (prop : string) : bool :=
  negb (bool_decide (prop = "STATE")) && negb (bool_decide (prop = "NAME")).
Fixpoint copy_all (dest : ptr) (l : list (string * Value)) : NM nat :=
  match l with
  | [] => sret O
  | (prop, v) :: l' =>
      let! i := get dest in
      let own := match state_machine (fixed i) with
                 | Some c => bool_decide (prop ∈ local_properties c)
                 | None => false
                 end in
      if copied prop && negb own then
        run! setValue ct dest prop v 0 in
        let! n := copy_all dest l' in sret (S n)
      else copy_all dest l'
  end.
Fixpoint copy_named (source dest : ptr) (l : list string) : NM unit :=
  match l with
  | [] => sret tt
  | prop :: l' =>
      run! (if copied prop then
              let! i := get source in
              let! r := table_ref (RProp source prop) prop (properties i) in
              let! v := load r in
              let? there := value_ne v Null in
              if there : bool then run! setValue ct dest prop v 0 in sret tt else sret tt
            else sret tt) in
      copy_named source dest l'
  end.
Definition CopyPropertiesAction (source dest : MValue) (property_list : list string) (owner : ptr)
    : NM (Status * MValue * MValue) :=
  run! emit (EStart owner) in
  let! r := lookup_value ct owner source in
  let! q := lookup_value ct owner dest in
  match fst r, fst q with
  | Some s, Some d =>
      let! count :=
        match property_list with
        | [] => let! i := get s in copy_all d (entries (st (properties i)))
        | _ => run! copy_named s d property_list in sret O
        end in
      run! (match count with
            | O => sret tt
            | _ => run! emit (ENeedsCheck d) in emit (ENotify d)
            end) in
      let! st := finish owner Complete in sret (st, snd r, snd q)
  | _, _ => run! emit (ELog owner "copy properties") in
      let! st := finish owner Failed in sret (st, snd r, snd q)
  end.

(** ** INCLUDE and ASSIGN *)

(** [debugParameterChange] of IncludeAction.cpp: the buffer has 1010 bytes, the
    texts are written up to the 1000th, and the position counts what was not
    written too. From position 1009 on the closing bracket is written outside
    the buffer. *)
Fixpoint include_text (ps : list Param) (delim text : string) : res string :=
  match ps with
  | [] => Ok text
  | p :: ps' =>
      t ← asString (base (val p));
      let text' := (text +:+ delim +:+ t)%string in
      if (999 <=? String.length text')%nat then Ok text' else include_text ps' "," text'
  end.
Definition include_buffer (ps : list Param) : res string :=
  text ← include_text ps "" "[";
  let n := String.length text in
  if (n <? 999)%nat then Ok (text +:+ "]")%string
  else if (n <? 1009)%nat then Ok (String.substring 0 999 text)
  else Undef.
Definition debug_include (l : ptr) : NM unit :=
  let! i := get l in
  let? text := include_buffer (parameters i) in
  run! setValue ct l "DEBUG" (mkString t_string text 0) 0 in sret tt.

(** An update of the first local of a REFERENCE. *)
Definition set_first_local (l : ptr) (f : Param -> Param) : NM unit :=
  modify l (fun i => set_locals (alter f 0%nat (locals i)) i).

(** ASSIGN entry TO reference: the name may be that of a machine, or of a
    property that holds a name; a property that holds the name of no machine is
    used as if it were one. *)
Definition assign_reference (entry : MValue) (l owner : ptr) : NM Status :=
  run! modify l (fun i => set_names (delete "ITEM" (localised_names i)) i) in
  run! modify owner (fun i => set_names (delete "ITEM" (localised_names i)) i) in
  let! i := get l in
  let old := match locals i with p :: _ => machine p | [] => None end in
  run! (match old with
        | Some o =>
            let! oi := get o in
            run! modify l (fun i => set_names (delete (i_name (fixed oi)) (localised_names i)) i) in
            removeLocal l 0
        | None => sret tt
        end) in
  if Kind_eqb (kind (base entry)) t_symbol then
    let name := sValue (base entry) in
    let! x := lookup ct owner name in
    let! r := match x with
      | Some x' => run! addLocal ct l entry x in sret (name, x, true)
      | None =>
          let! v := getValue ct owner name in
          let! ref := load v in
          if Kind_eqb (kind ref) t_symbol then
            let! y := lookup_value ct owner (plain ref) in
            run! addLocal ct l (snd y) (fst y) in
            run! modify l (fun i => set_names (<["ITEM" := fst y]> (localised_names i)) i) in
            sret (sValue ref, fst y, true)
          else sret (name, None, false)
      end in
    let '(real, assigned, done) := r in
    run! (if done : bool then
            match assigned with
            | Some a => run! addDependancy a owner in listenTo owner a
            | None => fun _ => Undef
            end
          else run! emit (ELog owner name) in addLocal ct l entry assigned) in
    let! item := tokenise (Value_cstr "ITEM" t_symbol) in
    run! set_first_local l (fun p =>
      mkParam (mkMV (assign (base (val p)) item) (machine p) None) (machine p) real) in
    run! (match old, assigned with
          | Some o, Some a => if bool_decide (o = a) then sret tt
                              else run! emit (ENeedsCheck l) in emit (ENotify l)
          | _, _ => sret tt
          end) in
    let! i' := get l in
    let? p := rd (locals i' !! 0%nat) in
    finish owner (if bool_decide (is_Some (machine p)) then Complete else Failed)
  else finish owner Failed.

(** The position to include at; the errors leave the action on the stack. *)
Definition include_position (position : Value) (owner : ptr) : NM (option Z) :=
  if Kind_eqb (kind position) t_string || Kind_eqb (kind position) t_symbol then
    let? name := asString position in
    let! r := getValue ct owner name in
    let! v := load r in
    let? null := value_eq v Null in
    if null : bool then run! emit (ELog owner name) in sret None
    else let? z := asInteger v (Some (-1)) in
         if fst z then let? z' := rd (snd z) in sret (Some z')
         else run! emit (ELog owner name) in sret None
  else
    let? z := asInteger position (Some (-1)) in
    if fst z then let? z' := rd (snd z) in sret (Some z')
    else run! emit (ELog owner "position") in sret None.

(** Whether the list has the item already. *)
Fixpoint has_item (item : Value) (ps : list Param) : res bool :=
  match ps with
  | [] => Ok false
  | p :: ps' =>
      same ← value_eq (base (val p)) item;
      here ← (if same : bool then Ok true else s ← asString item; Ok (bool_decide (real_name p = s)));
      rest ← has_item item ps';
      Ok (here || rest)
  end.

(** The entries of another list, one after the other; a list expanded into
    itself grows until memory is exhausted. *)
Fixpoint include_entries (n k : nat) (from l : ptr) (pos : Z) (before : bool) : NM unit :=
  match n with
  | O => sret tt
  | S n' =>
      let! p := entry from k in
      run! addParameter_value ct l (val p) (machine p) (to_s32 pos) before in
      include_entries n' (S k) from l (if 0 <=? pos then pos + 1 else pos) before
  end.
Definition include_item (entry : MValue) (to_insert : MValue) (entry_machine : option ptr) (l owner : ptr)
    (pos : Z) (before expand : bool) : NM unit :=
  if Kind_eqb (kind (base to_insert)) t_symbol then
    match entry_machine with
    | None =>
        let! r := getValue ct owner (sValue (base entry)) in
        let! v := load r in
        if Kind_eqb (kind v) t_symbol then
          let! x := lookup ct owner (sValue v) in
          addParameter_value ct l (mkMV v x None) x (to_s32 pos) before
        else addParameter_value ct l (plain v) None (to_s32 pos) before
    | Some x =>
        let! xi := get x in
        if bool_decide (i_type (fixed xi) = "LIST") && expand then
          if bool_decide (x = l) && negb (bool_decide (parameters xi = [])) then fun _ => Abort
          else include_entries (length (parameters xi)) 0 x l pos before
        else addParameter_value ct l to_insert (Some x) (to_s32 pos) before
    end
  else addParameter_value ct l to_insert None (to_s32 pos) before.

Definition IncludeAction (list_name : string) (entry : MValue) (position : Value) (before expand : bool)
    (owner : ptr) : NM Status :=
  run! emit (EStart owner) in
  let! ml := lookup ct owner list_name in
  match ml with
  | None => run! emit (ELog owner list_name) in finish owner Failed
  | Some l =>
      let! i := get l in
      if bool_decide (i_type (fixed i) = "REFERENCE") then assign_reference entry l owner
      else
        let symbol := Kind_eqb (kind (base entry)) t_symbol in
        let! em := (if symbol then lookup ct owner (sValue (base entry)) else sret None) in
        let! ti := match symbol, em with
          | true, None =>
              let! r := getValue_of ct owner entry in
              let! v := load (fst r) in
              let? there := value_ne v Null in
              sret (if there : bool then mkMV (assign (base entry) v) None None else mv_copy entry)
          | _, _ => sret (mv_copy entry)
          end in
        let! pos := include_position position owner in
        match pos with
        | None => sret Failed
        | Some pos =>
            let! i' := get l in
            let? found := (if Kind_eqb (kind (base ti)) t_symbol
                           then has_item (base ti) (parameters i') else Ok false) in
            run! (if found : bool then sret tt
                  else include_item entry ti em l owner pos before expand) in
            run! debug_include l in
            finish owner Complete
        end
  end.
End Actions.
