(* ===== verification/SetOperations.v ===== *)
(** The set operations on lists (SetOperationAction.cpp): COPY and MOVE with a
    condition (select), the union (COPY ... of two lists), the difference and the
    intersection (common entries) of two lists into a third. [owner] is the
    machine that runs the action. *)
From S2P Require Import Prelude Cnum Tokeniser Value SymbolTable ValueOps Message Machine Names Properties Lists DynamicValues StoreActions.
Open Scope Z_scope.

(** A [SetOperationException] thrown by value is caught by [run] and fails the
    action; one thrown by pointer is caught by nobody. *)
Inductive exc (A : Type) : Type := Value_ (a : A) | Thrown.
Arguments Value_ {_} _.
Arguments Thrown {_}.

(** How the inner loop of the intersection leaves an entry: go on with the next,
    stay at the position (the entry was removed), or stop. *)
Inductive Flow := NextEntry | SameEntry | Done.

Record SetOp := mkSetOp {
  count : MValue;
  source_a : string;
  source_b : string;
  dest : string;
  condition : option (ptr -> NM bool);
  property_name : string;
  remove_selected : bool;
  start_pos : Value;
  end_pos : Value
}.

Section Operations.
Context `{DynEnv} `{Clock} `{StateControl} `{Printer}.
Variable ct : ClockworkToken.
Local Open Scope sm_scope.

(** [debugParameterChange]: a buffer of 600 bytes; an entry that does not fit ends
    the text. *)
Fixpoint debug_text (ps : list Param) (delim text : string) : res string :=
  match ps with
  | [] => Ok (text +:+ "]")%string
  | p :: ps' =>
      t ← asString (base (val p));
      let text' := (text +:+ delim +:+ t)%string in
      if (598 <=? String.length text')%nat then Ok text else debug_text ps' "," text'
  end.
Definition debugParameterChange (l : ptr) : NM unit :=
  let! i := get l in
  let? text := debug_text (parameters i) "" "[" in
  run! setValue ct l "DEBUG" (mkString t_string text 0) 0 in sret tt.

(** [MachineIncludesParameter]. *)
Fixpoint includes_value (v : Value) (ps : list Param) : res bool :=
  match ps with
  | [] => Ok false
  | p :: ps' => same ← value_eq (base (val p)) v; if same : bool then Ok true else includes_value v ps'
  end.
Definition MachineIncludesParameter (m : ptr) (v : Value) : NM bool :=
  let! i := get m in slift (includes_value v (parameters i)).

(** [CompareValues] and [CompareSymbolAndValue]. *)
Definition CompareValues (a b : Value) : res (exc bool) :=
  x ← value_eq a Null;
  y ← (if x : bool then Ok true else value_eq b Null);
  if y : bool then Ok Thrown else Value_ <$> value_eq a b.
Definition CompareSymbolAndValue (scope : ptr) (sym : MValue) (prop : string) (b : Value) : NM (exc bool) :=
  let! r := lookup_value ct scope sym in
  match fst r with
  | None => fun _ => Abort
  | Some x => let! v := getValue ct x prop in let! w := load v in slift (CompareValues w b)
  end.

(** The entry of a list as the value with its cache; the cache is filled in
    place by [owner->lookup]. *)
Definition lookup_entry (owner l : ptr) (k : nat) : NM (option ptr * MValue) :=
  let! p := entry l k in
  let! r := lookup_value ct owner (val p) in
  run! modify l (fun i => set_parameters
    (alter (fun q => mkParam (snd r) (machine q) (real_name q)) k (parameters i)) i) in
  sret r.

(** ** Union *)
Fixpoint union_from (n k : nat) (owner from into : ptr) : NM unit :=
  match n with
  | O => sret tt
  | S n' =>
      let! p := entry from k in
      run! (if is_symbol p then
              let! r := lookup_entry owner from k in
              match fst r with
              | None => fun _ => Abort
              | Some x =>
                  let! v := getValue ct x (sValue (base (snd r))) in
                  let! w := load v in
                  let! here := MachineIncludesParameter into w in
                  if here : bool then sret tt
                  else addParameter_value ct into (snd r) None (-1) false
              end
            else
              let! here := MachineIncludesParameter into (base (val p)) in
              if here : bool then sret tt
              else addParameter_value ct into (val p) None (-1) false) in
      union_from n' (S k) owner from into
  end.
Definition union_source (owner : ptr) (source : option ptr) (into : ptr) : NM unit :=
  if bool_decide (source = Some into) then sret tt
  else
    let? a := rd source in
    let! n := list_size a in union_from n 0 owner a into.
Definition UnionSetOperation (a b : option ptr) (d owner : ptr) : NM Status :=
  run! union_source owner a d in
  run! union_source owner b d in
  run! debugParameterChange d in sret Complete.

(** ** Difference *)

(** How two entries are compared: a symbol with a string or a number goes by the
    property of its machine. *)
Definition mixed (a b : Value) : bool :=
  Kind_eqb (kind a) t_symbol && (Kind_eqb (kind b) t_string || Kind_eqb (kind b) t_integer).
Definition same_entry (owner : ptr) (property : string) (a b : MValue) : NM (exc bool) :=
  if mixed (base a) (base b) then CompareSymbolAndValue owner a property (base b)
  else if mixed (base b) (base a) then CompareSymbolAndValue owner b property (base a)
  else let? r := value_eq (base a) (base b) in sret (Value_ r).
Fixpoint found_in (n k : nat) (owner : ptr) (property : string) (a : MValue) (b : ptr) : NM (exc bool) :=
  match n with
  | O => sret (Value_ false)
  | S n' =>
      let! q := entry b k in
      let! r := same_entry owner property a (val q) in
      match r with
      | Thrown => sret Thrown
      | Value_ true => sret (Value_ true)
      | Value_ false => found_in n' (S k) owner property a b
      end
  end.
(** The positions the list has at the start. *)
Fixpoint difference_from (n k : nat) (owner a b d : ptr) (property : string) : NM (exc unit) :=
  match n with
  | O => sret (Value_ tt)
  | S n' =>
      let! p := entry a k in
      let! nb := list_size b in
      let! r := found_in nb 0 owner property (val p) b in
      match r with
      | Thrown => sret Thrown
      | Value_ found =>
          run! (if found : bool then sret tt else addParameter_value ct d (val p) None (-1) false) in
          difference_from n' (S k) owner a b d property
      end
  end.
(** An entry appended to the list that is being read is not found either when its
    turn comes: the list grows until memory is exhausted. *)
Definition DifferenceSetOperation (a b : option ptr) (d owner : ptr) (property : string) : NM (exc Status) :=
  let? a := rd a in
  let! n := list_size a in
  let! r := match n with
            | O => sret (Value_ tt)
            | _ => let? b := rd b in difference_from n 0 owner a b d property
            end in
  match r with
  | Thrown => sret Thrown
  | Value_ _ =>
      let! n' := list_size a in
      if bool_decide (n' = n) then run! displayList ct d in sret (Value_ Complete)
      else fun _ => Abort
  end.

(** ** Select *)

(** [setListItem] and the code that does the same in the selection: ITEM stands
    for an entry. *)
Definition erase_item (l : ptr) : NM unit :=
  modify l (fun i => set_names (delete "ITEM" (localised_names i)) i).
Definition drop_local (l : ptr) (idx : nat) : NM unit :=
  modify l (fun i => set_locals (delete idx (locals i)) i).

(** A position given as a number or as the name of a property of the owner; [-1]
    when it has no integer value. *)
Definition position_value (scope : ptr) (v : Value) : NM Z :=
  let! r := (if Kind_eqb (kind v) t_symbol || Kind_eqb (kind v) t_string then
               let! i := get scope in
               let! f := table_ref (RProp scope (sValue v)) (sValue v) (properties i) in
               let! x := load f in slift (asInteger x None)
             else slift (asInteger v None)) in
  if fst r : bool then slift (rd (snd r)) else sret (-1).
(** How many entries to take. *)
Definition to_copy (op : SetOp) (owner : ptr) (sp ep : Z) (size : nat) : NM Z :=
  let all := Z.of_nat size in
  let? ranged := (if Kind_eqb (kind (base (count op))) t_integer && negb (ep =? -1)
                  then value_eq (base (count op)) (Value_int (-1)) else Ok false) in
  let? n := (if ranged : bool then long_of (ep - sp + 1) else Ok 0) in
  let c := if ranged then mkMV (assign (base (count op)) (Value_long n)) None None else count op in
  if Kind_eqb (kind (base c)) t_symbol then
    let! r := getValue_of ct owner c in
    let! v := load (fst r) in
    let? null := value_eq v Null in
    if null : bool then sret all
    else let? z := asInteger v None in
         if fst z then slift (rd (snd z)) else sret all
  else
    let? negative := (if Kind_eqb (kind (base c)) t_integer then value_lt (base c) (Value_int 0) else Ok false) in
    if negative : bool then sret all
    else let? z := asInteger (base c) None in
         if fst z then slift (rd (snd z)) else sret all.

(** Copying one selected entry to the destination. *)
Definition select_into (d : ptr) (a : MValue) (x : ptr) (copied : Z) : NM Z :=
  let! di := get d in
  if bool_decide (i_type (fixed di) = "LIST") then
    let! here := MachineIncludesParameter d (base a) in
    run! (if here : bool then sret tt else addParameter_value ct d a None (-1) false) in
    slift (int_of (copied + 1))
  else if bool_decide (i_type (fixed di) = "REFERENCE") then
    run! (if bool_decide (locals di = []) then sret tt else removeLocal d 0) in
    let! item := tokenise (Value_cstr "ITEM" t_symbol) in
    run! addLocal ct d (plain item) (Some x) in
    slift (int_of (copied + 1))
  else sret copied.

(** The loop over the entries from position [k]; [fuel] is one more than the
    entries that are left to look at. *)
Fixpoint select_loop (fuel : nat) (op : SetOp) (owner a d : ptr) (idx : nat) (limit : Z) (k : nat)
    (copied : Z) : NM unit :=
  match fuel with
  | O => sret tt
  | S f =>
    let! size := list_size a in
    if (size <=? k)%nat then sret tt
    else
      run! debugParameterChange d in
      let! p := entry a k in
      let v := mv_copy (val p) in
      if is_symbol p then
        let! r := lookup_value ct owner v in
        let v := snd r in
        run! set_item a idx v (fst r) in
        match fst r with
        | None => fun _ => Abort
        | Some x =>
            let! yes := match condition op with
              | None => sret true
              | Some c =>
                  run! modify a (fun i => set_names (<["ITEM" := Some x]> (localised_names i)) i) in
                  c owner
              end in
            if yes : bool then
              let! copied := select_into d v x copied in
              run! (if remove_selected op then removeParameter a (to_s32 (Z.of_nat k)) else sret tt) in
              if limit <=? copied then sret tt
              else select_loop f op owner a d idx limit (if remove_selected op then k else S k) copied
            else select_loop f op owner a d idx limit (S k) copied
        end
      else
        let! here := MachineIncludesParameter d (base v) in
        run! (if here : bool then sret tt else addParameter_value ct d v None (-1) false) in
        select_loop f op owner a d idx limit (S k) copied
  end.
Definition SelectSetOperation (op : SetOp) (a : option ptr) (d owner : ptr) : NM Status :=
  match a with
  | None => sret Failed
  | Some a =>
      let! sp := position_value owner (start_pos op) in
      let sp := if sp =? -1 then 0 else sp in
      let! ep := position_value owner (end_pos op) in
      let! i := get a in
      let! limit := to_copy op owner sp ep (length (parameters i)) in
      let? idx := item_index (locals i) in
      run! select_loop (S (length (parameters i))) op owner a d (snd idx) limit (Z.to_nat (u32 sp)) 0 in
      run! (if fst idx then sret tt else drop_local a (snd idx)) in
      run! erase_item a in
      run! displayList ct d in sret Complete
  end.

(** ** Intersection *)

(** [setListItem]; [idx] is the place of ITEM, and the local is appended the first
    time. *)
Definition setListItem (l : ptr) (item : MValue) (idx : nat) : NM unit :=
  let! name := tokenise (Value_cstr "ITEM" t_symbol) in
  run! modify l (fun i =>
    let p := match locals i !! idx with Some p => val p | None => mv_copy item end in
    let q := mkParam (mkMV (assign (base p) name) None None) (cached_machine item) (sValue (base item)) in
    set_locals (if (idx <? length (locals i))%nat then <[idx := q]> (locals i) else locals i ++ [q]) i) in
  match cached_machine item with
  | Some x => modify l (fun i => set_names (<["ITEM" := Some x]> (localised_names i)) i)
  | None => sret tt
  end.

(** One entry [x] of the first list against the entries of the second, when there
    is a condition. *)
Fixpoint intersect_condition (n j : nat) (op : SetOp) (c : ptr -> NM bool) (owner a b d : ptr) (ib : nat)
    (limit : Z) (k : nat) (x : MValue) (copied : Z) : NM (Flow * Z) :=
  match n with
  | O => sret (NextEntry, copied)
  | S n' =>
      let! y := lookup_entry owner b j in
      match cached_machine (snd y) with
      | None => intersect_condition n' (S j) op c owner a b d ib limit k x copied
      | Some _ =>
          run! setListItem b (snd y) ib in
          run! erase_item a in
          run! erase_item b in
          let! matched := c owner in
          let! copied :=
            (if matched : bool then
               let! here := MachineIncludesParameter d (base x) in
               let! copied := (if here : bool then sret copied
                               else run! addParameter_value ct d x (cached_machine x) (-1) false in
                                    slift (long_of (copied + 1))) in
               run! (if remove_selected op then removeParameter a (to_s32 (Z.of_nat k)) else sret tt) in
               sret copied
             else sret copied) in
          if limit <=? copied then sret (Done, copied)
          else if matched : bool then sret (if remove_selected op then SameEntry else NextEntry, copied)
          else intersect_condition n' (S j) op c owner a b d ib limit k x copied
      end
  end.
(** The same without a condition: by a property, or by the entries themselves. A
    match by property or of two like entries does not end the search. *)
Fixpoint intersect_plain (n j : nat) (property : string) (owner a b d : ptr) (ib : nat) (x : MValue)
    : NM (exc unit) :=
  match n with
  | O => sret (Value_ tt)
  | S n' =>
      let! y := lookup_entry owner b j in
      match cached_machine (snd y) with
      | None => intersect_plain n' (S j) property owner a b d ib x
      | Some yb =>
          run! setListItem b (snd y) ib in
          run! erase_item a in
          run! erase_item b in
          let next := intersect_plain n' (S j) property owner a b d ib x in
          if mixed (base x) (base (snd y)) || mixed (base (snd y)) (base x) then
            let! r := (if mixed (base x) (base (snd y))
                       then CompareSymbolAndValue owner x property (base (snd y))
                       else CompareSymbolAndValue owner (snd y) property (base x)) in
            match r with
            | Thrown => sret Thrown
            | Value_ true => run! addParameter_value ct d x (cached_machine x) (-1) false in sret (Value_ tt)
            | Value_ false => next
            end
          else if negb (bool_decide (property = "")) then
            let? xa := rd (cached_machine x) in
            let! r1 := getValue ct xa property in
            let! v1 := load r1 in
            let! r2 := getValue ct yb property in
            let! v2 := load r2 in
            let? there := value_ne v1 Null in
            let? same := (if there : bool then value_eq v1 v2 else Ok false) in
            run! (if same : bool then addParameter_value ct d x (cached_machine x) (-1) false else sret tt) in
            next
          else
            let? same := value_eq (base x) (base (snd y)) in
            run! (if same : bool then addParameter_value ct d x None (-1) false else sret tt) in
            next
      end
  end.
Fixpoint intersect_loop (fuel : nat) (op : SetOp) (owner a b d : ptr) (ia ib : nat) (limit : Z) (k : nat)
    (copied : Z) : NM (exc unit) :=
  match fuel with
  | O => sret (Value_ tt)
  | S f =>
    let! size := list_size a in
    if (size <=? k)%nat then sret (Value_ tt)
    else
      let! x := lookup_entry owner a k in
      match fst x with
      | None => intersect_loop f op owner a b d ia ib limit (S k) copied
      | Some _ =>
          run! setListItem a (snd x) ia in
          let! nb := list_size b in
          match condition op with
          | Some c =>
              let! r := intersect_condition nb 0 op c owner a b d ib limit k (snd x) copied in
              match fst r with
              | NextEntry => intersect_loop f op owner a b d ia ib limit (S k) (snd r)
              | SameEntry => intersect_loop f op owner a b d ia ib limit k (snd r)
              | Done => sret (Value_ tt)
              end
          | None =>
              let! r := intersect_plain nb 0 (property_name op) owner a b d ib (snd x) in
              match r with
              | Thrown => sret Thrown
              | Value_ _ => intersect_loop f op owner a b d ia ib limit (S k) copied
              end
          end
      end
  end.
Definition IntersectSetOperation (op : SetOp) (a b : option ptr) (d owner : ptr) : NM (exc Status) :=
  match a with
  | None => sret (Value_ Failed)
  | Some a =>
      let! i := get a in
      let? default := value_eq (base (count op)) (Value_int (-1)) in
      let? limit := (if default : bool then Ok (Z.of_nat (length (parameters i)))
                     else z ← asInteger (base (count op)) None;
                          if fst z : bool then rd (snd z) else Ok (Z.of_nat (length (parameters i)))) in
      let? b := rd b in
      let! bi := get b in
      let? ia := item_index (locals i) in
      let? ib := item_index (locals bi) in
      let! r := intersect_loop (S (length (parameters i))) op owner a b d (snd ia) (snd ib) limit 0 0 in
      match r with
      | Thrown => sret Thrown
      | Value_ _ =>
          run! (if fst ia then sret tt else drop_local a (snd ia)) in
          run! (if fst ib then sret tt else drop_local b (snd ib)) in
          run! debugParameterChange d in sret (Value_ Complete)
      end
  end.

(** ** [SetOperationAction::run] *)
Inductive SetOperationKind := soIntersect | soUnion | soDifference | soSelect.
Definition doOperation (what : SetOperationKind) (op : SetOp) (a b : option ptr) (d owner : ptr)
    : NM (exc Status) :=
  match what with
  | soIntersect => IntersectSetOperation op a b d owner
  | soUnion => let! st := UnionSetOperation a b d owner in sret (Value_ st)
  | soDifference => DifferenceSetOperation a b d owner (property_name op)
  | soSelect => let! st := SelectSetOperation op a d owner in sret (Value_ st)
  end.
Definition find_operand (owner : ptr) (name : string) : NM (option ptr) :=
  let! v := tokenise (Value_str name t_symbol) in
  let! r := lookup_value ct owner (plain v) in sret (fst r).
Definition SetOperationAction (what : SetOperationKind) (op : SetOp) (owner : ptr) : NM Status :=
  run! emit (EStart owner) in
  let! a := find_operand owner (source_a op) in
  let! b := find_operand owner (source_b op) in
  let! d := find_operand owner (dest op) in
  match d with
  | None => finish owner Failed
  | Some d =>
      let! di := get d in
      if bool_decide (i_type (fixed di) = "LIST") || bool_decide (i_type (fixed di) = "REFERENCE") then
        let! r := doOperation what op a b d owner in
        finish owner (match r with Value_ st => st | Thrown => Failed end)
      else finish owner Failed
  end.
End Operations.
