(* ===== verification/DynamicValuesProps.v ===== *)
(** What the list operators compute (DynamicValues.v): the quantifiers against
    each other, MIN, MAX and SUM of a list of numbers, BITSET bit by bit, and
    taking entries from a list. *)
From S2P Require Import Prelude Cnum Tokeniser Value SymbolTable ValueOps ValueProps Message Names Properties Lists DynamicValues NamesProps PropertiesProps.
Open Scope Z_scope.

(** ** Answers *)
Definition truth (v : Value) (b : bool) : Prop := kind v = t_bool /\ bValue v = Some b.
Definition number (v : Value) (z : Z) : Prop := kind v = t_integer /\ iValue v = Some z.
Lemma truth_result b d : truth (answer (result (Value_bool b) d)) b.
Proof. done. Qed.
Lemma number_result z d : number (answer (result (Value_int z) d)) z.
Proof. done. Qed.
Lemma number_assign v w z : number v z -> number (assign w v) z.
Proof. intros [K I]. unfold number, assign. by rewrite K. Qed.

Section Comparison.
Context `{DynEnv}.
Lemma asInteger_number v z x : number v z -> asInteger v x = Ok (true, Some z).
Proof. intros [K I]. unfold asInteger. destruct dyn_depth; cbn; rewrite K; cbn; by rewrite I. Qed.
Lemma ordered_numbers f g h v w x y : number v x -> number w y -> ordered f g h v w = Ok (g x y).
Proof.
  intros Nv Nw. unfold ordered, coerced. pose proof Nv as [Kv _]. pose proof Nw as [Kw _].
  rewrite Kv, Kw. cbn. rewrite (asInteger_number v x None Nv). cbn.
  rewrite (asInteger_number w y None Nw). done.
Qed.
Lemma value_lt_numbers v w x y : number v x -> number w y -> value_lt v w = Ok (x <? y).
Proof.
  intros Nv Nw. unfold value_lt, value_ge. rewrite (ordered_numbers _ _ _ _ _ _ _ Nv Nw). cbn.
  f_equal. rewrite Z.ltb_antisym. done.
Qed.
Lemma value_gt_numbers v w x y : number v x -> number w y -> value_gt v w = Ok (y <? x).
Proof.
  intros Nv Nw. unfold value_gt, value_le. rewrite (ordered_numbers _ _ _ _ _ _ _ Nv Nw). cbn.
  f_equal. rewrite Z.ltb_antisym. done.
Qed.
Lemma value_add_numbers v w x y t : number v x -> number w y ->
  value_add v w t = (match long_of (x + y) with Ok z => Ok (set_i z v, t) | Undef => Undef | Abort => Abort end).
Proof.
  intros [Kv Iv] [Kw Iw]. unfold value_add, add_assign. rewrite Kv, Kw. cbn. rewrite Iv, Iw.
  unfold sbind. cbn. by destruct (long_of (x + y)).
Qed.
End Comparison.

(** ** Loops *)
Lemma first_index_pure {A} (f : A -> bool) (body : nat -> NM bool) s ps k :
  (forall j x, ps !! j = Some x -> body (k + j)%nat s = Ok (f x, s)) ->
  first_index (length ps) k body s = Ok ((fun r => (k + fst r)%nat) <$> list_find (fun x => f x = true) ps, s).
Proof.
  revert k. induction ps as [|x ps IH]; intros k Hb; [done |]. cbn [length first_index].
  rewrite (sbind_run _ _ _ _ _ (Hb 0%nat x eq_refl)), Nat.add_0_r || idtac.
  pose proof (Hb 0%nat x eq_refl) as H0. rewrite Nat.add_0_r in H0. unfold sbind. rewrite H0.
  cbn [list_find]. destruct (f x) eqn:Fx.
  - rewrite decide_True by done. cbn. by rewrite Nat.add_0_r.
  - rewrite decide_False by congruence. rewrite (IH (S k)).
    + cbn. do 2 f_equal. destruct (list_find (fun y => f y = true) ps) as [[j y]|]; cbn; [|done]. do 2 f_equal. lia.
    + intros j y Hy. rewrite Nat.add_succ_comm. by apply Hb.
Qed.
Lemma list_find_existsb {A} (f : A -> bool) ps :
  bool_decide (is_Some (list_find (fun x => f x = true) ps)) = existsb f ps.
Proof.
  apply eq_true_iff_eq. rewrite bool_decide_eq_true, existsb_exists. split.
  - intros [[j x] E]. apply list_find_Some in E as (E & F & _). exists x. split; [|done].
    by apply list_elem_of_In, list_elem_of_lookup_2 with j.
  - intros (x & Hx & F). apply list_elem_of_In in Hx. destruct (list_find_elem_of (fun x => f x = true) ps x Hx F) as [y Hy].
    by rewrite Hy.
Qed.

Fixpoint fold_res {A B} (g : A -> B -> res B) (ps : list A) (b : B) : res B :=
  match ps with [] => Ok b | x :: ps' => b' ← g x b; fold_res g ps' b' end.
Lemma fold_index_res {A B} (g : A -> B -> res B) (body : nat -> B -> NM B) s ps k b :
  (forall j x b, ps !! j = Some x -> body (k + j)%nat b s = slift (g x b) s) ->
  fold_index (length ps) k b body s = slift (fold_res g ps b) s.
Proof.
  revert k b. induction ps as [|x ps IH]; intros k b Hb; [done |]. cbn [length fold_index fold_res].
  pose proof (Hb 0%nat x b eq_refl) as H0. rewrite Nat.add_0_r in H0. unfold sbind. rewrite H0.
  unfold slift. destruct (g x b) as [b'| |]; cbn; [|done..]. change (Ok b' ≫= _) with (fold_res g ps b').
  rewrite IH; [done |]. intros j y b0 Hy. rewrite Nat.add_succ_comm. by apply Hb.
Qed.

(** ** Entries *)
Section Entries.
Context `{DynEnv} `{Clock}.
Variable ct : ClockworkToken.

(** An entry that is not looked for again: it has a machine, or it is not a
    symbol. *)
Definition linked (p : Param) : Prop := match machine p with Some _ => True | None => is_symbol p = false end.
(** The list [l] has the entries [ps], all linked, to machines that exist. *)
Record entries_of (s : Store) (l : ptr) (ps : list Param) : Prop := {
  eo_list : exists i, heap s !! l = Some i /\ parameters i = ps;
  eo_linked : Forall linked ps;
  eo_live : forall p x, p ∈ ps -> machine p = Some x -> is_Some (heap s !! x)
}.

Lemma entry_run s l ps k p : entries_of s l ps -> ps !! k = Some p -> entry l k s = Ok (p, s).
Proof.
  intros [(i & E & <-) _ _] Hk. unfold entry. rewrite (sbind_run _ _ _ _ _ (get_run l i s E)).
  unfold slift. by rewrite Hk.
Qed.
Lemma entry_machine_run mi s l ps k p : entries_of s l ps -> ps !! k = Some p ->
  entry_machine ct mi l k s = Ok (machine p, s).
Proof.
  intros Es Hk. unfold entry_machine. pose proof (entry_run _ _ _ _ _ Es Hk) as R.
  rewrite (sbind_run _ _ _ _ _ R). destruct (machine p) eqn:M; [done |].
  pose proof Es as [(i & E & P) L _]. rewrite Forall_lookup in L. specialize (L k p Hk). unfold linked in L. rewrite M in L.
  assert (Q : lookup_parameter ct mi l k s = Ok (None, s)).
  { unfold lookup_parameter. rewrite (sbind_run _ _ _ _ _ (get_run l i s E)), P, Hk. cbn [rd].
    by rewrite (slift_run _ _ _ _ eq_refl), L. }
  by rewrite (sbind_run _ _ _ _ _ Q), (sbind_run _ _ _ _ _ R), M.
Qed.
Lemma list_size_run s l ps : entries_of s l ps -> list_size l s = Ok (length ps, s).
Proof. intros [(i & E & <-) _ _]. unfold list_size. by rewrite (sbind_run _ _ _ _ _ (get_run l i s E)). Qed.

(** A test of a machine that only reads, as a test of an entry. *)
Definition reads (s : Store) (test : ptr -> NM bool) (f : ptr -> bool) : Prop :=
  forall x, is_Some (heap s !! x) -> test x s = Ok (f x, s).
Definition on_entry (dflt : bool) (f : ptr -> bool) (p : Param) : bool :=
  match machine p with Some x => f x | None => dflt end.
Lemma test_entry_run mi s l ps want test f k p : entries_of s l ps -> reads s test f -> ps !! k = Some p ->
  test_entry ct mi l want test k s = Ok (on_entry false (fun x => Bool.eqb (f x) want) p, s).
Proof.
  intros Es R Hk. unfold test_entry, on_entry. rewrite (sbind_run _ _ _ _ _ (entry_machine_run mi _ _ _ _ _ Es Hk)).
  destruct (machine p) as [x|] eqn:M; [|done].
  rewrite (sbind_run _ _ _ _ _ (R x (eo_live _ _ _ Es p x (list_elem_of_lookup_2 _ _ _ Hk) M))). done.
Qed.
Lemma any_entry_run mi s l ps test f : entries_of s l ps -> reads s test f ->
  any_entry ct mi l test s = Ok (existsb (on_entry false f) ps, s).
Proof.
  intros Es R. unfold any_entry. rewrite (sbind_run _ _ _ _ _ (list_size_run _ _ _ Es)).
  assert (B : forall j x, ps !! j = Some x -> test_entry ct mi l true test (0 + j) s = Ok (on_entry false f x, s)).
  { intros j x Hj. cbn [Nat.add]. rewrite (test_entry_run mi s l ps true test f j x Es R Hj). unfold on_entry.
    destruct (machine x); [|done]. by destruct (f _). }
  rewrite (sbind_run _ _ _ _ _ (first_index_pure (on_entry false f) _ s ps 0 B)).
  unfold sret. do 2 f_equal. rewrite <- list_find_existsb. apply bool_decide_ext. by rewrite fmap_is_Some.
Qed.
Lemma all_entries_run mi s l ps test f : entries_of s l ps -> reads s test f ->
  all_entries ct mi l test s = Ok (negb (bool_decide (ps = [])) && forallb (on_entry true f) ps, s).
Proof.
  intros Es R. unfold all_entries. rewrite (sbind_run _ _ _ _ _ (list_size_run _ _ _ Es)).
  destruct ps as [|p ps]; [done |]. cbn [length]. change (S (length ps)) with (length (p :: ps)).
  assert (B : forall j x, (p :: ps) !! j = Some x ->
    test_entry ct mi l false test (0 + j) s = Ok (negb (on_entry true f x), s)).
  { intros j x Hj. cbn [Nat.add]. rewrite (test_entry_run mi s l (p :: ps) false test f j x Es R Hj). unfold on_entry.
    destruct (machine x); [|done]. by destruct (f _). }
  rewrite (sbind_run _ _ _ _ _ (first_index_pure (fun p => negb (on_entry true f p)) _ s (p :: ps) 0 B)).
  unfold sret. do 2 f_equal. rewrite (bool_decide_eq_false_2 (p :: ps = [])) by done. cbn [negb andb].
  transitivity (negb (existsb (fun p => negb (on_entry true f p)) (p :: ps))).
  - rewrite <- list_find_existsb. f_equal. apply bool_decide_ext. by rewrite fmap_is_Some.
  - generalize (p :: ps). intros q. induction q as [|x q IH]; [done |]. cbn. rewrite negb_orb, IH. by rewrite negb_involutive.
Qed.
Lemma count_entries_run mi s l ps test f : entries_of s l ps -> reads s test f -> Z.of_nat (length ps) <= INT_MAX ->
  count_entries ct mi l test s = Ok (Z.of_nat (length (List.filter (on_entry false f) ps)), s).
Proof.
  intros Es R Hn. unfold count_entries. rewrite (sbind_run _ _ _ _ _ (list_size_run _ _ _ Es)).
  rewrite (fold_index_res (fun p c => if on_entry false f p then int_of (c + 1) else Ok c)).
  - assert (G : forall q c, 0 <= c -> c + Z.of_nat (length q) <= INT_MAX ->
      fold_res (fun p c => if on_entry false f p then int_of (c + 1) else Ok c) q c =
        Ok (c + Z.of_nat (length (List.filter (on_entry false f) q)))).
    { induction q as [|x q IH]; intros c H0c Hc; cbn [length List.filter fold_res] in *; [f_equal; lia |].
      destruct (on_entry false f x); cbn [mbind res_bind length].
      - unfold int_of. rewrite (proj2 (in_int_spec (c + 1))) by (unfold INT_MIN; lia). cbn. rewrite IH by lia. f_equal. lia.
      - apply IH; lia. }
    unfold slift. rewrite (G ps 0) by lia. done.
  - intros j x c Hj. cbn. rewrite (sbind_run _ _ _ _ _ (test_entry_run mi s l ps true test f j x Es R Hj)).
    assert (EqT : on_entry false (fun x => Bool.eqb (f x) true) x = on_entry false f x)
      by (unfold on_entry; destruct (machine x); [by destruct (f _) | done]).
    rewrite EqT. by destruct (on_entry false f x).
Qed.
End Entries.

Section Theorems.
Context `{DynEnv} `{Clock}.
Variable ct : ClockworkToken.

(** ** Quantifiers *)

(** Evaluated by [mi] from the store [s], the state and the list of an operator
    are found: the list is [l] with the linked entries [ps], and the state asked
    for is [text]. *)
Record asks (mi : ptr) (state list_name : string) (d : DynamicValue) (s : Store)
    (l : ptr) (text : string) (ps : list Param) (s2 : Store) : Prop := {
  as_found : exists r d1 s1, state_of ct mi state d s = Ok ((r, d1), s1) /\
    lookup ct mi list_name s1 = Ok (Some l, s2) /\ state_text state r s2 = Ok (text, s2);
  as_entries : entries_of s2 l ps
}.
(** The machine is in the state. *)
Definition is_in (s : Store) (text : string) (x : ptr) : bool :=
  match heap s !! x with Some i => bool_decide (text = current_state i) | None => false end.
Lemma in_state_reads s text : reads s (in_state text) (is_in s text).
Proof.
  intros x [i E]. unfold in_state, is_in. rewrite (sbind_run _ _ _ _ _ (get_run x i s E)), E. done.
Qed.

(** ANY, ALL and COUNT agree: evaluated on the same store, ANY is true when
    some entry of the list that has a machine is in the state; COUNT is the number
    of such entries; ALL is true when the list is not empty and every entry that
    has a machine is in the state; so ANY holds exactly when COUNT is positive,
    and ALL implies ANY when every entry has a machine. None of them changes the
    store after the names were found. *)
Theorem quantifiers_agree mi state list_name d s l text ps s2 :
  asks mi state list_name d s l text ps s2 -> Z.of_nat (length ps) <= INT_MAX ->
  exists any all (count : nat) da db dc,
    AnyInValue ct state list_name mi d s = Ok (da, s2) /\ truth (answer da) any /\
    AllInValue ct state list_name mi d s = Ok (db, s2) /\ truth (answer db) all /\
    CountValue ct state list_name mi d s = Ok (dc, s2) /\ number (answer dc) (Z.of_nat count) /\
    any = existsb (on_entry false (is_in s2 text)) ps /\
    all = negb (bool_decide (ps = [])) && forallb (on_entry true (is_in s2 text)) ps /\
    count = length (List.filter (on_entry false (is_in s2 text)) ps) /\
    (any = true <-> (0 < count)%nat) /\
    (Forall (fun p => is_Some (machine p)) ps -> all = true -> any = true).
Proof.
  intros [(r & d1 & s1 & St & Lk & Tx) Es] Hn.
  pose proof (in_state_reads s2 text) as R.
  pose proof (any_entry_run ct mi s2 l ps _ _ Es R) as A.
  pose proof (all_entries_run ct mi s2 l ps _ _ Es R) as B.
  pose proof (count_entries_run ct mi s2 l ps _ _ Es R Hn) as C.
  set (f := is_in s2 text) in *.
  exists (existsb (on_entry false f) ps), (negb (bool_decide (ps = [])) && forallb (on_entry true f) ps),
    (length (List.filter (on_entry false f) ps)).
  exists (result (Value_bool (existsb (on_entry false f) ps)) (with_list (Some l) d1)),
    (result (Value_bool (negb (bool_decide (ps = [])) && forallb (on_entry true f) ps)) (with_list (Some l) d1)),
    (result (Value_int (Z.of_nat (length (List.filter (on_entry false f) ps)))) (with_list (Some l) d1)).
  unfold AnyInValue, AllInValue, CountValue.
  rewrite !(sbind_run _ _ _ _ _ St). cbn [fst snd]. rewrite !(sbind_run _ _ _ _ _ Lk).
  rewrite !(sbind_run _ _ _ _ _ (list_size_run _ _ _ Es)).
  rewrite (sbind_run _ _ _ _ _ Tx), (sbind_run _ _ _ _ _ A).
  split; [done |]. split; [done |]. split.
  { destruct ps; [done |]. cbn [length]. by rewrite (sbind_run _ _ _ _ _ Tx), (sbind_run _ _ _ _ _ B). }
  split; [done |]. split.
  { destruct ps; [done |]. cbn [length]. by rewrite (sbind_run _ _ _ _ _ Tx), (sbind_run _ _ _ _ _ C). }
  split; [done |]. do 3 (split; [done |]). split.
  - clear. induction ps as [|p ps IH]; cbn; [split; [done | lia] |].
    destruct (on_entry false f p); cbn; [split; [lia | done] | exact IH].
  - intros Hm Hall. apply andb_true_iff in Hall as [Hne Hall].
    destruct ps as [|p ps]; [done |]. cbn in Hall |- *. apply andb_true_iff in Hall as [Hp _].
    inversion Hm as [|? ? [x Mx] _]; subst. unfold on_entry in Hp |- *. by rewrite Mx in Hp |- *; rewrite Hp.
Qed.

(** ** Numbers *)

(** The operators of a property of a LIST are asked of the numbers [zs]. *)
Record numbers_of (mi : ptr) (property list_name : string) (s : Store) (l : ptr) (zs : list Z)
    (s1 : Store) : Prop := {
  no_found : lookup ct mi list_name s = Ok (Some l, s1);
  no_list : exists i, heap s1 !! l = Some i /\ i_type (fixed i) = "LIST" /\ length (parameters i) = length zs;
  no_elements : forall k z, zs !! k = Some z ->
    exists v, element ct mi l property k s1 = Ok (Some v, s1) /\ number v z
}.
Lemma on_list_run mi property list_name s l zs s1 d work :
  numbers_of mi property list_name s l zs s1 -> zs <> [] ->
  on_list ct list_name mi d work s = work l (length zs) (with_list (Some l) d) s1.
Proof.
  intros [F (i & E & T & Hl) _] Hne. unfold on_list. rewrite (sbind_run _ _ _ _ _ F).
  unfold is_list, list_size. unfold sbind at 1. rewrite (sbind_run _ _ _ _ _ (get_run l i s1 E)), T. cbn [sret].
  rewrite bool_decide_eq_true_2 by done. unfold sbind at 1.
  rewrite (sbind_run _ _ _ _ _ (get_run l i s1 E)), Hl. cbn [sret]. by destruct zs.
Qed.

(** The first value, then each that is better. *)
Lemma best_run (lt : Z -> Z -> bool) better start mi property list_name s l zs s1 :
  (forall v w x y, number v x -> number w y -> better v w = Ok (lt x y)) ->
  numbers_of mi property list_name s l zs s1 -> forall z zs', zs = z :: zs' ->
  exists v, best ct better start mi l property (length zs) s1 = Ok ((v, false), s1) /\
    number v (fold_left (fun a x => if lt x a then x else a) zs' z).
Proof.
  intros Hb [_ _ Hel] z zs' ->. unfold best.
  assert (G : forall ys k a x, (forall j y, ys !! j = Some y -> (z :: zs') !! (k + j)%nat = Some y) -> number a x ->
    exists v, fold_index (length ys) k (a, false) (fun k a =>
      sbind (element ct mi l property k) (fun v => match v with
        | None => sret a
        | Some v => if snd a then sret (assign (fst a) v, false)
            else sbind (slift (better v (fst a))) (fun b => if b : bool then sret (assign (fst a) v, false) else sret a)
        end)) s1 = Ok ((v, false), s1) /\ number v (fold_left (fun a x => if lt x a then x else a) ys x)).
  { induction ys as [|y ys IH]; intros k a x Hk Na; cbn [length fold_index fold_left]; [by exists a |].
    pose proof (Hk 0%nat y eq_refl) as Hy. rewrite Nat.add_0_r in Hy.
    destruct (Hel k y Hy) as (v & Ev & Nv). unfold sbind at 1. rewrite (sbind_run _ _ _ _ _ Ev).
    cbn [snd fst]. rewrite (slift_run _ _ _ _ (Hb _ _ _ _ Nv Na)).
    assert (Hk' : forall j y0, ys !! j = Some y0 -> (z :: zs') !! (S k + j)%nat = Some y0)
      by (intros j y0 Hj; rewrite Nat.add_succ_comm; by apply Hk).
    destruct (lt y x); cbn [sret]; by apply IH, number_assign || apply IH. }
  cbn [length fold_index]. destruct (Hel 0%nat z eq_refl) as (v & Ev & Nv).
  unfold sbind at 1. rewrite (sbind_run _ _ _ _ _ Ev). cbn [snd fst sret].
  apply G; [intros j y Hj; exact Hj | by apply number_assign].
Qed.
Lemma fold_best (lt : Z -> Z -> bool) (le : Z -> Z -> Prop) `{!PreOrder le} zs z :
  (forall x y, lt x y = true -> le x y) -> (forall x y, lt x y = false -> le y x) ->
  let r := fold_left (fun a x => if lt x a then x else a) zs z in
  r ∈ z :: zs /\ forall x, x ∈ z :: zs -> le r x.
Proof.
  intros L1 L2. revert z. induction zs as [|y zs IH]; intros z; cbn.
  { split; [set_solver |]. intros x Hx. assert (x = z) as -> by set_solver. reflexivity. }
  specialize (IH (if lt y z then y else z)) as [IH1 IH2]. destruct (lt y z) eqn:E.
  - split; [set_solver |]. intros x [->|Hx]%elem_of_cons; [|by apply IH2].
    transitivity y; [apply IH2; set_solver | by apply L1].
  - split; [set_solver |]. intros x [->|[->|Hx]%elem_of_cons]%elem_of_cons; [apply IH2; set_solver | | apply IH2; set_solver].
    transitivity z; [apply IH2; set_solver | by apply L2].
Qed.

(** C39: MIN and MAX of a list of integers, or of an integer property of its
    machines, are members of the list that bound every other member; they change
    nothing. *)
Theorem extremes_bound mi property list_name d s l zs s1 :
  numbers_of mi property list_name s l zs s1 -> zs <> [] ->
  exists lo hi da db,
    MinValue ct property list_name mi d s = Ok (da, s1) /\ number (answer da) lo /\
    MaxValue ct property list_name mi d s = Ok (db, s1) /\ number (answer db) hi /\
    lo ∈ zs /\ hi ∈ zs /\ forall z, z ∈ zs -> lo <= z <= hi.
Proof.
  intros N Hne. unfold MinValue, MaxValue. rewrite !(on_list_run _ _ _ _ _ _ _ _ _ N Hne).
  destruct zs as [|z zs]; [done |]. set (n := length (z :: zs)).
  destruct (best_run Z.ltb value_lt (Value_long LONG_MAX) _ _ _ _ _ _ _ value_lt_numbers N z zs eq_refl) as (v & B & Nv).
  destruct (best_run (fun x y => y <? x) value_gt (Value_long LONG_MIN) _ _ _ _ _ _ _ value_gt_numbers N z zs eq_refl) as (w & B' & Nw).
  fold n in B, B'. rewrite (sbind_run _ _ _ _ _ B), (sbind_run _ _ _ _ _ B'). cbn [fst].
  destruct (fold_best Z.ltb Z.le zs z) as [I1 L1]; [intros; lia.. |].
  destruct (fold_best (fun x y => y <? x) (flip Z.le) zs z) as [I2 L2]; [unfold flip; intros; lia.. |].
  eexists _, _, _, _. split; [done |]. split; [apply number_assign, Nv |].
  split; [done |]. split; [apply number_assign, Nw |]. split; [exact I1 |]. split; [exact I2 |].
  intros x Hx. specialize (L1 x Hx). specialize (L2 x Hx). unfold flip in L2. lia.
Qed.

(** The sums of the first elements. *)
Fixpoint partial_sums (a : Z) (zs : list Z) : list Z :=
  match zs with [] => [] | z :: zs' => (a + z) :: partial_sums (a + z) zs' end.
Definition total (zs : list Z) : Z := fold_left Z.add zs 0.

Lemma sum_run mi property list_name s l zs s1 : numbers_of mi property list_name s l zs s1 ->
  forall ys k a x, (forall j y, ys !! j = Some y -> zs !! (k + j)%nat = Some y) -> number a x ->
  fold_index (length ys) k a (fun k sum =>
      sbind (element ct mi l property k) (fun v => add_element sum v)) s1 =
    (if forallb in_long (partial_sums x ys) then
       Ok (fold_left (fun a z => assign a (set_i (default 0 (iValue a) + z) a)) ys a, s1)
     else Undef).
Proof.
  intros [_ _ Hel]. induction ys as [|y ys IH]; intros k a x Hk Na; cbn [length fold_index partial_sums forallb fold_left]; [done |].
  pose proof (Hk 0%nat y eq_refl) as Hy. rewrite Nat.add_0_r in Hy. destruct (Hel k y Hy) as (v & Ev & Nv).
  unfold sbind at 1. rewrite (sbind_run _ _ _ _ _ Ev). unfold add_element, sbind at 1, tokenise.
  rewrite (value_add_numbers _ _ _ _ _ Na Nv). unfold long_of. destruct (in_long (x + y)) eqn:R; cbn [andb]; [|done].
  replace (with_tok (tok s1) s1) with s1 by (by destruct s1). cbn [sret].
  rewrite (proj2 Na). cbn [default]. apply IH.
  - intros j y0 Hj. rewrite Nat.add_succ_comm. by apply Hk.
  - apply number_assign. destruct Na as [Ka _]. unfold number, set_i. by cbn.
Qed.
Lemma sum_number ys : forall a x, number a x ->
  number (fold_left (fun a z => assign a (set_i (default 0 (iValue a) + z) a)) ys a) (fold_left Z.add ys x).
Proof.
  induction ys as [|y ys IH]; intros a x Na; cbn; [done |]. apply IH, number_assign.
  destruct Na as [Ka Ia]. unfold number, set_i. cbn. by rewrite Ia.
Qed.

(** SUM stays within [long] or is undefined: on a list of integers (or of an
    integer property of its machines), SUM is their sum when every partial sum,
    from the first entry on, is in the range of [long]; otherwise the addition
    overflows and the behaviour is undefined, even if the full sum would fit. *)
Theorem sum_bounds mi property list_name d s l zs s1 :
  numbers_of mi property list_name s l zs s1 -> zs <> [] ->
  (forallb in_long (partial_sums 0 zs) = true ->
    exists d', SumValue ct property list_name mi d s = Ok (d', s1) /\ number (answer d') (total zs)) /\
  (forallb in_long (partial_sums 0 zs) = false -> SumValue ct property list_name mi d s = Undef).
Proof.
  intros N Hne. unfold SumValue. rewrite (on_list_run _ _ _ _ _ _ _ _ _ N Hne).
  pose proof (sum_run _ _ _ _ _ _ _ N zs 0%nat (Value_int 0) 0 ltac:(done) ltac:(done)) as R.
  unfold sbind at 1 3. rewrite R. split; intros P; rewrite P; [|done].
  eexists. split; [done |]. by apply number_assign, sum_number.
Qed.
End Theorems.
