(* ===== verification/ListsProps.v ===== *)
(** What changing a list does (Lists.v, StoreActions.v, SetOperations.v): the
    state of a list follows its contents, union as an operation on sets, sorting,
    and BITSET against SET ENTRIES. *)
From S2P Require Import Prelude Cnum Tokeniser Value SymbolTable ValueOps ValueProps Message Machine Names Properties Lists DynamicValues StoreActions SetOperations NamesProps PropertiesProps DynamicValuesProps.
Open Scope Z_scope.

(** ** What changing the state of a machine promises *)

(** The parts of a machine that belong to the lists. *)
Definition same_list (i i' : MachineInstance) : Prop :=
  fixed i' = fixed i /\ parameters i' = parameters i /\ locals i' = locals i.
(** A step after which every machine still exists, with its list. *)
Definition keeps_lists (s s' : Store) : Prop :=
  (forall x i, heap s !! x = Some i -> exists i', heap s' !! x = Some i' /\ same_list i i').
(** ... and its state. *)
Definition keeps_states (s s' : Store) : Prop :=
  forall x, current_state <$> heap s' !! x = current_state <$> heap s !! x.

(** No handler the change of a state runs changes a list: [setState] to a state of
    the class puts the machine in that state and leaves the states of the others;
    it keeps the lists. *)
Class SteadyControl `{StateControl} := steady_setState : forall m i c name s,
  heap s !! m = Some i -> state_machine (fixed i) = Some c -> name ∈ c_states c ->
  exists s', setState m name s = Ok (tt, s') /\ keeps_lists s s' /\
    (exists i', heap s' !! m = Some i' /\ current_state i' = name) /\
    (forall x, x <> m -> current_state <$> heap s' !! x = current_state <$> heap s !! x).

#[export] Instance keeps_lists_pre : PreOrder keeps_lists.
Proof.
  split.
  - intros s x i E. by exists i.
  - intros s1 s2 s3 A B x i E. destruct (A x i E) as (i2 & E2 & F2 & P2 & L2).
    destruct (B x i2 E2) as (i3 & E3 & F3 & P3 & L3). exists i3. split; [done |]. unfold same_list in *. split; [|split]; congruence.
Qed.
#[export] Instance keeps_states_pre : PreOrder keeps_states.
Proof. split; [by intros s x |]. intros s1 s2 s3 A B x. by rewrite B, A. Qed.

(** A step that changes neither: only the links and the log. *)
Definition quiet_step (c : NM unit) (need : Store -> Prop) : Prop :=
  forall s, need s -> exists s', c s = Ok (tt, s') /\ keeps_lists s s' /\ keeps_states s s'.
Lemma keeps_modify m f i s : heap s !! m = Some i -> same_list i (f i) -> current_state (f i) = current_state i ->
  keeps_lists s (with_heap (<[m := f i]> (heap s)) s) /\ keeps_states s (with_heap (<[m := f i]> (heap s)) s).
Proof.
  intros E L C. split.
  - intros x j Ex. cbn. destruct (decide (x = m)) as [->|N].
    + rewrite lookup_insert_eq. exists (f i). split; [done |]. by replace j with i by congruence.
    + rewrite lookup_insert_ne by done. by exists j.
  - intros x. cbn. destruct (decide (x = m)) as [->|N]; [by rewrite lookup_insert_eq, E; cbn; rewrite C | by rewrite lookup_insert_ne].
Qed.
Lemma quiet_modify m f : (forall i, same_list i (f i)) -> (forall i, current_state (f i) = current_state i) ->
  quiet_step (modify m f) (fun s => is_Some (heap s !! m)).
Proof.
  intros L C s [i E]. rewrite (modify_run m f i s E). eexists. split; [done |]. by apply keeps_modify.
Qed.
Lemma quiet_emit e : quiet_step (emit e) (fun _ => True).
Proof. intros s _. eexists. split; [done |]. split; [intros x i E; by exists i | by intros x]. Qed.
Lemma live_keeps s s' x : keeps_lists s s' -> is_Some (heap s !! x) -> is_Some (heap s' !! x).
Proof. intros K [i E]. destruct (K x i E) as (i' & -> & _). eauto. Qed.
(** Sequencing two quiet steps that need the same machines. *)
Lemma quiet_seq c1 c2 (need : Store -> Prop) : (forall s s', keeps_lists s s' -> need s -> need s') ->
  quiet_step c1 need -> quiet_step c2 need -> quiet_step (sbind c1 (fun _ => c2)) need.
Proof.
  intros Mono A B s N. destruct (A s N) as (s1 & R1 & K1 & S1).
  destruct (B s1 (Mono _ _ K1 N)) as (s2 & R2 & K2 & S2).
  exists s2. rewrite (sbind_run _ _ _ _ _ R1), R2. split; [done |]. split; by etransitivity.
Qed.
Definition two (l m : ptr) (s : Store) : Prop := is_Some (heap s !! l) /\ is_Some (heap s !! m).
Lemma two_mono l m s s' : keeps_lists s s' -> two l m s -> two l m s'.
Proof. intros K [A B]. split; by eapply live_keeps. Qed.
Lemma quiet_weaken c (need need' : Store -> Prop) : (forall s, need' s -> need s) -> quiet_step c need -> quiet_step c need'.
Proof. intros W A s N. by apply A, W. Qed.

Section Quiet.
Lemma quiet_addDependancy m d : quiet_step (addDependancy m d) (fun s => is_Some (heap s !! m)).
Proof.
  unfold addDependancy. case_bool_decide; [intros s _; by exists s |]. by apply quiet_modify.
Qed.
Lemma quiet_removeDependancy m d : quiet_step (removeDependancy m d) (fun s => is_Some (heap s !! m)).
Proof.
  unfold removeDependancy. case_bool_decide; [intros s _; by exists s |]. by apply quiet_modify.
Qed.
Lemma live_mono m s s' : keeps_lists s s' -> is_Some (heap s !! m) -> is_Some (heap s' !! m).
Proof. apply live_keeps. Qed.
Lemma quiet_flags m : quiet_step (sbind (emit (EFlush m)) (fun _ => emit (ENeedsCheck m))) (fun s => is_Some (heap s !! m)).
Proof. apply quiet_seq; [apply live_mono | |]; by eapply quiet_weaken; [|apply quiet_emit]. Qed.
Lemma quiet_listenTo m d : quiet_step (listenTo m d) (fun s => is_Some (heap s !! m)).
Proof.
  intros s Hm. pose proof Hm as [i E]. unfold listenTo. rewrite (sbind_run _ _ _ _ _ (get_run m i s E)).
  case_bool_decide; [by exists s |].
  apply (quiet_seq (modify m (set_listens ({[d]} ∪ listens i))) _ (fun s => is_Some (heap s !! m)));
    [apply live_mono | by apply quiet_modify | apply quiet_flags | done].
Qed.
Lemma quiet_stopListening m d : quiet_step (stopListening m d) (fun s => is_Some (heap s !! m)).
Proof.
  apply quiet_seq; [apply live_mono | by apply quiet_modify | apply quiet_flags].
Qed.
End Quiet.

(** ** The state of a list follows its contents *)

(** A LIST is in the state that says whether it has entries. *)
Definition list_ok (i : MachineInstance) : Prop :=
  i_type (fixed i) = "LIST" -> current_state i = if bool_decide (parameters i = []) then "empty" else "nonempty".
(** The class of a LIST has the two states. *)
Definition has_list_states (i : MachineInstance) : Prop :=
  exists c, state_machine (fixed i) = Some c /\
    (i_type (fixed i) = "LIST" -> "empty" ∈ c_states c /\ "nonempty" ∈ c_states c).
(** Every machine but [l] keeps its list and its state, and none is new. *)
Definition others_keep (l : ptr) (s s' : Store) : Prop :=
  forall x, x <> l ->
    match heap s !! x, heap s' !! x with
    | Some j, Some j' => same_list j j' /\ current_state j' = current_state j
    | None, None => True
    | _, _ => False
    end.

Lemma others_of l s s' : keeps_lists s s' ->
  (forall x, x <> l -> current_state <$> heap s' !! x = current_state <$> heap s !! x) -> others_keep l s s'.
Proof.
  intros K S x N. specialize (S x N). destruct (heap s !! x) as [j|] eqn:E.
  - destruct (K x j E) as (j' & E' & L). rewrite E' in S |- *. split; [done |]. by injection S.
  - by destruct (heap s' !! x).
Qed.
Lemma others_quiet l s s' : keeps_lists s s' -> keeps_states s s' -> others_keep l s s'.
Proof. intros K S. apply others_of; [done |]. intros x _. apply S. Qed.
Lemma others_trans l s1 s2 s3 : others_keep l s1 s2 -> others_keep l s2 s3 -> others_keep l s1 s3.
Proof.
  intros A B x N. specialize (A x N). specialize (B x N). unfold same_list in *.
  destruct (heap s1 !! x), (heap s2 !! x), (heap s3 !! x); try done. naive_solver congruence.
Qed.
Lemma others_insert l s i : others_keep l s (with_heap (<[l := i]> (heap s)) s).
Proof. intros x N. cbn. rewrite lookup_insert_ne by done. by destruct (heap s !! x). Qed.
Lemma place_nonempty {A} (p : A) pos before l ps : place p pos before l = Ok ps -> ps <> [].
Proof.
  unfold place, insert_at. intros P. repeat (case_match; res_inv); intros E;
    apply (f_equal length) in E; rewrite ?length_app in E; cbn in E; lia.
Qed.

Section Changing.
Context `{DynEnv} `{Clock} `{SC : StateControl} `{!SteadyControl}.
Variable ct : ClockworkToken.

(** The end of a change to the list [l]: the state it asks for, if it is a LIST
    that is not in it, and the two calls that follow. *)
Lemma settle l i c (wanted : bool) state s : heap s !! l = Some i -> state_machine (fixed i) = Some c ->
  (wanted = true -> i_type (fixed i) = "LIST" /\ state ∈ c_states c) ->
  exists s' i', sbind (if wanted && negb (bool_decide (current_state i = state)) then setState l state else sret tt)
      (fun _ => sbind (emit (ENeedsCheck l)) (fun _ => emit (ENotify l))) s = Ok (tt, s') /\
    heap s' !! l = Some i' /\ same_list i i' /\
    current_state i' = (if wanted then state else current_state i) /\ others_keep l s s'.
Proof.
  intros E C W.
  assert (Fin : forall s1 i1, heap s1 !! l = Some i1 -> same_list i i1 -> others_keep l s s1 -> exists s' i',
    sbind (emit (ENeedsCheck l)) (fun _ => emit (ENotify l)) s1 = Ok (tt, s') /\
    heap s' !! l = Some i' /\ same_list i i' /\ current_state i' = current_state i1 /\ others_keep l s s').
  { intros s1 i1 E1 L1 O1. eexists _, i1. split; [done |]. by repeat split; try apply L1. }
  destruct wanted; cbn [andb].
  - destruct (W eq_refl) as [T St]. case_bool_decide as Cs; cbn [negb].
    + rewrite (sbind_run _ _ s tt s) by done.
      destruct (Fin s i E) as (s' & i' & R & E' & L' & C' & O'); [done | by apply others_quiet |].
      exists s', i'. by rewrite C', Cs in *.
    + destruct (steady_setState l i c state s E C St) as (s1 & R & K & (i1 & E1 & C1) & O).
      rewrite (sbind_run _ _ _ _ _ R). destruct (K l i E) as (i1' & E1' & L1). replace i1' with i1 in * by congruence.
      destruct (Fin s1 i1 E1 L1) as (s' & i' & R' & E' & L' & C' & O').
      { by apply others_of. }
      exists s', i'. by rewrite C', C1 in *.
  - rewrite (sbind_run _ _ s tt s) by done.
    destruct (Fin s i E) as (s' & i' & R & E' & L' & C' & O'); [done | by apply others_quiet |]. by exists s', i'.
Qed.

Lemma addParameter_run l p mi pos before i ps s : heap s !! l = Some i -> has_list_states i ->
  (forall m, mi = Some m -> is_Some (heap s !! m)) -> place p pos before (parameters i) = Ok ps ->
  exists s' i', addParameter l p mi pos before s = Ok (tt, s') /\ heap s' !! l = Some i' /\
    fixed i' = fixed i /\ parameters i' = ps /\ list_ok i' /\ others_keep l s s'.
Proof.
  intros E (c & C & St) Hm P. unfold addParameter.
  rewrite (sbind_run _ _ _ _ _ (get_run l i s E)), (slift_run _ _ _ _ P), (sbind_run _ _ _ _ _ (modify_run l _ i s E)).
  set (s1 := with_heap _ s). set (i1 := set_parameters ps i).
  assert (E1 : heap s1 !! l = Some i1) by apply lookup_insert_eq.
  assert (O1 : others_keep l s s1) by apply others_insert.
  assert (Q : exists s2, match mi with
      | Some m => sbind (addDependancy l m) (fun _ => sbind (listenTo l m) (fun _ =>
                    sbind (addDependancy m l) (fun _ => listenTo m l)))
      | None => sret tt end s1 = Ok (tt, s2) /\ keeps_lists s1 s2 /\ keeps_states s1 s2).
  { destruct mi as [m|]; [|by exists s1].
    apply (quiet_seq (addDependancy l m) _ (two l m)); [apply two_mono | | |].
    - eapply quiet_weaken; [|apply quiet_addDependancy]. by intros ? [].
    - apply quiet_seq; [apply two_mono | |].
      + eapply quiet_weaken; [|apply quiet_listenTo]. by intros ? [].
      + apply quiet_seq; [apply two_mono | |]; (eapply quiet_weaken; [|apply quiet_addDependancy || apply quiet_listenTo]; by intros ? []).
    - split; [by rewrite E1 |]. destruct (Hm m eq_refl) as [j Ej]. cbn.
      destruct (decide (m = l)) as [->|N]; [by rewrite lookup_insert_eq | by rewrite lookup_insert_ne, Ej]. }
  destruct Q as (s2 & R2 & K2 & S2). rewrite (sbind_run _ _ _ _ _ R2).
  destruct (K2 l i1 E1) as (i2 & E2 & F2 & P2 & L2). rewrite (sbind_run _ _ _ _ _ (get_run l i2 s2 E2)).
  pose proof (place_nonempty _ _ _ _ _ P) as Hne. cbn in F2, P2.
  destruct (settle l i2 c (bool_decide (i_type (fixed i2) = "LIST") && negb (bool_decide (parameters i2 = []))) "nonempty" s2)
    as (s3 & i3 & R3 & E3 & (F3 & P3 & _) & C3 & O3); [done | by rewrite F2 | |].
  { rewrite F2. intros [T _]%andb_true_iff. apply bool_decide_eq_true in T. split; [done | by apply St]. }
  exists s3, i3. split; [exact R3 |]. split; [done |]. split; [congruence |]. split; [congruence |]. split.
  - intros T. rewrite P3, P2. rewrite bool_decide_eq_false_2 by done. rewrite C3, P2.
    rewrite (bool_decide_eq_true_2 (i_type _ = _)) by (rewrite <- T; congruence).
    by rewrite bool_decide_eq_false_2.
  - eapply others_trans; [exact O1 |]. eapply others_trans; [by apply (others_quiet l s1 s2) | done].
Qed.

Lemma removeParameter_run l which i s : heap s !! l = Some i -> has_list_states i -> list_ok i ->
  (forall p m, p ∈ parameters i -> machine p = Some m -> is_Some (heap s !! m)) ->
  exists s' i', removeParameter l which s = Ok (tt, s') /\ heap s' !! l = Some i' /\ fixed i' = fixed i /\
    parameters i' = (if (0 <=? which) then delete (Z.to_nat which) (parameters i) else parameters i) /\
    list_ok i' /\ others_keep l s s'.
Proof.
  intros E (c & C & St) Lok Hm. unfold removeParameter. rewrite (sbind_run _ _ _ _ _ (get_run l i s E)).
  destruct (which <? 0) eqn:W1; cbn [orb].
  { exists s, i. split; [done |]. replace (0 <=? which) with false by lia.
    by repeat (split; [done |]); apply others_quiet. }
  replace (0 <=? which) with true by lia.
  destruct (_ <=? which) eqn:W2.
  { exists s, i. split; [done |]. rewrite delete_take_drop, take_ge, drop_ge, app_nil_r by lia. by repeat (split; [done |]); apply others_quiet. }
  destruct (lookup_lt_is_Some_2 (parameters i) (Z.to_nat which)) as [p Hp]; [lia |].
  rewrite Hp. cbn [rd]. rewrite (slift_run _ _ _ _ eq_refl).
  assert (Q : exists s2, match machine p with
      | Some m => sbind (removeDependancy m l) (fun _ => sbind (stopListening m l) (fun _ =>
                    sbind (removeDependancy l m) (fun _ => stopListening l m)))
      | None => sret tt end s = Ok (tt, s2) /\ keeps_lists s s2 /\ keeps_states s s2).
  { destruct (machine p) as [m|] eqn:M; [|by exists s].
    apply (quiet_seq (removeDependancy m l) _ (two l m)); [apply two_mono | | |].
    - eapply quiet_weaken; [|apply quiet_removeDependancy]. by intros ? [].
    - apply quiet_seq; [apply two_mono | |].
      + eapply quiet_weaken; [|apply quiet_stopListening]. by intros ? [].
      + apply quiet_seq; [apply two_mono | |]; (eapply quiet_weaken; [|apply quiet_removeDependancy || apply quiet_stopListening]; by intros ? []).
    - split; [by rewrite E |]. by apply (Hm p); [apply list_elem_of_lookup_2 with (Z.to_nat which) |]. }
  destruct Q as (s2 & R2 & K2 & S2). rewrite (sbind_run _ _ _ _ _ R2).
  destruct (K2 l i E) as (i2 & E2 & F2 & P2 & L2).
  assert (C2 : current_state i2 = current_state i) by (specialize (S2 l); rewrite E, E2 in S2; by injection S2).
  rewrite (sbind_run _ _ _ _ _ (modify_run l _ i2 s2 E2)).
  set (s3 := with_heap _ s2). set (i3 := set_parameters (delete (Z.to_nat which) (parameters i2)) i2).
  assert (E3 : heap s3 !! l = Some i3) by apply lookup_insert_eq.
  rewrite (sbind_run _ _ _ _ _ (get_run l i3 s3 E3)).
  destruct (settle l i3 c (bool_decide (i_type (fixed i3) = "LIST") && bool_decide (parameters i3 = [])) "empty" s3)
    as (s4 & i4 & R4 & E4 & (F4 & P4 & _) & C4 & O4); [done | by cbn; rewrite F2 | |].
  { cbn. rewrite F2. intros [T _]%andb_true_iff. apply bool_decide_eq_true in T. split; [done | by apply St]. }
  exists s4, i4. split; [exact R4 |]. split; [done |]. split; [by rewrite F4; cbn |].
  split; [by rewrite P4; cbn; rewrite P2 |]. split.
  - intros T. assert (T2 : i_type (fixed i3) = "LIST") by (by rewrite <- F4). cbn in T2.
    rewrite P4, C4. cbn. rewrite (bool_decide_eq_true_2 (i_type _ = _)) by done. cbn.
    destruct (bool_decide (delete _ _ = [])) eqn:D; [done |]. apply bool_decide_eq_false in D. rewrite C2, Lok by (by rewrite <- F2). rewrite P2 in D.
    rewrite bool_decide_eq_false_2; [done |]. intros Hnil. apply D. rewrite Hnil. by destruct (Z.to_nat which).
  - eapply others_trans; [by apply (others_quiet l s s2) |].
    eapply others_trans; [apply others_insert | exact O4].
Qed.
End Changing.

(** ** Histories of changes *)
Section Histories.
Context `{DynEnv} `{Clock} `{SC : StateControl} `{!SteadyControl}.

(** Every list is in the state its contents ask for, and its entries lead to
    machines. *)
Definition lists_ok (s : Store) : Prop :=
  forall x i, heap s !! x = Some i -> has_list_states i /\ list_ok i /\
    (forall p m, p ∈ parameters i -> machine p = Some m -> is_Some (heap s !! m)).
(** One change to some list: an entry added at some position (a negative one in
    front of the last entry only when there is one), or removed. *)
Inductive list_step (s s' : Store) : Prop :=
| step_add l p pos before : is_Some (heap s !! l) -> (forall m, machine p = Some m -> is_Some (heap s !! m)) ->
    addParameter l p (machine p) pos before s = Ok (tt, s') -> list_step s s'
| step_remove l which : is_Some (heap s !! l) -> removeParameter l which s = Ok (tt, s') -> list_step s s'.

(** Wherever it is put, the entry is added to those that were there. *)
Lemma place_perm {A} (p : A) pos before l ps : place p pos before l = Ok ps -> ps ≡ₚ p :: l.
Proof.
  assert (I : forall k, insert_at k p l ≡ₚ p :: l).
  { intros k. unfold insert_at. by rewrite <- Permutation_middle, take_drop. }
  assert (B : l ++ [p] ≡ₚ p :: l) by (by rewrite Permutation_app_comm).
  unfold place. intros P. repeat (case_match; res_inv); auto.
Qed.

Lemma others_lists_ok l s s' : others_keep l s s' -> lists_ok s -> is_Some (heap s !! l) ->
  (exists i', heap s' !! l = Some i' /\ has_list_states i' /\ list_ok i' /\
    (forall p m, p ∈ parameters i' -> machine p = Some m -> is_Some (heap s !! m))) -> lists_ok s'.
Proof.
  intros O W Hl (il & El & Hl1 & Hl2 & Hl3) x i' E'.
  assert (Live : forall m, is_Some (heap s !! m) -> is_Some (heap s' !! m)).
  { intros m [j Ej]. destruct (decide (m = l)) as [->|N]; [by rewrite El |].
    specialize (O m N). rewrite Ej in O. by destruct (heap s' !! m). }
  destruct (decide (x = l)) as [->|N].
  { replace i' with il by congruence. split; [done |]. split; [done |]. eauto. }
  specialize (O x N). rewrite E' in O. destruct (heap s !! x) as [j|] eqn:Ej; [|done].
  destruct O as [(F & P & _) C]. destruct (W x j Ej) as (A & B & L).
  split; [by unfold has_list_states in *; rewrite F |].
  split; [unfold list_ok in *; by rewrite F, P, C |]. rewrite P. eauto.
Qed.

Lemma list_step_ok s s' : lists_ok s -> list_step s s' -> lists_ok s'.
Proof.
  intros W [l p pos before [i E] Hp R | l which [i E] R]; destruct (W l i E) as (A & B & L).
  - assert (exists ps, place p pos before (parameters i) = Ok ps) as [ps P].
    { unfold addParameter in R. rewrite (sbind_run _ _ _ _ _ (get_run l i s E)) in R. res_inv. eauto. }
    destruct (addParameter_run l p (machine p) pos before i ps s E A Hp P) as (s1 & i1 & R1 & E1 & F1 & P1 & L1 & O1).
    rewrite R in R1. injection R1 as <-. eapply others_lists_ok; [done | done | by rewrite E |].
    exists i1. split; [done |]. split; [by unfold has_list_states in *; rewrite F1 |]. split; [done |].
    intros q m Hq Hm. rewrite P1, (place_perm _ _ _ _ _ P) in Hq.
    apply elem_of_cons in Hq as [-> | Hq]; [by apply Hp | by eapply L].
  - destruct (removeParameter_run l which i s E A B L) as (s1 & i1 & R1 & E1 & F1 & P1 & L1 & O1).
    rewrite R in R1. injection R1 as <-. eapply others_lists_ok; [done | done | by rewrite E |].
    exists i1. split; [done |]. split; [by unfold has_list_states in *; rewrite F1 |]. split; [done |].
    intros q m Hq Hm. rewrite P1 in Hq. apply (L q m); [|done]. destruct (0 <=? which); [|done].
    rewrite delete_take_drop in Hq. rewrite <- (take_drop (Z.to_nat which) (parameters i)).
    apply elem_of_app in Hq as [Hq | Hq]; apply elem_of_app; [by left | right].
    apply list_elem_of_lookup in Hq as [k Hk]. rewrite lookup_drop in Hk.
    apply list_elem_of_lookup_2 with (S k). by rewrite lookup_drop, <- Hk; f_equal; lia.
Qed.

(** Where an entry can be put: in front of the last entry only when there is one, and
    after an entry whose number is not the largest [int]. *)
Lemma place_defined {A} (p : A) pos before l : pos < INT_MAX -> (pos < 0 -> before = true -> l <> []) ->
  exists ps, place p pos before l = Ok ps.
Proof.
  intros Hp Hn. unfold place. destruct (Z.ltb_spec pos 0).
  - destruct before; [|by eexists]. destruct l; [by destruct (Hn ltac:(lia) eq_refl) | by eexists].
  - destruct before; cbn [mbind res_bind]; [by eexists |]. unfold int_of, INT_MAX in *.
    rewrite (proj2 (in_int_spec (pos + 1))) by (unfold INT_MIN, INT_MAX; lia). by eexists.
Qed.

(** C34: the state of a list says whether it has entries: from a store in which
    every LIST is in "nonempty" when it has entries and in "empty" when it has
    none, with its entries leading to machines, any history of entries added and
    removed, on any lists, leads to such a store. In such a store removing an entry
    always returns, and so does adding one, in front of the last entry only when there
    is one; the list then has one more entry, put where [place] says. The change of
    state these operations ask for is assumed to lead to that state and to leave all
    lists and the states of other machines alone ([SteadyControl]). *)
Theorem list_state_follows s s' : lists_ok s -> rtc list_step s s' ->
  lists_ok s' /\ forall l i, heap s' !! l = Some i ->
    (forall which, exists s'', removeParameter l which s' = Ok (tt, s'')) /\
    (forall p pos before, (forall m, machine p = Some m -> is_Some (heap s' !! m)) ->
      pos < INT_MAX -> (pos < 0 -> before = true -> parameters i <> []) ->
      exists s'' i'', addParameter l p (machine p) pos before s' = Ok (tt, s'') /\
        heap s'' !! l = Some i'' /\ place p pos before (parameters i) = Ok (parameters i'') /\
        parameters i'' ≡ₚ p :: parameters i).
Proof.
  intros W R. assert (W' : lists_ok s') by (induction R; eauto using list_step_ok).
  split; [done |]. intros l i E. destruct (W' l i E) as (A & B & L). split.
  - intros which. destruct (removeParameter_run l which i s' E A B L) as (s1 & i1 & R1 & _). eauto.
  - intros p pos before Hp Hmax Hneg. destruct (place_defined p pos before (parameters i) Hmax Hneg) as [ps P].
    destruct (addParameter_run l p (machine p) pos before i ps s' E A Hp P) as (s1 & i1 & R1 & E1 & _ & P1 & _).
    exists s1, i1. rewrite P1. split; [done |]. split; [done |]. split; [done | by eapply place_perm].
Qed.
End Histories.
