(* ===== verification/SetsProps.v ===== *)
(** Set operations, sorting and bit sets of lists (StoreActions.v,
    SetOperations.v), with the places where the code does not do what it is
    meant to.
    Bit sets of lists: what BITSET computes, bit by bit, and SET ENTRIES OF ...
    FROM BITSET as its inverse (DynamicValues.v, StoreActions.v). *)
From S2P Require Import Prelude Cnum Tokeniser Value ValueOps ValueProps SymbolTable Message Machine Names Properties NamesProps PropertiesProps Lists DynamicValues StoreActions SetOperations DynamicValuesProps ListsProps.
Open Scope Z_scope.

(** ** Lists of numbers *)
Definition is_number_entry (p : Param) (z : Z) : Prop := number (base (val p)) z.
(** The list [l] holds the numbers [zs]. *)
Definition holds_numbers (s : Store) (l : ptr) (zs : list Z) : Prop :=
  exists i, heap s !! l = Some i /\ Forall2 is_number_entry (parameters i) zs.

(** Adding what is missing, in order. *)
Definition add_missing (zs : list Z) (z : Z) : list Z := if bool_decide (z ∈ zs) then zs else zs ++ [z].
Definition merge_numbers (zs ys : list Z) : list Z := fold_left add_missing ys zs.

Lemma merge_cons zs y ys : merge_numbers zs (y :: ys) = merge_numbers (add_missing zs y) ys.
Proof. done. Qed.
Lemma merge_elem zs ys z : z ∈ merge_numbers zs ys <-> z ∈ zs \/ z ∈ ys.
Proof.
  revert zs. induction ys as [|y ys IH]; intros zs; [cbn; set_solver |]. rewrite merge_cons, IH. unfold add_missing.
  case_bool_decide; set_solver.
Qed.
Lemma merge_nodup zs ys : NoDup zs -> NoDup (merge_numbers zs ys).
Proof.
  revert zs. induction ys as [|y ys IH]; intros zs N; [done |]. rewrite merge_cons. apply IH. unfold add_missing.
  case_bool_decide; [done |]. apply list.NoDup_app. split; [done |]. split; [set_solver | apply NoDup_singleton].
Qed.
Lemma merge_prefix zs ys : zs `prefix_of` merge_numbers zs ys.
Proof.
  revert zs. induction ys as [|y ys IH]; intros zs; [done |]. rewrite merge_cons.
  transitivity (add_missing zs y); [|apply IH]. unfold add_missing. case_bool_decide; [done | by apply prefix_app_r].
Qed.

Section Union.
Context `{DynEnv} `{Clock} `{SC : StateControl} `{!SteadyControl} `{Printer}.
Variable ct : ClockworkToken.

Lemma value_eq_numbers v w x y : number v x -> number w y -> value_eq v w = Ok (x =? y).
Proof.
  intros Nv Nw. unfold value_eq, coerced. pose proof Nv as [Kv _]. pose proof Nw as [Kw _].
  rewrite Kv, Kw. cbn. by rewrite (asInteger_number v x None Nv), (asInteger_number w y None Nw).
Qed.
Lemma includes_numbers ps zs v z : Forall2 is_number_entry ps zs -> number v z ->
  includes_value v ps = Ok (bool_decide (z ∈ zs)).
Proof.
  intros F Nv. induction F as [|p x ps zs Hp F IH]; cbn [includes_value]; [done |].
  rewrite (value_eq_numbers _ _ _ _ Hp Nv). cbn. destruct (x =? z) eqn:E.
  - f_equal. symmetry. apply bool_decide_eq_true_2. apply Z.eqb_eq in E. set_solver.
  - rewrite IH. f_equal. apply bool_decide_ext. apply Z.eqb_neq in E. set_solver.
Qed.

(** The other lists are untouched, and stay well formed. *)
Record union_step (d : ptr) (s s' : Store) : Prop := {
  us_ok : lists_ok s';
  us_others : others_keep d s s'
}.
Lemma holds_other d l zs s s' : others_keep d s s' -> l <> d -> holds_numbers s l zs -> holds_numbers s' l zs.
Proof.
  intros O N (i & E & F). specialize (O l N). rewrite E in O. destruct (heap s' !! l) as [j|] eqn:E'; [|done].
  destruct O as [(_ & P & _) _]. exists j. by rewrite P.
Qed.

Lemma add_number d v z zs s : lists_ok s -> holds_numbers s d zs -> number (base v) z ->
  exists s', addParameter_value ct d v None (-1) false s = Ok (tt, s') /\ holds_numbers s' d (zs ++ [z]) /\
    lists_ok s' /\ others_keep d s s'.
Proof.
  intros W (i & E & F) Nv. unfold addParameter_value. pose proof Nv as [Kv _]. rewrite Kv. cbn [Kind_eqb].
  destruct (W d i E) as (A & B & L).
  destruct (addParameter_run d (Param_of v) None (-1) false i (parameters i ++ [Param_of v]) s E A ltac:(done) eq_refl)
    as (s' & i' & R & E' & F' & P' & L' & O').
  exists s'. split; [exact R |]. split; [|split; [|done]].
  - exists i'. split; [done |]. rewrite P'. apply Forall2_app; [done |]. by constructor; [exact Nv | constructor].
  - eapply (list_step_ok s); [done |]. eapply (step_add s s' d (Param_of v) (-1) false); [by rewrite E | done | exact R].
Qed.

Lemma union_from_run owner from d : from <> d -> forall xs n k s ys zs, lists_ok s ->
  holds_numbers s from zs -> holds_numbers s d ys -> drop k zs = xs -> n = length xs ->
  exists s', union_from ct n k owner from d s = Ok (tt, s') /\ holds_numbers s' d (merge_numbers ys xs) /\
    lists_ok s' /\ others_keep d s s'.
Proof.
  intros Nd. induction xs as [|x xs IH]; intros n k s ys zs W Hf Hd Dr ->; cbn [length union_from merge_numbers fold_left].
  { exists s. split; [done |]. split; [done |]. split; [done |]. by apply others_quiet. }
  assert (Hx : zs !! k = Some x) by (rewrite <- (Nat.add_0_r k), <- lookup_drop, Dr; done).
  assert (Dr' : drop (S k) zs = xs).
  { replace (S k) with (k + 1)%nat by lia. by rewrite <- drop_drop, Dr. }
  pose proof Hf as (fi & Ef & Ff). destruct (Forall2_lookup_r _ _ _ _ _ Ff Hx) as (p & Hp & Np).
  unfold entry. unfold sbind at 1. rewrite (sbind_run _ _ _ _ _ (get_run from fi s Ef)), Hp. cbn [rd slift].
  assert (Sp : is_symbol p = false) by (unfold is_symbol; by rewrite (proj1 Np)). rewrite Sp.
  pose proof Hd as (di & Ed & Fd).
  assert (Step : exists s1, sbind (MachineIncludesParameter d (base (val p))) (fun here : bool => if here then sret tt
      else addParameter_value ct d (val p) None (-1) false) s = Ok (tt, s1) /\
      holds_numbers s1 d (add_missing ys x) /\ lists_ok s1 /\ others_keep d s s1).
  { unfold MachineIncludesParameter. unfold sbind at 1.
    rewrite (sbind_run _ _ _ _ _ (get_run d di s Ed)). unfold slift. rewrite (includes_numbers _ _ _ _ Fd Np).
    unfold add_missing. case_bool_decide.
    - exists s. split; [done |]. split; [done |]. split; [done |]. by apply others_quiet.
    - by apply add_number. }
  destruct Step as (s1 & R1 & Hn1 & W1 & O1). rewrite (sbind_run _ _ _ _ _ R1).
  destruct (IH (length xs) (S k) s1 (add_missing ys x) zs W1) as (s2 & R2 & Hn2 & W2 & O2); try done.
  { by eapply holds_other. }
  exists s2. split; [done |]. split; [done |]. split; [done |]. by eapply others_trans.
Qed.
Lemma union_source_run owner from d s ys zs : lists_ok s -> from <> d ->
  holds_numbers s from zs -> holds_numbers s d ys ->
  exists s', union_source ct owner (Some from) d s = Ok (tt, s') /\ holds_numbers s' d (merge_numbers ys zs) /\
    lists_ok s' /\ others_keep d s s'.
Proof.
  intros W N Hf Hd. unfold union_source. rewrite bool_decide_eq_false_2 by congruence.
  cbn [rd]. rewrite (slift_run _ _ _ _ eq_refl). pose proof Hf as (fi & Ef & Ff).
  unfold list_size. unfold sbind at 1. rewrite (sbind_run _ _ _ _ _ (get_run from fi s Ef)). cbn [sret].
  apply (union_from_run owner from d N zs (length (parameters fi)) 0 s ys zs); try done. by eapply Forall2_length.
Qed.

(** On lists of numbers, the union operation computes the union: the
    destination keeps its entries in their places, gets every number of the two
    sources it did not have, in their order, and nothing else; it has no
    duplicates if it had none; the sources do not change. What is left of the
    action is to write the contents to the property DEBUG. *)
Theorem union_of_numbers owner a b d s xs ys zs : lists_ok s -> a <> d -> b <> d ->
  holds_numbers s a xs -> holds_numbers s b ys -> holds_numbers s d zs ->
  exists s' ws, UnionSetOperation ct (Some a) (Some b) d owner s =
      sbind (debugParameterChange ct d) (fun _ => sret Complete) s' /\
    holds_numbers s' d ws /\ zs `prefix_of` ws /\ (forall z, z ∈ ws <-> z ∈ xs \/ z ∈ ys \/ z ∈ zs) /\
    (NoDup zs -> NoDup ws) /\ holds_numbers s' a xs /\ holds_numbers s' b ys.
Proof.
  intros W Na Nb Ha Hb Hd. unfold UnionSetOperation.
  destruct (union_source_run owner a d s zs xs W Na Ha Hd) as (s1 & R1 & Hn1 & W1 & O1).
  rewrite (sbind_run _ _ _ _ _ R1).
  destruct (union_source_run owner b d s1 _ ys W1 Nb (holds_other _ _ _ _ _ O1 Nb Hb) Hn1) as (s2 & R2 & Hn2 & W2 & O2).
  rewrite (sbind_run _ _ _ _ _ R2). exists s2, (merge_numbers (merge_numbers zs xs) ys).
  split; [done |]. split; [done |].
  split; [transitivity (merge_numbers zs xs); apply merge_prefix |].
  split; [intros z; rewrite !merge_elem; tauto |]. split; [intros; by apply merge_nodup, merge_nodup |].
  split; eapply holds_other; try done; by eapply holds_other.
Qed.
End Union.

(** ** Sorting *)
Definition key (p : Param) : Z := default 0 (iValue (base (val p))).
Definition is_integer (p : Param) : Prop := is_number_entry p (key p).
Lemma numbers_keys ps zs : Forall2 is_number_entry ps zs <-> zs = key <$> ps /\ Forall is_integer ps.
Proof.
  split.
  - induction 1 as [|p z ps zs [K I] F [-> IH]]; [done |].
    assert (Kp : key p = z) by (unfold key; by rewrite I). cbn. rewrite Kp. split; [done |].
    constructor; [|done]. unfold is_integer. by rewrite Kp.
  - intros [-> F]. induction F; cbn; by constructor.
Qed.

Lemma all_res_ok {A B} (f : A -> res B) l : (forall x, x ∈ l -> exists y, f x = Ok y) -> exists ys, all_res f l = Ok ys.
Proof.
  induction l as [|x l IH]; intros Hf; [by exists [] |]. destruct (Hf x ltac:(set_solver)) as [y Hy].
  destruct IH as [ys Hys]; [intros; apply Hf; set_solver |]. exists (y :: ys). cbn. by rewrite Hy, Hys.
Qed.
(** A comparison that is defined and a strict weak ordering sorts. *)
Lemma sort_with_run {A} `{StdSort} (cmp : A -> A -> res bool) (lt : A -> A -> bool) l :
  (forall x y, x ∈ l -> y ∈ l -> cmp x y = Ok (lt x y)) -> (forall x, lt x x = false) ->
  (forall x y z, lt x y = true -> lt y z = true -> lt x z = true) ->
  (forall x y z, lt x y = false -> lt y z = false -> lt x z = false) ->
  exists r, sort_with cmp l = Ok r /\ r ≡ₚ l /\
    forall i j x y, (i < j)%nat -> r !! i = Some x -> r !! j = Some y -> lt y x = false.
Proof.
  intros Hc Irr Tr Ntr. unfold sort_with.
  set (lt' := fun x y => match cmp x y with Ok b => b | _ => false end).
  assert (Hlt : forall x y, x ∈ l -> y ∈ l -> lt' x y = lt x y) by (intros x y Hx Hy; unfold lt'; by rewrite Hc).
  destruct (all_res_ok (fun x => all_res (cmp x) l) l) as [t Ht].
  { intros x Hx. apply all_res_ok. intros y Hy. eauto. }
  rewrite Ht. cbn [mbind res_bind].
  assert (S : strict_weak lt' l = true).
  { unfold strict_weak. rewrite andb_true_iff, !forallb_forall. split.
    - intros x Hx%list_elem_of_In. by rewrite Hlt, Irr.
    - intros x Hx%list_elem_of_In. rewrite forallb_forall. intros y Hy%list_elem_of_In.
      rewrite forallb_forall. intros z Hz%list_elem_of_In. rewrite !Hlt by done. specialize (Tr x y z). specialize (Ntr x y z).
      destruct (lt x y), (lt y z), (lt x z); cbn; naive_solver. }
  rewrite S. exists (std_sort lt' l). split; [done |]. pose proof (std_sort_perm lt' l) as P. split; [done |].
  intros i j x y Hij Hx Hy.
  assert (x ∈ l /\ y ∈ l) as [Ex Ey] by (split; rewrite <- P; by eapply list_elem_of_lookup_2).
  rewrite <- (Hlt y x Ey Ex). revert i j x y Hij Hx Hy Ex Ey. intros. eapply (std_sort_sorted lt' l); try done.
  - intros a Ha. by rewrite Hlt, Irr.
  - intros a b c Ha Hb Hc'. rewrite !Hlt by done. apply Tr.
  - intros a b c Ha Hb Hc'. rewrite !Hlt by done. apply Ntr.
Qed.

Section Sorting.
Context `{DynEnv} `{Clock} `{StdSort}.
Variable ct : ClockworkToken.

(** The log plays no part in the names. *)
Lemma found_by s m name l : store_ok s -> names_ok ct s -> is_Some (heap s !! m) -> resolve ct s m name = Some l ->
  forall e, exists s', lookup ct m name (with_events e s) = Ok (Some l, s') /\ same_names s s'.
Proof.
  intros W N [i E] R e. pose proof (same_emit s e) as S.
  destruct (lookup_n_run ct (String.length name) m name i (with_events e s) ltac:(lia)) as (s' & L & S' & _); try done.
  - by eapply store_ok_same.
  - by apply (names_quiet ct s); [split |].
  - exists s'. split; [|by etransitivity]. unfold lookup. rewrite L. do 2 f_equal. by rewrite <- R; apply resolve_n_same.
Qed.

(** Sorting a list of numbers sorts it: the action completes, the list holds
    the same numbers, and they are in ascending (or descending) order. The
    comparison it uses is a strict weak ordering of such a list, which
    [std::sort] requires. *)
Theorem sort_numbers s owner l list_name property ascending zs i : store_ok s -> names_ok ct s ->
  is_Some (heap s !! owner) -> resolve ct s owner list_name = Some l ->
  heap s !! l = Some i -> i_type (fixed i) = "LIST" -> holds_numbers s l zs ->
  exists s' ws, SortListAction ct list_name property ascending owner s = Ok (Complete, s') /\
    holds_numbers s' l ws /\ ws ≡ₚ zs /\
    forall j k x y, (j < k)%nat -> ws !! j = Some x -> ws !! k = Some y ->
      if ascending then x <= y else y <= x.
Proof.
  intros W N Ho R E T (i' & E' & F). replace i' with i in * by congruence. clear i' E'.
  apply numbers_keys in F as [-> F].
  unfold SortListAction, emit. unfold sbind at 1.
  destruct (found_by s owner list_name l W N Ho R (events s ++ [EStart owner])) as (s1 & L1 & S1).
  rewrite (sbind_run _ _ _ _ _ L1). destruct (same_inv _ _ _ _ S1 E) as (i1 & E1 & F1 & _ & P1 & _).
  unfold is_list. unfold sbind at 1. rewrite (sbind_run _ _ _ _ _ (get_run l i1 s1 E1)), <- F1, T. cbn [sret].
  rewrite bool_decide_eq_true_2, (sbind_run _ _ _ _ _ (get_run l i1 s1 E1)), <- P1 by done.
  destruct (parameters i) as [|p ps] eqn:Ps.
  { eexists _, []. split; [done |]. split; [|done]. exists i1. cbn. by rewrite E1, <- P1. }
  assert (Sp : is_symbol p = false) by (inversion F as [|? ? Hp]; unfold is_symbol; by rewrite (proj1 Hp)). rewrite Sp.
  assert (I : forallb (fun q => Kind_eqb (kind (base (val q))) t_integer) (p :: ps) = true).
  { apply forallb_forall. intros q Hq%list_elem_of_In. rewrite list.Forall_forall in F. by rewrite (proj1 (F q Hq)). }
  rewrite I. set (lt a b := if ascending then key a <? key b else key b <? key a).
  destruct (sort_with_run (NumericValueSorter ascending) lt (p :: ps)) as (r & Rs & Perm & Sorted).
  { intros a b Ha Hb. rewrite list.Forall_forall in F. pose proof (F a Ha) as Na. pose proof (F b Hb) as Nb.
    unfold NumericValueSorter. rewrite (proj1 Na), (proj1 Nb). cbn.
    by rewrite (asInteger_number _ _ None Na), (asInteger_number _ _ None Nb). }
  { intros a. unfold lt. destruct ascending; lia. }
  { intros a b c. unfold lt. destruct ascending; lia. }
  { intros a b c. unfold lt. destruct ascending; lia. }
  unfold sbind at 1, slift. rewrite Rs. rewrite (sbind_run _ _ _ _ _ (modify_run l _ i1 s1 E1)).
  eexists _, (key <$> r). split; [done |]. split.
  { eexists. cbn. rewrite lookup_insert_eq. split; [done |]. cbn. apply numbers_keys. split; [done |].
    by rewrite Perm. }
  split; [by rewrite Perm |]. intros j k x y Hjk Hx Hy.
  apply list_lookup_fmap_Some in Hx as (a & -> & Ha). apply list_lookup_fmap_Some in Hy as (b & -> & Hb).
  specialize (Sorted j k a b Hjk Ha Hb). unfold lt in Sorted. destruct ascending; lia.
Qed.
End Sorting.

(** ** Bits *)

(** The number whose binary digits are the list, the first the most significant. *)
Definition bits_value (bs : list bool) : Z := fold_left (fun a b => 2 * a + Z.b2z b) bs 0.
Lemma bits_value_snoc bs b : bits_value (bs ++ [b]) = 2 * bits_value bs + Z.b2z b.
Proof. unfold bits_value. by rewrite fold_left_app. Qed.
Lemma bits_value_range bs : 0 <= bits_value bs < 2 ^ Z.of_nat (length bs).
Proof.
  induction bs as [|b bs IH] using rev_ind; [done |]. rewrite bits_value_snoc, length_app. cbn [length].
  replace (Z.of_nat (length bs + 1)) with (Z.succ (Z.of_nat (length bs))) by lia. rewrite Z.pow_succ_r by lia.
  destruct b; cbn [Z.b2z]; lia.
Qed.
Lemma bits_value_testbit bs k b : bs !! k = Some b ->
  Z.testbit (bits_value bs) (Z.of_nat (length bs - 1 - k)) = b.
Proof.
  revert k. induction bs as [|c bs IH] using rev_ind; intros k Hk; [done |].
  rewrite bits_value_snoc, length_app. cbn [length]. pose proof (lookup_lt_Some _ _ _ Hk) as Hl. rewrite length_app in Hl. cbn in Hl.
  destruct (decide (k = length bs)) as [->|N].
  - rewrite lookup_app_r, Nat.sub_diag in Hk by lia. injection Hk as ->.
    replace (Z.of_nat _) with 0 by lia. apply Z.testbit_0_r.
  - rewrite lookup_app_l in Hk by lia. rewrite <- (IH k Hk).
    replace (Z.of_nat (length bs + 1 - 1 - k)) with (Z.succ (Z.of_nat (length bs - 1 - k))) by lia.
    by rewrite Z.testbit_succ_r by lia.
Qed.
(** The fold of the code keeps 64 bits. *)
Lemma bits_value_mod bs a : fold_left (fun a b => u64 (u64 (a * 2) + Z.b2z b)) bs (u64 a) =
  u64 (fold_left (fun a b => 2 * a + Z.b2z b) bs a).
Proof.
  revert a. induction bs as [|b bs IH]; intros a; [done |]. cbn [fold_left]. rewrite <- IH. f_equal.
  unfold u64. rewrite (Z.mul_mod_idemp_l a 2), Zplus_mod_idemp_l by lia. f_equal. lia.
Qed.
Lemma to_s64_testbit z j : 0 <= j < 64 -> Z.testbit (to_s64 z) j = Z.testbit z j.
Proof.
  intros Hj. rewrite <- (Z.mod_pow2_bits_low (to_s64 z) 64), <- (Z.mod_pow2_bits_low z 64) by lia. f_equal.
  unfold to_s64. rewrite Zminus_mod_idemp_l. f_equal. lia.
Qed.
Lemma to_s64_range z : LONG_MIN <= to_s64 z <= LONG_MAX.
Proof. unfold to_s64, LONG_MIN, LONG_MAX. pose proof (Z.mod_pos_bound (z + 2 ^ 63) (2 ^ 64)). lia. Qed.

(** ** BITSET *)
Section Bitset.
Context `{DynEnv} `{Clock}.
Variable ct : ClockworkToken.

(** The list [l] has the machines [xs] as entries. *)
Definition has_machines (s : Store) (l : ptr) (xs : list ptr) : Prop :=
  exists i, heap s !! l = Some i /\ machine <$> parameters i = Some <$> xs /\
    forall x, x ∈ xs -> is_Some (heap s !! x).
Lemma entry_bit_run s l xs state k x : has_machines s l xs -> xs !! k = Some x ->
  sbind (entry l k) (entry_bit state) s = Ok (is_in s state x, s).
Proof.
  intros (i & E & M & L) Hk. unfold entry. unfold sbind at 1.
  rewrite (sbind_run _ _ _ _ _ (get_run l i s E)).
  assert (Hp : exists p, parameters i !! k = Some p /\ machine p = Some x).
  { assert (Mk : (machine <$> parameters i) !! k = Some (Some x)) by (by rewrite M, list_lookup_fmap, Hk).
    rewrite list_lookup_fmap in Mk. destruct (parameters i !! k) as [p|]; [|done]. exists p. split; [done |]. by injection Mk. }
  destruct Hp as (p & Hp & Mp). rewrite Hp. cbn [rd slift]. unfold entry_bit. rewrite Mp.
  apply in_state_reads, L. by eapply list_elem_of_lookup_2.
Qed.

Lemma bitset_run s1 mi l xs state list_name s d : lookup ct mi list_name s = Ok (Some l, s1) ->
  has_machines s1 l xs ->
  BitsetValue ct state list_name mi d s =
    Ok (result (Value_ulong (u64 (bits_value (is_in s1 state <$> xs)))) (with_list (Some l) d), s1).
Proof.
  intros Lk Hm. unfold BitsetValue. rewrite (sbind_run _ _ _ _ _ Lk).
  pose proof Hm as (i & E & M & L). unfold list_size. unfold sbind at 1.
  rewrite (sbind_run _ _ _ _ _ (get_run l i s1 E)). cbn [sret].
  replace (length (parameters i)) with (length xs)
    by (rewrite <- (length_fmap machine), M, length_fmap; done).
  assert (B : forall j x b, xs !! j = Some x ->
    add_bit state l (0 + j) b s1 = slift (Ok (u64 (u64 (b * 2) + Z.b2z (is_in s1 state x)))) s1).
  { intros j x b Hj. pose proof (entry_bit_run s1 l xs state j x Hm Hj) as R. cbn [Nat.add].
    unfold add_bit, sbind in R |- *. destruct (entry l j s1) as [[p s']| |]; try done. rewrite R. cbn.
    by destruct (is_in s1 state x). }
  pose proof (fold_index_res (fun x b => Ok (u64 (u64 (b * 2) + Z.b2z (is_in s1 state x)))) (add_bit state l) s1 xs 0%nat 0 B) as F.
  unfold sbind at 1. rewrite F.
  assert (G : forall ys a, fold_res (fun x b => Ok (u64 (u64 (b * 2) + Z.b2z (is_in s1 state x)))) ys a =
    Ok (fold_left (fun a b => u64 (u64 (a * 2) + Z.b2z b)) (is_in s1 state <$> ys) a)).
  { induction ys as [|y ys IH]; intros a; [done |]. cbn. apply IH. }
  rewrite G. cbn [slift]. change 0 with (u64 0) at 1. by rewrite bits_value_mod.
Qed.

(** BITSET of a list of machines, bit by bit: the result is an integer in the
    range of [long]; the entry [k] of [n] is the bit [n - 1 - k], for the last 64
    entries; with at most 63 entries it is the number written by the bits, below
    [2 ^ n]. *)
Theorem bitset_bits mi state list_name d s l xs s1 : lookup ct mi list_name s = Ok (Some l, s1) ->
  has_machines s1 l xs ->
  exists d' z, BitsetValue ct state list_name mi d s = Ok (d', s1) /\ number (answer d') z /\
    LONG_MIN <= z <= LONG_MAX /\
    (forall k x, xs !! k = Some x -> (length xs - 1 - k < 64)%nat ->
      Z.testbit z (Z.of_nat (length xs - 1 - k)) = is_in s1 state x) /\
    ((length xs <= 63)%nat -> z = bits_value (is_in s1 state <$> xs) /\ 0 <= z < 2 ^ Z.of_nat (length xs)).
Proof.
  intros Lk Hm. eexists _, _. split; [by apply bitset_run |]. split; [done |].
  set (bs := is_in s1 state <$> xs). assert (Lb : length bs = length xs) by apply length_fmap.
  split; [apply to_s64_range |]. split.
  - intros k x Hk Hlt. rewrite to_s64_testbit by lia. unfold u64. rewrite Z.mod_pow2_bits_low by lia.
    rewrite <- Lb. apply bits_value_testbit. unfold bs. by rewrite list_lookup_fmap, Hk.
  - intros Hn. pose proof (bits_value_range bs) as Rg. rewrite Lb in Rg.
    assert (2 ^ Z.of_nat (length xs) <= 2 ^ 63) by (apply Z.pow_le_mono_r; lia).
    rewrite u64_small by lia. rewrite to_s64_small by (unfold LONG_MIN, LONG_MAX; lia). done.
Qed.
End Bitset.

(** ** SET ENTRIES OF ... FROM BITSET *)
Definition on_off (b : bool) : string := if b then "on" else "off".
Definition switches (s : Store) (xs : list ptr) : Prop :=
  forall x, x ∈ xs -> exists i c, heap s !! x = Some i /\ state_machine (fixed i) = Some c /\
    "on" ∈ c_states c /\ "off" ∈ c_states c.

Section RoundTrip.
Context `{DynEnv} `{Clock} `{SC : StateControl} `{!SteadyControl}.
Variable ct : ClockworkToken.

Lemma has_machines_keep s s' l xs : keeps_lists s s' -> has_machines s l xs -> has_machines s' l xs.
Proof.
  intros K (i & E & M & L). destruct (K l i E) as (i' & E' & _ & P & _). exists i'. rewrite P.
  split; [done |]. split; [done |]. intros x Hx. eapply live_keeps; eauto.
Qed.
Lemma switches_keep s s' xs : keeps_lists s s' -> switches s xs -> switches s' xs.
Proof.
  intros K S x Hx. destruct (S x Hx) as (i & c & E & C & A). destruct (K x i E) as (i' & E' & F & _).
  exists i', c. by rewrite F.
Qed.

Lemma setListEntries_run l xs : NoDup xs -> forall k bitmap s, (k <= length xs)%nat -> has_machines s l xs ->
  switches s xs ->
  exists s', setListEntries k l bitmap s = Ok (tt, s') /\ keeps_lists s s' /\
    (forall j x, (j < k)%nat -> xs !! j = Some x ->
      current_state <$> heap s' !! x = Some (on_off (Z.testbit bitmap (Z.of_nat (k - 1 - j))))) /\
    (forall x, (forall j, (j < k)%nat -> xs !! j <> Some x) ->
      current_state <$> heap s' !! x = current_state <$> heap s !! x).
Proof.
  intros N. induction k as [|k IH]; intros bitmap s Hk Hm Sw.
  { exists s. split; [done |]. split; [done |]. split; [intros; lia | done]. }
  destruct (lookup_lt_is_Some_2 xs k ltac:(lia)) as [x Hx].
  cbn [setListEntries]. pose proof Hm as (i & E & M & L).
  assert (Hp : exists p, parameters i !! k = Some p /\ machine p = Some x).
  { assert (Mk : (machine <$> parameters i) !! k = Some (Some x)) by (by rewrite M, list_lookup_fmap, Hx).
    rewrite list_lookup_fmap in Mk. destruct (parameters i !! k) as [p|]; [|done]. exists p. split; [done |]. by injection Mk. }
  destruct Hp as (p & Hp & Mp). unfold entry. unfold sbind at 1.
  rewrite (sbind_run _ _ _ _ _ (get_run l i s E)), Hp. cbn [rd slift]. rewrite Mp.
  destruct (Sw x ltac:(by eapply list_elem_of_lookup_2)) as (xi & c & Ex & C & On & Off).
  destruct (steady_setState x xi c (on_off (Z.odd bitmap)) s Ex C) as (s1 & R & K & (x1 & Ex1 & C1) & O).
  { by destruct (Z.odd bitmap). }
  change (if Z.odd bitmap then "on" else "off") with (on_off (Z.odd bitmap)).
  rewrite (sbind_run _ _ _ _ _ R).
  destruct (IH (bitmap / 2) s1 ltac:(lia)) as (s2 & R2 & K2 & S2 & O2);
    [by eapply has_machines_keep | by eapply switches_keep |].
  exists s2. split; [done |]. split; [by etransitivity |].
  assert (Fresh : forall j, (j < k)%nat -> xs !! j <> Some x).
  { intros j Hj Hjx. by assert (j = k) by (eapply NoDup_lookup; eauto); lia. }
  split.
  - intros j y Hj Hy. destruct (decide (j = k)) as [->|Nk].
    + replace y with x in * by congruence. rewrite O2 by done. rewrite Ex1. cbn [fmap option_fmap option_map].
      rewrite C1. replace (Z.of_nat (S k - 1 - k)) with 0 by lia. by rewrite Z.bit0_odd.
    + rewrite (S2 j y) by (lia || done). f_equal. unfold on_off. rewrite Z.div2_bits by lia.
      replace (Z.of_nat (S k - 1 - j)) with (Z.succ (Z.of_nat (k - 1 - j))) by lia. done.
  - intros y Hy. rewrite O2 by (intros j Hj; apply Hy; lia). apply O. intros ->. apply (Hy k); [lia | done].
Qed.
Lemma is_in_same s s' text x : same_names s s' -> is_in s' text x = is_in s text x.
Proof.
  intros S. unfold is_in. pose proof (f_equal (fun h => h !! x) (sn_heap _ _ S)) as L. cbv beta in L.
  rewrite !lookup_fmap in L. destruct (heap s !! x) as [i|], (heap s' !! x) as [i'|]; try done.
  assert (F : forget i = forget i') by (cbn in L; congruence).
  apply (f_equal current_state) in F. cbn in F. by rewrite F.
Qed.

(** SET ENTRIES OF a list FROM BITSET and BITSET are inverse: setting the
    states of the [n] distinct switches of a list from a number always completes,
    keeps every list, touches no other machine, and BITSET of the list for the
    state "on", evaluated by any machine that finds the list, gives back the last
    [n] bits of the number, for up to 63 switches. *)
Theorem bitset_roundtrip l xs bitmap s : NoDup xs -> has_machines s l xs -> switches s xs ->
  (length xs <= 63)%nat ->
  exists s', setListEntries (length xs) l bitmap s = Ok (tt, s') /\ keeps_lists s s' /\
    (forall x, x ∉ xs -> current_state <$> heap s' !! x = current_state <$> heap s !! x) /\
    forall mi list_name d s1, lookup ct mi list_name s' = Ok (Some l, s1) -> same_names s' s1 ->
      exists d', BitsetValue ct "on" list_name mi d s' = Ok (d', s1) /\
        number (answer d') (bitmap mod 2 ^ Z.of_nat (length xs)).
Proof.
  intros N Hm Sw Hn. destruct (setListEntries_run l xs N (length xs) bitmap s ltac:(lia) Hm Sw) as (s' & R & K & S & O).
  exists s'. split; [done |]. split; [done |]. split.
  { intros x Hx. apply O. intros j _ Hj. apply Hx. by eapply list_elem_of_lookup_2. }
  intros mi list_name d s1 Lk Sm.
  assert (Hm1 : has_machines s1 l xs).
  { destruct (has_machines_keep _ _ _ _ K Hm) as (i & E & M & L). destruct (same_inv _ _ _ _ Sm E) as (i' & E' & _ & _ & P & _).
    exists i'. rewrite <- P. split; [done |]. split; [done |]. intros x Hx. destruct (L x Hx) as [j Ej].
    destruct (same_inv _ _ _ _ Sm Ej) as (j' & -> & _). eauto. }
  destruct (bitset_bits ct mi "on" list_name d s' l xs s1 Lk Hm1) as (d' & z & B & Nz & _ & Bits & Small).
  exists d'. split; [done |]. destruct (Small Hn) as [_ Rz].
  replace (bitmap mod 2 ^ Z.of_nat (length xs)) with z; [done |].
  apply Z.bits_inj'. intros j Hj. destruct (Z.lt_ge_cases j (Z.of_nat (length xs))) as [Lt|Ge].
  - rewrite Z.mod_pow2_bits_low by lia. set (k := (length xs - 1 - Z.to_nat j)%nat).
    destruct (lookup_lt_is_Some_2 xs k ltac:(lia)) as [x Hx].
    pose proof (Bits k x Hx ltac:(lia)) as Bk. pose proof (S k x ltac:(lia) Hx) as Sk.
    replace (Z.of_nat (length xs - 1 - k)) with j in Bk, Sk by lia. rewrite Bk, (is_in_same s' s1) by done.
    unfold is_in. destruct (heap s' !! x) as [xi|]; [|done]. cbn in Sk. injection Sk as ->.
    by destruct (Z.testbit bitmap j).
  - rewrite Z.mod_pow2_bits_high by lia. rewrite <- (Z.mod_small z (2 ^ Z.of_nat (length xs))) by lia.
    by rewrite Z.mod_pow2_bits_high by lia.
Qed.
End RoundTrip.
