(* ===== verification/ListSamples.v ===== *)
(** Concrete surroundings for the lists: a control that only changes states, an
    insertion sort for [std::sort], sample lists; the witnesses of the theorems on
    lists; and inputs on which the list code misses what it is meant to do: TAKE LAST, the
    action that pops the last entry, the text INCLUDE writes, sorting by a
    property, and the set operations on lists of machines or of plain values. *)
From S2P Require Import Prelude Cnum Tokeniser Value ValueOps ValueProps SymbolTable Message Machine Names Properties NamesProps PropertiesProps Lists DynamicValues StoreActions SetOperations DynamicValuesProps ListsProps SetsProps.
From Stdlib Require Import Sorting.Sorted.
Open Scope Z_scope.

(** ** A control without handlers *)
Definition plain_control : StateControl := {|
  setState := fun m name => sbind (get m) (fun i =>
    match state_machine (fixed i) with
    | Some c => if bool_decide (name ∈ c_states c)
                then sbind (modify m (set_current name 0)) (fun _ => emit (EState m (current_state i) name))
                else emit (ELog m name)
    | None => emit (ELog m name)
    end)
|}.
Lemma plain_steady : @SteadyControl plain_control.
Proof.
  intros m i c name s E C Hn. cbn [setState plain_control].
  rewrite (sbind_run _ _ _ _ _ (get_run m i s E)), C, bool_decide_eq_true_2 by done.
  rewrite (sbind_run _ _ _ _ _ (modify_run m _ i s E)).
  eexists. split; [reflexivity |]. split; [|split].
  - intros x j Ex. cbn. destruct (decide (x = m)) as [->|N].
    + rewrite lookup_insert_eq. replace j with i by congruence. by eexists.
    + rewrite lookup_insert_ne by done. by exists j.
  - cbn. rewrite lookup_insert_eq. by eexists.
  - intros x N. cbn. by rewrite lookup_insert_ne.
Qed.
Definition plain_printer : Printer := {| show_dynamic := fun _ => "<dynamic>" |}.

(** ** An insertion sort *)
Fixpoint insert_sorted {A} (lt : A -> A -> bool) (x : A) (l : list A) : list A :=
  match l with
  | [] => [x]
  | y :: l' => if lt x y then x :: l else y :: insert_sorted lt x l'
  end.
Definition insertion_sort {A} (lt : A -> A -> bool) (l : list A) : list A := foldr (insert_sorted lt) [] l.
Lemma insert_sorted_perm {A} (lt : A -> A -> bool) x l : insert_sorted lt x l ≡ₚ x :: l.
Proof.
  induction l as [|y l IH]; cbn; [done |]. destruct (lt x y); [done |]. rewrite IH. apply Permutation_swap.
Qed.
Lemma insertion_sort_perm {A} (lt : A -> A -> bool) l : insertion_sort lt l ≡ₚ l.
Proof. induction l as [|x l IH]; cbn; [done |]. by rewrite insert_sorted_perm, IH. Qed.
Section Sorted.
Context {A : Type} (lt : A -> A -> bool) (P : A -> Prop).
Hypothesis irr : forall x, P x -> lt x x = false.
Hypothesis tr : forall x y z, P x -> P y -> P z -> lt x y = true -> lt y z = true -> lt x z = true.
Hypothesis ntr : forall x y z, P x -> P y -> P z -> lt x y = false -> lt y z = false -> lt x z = false.
Let R (x y : A) : Prop := lt y x = false.
Lemma insert_sorted_ok x l : P x -> Forall P l -> StronglySorted R l -> StronglySorted R (insert_sorted lt x l).
Proof.
  intros Px Pl S. induction S as [|y l S IH F]; cbn; [by repeat constructor |].
  apply Forall_cons_1 in Pl as [Py Pl]. destruct (lt x y) eqn:E.
  - assert (Ryx : R x y).
    { unfold R. destruct (lt y x) eqn:E'; [|done]. pose proof (tr x y x Px Py Px E E') as T. by rewrite irr in T. }
    constructor; [by constructor |]. constructor; [done |].
    rewrite list.Forall_forall in F, Pl |- *. intros z Hz. unfold R in *. eapply (ntr z y x); eauto.
  - constructor; [by apply IH |]. rewrite list.Forall_forall in F |- *. intros z Hz.
    rewrite insert_sorted_perm in Hz. apply elem_of_cons in Hz as [-> | Hz]; [done | by apply F].
Qed.
Lemma insertion_sort_ok l : Forall P l -> StronglySorted R (insertion_sort lt l).
Proof.
  induction 1 as [|x l Px Pl IH]; cbn; [constructor |]. apply insert_sorted_ok; try done.
  change (foldr (insert_sorted lt) [] l) with (insertion_sort lt l). by rewrite insertion_sort_perm.
Qed.
End Sorted.
Lemma strongly_sorted_lookup {A} (R : A -> A -> Prop) l i j x y : StronglySorted R l -> (i < j)%nat ->
  l !! i = Some x -> l !! j = Some y -> R x y.
Proof.
  intros S. revert i j. induction S as [|z l S IH F]; intros i j Hij Hx Hy; [done |].
  destruct j as [|j]; [lia |]. cbn in Hy. destruct i as [|i]; cbn in Hx.
  - injection Hx as ->. rewrite list.Forall_forall in F. apply F. by eapply list_elem_of_lookup_2.
  - apply (IH i j); [lia | done | done].
Qed.
Definition simple_sort : StdSort.
Proof.
  refine {| std_sort := @insertion_sort; std_sort_perm := @insertion_sort_perm |}.
  intros A lt l irr tr ntr i j x y Hij Hx Hy.
  exact (strongly_sorted_lookup _ _ i j x y
    (insertion_sort_ok lt (fun x => x ∈ l) irr tr ntr l ltac:(by apply list.Forall_forall)) Hij Hx Hy).
Defined.

(** ** Sample lists *)
Definition lists_okb (s : Store) : bool :=
  bool_decide (map_Forall (fun _ i =>
    match state_machine (fixed i) with
    | Some c =>
        (negb (bool_decide (i_type (fixed i) = "LIST")) ||
         (bool_decide ("empty" ∈ c_states c) && bool_decide ("nonempty" ∈ c_states c) &&
          bool_decide (current_state i = if bool_decide (parameters i = []) then "empty" else "nonempty"))) &&
        forallb (fun p => live s (machine p)) (parameters i)
    | None => false
    end = true) (heap s)).
Lemma lists_okb_ok s : lists_okb s = true -> lists_ok s.
Proof.
  unfold lists_okb. rewrite bool_decide_eq_true. intros F x i E. specialize (F x i E). cbv beta in F.
  destruct (state_machine (fixed i)) as [c|] eqn:C; [|done]. apply andb_true_iff in F as [T L].
  split; [|split].
  - exists c. split; [done |]. intros Ty. rewrite bool_decide_eq_true_2 in T by done. cbn in T.
    rewrite !andb_true_iff, !bool_decide_eq_true in T. tauto.
  - intros Ty. rewrite (bool_decide_eq_true_2 (i_type _ = _)) in T by done. cbn in T.
    rewrite !andb_true_iff in T. destruct T as [_ T]. by apply bool_decide_eq_true in T.
  - intros p m. by apply live_list.
Qed.

Definition list_class : MachineClass := sample_class "LIST" (tokLIST ct0) ["empty"; "nonempty"].
Definition list_of (name : string) (ps : list Param) : MachineInstance :=
  sample_machine (sample_fixed name "LIST" list_class) ps (match ps with [] => "empty" | _ => "nonempty" end).
Definition num (z : Z) : Param := Param_of (plain (Value_long z)).
Definition switch (name : string) : MachineInstance :=
  sample_machine (sample_fixed name "FLAG" (sample_class "FLAG" 102 ["on"; "off"])) [] "off".
Definition text_entry (s : string) : Param := Param_of (plain (mkString t_string s 0)).
(** Lists of numbers [a], [b], [d]; the list [flags] of two switches; the list
    [doors] of the two doors and the list [some] of one of them. *)
Definition lists_store : Store :=
  mkStore (list_to_map
    [(1%positive, list_of "a" [num 3; num 1]); (2%positive, list_of "b" [num 1; num 7]);
     (3%positive, list_of "d" [num 7]); (4%positive, watcher);
     (5%positive, list_of "flags" [mkParam (symbol_of "front") (Some 6%positive) "front";
                                   mkParam (symbol_of "back") (Some 7%positive) "back"]);
     (6%positive, switch "front"); (7%positive, switch "back");
     (8%positive, list_of "some" [mkParam (symbol_of "front") (Some 6%positive) "front"])])
    (list_to_map [("a", 1%positive); ("b", 2%positive); ("d", 3%positive); ("watcher", 4%positive);
                  ("flags", 5%positive); ("front", 6%positive); ("back", 7%positive); ("some", 8%positive)])
    SymbolTable_new SymbolTable_new sample_tok [].
Lemma lists_store_ok : lists_ok lists_store.
Proof. apply lists_okb_ok. by vm_compute. Qed.
Lemma lists_store_links : store_ok lists_store.
Proof. apply store_okb_ok. by vm_compute. Qed.
Lemma lists_store_names : names_ok ct0 lists_store.
Proof. apply names_ok_fresh. by vm_compute. Qed.
Lemma holds_sample l zs i : heap lists_store !! l = Some i -> parameters i = num <$> zs -> holds_numbers lists_store l zs.
Proof.
  intros E P. exists i. split; [done |]. rewrite P. clear. induction zs; cbn; constructor; [by split | done].
Qed.

(** ** Witnesses *)
Definition flags_ps : list Param :=
  [mkParam (symbol_of "front") (Some 6%positive) "front"; mkParam (symbol_of "back") (Some 7%positive) "back"].
Lemma entries_same s s' l ps : same_names s s' -> entries_of s l ps -> entries_of s' l ps.
Proof.
  intros S [(i & E & P) L V]. destruct (same_inv _ _ _ _ S E) as (i' & E' & _ & _ & P' & _).
  split; [by exists i'; rewrite <- P' | done |]. intros p x Hp Hx. destruct (V p x Hp Hx) as [j Ej].
  destruct (same_inv _ _ _ _ S Ej) as (j' & -> & _). eauto.
Qed.
Lemma found name l : resolve ct0 lists_store 4%positive name = Some l ->
  exists s', lookup ct0 4%positive name lists_store = Ok (Some l, s') /\ same_names lists_store s'.
Proof.
  intros R. exact (found_by ct0 lists_store 4%positive name l lists_store_links lists_store_names
    ltac:(eexists; reflexivity) R []).
Qed.
Lemma flags_entries : entries_of lists_store 5%positive flags_ps.
Proof.
  split; [by eexists | by repeat constructor |].
  intros p x Hp Hx. unfold flags_ps in Hp. rewrite !elem_of_cons in Hp.
  destruct Hp as [-> | [-> | Hp]]; [| |by apply elem_of_nil in Hp]; injection Hx as <-; by eexists.
Qed.
(** An operator that found no property of the name of its state before. *)
Definition seen_before : DynamicValue := with_property RNull DynamicValue_new.
Lemma quantifiers_agree_w : exists any all (count : nat) da db dc s2,
  @AnyInValue no_dyn sample_clock ct0 "off" "flags" 4%positive seen_before lists_store = Ok (da, s2) /\ truth (answer da) any /\
  @AllInValue no_dyn sample_clock ct0 "off" "flags" 4%positive seen_before lists_store = Ok (db, s2) /\ truth (answer db) all /\
  @CountValue no_dyn sample_clock ct0 "off" "flags" 4%positive seen_before lists_store = Ok (dc, s2) /\
  number (answer dc) (Z.of_nat count).
Proof.
  destruct (found "flags" 5%positive ltac:(reflexivity)) as (s2 & L & S).
  destruct (@quantifiers_agree no_dyn sample_clock ct0 4%positive "off" "flags" seen_before lists_store 5%positive "off" flags_ps s2)
    as (any & all & count & da & db & dc & A & Ta & B & Tb & C & Tc & _).
  - split; [|exact (entries_same _ _ _ _ S flags_entries)].
    exists RNull, seen_before, lists_store. split; [reflexivity |]. split; [exact L | reflexivity].
  - by apply Z.leb_le.
  - exists any, all, count, da, db, dc, s2. exact (conj A (conj Ta (conj B (conj Tb (conj C Tc))))).
Defined.

Lemma numbers_a : exists s1, @numbers_of no_dyn sample_clock ct0 4%positive "" "a" lists_store 1%positive [3; 1] s1.
Proof.
  destruct (found "a" 1%positive ltac:(reflexivity)) as (s1 & L & S). exists s1.
  destruct (same_inv _ _ 1%positive (list_of "a" [num 3; num 1]) S eq_refl) as (i & E & F & _ & P & _). split.
  - exact L.
  - exists i. by rewrite <- F, <- P.
  - intros k z Hk. unfold element. rewrite bool_decide_eq_true_2 by done. unfold entry. unfold sbind at 1.
    rewrite (sbind_run _ _ _ _ _ (get_run _ _ _ E)), <- P.
    destruct k as [|[|k]]; [| |done]; cbn in Hk; injection Hk as <-; cbn; by eexists.
Qed.
Lemma extremes_bound_w : exists s1 lo hi da db,
  @MinValue no_dyn sample_clock ct0 "" "a" 4%positive DynamicValue_new lists_store = Ok (da, s1) /\ number (answer da) lo /\
  @MaxValue no_dyn sample_clock ct0 "" "a" 4%positive DynamicValue_new lists_store = Ok (db, s1) /\ number (answer db) hi /\
  lo ∈ [3; 1] /\ hi ∈ [3; 1].
Proof.
  destruct numbers_a as [s1 N].
  destruct (@extremes_bound no_dyn sample_clock ct0 4%positive "" "a" DynamicValue_new lists_store 1%positive [3; 1] s1 N ltac:(done))
    as (lo & hi & da & db & A & Na & B & Nb & Lo & Hi & _).
  exists s1, lo, hi, da, db. exact (conj A (conj Na (conj B (conj Nb (conj Lo Hi))))).
Defined.
Lemma sum_bounds_w : exists s1 d',
  @SumValue no_dyn sample_clock ct0 "" "a" 4%positive DynamicValue_new lists_store = Ok (d', s1) /\ number (answer d') 4.
Proof.
  destruct numbers_a as [s1 N]. exists s1.
  exact (proj1 (@sum_bounds no_dyn sample_clock ct0 4%positive "" "a" DynamicValue_new lists_store 1%positive [3; 1] s1 N ltac:(done))
    eq_refl).
Defined.
(** An entry added to a list, and the two entries of another removed. *)
Definition after_step (c : NM unit) (s : Store) : Store := match c s with Ok (_, s') => s' | _ => s end.
Definition longer : Store := after_step (@addParameter plain_control 2%positive (num 9) None (-1) true) lists_store.
Definition shorter : Store := after_step (@removeParameter plain_control 1%positive 0) longer.
Definition emptied : Store := after_step (@removeParameter plain_control 1%positive 0) shorter.
Lemma emptied_history : rtc (@list_step plain_control) lists_store emptied.
Proof.
  apply (rtc_l _ _ longer).
  { apply (step_add _ _ 2%positive (num 9) (-1) true); [by eexists | done | vm_compute; reflexivity]. }
  apply (rtc_l _ _ shorter).
  { apply (step_remove _ _ 1%positive 0); [by eexists | vm_compute; reflexivity]. }
  apply rtc_once, (step_remove _ _ 1%positive 0); [by eexists | vm_compute; reflexivity].
Qed.
Lemma list_state_follows_w : exists i, heap emptied !! 1%positive = Some i /\ current_state i = "empty" /\
  (forall which, exists s'', @removeParameter plain_control 1%positive which emptied = Ok (tt, s'')) /\
  exists s'' i'', @addParameter plain_control 1%positive (num 5) None 0 false emptied = Ok (tt, s'') /\
    heap s'' !! 1%positive = Some i'' /\ parameters i'' ≡ₚ [num 5].
Proof.
  destruct (@list_state_follows plain_control plain_steady lists_store emptied lists_store_ok emptied_history) as [W R].
  eexists. split; [vm_compute; reflexivity |]. split; [|split].
  - destruct (W 1%positive _ ltac:(vm_compute; reflexivity)) as (_ & Hs & _). exact (Hs eq_refl).
  - exact (proj1 (R 1%positive _ ltac:(vm_compute; reflexivity))).
  - destruct (proj2 (R 1%positive _ ltac:(vm_compute; reflexivity)) (num 5) 0 false) as (s'' & i'' & Ra & E'' & _ & P'');
      [done | by unfold INT_MAX | lia |]. exists s'', i''. split; [exact Ra |]. split; [exact E'' | exact P''].
Defined.
Lemma union_of_numbers_w : exists s' ws,
  @UnionSetOperation no_dyn sample_clock plain_control ct0 (Some 1%positive) (Some 2%positive) 3%positive 4%positive lists_store =
    sbind (@debugParameterChange no_dyn sample_clock ct0 3%positive) (fun _ => sret Complete) s' /\
  holds_numbers s' 3%positive ws /\ forall z, z ∈ ws <-> z ∈ [3; 1] \/ z ∈ [1; 7] \/ z ∈ [7].
Proof.
  destruct (@union_of_numbers no_dyn sample_clock plain_control plain_steady ct0 4%positive 1%positive 2%positive 3%positive
    lists_store [3; 1] [1; 7] [7] lists_store_ok ltac:(done) ltac:(done)
    (holds_sample 1%positive [3; 1] _ eq_refl eq_refl) (holds_sample 2%positive [1; 7] _ eq_refl eq_refl)
    (holds_sample 3%positive [7] _ eq_refl eq_refl)) as (s' & ws & R & Hw & _ & El & _).
  exists s', ws. exact (conj R (conj Hw El)).
Defined.
Lemma sort_numbers_w : exists s' ws,
  @SortListAction no_dyn sample_clock simple_sort ct0 "a" "" true 4%positive lists_store = Ok (Complete, s') /\
  holds_numbers s' 1%positive ws /\ ws ≡ₚ [3; 1].
Proof.
  destruct (@sort_numbers no_dyn sample_clock simple_sort ct0 lists_store 4%positive 1%positive "a" "" true [3; 1]
    (list_of "a" [num 3; num 1]) lists_store_links lists_store_names ltac:(eexists; reflexivity) eq_refl eq_refl eq_refl
    (holds_sample 1%positive [3; 1] _ eq_refl eq_refl)) as (s' & ws & R & Hw & P & _).
  exists s', ws. exact (conj R (conj Hw P)).
Defined.
Lemma flags_machines : has_machines lists_store 5%positive [6%positive; 7%positive].
Proof.
  eexists. split; [reflexivity |]. split; [reflexivity |]. intros x Hx. rewrite !elem_of_cons in Hx.
  destruct Hx as [-> | [-> | Hx]]; [by eexists.. | by apply elem_of_nil in Hx].
Qed.
Lemma bitset_bits_w : exists s1 d' z,
  @BitsetValue no_dyn ct0 "off" "flags" 4%positive DynamicValue_new lists_store = Ok (d', s1) /\
  number (answer d') z /\ LONG_MIN <= z <= LONG_MAX.
Proof.
  destruct (found "flags" 5%positive ltac:(reflexivity)) as (s1 & L & S).
  assert (M : has_machines s1 5%positive [6%positive; 7%positive]).
  { destruct flags_machines as (i & E & Mi & V). destruct (same_inv _ _ _ _ S E) as (i' & E' & _ & _ & P & _).
    exists i'. rewrite <- P. split; [done |]. split; [done |]. intros x Hx. destruct (V x Hx) as [j Ej].
    destruct (same_inv _ _ _ _ S Ej) as (j' & -> & _). eauto. }
  destruct (@bitset_bits no_dyn ct0 4%positive "off" "flags" DynamicValue_new lists_store 5%positive
    [6%positive; 7%positive] s1 L M) as (d' & z & B & N & R & _).
  exists s1, d', z. exact (conj B (conj N R)).
Defined.
Lemma bitset_roundtrip_w : exists s', @setListEntries plain_control 2 5%positive 2 lists_store = Ok (tt, s') /\ keeps_lists lists_store s'.
Proof.
  destruct (@bitset_roundtrip no_dyn plain_control plain_steady ct0 5%positive [6%positive; 7%positive] 2 lists_store)
    as (s' & R & K & _).
  - by apply (bool_decide_unpack _).
  - exact flags_machines.
  - intros x Hx. rewrite !elem_of_cons in Hx. destruct Hx as [-> | [-> | Hx]]; [| | by apply elem_of_nil in Hx];
      (eexists _, _; split; [reflexivity |]; split; [reflexivity |]; split; set_solver).
  - cbn. lia.
  - exists s'. exact (conj R K).
Defined.

(** ** TAKE LAST *)
Section TakeLast.
Context `{DynEnv} `{Clock} `{Printer}.
Variable ct : ClockworkToken.

(** Unlinking the machine [x] from the list [l], as the operators do. *)
Definition unlinked (x : ptr) (i : MachineInstance) : MachineInstance :=
  set_listens (listens i ∖ {[x]}) (set_depends (depends i ∖ {[x]}) i).
Lemma unlink_run l x i s : heap s !! l = Some i -> x <> l ->
  exists s', removeDependancy_opt l (Some x) s = Ok (tt, s') /\
    exists s'', stopListening_opt l (Some x) s' = Ok (tt, s'') /\ heap s'' !! l = Some (unlinked x i).
Proof.
  intros E N. unfold removeDependancy_opt, removeDependancy. rewrite bool_decide_eq_false_2 by done.
  rewrite (modify_run l _ i s E). eexists. split; [reflexivity |].
  unfold stopListening_opt, stopListening. unfold sbind at 1.
  erewrite modify_run by (cbn; apply lookup_insert_eq). eexists. split; [reflexivity |].
  cbn. by rewrite lookup_insert_eq.
Qed.

(** TAKE LAST FROM a list gives the last entry and removes it, but it unlinks
    the machine of the first entry: that machine is no longer among those the list
    depends on and listens to, although it is still in the list, and nothing else
    of the links changes, so the machine that was taken stays linked. What is left
    of the operator is to write the contents to the property DEBUG. *)
Theorem take_last_unlinks_first list_name mi d s s1 l i p ps q x y :
  lookup ct mi list_name s = Ok (Some l, s1) -> heap s1 !! l = Some i -> parameters i = p :: ps ++ [q] ->
  machine p = Some x -> machine q = Some y -> x <> l -> x <> y ->
  exists s2 i2 d2, PopListBackValue ct true list_name mi d s = sbind (displayList ct l) (fun _ => sret d2) s2 /\
    base (last_result d2) = assign (assign (answer d) (Value_bool false)) (base (val q)) /\
    heap s2 !! l = Some i2 /\ parameters i2 = p :: ps /\
    (x ∉ depends i2) /\ (x ∉ listens i2) /\
    (y ∈ depends i -> y ∈ depends i2) /\ (y ∈ listens i -> y ∈ listens i2).
Proof.
  intros Lk E P Mx My Nl Nxy. unfold PopListBackValue. rewrite (sbind_run _ _ _ _ _ Lk).
  rewrite (sbind_run _ _ _ _ _ (get_run l i s1 E)), P.
  replace (rev (p :: ps ++ [q])) with (q :: rev (p :: ps)) by (cbn; by rewrite rev_app_distr).
  rewrite (slift_run _ _ _ p) by done. rewrite Mx.
  destruct (unlink_run l x i s1 E Nl) as (s2 & R2 & s3 & R3 & E3).
  rewrite (sbind_run _ _ _ _ _ R2), (sbind_run _ _ _ _ _ R3), (sbind_run _ _ _ _ _ (modify_run l _ _ s3 E3)).
  rewrite (sbind_run _ _ _ tt _ eq_refl). eexists _, _, _. split; [reflexivity |].
  split; [by unfold take_entry; repeat case_match |].
  cbn. rewrite lookup_insert_eq. split; [reflexivity |]. cbn. rewrite P.
  split; [|set_solver]. replace (length (p :: ps ++ [q]) - 1)%nat with (length (p :: ps))
    by (cbn; rewrite length_app; cbn; lia).
  change (p :: ps ++ [q]) with ((p :: ps) ++ [q]). apply take_app_length.
Qed.
End TakeLast.

(** ** The action that pops the last entry *)
Section Pop.
Context `{DynEnv} `{Clock}.
Variable ct : ClockworkToken.
(** On a list that has entries it reads one past the end. *)
Theorem pop_back_undefined list_name owner s l s1 i :
  lookup ct owner list_name (with_events (events s ++ [EStart owner]) s) = Ok (Some l, s1) ->
  heap s1 !! l = Some i -> i_type (fixed i) = "LIST" -> parameters i <> [] ->
  PopBackAction ct list_name None owner s = Undef.
Proof.
  intros Lk E T Hne. unfold PopBackAction, emit. unfold sbind at 1. rewrite (sbind_run _ _ _ _ _ Lk).
  unfold is_list. unfold sbind at 1. rewrite (sbind_run _ _ _ _ _ (get_run l i s1 E)), T. cbn [sret].
  rewrite bool_decide_eq_true_2 by done. unfold list_size. unfold sbind at 1.
  rewrite (sbind_run _ _ _ _ _ (get_run l i s1 E)). cbn [sret].
  destruct (parameters i) as [|p ps] eqn:P; [done |]. cbn [length].
  unfold entry. unfold sbind at 1. rewrite (sbind_run _ _ _ _ _ (get_run l i s1 E)), P.
  rewrite lookup_ge_None_2 by (cbn; lia). done.
Qed.
End Pop.

(** ** The text INCLUDE writes *)
Section IncludeText.
Context `{DynEnv}.
Definition joined (ts : list string) : string :=
  fold_right (fun t acc => ("," +:+ t +:+ acc)%string) "" ts.
Definition texts (ts : list string) : list Param := text_entry <$> ts.

Lemma include_text_fits ts : forall delim text,
  (String.length (text +:+ match ts with [] => "" | t :: ts' => delim +:+ t +:+ joined ts' end) < 999)%nat ->
  include_text (texts ts) delim text = Ok (text +:+ match ts with [] => "" | t :: ts' => delim +:+ t +:+ joined ts' end)%string.
Proof.
  induction ts as [|t ts IH]; intros delim text Hl; cbn [texts fmap list_fmap include_text].
  { by rewrite string_app_nil_r. }
  unfold asString. replace (asString_n dyn_depth (base (val (text_entry t)))) with (Ok t) by (by destruct dyn_depth).
  cbn [mbind res_bind].
  replace (999 <=? String.length (text +:+ delim +:+ t))%nat with false
    by (symmetry; apply Nat.leb_gt; rewrite !string_length_app in *; lia).
  change (text_entry <$> ts) with (texts ts). rewrite IH.
  - destruct ts as [|t' ts]; cbn [joined fold_right]; by rewrite ?string_app_nil_r, ?string_app_assoc.
  - revert Hl. destruct ts as [|t' ts]; cbn [joined fold_right]; by rewrite ?string_app_nil_r, ?string_app_assoc.
Qed.
(** INCLUDE writes the contents of the list to a buffer of 1010 bytes: a list of
    texts whose entries, with the commas and the opening bracket, take less than
    999 characters is written in full with the closing bracket; but a first entry
    of 1008 characters or more makes it write outside the buffer. *)
Theorem include_buffer_bounds t ts :
  ((String.length ("[" +:+ t +:+ joined ts) < 999)%nat ->
    include_buffer (texts (t :: ts)) = Ok ("[" +:+ t +:+ joined ts +:+ "]")%string) /\
  ((1008 <= String.length t)%nat -> include_buffer (texts (t :: ts)) = Undef).
Proof.
  unfold include_buffer. split; intros Hl.
  - rewrite (include_text_fits (t :: ts) "" "[") by exact Hl.
    change ("" +:+ t +:+ joined ts)%string with (t +:+ joined ts)%string. cbn [mbind res_bind].
    apply Nat.ltb_lt in Hl. by rewrite Hl, !string_app_assoc.
  - cbn [texts fmap list_fmap include_text]. unfold asString.
    replace (asString_n dyn_depth (base (val (text_entry t)))) with (Ok t) by (by destruct dyn_depth).
    cbn [mbind res_bind].
    assert (L : String.length ("[" +:+ "" +:+ t) = S (String.length t)) by done. rewrite L.
    replace (999 <=? S (String.length t))%nat with true by (symmetry; apply Nat.leb_le; lia).
    cbn [mbind res_bind]. rewrite L.
    replace (S (String.length t) <? 999)%nat with false by (symmetry; apply Nat.ltb_ge; lia).
    by replace (S (String.length t) <? 1009)%nat with false by (symmetry; apply Nat.ltb_ge; lia).
Qed.
End IncludeText.

(** ** Sorting by a property *)
Section Unsortable.
Context `{DynEnv} `{StdSort}.
(** An entry without a machine compares less than itself, so the comparison is not
    the ordering [std::sort] requires and sorting never has a defined result. *)
Theorem unlinked_entry_unsortable numeric ascending ks e : e ∈ ks -> machine (fst e) = None ->
  forall r, sort_with (if numeric : bool then PropertyValueNumericSorter ascending
                       else PropertyValueStringSorter ascending) ks <> Ok r.
Proof.
  intros He M r. unfold sort_with. set (cmp := if numeric then _ else _).
  destruct (all_res _ ks); cbn [mbind res_bind]; [|done..].
  assert (S : strict_weak (fun x y => match cmp x y with Ok b => b | _ => false end) ks = false).
  { unfold strict_weak. apply andb_false_iff. left. apply not_true_iff_false. rewrite forallb_forall.
    intros F. specialize (F e (proj1 (list_elem_of_In _ _) He)). unfold cmp in F.
    destruct numeric; unfold PropertyValueNumericSorter, PropertyValueStringSorter in F; by rewrite M in F. }
  by rewrite S.
Qed.
End Unsortable.

(** ** Set operations *)
Definition entry_names (r : res (Status * Store)) (l : ptr) : option (Status * list string) :=
  match r with
  | Ok (st, s) => i ← heap s !! l; Some (st, (fun p => sValue (base (val p))) <$> parameters i)
  | _ => None
  end.
Definition entry_numbers (r : res (Status * Store)) (l : ptr) : option (Status * list Z) :=
  match r with
  | Ok (st, s) => i ← heap s !! l; Some (st, key <$> parameters i)
  | _ => None
  end.
Definition set_op (a b d : string) (limit : Z) (remove : bool) : SetOp :=
  mkSetOp (plain (Value_int limit)) a b d None "" remove (Value_int (-1)) (Value_int (-1)).
Definition run_set_op (what : SetOperationKind) (op : SetOp) : res (Status * Store) :=
  @SetOperationAction no_dyn sample_clock plain_control plain_printer ct0 what op 4%positive lists_store.

(** The union of lists of machines looks in the destination for a property of the
    machine instead of the machine: the list [flags] has the machine "front"
    already, and gets it again from [some]. *)
Theorem union_duplicates_machines :
  entry_names (run_set_op soUnion (set_op "some" "some" "flags" (-1) false)) 5%positive =
    Some (Complete, ["front"; "back"; "front"; "front"]).
Proof. vm_compute. reflexivity. Qed.

(** The number of entries to copy and the removal from the source do not apply
    to plain values: moving one entry of the list [a] of the numbers 3 and 1 to
    [d] copies both and removes none; on a list of machines one entry is moved. *)
Theorem select_ignores_count :
  entry_numbers (run_set_op soSelect (set_op "a" "" "d" 1 true)) 3%positive = Some (Complete, [7; 3; 1]) /\
  entry_numbers (run_set_op soSelect (set_op "a" "" "d" 1 true)) 1%positive = Some (Complete, [3; 1]) /\
  entry_names (run_set_op soSelect (set_op "flags" "" "d" 1 true)) 5%positive = Some (Complete, ["back"]).
Proof. split; [|split]; vm_compute; reflexivity. Qed.

(** ** Witnesses *)
Definition long_text : string := String.concat "" (repeat "0123456789" 101).
Lemma include_buffer_bounds_w : @include_buffer no_dyn (texts [long_text]) = Undef.
Proof. apply (proj2 (@include_buffer_bounds no_dyn long_text [])). apply Nat.leb_le. vm_compute. reflexivity. Defined.
Lemma take_last_unlinks_first_w : exists s1 s2 i2 d2,
  @PopListBackValue no_dyn sample_clock plain_printer ct0 true "flags" 4%positive DynamicValue_new lists_store =
    sbind (@displayList no_dyn sample_clock ct0 plain_printer 5%positive) (fun _ => sret d2) s2 /\
  heap s1 !! 5%positive = Some i2 /\ 6%positive ∉ depends i2.
Proof.
  destruct (found "flags" 5%positive ltac:(reflexivity)) as (s1 & L & S).
  destruct (same_inv _ _ 5%positive (list_of "flags" flags_ps) S eq_refl) as (i & E & F & _ & P & _).
  destruct (@take_last_unlinks_first no_dyn sample_clock plain_printer ct0 "flags" 4%positive DynamicValue_new lists_store s1
    5%positive i (mkParam (symbol_of "front") (Some 6%positive) "front") []
    (mkParam (symbol_of "back") (Some 7%positive) "back") 6%positive 7%positive L E (eq_sym P) eq_refl eq_refl
    ltac:(done) ltac:(done)) as (s2 & i2 & d2 & R & _ & E2 & _ & D & _).
  exists s2, s2, i2, d2. exact (conj R (conj E2 D)).
Defined.
