(* ===== verification/Control.v ===== *)
(** The actions that control the execution of a command (MachineCommandAction.cpp,
    IfCommandAction.cpp, LockAction.cpp, UnlockAction.cpp, WaitAction.cpp,
    FireTriggerAction.cpp, AbortAction.cpp; [lock] and [unlock] of
    MachineInstance.h), as an implementation of the interface [Virtuals] of the
    action stack. The texts of error messages are abbreviated. *)
From S2P Require Import Prelude Cnum Tokeniser Value SymbolTable Message Machine.
Open Scope Z_scope.
Local Open Scope sm_scope.

(** What the control actions ask of the machine they run on, its [owner]: the
    machine of a name, the value of a name, the value of a condition, its current
    state; the message an exception sends to it; and the actions of the other
    classes. *)
Class Environs := {
  find_machine : ptr -> string -> M (option ptr);
  value_of : ptr -> string -> M Value;
  holds : nat -> ptr -> M bool;
  current_state : ptr -> M string;
  throw_message : ptr -> string -> M unit;
  rest : Virtuals
}.

(** [MachineInstance::lock], [unlock]. *)
Definition lock (k requester : ptr) : M bool :=
  let! x := get_machine k in
  match locked x with
  | Some h =>
      if bool_decide (h = requester) then run! upd_machine k (set_locked (Some requester)) in sret true
      else sret false
  | None => run! upd_machine k (set_locked (Some requester)) in sret true
  end.
Definition unlock (k requester : ptr) : M bool :=
  let! x := get_machine k in
  if bool_decide (locked x = Some requester)
  then run! upd_machine k (set_locked None) in sret true else sret false.

Section Control.
Variable tk : ClockworkToken.
Context `{!Environs}.

Section Level.
(** The classes of the actions that are called. *)
Context `{!Virtuals}.

Definition get_status (a : ptr) : M Status := let! x := get_action a in sret (status x).
Definition set_st (st : Status) (a : ptr) : M unit := upd_action a (set_status st).
(** [status = st; owner->stop (this); return status]. *)
Definition finish (st : Status) (a o : ptr) : M Status :=
  run! set_st st a in run! stop tk a o in get_status a.
(** [status = st;] then the action is stopped if that is final; [return status]. *)
Definition settle (st : Status) (a o : ptr) : M Status :=
  run! set_st st a in
  run! (if is_final st then stop tk a o else sret tt) in get_status a.
(** The part [checkComplete] of most actions has: an action that has finished,
    or is not on top of the stack, is left alone. *)
Definition when_on_top (a : ptr) (body : ptr -> M Status) : M Status :=
  let! x := get_action a in
  if is_final (status x) then sret (status x) else
  let! top := executingCommand (a_owner x) in
  if bool_decide (top = Some a) then body (a_owner x) else get_status a.

(** *** Locks *)
Definition LockAction_run (machine_name : string) (a : ptr) : M Status :=
  let! x := get_action a in
  let o := a_owner x in
  run! start tk a o in
  let! k := find_machine o machine_name in
  run! upd_action a (set_body (BLock machine_name k)) in
  match k with
  | Some k => let! ok := lock k o in settle (if ok : bool then Complete else Running) a o
  | None => settle Failed a o
  end.
Definition LockAction_checkComplete (k : option ptr) (a : ptr) : M Status :=
  when_on_top a (fun o =>
    let? k := rd k in
    let! ok := lock k o in
    settle (if ok : bool then Complete else Running) a o).
Definition UnlockAction_run (machine_name : string) (a : ptr) : M Status :=
  let! x := get_action a in
  let o := a_owner x in
  run! start tk a o in
  let! k := find_machine o machine_name in
  run! upd_action a (set_body (BUnlock machine_name k)) in
  match k with
  | Some k => let! ok := unlock k o in settle (if ok : bool then Complete else Failed) a o
  | None => settle Failed a o
  end.
Definition UnlockAction_checkComplete (k : option ptr) (a : ptr) : M Status :=
  when_on_top a (fun o =>
    let? k := rd k in
    let! ok := unlock k o in
    if ok : bool then finish Complete a o else run! set_st Failed a in get_status a).

(** *** IF *)
Definition IfCommandAction_run (condition : nat) (command a : ptr) : M Status :=
  let! x := get_action a in
  let o := a_owner x in
  run! start tk a o in
  let! b := holds condition o in
  if b : bool then let! st := start_action command in settle st a o
  else finish Complete a o.
Definition IfElseCommandAction_run (condition : nat) (command else_command a : ptr) : M Status :=
  let! x := get_action a in
  let o := a_owner x in
  run! start tk a o in
  let! b := holds condition o in
  let! st := start_action (if b : bool then command else else_command) in
  settle st a o.
Definition IfCommandAction_checkComplete (a : ptr) : M Status := when_on_top a (finish Complete a).

(** *** WAIT *)
Definition FireTriggerAction_new (m t : ptr) : M ptr :=
  run! trigger_retain t in
  let! f := Action_new m None (BFireTrigger (Some t)) in
  run! upd_trigger t (set_towner (Some (OwnMachine m))) in
  run! addHolder t f in sret f.
Definition FireTriggerAction_run (pending : option ptr) (a : ptr) : M Status :=
  let! x := get_action a in
  let o := a_owner x in
  run! start tk a o in
  let? t := rd pending in
  run! trigger_retain t in
  run! setTrigger (Some t) a in
  run! trigger_release t in
  run! upd_action a (set_body (BFireTrigger None)) in
  let! y := get_action a in
  let? t' := rd (trigger y) in
  let! z := get_trigger t' in
  run! (if is_active z then fire tk t' else sret tt) in
  finish Complete a o.
Definition FireTriggerAction_checkComplete (a : ptr) : M Status :=
  let! x := get_action a in
  let? _u := assert (bool_decide (status x = Complete)) in sret (status x).

(** The time in milliseconds: -1 stands for the value of a property. *)
Definition wait_value (o : ptr) (wait_time : Z) (property_name : string) : M Z :=
  if wait_time =? -1 then
    let! v := value_of o property_name in
    slift (match kind v with
           | t_float => trunc v
           | t_integer => rd (iValue v)
           | _ => Ok 0
           end)
  else sret wait_time.
Definition timer_name (name : string) : string := String.substring 0 99 (name +:+ " WaitTimer")%string.
Definition WaitAction_run (wait_time : Z) (property_name : string) (use_property : bool) (a : ptr) : M Status :=
  let! x := get_action a in
  let o := a_owner x in
  run! start tk a o in
  let! time := wait_value o wait_time property_name in
  run! upd_action a (set_body (BWait time property_name use_property)) in
  if time =? 0 then
    let! y := get_action a in
    run! (match trigger y with
          | Some t => let! z := get_trigger t in
              if negb (seen z) && is_active z then fire tk t else sret tt
          | None => sret tt
          end) in
    finish Complete a o
  else
    run! set_st Running a in
    run! cleanupTrigger a in
    let! m := get_machine o in
    let! t := Trigger_new None (timer_name (m_name m)) in
    run! upd_action a (set_atrigger (Some t)) in
    run! addHolder t a in
    let! f := FireTriggerAction_new o t in
    let? delay := long_of (time * 1000) in
    run! emit (ScheduleAction delay f) in
    let! z := get_trigger t in
    let? _u := assert (negb (seen z)) in
    run! (if use_property then upd_action a (set_body (BWait (-1) property_name use_property)) else sret tt) in
    get_status a.
Definition WaitAction_checkComplete (a : ptr) : M Status :=
  let! x := get_action a in
  match trigger x with
  | None => finish Complete a (a_owner x)
  | Some t => let! z := get_trigger t in if seen z then finish Complete a (a_owner x) else get_status a
  end.

(** *** RETURN, ABORT and THROW *)
Definition AbortAction_run (msg : string) (a : ptr) : M Status :=
  let! x := get_action a in
  let o := a_owner x in
  run! start tk a o in
  run! (if bool_decide (msg = "") then sret tt else throw_message o msg) in
  run! abort_action a in
  finish Complete a o.
Definition AbortAction_checkComplete (abort_fail : bool) (msg : string) (a : ptr) : M Status :=
  let! x := get_action a in
  if is_final (status x) then sret (status x) else
  run! abort_action a in
  run! (if abort_fail then upd_action a (set_error msg) else sret tt) in
  finish (if abort_fail then Failed else Complete) a (a_owner x).

(** *** Commands *)
Definition get_command (a : ptr) : M Command :=
  let! x := get_action a in
  match body x with BCommand c => sret c | _ => fun _ => Undef end.
Definition set_steps (last current : nat) (c : Command) : Command :=
  mkCommand (steps c) last current (within c) (switch_state c).
Definition upd_command (a : ptr) (f : Command -> Command) : M unit :=
  let! c := get_command a in upd_action a (set_body (BCommand (f c))).
Definition is_abort (x : Action) : bool := match body x with BAbort _ _ => true | _ => false end.

(** The end of [runActions] for a step that aborts the command. *)
Definition abort_command (stat : Status) (b a o : ptr) : M Status :=
  run! abort_action a in
  run! emit (LogError o) in
  let! y := get_action b in
  run! upd_action a (set_error (match stat with Failed => error_str y | _ => "aborted" end)) in
  run! stop tk b o in
  run! upd_command a (fun c => set_steps (current_step c) (length (steps c)) c) in
  run! release b in
  run! setBlocker None a in sret Complete.
(** The step has finished. *)
Definition step_done (b a o : ptr) : M unit :=
  let! top := executingCommand o in
  run! (if bool_decide (top = Some b) then run! emit (LogError o) in stop tk b o else sret tt) in
  run! setBlocker None a in
  run! upd_command a (fun c => set_steps (current_step c) (S (current_step c)) c) in
  release b.
(** [runActions]: the result if it returns, [None] if the loop goes on. *)
Definition run_step (b a o : ptr) : M (option Status) :=
  run! retain b in
  run! setBlocker (Some b) a in
  run! suspend a in
  let! stat := start_action b in
  let! y := get_action b in
  if is_abort y then let! st := abort_command stat b a o in sret (Some st) else
  run! (match stat with
        | Failed => run! emit (LogError o) in upd_action a (set_error "failed to start")
        | _ => sret tt
        end) in
  match stat with
  | NeedsRetry | New =>
      run! emit (LogError o) in
      run! stop tk b o in
      run! release b in
      run! set_st Running a in
      let! st := get_status a in sret (Some st)
  | _ =>
      let! done := complete b in
      if done : bool then run! step_done b a o in sret None
      else run! release b in sret (Some stat)
  end.
Fixpoint runActions (fuel : nat) (a o : ptr) : M Status :=
  let! c := get_command a in
  match steps c !! current_step c with
  | None => sret Complete
  | Some b =>
      match fuel with
      | O => fun _ => Undef
      | S fuel' =>
          let! r := run_step b a o in
          match r with Some st => sret st | None => runActions fuel' a o end
      end
  end.
(** One round of the loop for every step. *)
Definition run_actions (a o : ptr) : M Status :=
  let! c := get_command a in runActions (length (steps c)) a o.

Definition MachineCommand_run (a : ptr) : M Status :=
  let! x := get_action a in
  let o := a_owner x in
  run! start tk a o in
  run! set_st Running a in
  run! upd_command a (set_steps 0 0) in
  let! c := get_command a in
  let! state := current_state o in
  if negb (bool_decide (within c = "")) && negb (bool_decide (state = within c)) && negb (switch_state c)
  then finish Complete a o
  else if bool_decide (steps c = []) then finish Complete a o
  else
  let! stat := run_actions a o in
  match stat with
  | Failed =>
      run! emit (LogError o) in
      run! upd_action a (set_error "failed to start an action") in
      run! set_st stat a in
      run! stop tk a o in sret Failed
  | Complete =>
      let! top := executingCommand o in
      match top with
      | Some t => if bool_decide (t = a) then
          let! c' := get_command a in
          if bool_decide (current_step c' = length (steps c')) then finish Complete a o else get_status a
          else get_status t
      | None =>
          let! c' := get_command a in
          if bool_decide (current_step c' = length (steps c')) then finish Complete a o else get_status a
      end
  | _ => get_status a
  end.

(** [++current_step]. *)
Definition next_step (a : ptr) : M unit :=
  upd_command a (fun c => set_steps (last_step c) (S (current_step c)) c).
(** One round of the loop of [checkComplete]: the result if it returns. *)
Definition check_step (b a o : ptr) : M (option Status) :=
  let! st := get_status b in
  let! retry := (match st with
                 | New | NeedsRetry => let! r := start_action b in
                     sret (bool_decide (r = NeedsRetry))
                 | _ => sret false
                 end) in
  if retry : bool then sret (Some Running) else
  let! st := get_status b in
  let! r := (match st with
             | Complete => run! next_step a in sret None
             | Failed => run! stop tk a o in let! s := get_status a in sret (Some s)
             | Running | Suspended =>
                 let! done := complete b in
                 let! st' := get_status b in
                 if done : bool then
                   match st' with
                   | Failed => run! stop tk a o in let! s := get_status a in sret (Some s)
                   | _ => run! next_step a in sret None
                   end
                 else sret (Some st')
             | _ => sret None
             end) in
  match r with
  | Some s => sret (Some s)
  | None => let! s := run_actions a o in run! set_st s a in sret None
  end.
Fixpoint check_steps (fuel : nat) (a o : ptr) : M Status :=
  let! c := get_command a in
  match steps c !! current_step c with
  | None => finish Complete a o
  | Some b =>
      match fuel with
      | O => fun _ => Undef
      | S fuel' =>
          let! r := check_step b a o in
          match r with Some st => sret st | None => check_steps fuel' a o end
      end
  end.
(** The loop takes at most two rounds for a step: one in which [runActions] stops
    at it, and one in which it has finished. *)
Definition MachineCommand_checkComplete (a : ptr) : M Status :=
  let! x := get_action a in
  run! (match status x with Suspended => resume tk a | _ => sret tt end) in
  let! y := get_action a in
  match status y with
  | Running => let! c := get_command a in check_steps (2 * length (steps c)) a (a_owner y)
  | st => sret st
  end.
(** [MachineCommand::~MachineCommand]. *)
Fixpoint release_steps (l : list ptr) (o : ptr) : M unit :=
  match l with
  | [] => sret tt
  | b :: l' =>
      run! upd_machine o (fun m => set_stack (filter (fun q => q <> b) (active_actions m)) m) in
      let! y := get_action b in
      run! (match trigger y with
            | Some t => let! z := get_trigger t in
                if is_active z && negb (seen z) then disableTrigger b else sret tt
            | None => sret tt
            end) in
      run! release b in release_steps l' o
  end.

(** *** The interface *)
Definition run_body (a : ptr) : M Status :=
  let! x := get_action a in
  match body x with
  | BLock n _ => LockAction_run n a
  | BUnlock n _ => UnlockAction_run n a
  | BIf c p => IfCommandAction_run c p a
  | BIfElse c p q => IfElseCommandAction_run c p q a
  | BWait t p u => WaitAction_run t p u a
  | BFireTrigger p => FireTriggerAction_run p a
  | BAbort _ msg => AbortAction_run msg a
  | BCommand _ => MachineCommand_run a
  | BHandleMessage _ | BSetState _ _ | BOther _ => @run rest a
  end.
Definition check_body (a : ptr) : M Status :=
  let! x := get_action a in
  match body x with
  | BLock _ k => LockAction_checkComplete k a
  | BUnlock _ k => UnlockAction_checkComplete k a
  | BIf _ _ | BIfElse _ _ _ => IfCommandAction_checkComplete a
  | BWait _ _ _ => WaitAction_checkComplete a
  | BFireTrigger _ => FireTriggerAction_checkComplete a
  | BAbort f msg => AbortAction_checkComplete f msg a
  | BCommand _ => MachineCommand_checkComplete a
  | BHandleMessage _ | BSetState _ _ | BOther _ => @checkComplete rest a
  end.
Definition destroy_body (a : ptr) : M unit :=
  let! x := get_action a in
  match body x with
  | BIf _ p => release p
  | BIfElse _ p q => run! release p in release q
  | BFireTrigger _ => cleanupTrigger a
  | BCommand c => release_steps (steps c) (a_owner x)
  | BHandleMessage _ | BSetState _ _ | BOther _ => @destructor rest a
  | _ => sret tt
  end.
End Level.

(** The control actions with calls nested up to [n] deep. *)
Fixpoint virtuals (n : nat) : Virtuals :=
  match n with
  | O => {| run := fun _ _ => Undef; checkComplete := fun _ _ => Undef; destructor := fun _ _ => Undef |}
  | S n' => {| run := @run_body (virtuals n'); checkComplete := @check_body (virtuals n');
               destructor := @destroy_body (virtuals n') |}
  end.
End Control.
