(* ===== verification/ControlProps.v ===== *)
(** Properties of the control actions: LOCK and UNLOCK implement a mutex, a
    command runs its steps in order, a WAIT ends when its timer fires, and what
    becomes of a step that fails. *)
From S2P Require Import Prelude Cnum Tokeniser Value SymbolTable Message Machine MachineProps Control.
Open Scope Z_scope.
Local Open Scope sm_scope.

(** ** Starting and stopping an action *)

(** The action [a] with its owner [o] may be run: both exist, the counters have
    room for [B] more checks, the stack does not hold the last reference to [a],
    and the action below it, if any, and its owner exist. *)
Record fit (a o : ptr) (x : Machine) (y : Action) (B : Z) (w : World) : Prop := {
  fit_machine : machines w !! o = Some x;
  fit_action : actions w !! a = Some y;
  fit_owner : a_owner y = o;
  fit_trigger : trigger_live (trigger y) w;
  fit_checks : checks_ok w;
  fit_bound : bounded B w;
  fit_room : 1 <= B;
  fit_refs : Z.of_nat (occurrences a (active_actions x)) < a_refs y;
  fit_below : forall n, list.last (without a (active_actions x)) = Some n ->
    exists z, actions w !! n = Some z /\ is_Some (machines w !! a_owner z)
}.

(** The stack and the action after [start]. *)
Definition on_top (a : ptr) (x : Machine) : bool := bool_decide (executing x = Some a).
Definition begun_stack (a : ptr) (x : Machine) : list ptr :=
  if on_top a x then active_actions x else active_actions x ++ [a].
Definition begun (a : ptr) (x : Machine) (y : Action) : Action :=
  set_started true (if on_top a x then y else set_arefs (a_refs y + 1) y).

Lemma without_snoc a l : without a (l ++ [a]) = without a l.
Proof. unfold without. rewrite list.filter_app, filter_cons, decide_False by (intros Hn; by apply Hn). apply app_nil_r. Qed.
Lemma occurrences_snoc a l : occurrences a (l ++ [a]) = S (occurrences a l).
Proof. unfold occurrences. rewrite list.filter_app, length_app, filter_cons, decide_True by done. cbn. lia. Qed.
Lemma begun_without a x : without a (begun_stack a x) = without a (active_actions x).
Proof. unfold begun_stack. destruct (on_top a x); [done | apply without_snoc]. Qed.
Lemma begun_refs a x y :
  a_refs (begun a x y) - Z.of_nat (occurrences a (begun_stack a x)) =
  a_refs y - Z.of_nat (occurrences a (active_actions x)).
Proof.
  unfold begun, begun_stack. destruct (on_top a x); cbn [a_refs set_started set_arefs]; [done |].
  rewrite occurrences_snoc. lia.
Qed.
Lemma begun_top a x : list.last (begun_stack a x) = Some a.
Proof.
  unfold begun_stack, on_top. case_bool_decide as E; [done |]. by rewrite last_snoc.
Qed.
Create Rewrite HintDb control.
#[export] Hint Rewrite begun_without begun_refs begun_top : control.

Section Stacks.
Context (tk : ClockworkToken) `{!Virtuals}.

Definition started_world (a o : ptr) (x : Machine) (y : Action) (w : World) : World :=
  with_machines (<[o := set_stack (begun_stack a x) x]> (machines w))
    (with_actions (<[a := begun a x y]> (actions w)) w).

Lemma start_checked a o x y B w : fit a o x y B w -> started_ y = false -> B < INT_MAX ->
  exists w', start tk a o w = Ok (tt, w') /\ checked (started_world a o x y w) w' /\ bounded (B + 1) w'.
Proof.
  intros [Em Ea Eo _ Hok Hb HB _ _] Hs HB2. unfold start. heap_step. rewrite Hs.
  unfold action_start. rewrite (sbind_run _ _ _ tt (with_actions (<[a := set_started true y]> (actions w)) w)).
  2: { heap_step. unfold sbind at 1, slift, assert. rewrite Hs. cbn [negb]. by erewrite upd_action_run. }
  unfold executingCommand. rewrite (sbind_run _ _ _ (executing x) (with_actions (<[a := set_started true y]> (actions w)) w))
    by (by heap_step).
  unfold started_world, begun, begun_stack, on_top. case_bool_decide as E; cbn [negb].
  - pose proof (Hb _ _ Em) as Hx. cbn in Hx.
    destruct (setNeedsCheck_ok tk o (with_actions (<[a := set_started true y]> (actions w)) w) x) as (w' & Hr & C & Hu);
      [by destruct Hok | done | lia |].
    exists w'. split; [done |]. split.
    + replace (set_stack (active_actions x) x) with x by (by destruct x). rewrite (insert_id (machines w)) by done.
      by destruct w.
    + apply Hu; [lia | lia | exact (bounded_mono B (B + 1) w Hb ltac:(lia))].
  - unfold retain. heap_step. heap_step. unfold activate, modify.
    eexists. split; [reflexivity |]. cbn [actions with_actions a_refs set_started].
    unfold with_machines, with_actions, with_runnable. cbn. rewrite insert_insert_eq. split.
    + destruct w; cbn in *. split; cbn; try done; [|set_solver]. intros m'.
      destruct (<[o := set_stack (active_actions x ++ [a]) x]> machines !! m') eqn:E1; rewrite ?E1; constructor.
      apply mach_frame_refl.
    + apply map_Forall_insert_2; cbn; [specialize (Hb _ _ Em); cbn in Hb; lia |].
      exact (bounded_mono B (B + 1) w Hb ltac:(lia)).
Qed.

(** Changing fields of the action keeps it fit. *)
Lemma fit_update a o x y y' B w : fit a o x y B w ->
  a_refs y' = a_refs y -> a_owner y' = a_owner y -> trigger y' = trigger y ->
  fit a o x y' B (with_actions (<[a := y']> (actions w)) w).
Proof.
  intros [Em Ea Eo Ht Hok Hb HB Hr Hn] Er Eow Et. split; try done; cbn.
  - by simplify_map_eq.
  - congruence.
  - by rewrite Et.
  - by destruct Hok.
  - by rewrite Er.
  - intros n Hn'. destruct (Hn n Hn') as (z & Ez & Hz). exists z. split; [|done].
    rewrite lookup_insert_ne; [done |]. intros <-. by apply without_last_ne in Hn'.
Qed.

Lemma checked_same_owner w w' o : checked w w' -> is_Some (machines w !! o) -> is_Some (machines w' !! o).
Proof. intros C [x Ex]. destruct (checked_lookup _ _ _ _ C Ex) as (x' & -> & _). by eexists. Qed.

(** The machine after its counters changed. *)
Lemma fit_started a o x y B w w' : fit a o x y B w ->
  checked (started_world a o x y w) w' -> bounded (B + 1) w' ->
  exists x', mach_frame (set_stack (begun_stack a x) x) x' /\ fit a o x' (begun a x y) (B + 1) w'.
Proof.
  intros [Em Ea Eo Ht Hok Hb HB Hr Hn] C Hb'.
  destruct (checked_lookup _ _ o (set_stack (begun_stack a x) x) C) as (x' & Ex' & F);
    [unfold started_world; cbn; by simplify_map_eq |].
  exists x'. split; [done |].
  assert (active_actions x' = begun_stack a x) as Es by (by destruct F as [-> _]).
  split; rewrite ?Es, ?begun_without; try done.
  - rewrite (ck_actions _ _ C). cbn. by simplify_map_eq.
  - unfold begun. by destruct (on_top a x).
  - intros t Et. assert (trigger y = Some t) as Et' by (revert Et; unfold begun; by destruct (on_top a x)).
    rewrite (ck_triggers _ _ C). by apply Ht.
  - apply (checked_ok _ _ C). by apply (checks_ok_update w _ o x (set_stack (begun_stack a x) x)).
  - lia.
  - pose proof (begun_refs a x y). lia.
  - intros n Hn'. destruct (Hn n Hn') as (z & Ez & Hz). exists z. rewrite (ck_actions _ _ C). cbn. split.
    + rewrite lookup_insert_ne; [done |]. intros <-. by apply without_last_ne in Hn'.
    + apply (checked_same_owner _ _ _ C). unfold started_world. cbn. rewrite lookup_insert_is_Some'. by right.
Qed.

(** What an action that finishes leaves: [am] are the actions. *)
Definition left_by (a o : ptr) (x : Machine) (y : Action) (am : gmap ptr Action) (w w' : World) : Prop :=
  checked (with_actions am (removed a o x y w)) w' /\ am !! a = Some (stopped a x y) /\
  forall b, b <> a -> am !! b =
    (fun z => if bool_decide (list.last (without a (active_actions x)) = Some b) then unblocked z else z) <$> actions w !! b.

Lemma finish_checked st a o x y B w : fit a o x y B w -> B + 2 <= INT_MAX ->
  exists w' am, finish tk st a o w = Ok (st, w') /\ bounded (B + 2) w' /\
    left_by a o x (set_status st y) am (with_actions (<[a := set_status st y]> (actions w)) w) w'.
Proof.
  intros Hf HB. pose proof (fit_action _ _ _ _ _ _ Hf) as Ea. unfold finish, set_st. heap_step.
  destruct (fit_update a o x y (set_status st y) B w Hf) as [Em Ea' Eo Ht Hok Hb HB1 Hr Hn]; [done .. |].
  destruct (stop_checked tk _ o x a (set_status st y) B Hok Hb HB1 HB Em Ea' Ht Hr Hn)
    as (w' & am & Hs & Hb' & C & Ha & Hoth).
  exists w', am. rewrite (sbind_run _ _ _ _ _ Hs). split; [|split; [done |]; split; [done |]; by split].
  unfold get_status. erewrite (sbind_run (get_action a)) by (apply get_action_run; rewrite (ck_actions _ _ C); exact Ha).
  done.
Qed.

Lemma settle_final st a o w : is_final st = true -> settle tk st a o w = finish tk st a o w.
Proof. intros E. unfold settle. by rewrite E. Qed.
Lemma settle_open st a o y w : is_final st = false -> actions w !! a = Some y ->
  settle tk st a o w = Ok (st, with_actions (<[a := set_status st y]> (actions w)) w).
Proof.
  intros E Ea. unfold settle, set_st. rewrite E. heap_step. heap_step. unfold get_status. heap_step. done.
Qed.

(** [Action::operator()] of an action without a trigger, up to its [run]. *)
Definition readied (y : Action) : Action :=
  set_status Running (set_started false (set_blocked None (set_saved Running (set_error "" (set_status New y))))).
Definition is_command (b : Body) : bool := match b with BCommand _ => true | _ => false end.

Lemma reset_run a y w : actions w !! a = Some y -> trigger y = None -> is_command (body y) = false ->
  sbind (reset_virtual a) (fun _ => upd_action a (set_status Running)) w =
  Ok (tt, with_actions (<[a := readied y]> (actions w)) w).
Proof.
  intros Ea Et Eb. unfold reset_virtual. rewrite (sbind_run _ _ _ tt
    (with_actions (<[a := set_started false (set_blocked None (set_saved Running (set_error "" (set_status New y))))]> (actions w)) w)).
  - erewrite upd_action_run by look. unfold with_actions. cbn. by rewrite insert_insert_eq.
  - heap_step. destruct (body y); try done; unfold reset; heap_step; unfold cleanupTrigger; heap_step; cbn; by rewrite Et.
Qed.

(** An action that returns the status it has, and that throws nothing if it failed. *)
Lemma start_action_run a y w s w2 y2 : actions w !! a = Some y -> trigger y = None -> is_command (body y) = false ->
  run a (with_actions (<[a := readied y]> (actions w)) w) = Ok (s, w2) ->
  actions w2 !! a = Some y2 -> status y2 = s -> error_msg y2 = None -> timeout_msg y2 = None ->
  start_action a w = Ok (s, w2).
Proof.
  intros Ea Et Eb Hr E2 Es Ee Eto. unfold start_action.
  pose proof (reset_run a y w Ea Et Eb) as Hreset. unfold sbind at 1 in Hreset. unfold sbind at 1.
  destruct (reset_virtual a w) as [[[] w0]| |]; try done. rewrite (sbind_run _ _ _ _ _ Hreset), (sbind_run _ _ _ _ _ Hr).
  heap_step. replace (set_status s y2) with y2 by (destruct y2; cbn in *; by subst).
  rewrite insert_id by done. replace (with_actions (actions w2) w2) with w2 by (by destruct w2). heap_step.
  destruct s; by rewrite ?Ee, ?Eto.
Qed.
End Stacks.

(** ** Locks *)

(** The specification: a mutex that its holder may take again. The answer to a
    request, and who holds it then. *)
Inductive Request := Lock | Unlock.
Definition mutex (r : Request) (o : ptr) (h : option ptr) : Status * option ptr :=
  match r, h with
  | Lock, None => (Complete, Some o)
  | Lock, Some p => if bool_decide (p = o) then (Complete, Some o) else (Running, Some p)
  | Unlock, _ => if bool_decide (h = Some o) then (Complete, None) else (Failed, h)
  end.
Definition locks (w : World) : gmap ptr (option ptr) := locked <$> machines w.
Definition stack_of (o : ptr) (w : World) : option (list ptr) := active_actions <$> machines w !! o.

Lemma checked_locks w w' : checked w w' -> locks w' = locks w.
Proof.
  intros C. apply map_eq. intros m. unfold locks. rewrite !lookup_fmap.
  pose proof (ck_machines _ _ C m) as Hm. destruct Hm as [x y [-> _]|]; done.
Qed.
Lemma locks_update m x y w w' : machines w !! m = Some x -> locked y = locked x ->
  machines w' = <[m := y]> (machines w) -> locks w' = locks w.
Proof.
  intros Ex El Em. unfold locks. rewrite Em, fmap_insert, El. apply insert_id. by rewrite lookup_fmap, Ex.
Qed.
Lemma checked_stack w w' o : checked w w' -> stack_of o w' = stack_of o w.
Proof.
  intros C. unfold stack_of. pose proof (ck_machines _ _ C o) as Hm.
  destruct Hm as [x y [-> _]|]; done.
Qed.

(** A request to the lock of machine [k]. *)
Definition requested (r : Request) (k o : ptr) : M bool :=
  match r with Lock => lock k o | Unlock => unlock k o end.
Definition denied (r : Request) : Status := match r with Lock => Running | Unlock => Failed end.
Definition relocked (r : Request) (k o : ptr) (xk : Machine) (w : World) : World :=
  with_machines (<[k := set_locked (snd (mutex r o (locked xk))) xk]> (machines w)) w.

Lemma requested_run r k o xk w : machines w !! k = Some xk ->
  requested r k o w = Ok (bool_decide (fst (mutex r o (locked xk)) = Complete), relocked r k o xk w) /\
  (fst (mutex r o (locked xk)) <> Complete -> fst (mutex r o (locked xk)) = denied r).
Proof.
  intros Ek. assert (forall h, locked xk = h -> Ok (false, w) = Ok (false, with_machines (<[k := set_locked h xk]> (machines w)) w)) as Hid.
  { intros h <-. replace (set_locked (locked xk) xk) with xk by (by destruct xk).
    rewrite insert_id by done. by destruct w. }
  unfold relocked. destruct r; cbn [requested mutex].
  - unfold lock. heap_step. destruct (locked xk) as [p|] eqn:El; [|by heap_step].
    case_bool_decide as E; [by heap_step |]. cbn. split; [by apply Hid | done].
  - unfold unlock. heap_step. case_bool_decide as E; [by heap_step |]. cbn. split; [by apply Hid | done].
Qed.

(** Changing the lock of a machine keeps actions fit. *)
Definition with_lock (h : option ptr) (k o : ptr) (x : Machine) : Machine :=
  if bool_decide (k = o) then set_locked h x else x.
Lemma with_lock_stack h k o x : active_actions (with_lock h k o x) = active_actions x.
Proof. unfold with_lock. by case_bool_decide. Qed.
Lemma with_lock_id h k o x : set_stack (active_actions x) (with_lock h k o x) = with_lock h k o x.
Proof. unfold with_lock. case_bool_decide; by destruct x. Qed.
Lemma fit_relocked r a o x y B w k xk : fit a o x y B w -> machines w !! k = Some xk ->
  fit a o (with_lock (snd (mutex r o (locked xk))) k o x) y B (relocked r k o xk w).
Proof.
  intros [Em Ea Eo Ht Hok Hb HB Hr Hn] Ek.
  set (h := snd (mutex r o (locked xk))). set (x' := with_lock h k o x).
  pose proof (with_lock_stack h k o x : active_actions x' = _) as Es.
  split; rewrite ?Es; try done; unfold relocked; cbn.
  - subst x'. unfold with_lock. case_bool_decide as E; [subst k; simplify_eq; by simplify_map_eq | by simplify_map_eq].
  - by apply (checks_ok_update w _ k xk (set_locked h xk)).
  - apply map_Forall_insert_2; [exact (Hb _ _ Ek) | done].
  - intros n Hn'. destruct (Hn n Hn') as (z & Ez & Hz). exists z. split; [done |].
    rewrite lookup_insert_is_Some'. by right.
Qed.
Lemma relocked_locks r k o xk w : locks (relocked r k o xk w) = <[k := snd (mutex r o (locked xk))]> (locks w).
Proof. unfold locks, relocked. cbn. by rewrite fmap_insert. Qed.

(** What a turn of the action [a] of machine [o] leaves, when it answers a request
    to the lock of [k], which [h] then holds: [l] is the stack of [o], and [below]
    is the action that is resumed. *)
Record turned (a o k : ptr) (h : option ptr) (l : list ptr) (below : option ptr) (B : Z) (w w' : World) : Prop := {
  tn_locks : locks w' = <[k := h]> (locks w);
  tn_triggers : triggers w' = triggers w;
  tn_checks : checks_ok w';
  tn_bound : bounded B w';
  tn_effects : effects w' = effects w;
  tn_machines : forall m z, machines w !! m = Some z -> exists z', machines w' !! m = Some z' /\
    mach_frame (set_stack (if bool_decide (m = o) then l else active_actions z) (with_lock h k m z)) z';
  tn_others : forall b, b <> a -> actions w' !! b =
    (fun z => if bool_decide (below = Some b) then unblocked z else z) <$> actions w !! b
}.
(** The fields of the action that a turn keeps. *)
Definition same_action (y y' : Action) : Prop :=
  a_owner y' = a_owner y /\ trigger y' = None /\ error_msg y' = error_msg y /\ timeout_msg y' = timeout_msg y.

Lemma drop_no_trigger a tm : drop_trigger a None tm = tm.
Proof. done. Qed.

Section Requests.
Context (tk : ClockworkToken) `{!Virtuals}.

(** The answer to a request of an action that is on top of its stack. *)
Lemma request_settles r a o x y B w k xk : fit a o x y B w -> executing x = Some a -> trigger y = None ->
  machines w !! k = Some xk -> B + 2 <= INT_MAX ->
  let st := fst (mutex r o (locked xk)) in
  exists w' y',
    sbind (requested r k o) (fun ok => settle tk (if ok : bool then Complete else denied r) a o) w = Ok (st, w') /\
    turned a o k (snd (mutex r o (locked xk)))
      (if is_final st then without a (active_actions x) else active_actions x)
      (if is_final st then list.last (without a (active_actions x)) else None) (B + 2) w w' /\
    actions w' !! a = Some y' /\ status y' = st /\ same_action y y' /\ body y' = body y /\
    a_refs y' = a_refs y - (if is_final st then Z.of_nat (occurrences a (active_actions x)) else 0).
Proof.
  intros Hf Htop Et Ek HB st. destruct (requested_run r k o xk w Ek) as [Hr Hd].
  rewrite (sbind_run _ _ _ _ _ Hr). set (h := snd (mutex r o (locked xk))) in *.
  pose proof (fit_relocked r a o x y B w k xk Hf Ek) as Hf2. fold h in Hf2.
  set (w2 := relocked r k o xk w) in *. set (x2 := with_lock h k o x) in *.
  pose proof (with_lock_stack h k o x : active_actions x2 = _) as Es.
  replace (if bool_decide (fst (mutex r o (locked xk)) = Complete) then Complete else denied r) with st.
  2: { subst st. case_bool_decide as E; [by rewrite E | by rewrite (Hd E)]. }
  assert (forall m z, machines w !! m = Some z -> machines w2 !! m = Some (with_lock h k m z)) as Hm2.
  { intros m z Hz. subst w2. unfold relocked, with_lock. cbn. clear Hr Hd. case_bool_decide as E;
      [subst m; simplify_eq; by simplify_map_eq | by simplify_map_eq]. }
  clear Hr Hd.
  destruct (is_final st) eqn:Efin.
  - rewrite settle_final by done.
    destruct (finish_checked tk st a o x2 y B w2 Hf2 HB) as (w' & am & Hs & Hb & C & Ha & Ho).
    rewrite Es in Ho. unfold stopped in Ha. rewrite Es in Ha.
    eexists w', _. split; [exact Hs |]. split.
    + split; try done.
      * rewrite (checked_locks _ _ C). etrans; [|exact (relocked_locks r k o xk w)].
        eapply (locks_update o x2); [exact (fit_machine _ _ _ _ _ _ Hf2) | | reflexivity]. done.
      * rewrite (ck_triggers _ _ C). cbn. rewrite Et. done.
      * apply (checked_ok _ _ C). unfold removed.
        apply (checks_ok_update w2 _ o x2 (set_stack (without a (active_actions x2)) x2)); try done;
          [exact (fit_checks _ _ _ _ _ _ Hf2) | exact (fit_machine _ _ _ _ _ _ Hf2)].
      * by rewrite (ck_effects _ _ C).
      * intros m z Hz. apply Hm2 in Hz.
        case_bool_decide as E.
        -- subst m. rewrite (fit_machine _ _ _ _ _ _ Hf2) in Hz. injection Hz as <-.
           destruct (checked_lookup _ _ o (set_stack (without a (active_actions x2)) x2) C) as (z' & Hz' & F);
             [unfold removed; cbn; by simplify_map_eq |]. exists z'. split; [done |]. by rewrite <- Es.
        -- destruct (checked_lookup _ _ m (with_lock h k m z) C) as (z' & Hz' & F);
             [unfold removed; cbn; by rewrite lookup_insert_ne |].
           exists z'. split; [done |]. by rewrite with_lock_id.
      * intros b Hb'. rewrite (ck_actions _ _ C). cbn [actions with_actions]. rewrite Ho by done.
        cbn. by rewrite lookup_insert_ne.
    + split; [rewrite (ck_actions _ _ C); exact Ha |]. cbn. done.
  - rewrite (settle_open tk st a o y w2 Efin (fit_action _ _ _ _ _ _ Hf2)).
    eexists _, (set_status st y). split; [reflexivity |]. split.
    + split; try done.
      * exact (relocked_locks r k o xk w).
      * destruct (fit_checks _ _ _ _ _ _ Hf2). by split.
      * exact (bounded_mono B (B + 2) w2 (fit_bound _ _ _ _ _ _ Hf2) ltac:(lia)).
      * intros m z Hz. exists (with_lock h k m z). split; [by apply Hm2 |].
        case_bool_decide as E; [subst m; rewrite (fit_machine _ _ _ _ _ _ Hf) in Hz; injection Hz as <- |];
          rewrite with_lock_id; apply mach_frame_refl.
      * intros b Hb'. cbn. rewrite lookup_insert_ne by done. by destruct (actions w !! b).
    + split; [cbn; by simplify_map_eq |]. unfold same_action. cbn. by rewrite Z.sub_0_r.
Qed.

(** A turn after the action was started. *)
Lemma mach_frame_stack l x y : mach_frame x y -> mach_frame (set_stack l x) (set_stack l y).
Proof. intros [-> Hle]. split; [by destruct x | done]. Qed.
Lemma mach_frame_lock h k m x y : mach_frame x y -> mach_frame (with_lock h k m x) (with_lock h k m y).
Proof. intros [-> Hle]. unfold with_lock. case_bool_decide; (split; [by destruct x | done]). Qed.
Lemma mach_frame_locked x y : mach_frame x y -> locked y = locked x.
Proof. by intros [-> _]. Qed.

Lemma turned_after_start a o x y y2 k h l below B w w1 w' : machines w !! o = Some x ->
  checked (started_world a o x y w) w1 ->
  turned a o k h l below B (with_actions (<[a := y2]> (actions w1)) w1) w' -> turned a o k h l below B w w'.
Proof.
  intros Ex C [Hl Ht Hc Hb He Hm Ho].
  assert (locks w1 = locks w) as El.
  { rewrite (checked_locks _ _ C). by apply (locks_update o x (set_stack (begun_stack a x) x) w). }
  split; try done.
  - rewrite Hl. unfold locks at 1. cbn. by rewrite <- El.
  - rewrite Ht. cbn. by rewrite (ck_triggers _ _ C).
  - rewrite He. cbn. by rewrite (ck_effects _ _ C).
  - intros m z Hz. destruct (checked_lookup _ _ m
      (if bool_decide (m = o) then set_stack (begun_stack a x) z else z) C) as (z1 & Hz1 & F1).
    { unfold started_world. cbn. case_bool_decide as E; [subst m; simplify_eq |]; by simplify_map_eq. }
    destruct (Hm m z1 Hz1) as (z' & Hz' & F'). exists z'. split; [done |]. eapply mach_frame_trans; [|exact F'].
    apply mach_frame_lock with (h := h) (k := k) (m := m) in F1. case_bool_decide as E.
    + apply mach_frame_stack with (l := l) in F1. revert F1. unfold with_lock. by case_bool_decide; destruct z.
    + replace (active_actions z1) with (active_actions z); [by apply mach_frame_stack |].
      destruct (checked_lookup _ _ m z C) as (z2 & Hz2 & [E2 _]);
        [unfold started_world; cbn; by rewrite lookup_insert_ne |]. rewrite Hz1 in Hz2. injection Hz2 as <-. by rewrite E2.
  - intros b Hb'. rewrite Ho by done. cbn. rewrite lookup_insert_ne, (ck_actions _ _ C) by done. cbn.
    by rewrite lookup_insert_ne.
Qed.

Context `{!Environs}.
Definition request_body (r : Request) (name : string) (k : option ptr) : Body :=
  match r with Lock => BLock name k | Unlock => BUnlock name k end.
Definition request_run (r : Request) (name : string) (a : ptr) : M Status :=
  match r with Lock => LockAction_run tk name a | Unlock => UnlockAction_run tk name a end.

Lemma request_runs r name a o x y B w k xk : fit a o x y B w -> started_ y = false -> trigger y = None ->
  (forall w, find_machine o name w = Ok (Some k, w)) -> machines w !! k = Some xk -> B + 3 <= INT_MAX ->
  let st := fst (mutex r o (locked xk)) in
  exists w' y', request_run r name a w = Ok (st, w') /\
    turned a o k (snd (mutex r o (locked xk)))
      (if is_final st then without a (active_actions x) else begun_stack a x)
      (if is_final st then list.last (without a (active_actions x)) else None) (B + 3) w w' /\
    actions w' !! a = Some y' /\ status y' = st /\ same_action y y' /\ body y' = request_body r name (Some k) /\
    a_refs y' = a_refs y + (if is_final st then - Z.of_nat (occurrences a (active_actions x))
                            else if on_top a x then 0 else 1).
Proof.
  intros Hf Hs Et Hfind Ek HB st. pose proof (fit_action _ _ _ _ _ _ Hf) as Ea.
  destruct (start_checked tk a o x y B w Hf Hs ltac:(lia)) as (w1 & Hr & C & Hb).
  destruct (fit_started a o x y B w w1 Hf C Hb) as (x1 & F1 & Hf1).
  set (y2 := set_body (request_body r name (Some k)) (begun a x y)).
  assert (fit a o x1 y2 (B + 1) (with_actions (<[a := y2]> (actions w1)) w1)) as Hf2 by (by apply fit_update with (1 := Hf1)).
  assert (active_actions x1 = begun_stack a x) as Es by (by destruct F1 as [-> _]).
  destruct (checked_lookup _ _ k (if bool_decide (k = o) then set_stack (begun_stack a x) xk else xk) C) as (xk1 & Ek1 & Fk).
  { unfold started_world. cbn. pose proof (fit_machine _ _ _ _ _ _ Hf).
    case_bool_decide as E; [subst k; simplify_eq |]; by simplify_map_eq. }
  assert (locked xk1 = locked xk) as Elk by (rewrite (mach_frame_locked _ _ Fk); by case_bool_decide).
  destruct (request_settles r a o x1 y2 (B + 1) (with_actions (<[a := y2]> (actions w1)) w1) k xk1 Hf2)
    as (w' & y' & Hreq & Htn & Ea' & Est & Hsame & Hbody & Hrefs);
    [unfold executing; by rewrite Es, begun_top | subst y2; unfold begun; by destruct (on_top a x) | done | lia |].
  rewrite Elk, Es, ?begun_without in *. fold st in Hreq, Htn, Est, Hrefs. replace (B + 1 + 2) with (B + 3) in * by lia.
  exists w', y'. split.
  { assert (sbind (find_machine o name) (fun k => run! upd_action a (set_body (request_body r name k)) in
      match k with
      | Some k => let! ok := requested r k o in settle tk (if ok : bool then Complete else denied r) a o
      | None => settle tk Failed a o end) w1 = Ok (st, w')) as Htail.
    { rewrite (sbind_run _ _ _ _ _ (Hfind w1)).
      erewrite (sbind_run (upd_action _ _)) by (apply upd_action_run; exact (fit_action _ _ _ _ _ _ Hf1)).
      exact Hreq. }
    destruct r; cbn [request_run]; unfold LockAction_run, UnlockAction_run; heap_step;
      rewrite (fit_owner _ _ _ _ _ _ Hf), (sbind_run _ _ _ _ _ Hr); exact Htail. }
  split; [by apply (turned_after_start a o x y y2) with (w1 := w1); [exact (fit_machine _ _ _ _ _ _ Hf) | |] |].
  split; [done |]. split; [done |].
  split; [revert Hsame; unfold same_action; subst y2; unfold begun; by destruct (on_top a x) |]. split; [done |].
  rewrite Hrefs. pose proof (begun_refs a x y) as Hbr. subst y2. cbn [a_refs set_body]. revert Hbr. rewrite ?Es.
  unfold begun, begun_stack. destruct (is_final st), (on_top a x); cbn [a_refs set_started set_arefs]; lia.
Qed.
End Requests.

Section Mutex.
Context (tk : ClockworkToken) `{!Environs} (n : nat).
(** The control actions; calls from them go one level down. *)
Let top := virtuals tk (S n).

(** An action for a request of machine [o] to the lock of [k]. *)
Record client (r : Request) (k a o : ptr) (x : Machine) (y : Action) (B : Z) (w : World) : Prop := {
  cl_fit : fit a o x y B w;
  cl_body : exists name k0, body y = request_body r name k0 /\ (forall w, find_machine o name w = Ok (Some k, w));
  cl_trigger : trigger y = None;
  cl_error : error_msg y = None;
  cl_timeout : timeout_msg y = None;
  cl_target : is_Some (machines w !! k)
}.
(** A LOCK that was not granted, on top of its stack. *)
Definition waiting (k a o : ptr) (x : Machine) (y : Action) (B : Z) (w : World) : Prop :=
  client Lock k a o x y B w /\ (exists name, body y = BLock name (Some k)) /\ status y = Running /\ executing x = Some a.

Lemma turned_after_update a o k h l below B w w' y' :
  turned a o k h l below B (with_actions (<[a := y']> (actions w)) w) w' -> turned a o k h l below B w w'.
Proof.
  intros [Hl Ht Hc Hb He Hm Ho]. split; try done. intros b Hb'. rewrite Ho by done. cbn. by rewrite lookup_insert_ne.
Qed.

Lemma request_starts r k a o x y B w : client r k a o x y B w -> B + 3 <= INT_MAX ->
  exists xk, machines w !! k = Some xk /\ let st := fst (mutex r o (locked xk)) in
  exists w' y', @start_action top a w = Ok (st, w') /\
    turned a o k (snd (mutex r o (locked xk)))
      (if is_final st then without a (active_actions x) else begun_stack a x)
      (if is_final st then list.last (without a (active_actions x)) else None) (B + 3) w w' /\
    actions w' !! a = Some y' /\ status y' = st /\ same_action y y' /\
    (exists name, body y' = request_body r name (Some k)) /\
    a_refs y' = a_refs y + (if is_final st then - Z.of_nat (occurrences a (active_actions x))
                            else if on_top a x then 0 else 1).
Proof.
  intros [Hf (name & k0 & Eb & Hfind) Et Ee Eto [xk Ek]] HB. exists xk. split; [done |]. intros st.
  assert (fit a o x (readied y) B (with_actions (<[a := readied y]> (actions w)) w)) as Hf0 by (by apply fit_update with (1 := Hf)).
  destruct (@request_runs tk (virtuals tk n) _ r name a o x (readied y) B (with_actions (<[a := readied y]> (actions w)) w) k xk Hf0)
    as (w' & y' & Hr & Htn & Ea & Est & (Ho & Htr & Her & Hto) & Hbody & Hrefs); [done .. |]. fold st in Hr, Htn, Est, Hrefs.
  exists w', y'. split.
  { eapply start_action_run; [exact (fit_action _ _ _ _ _ _ Hf) | done | rewrite Eb; by destruct r | | exact Ea | done
      | rewrite Her; exact Ee | rewrite Hto; exact Eto].
    change (@run_body tk _ (virtuals tk n) a (with_actions (<[a := readied y]> (actions w)) w) = Ok (st, w')).
    unfold run_body. heap_step. change (body (readied y)) with (body y). rewrite Eb. destruct r; exact Hr. }
  split; [by eapply turned_after_update |]. split; [done |]. split; [done |]. split; [done |]. split; [by eexists | done].
Qed.

(** A waiting LOCK that is checked again. *)
Lemma waiting_checks k a o x y B w : waiting k a o x y B w -> B + 2 <= INT_MAX ->
  exists xk, machines w !! k = Some xk /\ let st := fst (mutex Lock o (locked xk)) in
  exists w' y', @complete top a w = Ok (is_final st, w') /\
    turned a o k (snd (mutex Lock o (locked xk)))
      (if is_final st then without a (active_actions x) else active_actions x)
      (if is_final st then list.last (without a (active_actions x)) else None) (B + 2) w w' /\
    actions w' !! a = Some y' /\ status y' = st.
Proof.
  intros [[Hf _ Et _ _ [xk Ek]] [[name Eb] [Es Htop]]] HB. exists xk. split; [done |]. intros st.
  destruct (@request_settles tk (virtuals tk n) Lock a o x y B w k xk Hf Htop Et Ek HB)
    as (w' & y' & Hr & Htn & Ea & Est & _). fold st in Hr, Htn, Est.
  pose proof (fit_action _ _ _ _ _ _ Hf) as Ea0. exists w', y'. split; [|done].
  assert (@checkComplete top a w = Ok (st, w')) as Hcheck.
  { change (@check_body tk _ (virtuals tk n) a w = Ok (st, w')). unfold check_body. heap_step. rewrite Eb.
    unfold LockAction_checkComplete, when_on_top. heap_step. rewrite Es. cbn [is_final].
    unfold executingCommand. rewrite (fit_owner _ _ _ _ _ _ Hf), (sbind_run _ _ _ (executing x) w)
      by (pose proof (fit_machine _ _ _ _ _ _ Hf); by heap_step).
    rewrite bool_decide_true by done. exact Hr. }
  unfold complete, poll_status. rewrite (sbind_run _ _ _ tt w').
  2: { heap_step. rewrite Es, (sbind_run _ _ _ _ _ Hcheck). erewrite upd_action_run by exact Ea.
       replace (set_status st y') with y' by (destruct y'; cbn in *; by subst). rewrite insert_id by done. by destruct w'. }
  heap_step. by rewrite Est.
Qed.

(** Histories: turns of LOCK and UNLOCK actions, of any machines, in any order,
    with anything between them that leaves the locks alone. *)
Record event := mkEvent { ev_request : Request; ev_owner : ptr; ev_lock : ptr; ev_status : Status }.
Inductive history : World -> list event -> World -> Prop :=
| history_end w : history w [] w
| history_other w w1 tr w2 : locks w1 = locks w -> history w1 tr w2 -> history w tr w2
| history_start r k a o x y B w st w1 tr w2 : client r k a o x y B w -> B + 3 <= INT_MAX ->
    @start_action top a w = Ok (st, w1) -> history w1 tr w2 -> history w (mkEvent r o k st :: tr) w2
| history_check k a o x y B w fin w1 tr w2 : waiting k a o x y B w -> B + 2 <= INT_MAX ->
    @complete top a w = Ok (fin, w1) -> history w1 tr w2 ->
    history w (mkEvent Lock o k (if fin : bool then Complete else Running) :: tr) w2.

Lemma locks_of k xk w : machines w !! k = Some xk -> default None (locks w !! k) = locked xk.
Proof. intros Ek. unfold locks. by rewrite lookup_fmap, Ek. Qed.
(** The answers of one mutex for each machine. *)
Fixpoint mutexes (tr : list event) (held : gmap ptr (option ptr)) : list Status * gmap ptr (option ptr) :=
  match tr with
  | [] => ([], held)
  | e :: tr' =>
      let r := mutex (ev_request e) (ev_owner e) (default None (held !! ev_lock e)) in
      let rest := mutexes tr' (<[ev_lock e := snd r]> held) in
      (fst r :: fst rest, snd rest)
  end.

(** C4: LOCK and UNLOCK refine a mutex: in any history of turns of LOCK and UNLOCK
    actions, first runs and later checks of LOCKs that wait, of any machines in
    any order, interleaved with anything that leaves the locks alone, every answer
    and the locks at the end are those of one re-entrant mutex for each machine. *)
Theorem locks_refine_mutex w tr w' : history w tr w' ->
  mutexes tr (locks w) = (ev_status <$> tr, locks w').
Proof.
  induction 1 as [w | w w1 tr w2 El Hh IH | r k a o x y B w st w1 tr w2 Hc HB Hr Hh IH
                 | k a o x y B w fin w1 tr w2 Hw HB Hr Hh IH]; [done | by rewrite <- El | |].
  - destruct (request_starts r k a o x y B w Hc HB) as (xk & Ek & w1' & y' & Hr' & Htn & _).
    rewrite Hr in Hr'. injection Hr' as -> <-. cbn [mutexes ev_request ev_owner ev_lock ev_status].
    by rewrite (locks_of k xk w Ek), <- (tn_locks _ _ _ _ _ _ _ _ _ Htn), IH.
  - destruct (waiting_checks k a o x y B w Hw HB) as (xk & Ek & w1' & y' & Hr' & Htn & _).
    rewrite Hr in Hr'. injection Hr' as -> <-. cbn [mutexes ev_request ev_owner ev_lock ev_status].
    rewrite (locks_of k xk w Ek), <- (tn_locks _ _ _ _ _ _ _ _ _ Htn), IH. cbn [fst snd fmap list_fmap ev_status].
    do 2 f_equal. cbn. destruct (locked xk); [case_bool_decide |]; done.
Qed.

Lemma unblocked_owner z : a_owner (unblocked z) = a_owner z.
Proof. unfold unblocked. by destruct (status z). Qed.

(** A turn of another machine's action leaves a waiting LOCK waiting. *)
Lemma waiting_after u p l below h k a o x y B B' w w' : waiting k a o x y B w ->
  turned u p k h l below B' w w' -> 1 <= B' -> o <> p -> a <> u -> below <> Some a -> u ∉ active_actions x ->
  exists x', waiting k a o x' y B' w' /\ active_actions x' = active_actions x.
Proof.
  intros [[Hf Hb Et Ee Eto [xk Ek]] (Hbody & Es & Htop)] [Hl Ht Hc Hbd He Hm Ho] HB Hop Hau Hbelow Hu.
  destruct Hf as [Em Ea Eo Htr Hok Hbw HBw Hr Hn].
  destruct (Hm o x Em) as (x' & Ex' & F). rewrite bool_decide_false, with_lock_id in F by done.
  assert (active_actions x' = active_actions x) as Est by (destruct F as [-> _]; exact (with_lock_stack h k o x)).
  exists x'. split; [|done]. unfold waiting, executing. rewrite Est. split; [|done].
  destruct (Hm k xk Ek) as (xk' & Ek' & _). split; try done.
  - split; rewrite ?Est; try done.
    + rewrite Ho, Ea by done. cbn. by rewrite bool_decide_false by done.
    + by rewrite Et.
    + intros q Hq. destruct (Hn q Hq) as (z & Ez & [mo Hmo]).
      assert (q <> u) as Hne by (intros ->; apply last_Some_elem_of, list_elem_of_filter in Hq as [_ Hq]; done).
      exists (if bool_decide (below = Some q) then unblocked z else z). rewrite Ho, Ez by done. split; [done |].
      destruct (Hm _ _ Hmo) as (mo' & Hmo' & _). case_bool_decide; [rewrite unblocked_owner |]; by rewrite Hmo'.
Qed.

(** A lock that is released is taken by the machine that waits for it: when
    the holder of the lock of machine [k] runs UNLOCK and the LOCK of another
    machine is waiting on top of its stack, the UNLOCK completes and frees the
    lock, and the next check of the LOCK completes it: its machine holds the lock,
    the action is off the stack, and the action below it is unblocked and resumed. *)
Theorem released_lock_is_taken k u p xu yu a o x y B w : client Unlock k u p xu yu B w ->
  waiting k a o x y B w -> B + 5 <= INT_MAX -> p <> o -> a <> u ->
  a ∉ active_actions xu -> u ∉ active_actions x -> default None (locks w !! k) = Some p ->
  exists w1 w2, @start_action top u w = Ok (Complete, w1) /\ locks w1 = <[k := None]> (locks w) /\
    @complete top a w1 = Ok (true, w2) /\ locks w2 = <[k := Some o]> (locks w) /\
    stack_of o w2 = Some (without a (active_actions x)) /\
    forall b z, list.last (without a (active_actions x)) = Some b -> actions w1 !! b = Some z ->
      actions w2 !! b = Some (unblocked z).
Proof.
  intros Hc Hw HB Hpo Hau Ha Hu Hheld.
  destruct (request_starts Unlock k u p xu yu B w Hc ltac:(lia)) as (xk & Ek & w1 & yu' & Hr1 & Htn1 & _).
  rewrite (locks_of k xk w Ek) in Hheld. rewrite Hheld in Hr1, Htn1. cbn [mutex fst snd] in Hr1, Htn1.
  rewrite bool_decide_true in Hr1, Htn1 by done. cbn [fst snd is_final] in Hr1, Htn1.
  destruct (waiting_after u p _ _ _ k a o x y B (B + 3) w w1 Hw Htn1) as (x1 & Hw1 & Est); try done.
  { pose proof (fit_room _ _ _ _ _ _ (cl_fit _ _ _ _ _ _ _ _ Hc)). lia. }
  { intros Hl. apply last_Some_elem_of, list_elem_of_filter in Hl as [_ Hl]. done. }
  destruct (waiting_checks k a o x1 y (B + 3) w1 Hw1 ltac:(lia)) as (xk1 & Ek1 & w2 & y2 & Hr2 & Htn2 & _).
  assert (locked xk1 = None) as E1.
  { rewrite <- (locks_of k xk1 w1 Ek1), (tn_locks _ _ _ _ _ _ _ _ _ Htn1). by rewrite lookup_insert_eq. }
  rewrite E1, Est in Htn2. rewrite E1 in Hr2. cbn [mutex fst snd is_final] in Hr2, Htn2.
  exists w1, w2. split; [done |]. split; [exact (tn_locks _ _ _ _ _ _ _ _ _ Htn1) |]. split; [done |].
  split; [rewrite (tn_locks _ _ _ _ _ _ _ _ _ Htn2), (tn_locks _ _ _ _ _ _ _ _ _ Htn1); by rewrite insert_insert_eq |].
  destruct Hw1 as [[Hf1 _ _ _ _ _] _].
  destruct (tn_machines _ _ _ _ _ _ _ _ _ Htn2 o x1 (fit_machine _ _ _ _ _ _ Hf1)) as (x2 & Ex2 & F2).
  split; [unfold stack_of; rewrite Ex2; cbn; destruct F2 as [-> _]; by rewrite bool_decide_true |].
  intros b z Hlast Hz. rewrite (tn_others _ _ _ _ _ _ _ _ _ Htn2), Hz by (by apply without_last_ne in Hlast).
  cbn. by rewrite bool_decide_true.
Qed.
End Mutex.
