(* ===== verification/CommandProps.v ===== *)
(** Properties of commands and waits: a WAIT ends when its timer fires, a command
    runs its steps in order, and what becomes of a step that fails.
    Sample machines for the properties of the control actions: three machines, one
    of which is locked by the other two; a command with a step that fails; a
    machine that waits. *)
From S2P Require Import Prelude Cnum Tokeniser Value SymbolTable Message Machine MachineProps Control ControlProps.
Open Scope Z_scope.
Local Open Scope sm_scope.

(** ** A step that fails *)
Lemma sbind_inv {S A B} (m : SM S A) (f : A -> SM S B) s r s' : sbind m f s = Ok (r, s') ->
  exists a s1, m s = Ok (a, s1) /\ f a s1 = Ok (r, s').
Proof. unfold sbind. destruct (m s) as [[a s1]| |]; [eauto | done | done]. Qed.
Lemma get_action_inv a w y w' : get_action a w = Ok (y, w') -> w' = w /\ actions w !! a = Some y.
Proof. unfold get_action. destruct (actions w !! a); [by intros [= -> ->] | done]. Qed.
Lemma upd_action_inv a f w u w' : upd_action a f w = Ok (u, w') ->
  exists y, actions w !! a = Some y /\ w' = with_actions (<[a := f y]> (actions w)) w.
Proof.
  unfold upd_action. intros Hr. apply sbind_inv in Hr as (y & w1 & H1 & Hr).
  apply get_action_inv in H1 as [-> Hy]. injection Hr as _ <-. by eexists.
Qed.
(** Take one step of a computation that returned apart. *)
Ltac invert_step :=
  match goal with
  | H : sbind _ _ _ = Ok _ |- _ =>
      let a := fresh "r" in let s := fresh "s" in let E := fresh "E" in
      apply sbind_inv in H as (a & s & E & H); cbv beta in H
  | H : sret _ _ = Ok _ |- _ => injection H as ? ?; subst
  | H : get_action _ _ = Ok _ |- _ => apply get_action_inv in H as [? ?]; subst
  | H : upd_action _ _ _ = Ok _ |- _ => apply upd_action_inv in H as (? & ? & ?); subst
  end.

Section Failing.
Context (tk : ClockworkToken) `{!Virtuals}.

(** The status [operator()] returns is the one the action has. *)
Lemma throwing_status (b m : ptr) (msg : option string) bd w u w' y :
  match msg with
  | Some t => let! aa := Action_new m None (bd t) in enqueueAction aa m
  | None => sret tt
  end w = Ok (u, w') -> actions w !! b = Some y -> actions w' !! b = Some y.
Proof.
  destruct msg as [t|]; [|intros Hr Hy; by injection Hr as <- <-]. intros Hr Hy.
  unfold Action_new, alloc_action in Hr. cbn in Hr. unfold enqueueAction, upd_machine in Hr.
  repeat (invert_step || (unfold get_machine in *; case_match; simplify_eq)).
  unfold count_work, workset_add, activate, modify in *. simplify_eq. cbn.
  rewrite lookup_insert_ne; [done |]. intros <-. apply (is_fresh (dom (actions w))). by apply elem_of_dom.
Qed.
Lemma start_action_status b w st w' : start_action b w = Ok (st, w') ->
  exists y, actions w' !! b = Some y /\ status y = st.
Proof.
  unfold start_action. intros Hr. do 3 invert_step. clear E E0 E1.
  apply sbind_inv in Hr as (? & w2 & E2 & Hr). apply upd_action_inv in E2 as (y & Hy & ->).
  apply sbind_inv in Hr as (z & w3 & E3 & Hr). apply get_action_inv in E3 as [-> Hz].
  cbn in Hz. rewrite lookup_insert_eq in Hz. injection Hz as <-.
  apply sbind_inv in Hr as (u & w4 & E4 & Hr). injection Hr as <- <-.
  exists (set_status r1 y). split; [|done].
  destruct r1; try (injection E4 as _ <-; cbn; by simplify_map_eq).
  apply (throwing_status b (a_owner y) (match error_msg y with Some m => Some m | None => timeout_msg y end)
    (fun t => BAbort true (value_text t)) (with_actions (<[b := set_status Failed y]> (actions s1)) s1) u w4);
    [|apply lookup_insert_eq].
  cbn [error_msg timeout_msg set_status a_owner] in E4. destruct (error_msg y), (timeout_msg y); exact E4.
Qed.

Lemma complete_final b y w r w' : actions w !! b = Some y -> is_final (status y) = true ->
  complete b w = Ok (r, w') -> r = true.
Proof.
  intros Ey Hf. unfold complete, poll_status. rewrite (sbind_run _ _ _ tt w) by (heap_step; by destruct (status y)).
  heap_step. rewrite Hf. by intros [= <- _].
Qed.
Lemma run_step_status b a o w st w' : run_step tk b a o w = Ok (Some st, w') -> st <> Failed.
Proof.
  unfold run_step. intros Hr. do 4 invert_step. apply start_action_status in E2 as (y & Hy & Hst).
  apply sbind_inv in Hr as (z & ? & E3 & Hr). apply get_action_inv in E3 as [-> Hz].
  destruct (is_abort z).
  { apply sbind_inv in Hr as (? & ? & Ha & Hr). injection Hr as <- _. unfold abort_command in Ha.
    do 8 (apply sbind_inv in Ha as (? & ? & _ & Ha)). by injection Ha as <- _. }
  apply sbind_inv in Hr as (? & w3 & E3 & Hr).
  assert (exists y3, actions w3 !! b = Some y3 /\ status y3 = r2) as (y3 & Hy3 & Hst3).
  { destruct r2; try (injection E3 as _ <-; by exists y). apply sbind_inv in E3 as (? & ? & E4 & E3).
    injection E4 as _ <-. apply upd_action_inv in E3 as (ya & Hya & ->). cbn in *.
    destruct (decide (a = b)) as [-> | Hne]; [|rewrite lookup_insert_ne by done; by exists y].
    rewrite lookup_insert_eq. eexists. split; [done |]. by simplify_eq. }
  assert (r2 <> Failed \/ r2 = Failed) as [Hn | ->] by (destruct r2; auto).
  - destruct r2; try done.
    all: try (apply sbind_inv in Hr as (d & ? & _ & Hr); destruct d;
      [apply sbind_inv in Hr as (? & ? & _ & Hr); done | apply sbind_inv in Hr as (? & ? & _ & Hr); by injection Hr as <- _]).
    all: do 3 (apply sbind_inv in Hr as (? & ? & _ & Hr)); apply sbind_inv in Hr as (? & ? & E5 & Hr);
      apply upd_action_inv in E5 as (ya & _ & ->); apply sbind_inv in Hr as (s6 & ? & E6 & Hr); injection Hr as <- _;
      unfold get_status in E6; apply sbind_inv in E6 as (? & ? & E7 & E6); apply get_action_inv in E7 as [-> Hya];
      cbn in Hya; rewrite lookup_insert_eq in Hya; injection Hya as <-; by injection E6 as <- _.
  - apply sbind_inv in Hr as (d & ? & Hc & Hr).
    apply (complete_final b y3) in Hc as ->; [|done | by rewrite Hst3].
    apply sbind_inv in Hr as (? & ? & _ & Hr). done.
Qed.

(** A command does not notice that one of its steps failed: [runActions] never
    returns [Failed], whatever the steps do, so the branch of [run] that reports
    the failure of a step is never taken; the loop goes on with the next step. *)
Theorem failed_step_ignored fuel a o w st w' : runActions tk fuel a o w = Ok (st, w') -> st <> Failed.
Proof.
  revert w. induction fuel as [|fuel IH]; intros w; cbn [runActions]; intros Hr; invert_step;
    destruct (steps _ !! _) as [b|]; try done; try (by injection Hr as <- _).
  invert_step. destruct r0 as [s1|]; [injection Hr as <- <- | by apply IH in Hr].
  by eapply run_step_status.
Qed.
End Failing.

Section Stuck.
Context (tk : ClockworkToken) `{!Environs} (n : nat).
Let top := virtuals tk (S n).

(** The command [a] of machine [o] runs, and its current step [b] has failed. *)
Definition stuck (a o b : ptr) (B : Z) (w : World) : Prop :=
  exists x y c z, fit a o x y B w /\ body y = BCommand c /\ steps c !! current_step c = Some b /\
    status y = Running /\ actions w !! b = Some z /\ status z = Failed /\ a <> b.

(** The fields [stop] keeps. *)
Lemma stopped_fit a o x y am B w w' : fit a o x y B w -> bounded (B + 2) w' ->
  left_by a o x y am w w' -> 
  exists x', active_actions x' = without a (active_actions x) /\ fit a o x' (stopped a x y) (B + 2) w'.
Proof.
  intros [Em Ea Eo Ht Hok Hb HB Hr Hn] Hb' (C & Ha & Ho).
  destruct (checked_lookup _ _ o (set_stack (without a (active_actions x)) x) C) as (x' & Ex' & F);
    [unfold removed; cbn; by simplify_map_eq |].
  assert (active_actions x' = without a (active_actions x)) as Es by (by destruct F as [-> _]).
  assert (without a (without a (active_actions x)) = without a (active_actions x)) as Hww.
  { unfold without. rewrite list_filter_filter. apply list_filter_iff. naive_solver. }
  exists x'. split; [done |]. split; rewrite ?Es, ?Hww; try done.
  - rewrite (ck_actions _ _ C). exact Ha.
  - apply (checked_ok _ _ C). by apply (checks_ok_update w _ o x (set_stack (without a (active_actions x)) x)).
  - lia.
  - rewrite occurrences_out; [|unfold without; rewrite list_elem_of_filter; naive_solver]. cbn. lia.
  - intros q Hq. destruct (Hn q Hq) as (z & Ez & Hz).
    exists (if bool_decide (list.last (without a (active_actions x)) = Some q) then unblocked z else z).
    rewrite (ck_actions _ _ C). cbn [actions with_actions]. split.
    + rewrite Ho, Ez by (by apply without_last_ne in Hq). done.
    + apply (checked_same_owner _ _ _ C). unfold removed. cbn. rewrite lookup_insert_is_Some'. right.
      case_bool_decide; by rewrite ?unblocked_owner.
Qed.

(** When a step that was running fails, the command hangs: the check takes the
    command off the stack of its machine but answers that it is still running, and
    so does every later check; whoever waits for the command waits for ever. *)
Theorem failed_step_hangs a o b B w : stuck a o b B w -> B + 2 <= INT_MAX ->
  exists w', @complete top a w = Ok (false, w') /\ stuck a o b (B + 2) w' /\
    exists l, stack_of o w' = Some l /\ a ∉ l.
Proof.
  intros (x & y & c & z & Hf & Eb & Estep & Es & Ez & Efail & Hab) HB.
  pose proof (fit_action _ _ _ _ _ _ Hf) as Ea. pose proof Hf as [Em _ Eo Ht Hok Hb HB1 Hr Hn].
  destruct (@stop_checked tk (virtuals tk n) w o x a y B Hok Hb HB1 HB Em Ea Ht Hr Hn) as (w' & am & Hs & Hb' & C & Ha & Ho).
  destruct (stopped_fit a o x y am B w w' Hf Hb') as (x' & Est & Hf'); [done |].
  pose proof (fit_action _ _ _ _ _ _ Hf') as Ea'. exists w'. split.
  - unfold complete, poll_status. rewrite (sbind_run _ _ _ tt w').
    { heap_step. unfold stopped. cbn. by rewrite Es. }
    heap_step. rewrite Es.
    erewrite (sbind_run (checkComplete a)).
    { erewrite upd_action_run by exact Ea'. replace (set_status Running (stopped a x y)) with (stopped a x y)
        by (unfold stopped; destruct y; cbn in *; by subst). rewrite insert_id by done. by destruct w'. }
    change (@check_body tk _ (virtuals tk n) a w = Ok (Running, w')). unfold check_body. heap_step. rewrite Eb.
    unfold MachineCommand_checkComplete. heap_step. rewrite Es. heap_step. heap_step. rewrite Es.
    unfold get_command at 1. rewrite (sbind_run _ _ _ c w) by (heap_step; by rewrite Eb).
    destruct (steps c) as [|s0 ss] eqn:Esteps; [done |]. cbn [length Nat.mul Nat.add check_steps].
    unfold get_command. rewrite (sbind_run _ _ _ c w) by (heap_step; by rewrite Eb). rewrite Esteps, Estep.
    rewrite (sbind_run (check_step _ _ _ _) _ _ (Some Running) w'); [reflexivity |].
    unfold check_step, get_status. rewrite (sbind_run _ _ _ Failed w) by (heap_step; by rewrite Efail).
    heap_step. rewrite (sbind_run _ _ _ Failed w) by (heap_step; by rewrite Efail).
    rewrite (sbind_run (run! stop _ _ _ in _) _ _ (Some Running) w'); [reflexivity |].
    rewrite Eo, (sbind_run _ _ _ _ _ Hs). rewrite (sbind_run _ _ _ Running w') by (heap_step; unfold stopped; cbn; by rewrite Es).
    done.
  - split.
    + exists x', (stopped a x y), c, (if bool_decide (list.last (without a (active_actions x)) = Some b) then unblocked z else z).
      do 4 (split; [done |]). rewrite (ck_actions _ _ C). cbn [actions with_actions]. rewrite Ho, Ez by done.
      split; [done |]. split; [|done]. unfold unblocked. case_bool_decide; [|done]. by rewrite Efail.
    + eexists. unfold stack_of. rewrite (fit_machine _ _ _ _ _ _ Hf'). split; [done |]. rewrite Est.
      unfold without. rewrite list_elem_of_filter. naive_solver.
Qed.
End Stuck.

(** ** WAIT *)

(** Updates of parts of the world commute and absorb each other. *)
Lemma triggers_over_actions t a w : with_triggers t (with_actions a w) = with_actions a (with_triggers t w).
Proof. done. Qed.
Lemma triggers_twice t t' w : with_triggers t (with_triggers t' w) = with_triggers t w.
Proof. done. Qed.
Lemma actions_twice a a' w : with_actions a (with_actions a' w) = with_actions a w.
Proof. done. Qed.
#[export] Hint Rewrite triggers_over_actions triggers_twice actions_twice : control.

Section Firing.
Context (tk : ClockworkToken) `{!Virtuals}.

(** The trigger after it fired on behalf of the action [f]. *)
Definition fired_trigger (f : ptr) (z : Trigger) : Trigger :=
  set_seen true (set_towner (Some (OwnAction f)) (set_holders (holders z ++ [f]) z)).
Definition firing (t : ptr) (y : Action) : Action :=
  set_body (BFireTrigger None) (set_atrigger (Some t) (set_started true y)).

Lemma fire_prefix f m x y B v t z : fit f m x y B v -> executing x = Some f -> started_ y = false -> trigger y = None ->
  triggers v !! t = Some z -> seen z = false -> is_active z = true -> 1 <= t_refs z -> B < INT_MAX ->
  exists v1 x1, checked (started_world f m x y v) v1 /\ active_actions x1 = active_actions x /\
    fit f m x1 (firing t y) (B + 1) (with_actions (<[f := firing t y]> (actions v1))
      (with_triggers (<[t := fired_trigger f z]> (triggers v1)) v1)) /\
    FireTriggerAction_run tk (Some t) f v = finish tk Complete f m
      (with_actions (<[f := firing t y]> (actions v1)) (with_triggers (<[t := fired_trigger f z]> (triggers v1)) v1)).
Proof.
  intros Hf Htop Hs Et Ez Hseen Hact Hrefs HB. pose proof (fit_action _ _ _ _ _ _ Hf) as Ef.
  destruct (start_checked tk f m x y B v Hf Hs HB) as (v1 & Hr & C & Hb).
  destruct (fit_started f m x y B v v1 Hf C Hb) as (x1 & F1 & Hf1).
  assert (on_top f x = true) as Eon by (unfold on_top; by rewrite bool_decide_true).
  assert (begun f x y = set_started true y) as Ebegun by (unfold begun; by rewrite Eon).
  assert (active_actions x1 = active_actions x) as Es by (destruct F1 as [-> _]; cbn; unfold begun_stack; by rewrite Eon).
  rewrite Ebegun in Hf1. pose proof (fit_action _ _ _ _ _ _ Hf1) as Ef1.
  assert (triggers v1 !! t = Some z) as Ez1 by (by rewrite (ck_triggers _ _ C)).
  exists v1, x1. split; [done |]. split; [done |]. split.
  - destruct Hf1 as [Em1 _ Eo1 _ Hok1 Hb1 HB1 Hr1 Hn1]. split; try done; cbn.
    + by simplify_map_eq.
    + intros t' [= <-]. eexists. split; [apply lookup_insert_eq |]. cbn. lia.
    + by destruct Hok1.
    + intros q Hq. destruct (Hn1 q Hq) as (zq & Eq & Hq'). exists zq. split; [|done].
      rewrite lookup_insert_ne; [done |]. intros <-. by apply without_last_ne in Hq.
  - unfold FireTriggerAction_run. heap_step. rewrite (fit_owner _ _ _ _ _ _ Hf), (sbind_run _ _ _ _ _ Hr).
    rewrite (sbind_run (slift (rd (Some t))) _ v1 t v1) by done.
    unfold trigger_retain. heap_step. unfold setTrigger.
    erewrite (sbind_run (sbind (get_action f) _)).
    2: { heap_step. cbn [trigger set_started]. rewrite Et, bool_decide_false by done.
         unfold cleanupTrigger. rewrite (sbind_run _ _ _ tt (with_triggers (<[t := set_trefs (t_refs z + 1) z]> (triggers v1)) v1))
           by (heap_step; cbn [trigger set_started]; by rewrite Et).
         unfold addHolder. heap_step. heap_step. by erewrite upd_action_run by look. }
    unfold trigger_release. erewrite (sbind_run (sbind (get_trigger t) _)).
    2: { heap_step. cbn [t_refs set_towner set_holders set_trefs]. unfold sbind at 1, slift, assert.
         rewrite (proj2 (Z.ltb_lt _ _)) by lia. heap_step. rewrite (proj2 (Z.eqb_neq _ 0)) by lia. reflexivity. }
    heap_step. heap_step. cbn [trigger set_body set_atrigger]. 
    rewrite (sbind_run (slift (rd (Some t))) _ _ t _ eq_refl). heap_step.
    cbn [is_active set_trefs set_towner set_holders]. rewrite Hact. unfold fire.
    erewrite (sbind_run (sbind (get_trigger t) _)).
    2: { heap_step. cbn [seen set_trefs set_towner set_holders t_owner]. rewrite Hseen. heap_step. reflexivity. }
    f_equal. cbn [triggers actions with_triggers with_actions]. autorewrite with control.
    rewrite !insert_insert_eq. unfold firing, fired_trigger. do 4 f_equal.
    destruct z; unfold set_trefs, set_towner, set_holders; cbn -[Z.add Z.sub]. f_equal. apply Z.add_simpl_r.
Qed.
End Firing.

Section Waiting.
Context (tk : ClockworkToken) `{!Environs} (n : nat).
Let top := virtuals tk (S n).

Lemma without_fresh_top a l : a ∉ l -> without a (l ++ [a]) = l.
Proof. intros Ha. by destruct (without_fresh a l Ha). Qed.

(** [idle] retains the action it runs. *)
Lemma fit_retained a m x y B w : fit a m x y B w ->
  fit a m x (set_arefs (a_refs y + 1) y) B (with_actions (<[a := set_arefs (a_refs y + 1) y]> (actions w)) w).
Proof.
  intros [Em Ea Eo Ht Hok Hb HB1 Hr Hn]. split; try done; cbn.
  - by simplify_map_eq.
  - by destruct Hok.
  - lia.
  - intros q Hq. destruct (Hn q Hq) as (zq & Eq & Hq'). exists zq. split; [|done].
    rewrite lookup_insert_ne; [done |]. intros <-. by apply without_last_ne in Hq.
Qed.

(** The turn of a WAIT whose trigger has fired. *)
Lemma wait_turn a m x y t z l B w time property use :
  fit a m x y B w -> active_actions x = l ++ [a] -> a ∉ l -> body y = BWait time property use ->
  status y = Running -> trigger y = Some t -> triggers w !! t = Some z -> seen z = true ->
  2 <= a_refs y -> B + 2 <= INT_MAX ->
  exists w' y', @idle_turn tk top a m w = Ok (NextAction, w') /\ stack_of m w' = Some l /\
    actions w' !! a = Some y' /\ status y' = Complete /\
    forall b, b <> a -> actions w' !! b =
      (fun z => if bool_decide (list.last l = Some b) then unblocked z else z) <$> actions w !! b.
Proof.
  intros Hf Es Hal Eb Est Et Ez Hseen Hrefs HB. destruct (without_fresh a l Hal) as [Hwl Hocc].
  pose proof (fit_action _ _ _ _ _ _ Hf) as Ea. unfold idle_turn, retain. heap_step.
  set (y1 := set_arefs (a_refs y + 1) y). set (w1 := with_actions (<[a := y1]> (actions w)) w).
  pose proof (fit_retained a m x y B w Hf : fit a m x y1 B w1) as Hf1.
  pose proof (fit_action _ _ _ _ _ _ Hf1) as Ea1. heap_step. change (status y1) with (status y). rewrite Est.
  destruct (@finish_checked tk (virtuals tk n) Complete a m x y1 B w1 Hf1 HB) as (w2 & am & Hfin & Hb2 & C & Ha & Ho).
  rewrite Es, Hwl in Ho.
  assert (actions w2 !! a = Some (stopped a x (set_status Complete y1))) as Ea2 by (rewrite (ck_actions _ _ C); exact Ha).
  assert (@checkComplete top a w1 = Ok (Complete, w2)) as Hcheck.
  { change (@check_body tk _ (virtuals tk n) a w1 = Ok (Complete, w2)). unfold check_body. heap_step.
    change (body y1) with (body y). rewrite Eb. unfold WaitAction_checkComplete. heap_step.
    change (trigger y1) with (trigger y). rewrite Et. heap_step. rewrite Hseen.
    change (a_owner y1) with (a_owner y). by rewrite (fit_owner _ _ _ _ _ _ Hf). }
  unfold complete, poll_status.
  rewrite (sbind_run (sbind _ (fun _ : unit => _)) _ w1 true w2).
  2: { rewrite (sbind_run _ _ _ tt w2); [heap_step; done |]. heap_step. change (status y1) with (status y).
       rewrite Est, (sbind_run _ _ _ _ _ Hcheck). erewrite upd_action_run by exact Ea2.
       change (set_status Complete (stopped a x (set_status Complete y1))) with (stopped a x (set_status Complete y1)).
       rewrite insert_id by done. by destruct w2. }
  destruct (checked_lookup _ _ m (set_stack l x) C) as (x2 & Ex2 & F2).
  { unfold removed. cbn. rewrite Es, Hwl. by simplify_map_eq. }
  assert (active_actions x2 = l) as Es2 by (by destruct F2 as [-> _]).
  unfold finished_action. rewrite (sbind_run (sbind _ _) _ w2 tt
    (with_actions (<[a := set_arefs (a_refs y - 1) (stopped a x (set_status Complete y1))]> (actions w2)) w2)).
  2: { heap_step. rewrite (sbind_run _ _ _ tt w2) by done.
       unfold executingCommand. rewrite (sbind_run _ _ _ (executing x2) w2) by (by heap_step).
       unfold executing. rewrite Es2, bool_decide_false by (intros Hl; by apply last_Some_elem_of in Hl).
       assert (a_refs (stopped a x (set_status Complete y1)) = a_refs y) as Er.
       { unfold stopped. cbn. rewrite Es, Hocc. lia. }
       erewrite release_held by (first [exact Ea2 | lia]). by rewrite Er. }
  eexists _, _. split; [reflexivity |]. unfold stack_of. cbn [machines with_actions]. rewrite Ex2. split; [cbn; by rewrite Es2 |].
  split; [cbn; by simplify_map_eq |]. split; [done |].
  intros b Hb'. cbn. rewrite lookup_insert_ne, (ck_actions _ _ C) by done. cbn. rewrite Ho by done. cbn.
  by rewrite !lookup_insert_ne by done.
Qed.

(** The action that fires the trigger [t] runs on top of the stack. *)
Lemma fire_starts f m x y t z l B w : fit f m x y B w -> active_actions x = l ++ [f] -> f ∉ l ->
  body y = BFireTrigger (Some t) -> trigger y = None -> error_msg y = None -> timeout_msg y = None ->
  triggers w !! t = Some z -> seen z = false -> is_active z = true -> 2 <= t_refs z -> B + 3 <= INT_MAX ->
  exists w' x' y' z', @start_action top f w = Ok (Complete, w') /\
    machines w' !! m = Some x' /\ active_actions x' = l /\
    (forall o, is_Some (machines w !! o) -> is_Some (machines w' !! o)) /\ checks_ok w' /\ bounded (B + 3) w' /\
    triggers w' !! t = Some z' /\ seen z' = true /\ t_refs z' = t_refs z - 1 /\
    actions w' !! f = Some y' /\ status y' = Complete /\ a_refs y' = a_refs y - 1 /\ trigger y' = None /\
    body y' = BFireTrigger None /\
    forall b, b <> f -> actions w' !! b =
      (fun z => if bool_decide (list.last l = Some b) then unblocked z else z) <$> actions w !! b.
Proof.
  intros Hf Es Hfl Ebody Et Ee Eto Ez Hseen Hact Hrefs HB. destruct (without_fresh f l Hfl) as [Hwl Hocc].
  set (w2 := with_actions (<[f := readied y]> (actions w)) w).
  pose proof (fit_update f m x y (readied y) B w Hf eq_refl eq_refl eq_refl : fit f m x (readied y) B w2) as Hf2.
  destruct (@fire_prefix tk (virtuals tk n) f m x (readied y) B w2 t z Hf2) as (v1 & x1 & C1 & Es1 & Hf3 & Hrun);
    [unfold executing; by rewrite Es, last_snoc | done | done | done | done | done | lia | lia |].
  set (y4 := firing t (readied y)) in *.
  set (w4 := with_actions (<[f := y4]> (actions v1)) (with_triggers (<[t := fired_trigger f z]> (triggers v1)) v1)) in *.
  destruct (@finish_checked tk (virtuals tk n) Complete f m x1 y4 (B + 1) w4 Hf3 ltac:(lia)) as (w5 & am & Hfin & Hb5 & Hleft).
  set (y5 := set_status Complete y4) in *. set (w4' := with_actions (<[f := y5]> (actions w4)) w4) in *.
  pose proof (fit_update f m x1 y4 y5 (B + 1) w4 Hf3 eq_refl eq_refl eq_refl : fit f m x1 y5 (B + 1) w4') as Hf4.
  destruct (stopped_fit f m x1 y5 am (B + 1) w4' w5 Hf4 Hb5 Hleft) as (x5 & Es5 & Hf5).
  rewrite Es1, Es, Hwl in Es5. destruct Hleft as (C & Ha & Ho). rewrite Es1, Es, Hwl in Ho.
  destruct Hf5 as [Em5 Ea5 _ _ Hok5 _ _ _ _].
  exists w5, x5, (stopped f x1 y5),
    (set_trefs (t_refs z - 1) (set_holders (filter (fun h => h <> f) (holders (fired_trigger f z))) (fired_trigger f z))).
  split.
  { eapply start_action_run; [exact (fit_action _ _ _ _ _ _ Hf) | done | by rewrite Ebody | | exact Ea5 | done | done | done].
    change (@run_body tk _ (virtuals tk n) f w2 = Ok (Complete, w5)). unfold run_body. heap_step.
    change (body (readied y)) with (body y). rewrite Ebody, Hrun. exact Hfin. }
  do 2 (split; [done |]). split.
  { intros o Ho'. apply (checked_same_owner _ _ _ C). unfold removed. cbn. rewrite lookup_insert_is_Some'. right.
    apply (checked_same_owner _ _ _ C1). unfold started_world. cbn. rewrite lookup_insert_is_Some'. by right. }
  split; [done |]. split; [by replace (B + 3) with (B + 1 + 2) by lia |]. split.
  { rewrite (ck_triggers _ _ C). cbn. unfold drop_trigger. cbn. rewrite lookup_insert_eq. cbn.
    rewrite (proj2 (Z.eqb_neq _ 1)) by lia. by rewrite lookup_insert_eq. }
  do 4 (split; [done |]). split; [unfold stopped; cbn; rewrite Es1, Es, Hocc; lia |]. do 2 (split; [done |]).
  intros b Hb'. rewrite (ck_actions _ _ C). cbn [actions with_actions]. rewrite Ho by done. cbn.
  rewrite !lookup_insert_ne, (ck_actions _ _ C1) by done. cbn. by rewrite !lookup_insert_ne.
Qed.

(** An action that fired its trigger and left the stack is deleted by [idle]. *)
Lemma fired_is_deleted f m x y w : machines w !! m = Some x -> executing x <> Some f -> actions w !! f = Some y ->
  status y = Complete -> a_refs y = 1 -> trigger y = None -> body y = BFireTrigger None ->
  @finished_action tk top f m w = Ok (tt, with_actions (delete f (actions w)) w).
Proof.
  intros Em Htop Ef Est Er Et Eb. unfold finished_action. heap_step. rewrite Est.
  rewrite (sbind_run _ _ _ tt w) by done. unfold executingCommand. rewrite (sbind_run _ _ _ (executing x) w) by (by heap_step).
  rewrite bool_decide_false by done. unfold release. heap_step. heap_step. rewrite Er. cbn [Z.sub Z.eqb Z.opp Z.add Pos.eqb].
  set (w1 := with_actions (<[f := set_arefs (1 - 1) y]> (actions w)) w).
  assert (cleanupTrigger f w1 = Ok (tt, w1)) as Hclean.
  { unfold cleanupTrigger. subst w1. heap_step. cbn [trigger set_arefs]. by rewrite Et. }
  replace (1 - 1 =? 0) with true by done. rewrite (sbind_run _ _ _ _ _ Hclean).
  rewrite (sbind_run (destructor f) _ w1 tt w1).
  2: { change (@destroy_body _ (virtuals tk n) f w1 = Ok (tt, w1)). unfold destroy_body. subst w1. heap_step.
       cbn [body set_arefs]. by rewrite Eb. }
  rewrite (sbind_run _ _ _ _ _ Hclean). unfold modify. subst w1. unfold with_actions. cbn. by rewrite delete_insert_eq.
Qed.

(** A WAIT that is running on top of the stack of machine [m], and the action that
    the scheduler pushes there when the time is up. *)
Record awaiting (a f t m : ptr) (x : Machine) (ya yf : Action) (z : Trigger) (l : list ptr) (B : Z) (w : World) : Prop := {
  aw_machine : machines w !! m = Some x;
  aw_stack : active_actions x = l ++ [a];
  aw_fresh : (a ∉ l) /\ f ∉ l ++ [a];
  aw_wait : actions w !! a = Some ya;
  aw_running : status ya = Running /\ a_owner ya = m /\ trigger ya = Some t /\ 2 <= a_refs ya;
  aw_body : exists time property use, body ya = BWait time property use;
  aw_fire : actions w !! f = Some yf;
  aw_new : status yf = New /\ a_owner yf = m /\ trigger yf = None /\ a_refs yf = 1 /\ started_ yf = false /\
    error_msg yf = None /\ timeout_msg yf = None /\ body yf = BFireTrigger (Some t);
  aw_trigger : triggers w !! t = Some z;
  aw_armed : seen z = false /\ is_active z = true /\ 2 <= t_refs z;
  aw_checks : checks_ok w;
  aw_bound : bounded B w;
  aw_room : 1 <= B;
  aw_below : forall b, list.last l = Some b -> exists y, actions w !! b = Some y /\ is_Some (machines w !! a_owner y)
}.

(** The turn of the action that fires. *)
Lemma fire_turn a f t m x ya yf z l B w : awaiting a f t m x ya yf z l B w -> B + 5 <= INT_MAX ->
  exists w' x' y' z', (run! push f m in @idle_turn tk top f m) w = Ok (NextAction, w') /\
    fit a m x' y' (B + 3) w' /\ active_actions x' = l ++ [a] /\ body y' = body ya /\ status y' = Running /\
    trigger y' = Some t /\ a_refs y' = a_refs ya /\ triggers w' !! t = Some z' /\ seen z' = true /\
    actions w' !! f = None /\ forall b, b <> a -> b <> f -> actions w' !! b = actions w !! b.
Proof.
  intros [Em Es [Hal Hfl] Ea (Esta & Eoa & Eta & Hra) _ Ef (Estf & Eof & Etf & Hrf & Hsf & Eef & Etof & Ebf) Ez (Hseen & Hact & Hrt) Hok Hb HB1 Hbelow] HB.
  assert (f <> a) as Hfa by set_solver.
  rewrite (sbind_run _ _ _ tt (pushed f m x yf w)).
  2: { apply push_run; try done. intros b. unfold executing. rewrite Es, last_snoc. intros [= <-]. by rewrite Ea. }
  set (x1 := set_work true (set_stack (active_actions x ++ [f]) x)). set (w1 := pushed f m x yf w).
  set (ya1 := set_blocked (Some f) (suspended ya)). set (yf1 := set_started true yf).
  assert (actions w1 = <[f := yf1]> (<[a := ya1]> (actions w))) as Eact.
  { unfold w1, pushed, pushed_actions, executing. cbn. rewrite Es, last_snoc. cbn. by rewrite Ea. }
  assert (actions w1 !! f = Some yf1) as Ef1 by (by rewrite Eact, lookup_insert_eq).
  assert (machines w1 = <[m := x1]> (machines w)) as Emach by done.
  unfold idle_turn, retain. heap_step.
  set (yf2 := set_arefs (a_refs yf1 + 1) yf1). set (w2 := with_actions (<[f := yf2]> (actions w1)) w1).
  assert (actions w2 !! a = Some ya1) as Ea2.
  { change (<[f := yf2]> (actions w1) !! a = Some ya1).
    by rewrite lookup_insert_ne, Eact, lookup_insert_ne, lookup_insert_eq. }
  assert (fit f m x1 yf2 B w2) as Hf2.
  { destruct (without_fresh f (l ++ [a]) Hfl) as [Hw Hocc]. split.
    - change (machines w1 !! m = Some x1). by rewrite Emach, lookup_insert_eq.
    - by apply lookup_insert_eq.
    - exact Eof.
    - change (trigger_live (trigger yf) w2). by rewrite Etf.
    - apply (checks_ok_update w w2 m x x1); done.
    - apply map_Forall_insert_2; [exact (Hb m x Em) | done].
    - done.
    - change (active_actions x1) with (active_actions x ++ [f]). rewrite Es, Hocc. cbn. lia.
    - change (active_actions x1) with (active_actions x ++ [f]). rewrite Es, Hw. intros b. rewrite last_snoc. intros [= <-].
      exists ya1. split; [by rewrite Ea2 |].
      change (is_Some (<[m := x1]> (machines w) !! a_owner ya1)).
      replace (a_owner ya1) with m; [by rewrite lookup_insert_eq |]. unfold ya1, suspended. by rewrite Esta. }
  destruct (fire_starts f m x1 yf2 t z (l ++ [a]) B w2 Hf2) as
    (w3 & x3 & yf3 & z3 & Hstart & Em3 & Es3 & Hm3 & Hok3 & Hb3 & Ez3 & Hseen3 & Hrt3 & Ef3 & Estf3 & Hrf3 & Etf3 & Ebf3 & Ho3);
    [cbn; by rewrite Es | done .. | lia |].
  heap_step. change (status yf2) with (status yf). rewrite Estf, (sbind_run _ _ _ _ _ Hstart).
  rewrite (sbind_run _ _ _ tt (with_actions (delete f (actions w3)) w3)).
  2: { apply (fired_is_deleted f m x3 yf3); try done.
       - unfold executing. rewrite Es3, last_snoc. congruence.
       - rewrite Hrf3. cbn. lia. }
  set (ya4 := unblocked ya1).
  assert (status ya4 = Running /\ a_owner ya4 = m /\ trigger ya4 = Some t /\ a_refs ya4 = a_refs ya /\ body ya4 = body ya)
    as (Est4 & Eo4 & Et4 & Er4 & Eb4) by (unfold ya4, ya1, unblocked, suspended; by rewrite Esta).
  assert (actions w3 !! a = Some ya4) as Ea3.
  { rewrite Ho3, Ea2, last_snoc by done. cbn. by rewrite bool_decide_true. }
  assert (forall b, b <> a -> b <> f -> actions w3 !! b = actions w !! b) as Hrest.
  { intros b Hba Hbf. rewrite Ho3, last_snoc, bool_decide_false by congruence.
    change (id <$> (<[f := yf2]> (actions w1) !! b) = actions w !! b).
    by rewrite lookup_insert_ne, Eact, !lookup_insert_ne, option_fmap_id. }
  eexists _, x3, ya4, z3. split; [reflexivity |]. split; [|split; [done |]].
  - destruct (without_fresh a l Hal) as [Hw Hocc]. split; rewrite ?Es3, ?Hw, ?Hocc; try done.
    + cbn. by rewrite lookup_delete_ne.
    + rewrite Et4. intros t' [= <-]. exists z3. split; [done | lia].
    + by destruct Hok3.
    + lia.
    + rewrite Er4. lia.
    + cbn [actions with_actions machines]. intros b Hl. destruct (Hbelow b Hl) as (y & Ey & Hy).
      apply last_Some_elem_of in Hl. assert (b <> a /\ b <> f) as [] by set_solver. exists y.
      rewrite lookup_delete_ne, Hrest by done. split; [done |]. apply Hm3.
      change (is_Some (<[m := x1]> (machines w) !! a_owner y)). rewrite lookup_insert_is_Some'. by right.
  - do 6 (split; [done |]). cbn. split; [apply lookup_delete_eq |].
    intros b Hba Hbf. rewrite lookup_delete_ne by done. by apply Hrest.
Qed.

(** When the time is up the scheduler pushes the action that fires
    the WAIT's trigger on the machine's stack; two turns of [idle] later that
    action has run and is deleted, the WAIT is complete and off the stack, and the
    action below it is unblocked and resumed and next in turn. *)
Lemma wait_completes a f t m x ya yf z l B w fuel : awaiting a f t m x ya yf z l B w -> B + 5 <= INT_MAX ->
  exists w' y', (run! push f m in @idle_loop tk top (S (S fuel)) m) w = @idle_loop tk top fuel m w' /\
    stack_of m w' = Some l /\ actions w' !! a = Some y' /\ status y' = Complete /\ actions w' !! f = None /\
    forall b, b <> a -> b <> f -> actions w' !! b =
      (fun y => if bool_decide (list.last l = Some b) then unblocked y else y) <$> actions w !! b.
Proof.
  intros Haw HB. destruct (fire_turn a f t m x ya yf z l B w Haw HB) as
    (w1 & x1 & y1 & z1 & Hturn & Hf & Es1 & Eb1 & Est1 & Et1 & Er1 & Ez1 & Hseen & Hdel & Hsame).
  destruct Haw as [Em Es [Hal Hfl] Ea (_ & _ & _ & Hra) (time & property & use & Ebody) Ef (_ & _ & _ & _ & Hsf & _) _ _ _ _ _ _].
  rewrite Ebody in Eb1.
  destruct (wait_turn a m x1 y1 t z1 l (B + 3) w1 time property use Hf Es1 Hal Eb1 Est1 Et1 Ez1 Hseen) as
    (w2 & y2 & Hturn2 & Es2 & Ea2 & Est2 & Hother); [by rewrite Er1 | lia |].
  assert (forall u, executing u = list.last (active_actions u)) as Hex by done.
  assert (push f m w = Ok (tt, pushed f m x yf w)) as Hpush.
  { apply push_run; try done. intros b. rewrite Hex, Es, last_snoc. intros [= <-]. rewrite Ea. set_solver. }
  rewrite (sbind_run _ _ _ _ _ Hpush) in Hturn. rewrite (sbind_run _ _ _ _ _ Hpush).
  cbn [idle_loop]. unfold executingCommand at 1.
  rewrite (sbind_run (sbind (get_machine m) _) _ _ (Some f) (pushed f m x yf w)).
  2: { unfold sbind at 1, get_machine. cbn. rewrite lookup_insert_eq. unfold executing. cbn. by rewrite last_snoc. }
  rewrite (sbind_run _ _ _ _ _ Hturn). unfold executingCommand at 1.
  rewrite (sbind_run (sbind (get_machine m) _) _ _ (Some a) w1).
  2: { pose proof (fit_machine _ _ _ _ _ _ Hf). heap_step. by rewrite Hex, Es1, last_snoc. }
  rewrite (sbind_run _ _ _ _ _ Hturn2). exists w2, y2. split; [done |]. do 3 (split; [done |]). split.
  - rewrite Hother, Hdel by set_solver. done.
  - intros b Hba Hbf. by rewrite Hother, Hsame.
Qed.

Lemma alloc_action_bind {A} x (k : ptr -> M A) w : sbind (alloc_action x) k w =
  k (fresh (dom (actions w))) (with_actions (<[fresh (dom (actions w)) := x]> (actions w)) w).
Proof. done. Qed.
Lemma alloc_trigger_bind {A} x (k : ptr -> M A) w : sbind (alloc_trigger x) k w =
  k (fresh (dom (triggers w))) (with_triggers (<[fresh (dom (triggers w)) := x]> (triggers w)) w).
Proof. done. Qed.

(** The trigger and the action a WAIT makes. *)
Lemma new_fire_run m t z w : triggers w !! t = Some z ->
  let f := fresh (dom (actions w)) in
  FireTriggerAction_new m t w = Ok (f,
    with_actions (<[f := mkAction 1 m "" New Running None None false false None None (BFireTrigger (Some t))]> (actions w))
      (with_triggers (<[t := set_holders (holders z ++ [f]) (set_towner (Some (OwnMachine m)) (set_trefs (t_refs z + 1) z))]>
        (triggers w)) w)).
Proof.
  intros Ez f. unfold FireTriggerAction_new, trigger_retain, Action_new. heap_step.
  rewrite alloc_action_bind. cbn [actions with_triggers]. fold f. heap_step. unfold addHolder. heap_step.
  unfold sret. do 2 f_equal. cbn [triggers actions with_triggers with_actions]. autorewrite with control.
  by rewrite !insert_insert_eq.
Qed.

Definition waiting_for (t : ptr) (y : Action) : Action := set_atrigger (Some t) (set_status Running y).
Definition wait_trigger (name : string) (m a f : ptr) : Trigger :=
  mkTrigger (timer_name name) false (Some (OwnMachine m)) 2 true [a; f].
Definition wait_fire (m t : ptr) : Action :=
  mkAction 1 m "" New Running None None false false None None (BFireTrigger (Some t)).

(** What [run] of a WAIT does once it is started. *)
Lemma wait_run a m y B w time property v1 x1 y1 : let t := fresh (dom (triggers v1) : gset ptr) in
  let f := fresh (dom (actions v1) : gset ptr) in
  actions w !! a = Some y -> a_owner y = m -> start tk a m w = Ok (tt, v1) -> fit a m x1 y1 (B + 1) v1 ->
  body y1 = BWait time property false -> trigger y1 = None -> time <> 0 -> time <> -1 -> in_long (time * 1000) = true ->
  @WaitAction_run tk _ (virtuals tk n) time property false a w = Ok (Running,
    with_effects (effects v1 ++ [ScheduleAction (time * 1000) f])
      (with_actions (<[f := wait_fire m t]> (<[a := waiting_for t y1]> (actions v1)))
        (with_triggers (<[t := wait_trigger (m_name x1) m a f]> (triggers v1)) v1))).
Proof.
  intros t f Ea Eo Hs Hf Eb Et Hz Hm Hl. unfold WaitAction_run. heap_step. rewrite Eo, (sbind_run _ _ _ _ _ Hs).
  pose proof (fit_action _ _ _ _ _ _ Hf) as Ea1. pose proof (fit_machine _ _ _ _ _ _ Hf) as Em1.
  rewrite (sbind_run (wait_value _ _ _) _ v1 time v1) by (unfold wait_value; by rewrite (proj2 (Z.eqb_neq _ _) Hm)).
  heap_step. rewrite <- Eb. replace (set_body (body y1) y1) with y1 by (by destruct y1).
  rewrite insert_id by done. replace (with_actions (actions v1) v1) with v1 by (by destruct v1).
  rewrite (proj2 (Z.eqb_neq _ _) Hz). unfold set_st. heap_step.
  set (v2 := with_actions (<[a := set_status Running y1]> (actions v1)) v1).
  rewrite (sbind_run (cleanupTrigger a) _ v2 tt v2)
    by (unfold cleanupTrigger; subst v2; heap_step; cbn [trigger set_status]; by rewrite Et).
  subst v2. heap_step. unfold Trigger_new. rewrite alloc_trigger_bind. cbn [triggers with_actions]. fold t.
  heap_step. unfold addHolder. heap_step. cbn [actions triggers with_actions with_triggers].
  autorewrite with control. rewrite !insert_insert_eq.
  set (v3 := with_actions _ _).
  assert (fresh (dom (actions v3) : gset ptr) = f) as Efresh by (subst f; cbn; by rewrite dom_insert_lookup_L).
  set (v4 := with_actions (<[f := wait_fire m t]> (<[a := waiting_for t y1]> (actions v1)))
    (with_triggers (<[t := wait_trigger (m_name x1) m a f]> (triggers v1)) v1)).
  assert (FireTriggerAction_new m t v3 = Ok (f, v4)) as Hnew.
  { rewrite (new_fire_run m t (mkTrigger (timer_name (m_name x1)) false None 1 true [a]) v3) by (apply lookup_insert_eq).
    rewrite Efresh. subst v3 v4. cbn [triggers actions with_triggers with_actions]. autorewrite with control.
    by rewrite insert_insert_eq. }
  assert (f <> a) as Hfa by (intros E; apply (is_fresh (dom (actions v1) : gset ptr)); rewrite <- E in Ea1; by apply elem_of_dom).
  rewrite (sbind_run _ _ _ _ _ Hnew). unfold sbind at 1, slift, long_of. rewrite Hl. unfold emit. heap_step.
  assert (triggers v4 !! t = Some (wait_trigger (m_name x1) m a f)) as Et4 by apply lookup_insert_eq.
  assert (actions v4 !! a = Some (waiting_for t y1)) as Ea4 by (cbn; by rewrite lookup_insert_ne, lookup_insert_eq).
  assert (effects v4 = effects v1) as Ee by done. clearbody v4. heap_step. cbn [wait_trigger seen negb assert].
  rewrite (sbind_run (fun s => Ok (tt, s)) _ _ tt _ eq_refl). heap_step. unfold get_status. heap_step. by rewrite Ee.
Qed.

(** Starting a WAIT schedules the action that will end it. *)
Lemma wait_arms a m x y B w time property l : fit a m x y B w -> B < INT_MAX ->
  body y = BWait time property false -> trigger y = None -> error_msg y = None -> timeout_msg y = None ->
  time <> 0 -> time <> -1 -> in_long (time * 1000) = true ->
  begun_stack a x = l ++ [a] -> a ∉ l -> (forall b, b ∈ l -> is_Some (actions w !! b)) ->
  exists w' x' y' t f yf z, @start_action top a w = Ok (Running, w') /\
    awaiting a f t m x' y' yf z l (B + 1) w' /\ effects w' = effects w ++ [ScheduleAction (time * 1000) f] /\
    forall b, b ∈ l -> actions w' !! b = actions w !! b.
Proof.
  intros Hf HB Eb Et Ee Eto Hz Hm Hlong Es Hal Hlive.
  set (w2 := with_actions (<[a := readied y]> (actions w)) w).
  pose proof (fit_update a m x y (readied y) B w Hf eq_refl eq_refl eq_refl : fit a m x (readied y) B w2) as Hf2.
  destruct (start_checked tk a m x (readied y) B w2 Hf2 eq_refl HB) as (v1 & Hs & C & Hb).
  destruct (fit_started a m x (readied y) B w2 v1 Hf2 C Hb) as (x1 & F1 & Hf1).
  assert (active_actions x1 = l ++ [a]) as Es1 by (rewrite <- Es; by destruct F1 as [-> _]).
  set (y1 := begun a x (readied y)) in *.
  assert (a_owner y1 = a_owner y /\ body y1 = body y /\ trigger y1 = trigger y /\ error_msg y1 = error_msg y /\
          timeout_msg y1 = timeout_msg y) as (Eo1 & Eb1 & Et1 & Ee1 & Eto1)
    by (subst y1; unfold begun; by destruct (on_top a x)).
  clearbody y1.
  pose proof (wait_run a m (readied y) B w2 time property v1 x1 y1 (fit_action _ _ _ _ _ _ Hf2)
    (fit_owner _ _ _ _ _ _ Hf2) Hs Hf1 ltac:(congruence) ltac:(congruence) Hz Hm Hlong) as Hrun.
  cbv zeta in Hrun. set (t := fresh (dom (triggers v1) : gset ptr)) in *. set (f := fresh (dom (actions v1) : gset ptr)) in *.
  set (w3 := with_effects _ _) in Hrun.
  assert (actions v1 !! f = None) as Ef by (apply not_elem_of_dom, is_fresh).
  pose proof (fit_action _ _ _ _ _ _ Hf1) as Ea1.
  assert (f <> a) as Hfa by congruence.
  assert (forall b, b <> a -> actions v1 !! b = actions w !! b) as Hsame.
  { intros b Hb'. rewrite (ck_actions _ _ C). cbn. by rewrite !lookup_insert_ne. }
  assert (f ∉ l) as Hfl.
  { intros Hin. destruct (Hlive f Hin) as [q Hq]. rewrite Hsame in Ef by done. congruence. }
  assert (actions w3 !! a = Some (waiting_for t y1)) as Ea3 by (cbn; by rewrite lookup_insert_ne, lookup_insert_eq).
  assert (forall b, b ∈ l -> actions w3 !! b = actions w !! b) as Hl3.
  { intros b Hin. assert (b <> a /\ b <> f) as [] by set_solver. cbn. by rewrite !lookup_insert_ne, Hsame. }
  exists w3, x1, (waiting_for t y1), t, f, (wait_fire m t), (wait_trigger (m_name x1) m a f). split; [|split; [|split]].
  - eapply start_action_run; [exact (fit_action _ _ _ _ _ _ Hf) | done | by rewrite Eb | | exact Ea3 | done
      | by change (error_msg y1 = None); rewrite Ee1 | by change (timeout_msg y1 = None); rewrite Eto1].
    change (@run_body tk _ (virtuals tk n) a w2 = Ok (Running, w3)). unfold run_body. heap_step.
    change (body (readied y)) with (body y). by rewrite Eb.
  - destruct Hf1 as [Em1 _ Eow1 _ Hok1 Hb1 HB1 Hr1 Hn1]. destruct (without_fresh a l Hal) as [Hw Hocc].
    rewrite Es1, ?Hocc in Hr1. rewrite Es1, Hw in Hn1. split; try done.
    + split; [done | set_solver].
    + split; [done |]. split; [done |]. split; [done |]. change (2 <= a_refs y1). lia.
    + cbn. rewrite Eb1, Eb. by eexists _, _, _.
    + cbn. by rewrite lookup_insert_eq.
    + cbn. by rewrite lookup_insert_eq.
    + by destruct Hok1.
    + intros b Hlast. destruct (Hn1 b Hlast) as (q & Eq & Hq). exists q. apply last_Some_elem_of in Hlast.
      assert (b <> a) by set_solver. rewrite Hl3 by done. by rewrite <- Hsame.
  - cbn. by rewrite (ck_effects _ _ C).
  - done.
Qed.

(** C26: a WAIT ends when its time is up. Starting it puts it on the stack, leaves
    it running and schedules one action, after the time in microseconds; when the
    scheduler has pushed that action on the machine's stack, two turns of [idle]
    run it: it fires the WAIT's trigger and is deleted, the WAIT is complete and off
    the stack, and the action below is unblocked, resumed and next in turn. *)
Theorem wait_elapses a m x y B w time property l fuel : fit a m x y B w -> B + 6 <= INT_MAX ->
  body y = BWait time property false -> trigger y = None -> error_msg y = None -> timeout_msg y = None ->
  time <> 0 -> time <> -1 -> in_long (time * 1000) = true ->
  begun_stack a x = l ++ [a] -> a ∉ l -> (forall b, b ∈ l -> is_Some (actions w !! b)) ->
  exists w1 f w2 y', @start_action top a w = Ok (Running, w1) /\ stack_of m w1 = Some (l ++ [a]) /\
    effects w1 = effects w ++ [ScheduleAction (time * 1000) f] /\
    (run! push f m in @idle_loop tk top (S (S fuel)) m) w1 = @idle_loop tk top fuel m w2 /\
    stack_of m w2 = Some l /\ actions w2 !! a = Some y' /\ status y' = Complete /\ actions w2 !! f = None /\
    forall b, b ∈ l -> actions w2 !! b =
      (fun y => if bool_decide (list.last l = Some b) then unblocked y else y) <$> actions w !! b.
Proof.
  intros Hf HB Eb Et Ee Eto Hz Hm Hlong Es Hal Hlive.
  destruct (wait_arms a m x y B w time property l) as (w1 & x1 & y1 & t & f & yf & z & Hs & Haw & Heff & Hsame); [done | lia | done .. |].
  destruct (wait_completes a f t m x1 y1 yf z l (B + 1) w1 fuel Haw ltac:(lia)) as (w2 & y2 & Hrun & Es2 & Ea2 & Est2 & Ef2 & Ho).
  exists w1, f, w2, y2. split; [done |]. destruct Haw as [Em1 Es1 [_ Hfl] _ _ _ _ _ _ _ _ _ _ _].
  split; [unfold stack_of; rewrite Em1; cbn; by rewrite Es1 |]. do 6 (split; [done |]).
  intros b Hin. rewrite Ho, Hsame by set_solver. done.
Qed.
End Waiting.

(** [fit] as a test. *)
Definition live_trigger (w : World) (t : ptr) : bool :=
  match triggers w !! t with Some z => 0 <? t_refs z | None => false end.
Definition live_below (w : World) (b : ptr) : bool :=
  match actions w !! b with Some z => bool_decide (is_Some (machines w !! a_owner z)) | None => false end.
Definition fits (a o : ptr) (x : Machine) (y : Action) (B : Z) (w : World) : bool :=
  bool_decide (a_owner y = o) && default true (live_trigger w <$> trigger y) &&
  bool_decide (map_Forall (fun _ m => 0 <= needs_check m /\ Forall (fun d => is_Some (machines w !! d)) (depends m)) (machines w)) &&
  bool_decide (map_Forall (fun _ m => needs_check m <= B) (machines w)) &&
  (1 <=? B) && (Z.of_nat (occurrences a (active_actions x)) <? a_refs y) &&
  default true (live_below w <$> list.last (without a (active_actions x))).
Lemma fits_fit a o x y B w : machines w !! o = Some x -> actions w !! a = Some y -> fits a o x y B w = true -> fit a o x y B w.
Proof.
  intros Em Ea Hf. unfold fits in Hf. rewrite !andb_true_iff in Hf.
  destruct Hf as ((((((Ho & Ht) & Hc) & Hb) & HB) & Hr) & Hn). apply bool_decide_eq_true in Ho, Hc, Hb. split; try done.
  - intros t Et. rewrite Et in Ht. cbn in Ht. unfold live_trigger in Ht. destruct (triggers w !! t) as [z|]; [|done].
    exists z. split; [done | lia].
  - split; [intros m z Ez; apply (Hc m z Ez) |]. intros m z d Ez Hd. destruct (Hc m z Ez) as [_ Hall].
    by apply (proj1 (List.Forall_forall _ _) Hall), list_elem_of_In.
  - lia.
  - lia.
  - intros n En. rewrite En in Hn. cbn in Hn. unfold live_below in Hn. destruct (actions w !! n) as [z|]; [|done].
    exists z. split; [done |]. by apply bool_decide_eq_true in Hn.
Qed.

(** Machine 3 is called "k"; the state is always "idle"; only the condition 0 holds. *)
Definition env : Environs := {|
  find_machine := fun _ name => sret (if bool_decide (name = "k"%string) then Some 3%positive else None);
  value_of := fun _ _ => sret (Value_long 5);
  holds := fun c _ => sret (bool_decide (c = 0%nat));
  current_state := fun _ => sret "idle"%string;
  throw_message := fun _ _ => sret tt;
  rest := no_virtuals
|}.
Definition tops := @virtuals some_tokens env 3.
Definition act (refs : Z) (o : ptr) (b : Body) : Action :=
  mkAction refs o "" New Running None None false false None None b.
Definition mach (name : string) (stack : list ptr) : Machine :=
  mkMachine name true true 0 (Some (mkClass 99 true)) 0 stack [] false 0 [] 0 None.
Definition world_of {A} (r : res (A * World)) : World :=
  match r with Ok (_, w) => w | _ => mkWorld ∅ ∅ ∅ ∅ ∅ ∅ 0 0 [] end.

(** *** Locks *)
Definition lock_world : World :=
  mkWorld ∅ {[ 1%positive := act 1 1%positive (BLock "k" None); 2%positive := act 1 1%positive (BUnlock "k" None);
               3%positive := act 1 2%positive (BLock "k" None); 4%positive := act 2 2%positive (BCommand (mkCommand [3%positive] 0 0 "" false)) ]}
    {[ 1%positive := mach "a" []; 2%positive := mach "b" []; 3%positive := mach "k" [] ]} ∅ ∅ ∅ 0 0 [].
(** Machine 1 locks, machine 2 waits, machine 1 unlocks, machine 2 gets the lock. *)
Definition lock_1 : World := Eval vm_compute in world_of (@start_action tops 1%positive lock_world).
Definition lock_2 : World := Eval vm_compute in world_of (@start_action tops 3%positive lock_1).
Definition lock_3 : World := Eval vm_compute in world_of (@start_action tops 2%positive lock_2).
Definition lock_4 : World := Eval vm_compute in world_of (@complete tops 3%positive lock_3).
Ltac sample_fit := apply fits_fit; [reflexivity | reflexivity | vm_compute; reflexivity].
Ltac sample_client := split; [sample_fit | by exists "k"%string, None | reflexivity | reflexivity | reflexivity | by eexists].
Lemma sample_history : @history some_tokens env 2 lock_world
  [mkEvent Lock 1%positive 3%positive Complete; mkEvent Lock 2%positive 3%positive Running; mkEvent Unlock 1%positive 3%positive Complete; mkEvent Lock 2%positive 3%positive Complete] lock_4.
Proof.
  eapply (@history_start some_tokens env 2 Lock 3%positive 1%positive 1%positive) with (B := 9) (w1 := lock_1);
    [sample_client | done | vm_compute; reflexivity |].
  eapply (@history_start some_tokens env 2 Lock 3%positive 3%positive 2%positive) with (B := 9) (w1 := lock_2);
    [sample_client | done | vm_compute; reflexivity |].
  eapply (@history_start some_tokens env 2 Unlock 3%positive 2%positive 1%positive) with (B := 9) (w1 := lock_3);
    [sample_client | done | vm_compute; reflexivity |].
  eapply (@history_check some_tokens env 2 3%positive 3%positive 2%positive) with (B := 9) (w1 := lock_4) (fin := true);
    [| done | vm_compute; reflexivity | constructor].
  split; [split; [sample_fit | by exists "k"%string, (Some 3%positive) | reflexivity | reflexivity | reflexivity | by eexists] |].
  split; [by exists "k"%string | done].
Qed.
Lemma locks_refine_mutex_w :
  mutexes [mkEvent Lock 1%positive 3%positive Complete; mkEvent Lock 2%positive 3%positive Running; mkEvent Unlock 1%positive 3%positive Complete; mkEvent Lock 2%positive 3%positive Complete]
    (locks lock_world) = ([Complete; Running; Complete; Complete], locks lock_4).
Proof. exact (@locks_refine_mutex some_tokens env 2 lock_world _ lock_4 sample_history). Defined.

Definition no_action : Action := act 0 1%positive (BOther 0).
Definition no_machine : Machine := mach "" [].
Definition the_machine (m : ptr) (w : World) : Machine := default no_machine (machines w !! m).
Definition the_action (a : ptr) (w : World) : Action := default no_action (actions w !! a).

(** Machine 1 has the lock, machine 2 waits for it on top of its command. *)
Definition contended : World := Eval vm_compute in
  match machines lock_2 !! 2%positive with
  | Some x => with_machines (<[2%positive := set_stack [4%positive; 3%positive] x]> (machines lock_2)) lock_2
  | None => lock_2
  end.
Lemma released_lock_is_taken_w :
  exists w1 w2, @start_action tops 2%positive contended = Ok (Complete, w1) /\
    locks w1 = <[3%positive := None]> (locks contended) /\
    @complete tops 3%positive w1 = Ok (true, w2) /\ locks w2 = <[3%positive := Some 2%positive]> (locks contended) /\
    stack_of 2%positive w2 = Some [4%positive].
Proof.
  destruct (@released_lock_is_taken some_tokens env 2 3%positive
    2%positive 1%positive (the_machine 1%positive contended) (the_action 2%positive contended)
    3%positive 2%positive (the_machine 2%positive contended) (the_action 3%positive contended) 9 contended)
    as (w1 & w2 & H1 & H2 & H3 & H4 & H5 & _).
  - sample_client.
  - split; [split; [sample_fit | by exists "k"%string, (Some 3%positive) | reflexivity | reflexivity | reflexivity | by eexists] |].
    split; [by exists "k"%string | done].
  - done.
  - done.
  - done.
  - by apply (bool_decide_eq_true_1 (3%positive ∉ active_actions (the_machine 1%positive contended))).
  - by apply (bool_decide_eq_true_1 (2%positive ∉ active_actions (the_machine 2%positive contended))).
  - reflexivity.
  - exists w1, w2. do 4 (split; [assumption |]). exact H5.
Defined.

(** *** Commands *)
(** A command of two steps: the first unlocks a machine that is not locked, and
    fails. *)
Definition failing_world : World :=
  mkWorld ∅ {[ 1%positive := act 2 1%positive (BCommand (mkCommand [2%positive; 3%positive] 0 0 "" false));
               2%positive := act 1 1%positive (BUnlock "k" None); 3%positive := act 1 1%positive (BLock "k" None) ]}
    {[ 1%positive := mach "a" [1%positive]; 3%positive := mach "k" [] ]} ∅ ∅ ∅ 0 0 [].
(** The loop goes on to the second step and the command completes. *)
Definition ignored : World := Eval vm_compute in world_of (@runActions some_tokens tops 2 1%positive 1%positive failing_world).
Lemma failed_step_ignored_w :
  @runActions some_tokens tops 2 1%positive 1%positive failing_world = Ok (Complete, ignored) /\
  status (the_action 2%positive ignored) = Failed /\ Complete <> Failed.
Proof.
  split; [vm_compute; reflexivity |]. split; [reflexivity |].
  apply (@failed_step_ignored some_tokens tops 2 1%positive 1%positive failing_world Complete ignored).
  vm_compute. reflexivity.
Defined.

(** A command that runs, with a step that failed. *)
Definition stuck_world : World :=
  mkWorld ∅ {[ 1%positive := set_status Running (act 2 1%positive (BCommand (mkCommand [2%positive] 0 0 "" false)));
               2%positive := set_status Failed (act 1 1%positive (BUnlock "k" None)) ]}
    {[ 1%positive := mach "a" [1%positive] ]} ∅ ∅ ∅ 0 0 [].
Lemma failed_step_hangs_w : exists w', @complete tops 1%positive stuck_world = Ok (false, w') /\
  stuck 1%positive 1%positive 2%positive 11 w' /\ exists l, stack_of 1%positive w' = Some l /\ 1%positive ∉ l.
Proof.
  apply (@failed_step_hangs some_tokens env 2 1%positive 1%positive 2%positive 9 stuck_world); [|done].
  exists (the_machine 1%positive stuck_world), (the_action 1%positive stuck_world),
    (mkCommand [2%positive] 0 0 "" false), (the_action 2%positive stuck_world).
  split; [sample_fit | done].
Defined.

(** *** WAIT *)
(** A command with a WAIT of 20 ms. *)
Definition wait_world : World :=
  mkWorld ∅ {[ 1%positive := set_status Running (act 2 1%positive (BCommand (mkCommand [2%positive] 0 0 "" false)));
               2%positive := act 1 1%positive (BWait 20 "" false) ]}
    {[ 1%positive := mach "a" [1%positive] ]} ∅ ∅ ∅ 0 0 [].
Lemma wait_elapses_w : exists w1 f w2 y', @start_action tops 2%positive wait_world = Ok (Running, w1) /\
  stack_of 1%positive w1 = Some [1%positive; 2%positive] /\ effects w1 = [ScheduleAction 20000 f] /\
  (run! push f 1%positive in @idle_loop some_tokens tops 2 1%positive) w1 = @idle_loop some_tokens tops 0 1%positive w2 /\
  stack_of 1%positive w2 = Some [1%positive] /\ actions w2 !! 2%positive = Some y' /\ status y' = Complete /\
  actions w2 !! f = None.
Proof.
  destruct (@wait_elapses some_tokens env 2 2%positive 1%positive (the_machine 1%positive wait_world)
    (the_action 2%positive wait_world) 9 wait_world 20 "" [1%positive] 0)
    as (w1 & f & w2 & y' & H1 & H2 & H3 & H4 & H5 & H6 & H7 & H8 & _);
    [sample_fit | done | reflexivity | reflexivity | reflexivity | reflexivity | done | done | reflexivity | reflexivity | | |].
  - by apply (bool_decide_eq_true_1 (2%positive ∉ [1%positive])).
  - intros b Hb. apply list_elem_of_singleton in Hb as ->. by eexists.
  - exists w1, f, w2, y'. do 7 (split; [assumption |]). assumption.
Defined.
