(* ===== verification/Modbus.v ===== *)
(** The modbus addresses of exported machines (ModbusInterface.cpp, ModbusInterface.h)
    and the file that keeps them from one run to the next: its writer (the rows of
    [exportModbusMapping] of MachineInstance.cpp) and its loader
    ([load_preset_modbus_mappings] of clockwork.cpp). *)
From S2P Require Import Prelude Cnum Message.
From Stdlib Require Import Ascii.
Open Scope Z_scope.
Local Open Scope sm_scope.

(** ** Data *)
(** [ModbusExport::Type], [ModbusAddress::Group], [ModbusAddress::Source]. *)
Inductive ExportType :=
| ex_none | ex_discrete | ex_coil | ex_reg | ex_reg32 | ex_rw_reg | ex_rw_reg32 | ex_float32 | ex_str.
Inductive Group := g_coil | g_discrete | g_none | g_input_register | g_holding_register | g_string.
Inductive Source := src_unknown | src_machine | src_state | src_command | src_property.
#[export] Instance ExportType_eq_dec : EqDecision ExportType.
Proof. solve_decision. Defined.
#[export] Instance Group_eq_dec : EqDecision Group.
Proof. solve_decision. Defined.
#[export] Instance Source_eq_dec : EqDecision Source.
Proof. solve_decision. Defined.

Definition group_int (g : Group) : Z :=
  match g with
  | g_coil => 0 | g_discrete => 1 | g_none => 2 | g_input_register => 3 | g_holding_register => 4 | g_string => 5
  end.
Definition type_int (t : ExportType) : Z :=
  match t with
  | ex_none => 0 | ex_discrete => 1 | ex_coil => 2 | ex_reg => 3 | ex_reg32 => 4 | ex_rw_reg => 5
  | ex_rw_reg32 => 6 | ex_float32 => 7 | ex_str => 8
  end.
Definition toGroup (g : Z) : Group :=
  if (g <? 0) || (4 <? g) then g_none
  else if g =? 0 then g_coil else if g =? 1 then g_discrete else if g =? 2 then g_none
  else if g =? 3 then g_input_register else g_holding_register.
Definition groupFromInt (g : Z) : Group :=
  if g =? 0 then g_coil else if g =? 1 then g_discrete
  else if g =? 3 then g_input_register else if g =? 4 then g_holding_register else g_none.

(** [ModbusAddressDetails]: the fields are [short]. *)
Record Details := mkDetails { d_group : Z; d_address : Z; d_len : Z; d_type : ExportType }.
Definition to_s16 (z : Z) : Z := (z + 2 ^ 15) mod 2 ^ 16 - 2 ^ 15.
Definition Details_new (grp addr : Z) (t : ExportType) (n : Z) : Details :=
  mkDetails (to_s16 grp) (to_s16 addr) (to_s16 n) t.

(** An address; [addr_owner] is not initialised ([None]) by the default constructor. *)
Record ModbusAddress := mkAddress {
  group : Group;
  address : Z;
  allocated : Z;
  exportType : ExportType;
  offset : Z;
  source : Source;
  addr_owner : option ptr;
  addr_name : string
}.
Definition no_address : ModbusAddress := mkAddress g_none 0 0 ex_none 0 src_unknown None "".
Definition address_eq (a b : ModbusAddress) : bool := bool_decide (group a = group b) && (address a =? address b).
Definition address_lt (a b : ModbusAddress) : bool :=
  (group_int (group a) <? group_int (group b)) ||
  (bool_decide (group a = group b) && (address a <? address b)).
Definition getBaseAddress (a : ModbusAddress) : res Z := int_of (address a - offset a).

(** The static members of [ModbusAddress]. *)
Record Registry := mkRegistry {
  next_discrete : Z;
  next_coil : Z;
  next_input_register : Z;
  next_holding_register : Z;
  user_mappings : gmap Z ModbusAddress;
  automatic_mappings : gmap Z ModbusAddress;
  preset_modbus_mapping : gmap string Details
}.
Definition first_auto_address : Z := 1000.
Definition registry0 : Registry :=
  mkRegistry first_auto_address first_auto_address first_auto_address first_auto_address ∅ ∅ ∅.
Definition RM := SM Registry.

Definition set_next_discrete z r := mkRegistry z (next_coil r) (next_input_register r) (next_holding_register r)
  (user_mappings r) (automatic_mappings r) (preset_modbus_mapping r).
Definition set_next_coil z r := mkRegistry (next_discrete r) z (next_input_register r) (next_holding_register r)
  (user_mappings r) (automatic_mappings r) (preset_modbus_mapping r).
Definition set_next_input z r := mkRegistry (next_discrete r) (next_coil r) z (next_holding_register r)
  (user_mappings r) (automatic_mappings r) (preset_modbus_mapping r).
Definition set_next_holding z r := mkRegistry (next_discrete r) (next_coil r) (next_input_register r) z
  (user_mappings r) (automatic_mappings r) (preset_modbus_mapping r).
Definition set_user z r := mkRegistry (next_discrete r) (next_coil r) (next_input_register r) (next_holding_register r)
  z (automatic_mappings r) (preset_modbus_mapping r).
Definition set_automatic z r := mkRegistry (next_discrete r) (next_coil r) (next_input_register r) (next_holding_register r)
  (user_mappings r) z (preset_modbus_mapping r).
Definition set_presets z r := mkRegistry (next_discrete r) (next_coil r) (next_input_register r) (next_holding_register r)
  (user_mappings r) (automatic_mappings r) z.

(** ** Addresses *)
(** [(group << 16) + address] on [int]; shifting a negative number is undefined. *)
Definition index_of (g address : Z) : res Z :=
  if g <? 0 then Undef else hi ← int_of (g * 2 ^ 16); int_of (hi + address).

Definition next (g : Group) (r : Registry) : Z :=
  match g with
  | g_discrete => next_discrete r
  | g_coil => next_coil r
  | g_input_register => next_input_register r
  | g_holding_register => next_holding_register r
  | _ => 0
  end.
(** The entry of an address in the maps. *)
Definition record_address (a : ModbusAddress) : RM unit := fun r =>
  i ← index_of (group_int (group a)) (address a);
  Ok (tt, if address a <? first_auto_address then set_user (<[i := a]> (user_mappings r)) r
          else set_automatic (<[i := a]> (automatic_mappings r)) r).
(** [ModbusAddress::ModbusAddress (g, a, n, ...)]. *)
Definition claim (g : Group) (a n : Z) : RM unit := fun r =>
  match g with
  | g_discrete => if next_discrete r <=? a then z ← int_of (a + 1); Ok (tt, set_next_discrete z r) else Ok (tt, r)
  | g_coil => if next_coil r <=? a then z ← int_of (a + 1); Ok (tt, set_next_coil z r) else Ok (tt, r)
  | g_input_register =>
      if next_input_register r <=? a then z ← int_of (a + n); Ok (tt, set_next_input z r) else Ok (tt, r)
  | g_holding_register | g_string =>
      if next_holding_register r <=? a then z ← int_of (a + n); Ok (tt, set_next_holding z r) else Ok (tt, r)
  | g_none => Ok (tt, r)
  end.
Definition ModbusAddress_new (g : Group) (a n : Z) (o : ptr) (src : Source) (nam : string) (t : ExportType) (i : Z)
    : RM ModbusAddress :=
  run! claim g a n in
  let addr := mkAddress g a n t i src (Some o) nam in
  run! record_address addr in sret addr.

(** [next_x += n], where [n] is unsigned: the sum wraps. *)
Definition take_next (g : Group) (n : Z) (r : Registry) : option (Z * Registry) :=
  match g with
  | g_discrete => Some (next_discrete r, set_next_discrete (to_s32 (next_discrete r + n)) r)
  | g_coil => Some (next_coil r, set_next_coil (to_s32 (next_coil r + n)) r)
  | g_input_register | g_string => Some (next_input_register r, set_next_input (to_s32 (next_input_register r + n)) r)
  | g_holding_register => Some (next_holding_register r, set_next_holding (to_s32 (next_holding_register r + n)) r)
  | g_none => None
  end.
Definition alloc (g : Group) (n : Z) (ma : ptr) (src : Source) (full_name : string) (kind : ExportType)
    : RM ModbusAddress := fun r =>
  if n =? 0 then Ok (no_address, r) else
  match take_next g n r with
  | None => Ok (no_address, r)
  | Some (a, r1) =>
      (let! addr := ModbusAddress_new g a (to_s32 n) ma src full_name kind 0 in
       run! record_address addr in sret addr) r1
  end.
(** [ModbusAddress::lookup]. *)
Definition lookup_address (g a : Z) (r : Registry) : res ModbusAddress :=
  i ← index_of g a;
  Ok (match automatic_mappings r !! i with
      | Some x => x
      | None => default no_address (user_mappings r !! i)
      end).

(** The address [addModbusExport] of MachineInstance.cpp gets: a preset one or a
    new one. *)
Definition export_address (g : Group) (n : Z) (o m : ptr) (kind : ExportType) (src : Source) (full_name : string)
    : RM ModbusAddress := fun r =>
  match preset_modbus_mapping r !! full_name with
  | Some info => ModbusAddress_new (toGroup (d_group info)) (d_address info) (d_len info) o src full_name kind 0 r
  | None => alloc g n m src full_name kind r
  end.

(** ** The mapping file *)
Definition text (s : string) : list ascii := String.list_ascii_of_string s.
Definition tab : ascii := chr 9.
Definition newline : ascii := chr 10.
Definition colon : ascii := chr 58.

(** [rfind]: the position of the last occurrence. *)
Fixpoint starts_with (p l : list ascii) : bool :=
  match p, l with
  | [], _ => true
  | c :: p', d :: l' => bool_decide (c = d) && starts_with p' l'
  | _ :: _, [] => false
  end.
Fixpoint rfind (p l : list ascii) : option nat :=
  match l with
  | [] => if starts_with p [] then Some O else None
  | _ :: l' =>
      match rfind p l' with
      | Some k => Some (S k)
      | None => if starts_with p l then Some O else None
      end
  end.
(** [replace (pos, len, by)]. *)
Definition replace (pos len : nat) (by_ l : list ascii) : list ascii := take pos l ++ by_ ++ drop (pos + len) l.

(** A coil is written with "cmd_" before the last part of its name. *)
Definition command_name (l : list ascii) : list ascii :=
  match rfind [chr 46] l with
  | Some pos => replace pos 1 (text ".cmd_") l
  | None => l
  end.
Definition data_type (g : Group) (info : ModbusAddress) : string :=
  if bool_decide (exportType info = ex_float32) then "Floating_PT_32" else
  match g with
  | g_discrete | g_coil => "Discrete"
  | g_input_register | g_holding_register =>
      if allocated info =? 1 then "Signed_int_16" else if allocated info =? 2 then "Signed_int_32" else "Ascii_String"
  | _ => "Unknown"
  end.
(** One row; [owner_name] is the name of the machine's owner. *)
Definition written_name (owner_name : option string) (grp : Z) (item : string) : list ascii :=
  match owner_name with
  | Some o => text o ++ [chr 46] ++ (if grp =? 0 then text "cmd_" else []) ++ text item
  | None => if grp =? 0 then command_name (text item) else text item
  end.
Definition mapping_row (owner_name : option string) (index : Z) (item : string) (info : ModbusAddress) : list ascii :=
  let addr := Z.land index 65535 in
  let grp := Z.shiftr index 16 in
  print_long grp ++ [colon] ++ pad_left (chr 48) 5 (print_long addr) ++ [tab] ++
  written_name owner_name grp item ++ [tab] ++ text (data_type (toGroup grp) info) ++ [tab] ++
  print_long (allocated info).

(** *** The loader *)
(** The lines [getline] finds: the text after the last newline counts when it is
    not empty. *)
Fixpoint lines_of (l : list ascii) : list (list ascii) :=
  match l with
  | [] => []
  | c :: l' =>
      if bool_decide (c = newline) then [] :: lines_of l'
      else match lines_of l' with
           | [] => [[c]]
           | x :: rest => (c :: x) :: rest
           end
  end.
(** [>>] into a string; a stream that failed is [None]. *)
Definition read_word (s : option (list ascii)) : list ascii * option (list ascii) :=
  match s with
  | None => ([], None)
  | Some l =>
      match span (fun c => negb (is_space c)) (snd (span is_space l)) with
      | ([], _) => ([], None)
      | (w, rest) => (w, Some rest)
      end
  end.
(** [>>] into an [int] that holds [old]: whether it succeeded, and the contents. *)
Definition read_int (s : option (list ascii)) (old : Z) : bool * Z :=
  match s with
  | None => (false, old)
  | Some l =>
      match snd (span is_space l) with
      | [] => (false, old)
      | l1 =>
          let '(neg, l2) := take_sign l1 in
          match fst (span is_digit l2) with
          | [] => (false, 0)
          | ds => let v := if neg : bool then - digits_val ds else digits_val ds in
              (in_int v, Z.max INT_MIN (Z.min INT_MAX v))
          end
      end
  end.

(** What the loop over the lines keeps. *)
Record Loading := mkLoading {
  max_disc : Z; max_coil : Z; max_input : Z; max_holding : Z;
  generate_length : bool;
  errors : Z;
  presets : gmap string Details
}.
Definition set_generate b s := mkLoading (max_disc s) (max_coil s) (max_input s) (max_holding s) b (errors s) (presets s).
Definition add_error s := mkLoading (max_disc s) (max_coil s) (max_input s) (max_holding s) (generate_length s)
  (errors s + 1) (presets s).
(** [if (addr_num >= max) max = addr_num + 1]. *)
Definition raise_max (m a : Z) : res Z := if m <=? a then int_of (a + 1) else Ok m.
Definition seen_address (grp a : Z) (s : Loading) : res Loading :=
  if grp =? 0 then z ← raise_max (max_coil s) a;
    Ok (mkLoading (max_disc s) z (max_input s) (max_holding s) (generate_length s) (errors s) (presets s))
  else if grp =? 1 then z ← raise_max (max_disc s) a;
    Ok (mkLoading z (max_coil s) (max_input s) (max_holding s) (generate_length s) (errors s) (presets s))
  else if grp =? 3 then z ← raise_max (max_input s) a;
    Ok (mkLoading (max_disc s) (max_coil s) z (max_holding s) (generate_length s) (errors s) (presets s))
  else if grp =? 4 then z ← raise_max (max_holding s) a;
    Ok (mkLoading (max_disc s) (max_coil s) (max_input s) z (generate_length s) (errors s) (presets s))
  else Ok s.
Definition loaded_type (type : list ascii) (grp : Z) : ExportType :=
  if bool_decide (type = text "Floating_PT_32") then ex_float32
  else if bool_decide (type = text "Signed_int_32") then (if grp =? 3 then ex_reg32 else ex_rw_reg32)
  else if bool_decide (type = text "Signed_int_16") then (if grp =? 3 then ex_reg else ex_rw_reg)
  else ex_discrete.
Definition str_of (l : list ascii) : string := String.string_of_list_ascii l.

(** The name a row is for. *)
Definition lookup_name (grp nm : list ascii) : list ascii :=
  if bool_decide (grp = text "0") then
    match rfind (text "cmd_") nm with Some pos => replace pos 4 [] nm | None => nm end
  else nm.
(** A row with its name, type and length. *)
Definition load_row (grp addr nm type : list ascii) (length : Z) (s : Loading) : res Loading :=
  let key := str_of (lookup_name grp nm) in
  match presets s !! key with
  | Some _ => Ok s
  | None =>
      let '(g, end_) := strtol grp in
      if negb (bool_decide (end_ = [])) then Ok (add_error s) else
      let '(a, end_) := strtol addr in
      if negb (bool_decide (end_ = [])) then Ok (add_error s) else
      let group_num := to_s32 g in
      let addr_num := to_s32 a in
      let len := if generate_length s then
                   if bool_decide (type = text "Signed_int_32") then 2
                   else if bool_decide (type = text "Floating_PT_32") then 1 else length
                 else length in
      s1 ← seen_address group_num addr_num s;
      Ok (mkLoading (max_disc s1) (max_coil s1) (max_input s1) (max_holding s1) (generate_length s1) (errors s1)
            (<[key := Details_new group_num addr_num (loaded_type type group_num) len]> (presets s1)))
  end.
Definition load_line (line : list ascii) (s : Loading) : res Loading :=
  let '(group_addr, rest) := read_word (Some line) in
  match span (fun c => negb (bool_decide (c = colon))) group_addr with
  | (_, []) => Ok (add_error s)
  | (grp, _ :: addr) =>
      let '(nm, rest) := read_word rest in
      let '(type, rest) := read_word rest in
      let '(ok, length) := read_int rest 1 in
      load_row grp addr nm type length (if ok then s else set_generate true s)
  end.
(** A line that does not fit into the buffer ends the loop. *)
Fixpoint load_lines (l : list (list ascii)) (s : Loading) : res Loading :=
  match l with
  | [] => Ok s
  | line :: l' =>
      if (length line <=? 199)%nat then s1 ← load_line (c_str line) s; load_lines l' s1 else Ok s
  end.
Definition raise_next (m nxt : Z) : res Z := if nxt <=? m then int_of (m + 1) else Ok nxt.
(** [load_preset_modbus_mappings]; the contents of the file, if there is one. *)
Definition load_preset_modbus_mappings (file : option (list ascii)) : RM Z := fun r =>
  match file with
  | None => Ok (0, r)
  | Some contents =>
      s ← load_lines (lines_of contents) (mkLoading 0 0 0 0 false 0 (preset_modbus_mapping r));
      let r1 := set_presets (presets s) r in
      if negb (errors s =? 0) then Ok (1, r1) else
      d ← raise_next (max_disc s) (next_discrete r1);
      c ← raise_next (max_coil s) (next_coil r1);
      i ← raise_next (max_input s) (next_input_register r1);
      h ← raise_next (max_holding s) (next_holding_register r1);
      Ok (0, set_next_holding h (set_next_input i (set_next_coil c (set_next_discrete d r1))))
  end.
