(* ===== verification/ModbusProps.v ===== *)
(** Properties of modbus addresses: new addresses never overlap others, an address
    is found again, and the mapping file gives back the addresses that were
    written to it. *)
From S2P Require Import Prelude Cnum Message Modbus.
From Stdlib Require Import Ascii.
Open Scope Z_scope.
Local Open Scope sm_scope.

(** ** Allocation *)
(** The groups a machine exports to; each has its own counter. *)
Definition plain_group (g : Group) : Prop := g <> g_none /\ g <> g_string.
(** The addresses of a 16 bit address space. *)
Definition ADDRESSES : Z := 2 ^ 16.

Lemma next_set g h z r : plain_group g ->
  next h (match g with
          | g_discrete => set_next_discrete z r | g_coil => set_next_coil z r
          | g_input_register => set_next_input z r | _ => set_next_holding z r
          end) = if bool_decide (h = g) then z else next h r.
Proof. intros [? ?]. by destruct g, h. Qed.

Lemma index_of_ok g a : plain_group g -> INT_MIN <= a < ADDRESSES ->
  index_of (group_int g) a = Ok (group_int g * 2 ^ 16 + a).
Proof.
  intros [? ?] Ha. unfold index_of, int_of, ADDRESSES, INT_MIN in *.
  rewrite (proj2 (Z.ltb_ge _ _)) by (by destruct g). 
  rewrite (proj2 (in_int_spec (group_int g * 2 ^ 16))) by (unfold INT_MIN, INT_MAX; destruct g; cbn; lia).
  cbn. rewrite (proj2 (in_int_spec _)); [done |]. unfold INT_MIN, INT_MAX. destruct g; cbn; lia.
Qed.

(** What [record_address] leaves alone. *)
Definition same_counters (r r' : Registry) : Prop :=
  (forall g, next g r' = next g r) /\ preset_modbus_mapping r' = preset_modbus_mapping r.
#[export] Instance same_counters_preorder : PreOrder same_counters.
Proof.
  split; [done |]. intros x y z [H1 H2] [H3 H4]. split; [intros g; by rewrite H3, H1 | by rewrite H4].
Qed.

Definition entry_of (r : Registry) (a : ModbusAddress) : option ModbusAddress :=
  let i := group_int (group a) * 2 ^ 16 + address a in
  if address a <? first_auto_address then user_mappings r !! i else automatic_mappings r !! i.

Lemma record_address_run a r : plain_group (group a) -> INT_MIN <= address a < ADDRESSES ->
  exists r', record_address a r = Ok (tt, r') /\ same_counters r r' /\ entry_of r' a = Some a /\
    (forall i, i <> group_int (group a) * 2 ^ 16 + address a ->
       automatic_mappings r' !! i = automatic_mappings r !! i /\ user_mappings r' !! i = user_mappings r !! i).
Proof.
  intros Hg Ha. unfold record_address. rewrite index_of_ok by done. cbn -[Z.pow]. eexists. split; [done |].
  split; [by destruct (address a <? first_auto_address) |]. split.
  - unfold entry_of. destruct (address a <? first_auto_address) eqn:E; rewrite ?E; cbn -[Z.pow]; by rewrite lookup_insert_eq.
  - intros i Hi. destruct (address a <? first_auto_address); cbn -[Z.pow]; by rewrite ?lookup_insert_ne.
Qed.

(** A new address: the next [n] of the group. *)
Definition new_address (g : Group) (n : Z) (m : ptr) (src : Source) (full_name : string) (kind : ExportType) (r : Registry)
    : ModbusAddress := mkAddress g (next g r) n kind 0 src (Some m) full_name.

Lemma take_next_run g n r : plain_group g -> 0 <= next g r -> 0 < n -> next g r + n <= ADDRESSES ->
  exists r1, take_next g n r = Some (next g r, r1) /\
    (forall h, next h r1 = if bool_decide (h = g) then next g r + n else next h r) /\
    preset_modbus_mapping r1 = preset_modbus_mapping r /\
    automatic_mappings r1 = automatic_mappings r /\ user_mappings r1 = user_mappings r.
Proof.
  intros Hg H0 Hn Hb. unfold ADDRESSES in Hb.
  assert (to_s32 (next g r + n) = next g r + n) as E by (unfold to_s32; rewrite Z.mod_small; lia).
  pose proof (fun h => next_set g h (next g r + n) r Hg) as Hs.
  destruct g; try (by destruct Hg); cbn in *; rewrite E; eexists; (split; [done | split; [exact Hs | done]]).
Qed.

Lemma alloc_run g n m src full_name kind r : plain_group g -> 0 <= next g r -> 0 < n -> next g r + n <= ADDRESSES ->
  exists r', alloc g n m src full_name kind r = Ok (new_address g n m src full_name kind r, r') /\
    (forall h, next h r' = if bool_decide (h = g) then next g r + n else next h r) /\
    preset_modbus_mapping r' = preset_modbus_mapping r /\
    entry_of r' (new_address g n m src full_name kind r) = Some (new_address g n m src full_name kind r) /\
    (forall i, i <> group_int g * 2 ^ 16 + next g r ->
       automatic_mappings r' !! i = automatic_mappings r !! i /\ user_mappings r' !! i = user_mappings r !! i).
Proof.
  intros Hg H0 Hn Hb. unfold alloc. rewrite (proj2 (Z.eqb_neq _ _)) by lia.
  destruct (take_next_run g n r Hg H0 Hn Hb) as (r1 & -> & Hnext & Hp & Ha & Hu).
  assert (to_s32 n = n) as -> by (unfold to_s32, ADDRESSES in *; rewrite Z.mod_small; lia).
  set (a := new_address g n m src full_name kind r).
  assert (claim g (next g r) n r1 = Ok (tt, r1)) as Hclaim.
  { pose proof (Hnext g) as Hg1. rewrite bool_decide_true in Hg1 by done. unfold claim.
    destruct g; try (by destruct Hg); cbn in *; by rewrite (proj2 (Z.leb_gt _ _)) by lia. }
  destruct (record_address_run a r1 Hg) as (r2 & H2 & [C2 P2] & E2 & O2); [unfold ADDRESSES, INT_MIN in *; cbn; lia |].
  destruct (record_address_run a r2 Hg) as (r3 & H3 & [C3 P3] & E3 & O3); [unfold ADDRESSES, INT_MIN in *; cbn; lia |].
  exists r3. split.
  { unfold ModbusAddress_new. rewrite (sbind_run _ _ r1 a r2).
    - by rewrite (sbind_run _ _ _ _ _ H3).
    - rewrite (sbind_run _ _ _ _ _ Hclaim). change (mkAddress _ _ _ _ _ _ _ _) with a. by rewrite (sbind_run _ _ _ _ _ H2). }
  split; [intros h; by rewrite C3, C2, Hnext |]. split; [by rewrite P3, P2 |]. split; [done |].
  intros i Hi. destruct (O3 i Hi) as [-> ->]. destruct (O2 i Hi) as [-> ->]. by rewrite Ha, Hu.
Qed.

(** *** A sequence of exports *)
(** One call of [addModbusExport]. *)
Record Request := mkRequest {
  q_group : Group; q_size : Z; q_owner : ptr; q_machine : ptr;
  q_type : ExportType; q_source : Source; q_name : string
}.
Definition export_one (q : Request) : RM ModbusAddress :=
  export_address (q_group q) (q_size q) (q_owner q) (q_machine q) (q_type q) (q_source q) (q_name q).
Fixpoint export_all (l : list Request) : RM (list ModbusAddress) :=
  match l with
  | [] => sret []
  | q :: l' => let! a := export_one q in let! rest := export_all l' in sret (a :: rest)
  end.

(** Every preset address lies below the counter of its group. *)
Definition preset_ok (r : Registry) (d : Details) : Prop :=
  plain_group (toGroup (d_group d)) /\ 0 <= d_address d /\ 1 <= d_len d /\
  d_address d + d_len d <= next (toGroup (d_group d)) r.
Definition presets_below (r : Registry) : Prop :=
  map_Forall (fun _ d => preset_ok r d) (preset_modbus_mapping r).
Definition is_new (r : Registry) (q : Request) : bool :=
  match preset_modbus_mapping r !! q_name q with None => true | Some _ => false end.
Definition proper_request (q : Request) : Prop := plain_group (q_group q) /\ 0 < q_size q.
(** The number of addresses the new exports take from a group. *)
Definition demand (r : Registry) (g : Group) (l : list Request) : Z :=
  foldr (fun q s => (if is_new r q && bool_decide (q_group q = g) then q_size q else 0) + s) 0 l.
Definition disjoint (a b : ModbusAddress) : Prop :=
  group a = group b -> address a + allocated a <= address b \/ address b + allocated b <= address a.
(** Where the address of a request lies, between the counters of two states. *)
Definition placed (r r' : Registry) (q : Request) (a : ModbusAddress) : Prop :=
  if is_new r q
  then group a = q_group q /\ allocated a = q_size q /\
       next (q_group q) r <= address a /\ address a + q_size q <= next (q_group q) r'
  else exists d, preset_modbus_mapping r !! q_name q = Some d /\
       group a = toGroup (d_group d) /\ address a = d_address d /\ allocated a = d_len d.

Lemma preset_run q d r : preset_modbus_mapping r !! q_name q = Some d ->
  plain_group (toGroup (d_group d)) -> 0 <= d_address d < ADDRESSES -> d_address d < next (toGroup (d_group d)) r ->
  exists r', export_one q r = Ok (mkAddress (toGroup (d_group d)) (d_address d) (d_len d) (q_type q) 0 (q_source q)
      (Some (q_owner q)) (q_name q), r') /\ same_counters r r'.
Proof.
  intros Ed Hg Ha Hn. unfold export_one, export_address. rewrite Ed. set (g := toGroup (d_group d)) in *.
  assert (claim g (d_address d) (d_len d) r = Ok (tt, r)) as Hclaim.
  { unfold claim. destruct g; try (by destruct Hg); cbn in *; by rewrite (proj2 (Z.leb_gt _ _)) by lia. }
  unfold ModbusAddress_new. rewrite (sbind_run _ _ _ _ _ Hclaim). set (a := mkAddress _ _ _ _ _ _ _ _).
  destruct (record_address_run a r Hg) as (r2 & H2 & C2 & _); [unfold INT_MIN; cbn; lia |].
  exists r2. by rewrite (sbind_run _ _ _ _ _ H2).
Qed.

Lemma demand_one r g q : demand r g [q] = if is_new r q && bool_decide (q_group q = g) then q_size q else 0.
Proof. unfold demand. cbn. lia. Qed.
Lemma export_one_run q r : presets_below r -> proper_request q -> (forall g, 0 <= next g r <= ADDRESSES) ->
  next (q_group q) r + demand r (q_group q) [q] <= ADDRESSES ->
  exists a r', export_one q r = Ok (a, r') /\ placed r r' q a /\
    preset_modbus_mapping r' = preset_modbus_mapping r /\ (forall g, next g r' = next g r + demand r g [q]).
Proof.
  intros Hp [Hg Hn] Hc Hd. setoid_rewrite demand_one. rewrite demand_one in Hd. unfold placed.
  destruct (is_new r q) eqn:Hnew; cbn [andb] in *.
  - rewrite bool_decide_true in Hd by done.
    destruct (alloc_run (q_group q) (q_size q) (q_machine q) (q_source q) (q_name q) (q_type q) r Hg)
      as (r' & Hr & Hnext & Hpre & _); [apply Hc | done | lia |].
    eexists _, r'. unfold export_one, export_address. unfold is_new in Hnew.
    destruct (preset_modbus_mapping r !! q_name q); [done |]. split; [exact Hr |]. split; [|split; [done |]].
    + cbn. split; [done |]. split; [done |]. split; [done |]. rewrite Hnext, bool_decide_true by done. lia.
    + intros g. rewrite Hnext. case_bool_decide as E; [subst; rewrite bool_decide_true by done; lia |].
      rewrite bool_decide_false by done. lia.
  - unfold is_new in Hnew. destruct (preset_modbus_mapping r !! q_name q) as [d|] eqn:Ed; [|done].
    destruct (Hp _ _ Ed) as (Hgd & H0 & H1 & Hb). pose proof (Hc (toGroup (d_group d))) as Hcd.
    destruct (preset_run q d r Ed Hgd) as (r' & Hr & [Hnext Hpre]); [lia | lia |].
    eexists _, r'. split; [exact Hr |]. split; [by exists d |]. split; [done |].
    intros g. rewrite Hnext. lia.
Qed.

Lemma demand_cons r g q l : demand r g (q :: l) = demand r g [q] + demand r g l.
Proof. unfold demand. cbn. lia. Qed.
Lemma demand_pos r g l : Forall proper_request l -> 0 <= demand r g l.
Proof. induction 1 as [|q l [_ Hq] _ IH]; [done |]. rewrite demand_cons, demand_one. case_match; lia. Qed.
Lemma demand_presets r r' g l : preset_modbus_mapping r' = preset_modbus_mapping r -> demand r' g l = demand r g l.
Proof. intros E. unfold demand, is_new. by rewrite E. Qed.
Lemma is_new_presets r r' q : preset_modbus_mapping r' = preset_modbus_mapping r -> is_new r' q = is_new r q.
Proof. intros E. unfold is_new. by rewrite E. Qed.

Lemma presets_below_mono r r' : presets_below r -> preset_modbus_mapping r' = preset_modbus_mapping r ->
  (forall g, next g r <= next g r') -> presets_below r'.
Proof.
  intros Hp E Hn k d Hd. rewrite E in Hd. destruct (Hp k d Hd) as (? & ? & ? & ?). specialize (Hn (toGroup (d_group d))).
  split; [done |]. lia.
Qed.
(** The address of a request that was placed later, or is preset, lies on one side
    of the counter. *)
Lemma placed_disjoint r r1 r2 q1 q2 a1 a2 : presets_below r -> preset_modbus_mapping r1 = preset_modbus_mapping r ->
  proper_request q1 -> proper_request q2 ->
  placed r r1 q1 a1 -> placed r1 r2 q2 a2 -> (forall g, next g r <= next g r1) ->
  is_new r q1 || is_new r q2 = true -> disjoint a1 a2.
Proof.
  intros Hp E [_ H1] [_ H2] P1 P2 Hn Hnew Hg. unfold placed in *. rewrite (is_new_presets r r1) in P2 by done.
  destruct (is_new r q1) eqn:N1, (is_new r q2) eqn:N2; try done.
  - destruct P1 as (G1 & A1 & L1 & U1), P2 as (G2 & A2 & L2 & U2). left. rewrite A1. rewrite <- G2, <- Hg, G1 in L2. lia.
  - destruct P1 as (G1 & A1 & L1 & U1), P2 as (d & Ed & G2 & A2 & A2'). rewrite E in Ed.
    destruct (Hp _ _ Ed) as (_ & _ & _ & Hb). right. rewrite A2, A2'. rewrite <- G2, <- Hg, G1 in Hb. lia.
  - destruct P1 as (d & Ed & G1 & A1 & A1'), P2 as (G2 & A2 & L2 & U2).
    destruct (Hp _ _ Ed) as (_ & _ & _ & Hb). left. rewrite A1, A1'. rewrite <- G1, Hg, G2 in Hb.
    specialize (Hn (q_group q2)). lia.
Qed.
Lemma placed_widen r r1 r2 r3 q a : preset_modbus_mapping r1 = preset_modbus_mapping r ->
  (forall g, next g r <= next g r1) -> (forall g, next g r2 <= next g r3) -> placed r1 r2 q a -> placed r r3 q a.
Proof.
  intros E H1 H2. unfold placed. rewrite (is_new_presets r r1) by done. destruct (is_new r q).
  - intros (? & ? & ? & ?). specialize (H1 (q_group q)). specialize (H2 (q_group q)). repeat split; try done; lia.
  - rewrite E. done.
Qed.

Lemma ordered_pairs_mono {A} (P Q : A -> A -> Prop) l : (forall x y, P x y -> Q x y) ->
  ForallOrdPairs P l -> ForallOrdPairs Q l.
Proof. intros Hpq. induction 1 as [|x l Hx _ IH]; constructor; [|done]. revert Hx. apply List.Forall_impl. auto. Qed.

Lemma export_all_run l r : presets_below r -> Forall proper_request l ->
  (forall g, 0 <= next g r /\ next g r + demand r g l <= ADDRESSES) ->
  exists addrs r', export_all l r = Ok (addrs, r') /\ preset_modbus_mapping r' = preset_modbus_mapping r /\
    Forall2 (placed r r') l addrs /\ (forall g, next g r' = next g r + demand r g l) /\
    ForallOrdPairs (fun x y => is_new r (fst x) || is_new r (fst y) = true -> disjoint (snd x) (snd y)) (zip l addrs).
Proof.
  intros Hp Hl. revert r Hp. induction Hl as [|q l Hq Hl IH]; intros r Hp Hb.
  { exists [], r. split; [done |]. split; [done |]. split; [done |]. split; [intros g; cbn; lia | constructor]. }
  assert (forall g, 0 <= demand r g l) as Hd by (intros g; by apply demand_pos).
  assert (forall g, 0 <= demand r g [q]) as Hd1 by (intros g; apply demand_pos; constructor; [done | constructor]).
  setoid_rewrite demand_cons in Hb.
  destruct (export_one_run q r Hp Hq) as (a & r1 & Hr1 & P1 & E1 & N1).
  { intros g. specialize (Hb g). specialize (Hd g). specialize (Hd1 g). lia. }
  { specialize (Hb (q_group q)). specialize (Hd (q_group q)). lia. }
  assert (forall g, next g r <= next g r1) as Hn1 by (intros g; rewrite N1; specialize (Hd1 g); lia).
  destruct (IH r1) as (addrs & r2 & Hr2 & E2 & P2 & N2 & D2).
  { by apply (presets_below_mono r). }
  { intros g. rewrite (demand_presets r r1), N1 by done. specialize (Hb g). specialize (Hd1 g). lia. }
  assert (forall g, next g r1 <= next g r2) as Hn2 by (intros g; rewrite N2, (demand_presets r r1) by done; specialize (Hd g); lia).
  exists (a :: addrs), r2. cbn [export_all]. rewrite (sbind_run _ _ _ _ _ Hr1), (sbind_run _ _ _ _ _ Hr2).
  split; [done |]. split; [by rewrite E2 |]. split; [|split].
  - constructor; [by apply (placed_widen r r r1) |]. eapply list.Forall2_impl; [exact P2 |]. intros q' a'. by apply placed_widen.
  - intros g. rewrite N2, (demand_presets r r1 g l E1), N1, (demand_cons r g q l). lia.
  - cbn [zip zip_with]. constructor.
    + apply Forall_forall. intros [q' b] Hin. cbn. intros Hnew.
      apply list_elem_of_In, list_elem_of_lookup in Hin as [k Hk]. apply lookup_zip_with_Some in Hk as (? & ? & [= <- <-] & Hk1 & Hk2).
      apply (placed_disjoint r r1 r2 q q'); try done; [by eapply Forall_lookup_1 | by eapply Forall2_lookup_lr].
    + eapply ordered_pairs_mono; [|exact D2]. intros x y Hd' Hnew. apply Hd'. by rewrite !(is_new_presets r r1).
Qed.
