(* ===== verification/MappingFile.v ===== *)
(** The mapping file: what is written is what is loaded, also after a restart. *)
From S2P Require Import Prelude Cnum Message Modbus ModbusProps.
From Stdlib Require Import Ascii.
Open Scope Z_scope.
Local Open Scope sm_scope.

(** ** Texts *)
Lemma starts_with_app p l : starts_with p (p ++ l) = true.
Proof. induction p as [|c p IH]; [done |]. cbn. by rewrite bool_decide_true. Qed.
Lemma rfind_app p a l k : rfind p l = Some k -> rfind p (a ++ l) = Some (length a + k)%nat.
Proof. intros Hl. induction a as [|c a IH]; [done |]. cbn. by rewrite IH. Qed.
Lemma rfind_app_None p a l : rfind p (a ++ l) = None -> rfind p l = None.
Proof. induction a as [|c a IH]; [done |]. cbn. intros Hr. apply IH. by destruct (rfind p (a ++ l)). Qed.
Lemma rfind_Some p l k : rfind p l = Some k -> exists b, l = take k l ++ p ++ b.
Proof.
  revert k. induction l as [|c l IH]; intros k; cbn.
  { destruct p; [|done]. intros [= <-]. by exists []. }
  destruct (rfind p l) as [j|] eqn:E.
  - intros [= <-]. destruct (IH j eq_refl) as [b Hb]. exists b. cbn. by rewrite <- Hb.
  - destruct (starts_with p (c :: l)) eqn:Hs; [|done]. intros [= <-]. cbn [take app]. clear -Hs.
    revert Hs. generalize (c :: l) as u. induction p as [|d p IH]; intros u Hs; [by exists u |].
    destruct u as [|e u]; [done |]. cbn in Hs. apply andb_true_iff in Hs as [E Hs].
    apply bool_decide_eq_true in E as ->. destruct (IH u Hs) as [b ->]. by exists b.
Qed.
Lemma replace_app a p b by_ : replace (length a) (length p) by_ (a ++ p ++ b) = a ++ by_ ++ b.
Proof. unfold replace. by rewrite take_app_length, drop_app_add, drop_app_length. Qed.

Lemma span_app p a c l : Forall (fun d => p d = true) a -> p c = false -> span p (a ++ c :: l) = (a, c :: l).
Proof. intros Ha Hc. induction Ha as [|d a Hd _ IH]; cbn; [by rewrite Hc | by rewrite Hd, IH]. Qed.

(** The characters of names and numbers in a row. *)
Definition word_char (c : ascii) : bool := negb (is_space c) && negb (code c =? 0).
Definition word (l : list ascii) : Prop := l <> [] /\ Forall (fun c => word_char c = true) l.
Lemma word_nonspace l : word l -> Forall (fun c => negb (is_space c) = true) l.
Proof. intros [_ Hl]. revert Hl. apply List.Forall_impl. intros c. unfold word_char. by intros [-> _]%andb_true_iff. Qed.
Lemma word_app a b : word a -> Forall (fun c => word_char c = true) b -> word (a ++ b).
Proof. intros [Hn Ha] Hb. split; [by destruct a |]. by apply Forall_app. Qed.
Lemma digits_word l : l <> [] -> Forall (fun c => is_digit c = true) l -> word l.
Proof.
  intros Hn Hl. split; [done |]. revert Hl. apply List.Forall_impl. intros c Hc. unfold word_char.
  destruct (digit_not_special c Hc) as (-> & _ & _ & ->). done.
Qed.
Lemma print_nat_nonempty z : 0 <= z -> print_nat z <> [].
Proof. intros Hz E. pose proof (digits_head (Z.to_nat (Z.log2 z)) z Hz) as H. fold (print_nat z) in H. by rewrite E in H. Qed.
Lemma print_long_digits z : 0 <= z -> print_long z = print_nat z.
Proof. intros Hz. unfold print_long. by rewrite (proj2 (Z.ltb_ge _ _)). Qed.
Lemma print_long_word z : 0 <= z -> word (print_long z).
Proof. intros Hz. rewrite print_long_digits by done. apply digits_word; [by apply print_nat_nonempty | by apply print_nat_sound]. Qed.

(** Reading words that are separated by tabs. *)
Lemma skip_space l c : is_space c = false -> span is_space (c :: l) = ([], c :: l).
Proof. intros Hc. cbn. by rewrite Hc. Qed.
Lemma read_word_first w l : word w -> read_word (Some (w ++ tab :: l)) = (w, Some (tab :: l)).
Proof.
  intros Hw. pose proof (word_nonspace w Hw) as Hs. destruct w as [|c w]; [by destruct Hw |]. unfold read_word.
  inversion Hs as [|? ? Hc Hs']; subst. cbn [app]. rewrite skip_space by (by destruct (is_space c)). cbn [snd].
  change (c :: w ++ tab :: l) with ((c :: w) ++ tab :: l). by rewrite (span_app _ (c :: w) tab l Hs eq_refl).
Qed.
Lemma read_word_next w l : word w -> read_word (Some (tab :: w ++ tab :: l)) = (w, Some (tab :: l)).
Proof.
  intros Hw. rewrite <- (read_word_first w l Hw). unfold read_word.
  replace (snd (span is_space (tab :: w ++ tab :: l))) with (snd (span is_space (w ++ tab :: l))); [done |].
  change (span is_space (tab :: w ++ tab :: l)) with (let '(a, b) := span is_space (w ++ tab :: l) in (tab :: a, b)).
  by destruct (span is_space (w ++ tab :: l)).
Qed.
Lemma read_int_last z old : 0 <= z <= INT_MAX -> read_int (Some (tab :: print_long z)) old = (true, z).
Proof.
  intros Hz. rewrite print_long_digits by lia. destruct (print_nat_sound z) as [Hv Ha]; [lia |].
  pose proof (print_nat_nonempty z ltac:(lia)) as Hn. destruct (print_nat z) as [|c l]; [done |]. clear Hn.
  pose proof Ha as Ha'. inversion Ha as [|? ? Hc _]; subst. destruct (digit_not_special c Hc) as (Hs & Hm & Hp & _).
  unfold read_int. replace (span is_space (tab :: c :: l)) with ([tab], c :: l).
  2: { change (span is_space (tab :: c :: l)) with (let '(a, b) := span is_space (c :: l) in (tab :: a, b)).
       by rewrite skip_space. }
  cbn [snd take_sign]. rewrite Hm, Hp. rewrite (span_all _ _ Ha'). cbn [fst].
  rewrite (proj2 (in_int_spec (digits_val (c :: l)))) by (unfold INT_MIN, INT_MAX in *; lia). f_equal. unfold INT_MIN. lia.
Qed.
Lemma digits_val_zeros k l : digits_val (repeat (chr 48) k ++ l) = digits_val l.
Proof.
  unfold digits_val. induction k as [|k IH]; [done |]. cbn. replace (0 * 10 + (code (chr 48) - 48)) with 0 by done. exact IH.
Qed.
Lemma strtol_padded k z : 0 <= z <= LONG_MAX -> strtol (pad_left (chr 48) k (print_long z)) = (z, []).
Proof.
  intros Hz. rewrite print_long_digits by lia. destruct (print_nat_sound z) as [Hv Ha]; [lia |].
  unfold pad_left. set (l := repeat (chr 48) (k - length (print_nat z)) ++ print_nat z).
  assert (Forall (fun c => is_digit c = true) l) as Hl.
  { apply Forall_app. split; [|done]. generalize (k - length (print_nat z))%nat as j.
    induction j as [|j IH]; cbn; constructor; done. }
  assert (l <> []) as Hn by (intros [_ E]%app_nil; by apply print_nat_nonempty in E; lia).
  assert (digits_val l = z) as Hd by (subst l; by rewrite digits_val_zeros).
  clearbody l. destruct l as [|c l]; [done |]. pose proof Hl as Hl'. inversion Hl as [|? ? Hc _]; subst.
  destruct (digit_not_special c Hc) as (Hs & Hm & Hp & _).
  unfold strtol. rewrite skip_space by done. cbn [snd take_sign]. rewrite Hm, Hp, (span_all _ _ Hl').
  f_equal. unfold LONG_MIN. lia.
Qed.

(** ** Rows *)
(** An export of a machine: its name and address, and the name of the machine's
    owner. *)
Record Row := mkRow {
  row_owner : option string; row_group : Group; row_address : Z; row_item : string; row_info : ModbusAddress
}.
Definition row_index (x : Row) : Z := group_int (row_group x) * 2 ^ 16 + row_address x.
Definition row_text (x : Row) : list ascii := mapping_row (row_owner x) (row_index x) (row_item x) (row_info x).
Definition file_of (l : list Row) : list ascii := concat (map (fun x => row_text x ++ [newline]) l).
(** The name under which [addModbusExport] looks the address up. *)
Definition row_key (x : Row) : string :=
  match row_owner x with Some o => (o +:+ "." +:+ row_item x)%string | None => row_item x end.
Definition row_details (x : Row) : Details :=
  mkDetails (group_int (row_group x)) (row_address x) (allocated (row_info x))
    (loaded_type (text (data_type (row_group x) (row_info x))) (group_int (row_group x))).
(** A row that can be written and read: one word, a line of the buffer's size,
    fields that fit into [short], and no "cmd_" in the name of a coil. *)
Record row_ok (x : Row) : Prop := {
  rk_group : plain_group (row_group x);
  rk_address : 0 <= row_address x < 2 ^ 15;
  rk_length : 0 <= allocated (row_info x) < 2 ^ 15;
  rk_name : word (text (row_key x));
  rk_line : (length (row_text x) <= 199)%nat;
  rk_coil : row_group x = g_coil -> rfind (text "cmd_") (text (row_item x)) = None
}.

Lemma text_app a b : text (a +:+ b)%string = text a ++ text b.
Proof. unfold text. induction a as [|c a IH]; [done |]. rewrite string_cons_app. cbn [String.list_ascii_of_string]. by rewrite IH. Qed.
Lemma str_of_text s : str_of (text s) = s.
Proof. apply String.string_of_list_ascii_of_string. Qed.

(** "cmd_" in front of a text without "cmd_" is its last occurrence. *)
Lemma rfind_cmd l : rfind (text "cmd_") l = None -> rfind (text "cmd_") (text "cmd_" ++ l) = Some O.
Proof. intros Hl. cbn in *. by rewrite Hl. Qed.
Lemma remove_cmd a l : rfind (text "cmd_") l = None -> lookup_name (text "0") (a ++ text "cmd_" ++ l) = a ++ l.
Proof.
  intros Hl. unfold lookup_name. rewrite bool_decide_true by done.
  rewrite (rfind_app _ a _ O) by (by apply rfind_cmd). rewrite Nat.add_0_r. exact (replace_app a (text "cmd_") l []).
Qed.
Lemma remove_no_cmd l : rfind (text "cmd_") l = None -> lookup_name (text "0") l = l.
Proof. intros Hl. unfold lookup_name. rewrite bool_decide_true by done. by rewrite Hl. Qed.

Lemma written_name_key x : row_ok x ->
  lookup_name (print_long (group_int (row_group x))) (written_name (row_owner x) (group_int (row_group x)) (row_item x))
  = text (row_key x).
Proof.
  intros [[Hg1 Hg2] _ _ _ _ Hcoil]. unfold written_name, row_key.
  destruct (decide (row_group x = g_coil)) as [E | Hne].
  - rewrite E in *. specialize (Hcoil eq_refl). change (print_long (group_int g_coil)) with (text "0").
    change (group_int g_coil =? 0) with true. destruct (row_owner x) as [o|].
    + rewrite !text_app. rewrite (app_assoc (text o)). rewrite remove_cmd by done. by rewrite <- app_assoc.
    + unfold command_name. destruct (rfind [chr 46] (text (row_item x))) as [k|] eqn:Hdot; [|by apply remove_no_cmd].
      destruct (rfind_Some _ _ _ Hdot) as [b Hb]. set (a := take k (text (row_item x))) in *.
      assert (length a = k) as Hk.
      { subst a. rewrite length_take. pose proof (f_equal length Hb) as Hl. rewrite !length_app, length_take in Hl.
        cbn in Hl. lia. }
      clearbody a. rewrite <- Hk. rewrite Hb in Hcoil |- *. 
      rewrite (replace_app a [chr 46] b (text ".cmd_") : replace (length a) 1 _ _ = _).
      change (text ".cmd_" ++ b) with ([chr 46] ++ text "cmd_" ++ b). rewrite app_assoc, remove_cmd.
      * by rewrite <- app_assoc.
      * rewrite app_assoc in Hcoil. by apply rfind_app_None in Hcoil.
  - assert ((group_int (row_group x) =? 0) = false) as Ez by (by destruct (row_group x)). rewrite Ez.
    unfold lookup_name. rewrite bool_decide_false by (by destruct (row_group x)).
    destruct (row_owner x) as [o|]; [by rewrite !text_app | done].
Qed.
Lemma written_name_word x : row_ok x -> word (written_name (row_owner x) (group_int (row_group x)) (row_item x)).
Proof.
  intros Hx. pose proof (rk_name x Hx) as Hw. pose proof (rk_group x Hx) as [Hg1 Hg2]. revert Hw. unfold written_name, row_key.
  assert (Forall (fun c => word_char c = true) (text "cmd_")) as Hcmd by (by repeat constructor).
  destruct (row_owner x) as [o|].
  - rewrite !text_app. intros [_ Hw]. apply Forall_app in Hw as [Ho Hw]. apply Forall_app in Hw as [Hdot Hi].
    split; [by destruct (text o) |]. rewrite !Forall_app. split; [done |]. split; [done |]. split; [|done].
    destruct (_ =? 0); [done | constructor].
  - destruct (_ =? 0); [|done]. intros [Hn Hw]. unfold command_name.
    destruct (rfind [chr 46] (text (row_item x))) as [k|]; [|done]. unfold replace.
    split; [by intros [_ [? _]%app_nil]%app_nil |]. rewrite !Forall_app.
    split; [by apply Forall_take |]. split; [by repeat constructor | by apply Forall_drop].
Qed.

Lemma group_int_range g : plain_group g -> 0 <= group_int g <= 4 /\ toGroup (group_int g) = g.
Proof. intros [? ?]. by destruct g. Qed.
Lemma row_index_parts x : row_ok x ->
  Z.land (row_index x) 65535 = row_address x /\ Z.shiftr (row_index x) 16 = group_int (row_group x).
Proof.
  intros Hx. pose proof (rk_address x Hx) as Ha. unfold row_index. change 65535 with (Z.ones 16).
  rewrite Z.land_ones, Z.shiftr_div_pow2 by lia. split.
  - rewrite Z.add_comm, Z.mod_add, Z.mod_small; lia.
  - rewrite Z.div_add_l, Z.div_small; lia.
Qed.

Definition first_word (x : Row) : list ascii :=
  print_long (group_int (row_group x)) ++ colon :: pad_left (chr 48) 5 (print_long (row_address x)).
Lemma row_text_words x : row_ok x -> row_text x =
  first_word x ++ tab :: written_name (row_owner x) (group_int (row_group x)) (row_item x) ++
  tab :: text (data_type (row_group x) (row_info x)) ++ tab :: print_long (allocated (row_info x)).
Proof.
  intros Hx. destruct (row_index_parts x Hx) as [Ea Eg]. destruct (group_int_range _ (rk_group x Hx)) as [_ Et].
  unfold row_text, mapping_row, first_word. rewrite Ea, Eg, Et. cbn [app]. by rewrite <- !app_assoc.
Qed.
Lemma padded_word k z : 0 <= z -> word (pad_left (chr 48) k (print_long z)).
Proof.
  intros Hz. rewrite print_long_digits by done. unfold pad_left. apply digits_word.
  - intros [_ E]%app_nil. by apply print_nat_nonempty in E.
  - apply Forall_app. split; [|by apply print_nat_sound]. generalize (k - length (print_nat z))%nat as j.
    induction j as [|j IH]; cbn; constructor; done.
Qed.
Lemma first_word_word x : row_ok x -> word (first_word x).
Proof.
  intros Hx. apply word_app; [apply print_long_word; apply (group_int_range _ (rk_group x Hx)) |].
  constructor; [done |]. apply padded_word, Hx.
Qed.
Lemma data_type_word g info : word (text (data_type g info)).
Proof. unfold data_type. repeat case_match; (split; [done | by repeat constructor]). Qed.

(** The characters of a row. *)
Definition line_char (c : ascii) : bool := negb (bool_decide (c = newline)) && negb (code c =? 0).
Lemma word_line l : word l -> Forall (fun c => line_char c = true) l.
Proof.
  intros [_ Hl]. revert Hl. apply List.Forall_impl. intros c. unfold word_char, line_char. intros [H1 ->]%andb_true_iff.
  rewrite bool_decide_false; [done |]. intros ->. done.
Qed.
Lemma row_text_line x : row_ok x -> Forall (fun c => line_char c = true) (row_text x).
Proof.
  intros Hx. rewrite row_text_words by done.
  apply Forall_app. split; [apply word_line, first_word_word, Hx |]. constructor; [done |].
  apply Forall_app. split; [apply word_line, written_name_word, Hx |]. constructor; [done |].
  apply Forall_app. split; [apply word_line, data_type_word |]. constructor; [done |].
  apply word_line, print_long_word, Hx.
Qed.
Lemma c_str_line l : Forall (fun c => line_char c = true) l -> c_str l = l.
Proof.
  induction 1 as [|c l Hc _ IH]; [done |]. unfold line_char in Hc. apply andb_true_iff in Hc as [_ Hc].
  cbn. destruct (code c =? 0); [done |]. by rewrite IH.
Qed.
Lemma lines_of_line l rest : Forall (fun c => line_char c = true) l -> lines_of (l ++ newline :: rest) = l :: lines_of rest.
Proof.
  induction 1 as [|c l Hc _ IH]; [done |]. unfold line_char in Hc. apply andb_true_iff in Hc as [Hc _].
  cbn [app lines_of]. destruct (bool_decide (c = newline)); [done |]. by rewrite IH.
Qed.
Lemma lines_of_file l : Forall row_ok l -> lines_of (file_of l) = map row_text l.
Proof.
  induction 1 as [|x l Hx _ IH]; [done |]. unfold file_of in *. cbn [map concat]. rewrite <- app_assoc. cbn [app].
  rewrite lines_of_line by (by apply row_text_line). by rewrite IH.
Qed.

(** ** Loading *)
Definition max_of (g : Group) (s : Loading) : Z :=
  match g with
  | g_discrete => max_disc s | g_coil => max_coil s | g_input_register => max_input s | g_holding_register => max_holding s
  | _ => 0
  end.
(** What a row adds. *)
Definition loaded (x : Row) (s s' : Loading) : Prop :=
  presets s' = <[row_key x := row_details x]> (presets s) /\ errors s' = errors s /\
  generate_length s' = generate_length s /\
  forall g, max_of g s' = if bool_decide (g = row_group x) then Z.max (max_of g s) (row_address x + 1) else max_of g s.

Lemma seen_address_run g a s : plain_group g -> 0 <= a < 2 ^ 15 -> exists s', seen_address (group_int g) a s = Ok s' /\
  presets s' = presets s /\ errors s' = errors s /\ generate_length s' = generate_length s /\
  forall h, max_of h s' = if bool_decide (h = g) then Z.max (max_of h s) (a + 1) else max_of h s.
Proof.
  intros Hg Ha.
  assert (forall m, raise_max m a = Ok (Z.max m (a + 1))) as Hr.
  { intros m. unfold raise_max, int_of. rewrite (proj2 (in_int_spec (a + 1))) by (unfold INT_MIN, INT_MAX; lia).
    destruct (Z.leb_spec m a); f_equal; lia. }
  destruct g; try (by destruct Hg); cbn; rewrite Hr; cbn; eexists; (split; [done |]); (split; [done |]);
    (split; [done |]); (split; [done |]); intros []; done.
Qed.

Lemma load_line_row x s : row_ok x -> generate_length s = false -> presets s !! row_key x = None ->
  exists s', load_line (row_text x) s = Ok s' /\ loaded x s s'.
Proof.
  intros Hx Hgen Hnew. pose proof Hx as [Hg Ha Hlen _ _ _]. destruct (group_int_range _ Hg) as [Hr Et].
  rewrite row_text_words by done. unfold load_line. rewrite (read_word_first _ _ (first_word_word x Hx)).
  unfold first_word. rewrite (span_app _ (print_long (group_int (row_group x)))).
  2: { rewrite print_long_digits by lia. destruct (print_nat_sound (group_int (row_group x))) as [_ Hd]; [lia |].
       revert Hd. apply List.Forall_impl. intros c Hc. apply negb_true_iff, bool_decide_eq_false. intros ->. done. }
  2: done.
  rewrite (read_word_next _ _ (written_name_word x Hx)), (read_word_next _ _ (data_type_word _ _)).
  rewrite read_int_last by (unfold INT_MAX; lia). unfold load_row. rewrite (written_name_key x Hx), str_of_text, Hnew.
  rewrite strtol_print_long by (unfold LONG_MIN, LONG_MAX; lia). rewrite bool_decide_true by done.
  rewrite strtol_padded by (unfold LONG_MAX; lia). rewrite bool_decide_true by done. cbn [negb]. rewrite Hgen.
  assert (forall z, 0 <= z < 2 ^ 15 -> to_s32 z = z /\ to_s16 z = z) as Hs
    by (intros z Hz; unfold to_s32, to_s16; rewrite !Z.mod_small by lia; lia).
  rewrite (proj1 (Hs (group_int (row_group x)) ltac:(lia))), (proj1 (Hs (row_address x) ltac:(lia))).
  destruct (seen_address_run (row_group x) (row_address x) s Hg Ha) as (s1 & -> & Hp & He & Hgl & Hm).
  cbn. eexists. split; [done |]. split; [|split; [done |]; split; [done |]; intros g; rewrite <- Hm; by destruct g].
  cbn. rewrite Hp. unfold Details_new, row_details.
  by rewrite (proj2 (Hs (group_int (row_group x)) ltac:(lia))), (proj2 (Hs (row_address x) ltac:(lia))),
    (proj2 (Hs (allocated (row_info x)) Hlen)).
Qed.

Definition row_entry (x : Row) : string * Details := (row_key x, row_details x).

Lemma load_lines_rows l s : Forall row_ok l -> NoDup (map row_key l) -> generate_length s = false ->
  (forall x, x ∈ l -> presets s !! row_key x = None) ->
  exists s', load_lines (map row_text l) s = Ok s' /\ errors s' = errors s /\
    presets s' = list_to_map (map row_entry l) ∪ presets s /\
    (forall g, max_of g s <= max_of g s') /\ (forall x, x ∈ l -> row_address x < max_of (row_group x) s') /\
    (forall g, max_of g s' = max_of g s \/ exists x, x ∈ l /\ row_group x = g /\ max_of g s' = row_address x + 1).
Proof.
  intros Hl. revert s. induction Hl as [|x l Hx Hl IH]; intros s Hnd Hgen Hnew.
  { exists s. split; [done |]. split; [done |]. split; [cbn; by rewrite (left_id_L ∅ (∪)) |].
    split; [done |]. split; [set_solver |]. auto. }
  cbn in Hnd. apply list.NoDup_cons in Hnd as [Hxl Hnd]. cbn [map load_lines].
  rewrite (proj2 (Nat.leb_le _ _) (rk_line x Hx)), (c_str_line _ (row_text_line x Hx)).
  destruct (load_line_row x s Hx Hgen) as (s1 & -> & Hp & He & Hg & Hm); [apply Hnew; set_solver |].
  destruct (IH s1) as (s' & Hr & He' & Hp' & Hm' & Ha' & Hb'); [done | congruence | |].
  { intros y Hy. rewrite Hp, lookup_insert_ne; [apply Hnew; set_solver |]. intros E.
    apply Hxl. rewrite E. apply list_elem_of_fmap. by exists y. }
  assert (forall g, max_of g s <= max_of g s1) as Hle by (intros g; rewrite Hm; case_bool_decide; lia).
  exists s'. split; [exact Hr |]. split; [congruence |]. split; [|split; [|split]].
  - rewrite Hp', Hp. cbn. rewrite <- insert_union_r by (apply not_elem_of_list_to_map; by rewrite map_map).
    by rewrite insert_union_l.
  - intros g. specialize (Hle g). specialize (Hm' g). lia.
  - intros y [-> | Hy]%elem_of_cons; [|by apply Ha']. specialize (Hm' (row_group x)). rewrite Hm, bool_decide_true in Hm' by done. lia.
  - intros g. destruct (Hb' g) as [E | (y & Hy & Ey & E)]; [|right; exists y; split; [by right | done]].
    rewrite E, Hm. case_bool_decide as Eg; [|by left].
    destruct (Z.max_spec (max_of g s) (row_address x + 1)) as [[_ ->] | [_ ->]]; [|by left].
    right. exists x. split; [by left | by subst].
Qed.

Lemma raise_next_run m n : 0 <= m < 2 ^ 16 -> exists z, raise_next m n = Ok z /\ n <= z /\ m < z /\ (z = n \/ z = m + 1).
Proof.
  intros Hm. unfold raise_next. destruct (Z.leb_spec n m); [|exists n; split; [done |]; lia].
  unfold int_of. rewrite (proj2 (in_int_spec (m + 1))) by (unfold INT_MIN, INT_MAX; lia). eexists. split; [done |]. lia.
Qed.

(** The registry after a file has been loaded. *)
Record file_loaded (l : list Row) (r r' : Registry) : Prop := {
  fl_presets : preset_modbus_mapping r' = list_to_map (map row_entry l);
  fl_automatic : automatic_mappings r' = automatic_mappings r;
  fl_user : user_mappings r' = user_mappings r;
  fl_next : forall g, next g r <= next g r';
  fl_above : forall x, x ∈ l -> row_address x + 2 <= next (row_group x) r';
  fl_tight : forall g, next g r' = next g r \/ exists x, x ∈ l /\ row_group x = g /\ next g r' = row_address x + 2 
}.

Lemma load_file l r : Forall row_ok l -> NoDup (map row_key l) -> preset_modbus_mapping r = ∅ -> (forall g, plain_group g -> 0 < next g r) ->
  exists r', load_preset_modbus_mappings (Some (file_of l)) r = Ok (0, r') /\ file_loaded l r r'.
Proof.
  intros Hl Hnd Hp Hpos. unfold load_preset_modbus_mappings. rewrite lines_of_file, Hp by done.
  destruct (load_lines_rows l (mkLoading 0 0 0 0 false 0 ∅) Hl Hnd eq_refl) as (s & -> & He & Hps & Hm & Ha & Ht).
  { intros x _. apply lookup_empty. }
  cbn [presets] in Hps. rewrite (right_id_L ∅ (∪)) in Hps. cbn. rewrite He. cbn.
  assert (forall g, max_of g (mkLoading 0 0 0 0 false 0 ∅) = 0) as H0 by (by intros []).
  assert (forall g, 0 <= max_of g s < 2 ^ 16) as Hr.
  { intros g. specialize (Hm g). rewrite H0 in Hm. split; [done |].
    destruct (Ht g) as [-> | (x & Hx & _ & ->)]; [rewrite H0; lia |].
    pose proof (rk_address x (proj1 (List.Forall_forall _ _) Hl x (proj1 (list_elem_of_In _ _) Hx))). lia. }
  destruct (raise_next_run (max_disc s) (next_discrete r) (Hr g_discrete)) as (zd & -> & Hd1 & Hd2 & Hd3).
  destruct (raise_next_run (max_coil s) (next_coil r) (Hr g_coil)) as (zc & -> & Hc1 & Hc2 & Hc3).
  destruct (raise_next_run (max_input s) (next_input_register r) (Hr g_input_register)) as (zi & -> & Hi1 & Hi2 & Hi3).
  destruct (raise_next_run (max_holding s) (next_holding_register r) (Hr g_holding_register)) as (zh & -> & Hh1 & Hh2 & Hh3).
  cbn. eexists. split; [done |].
  set (r' := set_next_holding _ _).
  assert (forall g, plain_group g -> next g r <= next g r' /\ max_of g s < next g r' /\
            (next g r' = next g r \/ next g r' = max_of g s + 1)) as Hn
    by (intros [] [Hg1 Hg2]; try done; by cbn).
  split; try done.
  - intros []; try (apply Hn; split; done); done.
  - intros x Hx. destruct (Hn (row_group x)) as (_ & H2 & _).
    { apply (rk_group x). by apply (proj1 (List.Forall_forall _ _) Hl), list_elem_of_In. }
    specialize (Ha x Hx). lia.
  - intros g. destruct (decide (g = g_none \/ g = g_string)) as [Hg | Hg]; [left; by destruct Hg as [-> | ->] |].
    assert (plain_group g) as Hpg by (split; tauto).
    destruct (Hn g Hpg) as (_ & H2 & [H3 | H3]); [by left |]. 
    destruct (Ht g) as [E | (x & Hx & Ex & E)]; [|right; exists x; split; [done |]; split; [done |]; lia].
    rewrite H0 in E. specialize (Hn g Hpg). specialize (Hpos g Hpg). left. lia.
Qed.

(** The name under which an export asks for its address: [fullName] puts the names of all
    owners, the nearest first in [owners], in front. *)
Definition asked_name (owners : list string) (item : string) : string :=
  fold_left (fun r o => o +:+ "." +:+ r)%string owners item.
(** The file has the name of the owner only. *)
Lemma asked_name_key owners x : row_owner x = head owners -> (length owners <= 1)%nat -> asked_name owners (row_item x) = row_key x.
Proof. unfold row_key. intros ->. destruct owners as [|o [|]]; cbn; [done | done | lia]. Qed.

(** C33: the mapping file is read as it was written, over a restart: when the
    exports of machines that have no owner, or an owner without an owner, are written
    to the file and the file is loaded into a new registry, every export gets the
    group, the address and the number of addresses back that it had, whatever it asks
    for and in whatever order. The rows are those of [row_ok]: addresses and lengths
    below 32768, names of one word, lines of at most 199 characters, and no "cmd_" in
    the name of a coil. *)
Theorem restart_keeps_addresses l r : Forall row_ok l -> NoDup (map row_key l) -> preset_modbus_mapping r = ∅ ->
  (forall g, plain_group g -> 0 < next g r) ->
  exists r', load_preset_modbus_mappings (Some (file_of l)) r = Ok (0, r') /\
    forall x owners q r1, x ∈ l -> row_owner x = head owners -> (length owners <= 1)%nat ->
      q_name q = asked_name owners (row_item x) -> preset_modbus_mapping r1 = preset_modbus_mapping r' ->
      (forall g, next g r' <= next g r1) ->
      exists a r2, export_one q r1 = Ok (a, r2) /\ group a = row_group x /\ address a = row_address x /\
        allocated a = allocated (row_info x) /\ same_counters r1 r2.
Proof.
  intros Hl Hnd Hp Hpos. destruct (load_file l r Hl Hnd Hp Hpos) as (r' & Hr & Hf). exists r'. split; [done |].
  intros x owners q r1 Hx Hown Hone Hq E1 Hn. rewrite (asked_name_key _ _ Hown Hone) in Hq.
  assert (row_ok x) as Hok by (by apply (proj1 (List.Forall_forall _ _) Hl), list_elem_of_In).
  destruct (group_int_range _ (rk_group x Hok)) as [_ Et].
  assert (preset_modbus_mapping r1 !! q_name q = Some (row_details x)) as Ed.
  { rewrite E1, (fl_presets _ _ _ Hf), Hq. apply elem_of_list_to_map_1.
    - rewrite map_map. exact Hnd.
    - apply (list_elem_of_fmap_2 row_entry l x Hx). }
  pose proof (rk_address x Hok) as Ha. pose proof (fl_above _ _ _ Hf x Hx) as Hab. specialize (Hn (row_group x)).
  destruct (preset_run q (row_details x) r1 Ed) as (r2 & Hr2 & Hsame); cbn; rewrite ?Et.
  - apply Hok.
  - unfold ADDRESSES. lia.
  - lia.
  - eexists _, r2. split; [exact Hr2 |]. cbn. by rewrite Et.
Qed.
(** Two owners deep the name that is asked for is not the one in the file. *)
Example deep_name : asked_name ["o"; "p"]%string "v.open" = "p.o.v.open"%string /\
  row_key (mkRow (Some "o"%string) g_coil 1001 "v.open" (mkAddress g_coil 1001 1 ex_discrete 0 src_command None "")) = "o.v.open"%string.
Proof. done. Qed.

Lemma ordered_pairs_lookup {A} (P : A -> A -> Prop) l i j x y : ForallOrdPairs P l -> (i < j)%nat ->
  l !! i = Some x -> l !! j = Some y -> P x y.
Proof.
  intros Hp. revert i j. induction Hp as [|z l Hz _ IH]; intros i j Hij Hx Hy; [done |].
  destruct j as [|j]; [lia |]. cbn in Hy. destruct i as [|i].
  - injection Hx as ->. apply (proj1 (List.Forall_forall _ _) Hz). apply list_elem_of_In. by eapply list_elem_of_lookup_2.
  - apply (IH i j); [lia | done | done].
Qed.
Lemma disjoint_sym a b : disjoint a b -> disjoint b a.
Proof. unfold disjoint. intros H E. destruct (H (eq_sym E)); auto. Qed.

Lemma loaded_presets_below l r r' : Forall row_ok l -> file_loaded l r r' ->
  (forall x, x ∈ l -> 1 <= allocated (row_info x) <= 2) -> presets_below r'.
Proof.
  intros Hl Hf Hlen k d Hd. rewrite (fl_presets _ _ _ Hf) in Hd. apply elem_of_list_to_map_2, list_elem_of_fmap in Hd.
  destruct Hd as (x & [= -> ->] & Hx). specialize (Hlen x Hx). pose proof (fl_above _ _ _ Hf x Hx) as Ha.
  assert (row_ok x) as Hok by (by apply (proj1 (List.Forall_forall _ _) Hl), list_elem_of_In).
  destruct (group_int_range _ (rk_group x Hok)) as [_ Et]. unfold preset_ok. cbn. rewrite Et.
  split; [apply Hok |]. pose proof (rk_address x Hok). lia.
Qed.

(** C27: no two exports share an address: after a mapping file of values of at most
    two registers has been loaded, any sequence of exports that fits into the
    address space of its group returns, and the addresses of a new export overlap
    neither those of any other export nor those of any row of the file. *)
Theorem exports_disjoint l r reqs : Forall row_ok l -> NoDup (map row_key l) -> preset_modbus_mapping r = ∅ ->
  (forall g, 0 <= next g r) -> (forall g, plain_group g -> 0 < next g r) ->
  (forall x, x ∈ l -> 1 <= allocated (row_info x) <= 2) ->
  Forall proper_request reqs ->
  exists r', load_preset_modbus_mappings (Some (file_of l)) r = Ok (0, r') /\
    ((forall g, next g r' + demand r' g reqs <= ADDRESSES) ->
     exists addrs r'', export_all reqs r' = Ok (addrs, r'') /\ length addrs = length reqs /\
       forall i q a, reqs !! i = Some q -> addrs !! i = Some a -> is_new r' q = true ->
         group a = q_group q /\ allocated a = q_size q /\ 0 <= address a /\ address a + allocated a <= ADDRESSES /\
         (forall j b, j <> i -> addrs !! j = Some b -> disjoint a b) /\
         (forall x, x ∈ l -> row_group x = group a -> row_address x + allocated (row_info x) <= address a)).
Proof.
  intros Hl Hnd Hp H0 Hpos Hlen Hreqs. destruct (load_file l r Hl Hnd Hp Hpos) as (r' & Hr & Hf). exists r'. split; [done |].
  intros Hroom. assert (forall g, 0 <= next g r') as H0' by (intros g; pose proof (fl_next _ _ _ Hf g); specialize (H0 g); lia).
  destruct (export_all_run reqs r') as (addrs & r'' & Hall & _ & Hpl & Hnext & Hd);
    [by apply (loaded_presets_below l r) | done | done |].
  exists addrs, r''. split; [done |]. pose proof (list.Forall2_length _ _ _ Hpl) as Hleq. split; [done |].
  intros i q a Hq Ha Hnew. pose proof (Forall2_lookup_lr _ _ _ _ _ _ Hpl Hq Ha) as Hpi. unfold placed in Hpi.
  rewrite Hnew in Hpi. destruct Hpi as (Eg & El & Hlo & Hhi). rewrite El. split; [done |]. split; [done |].
  rewrite Hnext in Hhi. pose proof (Hroom (q_group q)). pose proof (H0' (q_group q)). split; [lia |]. split; [lia |]. split.
  - intros j b Hji Hb. assert (exists qj, reqs !! j = Some qj) as [qj Hqj].
    { apply lookup_lt_is_Some. rewrite Hleq. by eapply lookup_lt_Some. }
    assert (zip reqs addrs !! i = Some (q, a) /\ zip reqs addrs !! j = Some (qj, b)) as [Zi Zj]
      by (split; apply lookup_zip_with_Some; eauto).
    destruct (decide (i < j)%nat) as [Hlt | Hge].
    + apply (ordered_pairs_lookup _ _ i j _ _ Hd Hlt Zi Zj). cbn. by rewrite Hnew.
    + apply disjoint_sym. apply (ordered_pairs_lookup _ _ j i _ _ Hd ltac:(lia) Zj Zi). cbn. by rewrite Hnew, orb_true_r.
  - intros x Hx Ex. pose proof (fl_above _ _ _ Hf x Hx) as Hab. specialize (Hlen x Hx). rewrite Ex, Eg in Hab. lia.
Qed.

(** A text in the mapping file is overwritten: the counters are set two above
    the highest address of the file, whatever its length, so when the last input
    register of the file is a text of three registers or more, the next input
    register that is allocated lies inside it. *)
Theorem preset_text_overlapped l r x q : Forall row_ok l -> NoDup (map row_key l) -> preset_modbus_mapping r = ∅ ->
  (forall g, plain_group g -> 0 < next g r) -> x ∈ l -> row_group x = g_input_register ->
  next g_input_register r <= row_address x + 1 -> (forall y, y ∈ l -> row_group y = g_input_register -> row_address y <= row_address x) ->
  3 <= allocated (row_info x) -> q_group q = g_input_register -> q_size q = 1 -> q_name q ∉ map row_key l ->
  exists r', load_preset_modbus_mappings (Some (file_of l)) r = Ok (0, r') /\
    exists a r'', export_one q r' = Ok (a, r'') /\
      group a = g_input_register /\ row_address x <= address a < row_address x + allocated (row_info x).
Proof.
  intros Hl Hnd Hp Hpos Hx Eg Hlow Hmax Hlen Egq Esz Hnew.
  destruct (load_file l r Hl Hnd Hp Hpos) as (r' & Hr & Hf). exists r'. split; [done |].
  assert (row_ok x) as Hok by (by apply (proj1 (List.Forall_forall _ _) Hl), list_elem_of_In).
  pose proof (rk_address x Hok) as Ha.
  assert (next g_input_register r' = row_address x + 2) as En.
  { pose proof (fl_above _ _ _ Hf x Hx) as Hab. rewrite Eg in Hab.
    destruct (fl_tight _ _ _ Hf g_input_register) as [E | (y & Hy & Ey & E)]; [lia |].
    specialize (Hmax y Hy Ey). lia. }
  destruct (alloc_run g_input_register 1 (q_machine q) (q_source q) (q_name q) (q_type q) r') as (r'' & Ha2 & _).
  1: done. 1: lia. 1: done. 1: unfold ADDRESSES; lia.
  eexists _, r''. split.
  - unfold export_one, export_address. rewrite (fl_presets _ _ _ Hf), (not_elem_of_list_to_map_1 (M := gmap string)).
    + rewrite Egq, Esz. exact Ha2.
    + rewrite map_map. exact Hnew.
  - cbn [group address new_address]. rewrite En. split; [done |]. lia.
Qed.
