(* ===== verification/ModbusMachine.v ===== *)
(** The modbus interface of a machine (MachineInstance.cpp): which addresses it
    exports, the updates it sends and receives, and the two commands of the shell
    that use them (IODCommands.cpp). The machines themselves are those of Names.v. *)
From S2P Require Import Prelude Cnum Tokeniser Value SymbolTable ValueOps Message Names Properties Modbus.
From stdpp Require Import sorting.
From Stdlib Require Import Ascii.
Open Scope Z_scope.
Local Open Scope sm_scope.

(** ** Data *)
(** [ModbusAddressTemplate] and the exports of a class (MachineClass.h). *)
Record Template := mkTemplate { property_name : string; t_grp : Group; t_exType : ExportType; t_size : Z }.
Record ExportLists := mkLists {
  templates : list Template;
  state_exports : list string;
  state_exports_rw : list string;
  command_exports : list string
}.
(** The fields of [MachineInstance]: [modbus_exports] and [modbus_addresses] are
    [exports_map] and [addresses_map]. *)
Record Exports := mkExports {
  class_exports : ExportLists;
  modbus_exported : ExportType;
  modbus_address : ModbusAddress;
  exports_map : gmap string ModbusAddress;
  addresses_map : gmap Z string
}.
(** The value of an update that is sent: [Channel::sendCommand ("UPDATE")]. The
    other events are actions and messages that are queued, and entries of the log. *)
Inductive BusValue := VInt (z : Z) | VDouble (x : double) | VText (s : string).
Inductive BusEvent :=
| BUpdate (m : ptr) (g : Group) (addr : Z) (nam : string) (len : Z) (v : BusValue)
| BSetState (m : ptr) (state : string)
| BHandle (m : ptr) (text : string)
| BLog (m : ptr)
| BMalformed.
Record Bus := mkBus {
  registry : Registry;
  exported : gmap ptr Exports;
  store : Store;
  sent : list BusEvent
}.
Definition BM := SM Bus.

Definition set_exported x e := mkExports (class_exports e) x (modbus_address e) (exports_map e) (addresses_map e).
Definition set_address x e := mkExports (class_exports e) (modbus_exported e) x (exports_map e) (addresses_map e).
Definition set_exports x e := mkExports (class_exports e) (modbus_exported e) (modbus_address e) x (addresses_map e).
Definition set_addresses x e := mkExports (class_exports e) (modbus_exported e) (modbus_address e) (exports_map e) x.

(** The parts of the state. *)
Definition on_registry {A} (c : RM A) : BM A := fun b =>
  '(a, r) ← c (registry b); Ok (a, mkBus r (exported b) (store b) (sent b)).
Definition on_store {A} (c : NM A) : BM A := fun b =>
  '(a, s) ← c (store b); Ok (a, mkBus (registry b) (exported b) s (sent b)).
Definition get_exports (m : ptr) : BM Exports := fun b => x ← rd (exported b !! m); Ok (x, b).
Definition upd_exports (m : ptr) (f : Exports -> Exports) : BM unit := fun b =>
  x ← rd (exported b !! m); Ok (tt, mkBus (registry b) (<[m := f x]> (exported b)) (store b) (sent b)).
Definition send (e : BusEvent) : BM unit := fun b => Ok (tt, mkBus (registry b) (exported b) (store b) (sent b ++ [e])).

(** The orders of the keys of [std::map]. *)
Definition name_le (a b : string * ModbusAddress) : Prop := str_leb (fst a) (fst b) = true.
#[export] Instance name_le_dec a b : Decision (name_le a b).
Proof. unfold name_le. apply _. Defined.
Definition index_le (a b : Z * string) : Prop := fst a <= fst b.
#[export] Instance index_le_dec a b : Decision (index_le a b).
Proof. unfold index_le. apply _. Defined.

Section Machine.
Context `{DynEnv} `{Clock}.
Variable ct : ClockworkToken.

(** [value == "text"]: the text is a symbol. *)
Definition is_text (v : Value) (s : string) : NM bool :=
  let! w := tokenise (Value_cstr s t_symbol) in slift (value_eq v w).
Definition is_not_text (v : Value) (s : string) : NM bool :=
  let! w := tokenise (Value_cstr s t_symbol) in slift (value_ne v w).
(** [properties.lookup (key)]. *)
Definition property (m : ptr) (key : string) : NM Value :=
  let! i := get m in let! r := table_ref (RProp m key) key (properties i) in load r.

(** ** Exports *)
Definition addModbusExport (m : ptr) (nam : string) (g : Group) (n : Z) (kind : ExportType) (src : Source) (full_name : string)
    : BM ModbusAddress :=
  let! addr := on_registry (export_address g n m m kind src full_name) in
  run! upd_exports m (fun e => set_exports (<[nam := addr]> (exports_map e)) e) in sret addr.

Definition setupModbusPropertyExports (m : ptr) (prop : string) (grp : Group) (kind : ExportType) (size : Z) : BM unit :=
  let! i := on_store (get m) in
  let! full_name := on_store (match owner (fixed i) with
                              | Some o => let! oi := get o in sret (i_name (fixed oi) +:+ ".")%string
                              | None => sret ""
                              end) in
  let nam := (if bool_decide (i_name (fixed i) = prop) then prop else i_name (fixed i) +:+ "." +:+ prop)%string in
  let add g := run! addModbusExport m nam g (u32 size) kind src_property (full_name +:+ nam)%string in sret tt in
  match grp with
  | g_discrete => add g_discrete
  | g_coil => add g_coil
  | g_input_register => add g_input_register
  | g_holding_register => add g_holding_register
  | g_string => add g_input_register
  | g_none => sret tt
  end.

(** What the property "export" says: the group in which the machine itself is
    exported, the type, and the length of a text. *)
Record Kind3 := mkKind3 { self_group : option Group; export_type : ExportType; str_length : Z }.
Definition text_kind (m : ptr) (g : Group) : NM Kind3 :=
  let! size := property m "strlen" in
  let? r := asInteger size (Some 0) in
  let? len := rd (snd r) in sret (mkKind3 (Some g) ex_str len).
Fixpoint first_match (v : Value) (l : list (string * NM Kind3)) (dflt : NM Kind3) : NM Kind3 :=
  match l with
  | [] => dflt
  | (s, k) :: l' => let! b := is_text v s in if b : bool then k else first_match v l' dflt
  end.
Definition export_kind (m : ptr) : NM Kind3 :=
  let! i := get m in
  let not_exported := mkKind3 None ex_none 0 in
  if negb (exists_name "export" (properties i)) then sret not_exported else
  let! ex := property m "export" in
  let! wanted := is_not_text ex "false" in
  if negb wanted then sret not_exported else
  let as_ g t := sret (mkKind3 (Some g) t 0) in
  if bool_decide (i_type (fixed i) = "POINT") then
    let! type := property m "type" in
    let? null := value_ne type Null in
    if negb null then sret not_exported else
    first_match type
      [("Input", as_ g_discrete ex_discrete);
       ("Output", let! rw := is_text ex "rw" in if rw : bool then as_ g_coil ex_coil else as_ g_discrete ex_coil);
       ("AnalogueInput", as_ g_input_register ex_reg);
       ("AnalogueOutput",
          let! rw := is_text ex "rw" in
          if rw : bool then as_ g_holding_register ex_rw_reg else as_ g_input_register ex_reg)]%string
      (sret not_exported)
  else
    first_match ex
      [("rw", as_ g_coil ex_coil); ("reg", as_ g_input_register ex_reg); ("rw_reg", as_ g_holding_register ex_rw_reg);
       ("reg32", as_ g_input_register ex_reg32); ("rw_reg32", as_ g_holding_register ex_rw_reg32);
       ("float32", as_ g_holding_register ex_float32); ("str", text_kind m g_input_register);
       ("rw_str", text_kind m g_holding_register)]%string
      (as_ g_discrete ex_discrete).

(** The export of the machine itself: its state or its VALUE. *)
Definition self_length (g : Group) (k : Kind3) : Z :=
  match g with
  | g_input_register =>
      if bool_decide (export_type k = ex_reg32) then 2
      else if bool_decide (export_type k = ex_str) && (str_length k =? 0) then 80 else 1
  | g_holding_register =>
      if bool_decide (export_type k = ex_rw_reg32) then 2
      else if bool_decide (export_type k = ex_str) && (str_length k =? 0) then 80 else 1
  | _ => 1
  end.
Definition export_self (m : ptr) (nam : string) (k : Kind3) (full_name : string) : BM unit :=
  match self_group k with
  | None => sret tt
  | Some g =>
      let! addr := addModbusExport m nam g (self_length g k) (export_type k) src_machine full_name in
      match g with
      | g_holding_register => sret tt
      | _ => upd_exports m (set_address addr)
      end
  end.
(** The exported states and commands of the class. *)
Fixpoint export_names (m : ptr) (nam full_name : string) (g : Group) (src : Source) (l : list string) : BM unit :=
  match l with
  | [] => sret tt
  | s :: l' =>
      run! addModbusExport m (nam +:+ "." +:+ s)%string g 1 ex_discrete src (full_name +:+ "." +:+ s)%string in
      export_names m nam full_name g src l'
  end.
(** The export of the VALUE of a variable. *)
Definition export_variable (m : ptr) (nam : string) (k : Kind3) : BM unit :=
  let as_ g t n := setupModbusPropertyExports m nam g t n in
  match export_type k with
  | ex_none => sret tt
  | ex_discrete => as_ g_discrete ex_discrete 1
  | ex_coil => as_ g_coil ex_coil 1
  | ex_reg => as_ g_input_register ex_reg 1
  | ex_rw_reg => as_ g_holding_register ex_rw_reg 1
  | ex_reg32 => as_ g_input_register ex_reg32 2
  | ex_rw_reg32 => as_ g_holding_register ex_rw_reg32 2
  | ex_float32 => as_ g_holding_register ex_float32 2
  | ex_str =>
      match self_group k with
      | Some g_input_register => as_ g_input_register ex_str (to_s32 (str_length k))
      | _ => as_ g_holding_register ex_str (to_s32 (str_length k))
      end
  end.
Fixpoint export_templates (m : ptr) (l : list Template) : BM unit :=
  match l with
  | [] => sret tt
  | t :: l' =>
      run! setupModbusPropertyExports m (property_name t) (t_grp t) (t_exType t) (t_size t) in export_templates m l'
  end.
(** The addresses by index, in the order of the names. *)
Fixpoint index_exports (l : list (string * ModbusAddress)) (acc : gmap Z string) : res (gmap Z string) :=
  match l with
  | [] => Ok acc
  | (nam, a) :: l' =>
      i ← index_of (group_int (group a)) (address a);
      _ ← assert (match acc !! i with None => true | Some _ => false end);
      index_exports l' (<[i := nam]> acc)
  end.
Definition is_value (i : MachineInstance) : bool :=
  bool_decide (i_type (fixed i) = "VARIABLE") || bool_decide (i_type (fixed i) = "CONSTANT").
Definition setupModbusInterface (m : ptr) : BM unit :=
  let! e0 := get_exports m in
  if negb (bool_decide (addresses_map e0 = ∅)) then sret tt else
  let! i := on_store (get m) in
  let! full_name := on_store (fullName m) in
  let nam := i_name (fixed i) in
  let! k := on_store (export_kind m) in
  run! (if is_value i then sret tt else upd_exports m (set_exported (export_type k))) in
  run! (if is_value i then sret tt else export_self m nam k full_name) in
  run! export_names m nam full_name g_discrete src_state (state_exports (class_exports e0)) in
  run! export_names m nam full_name g_coil src_state (state_exports_rw (class_exports e0)) in
  run! export_names m nam full_name g_coil src_command (command_exports (class_exports e0)) in
  run! (if is_value i then export_variable m nam k else sret tt) in
  run! export_templates m (templates (class_exports e0)) in
  let! e := get_exports m in
  let? _u := assert (bool_decide (addresses_map e = ∅)) in
  let? am := index_exports (merge_sort name_le (map_to_list (exports_map e))) ∅ in
  let? _v := assert (bool_decide (size am = size (exports_map e))) in
  upd_exports m (set_addresses am).

(** ** Updates that are sent *)
(** [modbus_exports [name]]: an entry that is missing is made. *)
Definition export_entry (m : ptr) (nam : string) : BM ModbusAddress :=
  let! e := get_exports m in
  match exports_map e !! nam with
  | Some a => sret a
  | None => run! upd_exports m (fun e => set_exports (<[nam := no_address]> (exports_map e)) e) in sret no_address
  end.
(** [ModbusAddress::update]. *)
Definition update (m : ptr) (a : ModbusAddress) (v : BusValue) : BM unit :=
  send (BUpdate m (group a) (address a) (addr_name a) (allocated a) v).
(** [sendModbusUpdate]; [errno_clear] says whether [errno] is 0 before the call of
    [strtol], which sets it when the number is out of range. *)
Definition sendModbusUpdate (errno_clear : bool) (m : ptr) (prop : string) (v : Value) : BM unit :=
  let! ma := export_entry m prop in
  match group ma with
  | g_none => sret tt
  | g_string => let? t := asString v in update m ma (VText t)
  | _ =>
      let short := (allocated ma =? 1) || (allocated ma =? 2) in
      match kind v with
      | t_float =>
          if short then
            let? r := asFloat v None in
            if fst r then let? x := rd (snd r) in update m ma (VDouble x) else sret tt
          else sret tt
      | t_integer =>
          if short then
            let? r := asInteger v None in
            if fst r then let? x := rd (snd r) in update m ma (VInt (to_s32 x)) else sret tt
          else sret tt
      | t_string | t_symbol =>
          let l := c_str (chars (sValue v)) in
          let in_range := match fst (span is_digit (snd (take_sign (snd (span is_space l))))) with
                          | [] => true
                          | ds => let x := if fst (take_sign (snd (span is_space l))) then - digits_val ds else digits_val ds in
                              in_long x
                          end in
          let '(x, rest) := strtol l in
          if errno_clear && in_range && bool_decide (rest = []) then update m ma (VInt (to_s32 x))
          else update m ma (VText (sValue v))
      | _ => sret tt
      end
  end.

(** [refreshModbus]: a row of the JSON array it makes. *)
Record Item := mkItem { it_group : Z; it_addr : Z; it_kind : Z; it_name : list ascii; it_length : Z; it_value : BusValue }.
Definition by_index (m : gmap Z string) : list (Z * string) := merge_sort index_le (map_to_list m).

Definition short_name (full : string) : string :=
  match rfind [chr 46] (text full) with
  | Some k => str_of (drop (S k) (text full))
  | None => full
  end.
(** VARIABLE or CONSTANT, or a register of a machine with a VALUE. *)
Definition has_value (i : MachineInstance) (grp : Z) : bool :=
  is_value i || (exists_name "VALUE" (properties i) && ((grp =? 3) || (grp =? 4))).
Definition refresh_value (m : ptr) (i : MachineInstance) (src : Source) (grp : Z) (full_name : string) : BM Value :=
  let zero := Value_int 0 in
  let number (b : bool) := assign zero (Value_int (if b then 1 else 0)) in
  match src with
  | src_machine =>
      if has_value i grp then let! v := on_store (property m "VALUE") in sret (assign zero v)
      else sret (number (bool_decide (current_state i = "on") || bool_decide (current_state i = "true")))
  | src_state => sret (number (bool_decide ((i_name (fixed i) +:+ "." +:+ current_state i)%string = full_name)))
  | src_command => sret (number false)
  | src_property =>
      if exists_name (short_name full_name) (properties i) then
        let! v := on_store (property m (short_name full_name)) in sret (assign zero v)
      else
        let! mi := on_store (Names.lookup ct m full_name) in
        match mi with
        | Some k =>
            let! ki := on_store (get k) in
            if has_value ki grp then
              let! r := on_store (getValue ct k "VALUE") in
              let! v := on_store (load r) in sret (assign zero v)
            else run! on_store (Names.lookup ct m full_name) in run! send (BLog m) in sret zero
        | None => run! on_store (Names.lookup ct m full_name) in run! send (BLog m) in sret zero
        end
  | src_unknown => let! v := on_store (tokenise (Value_cstr "UNKNOWN" t_symbol)) in sret (assign zero v)
  end.
Definition owner_name (i : MachineInstance) : NM (option string) :=
  match owner (fixed i) with
  | Some o => let! oi := get o in sret (Some (i_name (fixed oi)))
  | None => sret None
  end.
Definition refresh_item (m : ptr) (entry : Z * string) : BM Item :=
  let '(index, full_name) := entry in
  let addr := Z.land index 65535 in
  let grp := Z.shiftr index 16 in
  let! info := export_entry m full_name in
  run! (if group_int (group info) =? grp then sret tt else send (BLog m)) in
  run! (if address info =? addr then sret tt else send (BLog m)) in
  let len := if bool_decide (exportType info = ex_float32) then 2 else allocated info in
  let! i := on_store (get m) in
  let! v := refresh_value m i (source info) grp full_name in
  let! o := on_store (owner_name i) in
  let whole := match o with Some o => (o +:+ "." +:+ full_name)%string | None => full_name end in
  let shown := if grp =? 0 then command_name (text whole) else text whole in
  let? out := (match kind v with
               | t_string | t_symbol => Ok (VText (sValue v))
               | t_float => x ← rd (fValue v); Ok (VDouble x)
               | _ => x ← rd (iValue v); Ok (VInt x)
               end) in
  sret (mkItem grp addr (type_int (exportType info)) shown len out).
Fixpoint each {A B} (f : A -> BM B) (l : list A) : BM (list B) :=
  match l with
  | [] => sret []
  | x :: l' => let! y := f x in let! ys := each f l' in sret (y :: ys)
  end.
Definition refreshModbus (m : ptr) : BM (list Item) :=
  let! e := get_exports m in each (refresh_item m) (by_index (addresses_map e)).

(** [exportModbusMapping]: the rows of the machine. *)
Definition export_row (m : ptr) (entry : Z * string) : BM (list ascii) :=
  let '(index, nam) := entry in
  let! info := export_entry m nam in
  let! i := on_store (get m) in
  let! o := on_store (owner_name i) in
  sret (mapping_row o index nam info ++ [newline]).
Definition exportModbusMapping (m : ptr) : BM (list ascii) :=
  let! e := get_exports m in
  let! rows := each (export_row m) (by_index (addresses_map e)) in sret (concat rows).
(** The file of all machines ([IODCommandModbusExport::run]). *)
Definition IODCommandModbusExport (machines : list ptr) : BM (list ascii) :=
  let! parts := each exportModbusMapping machines in sret (concat parts).

(** ** Updates that are received *)
(** The export a written address belongs to. *)
Definition written_export (m : ptr) (base_addr : ModbusAddress) (off : Z) : BM (option (string * ModbusAddress)) :=
  let! e := get_exports m in
  let? index := (i ← index_of (group_int (group base_addr)) (address base_addr); Ok (to_s32 (i + off))) in
  match addresses_map e !! index with
  | None => run! send (BLog m) in sret None
  | Some nam =>
      match exports_map e !! nam with
      | None => run! send (BLog m) in sret None
      | Some a => sret (Some (nam, a))
      end
  end.
(** A property that is exported as a holding register is set. *)
Definition set_register (m : ptr) (nam : string) (v : Value) : BM unit :=
  let! i := on_store (get m) in
  run! on_store (setValue ct m (if bool_decide (nam = i_name (fixed i)) then "VALUE" else nam)%string v 0) in sret tt.
Definition register_only (m : ptr) (base_addr : ModbusAddress) (off : Z) (v : NM Value) : BM unit :=
  run! on_store (fullName m) in
  let! w := written_export m base_addr off in
  match w with
  | None => sret tt
  | Some (nam, a) =>
      match group a with
      | g_holding_register => let! x := on_store v in set_register m nam x
      | _ => send (BLog m)
      end
  end.
Definition modbusUpdated_text (m : ptr) (base_addr : ModbusAddress) (off : Z) (new_value : string) : BM unit :=
  register_only m base_addr off (tokenise (Value_cstr new_value t_symbol)).
Definition modbusUpdated_float (m : ptr) (base_addr : ModbusAddress) (off : Z) (new_value : double) : BM unit :=
  register_only m base_addr off (sret (Value_float new_value)).
(** A state is written: the name is split at its first dot. *)
Definition write_state (m : ptr) (a : ModbusAddress) : BM unit :=
  match split_dot (addr_name a) with
  | Some (nam, state) =>
      let! i := on_store (get m) in
      run! (if bool_decide (i_name (fixed i) = nam) then sret tt else send (BLog m)) in
      send (BSetState m state)
  | None => sret tt
  end.
Definition modbusUpdated_int (m : ptr) (base_addr : ModbusAddress) (off new_value : Z) : BM unit :=
  let! full := on_store (fullName m) in
  let! w := written_export m base_addr off in
  match w with
  | None => sret tt
  | Some (nam, a) =>
      match group a with
      | g_coil | g_discrete =>
          match source a with
          | src_machine =>
              let! i := on_store (get m) in
              run! (if exists_name "export" (properties i) then sret tt else send (BLog m)) in
              send (BSetState m (if (new_value =? 0)%Z then "off" else "on")%string)
          | src_state => write_state m a
          | src_command => if new_value =? 0 then sret tt else send (BHandle m nam)
          | src_property =>
              let! i := on_store (get m) in
              run! on_store (setValue ct m (if bool_decide (full = i_name (fixed i)) then "VALUE" else nam)%string
                               (Value_int new_value) 0) in sret tt
          | src_unknown => sret tt
          end
      | g_holding_register => set_register m nam (Value_int new_value)
      | _ => send (BLog m)
      end
  end.
(** [getModbusValue]. *)
Definition getModbusValue (m : ptr) (a : ModbusAddress) (off : Z) : BM Z :=
  let! e := get_exports m in
  let? index := (i ← index_of (group_int (group a)) (address a); Ok (to_s32 (i + off))) in
  match addresses_map e !! index with
  | None => sret 0
  | Some dev =>
      let! i := on_store (get m) in
      if bool_decide (dev = i_name (fixed i)) && (address a =? 0) then
        if negb (is_value i) then sret (if bool_decide (current_state i = "on") then 1 else 0)
        else
          let! r := on_store (getValue ct m "VALUE") in
          let! v := on_store (load r) in
          let? x := asInteger v None in
          if fst x then let? z := rd (snd x) in sret (to_s32 z) else sret 0
      else sret 0
  end.

(** [IODCommandModbus::run]: MODBUS group address value. The complaint about the
    number of parameters prints the second one. *)
Definition IODCommandModbus (params : list Value) : BM bool :=
  match params with
  | [p0; p1; p2; p3] =>
      let? g := asInteger p1 None in
      let? a := (if fst g then asInteger p2 None else Ok (false, None)) in
      if negb (fst g && fst a) then run! send BMalformed in sret false else
      let? grp := rd (snd g) in
      let? addr := rd (snd a) in
      let! found := (fun b => x ← lookup_address (to_s32 grp) (to_s32 addr) (registry b); Ok (x, b)) in
      if bool_decide (group found = g_none) then sret false else
      let? m := rd (addr_owner found) in
      let? _u := assert (addr =? address found) in
      let off := to_s32 (addr - address found) in
      match kind p3 with
      | t_integer => let? z := rd (iValue p3) in run! modbusUpdated_int m found off (to_s32 z) in sret true
      | t_float => let? x := rd (fValue p3) in run! modbusUpdated_float m found off (to_f32 x) in sret true
      | t_bool => let? z := rd (bValue p3) in run! modbusUpdated_int m found off (if z : bool then 1 else 0) in sret true
      | t_string | t_symbol =>
          let? z := asInteger p3 None in
          if fst z then let? n := rd (snd z) in run! modbusUpdated_int m found off (to_s32 n) in sret true
          else run! modbusUpdated_text m found off (str (c_str (chars (sValue p3)))) in sret true
      | _ => sret false
      end
  | _ :: _ :: _ => sret false
  | _ => fun _ => Undef
  end.
End Machine.
