(* ===== verification/ModbusMachineProps.v ===== *)
(** Properties of the modbus interface of a machine: its index of addresses is the
    inverse of its exports, and a register that is written reaches the property
    that was exported.
    Sample mapping files, exports and machines for the modbus properties. *)
From S2P Require Import Prelude Cnum Tokeniser Value ValueOps SymbolTable Message Names Properties NamesProps Modbus ModbusProps MappingFile ModbusMachine.
From stdpp Require Import sorting.
From Stdlib Require Import Ascii.
Open Scope Z_scope.
Local Open Scope sm_scope.

Definition index (a : ModbusAddress) : Z := group_int (group a) * 2 ^ 16 + address a.

(** The exports of machine [m]: every name has an address of its own, which is
    registered for [m]. *)
Record exports_inv (m : ptr) (r : Registry) (em : gmap string ModbusAddress) : Prop := {
  ei_group : map_Forall (fun _ a => plain_group (group a)) em;
  ei_range : map_Forall (fun _ a => first_auto_address <= address a < next (group a) r) em;
  ei_owner : map_Forall (fun _ a => addr_owner a = Some m) em;
  ei_entry : map_Forall (fun _ a => automatic_mappings r !! index a = Some a) em;
  ei_inj : forall n1 n2 a1 a2, em !! n1 = Some a1 -> em !! n2 = Some a2 -> index a1 = index a2 -> n1 = n2
}.
(** There are at least [n] addresses left in each group, and none is preset. *)
Record roomy (n : Z) (r : Registry) : Prop := {
  ro_low : forall g, plain_group g -> first_auto_address <= next g r;
  ro_high : forall g, plain_group g -> next g r + n <= ADDRESSES;
  ro_presets : preset_modbus_mapping r = ∅
}.

Lemma index_inj a b : plain_group (group a) -> plain_group (group b) -> 0 <= address a < ADDRESSES -> 0 <= address b < ADDRESSES ->
  index a = index b -> group a = group b /\ address a = address b.
Proof.
  unfold index, ADDRESSES. intros [? ?] [? ?] Ha Hb E.
  assert (group_int (group a) = group_int (group b)) as Eg by lia. split; [|lia].
  destruct (group a), (group b); try done.
Qed.

(** A state in which machine [m] is setting up its exports. *)
Record setting_up (m : ptr) (s : Store) (n : Z) (e : Exports) (b : Bus) : Prop := {
  su_exports : exported b !! m = Some e;
  su_empty : addresses_map e = ∅;
  su_inv : exports_inv m (registry b) (exports_map e);
  su_room : roomy n (registry b);
  su_store : store b = s
}.
(** A step that takes at most [n] addresses. *)
Definition exports_step (m : ptr) (s : Store) (n : Z) (c : BM unit) : Prop :=
  forall k e b, setting_up m s (n + k) e b -> 0 <= k ->
  exists b' e', c b = Ok (tt, b') /\ setting_up m s k e' b' /\ class_exports e' = class_exports e.

Section Steps.
Context (m : ptr) (s : Store).

Lemma step_weaken n n' c : exports_step m s n c -> n <= n' -> exports_step m s n' c.
Proof.
  intros Hc Hn k e b [] Hk. destruct (Hc (n' - n + k) e b) as (b' & e' & Hr & [] & Hcl).
  - split; try done. by replace (n + (n' - n + k)) with (n' + k) by lia.
  - lia.
  - exists b', e'. split; [done |]. split; [|done]. split; try done. destruct su_room1. split; try done.
    intros g Hg. specialize (ro_high0 g Hg). lia.
Qed.
Lemma step_ret : exports_step m s 0 (sret tt).
Proof. intros k e b Hs Hk. by exists b, e. Qed.
Lemma step_bind n1 n2 c1 (c2 : BM unit) : exports_step m s n1 c1 -> exports_step m s n2 c2 -> 0 <= n2 ->
  exports_step m s (n1 + n2) (run! c1 in c2).
Proof.
  intros H1 H2 Hn k e b Hs Hk. destruct (H1 (n2 + k) e b) as (b1 & e1 & R1 & S1 & C1); [by rewrite Z.add_assoc | lia |].
  destruct (H2 k e1 b1 S1 Hk) as (b2 & e2 & R2 & S2 & C2). exists b2, e2. rewrite (sbind_run _ _ _ _ _ R1).
  split; [done |]. split; [done | congruence].
Qed.
(** Changes of the other fields. *)
Lemma step_update f : (forall e, class_exports (f e) = class_exports e /\ exports_map (f e) = exports_map e /\
  addresses_map (f e) = addresses_map e) -> exports_step m s 0 (upd_exports m f).
Proof.
  intros Hf k e b [] Hk. destruct (Hf e) as (Hc & Hx & Ha). unfold upd_exports. rewrite su_exports0. cbn.
  eexists _, (f e). split; [done |]. split; [|done]. split; cbn; rewrite ?Hx, ?Ha; try done. by simplify_map_eq.
Qed.

Lemma new_address_inv g n src full kind r r' em nam : plain_group g -> 0 < n -> roomy n r -> exports_inv m r em ->
  alloc g n m src full kind r = Ok (new_address g n m src full kind r, r') ->
  (forall h, next h r' = if bool_decide (h = g) then next g r + n else next h r) ->
  entry_of r' (new_address g n m src full kind r) = Some (new_address g n m src full kind r) ->
  (forall i, i <> group_int g * 2 ^ 16 + next g r -> automatic_mappings r' !! i = automatic_mappings r !! i) ->
  exports_inv m r' (<[nam := new_address g n m src full kind r]> em).
Proof.
  intros Hg Hn [Hlo Hhi _] [Ig Ir Io Ie Ii] _ Hnext Hentry Hother. set (a := new_address _ _ _ _ _ _ _) in *.
  pose proof (Hlo g Hg) as Hl. pose proof (Hhi g Hg) as Hh. unfold first_auto_address, ADDRESSES in *.
  assert (forall h, next h r <= next h r') as Hmono by (intros h; rewrite Hnext; case_bool_decide; subst; lia).
  assert (forall k b, em !! k = Some b -> index b <> index a) as Hfresh.
  { intros k b Hb E. pose proof (Ir k b Hb) as Hrb. cbn in Hrb. pose proof (Ig k b Hb) as Hgb. cbn in Hgb.
    pose proof (Hhi _ Hgb). destruct (index_inj b a) as [Eg Ea]; try done; unfold ADDRESSES; cbn; try lia.
    rewrite Eg in Hrb. cbn in *. lia. }
  split.
  - by apply map_Forall_insert_2.
  - apply map_Forall_insert_2.
    + cbn. unfold first_auto_address. rewrite Hnext, bool_decide_true by done. lia.
    + intros k b Hb. specialize (Ir k b Hb). specialize (Hmono (group b)). cbn in *. unfold first_auto_address in *. lia.
  - by apply map_Forall_insert_2.
  - apply map_Forall_insert_2.
    + unfold entry_of in Hentry. rewrite (proj2 (Z.ltb_ge _ _)) in Hentry by (cbn; unfold first_auto_address; lia). exact Hentry.
    + intros k b Hb. cbn. rewrite Hother; [exact (Ie k b Hb) |]. exact (Hfresh k b Hb).
  - intros n1 n2 a1 a2 H1 H2 E. destruct (decide (n1 = nam)) as [-> | Hn1], (decide (n2 = nam)) as [-> | Hn2]; [done | | |];
      simplify_map_eq.
    + by destruct (Hfresh n2 a2 H2).
    + by destruct (Hfresh n1 a1 H1).
    + by apply (Ii n1 n2 a1 a2).
Qed.

Lemma step_add nam g n kind src full : plain_group g -> 0 < n ->
  exports_step m s n (run! addModbusExport m nam g n kind src full in sret tt).
Proof.
  intros Hg Hn k e b [Ee Em Hi Hr Es] Hk. pose proof Hr as [Hlo Hhi Hp].
  destruct (alloc_run g n m src full kind (registry b)) as (r' & Ha & Hnext & Hpre & Hent & Hoth); [done | | done | |].
  { specialize (Hlo g Hg). unfold first_auto_address in Hlo. lia. }
  { specialize (Hhi g Hg). lia. }
  unfold addModbusExport, on_registry, export_address. unfold sbind at 1 2. rewrite Hp, lookup_empty, Ha. cbn.
  unfold upd_exports at 1, sbind at 1. cbn. rewrite Ee. cbn.
  eexists _, (set_exports (<[nam := new_address g n m src full kind (registry b)]> (exports_map e)) e).
  split; [done |]. split; [|done]. split; cbn.
  - apply lookup_insert_eq.
  - done.
  - apply (new_address_inv g n src full kind (registry b)); try done.
    + split; try done. intros h Hh. specialize (Hhi h Hh). lia.
    + intros i Hi'. by destruct (Hoth i Hi').
  - split; [| |by rewrite Hpre].
    + intros h Hh. rewrite Hnext. specialize (Hlo h Hh). case_bool_decide; subst; lia.
    + intros h Hh. rewrite Hnext. specialize (Hhi h Hh). case_bool_decide; subst; lia.
  - done.
Qed.

(** *** The parts of [setupModbusInterface] *)
Variable (i : MachineInstance).
Hypothesis Hm : heap s !! m = Some i.
Hypothesis Howner : forall o, owner (fixed i) = Some o -> is_Some (heap s !! o).

Lemma step_names nam full g src l : plain_group g -> exports_step m s (Z.of_nat (length l)) (export_names m nam full g src l).
Proof.
  intros Hg. induction l as [|x l IH]; [apply step_ret |]. cbn [export_names].
  apply (step_weaken (1 + Z.of_nat (length l))); [|cbn; lia].
  intros k e b Hs Hk.
  destruct (step_add (nam +:+ "." +:+ x) g 1 ex_discrete src (full +:+ "." +:+ x) Hg ltac:(lia) (Z.of_nat (length l) + k) e b)
    as (b1 & e1 & R1 & S1 & C1); [by rewrite Z.add_assoc | lia |].
  destruct (IH k e1 b1 S1 Hk) as (b2 & e2 & R2 & S2 & C2). exists b2, e2.
  apply sbind_Ok in R1 as (a & b' & R1 & E). injection E as ->. rewrite (sbind_run _ _ _ _ _ R1). split; [done |].
  split; [done | congruence].
Qed.
Definition template_ok (t : Template) : Prop := 0 < t_size t <= ADDRESSES.
Lemma step_property prop grp kind size : 0 < size <= ADDRESSES ->
  exports_step m s size (setupModbusPropertyExports m prop grp kind size).
Proof.
  intros Hsz k e b Hs Hk. unfold setupModbusPropertyExports.
  assert (on_store (get m) b = Ok (i, b)) as Hget.
  { destruct Hs as [_ _ _ _ Es]. unfold on_store, get. rewrite Es, Hm. cbn. rewrite <- Es. by destruct b. }
  rewrite (sbind_run _ _ _ _ _ Hget).
  assert (exists full, on_store (match owner (fixed i) with
      | Some o => let! oi := get o in sret (i_name (fixed oi) +:+ ".")%string | None => sret ""%string end) b = Ok (full, b)) as [full Hfull].
  { destruct Hs as [_ _ _ _ Es]. unfold on_store. rewrite Es. destruct (owner (fixed i)) as [o|].
    - destruct (Howner o eq_refl) as [oi Ho]. unfold sbind, get. rewrite Ho. cbn. eexists. rewrite <- Es. by destruct b.
    - cbn. eexists. rewrite <- Es. by destruct b. }
  rewrite (sbind_run _ _ _ _ _ Hfull). replace (u32 size) with size by (unfold u32, ADDRESSES in *; rewrite Z.mod_small; lia).
  destruct grp; try (apply (step_add _ _ size); try done; lia).
  apply (step_weaken 0 size _ step_ret ltac:(lia) k e b Hs Hk).
Qed.
Lemma step_templates l : Forall template_ok l -> exports_step m s (foldr Z.add 0 (t_size <$> l)) (export_templates m l).
Proof.
  induction 1 as [|t l Ht Hl IH]; [apply step_ret |]. cbn [export_templates].
  apply step_bind; [by apply step_property | exact IH |]. clear IH. induction Hl as [|u l [? ?] _ IH]; cbn; lia.
Qed.
Lemma step_self nam k full : (forall g, self_group k = Some g -> plain_group g) -> exports_step m s 80 (export_self m nam k full).
Proof.
  intros Hg. unfold export_self. destruct (self_group k) as [g|]; [|by apply (step_weaken 0 80 _ step_ret)].
  specialize (Hg g eq_refl). assert (0 < self_length g k <= 80) as [Hl1 Hl2] by (destruct g; cbn; repeat case_match; lia).
  apply (step_weaken (self_length g k)); [|done]. intros n e b Hs Hn.
  destruct (step_add nam g (self_length g k) (export_type k) src_machine full Hg Hl1 n e b Hs Hn) as (b1 & e1 & R1 & S1 & C1).
  apply sbind_Ok in R1 as (a & b' & R1 & E). injection E as ->. rewrite (sbind_run _ _ _ _ _ R1).
  destruct (decide (g = g_holding_register)) as [-> | Hne]; [by exists b1, e1 |].
  destruct (step_update (set_address a) ltac:(done) n e1 b1 S1 Hn) as (b2 & e2 & R2 & S2 & C2).
  exists b2, e2. split; [by destruct g |]. split; [done | congruence].
Qed.
(** The addresses a variable takes. *)
Definition variable_size (k : Kind3) : Z :=
  match export_type k with
  | ex_none => 0
  | ex_reg32 | ex_rw_reg32 | ex_float32 => 2
  | ex_str => str_length k
  | _ => 1
  end.
Lemma step_variable nam k : (export_type k = ex_str -> 0 < str_length k <= ADDRESSES) ->
  exports_step m s (variable_size k) (export_variable m nam k).
Proof.
  intros Hk. unfold export_variable, variable_size.
  destruct (export_type k); try (apply step_property; unfold ADDRESSES; lia); [apply step_ret |].
  specialize (Hk eq_refl). unfold ADDRESSES in Hk.
  replace (to_s32 (str_length k)) with (str_length k) by (unfold to_s32; rewrite Z.mod_small; lia).
  destruct (self_group k) as [[]|]; by apply step_property.
Qed.
End Steps.

(** *** The index *)
Lemma index_exports_run l acc : (forall nam a, (nam, a) ∈ l -> plain_group (group a) /\ 0 <= address a < ADDRESSES) ->
  NoDup (index <$> (snd <$> l)) -> (forall nam a, (nam, a) ∈ l -> acc !! index a = None) ->
  exists am, index_exports l acc = Ok am /\ (size am = length l + size acc)%nat /\
    (forall j nam, am !! j = Some nam <-> acc !! j = Some nam \/ exists a, (nam, a) ∈ l /\ j = index a).
Proof.
  revert acc. induction l as [|[nam a] l IH]; intros acc Hr Hnd Hacc.
  { exists acc. split; [done |]. split; [done |]. intros j n. split; [auto |]. intros [? | (a & Ha & _)]; [done |]. set_solver. }
  cbn in Hnd. apply list.NoDup_cons in Hnd as [Hna Hnd]. destruct (Hr nam a) as [Hg Ha]; [by left |].
  cbn [index_exports]. rewrite index_of_ok by (try done; unfold INT_MIN; lia). cbn -[Z.pow].
  fold (index a). rewrite (Hacc nam a) by (by left). cbn -[Z.pow].
  destruct (IH (<[index a := nam]> acc)) as (am & Hrun & Hsize & Hiff).
  - intros n b Hb. apply (Hr n b). by right.
  - done.
  - intros n b Hb. rewrite lookup_insert_ne; [apply (Hacc n b); by right |]. intros E. apply Hna. rewrite E.
    apply list_elem_of_fmap. exists b. split; [done |]. apply list_elem_of_fmap. by exists (n, b).
  - exists am. split; [exact Hrun |]. split; [rewrite Hsize, map_size_insert_None by (apply (Hacc nam a); by left); cbn; lia |].
    intros j n. rewrite Hiff. destruct (decide (j = index a)) as [-> | Hne].
    + rewrite lookup_insert_eq. split.
      * intros [[= <-] | (b & Hb & E)]; right; [exists a; split; [by left | done] | exists b; split; [by right | done]].
      * intros [Hj | (b & [[= <- <-] | Hb]%elem_of_cons & E)].
        { rewrite (Hacc nam a) in Hj; [done | by left]. }
        { by left. }
        { exfalso. apply Hna. rewrite E. apply list_elem_of_fmap. exists b. split; [done |].
          apply list_elem_of_fmap. by exists (n, b). }
    + rewrite lookup_insert_ne by done. split.
      * intros [Hj | (b & Hb & E)]; [by left |]. right. exists b. split; [by right | done].
      * intros [Hj | (b & [[= <- <-] | Hb]%elem_of_cons & E)]; [by left | done | right; by exists b].
Qed.

Section Setup.
Context `{DynEnv} `{Clock}.
Variable ct : ClockworkToken.

(** Computations that leave the machines alone. *)
Definition keeps {A} (P : A -> Prop) (c : NM A) : Prop := forall s a s', c s = Ok (a, s') -> heap s' = heap s /\ P a.
Lemma keeps_bind {A B} (c : NM A) (f : A -> NM B) P : keeps (fun _ => True) c -> (forall a, keeps P (f a)) -> keeps P (sbind c f).
Proof.
  intros Hc Hf s b s' Hr. apply sbind_Ok in Hr as (a & s1 & R1 & R2). destruct (Hc _ _ _ R1) as [E _].
  destruct (Hf a _ _ _ R2) as [E2 HP]. split; [congruence | done].
Qed.
Lemma keeps_ret {A} (a : A) (P : A -> Prop) : P a -> keeps P (sret a).
Proof. intros HP s b s' [= <- <-]. done. Qed.
Lemma keeps_lift {A} (r : res A) : keeps (fun _ => True) (slift (S := Store) r).
Proof. intros s a s'. unfold slift. destruct r; [by intros [= _ <-] | done | done]. Qed.
Lemma keeps_tokenise {A} (t : SM Tokeniser A) : keeps (fun _ => True) (tokenise t).
Proof. intros s a s'. unfold tokenise. destruct (t (tok s)) as [[x y]| |]; [by intros [= _ <-] | done | done]. Qed.
Lemma keeps_property m key : keeps (fun _ => True) (property m key).
Proof.
  unfold property. apply keeps_bind; [|intros i; apply keeps_bind; [|intros r]].
  - intros s a s'. unfold get. destruct (heap s !! m); [by intros [= _ <-] | done].
  - intros s a s'. unfold table_ref. destruct (value_ne _ _); [by intros [= _ <-] | done | done].
  - intros s a s'. unfold load. destruct (deref r s); [by intros [= _ <-] | done | done].
Qed.
Lemma keeps_text v t : keeps (fun _ => True) (is_text v t) /\ keeps (fun _ => True) (is_not_text v t).
Proof. split; (apply keeps_bind; [apply keeps_tokenise | intros w; apply keeps_lift]). Qed.
Definition plain_kind (k : Kind3) : Prop := forall g, self_group k = Some g -> plain_group g.
Lemma keeps_first v l d : keeps plain_kind d -> Forall (fun x => keeps plain_kind (snd x)) l -> keeps plain_kind (first_match v l d).
Proof.
  intros Hd Hl. induction Hl as [|[t c] l Hc _ IH]; [done |]. cbn. apply keeps_bind; [apply keeps_text |].
  intros []; [exact Hc | exact IH].
Qed.
Lemma keeps_kind g t n : plain_group g -> keeps plain_kind (sret (mkKind3 (Some g) t n)).
Proof. intros Hg. apply keeps_ret. intros h [= <-]. done. Qed.
Lemma keeps_text_kind m g : plain_group g -> keeps plain_kind (text_kind m g).
Proof.
  intros Hg. apply keeps_bind; [apply keeps_property | intros z]. apply keeps_bind; [apply keeps_lift | intros r].
  apply keeps_bind; [apply keeps_lift | intros n]. by apply keeps_kind.
Qed.
Lemma export_kind_keeps m : keeps plain_kind (export_kind m).
Proof.
  assert (keeps plain_kind (sret (mkKind3 None ex_none 0))) as Hnone by (by apply keeps_ret).
  unfold export_kind. apply keeps_bind; [|intros i].
  { intros s a s'. unfold get. destruct (heap s !! m); [by intros [= _ <-] | done]. }
  destruct (exists_name "export" (properties i)); cbn [negb]; [|done].
  apply keeps_bind; [apply keeps_property | intros ex]. apply keeps_bind; [apply keeps_text | intros []]; cbn [negb]; [|done].
  destruct (bool_decide (i_type (fixed i) = "POINT")).
  - apply keeps_bind; [apply keeps_property | intros type]. apply keeps_bind; [apply keeps_lift | intros []]; cbn [negb]; [|done].
    apply keeps_first; [done |]. repeat (apply List.Forall_cons; [cbn [snd] |]); [by apply keeps_kind | | by apply keeps_kind | | constructor];
      (apply keeps_bind; [apply keeps_text | intros []; by apply keeps_kind]).
  - apply keeps_first; [by apply keeps_kind |]. repeat (apply List.Forall_cons; [cbn [snd]; first [by apply keeps_kind | by apply keeps_text_kind] |]). constructor.
Qed.

(** The addresses [setupModbusInterface] may take. *)
Definition setup_size (k : Kind3) (c : ExportLists) : Z :=
  80 + Z.of_nat (length (state_exports c) + length (state_exports_rw c) + length (command_exports c)) +
  Z.max 0 (variable_size k) + foldr Z.add 0 (t_size <$> templates c).

(** A machine whose exports can be set up. *)
Record exportable (m : ptr) (i : MachineInstance) (k : Kind3) (e : Exports) (b : Bus) : Prop := {
  xp_machine : heap (store b) !! m = Some i;
  xp_owner : forall o, owner (fixed i) = Some o -> is_Some (heap (store b) !! o);
  xp_name : exists full, fullName m (store b) = Ok (full, store b);
  xp_kind : exists s1, export_kind m (store b) = Ok (k, s1);
  xp_text : is_value i = true -> export_type k = ex_str -> 0 < str_length k <= ADDRESSES;
  xp_templates : Forall template_ok (templates (class_exports e));
  xp_exports : exported b !! m = Some e;
  xp_empty : exports_map e = ∅ /\ addresses_map e = ∅;
  xp_room : roomy (setup_size k (class_exports e)) (registry b)
}.
(** The index is the inverse of the exports. *)
Definition indexed (e : Exports) : Prop :=
  forall j nam, addresses_map e !! j = Some nam <-> exists a, exports_map e !! nam = Some a /\ j = index a.

Lemma index_exports_ok m r em : exports_inv m r em -> roomy 0 r ->
  exists am, index_exports (merge_sort name_le (map_to_list em)) ∅ = Ok am /\ size am = size em /\
    forall j nam, am !! j = Some nam <-> exists a, em !! nam = Some a /\ j = index a.
Proof.
  intros [Ig Ir Io Ie Ii] [Hlo Hhi _]. set (l := merge_sort name_le (map_to_list em)).
  assert (Permutation l (map_to_list em)) as Hperm by (apply merge_sort_Permutation).
  assert (forall nam a, (nam, a) ∈ l <-> em !! nam = Some a) as Hin by (intros; by rewrite Hperm, elem_of_map_to_list).
  destruct (index_exports_run l ∅) as (am & Hrun & Hsize & Hiff).
  - intros nam a Ha. apply Hin in Ha. pose proof (Ig _ _ Ha) as Hg. pose proof (Ir _ _ Ha) as Hr. cbn in Hg, Hr.
    specialize (Hhi _ Hg). unfold first_auto_address in *. split; [done | lia].
  - assert (NoDup l) as Hnd by (rewrite Hperm; apply NoDup_map_to_list).
    rewrite <- list_fmap_compose. apply NoDup_fmap_2_strong; [|done]. intros [n1 a1] [n2 a2] H1 H2 E. cbn in E.
    apply Hin in H1, H2. pose proof (Ii _ _ _ _ H1 H2 E) as ->. congruence.
  - intros. apply lookup_empty.
  - exists am. split; [done |]. split; [by rewrite Hsize, Hperm, map_size_empty, length_map_to_list, Nat.add_0_r |].
    intros j nam. rewrite Hiff. setoid_rewrite Hin. rewrite lookup_empty. naive_solver.
Qed.

Lemma setup_run m i k e b : exportable m i k e b ->
  exists b' e', setupModbusInterface m b = Ok (tt, b') /\ exported b' !! m = Some e' /\ indexed e' /\
    exports_inv m (registry b') (exports_map e') /\ roomy 0 (registry b') /\ heap (store b') = heap (store b).
Proof.
  intros [Em Hown [full Hfull] [s1 Hkind] Htext Htempl Ee [Hx Ha] Hroom].
  destruct (export_kind_keeps m _ _ _ Hkind) as [Hheap Hplain].
  set (b1 := mkBus (registry b) (exported b) s1 (sent b)).
  assert (heap s1 !! m = Some i) as Em1 by (by rewrite Hheap).
  assert (forall o, owner (fixed i) = Some o -> is_Some (heap s1 !! o)) as Hown1 by (intros o Ho; rewrite Hheap; by apply Hown).
  assert (setting_up m s1 (setup_size k (class_exports e)) e b1) as Hs0.
  { split; try done. cbn. rewrite Hx. split; try (intros ? ? Hl; by rewrite lookup_empty in Hl). intros ? ? ? ? Hl. by rewrite lookup_empty in Hl. }
  set (c := class_exports e) in *.
  assert (exports_step m s1 (setup_size k c)
    (run! (if is_value i then sret tt else upd_exports m (set_exported (export_type k))) in
     run! (if is_value i then sret tt else export_self m (i_name (fixed i)) k full) in
     run! export_names m (i_name (fixed i)) full g_discrete src_state (state_exports c) in
     run! export_names m (i_name (fixed i)) full g_coil src_state (state_exports_rw c) in
     run! export_names m (i_name (fixed i)) full g_coil src_command (command_exports c) in
     run! (if is_value i then export_variable m (i_name (fixed i)) k else sret tt) in
     export_templates m (templates c))) as Hsteps.
  { assert (0 <= foldr Z.add 0 (t_size <$> templates c)) as Hpos
      by (clear -Htempl; induction Htempl as [|t l [? ?] _ IH]; cbn; lia).
    eapply (step_weaken m s1 (0 + (80 + (Z.of_nat (length (state_exports c)) + (Z.of_nat (length (state_exports_rw c)) +
      (Z.of_nat (length (command_exports c)) + (Z.max 0 (variable_size k) + foldr Z.add 0 (t_size <$> templates c))))))));
      [|unfold setup_size; lia].
    repeat (apply step_bind; [| |lia || done]).
    - destruct (is_value i); [apply step_ret | by apply step_update].
    - destruct (is_value i); [apply (step_weaken m s1 0 80 _ (step_ret m s1)); lia | by apply step_self].
    - by apply step_names.
    - by apply step_names.
    - by apply step_names.
    - destruct (is_value i); [|apply (step_weaken m s1 0 _ _ (step_ret m s1)); lia].
      apply (step_weaken m s1 (variable_size k)); [|lia]. apply step_variable with (i := i); auto.
    - by apply step_templates with (i := i). }
  replace (setup_size k c) with (setup_size k c + 0) in Hs0 by lia.
  destruct (Hsteps 0 e b1 Hs0 ltac:(lia)) as (b2 & e2 & Hrun & [Ee2 Ea2 Hi2 Hr2 Es2] & _).
  destruct (index_exports_ok m (registry b2) (exports_map e2) Hi2 Hr2) as (am & Hidx & Hsize & Hiff).
  exists (mkBus (registry b2) (<[m := set_addresses am e2]> (exported b2)) (store b2) (sent b2)), (set_addresses am e2).
  split; [|split; [|split; [exact Hiff |]; split; [exact Hi2 |]; split; [exact Hr2 |]; cbn; by rewrite Es2]].
  - unfold setupModbusInterface. rewrite (sbind_run (get_exports m) _ b e b) by (unfold get_exports; by rewrite Ee).
    rewrite Ha, bool_decide_true by done. cbn [negb].
    rewrite (sbind_run _ _ b i b) by (unfold on_store, get; rewrite Em; cbn; by destruct b).
    rewrite (sbind_run _ _ b full b) by (unfold on_store; rewrite Hfull; cbn; by destruct b).
    rewrite (sbind_run _ _ b k b1) by (unfold on_store; by rewrite Hkind).
    do 6 (let H := fresh in apply sbind_Ok in Hrun as (? & ? & H & Hrun); rewrite (sbind_run _ _ _ _ _ H)).
    rewrite (sbind_run _ _ _ _ _ Hrun). rewrite (sbind_run (get_exports m) _ b2 e2 b2) by (unfold get_exports; by rewrite Ee2).
    rewrite Ea2, bool_decide_true by done. rewrite (sbind_run (slift (assert true)) _ _ tt _ eq_refl).
    rewrite (slift_run _ _ _ _ Hidx). rewrite bool_decide_true by done. rewrite (sbind_run (slift (assert true)) _ _ tt _ eq_refl).
    unfold upd_exports. rewrite Ee2. cbn. reflexivity.
  - cbn. apply lookup_insert_eq.
Qed.

(** Setting up the modbus interface of a machine returns, none of its asserts
    fails, and afterwards the machine's index of addresses is the inverse of its
    exports: every name has an address of its own, and every address that is found
    in the index is the one of the name found there. *)
Theorem setup_indexes_exports m i k e b : exportable m i k e b ->
  exists b' e', setupModbusInterface m b = Ok (tt, b') /\ exported b' !! m = Some e' /\ indexed e' /\
    forall n1 n2 a1 a2, exports_map e' !! n1 = Some a1 -> exports_map e' !! n2 = Some a2 -> n1 <> n2 ->
      index a1 <> index a2.
Proof.
  intros Hx. destruct (setup_run m i k e b Hx) as (b' & e' & Hr & Ee & Hi & [_ _ _ _ Hinj] & _).
  exists b', e'. split; [done |]. split; [done |]. split; [done |]. intros n1 n2 a1 a2 H1 H2 Hne E. by apply Hne, (Hinj n1 n2 a1 a2).
Qed.

Lemma fullName_heap n m suffix s full s' : fullName_n n m suffix s = Ok (full, s) -> heap s' = heap s ->
  fullName_n n m suffix s' = Ok (full, s').
Proof.
  revert m suffix. induction n as [|n IH]; intros m suffix Hr E; [done |]. cbn [fullName_n] in *. unfold sbind, get in *.
  rewrite E. destruct (heap s !! m) as [i|]; [|done]. cbn in *. destruct (owner (fixed i)) as [o|]; [by apply IH |].
  by injection Hr as ->.
Qed.
Lemma asInteger_long z x : asInteger (Value_long z) x = Ok (true, Some z).
Proof. unfold asInteger. by destruct dyn_depth. Qed.

(** A register that is exported can be written: after the set-up, the command
    MODBUS with the group and the address of an exported holding register finds the
    machine and sets the property exported under that name to the number. *)
Theorem exported_register_is_writable m i k e b : exportable m i k e b ->
  exists b' e', setupModbusInterface m b = Ok (tt, b') /\ exported b' !! m = Some e' /\
    forall nam a p0 v, exports_map e' !! nam = Some a -> group a = g_holding_register -> INT_MIN <= v <= INT_MAX ->
      IODCommandModbus ct [p0; Value_long 4; Value_long (address a); Value_long v] b' =
      (run! set_register ct m nam (Value_int v) in sret true) b'.
Proof.
  intros Hx. destruct (setup_run m i k e b Hx) as (b' & e' & Hr & Ee & Hidx & [Ig Ir Io Ie Ii] & [Hlo Hhi _] & Hheap).
  exists b', e'. split; [done |]. split; [done |]. intros nam a p0 v Ha Hg Hv.
  destruct (xp_name _ _ _ _ _ Hx) as [full Hfull]. pose proof (fullName_heap _ _ _ _ _ _ Hfull Hheap : fullName m (store b') = _) as Hf.
  pose proof (Ir _ _ Ha) as Hra. cbn in Hra. specialize (Hhi g_holding_register ltac:(by split)). rewrite Hg in Hra.
  unfold first_auto_address, ADDRESSES in *.
  assert (forall z, INT_MIN <= z <= INT_MAX -> to_s32 z = z) as Hs32 by (unfold INT_MIN, INT_MAX, to_s32; intros z Hz; rewrite Z.mod_small; lia).
  assert (index_of 4 (address a) = Ok (index a)) as Hindex.
  { unfold index. rewrite Hg. apply (index_of_ok g_holding_register); [by split |]. unfold INT_MIN, ADDRESSES. lia. }
  assert (0 <= index a <= INT_MAX) as Hia by (unfold index, INT_MAX; rewrite Hg; cbn; lia).
  unfold IODCommandModbus. rewrite !asInteger_long.
  rewrite (sbind_run (slift (Ok (true, Some 4))) _ b' _ b' eq_refl). cbn [fst snd andb negb rd].
  rewrite (sbind_run (slift (Ok (true, Some (address a)))) _ b' _ b' eq_refl). cbn [fst snd andb negb rd].
  rewrite (sbind_run (slift (Ok 4)) _ b' _ b' eq_refl), (sbind_run (slift (Ok (address a))) _ b' _ b' eq_refl).
  rewrite (sbind_run (fun b => _) _ b' a b').
  2: { unfold lookup_address. rewrite !Hs32 by (unfold INT_MIN, INT_MAX; lia). rewrite Hindex. cbn. by rewrite (Ie _ _ Ha : automatic_mappings _ !! _ = _). }
  rewrite Hg, bool_decide_false by done. rewrite (Io _ _ Ha : addr_owner a = Some m). cbn [rd].
  rewrite (sbind_run (slift (Ok m)) _ b' _ b' eq_refl), Z.eqb_refl, (sbind_run (slift (assert true)) _ b' tt b' eq_refl).
  cbn [kind Value_long iValue rd]. rewrite (sbind_run (slift (Ok v)) _ b' _ b' eq_refl), Z.sub_diag.
  apply sbind_cong2; [|done]. unfold modbusUpdated_int. rewrite (sbind_run _ _ b' full b') by (unfold on_store; rewrite Hf; cbn; by destruct b').
  rewrite (sbind_run (written_export _ _ _) _ b' (Some (nam, a)) b').
  2: { unfold written_export. rewrite (sbind_run (get_exports m) _ b' e' b') by (unfold get_exports; by rewrite Ee).
       rewrite Hg. change (group_int g_holding_register) with 4. rewrite Hindex. cbn [mbind res_bind]. rewrite (sbind_run (slift (Ok _)) _ b' _ b' eq_refl).
       change (to_s32 0) with 0. rewrite Z.add_0_r, Hs32 by (unfold INT_MIN; lia).
       assert (addresses_map e' !! index a = Some nam) as -> by (apply Hidx; by exists a). by rewrite Ha. }
  rewrite Hg, (Hs32 v Hv). done.
Qed.

(** *** Where writing goes wrong *)
Lemma split_dot_first (a r : string) : split_dot a = None -> split_dot (a +:+ "." +:+ r)%string = Some (a, r).
Proof.
  induction a as [|c a IH]; intros Ha; [done |]. rewrite string_cons_app. cbn [split_dot] in *.
  destruct (Ascii.eqb c (chr 46)); [done |]. destruct (split_dot a) as [[? ?]|]; [done |]. by rewrite IH.
Qed.

(** The state of a machine that belongs to another one is misread when it is
    written: the full name is cut at its first dot, so the machine is sent to a
    state with its own name in front. *)
Theorem owned_state_misread m i a b (own nam state : string) : heap (store b) !! m = Some i ->
  addr_name a = (own +:+ "." +:+ nam +:+ "." +:+ state)%string -> split_dot own = None -> i_name (fixed i) = nam -> nam <> own ->
  exists b', write_state m a b = Ok (tt, b') /\ sent b' = sent b ++ [BLog m; BSetState m (nam +:+ "." +:+ state)%string].
Proof.
  intros Em Ea Ho Ei Hne. unfold write_state. rewrite Ea, split_dot_first by done.
  rewrite (sbind_run _ _ b i b) by (unfold on_store, get; rewrite Em; cbn; by destruct b).
  rewrite bool_decide_false by congruence. unfold send, sbind. cbn. eexists. split; [done |]. cbn. by rewrite <- app_assoc.
Qed.
End Setup.

(** A register of machine "m", a command of the machine "v" that belongs to "o", and
    a text. *)
Definition info (g : Group) (a n : Z) (t : ExportType) (src : Source) (nam : string) : ModbusAddress :=
  mkAddress g a n t 0 src (Some 1%positive) nam.
Definition level_row : Row :=
  mkRow None g_holding_register 1000 "m.level" (info g_holding_register 1000 2 ex_rw_reg32 src_property "m.level").
Definition open_row : Row :=
  mkRow (Some "o"%string) g_coil 1001 "v.open" (info g_coil 1001 1 ex_discrete src_command "o.v.open").
Definition text_row : Row :=
  mkRow None g_input_register 1000 "m.label" (info g_input_register 1000 80 ex_str src_property "m.label").

Ltac sample_row := split; [split; done | done | done | split; [done | repeat constructor] | vm_compute; lia | done].
Lemma level_row_ok : row_ok level_row. Proof. sample_row. Qed.
Lemma open_row_ok : row_ok open_row. Proof. sample_row. Qed.
Lemma text_row_ok : row_ok text_row. Proof. sample_row. Qed.
Lemma sample_rows_ok : Forall row_ok [level_row; open_row].
Proof. apply List.Forall_cons; [apply level_row_ok |]. apply List.Forall_cons; [apply open_row_ok | constructor]. Qed.
Lemma registry0_positive g : plain_group g -> 0 < next g registry0.
Proof. intros [? ?]. by destruct g. Qed.

Definition level_request : Request := mkRequest g_input_register 1 1%positive 1%positive ex_reg src_property "m.level".
Definition new_request (nam : string) (g : Group) (n : Z) : Request :=
  mkRequest g n 1%positive 1%positive ex_reg src_property nam.

Definition open_request : Request := mkRequest g_coil 1 1%positive 1%positive ex_discrete src_command "o.v.open".
Lemma restart_keeps_addresses_w :
  exists r', load_preset_modbus_mappings (Some (file_of [level_row; open_row])) registry0 = Ok (0, r') /\
    exists a r2 b r3, export_one level_request r' = Ok (a, r2) /\
      group a = g_holding_register /\ address a = 1000 /\ allocated a = 2 /\
      export_one open_request r' = Ok (b, r3) /\ group b = g_coil /\ address b = 1001.
Proof.
  destruct (restart_keeps_addresses [level_row; open_row] registry0 sample_rows_ok) as (r' & Hr & Hall).
  - by apply (bool_decide_eq_true_1 (NoDup (map row_key [level_row; open_row]))).
  - done.
  - exact registry0_positive.
  - exists r'. split; [done |].
    destruct (Hall level_row [] level_request r') as (a & r2 & H1 & H2 & H3 & H4 & _); [by left | done | cbn; lia | done | done | done |].
    destruct (Hall open_row ["o"%string] open_request r') as (b & r3 & H5 & H6 & H7 & _); [by right; left | done | cbn; lia | done | done | done |].
    exists a, r2, b, r3. split; [exact H1 |]. split; [exact H2 |]. split; [exact H3 |]. split; [exact H4 |].
    split; [exact H5 |]. split; [exact H6 | exact H7].
Defined.

Definition sample_requests : list Request :=
  [new_request "m.count" g_holding_register 1; level_request; new_request "m.rate" g_holding_register 2].
Lemma exports_disjoint_w :
  exists r', load_preset_modbus_mappings (Some (file_of [level_row; open_row])) registry0 = Ok (0, r') /\
    exists addrs r'', export_all sample_requests r' = Ok (addrs, r'') /\ length addrs = 3%nat.
Proof.
  destruct (exports_disjoint [level_row; open_row] registry0 sample_requests sample_rows_ok) as (r' & Hr & Hall).
  - by apply (bool_decide_eq_true_1 (NoDup (map row_key [level_row; open_row]))).
  - done.
  - by intros [].
  - exact registry0_positive.
  - intros x Hx. apply list_elem_of_In in Hx as [<- | [<- | []]]; cbn; lia.
  - repeat (apply List.Forall_cons; [by repeat split |]). constructor.
  - exists r'. split; [done |].
    assert (forall g, next g r' + demand r' g sample_requests <= ADDRESSES) as Hroom.
    { vm_compute in Hr. injection Hr as <-. intros []; vm_compute; discriminate. }
    destruct (Hall Hroom) as (addrs & r'' & H1 & H2 & _).
    exists addrs, r''. split; [exact H1 | exact H2].
Defined.

Lemma preset_text_overlapped_w :
  exists r', load_preset_modbus_mappings (Some (file_of [text_row])) registry0 = Ok (0, r') /\
    exists a r'', export_one (new_request "m.next" g_input_register 1) r' = Ok (a, r'') /\
      group a = g_input_register /\ 1000 <= address a < 1080.
Proof.
  apply (preset_text_overlapped [text_row] registry0 text_row (new_request "m.next" g_input_register 1)).
  - apply List.Forall_cons; [apply text_row_ok | constructor].
  - by apply (bool_decide_eq_true_1 (NoDup (map row_key [text_row]))).
  - done.
  - exact registry0_positive.
  - by left.
  - done.
  - done.
  - intros y Hy _. by apply list_elem_of_In in Hy as [<- | []].
  - done.
  - done.
  - done.
  - by apply (bool_decide_eq_true_1 ("m.next"%string ∉ map row_key [text_row])).
Defined.

(** A machine with a coil for itself, a command and a register. *)
Definition tank_lists : ExportLists :=
  mkLists [mkTemplate "level" g_holding_register ex_rw_reg32 2] ["full"%string] [] ["drain"%string].
Definition tank_exports : Exports := mkExports tank_lists ex_none no_address ∅ ∅.
Definition tank_kind : Kind3 := mkKind3 (Some g_coil) ex_coil 0.
Definition rw : Value := mkString t_symbol "rw" (default 0 (tokens sample_tok !! "rw"%string)).
Definition tank_store : Store := Eval vm_compute in
  match (let! v := tokenise (Value_cstr "rw" t_symbol) in
         run! add_property 4%positive "export" v in sret tt) sample_store with
  | Ok (_, s) => s
  | _ => sample_store
  end.
Definition tank_bus : Bus := mkBus registry0 {[ 4%positive := tank_exports ]} tank_store [].
Definition tank : MachineInstance := Eval vm_compute in default watcher (heap tank_store !! 4%positive).
Lemma registry0_roomy n : n <= 60000 -> roomy n registry0.
Proof. intros Hn. split; [intros [] [? ?]; done | intros [] [? ?]; try done; cbn; unfold ADDRESSES, first_auto_address; lia | done]. Qed.
Lemma tank_exportable : @exportable no_dyn sample_clock 4%positive tank tank_kind tank_exports tank_bus.
Proof.
  split.
  - vm_compute. reflexivity.
  - intros o Ho. vm_compute in Ho. discriminate.
  - exists "watcher"%string. vm_compute. reflexivity.
  - eexists. vm_compute. reflexivity.
  - done.
  - apply List.Forall_cons; [unfold template_ok, ADDRESSES; cbn; lia | constructor].
  - apply lookup_singleton_eq.
  - done.
  - apply registry0_roomy. vm_compute. discriminate.
Qed.
Lemma setup_indexes_exports_w : exists b' e', @setupModbusInterface no_dyn sample_clock 4%positive tank_bus = Ok (tt, b') /\
  exported b' !! 4%positive = Some e' /\ indexed e'.
Proof.
  destruct (@setup_indexes_exports no_dyn sample_clock 4%positive tank tank_kind tank_exports tank_bus tank_exportable)
    as (b' & e' & H1 & H2 & H3 & _).
  exists b', e'. split; [exact H1 |]. split; [exact H2 | exact H3].
Defined.
Definition tank_level : ModbusAddress :=
  mkAddress g_holding_register 1000 2 ex_rw_reg32 0 src_property (Some 4%positive) "watcher.level".
Definition tank_ready : Bus := Eval vm_compute in
  match @setupModbusInterface no_dyn sample_clock 4%positive tank_bus with Ok (_, b) => b | _ => tank_bus end.
Lemma exported_register_is_writable_w : exists b', @setupModbusInterface no_dyn sample_clock 4%positive tank_bus = Ok (tt, b') /\
  @IODCommandModbus no_dyn sample_clock ct0 [Value_empty; Value_long 4; Value_long 1000; Value_long 7] b' =
  (run! @set_register no_dyn sample_clock ct0 4%positive "watcher.level" (Value_int 7) in sret true) b'.
Proof.
  destruct (@exported_register_is_writable no_dyn sample_clock ct0 4%positive tank tank_kind tank_exports tank_bus tank_exportable)
    as (b' & e' & H1 & H2 & H3).
  exists b'. split; [exact H1 |].
  assert (exists e1, exported b' !! (4%positive : ptr) = Some e1 /\ exports_map e1 !! "watcher.level"%string = Some tank_level) as (e1 & E1 & E2).
  { assert (@setupModbusInterface no_dyn sample_clock 4%positive tank_bus = Ok (tt, tank_ready)) as Hr by (vm_compute; reflexivity).
    rewrite Hr in H1. injection H1 as <-. exists (default tank_exports (exported tank_ready !! 4%positive)).
    split; vm_compute; reflexivity. }
  rewrite H2 in E1. injection E1 as <-.
  exact (H3 "watcher.level"%string tank_level Value_empty 7 E2 eq_refl ltac:(unfold INT_MIN, INT_MAX; lia)).
Defined.
