(* ===== verification/Json.v ===== *)
(** JSON items and texts (cJSON.h, cJSON.c): the tree of items, its printer and its
    parser.

    The chain of siblings ([next], [prev]) below an item is the list [child].
    A text is a C string: the list of its characters before the terminating NUL.
    Reading the terminator is reading 0; moving past it is [Undef], since what
    the code reads there is not part of the text. Buffers have the size the code
    allocates, and writing past it is [Undef]. Allocation does not fail, and
    references ([cJSON_IsReference]) are not used by the program. *)
From S2P Require Import Prelude Cnum.
From Stdlib Require Import SpecFloat Ascii.
Open Scope Z_scope.
Open Scope list_scope.

(** ** Items *)
Inductive cJSON_type :=
| cJSON_False | cJSON_True | cJSON_NULL | cJSON_Number | cJSON_String | cJSON_Array | cJSON_Object.
#[export] Instance cJSON_type_eq_dec : EqDecision cJSON_type.
Proof. solve_decision. Defined.

(** The tagged union of [cJSON_Number_t]. *)
Inductive cJSON_Number_t :=
| cJSON_Number_int_t (z : Z)
| cJSON_Number_double_t (d : double).

Inductive cJSON := mkItem {
  jtype : cJSON_type;
  valuestring : option (list ascii);
  valueNumber : cJSON_Number_t;
  jname : option (list ascii);
  child : list cJSON
}.

(** [cJSON_New_Item]: all zero. *)
Definition cJSON_New_Item : cJSON := mkItem cJSON_False None (cJSON_Number_int_t 0) None [].

Definition set_type (t : cJSON_type) (i : cJSON) : cJSON :=
  mkItem t (valuestring i) (valueNumber i) (jname i) (child i).
Definition set_text (s : list ascii) (i : cJSON) : cJSON :=
  mkItem cJSON_String (Some s) (valueNumber i) (jname i) (child i).
Definition set_number (n : cJSON_Number_t) (i : cJSON) : cJSON :=
  mkItem cJSON_Number (valuestring i) n (jname i) (child i).
Definition set_valueint (z : Z) (i : cJSON) : cJSON :=
  mkItem (jtype i) (valuestring i) (cJSON_Number_int_t z) (jname i) (child i).
Definition set_child (cs : list cJSON) (i : cJSON) : cJSON :=
  mkItem (jtype i) (valuestring i) (valueNumber i) (jname i) cs.
Definition set_name (s : list ascii) (i : cJSON) : cJSON :=
  mkItem (jtype i) (valuestring i) (valueNumber i) (Some s) (child i).
(** [child->string = child->valuestring; child->valuestring = 0]. *)
Definition take_name (i : cJSON) : cJSON :=
  mkItem (jtype i) None (valueNumber i) (valuestring i) (child i).

Definition cJSON_CreateNull : cJSON := set_type cJSON_NULL cJSON_New_Item.
Definition cJSON_CreateTrue : cJSON := set_type cJSON_True cJSON_New_Item.
Definition cJSON_CreateFalse : cJSON := set_type cJSON_False cJSON_New_Item.
Definition cJSON_CreateDouble (d : double) : cJSON :=
  set_number (cJSON_Number_double_t d) cJSON_New_Item.
Definition cJSON_CreateLong (z : Z) : cJSON := set_number (cJSON_Number_int_t z) cJSON_New_Item.
Definition cJSON_CreateString (s : list ascii) : cJSON := set_text (c_str s) cJSON_New_Item.
Definition cJSON_CreateArray : cJSON := set_type cJSON_Array cJSON_New_Item.
Definition cJSON_CreateObject : cJSON := set_type cJSON_Object cJSON_New_Item.

Definition cJSON_AddItemToArray (array item : cJSON) : cJSON :=
  set_child (child array ++ [item]) array.
Definition cJSON_AddItemToObject (object : cJSON) (name : list ascii) (item : cJSON) : cJSON :=
  cJSON_AddItemToArray object (set_name (c_str name) item).

(** [cJSON_strcasecmp (s1, s2) == 0], for a name that may be null. *)
Definition cJSON_strcasecmp (s1 : option (list ascii)) (s2 : list ascii) : bool :=
  match s1 with
  | None => false
  | Some s => bool_decide (map lower (c_str s) = map lower (c_str s2))
  end.

(** The accessors dereference their argument. *)
Definition cJSON_GetArraySize (array : option cJSON) : res Z :=
  a ← rd array; Ok (Z.of_nat (length (child a))).
Definition cJSON_GetArrayItem (array : option cJSON) (item : Z) : res (option cJSON) :=
  a ← rd array; Ok (child a !! Z.to_nat item).
Definition cJSON_GetObjectItem (object : option cJSON) (name : list ascii) : res (option cJSON) :=
  o ← rd object; Ok (List.find (fun c => cJSON_strcasecmp (jname c) name) (child o)).

(** ** Printing *)
(** Writing [l] and its NUL into a buffer of [len] bytes. *)
Definition fill (len : Z) (l : list ascii) : res (list ascii) :=
  if Z.of_nat (length l) + 1 <=? len then Ok l else Undef.

Definition f_1em6 : double := Eval vm_compute in dec_float false 1 (-6).
Definition f_1e9 : double := Eval vm_compute in dec_float false 1 9.

Definition print_number (item : cJSON) : list ascii :=
  match valueNumber item with
  | cJSON_Number_int_t z => snprintf_buf 21 (print_long z)
  | cJSON_Number_double_t d =>
      if negb (feqb d fzero) && (fltb (fabs d) f_1em6 || fltb f_1e9 (fabs d))
      then snprintf_buf 64 (print_e20 d) else snprintf_buf 64 (print_lf d)
  end.

(** The bytes one character becomes: itself, an escape, or nothing for the other
    control characters. *)
Definition escape (c : ascii) : list ascii :=
  if (31 <? code c) && negb (code c =? 34) && negb (code c =? 92) then [c]
  else if code c =? 92 then [chr 92; chr 92]
  else if code c =? 34 then [chr 92; chr 34]
  else if code c =? 8 then [chr 92; chr 98]
  else if code c =? 12 then [chr 92; chr 102]
  else if code c =? 10 then [chr 92; chr 110]
  else if code c =? 13 then [chr 92; chr 114]
  else if code c =? 9 then [chr 92; chr 116]
  else [].
(** The room counted for a character. *)
Definition escape_room (c : ascii) : Z :=
  if (code c <? 32) || (code c =? 34) || (code c =? 92) then 2 else 1.

Definition print_string_ptr (s : option (list ascii)) : res (list ascii) :=
  match s with
  | None => Ok []
  | Some s =>
      let len := foldr (fun c n => escape_room c + n) 0 (c_str s) in
      fill (len + 3) (chr 34 :: concat (map escape (c_str s)) ++ [chr 34])
  end.
Definition print_string (item : cJSON) : res (list ascii) := print_string_ptr (valuestring item).

(** The results of the children, in order. *)
Fixpoint collect {A} (l : list (res A)) : res (list A) :=
  match l with
  | [] => Ok []
  | x :: l' => a ← x; r ← collect l'; Ok (a :: r)
  end.

Definition b2z (b : bool) : Z := if b then 1 else 0.

(** The entries separated by [","] (and a space when formatted). *)
Fixpoint join (sep : list ascii) (l : list (list ascii)) : list ascii :=
  match l with
  | [] => []
  | [x] => x
  | x :: l' => x ++ sep ++ join sep l'
  end.

Definition print_array (fmt : bool) (entries : list (list ascii)) : res (list ascii) :=
  let len := foldr (fun e n => Z.of_nat (length e) + 2 + b2z fmt + n) 5 entries in
  fill len ([chr 91] ++ join (chr 44 :: if fmt then [chr 32] else []) entries ++ [chr 93]).

(** One member of an object: tabs, name, [":"], value, and [","] unless it is the
    last. *)
Definition print_member (fmt : bool) (depth : nat) (last : bool) (m : list ascii * list ascii)
    : list ascii :=
  (if fmt then repeat (chr 9) depth else []) ++ fst m ++ [chr 58] ++
  (if fmt then [chr 9] else []) ++ snd m ++
  (if last then [] else [chr 44]) ++ (if fmt then [chr 10] else []).
Fixpoint print_members (fmt : bool) (depth : nat) (l : list (list ascii * list ascii))
    : list ascii :=
  match l with
  | [] => []
  | m :: l' =>
      print_member fmt depth (match l' with [] => true | _ => false end) m
      ++ print_members fmt depth l'
  end.
(** [depth] is the depth of the members, one more than that of the object. *)
Definition print_object (fmt : bool) (depth : nat) (l : list (list ascii * list ascii))
    : res (list ascii) :=
  let len := foldr (fun m n => Z.of_nat (length (snd m)) + Z.of_nat (length (fst m)) + 2 +
               (if fmt then 2 + Z.of_nat depth else 0) + n)
               (7 + if fmt then Z.of_nat depth else 0) l in
  fill len ([chr 123] ++ (if fmt then [chr 10] else []) ++ print_members fmt depth l ++
    (if fmt then repeat (chr 9) (depth - 1) else []) ++ [chr 125]).

Fixpoint print_value (item : cJSON) (depth : nat) (fmt : bool) : res (list ascii) :=
  match item with
  | mkItem t vs n _ cs =>
      match t with
      | cJSON_NULL => Ok (String.list_ascii_of_string "null")
      | cJSON_False => Ok (String.list_ascii_of_string "false")
      | cJSON_True => Ok (String.list_ascii_of_string "true")
      | cJSON_Number => Ok (print_number item)
      | cJSON_String => print_string item
      | cJSON_Array =>
          entries ← collect (map (fun c => print_value c (S depth) fmt) cs);
          print_array fmt entries
      | cJSON_Object =>
          members ← collect (map (fun c =>
            name ← print_string_ptr (jname c);
            v ← print_value c (S depth) fmt; Ok (name, v)) cs);
          print_object fmt (S depth) members
      end
  end.
Definition cJSON_Print (item : cJSON) : res (list ascii) := print_value item 0 true.
Definition cJSON_PrintUnformatted (item : cJSON) : res (list ascii) := print_value item 0 false.

(** ** Parsing *)
(** [*p]. *)
Definition peek (l : list ascii) : Z := match l with [] => 0 | c :: _ => code c end.
(** [p + 1], where the code reads next. *)
Definition advance (l : list ascii) : res (list ascii) :=
  match l with [] => Undef | _ :: l' => Ok l' end.

(** [skip]: the loop tests only [*in <= 32], which holds of the terminator. *)
Fixpoint skip (l : list ascii) : res (list ascii) :=
  match l with
  | [] => Undef
  | c :: l' => if code c <=? 32 then skip l' else Ok l
  end.

(** *** Numbers *)
(** [pow] of the C library. *)
Class Libm := { pow : double -> double -> double }.

Definition f_10 : double := Eval vm_compute in float_of_Z 10.
(** A plain [char] is signed. *)
Definition schar (c : ascii) : Z := if 128 <=? code c then code c - 256 else code c.
Definition nonzero_digit (z : Z) : bool := (49 <=? z) && (z <=? 57).
Definition digit_code (z : Z) : bool := (48 <=? z) && (z <=? 57).

(** [n = n * 10 + ( *num++ - '0')] while a digit follows. *)
Fixpoint int_digits (n : Z) (l : list ascii) : res (Z * list ascii) :=
  match l with
  | c :: l' =>
      if is_digit c then m ← long_of (n * 10); m' ← long_of (m + (schar c - 48)); int_digits m' l'
      else Ok (n, l)
  | [] => Ok (n, [])
  end.
Definition frac_step (d : double) (c : ascii) : double :=
  fadd (fmul d f_10) (float_of_Z (schar c - 48)).
(** The rest of the [do] loop over the fraction: [scale] counts downwards. *)
Fixpoint frac_digits (d : double) (scale : Z) (l : list ascii) : double * Z * list ascii :=
  match l with
  | c :: l' => if is_digit c then frac_digits (frac_step d c) (scale - 1) l' else (d, scale, l)
  | [] => (d, scale, [])
  end.
Fixpoint exp_value (n : Z) (l : list ascii) : res (Z * list ascii) :=
  match l with
  | c :: l' =>
      if is_digit c then m ← int_of (n * 10); m' ← int_of (m + (schar c - 48)); exp_value m' l'
      else Ok (n, l)
  | [] => Ok (n, [])
  end.

(** The fractional part: its first character is taken as it is, a digit or not. *)
Definition parse_fraction (n : Z) (l : list ascii) : res (cJSON_Number_t * Z * list ascii) :=
  if peek l =? 46 then
    match l with
    | _ :: c :: l' =>
        let '(d, scale, l2) := frac_digits (frac_step (float_of_Z n) c) (-1) l' in
        Ok (cJSON_Number_double_t d, scale, l2)
    | _ => Undef
    end
  else Ok (cJSON_Number_int_t n, 0, l).
(** The exponent, with its sign, and whether there is one. *)
Definition parse_exponent (l : list ascii) : res (bool * Z * list ascii) :=
  match l with
  | c :: l' =>
      if (code c =? 101) || (code c =? 69) then
        let '(neg, l2) := take_sign l' in
        '(s, l3) ← exp_value 0 l2;
        Ok (true, if neg : bool then - s else s, l3)
      else Ok (false, 0, l)
  | [] => Ok (false, 0, [])
  end.

Section Parser.
Context `{Libm}.

Definition f_sign (neg : bool) : double := float_of_Z (if neg then -1 else 1).

(** [parse_number]: [sign] is a double, so that an integer goes through a double. *)
Definition parse_number (item : cJSON) (l : list ascii) : res (cJSON * list ascii) :=
  let neg := peek l =? 45 in
  l1 ← (if neg then advance l else Ok l);
  l2 ← (if peek l1 =? 48 then advance l1 else Ok l1);
  '(n, l3) ← (if nonzero_digit (peek l2) then int_digits 0 l2 else Ok (0, l2));
  '(num, scale, l4) ← parse_fraction n l3;
  '(exponent, subscale, l5) ← parse_exponent l4;
  match num with
  | cJSON_Number_int_t n =>
      if exponent : bool then
        let d := fmul (fmul (f_sign neg) (float_of_Z n)) (pow f_10 (float_of_Z (scale + subscale))) in
        Ok (set_number (cJSON_Number_double_t d) item, l5)
      else
        z ← long_of_float (fmul (f_sign neg) (float_of_Z n));
        Ok (set_number (cJSON_Number_int_t z) item, l5)
  | cJSON_Number_double_t d =>
      let d' := fmul (fmul (f_sign neg) d) (pow f_10 (float_of_Z (scale + subscale))) in
      Ok (set_number (cJSON_Number_double_t d') item, l5)
  end.

(** *** Strings *)
(** The first loop of [parse_string]: how many bytes are allocated, less one. *)
Fixpoint string_room (l : list ascii) : res Z :=
  match l with
  | [] => Ok 0
  | c :: l' =>
      if (code c =? 34) || (code c <=? 31) then Ok 0
      else if code c =? 92 then
        match l' with [] => Undef | _ :: l'' => n ← string_room l''; Ok (n + 1) end
      else n ← string_room l'; Ok (n + 1)
  end.

(** [sscanf (l, "%4x", &uc)]: [None] when nothing matches. *)
Definition scan_4x (l : list ascii) : option Z :=
  let '(neg, l1) := take_sign (take 4 (snd (span is_space l))) in
  let l2 := match l1 with
            | z :: x :: l' => if (code z =? 48) && (code (lower x) =? 120) then l' else l1
            | _ => l1
            end in
  match fst (span is_hex l2) with
  | [] => None
  | ds => Some (u32 (if neg : bool then - hex_digits_val ds else hex_digits_val ds))
  end.

(** The bytes written for a code unit. *)
Definition utf8 (uc : Z) : list ascii :=
  let tail z := chr (Z.land (Z.lor z 128) 191 mod 256) in
  if uc <? 128 then [chr uc]
  else if uc <? 2048 then [chr (Z.lor (Z.shiftr uc 6) 192 mod 256); tail uc]
  else [chr (Z.lor (Z.shiftr uc 12) 224 mod 256); tail (Z.shiftr uc 6); tail uc].

(** The character an escape other than [\u] stands for. *)
Definition unescape (c : ascii) : ascii :=
  if code c =? 98 then chr 8
  else if code c =? 102 then chr 12
  else if code c =? 110 then chr 10
  else if code c =? 114 then chr 13
  else if code c =? 116 then chr 9
  else c.

(** The second loop: [room] bytes are left in the buffer, one of them for the
    final NUL; [uc] keeps the last code unit scanned. *)
Fixpoint string_bytes (room : Z) (uc : option Z) (l : list ascii)
    : res (list ascii * list ascii) :=
  match l with
  | [] => if room <? 1 then Undef else Ok ([], [])
  | c :: l' =>
      if (code c =? 34) || (code c <=? 31) then if room <? 1 then Undef else Ok ([], l)
      else if code c =? 92 then
        match l' with
        | [] => Undef
        | e :: l'' =>
            if code e =? 117 then
              match l'' with
              | _ :: _ :: _ :: _ :: l4 =>
                  uc' ← rd (match scan_4x l'' with Some u => Some u | None => uc end);
                  let bs := utf8 uc' in
                  let room' := room - Z.of_nat (length bs) in
                  if room' <? 0 then Undef else
                  '(out, rest) ← string_bytes room' (Some uc') l4; Ok (bs ++ out, rest)
              | _ => Undef
              end
            else
              if room <? 1 then Undef else
              '(out, rest) ← string_bytes (room - 1) uc l''; Ok (unescape e :: out, rest)
        end
      else
        if room <? 1 then Undef else
        '(out, rest) ← string_bytes (room - 1) uc l'; Ok (c :: out, rest)
  end.

(** [parse_string]; the result is read as a C string. *)
Definition parse_string (item : cJSON) (l : list ascii) : res (option (cJSON * list ascii)) :=
  if negb (peek l =? 34) then Ok None else
  l1 ← advance l;
  len ← string_room l1;
  '(out, rest) ← string_bytes (len + 1) None l1;
  Ok (Some (set_text (c_str out) item, if peek rest =? 34 then drop 1 rest else rest)).

(** *** Values *)
(** [strncmp (value, p, strlen (p)) == 0]. *)
Definition starts_with (p : string) (l : list ascii) : bool :=
  bool_decide (take (String.length p) l = String.list_ascii_of_string p).

(** [skip (parse (...))]: null stays null. *)
Definition then_skip (r : res (option (cJSON * list ascii))) : res (option (cJSON * list ascii)) :=
  o ← r;
  match o with
  | None => Ok None
  | Some (i, l) => l' ← skip l; Ok (Some (i, l'))
  end.

Section Nested.
Variable parse : cJSON -> list ascii -> res (option (cJSON * list ascii)).

(** The elements of an array after the first; [n] bounds the rounds. *)
Fixpoint parse_elements (n : nat) (acc : list cJSON) (l : list ascii)
    : res (option (list cJSON * list ascii)) :=
  if negb (peek l =? 44) then Ok (Some (acc, l)) else
  match n with
  | O => Undef
  | S n' =>
      l1 ← advance l; l2 ← skip l1;
      o ← then_skip (parse cJSON_New_Item l2);
      match o with
      | None => Ok None
      | Some (i, l3) => parse_elements n' (acc ++ [i]) l3
      end
  end.
Definition parse_array (n : nat) (item : cJSON) (l : list ascii)
    : res (option (cJSON * list ascii)) :=
  if negb (peek l =? 91) then Ok None else
  l1 ← advance l; l2 ← skip l1;
  let item := set_type cJSON_Array item in
  if peek l2 =? 93 then Ok (Some (item, drop 1 l2)) else
  l3 ← skip l2;
  o ← then_skip (parse cJSON_New_Item l3);
  match o with
  | None => Ok None
  | Some (i, l4) =>
      o2 ← parse_elements n [i] l4;
      match o2 with
      | None => Ok None
      | Some (cs, l5) => Ok (if peek l5 =? 93 then Some (set_child cs item, drop 1 l5) else None)
      end
  end.

(** A name, [":"] and a value; the text is at the name. *)
Definition parse_member (l : list ascii) : res (option (cJSON * list ascii)) :=
  o ← then_skip (parse_string cJSON_New_Item l);
  match o with
  | None => Ok None
  | Some (i, l1) =>
      if negb (peek l1 =? 58) then Ok None else
      l2 ← advance l1; l3 ← skip l2;
      then_skip (parse (take_name i) l3)
  end.
Fixpoint parse_members (n : nat) (acc : list cJSON) (l : list ascii)
    : res (option (list cJSON * list ascii)) :=
  if negb (peek l =? 44) then Ok (Some (acc, l)) else
  match n with
  | O => Undef
  | S n' =>
      l1 ← advance l; l2 ← skip l1;
      o ← parse_member l2;
      match o with
      | None => Ok None
      | Some (i, l3) => parse_members n' (acc ++ [i]) l3
      end
  end.
Definition parse_object (n : nat) (item : cJSON) (l : list ascii)
    : res (option (cJSON * list ascii)) :=
  if negb (peek l =? 123) then Ok None else
  l1 ← advance l; l2 ← skip l1;
  let item := set_type cJSON_Object item in
  if peek l2 =? 125 then Ok (Some (item, drop 1 l2)) else
  l3 ← skip l2;
  o ← parse_member l3;
  match o with
  | None => Ok None
  | Some (i, l4) =>
      o2 ← parse_members n [i] l4;
      match o2 with
      | None => Ok None
      | Some (cs, l5) => Ok (if peek l5 =? 125 then Some (set_child cs item, drop 1 l5) else None)
      end
  end.
End Nested.

(** [parse_value]; [n] bounds the nesting and the rounds of the loops below it. *)
Fixpoint parse_value (n : nat) (item : cJSON) (l : list ascii)
    : res (option (cJSON * list ascii)) :=
  match n with
  | O => Undef
  | S n' =>
      if starts_with "null" l then Ok (Some (set_type cJSON_NULL item, drop 4 l))
      else if starts_with "false" l then Ok (Some (set_type cJSON_False item, drop 5 l))
      else if starts_with "true" l
      then Ok (Some (set_valueint 1 (set_type cJSON_True item), drop 4 l))
      else if peek l =? 34 then parse_string item l
      else if (peek l =? 45) || digit_code (peek l) then Some <$> parse_number item l
      else if peek l =? 91 then parse_array (parse_value n') n' item l
      else if peek l =? 123 then parse_object (parse_value n') n' item l
      else Ok None
  end.

(** [cJSON_Parse], on a text without NUL. *)
Definition cJSON_Parse (value : list ascii) : res (option cJSON) :=
  l ← skip value;
  o ← parse_value (S (length l)) cJSON_New_Item l;
  Ok (match o with Some (i, _) => Some i | None => None end).
End Parser.
