(* ===== verification/JsonProps.v ===== *)
(** Properties of the JSON printer and parser: what is printed is read back. *)
From S2P Require Import Prelude Cnum Json.
From Stdlib Require Import Ascii SpecFloat Zpower.
Open Scope Z_scope.
Open Scope list_scope.

(** ** Integers that go through a double *)
Lemma shift_pos_digits d m : Z.pos (digits2_pos (shift_pos d m)) = Z.pos d + Z.pos (digits2_pos m).
Proof.
  unfold shift_pos. induction d as [|d IH] using Pos.peano_ind; [cbn; lia |].
  rewrite Pos.iter_succ. cbn [digits2_pos]. lia.
Qed.
Lemma fexp_normal e : -1074 <= e -> fexp prec64 emax64 (53 + e) = e.
Proof. unfold fexp, emin, prec64, emax64. lia. Qed.

(** A mantissa of 53 bits is kept as it is. *)
Lemma round_aux_exact s m e : Z.pos (digits2_pos m) = 53 -> -1074 <= e <= 971 ->
  binary_round_aux prec64 emax64 s (Z.pos m) e loc_Exact = S754_finite s m e.
Proof.
  intros Hd He. unfold binary_round_aux, shr_fexp. cbn [Zdigits2].
  rewrite Hd, fexp_normal by lia. rewrite Z.sub_diag. cbn.
  rewrite Hd, fexp_normal by lia. rewrite Z.sub_diag. cbn.
  replace (e <=? emax64 - prec64) with true by (symmetry; apply Z.leb_le; unfold emax64, prec64; lia). done.
Qed.
(** So is one with 52 more zeros. *)
Lemma round_aux_shifted s m e : Z.pos (digits2_pos m) = 53 -> -1074 <= e <= 971 ->
  binary_round_aux prec64 emax64 s (Z.pos (4503599627370496 * m)) (e - 52) loc_Exact
  = S754_finite s m e.
Proof.
  intros Hd He. unfold binary_round_aux. unfold shr_fexp at 1.
  assert (Zdigits2 (Z.pos (4503599627370496 * m)) + (e - 52) = 53 + e) as ->.
  { cbn [Zdigits2]. change (4503599627370496 * m)%positive with (shift_pos 52 m).
    rewrite shift_pos_digits. lia. }
  rewrite fexp_normal by lia. replace (e - (e - 52)) with 52 by lia.
  cbn [shr shr_record_of_loc].
  assert (forall p, iter_pos shr_1 52 (Build_shr_record (Z.pos (4503599627370496 * p)) false false)
    = Build_shr_record (Z.pos p) false false) as -> by reflexivity.
  replace (e - 52 + 52) with e by lia. cbn [loc_of_shr_record round_nearest_even shr_m].
  unfold shr_fexp. cbn [Zdigits2]. rewrite Hd, fexp_normal by lia. rewrite Z.sub_diag. cbn.
  replace (e <=? emax64 - prec64) with true by (symmetry; apply Z.leb_le; unfold emax64, prec64; lia). done.
Qed.

Lemma digits2_bound m k : Z.pos m < 2 ^ k -> 0 <= k -> Z.pos (digits2_pos m) <= k.
Proof.
  revert k. induction m as [m IH | m IH |]; intros k Hm Hk; cbn [digits2_pos].
  1,2: destruct (Z.eq_dec k 0) as [-> |]; [lia |];
    replace k with (Z.succ (k - 1)) in Hm by lia; rewrite Z.pow_succ_r in Hm by lia;
    specialize (IH (k - 1)); lia.
  destruct (Z.eq_dec k 0) as [-> |]; lia.
Qed.

(** The double of a positive integer below [2^53]. *)
Lemma float_of_pos m : Z.pos m < 2 ^ 53 -> exists M E, float_of_Z (Z.pos m) = S754_finite false M E
  /\ Z.pos (digits2_pos M) = 53 /\ -53 < E <= 0 /\ Z.pos M = Z.pos m * 2 ^ (- E).
Proof.
  intros Hm. pose proof (digits2_bound m 53 Hm ltac:(lia)) as Hd.
  unfold float_of_Z, binary_normalize, binary_round, shl_align.
  replace (fexp prec64 emax64 (Z.pos (digits2_pos m) + 0) - 0) with (Z.pos (digits2_pos m) - 53)
    by (unfold fexp, emin, prec64, emax64; lia).
  replace (fexp prec64 emax64 (Z.pos (digits2_pos m) + 0)) with (Z.pos (digits2_pos m) - 53)
    by (unfold fexp, emin, prec64, emax64; lia).
  destruct (Z.pos (digits2_pos m) - 53) as [|p|p] eqn:E; [|lia|].
  - exists m, 0. rewrite round_aux_exact by lia. repeat split; lia.
  - change (Pos.iter xO m p) with (shift_pos p m). exists (shift_pos p m), (Z.neg p).
    assert (Z.pos (digits2_pos (shift_pos p m)) = 53) by (rewrite shift_pos_digits; lia).
    rewrite round_aux_exact by lia. repeat split; [done | lia | lia |].
    by rewrite shift_pos_correct, Z.mul_comm.
Qed.

(** An integer of at most 53 bits survives the detour through a double. *)
Lemma double_detour neg n : 0 <= n <= 2 ^ 53 ->
  long_of_float (fmul (f_sign neg) (float_of_Z n)) = Ok (if neg : bool then - n else n).
Proof.
  intros Hn. destruct (decide (n = 2 ^ 53)) as [-> | Hlt]; [by destruct neg |].
  destruct n as [|m|]; [by destruct neg | | lia].
  destruct (float_of_pos m) as (M & E & -> & Hd & HE & HM); [lia |].
  assert (fmul (f_sign neg) (S754_finite false M E) = S754_finite neg M E) as ->.
  { unfold fmul.
    assert (f_sign neg = S754_finite neg 4503599627370496 (-52)) as -> by (by destruct neg).
    cbn [SFmul]. rewrite xorb_false_r. replace (-52 + E) with (E - 52) by lia.
    apply round_aux_shifted; lia. }
  assert (trunc_mag M E = Z.pos m) as Ht.
  { unfold trunc_mag. destruct (Z.leb_spec 0 E).
    - replace E with 0 in * by lia. lia.
    - rewrite HM, Z.div_mul; [done |]. apply Z.pow_nonzero; lia. }
  unfold long_of_float, ftrunc, to_long. rewrite Ht.
  assert (LONG_MIN <= - 2 ^ 53 /\ 2 ^ 53 <= LONG_MAX) as [??] by (split; done).
  destruct neg; apply long_of_ok; lia.
Qed.

(** ** Texts *)
Definition no_nul (s : list ascii) : Prop := Forall (fun c => code c <> 0) s.
(** The characters the printer keeps. *)
Definition kept (c : ascii) : bool := match escape c with [] => false | _ => true end.
Definition visible (s : list ascii) : list ascii := List.filter kept s.

Lemma c_str_no_nul s : no_nul (c_str s).
Proof. induction s as [|c s IH]; cbn; [constructor |]. case_match eqn:E; constructor; [lia | done]. Qed.
Lemma c_str_id s : no_nul s -> c_str s = s.
Proof.
  induction 1 as [|c s Hc _ IH]; cbn; [done |].
  destruct (Z.eqb_spec (code c) 0); [done | by rewrite IH].
Qed.
Lemma visible_no_nul s : no_nul s -> no_nul (visible s).
Proof. induction 1 as [|c s Hc _ IH]; cbn; [constructor |]. case_match; [by constructor | done]. Qed.

Ltac all_chars c := destruct c as [[][][][][][][][]].

Lemma string_room_escape c t : string_room (escape c ++ t) =
  if kept c then n ← string_room t; Ok (n + 1) else string_room t.
Proof. all_chars c; reflexivity. Qed.
Lemma string_bytes_escape c room uc t : code c <> 0 -> string_bytes room uc (escape c ++ t) =
  if kept c then
    if room <? 1 then Undef else
    '(out, rest) ← string_bytes (room - 1) uc t; Ok (c :: out, rest)
  else string_bytes room uc t.
Proof. all_chars c; intros Hc; first [reflexivity | by destruct Hc]. Qed.
Lemma escape_room_ok c : Z.of_nat (length (escape c)) <= escape_room c.
Proof. all_chars c; vm_compute; congruence. Qed.

Lemma string_room_printed s rest : string_room (concat (map escape s) ++ chr 34 :: rest)
  = Ok (Z.of_nat (length (visible s))).
Proof.
  induction s as [|c s IH]; cbn [map concat]; [done |].
  rewrite <- app_assoc, string_room_escape, IH. cbn [visible List.filter].
  destruct (kept c); [|done]. cbn. f_equal. unfold visible. lia.
Qed.
Lemma string_bytes_printed s uc rest : no_nul s ->
  string_bytes (Z.of_nat (length (visible s)) + 1) uc (concat (map escape s) ++ chr 34 :: rest)
  = Ok (visible s, chr 34 :: rest).
Proof.
  intros Hs. induction Hs as [|c s Hc _ IH]; cbn [map concat]; [done |].
  rewrite <- app_assoc, string_bytes_escape by done. cbn [visible List.filter].
  destruct (kept c); [|done]. cbn [length].
  destruct (Z.ltb_spec (Z.of_nat (S (length (List.filter kept s))) + 1) 1); [lia |].
  replace (Z.of_nat (S (length (List.filter kept s))) + 1 - 1)
    with (Z.of_nat (length (visible s)) + 1) by (unfold visible; lia).
  by rewrite IH.
Qed.

(** The text a string is printed as. *)
Definition string_text (s : list ascii) : list ascii :=
  chr 34 :: concat (map escape (c_str s)) ++ [chr 34].
Lemma print_string_ok s : print_string_ptr (Some s) = Ok (string_text s).
Proof.
  unfold print_string_ptr, fill.
  assert (Z.of_nat (length (concat (map escape (c_str s))))
    <= foldr (fun c n => escape_room c + n) 0 (c_str s)) as Hl.
  { induction (c_str s) as [|c l IH]; cbn [map concat foldr]; [done |].
    rewrite length_app. pose proof (escape_room_ok c). lia. }
  case_match eqn:E; [done |]. apply Z.leb_gt in E. cbn [length] in E.
  rewrite length_app in E. cbn [length] in E. lia.
Qed.

(** A printed string is read back without its control characters. *)
Lemma parse_printed_string item s rest :
  parse_string item (string_text s ++ rest) = Ok (Some (set_text (visible (c_str s)) item, rest)).
Proof.
  pose proof (c_str_no_nul s) as Hs. unfold parse_string, string_text. cbn [app peek].
  replace (code (chr 34)) with 34 by done. cbn [negb Z.eqb Pos.eqb advance mbind res_bind].
  rewrite <- app_assoc. cbn [app]. rewrite string_room_printed. cbn [mbind res_bind].
  rewrite string_bytes_printed by done. cbn.
  by rewrite c_str_id by (by apply visible_no_nul).
Qed.

(** ** Numbers *)
(** What may follow a number. *)
Definition stops (l : list ascii) : bool :=
  negb (digit_code (peek l) || (peek l =? 46) || (peek l =? 101) || (peek l =? 69) ||
        (peek l =? 43) || (peek l =? 45)).
Definition stop_char (c : ascii) : Prop :=
  is_digit c = false /\ (code c =? 46) = false /\ (code c =? 101) || (code c =? 69) = false /\
  (code c =? 43) = false /\ (code c =? 45) = false.

Lemma stops_cons l : stops l = true -> match l with c :: _ => stop_char c | [] => True end.
Proof.
  destruct l as [|c l]; [done |]. unfold stops, stop_char, digit_code, is_digit. cbn [peek].
  destruct (48 <=? code c), (code c <=? 57), (code c =? 46), (code c =? 101), (code c =? 69),
    (code c =? 43), (code c =? 45); cbn; intros; repeat split; congruence.
Qed.

(** The pieces of a number do not look past a character that stops it. *)
Section Stops.
Variable rest : list ascii.
Hypothesis rest_stops : stops rest = true.

Lemma peek_app l z : digit_code z || (z =? 46) || (z =? 45) = true ->
  (peek (l ++ rest) =? z) = (peek l =? z).
Proof.
  intros Hz. destruct l as [|c l]; [|done]. cbn [app peek].
  assert (z <> 0) by (unfold digit_code in Hz; lia).
  destruct (Z.eqb_spec 0 z); [lia |]. unfold stops in rest_stops. apply Z.eqb_neq. intros Hp.
  rewrite Hp in *. unfold digit_code in *. lia.
Qed.
Lemma nonzero_digit_app l : nonzero_digit (peek (l ++ rest)) = nonzero_digit (peek l).
Proof.
  destruct l as [|c l]; [|done]. cbn [app peek]. unfold stops in rest_stops.
  unfold digit_code, nonzero_digit in *. lia.
Qed.
Lemma advance_app l l' : advance l = Ok l' -> advance (l ++ rest) = Ok (l' ++ rest).
Proof. destruct l; cbn; [done |]. by intros [= ->]. Qed.

Lemma int_digits_app n l m l' : int_digits n l = Ok (m, l') ->
  int_digits n (l ++ rest) = Ok (m, l' ++ rest).
Proof.
  pose proof (stops_cons _ rest_stops) as Hr. revert n. induction l as [|c l IH]; intros n Hl; cbn in *.
  - injection Hl as -> <-. destruct rest as [|c r]; [done |]. destruct Hr as [Hc _]. cbn. by rewrite Hc.
  - destruct (is_digit c); [|by simplify_eq]. destruct (long_of (n * 10)) as [a| |]; cbn in *; [|done..].
    destruct (long_of (a + (schar c - 48))) as [b| |]; cbn in *; [|done..]. by apply IH.
Qed.
Lemma exp_value_app n l m l' : exp_value n l = Ok (m, l') ->
  exp_value n (l ++ rest) = Ok (m, l' ++ rest).
Proof.
  pose proof (stops_cons _ rest_stops) as Hr. revert n. induction l as [|c l IH]; intros n Hl; cbn in *.
  - injection Hl as -> <-. destruct rest as [|c r]; [done |]. destruct Hr as [Hc _]. cbn. by rewrite Hc.
  - destruct (is_digit c); [|by simplify_eq]. destruct (int_of (n * 10)) as [a| |]; cbn in *; [|done..].
    destruct (int_of (a + (schar c - 48))) as [b| |]; cbn in *; [|done..]. by apply IH.
Qed.
Lemma frac_digits_app d k l d' k' l' : frac_digits d k l = (d', k', l') ->
  frac_digits d k (l ++ rest) = (d', k', l' ++ rest).
Proof.
  pose proof (stops_cons _ rest_stops) as Hr. revert d k. induction l as [|c l IH]; intros d k Hl; cbn in *.
  - injection Hl as -> -> <-. destruct rest as [|c r]; [done |]. destruct Hr as [Hc _]. cbn. by rewrite Hc.
  - destruct (is_digit c); [by apply IH | by simplify_eq].
Qed.
Lemma take_sign_app l b l' : take_sign l = (b, l') -> take_sign (l ++ rest) = (b, l' ++ rest).
Proof.
  pose proof (stops_cons _ rest_stops) as Hr. destruct l as [|c l]; cbn.
  - intros [= <- <-]. destruct rest as [|c r]; [done |]. destruct Hr as (_ & _ & _ & Hp & Hm).
    cbn. by rewrite Hm, Hp.
  - by repeat case_match; intros [= <- <-].
Qed.
Lemma parse_fraction_app n l num k l' : parse_fraction n l = Ok (num, k, l') ->
  parse_fraction n (l ++ rest) = Ok (num, k, l' ++ rest).
Proof.
  unfold parse_fraction. rewrite peek_app by done.
  destruct (peek l =? 46); [|by intros [= <- <- <-]].
  destruct l as [|c [|c2 l]]; [done.. |]. cbn [app].
  destruct (frac_digits _ _ l) as [[d k2] l2] eqn:E. rewrite (frac_digits_app _ _ _ _ _ _ E).
  by intros [= <- <- <-].
Qed.
Lemma parse_exponent_app l b s l' : parse_exponent l = Ok (b, s, l') ->
  parse_exponent (l ++ rest) = Ok (b, s, l' ++ rest).
Proof.
  pose proof (stops_cons _ rest_stops) as Hr. unfold parse_exponent. destruct l as [|c l]; cbn [app].
  - intros [= <- <- <-]. destruct rest as [|c r]; [done |]. destruct Hr as (_ & _ & He & _). by rewrite He.
  - destruct ((code c =? 101) || (code c =? 69)); [|by intros [= <- <- <-]].
    destruct (take_sign l) as [neg l2] eqn:E. rewrite (take_sign_app _ _ _ E).
    destruct (exp_value 0 l2) as [[v l3]| |] eqn:E2; cbn; [|done..].
    rewrite (exp_value_app _ _ _ _ E2). cbn. by intros [= <- <- <-].
Qed.

Lemma parse_number_app `{Libm} item item' l i l' : l <> [] -> parse_number item l = Ok (i, l') ->
  parse_number item' (l ++ rest) = Ok (set_number (valueNumber i) item', l' ++ rest).
Proof.
  intros Hl Hp. unfold parse_number in *. rewrite peek_app by done.
  apply bind_Ok in Hp as (l1 & E1 & Hp). apply bind_Ok in Hp as (l2 & E2 & Hp).
  apply bind_Ok in Hp as ([n l3] & E3 & Hp). apply bind_Ok in Hp as ([[num k] l4] & E4 & Hp).
  apply bind_Ok in Hp as ([[ex sub] l5] & E5 & Hp).
  assert ((if peek l =? 45 then advance (l ++ rest) else Ok (l ++ rest)) = Ok (l1 ++ rest)) as ->.
  { destruct (peek l =? 45); [by apply advance_app | by injection E1 as ->]. }
  cbn [mbind res_bind]. rewrite peek_app by done.
  assert ((if peek l1 =? 48 then advance (l1 ++ rest) else Ok (l1 ++ rest)) = Ok (l2 ++ rest)) as ->.
  { destruct (peek l1 =? 48); [by apply advance_app | by injection E2 as ->]. }
  cbn [mbind res_bind]. rewrite nonzero_digit_app.
  assert ((if nonzero_digit (peek l2) then int_digits 0 (l2 ++ rest) else Ok (0, l2 ++ rest))
    = Ok (n, l3 ++ rest)) as ->.
  { destruct (nonzero_digit (peek l2)); [by apply int_digits_app | by simplify_eq]. }
  cbn [mbind res_bind]. rewrite (parse_fraction_app _ _ _ _ _ E4). cbn [mbind res_bind].
  rewrite (parse_exponent_app _ _ _ _ E5). cbn [mbind res_bind].
  destruct num as [z | d]; [destruct ex |]; [by simplify_eq | | by simplify_eq].
  destruct (long_of_float _) as [v| |]; cbn in *; [by simplify_eq | done..].
Qed.
End Stops.

Definition dec_step (n : Z) (c : ascii) : Z := n * 10 + (code c - 48).
Lemma dec_fold_ge ds n : Forall (fun c => is_digit c = true) ds -> 0 <= n ->
  n <= fold_left dec_step ds n.
Proof.
  intros Hd. revert n. induction Hd as [|c ds Hc _ IH]; intros n Hn; cbn; [lia |].
  unfold is_digit in Hc. specialize (IH (dec_step n c)). unfold dec_step in *. lia.
Qed.
Lemma int_digits_all ds n : Forall (fun c => is_digit c = true) ds -> 0 <= n ->
  fold_left dec_step ds n <= LONG_MAX -> int_digits n ds = Ok (fold_left dec_step ds n, []).
Proof.
  intros Hd. revert n. induction Hd as [|c ds Hc Hds IH]; intros n Hn Hm; cbn in *; [done |].
  rewrite Hc. assert (48 <= code c <= 57) as Hcode by (unfold is_digit in Hc; lia).
  assert (schar c = code c) as -> by (unfold schar; destruct (Z.leb_spec 128 (code c)); lia).
  assert (0 <= dec_step n c) by (unfold dec_step; lia).
  pose proof (dec_fold_ge ds (dec_step n c) Hds H).
  assert (LONG_MIN <= 0) by done. unfold dec_step in *.
  rewrite !long_of_ok by lia. cbn. rewrite long_of_ok by lia. cbn. by apply IH.
Qed.

Lemma digits_head_nonzero fuel n : 0 < n -> n < 10 ^ Z.of_nat fuel ->
  nonzero_digit (peek (digits fuel n)) = true.
Proof.
  revert n. induction fuel as [|f IH]; intros n Hn Hlt; [cbn in Hlt; lia |]. cbn [digits].
  destruct (Z.ltb_spec n 10) as [Hs | Hb].
  - destruct (digit_cases n) as (Hc & _); [lia |]. cbn [peek]. rewrite Hc. unfold nonzero_digit. lia.
  - rewrite Nat2Z.inj_succ, Z.pow_succ_r in Hlt by lia.
    assert (0 < n / 10) by (apply Z.div_str_pos; lia).
    specialize (IH (n / 10) ltac:(lia) ltac:(apply Z.div_lt_upper_bound; lia)).
    by destruct (digits f (n / 10)).
Qed.

Section Reader.
Context `{Libm}.

Lemma parse_nat item n : 0 <= n <= 2 ^ 53 -> forall neg, 
  parse_number item ((if neg : bool then [chr 45] else []) ++ print_nat n)
  = Ok (set_number (cJSON_Number_int_t (if neg then - n else n)) item, []).
Proof.
  intros Hn neg. unfold parse_number.
  assert (2 ^ 53 <= LONG_MAX) as Hmax by done.
  assert ((peek ((if neg then [chr 45] else []) ++ print_nat n) =? 45) = neg) as ->.
  { destruct neg; [done |]. cbn [app].
    pose proof (digits_head (Z.to_nat (Z.log2 n)) n ltac:(lia)) as Hh. fold (print_nat n) in Hh.
    destruct (print_nat n) as [|c l]; [done |]. cbn. by apply digit_not_special in Hh as (_ & -> & _). }
  assert ((if neg then advance ((if neg then [chr 45] else []) ++ print_nat n)
           else Ok ((if neg then [chr 45] else []) ++ print_nat n)) = Ok (print_nat n)) as ->
    by (by destruct neg).
  cbn [mbind res_bind].
  pose proof (double_detour neg n Hn) as Hd.
  destruct (decide (n = 0)) as [-> | Hz].
  - cbn. by destruct neg.
  - pose proof (digits_head_nonzero _ n ltac:(lia) (print_nat_fuel n ltac:(lia))) as Hh.
    fold (print_nat n) in Hh.
    replace (peek (print_nat n) =? 48) with false by (unfold nonzero_digit in Hh; lia).
    cbn [mbind res_bind]. rewrite Hh.
    destruct (print_nat_sound n ltac:(lia)) as [Hv Ha].
    rewrite int_digits_all; [| done | done | unfold digits_val in Hv; fold dec_step in Hv; lia].
    cbn [mbind res_bind]. change (fold_left dec_step (print_nat n) 0) with (digits_val (print_nat n)).
    rewrite Hv. cbn -[f_sign fmul float_of_Z long_of_float]. by rewrite Hd.
Qed.

(** What becomes of a number that is printed and read. *)
Definition reread (n : cJSON_Number_t) : res cJSON_Number_t :=
  '(i, rest) ← parse_number cJSON_New_Item (print_number (set_number n cJSON_New_Item));
  match rest with [] => Ok (valueNumber i) | _ => Undef end.

Lemma print_number_int item z : valueNumber item = cJSON_Number_int_t z ->
  LONG_MIN <= z <= LONG_MAX -> print_number item = print_long z.
Proof.
  intros Hz Hr. unfold print_number. rewrite Hz. unfold snprintf_buf.
  pose proof (print_long_length z Hr). rewrite take_ge; [done | lia].
Qed.

(** Integers of up to 53 bits are read back. *)
Lemma reread_int z : - 2 ^ 53 <= z <= 2 ^ 53 -> reread (cJSON_Number_int_t z) = Ok (cJSON_Number_int_t z).
Proof.
  intros Hz. assert (LONG_MIN <= - 2 ^ 53 /\ 2 ^ 53 <= LONG_MAX) as [??] by done.
  unfold reread. rewrite (print_number_int _ z) by (done || lia). unfold print_long.
  destruct (Z.ltb_spec z 0).
  - pose proof (parse_nat cJSON_New_Item (- z) ltac:(lia) true) as Hp. cbn [app] in Hp.
    rewrite Hp. cbn. by rewrite Z.opp_involutive.
  - pose proof (parse_nat cJSON_New_Item z ltac:(lia) false) as Hp. cbn [app] in Hp. by rewrite Hp.
Qed.

Lemma snprintf_peek k l : (1 < k)%nat -> peek (snprintf_buf k l) = peek l.
Proof. intros Hk. unfold snprintf_buf. destruct l as [|c l], (k - 1)%nat eqn:E; (done || lia). Qed.
Definition number_start (z : Z) : bool := (z =? 45) || digit_code z.
Lemma signed_start (s : bool) n l : 0 <= n ->
  number_start (peek ((if s then [chr 45] else []) ++ print_nat n ++ l)) = true.
Proof.
  intros Hn. destruct s; [done |]. cbn [app].
  pose proof (digits_head (Z.to_nat (Z.log2 n)) n Hn) as Hh. fold (print_nat n) in Hh.
  destruct (print_nat n) as [|c t]; [done |]. cbn. unfold number_start, digit_code, is_digit in *. lia.
Qed.
Lemma round_even_nonneg n d : 0 <= n -> 0 < d -> 0 <= round_even n d.
Proof. intros. unfold round_even. pose proof (Z.div_pos n d). repeat case_match; lia. Qed.

Lemma lf_start s m e : number_start (peek (print_lf (S754_finite s m e))) = true.
Proof.
  cbn [print_lf]. unfold fixed6. apply signed_start, Z.div_pos; [|lia]. unfold scale6.
  destruct (Z.leb_spec 0 e) as [He | He].
  - pose proof (Z.pow_nonneg 2 e ltac:(lia)). nia.
  - apply (round_even_nonneg (Z.pos m * 10 ^ 6) (2 ^ (- e))); [lia | by apply Z.pow_pos_nonneg; lia].
Qed.
Lemma exp_digits_start s r k : 0 <= r -> number_start (peek (exp_digits s r k)) = true.
Proof. intros Hr. unfold exp_digits. apply signed_start, Z.div_pos; lia. Qed.
Lemma e20_start s m e : number_start (peek (print_e20 (S754_finite s m e))) = true.
Proof.
  cbn [print_e20]. set (k := dec_exponent _ _ _ _).
  case_match; apply exp_digits_start; [lia |]. apply round_even_nonneg.
  - pose proof (Z.pow_nonneg 2 (Z.max 0 e)). pose proof (Z.pow_nonneg 10 (Z.max 0 (20 - k))). nia.
  - pose proof (Z.pow_pos_nonneg 2 (Z.max 0 (- e))). pose proof (Z.pow_pos_nonneg 10 (Z.max 0 (k - 20))). nia.
Qed.

Lemma number_text_start n n' : reread n = Ok n' ->
  number_start (peek (print_number (set_number n cJSON_New_Item))) = true.
Proof.
  intros Hr. destruct n as [z | d].
  - cbn [print_number valueNumber set_number]. rewrite snprintf_peek by lia. unfold print_long.
    destruct (Z.ltb_spec z 0); [done |].
    pose proof (signed_start false z [] ltac:(lia)) as Hs. cbn [app] in Hs. by rewrite app_nil_r in Hs.
  - unfold reread in Hr. destruct d as [s | s | | s m e].
    + by destruct s.
    + by destruct s.
    + done.
    + clear Hr. cbn [print_number valueNumber set_number].
      destruct (negb _ && _); rewrite snprintf_peek by lia; [apply e20_start | apply lf_start].
Qed.

(** ** Items *)
(** The item that is read for an item that is printed. *)
Fixpoint reread_item (j : cJSON) : res cJSON :=
  match j with
  | mkItem t vs n _ cs =>
      match t with
      | cJSON_NULL => Ok cJSON_CreateNull
      | cJSON_False => Ok cJSON_CreateFalse
      | cJSON_True => Ok (set_valueint 1 cJSON_CreateTrue)
      | cJSON_Number => n' ← reread n; Ok (set_number n' cJSON_New_Item)
      | cJSON_String => s ← rd vs; Ok (set_text (visible (c_str s)) cJSON_New_Item)
      | cJSON_Array =>
          cs' ← collect (map reread_item cs); Ok (set_child cs' cJSON_CreateArray)
      | cJSON_Object =>
          cs' ← collect (map (fun c =>
            name ← rd (jname c); c' ← reread_item c; Ok (set_name (visible (c_str name)) c')) cs);
          Ok (set_child cs' cJSON_CreateObject)
      end
  end.

Definition cJSON_rect' (P : cJSON -> Prop)
    (Hi : forall t vs n nm cs, Forall P cs -> P (mkItem t vs n nm cs)) : forall j, P j :=
  fix F j := match j with
  | mkItem t vs n nm cs =>
      Hi t vs n nm cs ((fix G l : Forall P l :=
        match l with [] => Forall_nil_2 P | c :: l' => Forall_cons_2 P c l' (F c) (G l') end) cs)
  end.

(** An item as the parser gets it, and an item with a name put on it. *)
Definition blank (i : cJSON) : Prop :=
  valuestring i = None /\ valueNumber i = cJSON_Number_int_t 0 /\ child i = [].
Definition rename (nm : option (list ascii)) (j : cJSON) : cJSON :=
  mkItem (jtype j) (valuestring j) (valueNumber j) nm (child j).
(** How the text of a value starts. *)
Definition value_start (z : Z) : Prop := 32 < z /\ z <> 93 /\ z <> 125.

(** [t] is a text of [j]: in any context that stops it, it is read as [j]. *)
Record reads (t : list ascii) (j : cJSON) : Prop := {
  reads_start : value_start (peek t);
  reads_name : jname j = None;
  reads_value : forall n item rest, blank item -> stops rest = true -> (length (t ++ rest) <= n)%nat ->
    parse_value n item (t ++ rest) = Ok (Some (rename (jname item) j, rest))
}.

Lemma starts_with_peek c p l : peek l <> code c -> starts_with (String c p) l = false.
Proof.
  intros Hp. unfold starts_with. apply bool_decide_eq_false. destruct l as [|d l]; cbn; [done |].
  intros [= -> _]. done.
Qed.
(** A text that is not one of the three words. *)
Lemma parse_value_other n item l : peek l <> 110 -> peek l <> 102 -> peek l <> 116 ->
  parse_value (S n) item l =
    if peek l =? 34 then parse_string item l
    else if number_start (peek l) then Some <$> parse_number item l
    else if peek l =? 91 then parse_array (parse_value n) n item l
    else if peek l =? 123 then parse_object (parse_value n) n item l
    else Ok None.
Proof. intros. cbn [parse_value]. by rewrite !starts_with_peek by done. Qed.

Lemma peek_head t rest : 0 < peek t -> peek (t ++ rest) = peek t.
Proof. by destruct t. Qed.

Lemma reads_word w j : (w, j) ∈ [("null", cJSON_CreateNull); ("false", cJSON_CreateFalse);
  ("true", set_valueint 1 cJSON_CreateTrue)] -> reads (String.list_ascii_of_string w) j.
Proof.
  intros Hw. rewrite !elem_of_cons, elem_of_nil in Hw. destruct Hw as [[= -> ->] | [[= -> ->] | [[= -> ->] | []]]].
  all: split; [vm_compute; repeat split; congruence | done |].
  all: intros [|n] [ty vs nn nm cs] rest (Hv & Hn & Hc) Hs Hl; cbn in *; [lia |]; by subst.
Qed.
Lemma reads_number n n' : reread n = Ok n' ->
  reads (print_number (set_number n cJSON_New_Item)) (set_number n' cJSON_New_Item).
Proof.
  intros Hr. pose proof (number_text_start _ _ Hr) as Hs. set (t := print_number _) in *.
  assert (0 < peek t) by (unfold number_start, digit_code in Hs; lia).
  split; [unfold value_start, number_start, digit_code in *; lia | done |].
  intros [|k] item rest (Hv & Hn & Hc) Hst Hl; [rewrite length_app in Hl; destruct t; cbn in *; lia |].
  rewrite parse_value_other; rewrite peek_head by done; unfold number_start, digit_code in Hs; try lia.
  destruct (Z.eqb_spec (peek t) 34); [lia |]. fold (digit_code (peek t)) in Hs.
  unfold number_start. rewrite Hs.
  unfold reread in Hr. fold t in Hr. apply bind_Ok in Hr as ([i r] & Hp & Hr).
  destruct r; [|done]. injection Hr as <-.
  rewrite (parse_number_app rest Hst cJSON_New_Item item t i []); [|by destruct t | done].
  cbn. unfold set_number, rename. cbn. by rewrite Hv, Hc.
Qed.
Lemma reads_string s : reads (string_text s) (set_text (visible (c_str s)) cJSON_New_Item).
Proof.
  split; [vm_compute; repeat split; congruence | done |].
  intros [|k] item rest (Hv & Hn & Hc) Hst Hl; [cbn in Hl; lia |].
  rewrite parse_value_other by done.
  change (peek (string_text s ++ rest) =? 34) with true.
  rewrite parse_printed_string. unfold set_text, rename. cbn. by rewrite Hn, Hc.
Qed.

(** *** Arrays *)
Definition blanks (l : list ascii) : Prop := Forall (fun c => code c <= 32) l.
Lemma skip_blanks ws l : blanks ws -> 32 < peek l -> skip (ws ++ l) = Ok l.
Proof.
  intros Hw Hl. induction Hw as [|c ws Hc _ IH]; cbn [app skip].
  - destruct l as [|c l]; cbn in *; [lia |]. destruct (Z.leb_spec (code c) 32); [lia | done].
  - destruct (Z.leb_spec (code c) 32); [done | lia].
Qed.
Lemma skip_now l : 32 < peek l -> skip l = Ok l.
Proof. apply (skip_blanks []), Forall_nil_2. Qed.
Lemma then_skip_ok i l ws l' : l = ws ++ l' -> blanks ws -> 32 < peek l' ->
  then_skip (Ok (Some (i, l))) = Ok (Some (i, l')).
Proof. intros -> Hw Hl. unfold then_skip. cbn. by rewrite skip_blanks. Qed.
Lemma rename_None j : jname j = None -> rename None j = j.
Proof. destruct j. cbn. by intros ->. Qed.

(** The elements after the first. *)
Definition tail_text (sep : list ascii) (ts : list (list ascii)) : list ascii :=
  concat (map (fun t => sep ++ t) ts).
Lemma join_tail sep t ts : join sep (t :: ts) = t ++ tail_text sep ts.
Proof.
  revert t. induction ts as [|u ts IH]; intros t; [cbn; by rewrite app_nil_r |].
  change (join sep (t :: u :: ts)) with (t ++ sep ++ join sep (u :: ts)).
  rewrite IH. unfold tail_text. cbn [map concat]. by rewrite <- app_assoc.
Qed.
Lemma tail_peek sp ts cl rest : 32 < code cl -> stops [cl] = true ->
  let l := tail_text (chr 44 :: sp) ts ++ cl :: rest in 32 < peek l /\ stops l = true.
Proof. intros. by destruct ts; subst l. Qed.

Lemma parse_elements_reads sp ts cs rest N : Forall2 reads ts cs -> blanks sp -> forall n acc,
  (length (tail_text (chr 44 :: sp) ts ++ chr 93 :: rest) <= n)%nat ->
  (length (tail_text (chr 44 :: sp) ts ++ chr 93 :: rest) <= N)%nat ->
  parse_elements (parse_value N) n acc (tail_text (chr 44 :: sp) ts ++ chr 93 :: rest)
  = Ok (Some (acc ++ cs, chr 93 :: rest)).
Proof.
  intros Hts Hsp. induction Hts as [|t j ts cs Ht _ IH]; intros n acc Hn HN.
  - cbn. rewrite app_nil_r. by destruct n.
  - cbn [tail_text map concat] in *. fold (tail_text (chr 44 :: sp) ts) in *.
    rewrite <- !app_assoc in *. cbn [app] in *.
    set (l' := tail_text (chr 44 :: sp) ts ++ chr 93 :: rest) in *.
    destruct (tail_peek sp ts (chr 93) rest) as [Hp Hst]; [done..|]. fold l' in Hp, Hst.
    destruct Ht as [Hh Hnm Hv].
    destruct n as [|n]; [cbn in Hn; lia |]. cbn [parse_elements peek].
    change (negb (code (chr 44) =? 44)) with false. cbn [advance mbind res_bind].
    assert (0 < peek t) by (unfold value_start in Hh; lia).
    rewrite skip_blanks; [| done | rewrite peek_head by done; unfold value_start in Hh; lia].
    cbn [mbind res_bind]. cbn [length] in Hn, HN. rewrite !length_app in Hn, HN.
    rewrite Hv; [| done | done | rewrite length_app; lia].
    rewrite (then_skip_ok _ _ [] l') by (done || apply Forall_nil_2). cbn [mbind res_bind].
    rewrite rename_None by done. rewrite IH by lia. by rewrite <- app_assoc.
Qed.

Lemma reads_array ts cs (fmt : bool) : Forall2 reads ts cs ->
  reads ([chr 91] ++ join (chr 44 :: if fmt then [chr 32] else []) ts ++ [chr 93])
    (set_child cs cJSON_CreateArray).
Proof.
  intros Hts. set (sp := if fmt then [chr 32] else []).
  assert (blanks sp) as Hsp by (subst sp; unfold blanks; destruct fmt; [apply Forall_singleton; vm_compute; congruence | apply Forall_nil_2]).
  split; [vm_compute; repeat split; congruence | done |].
  intros [|n] item rest (Hv & Hn & Hc) Hst Hl; [cbn in Hl; lia |].
  rewrite parse_value_other by done. cbn [app peek]. change (code (chr 91)) with 91.
  change (number_start 91) with false. cbn [Z.eqb Pos.eqb].
  unfold parse_array. cbn [peek negb]. change (negb (code (chr 91) =? 91)) with false.
  cbn [advance mbind res_bind]. rewrite <- app_assoc. cbn [app] in *.
  destruct Hts as [|t j ts cs Ht Hts].
  - cbn. unfold set_child, set_type, rename. cbn. by rewrite Hv, Hn, Hc.
  - destruct Ht as [Hh Hnm Hr]. assert (0 < peek t) by (unfold value_start in Hh; lia).
    rewrite join_tail, <- !app_assoc in *. cbn [app] in *. cbn [length] in Hl. rewrite !length_app in Hl.
    set (l' := tail_text (chr 44 :: sp) ts ++ chr 93 :: rest) in *.
    destruct (tail_peek sp ts (chr 93) rest) as [Hp Hs]; [done..|]. fold l' in Hp, Hs.
    assert (forall x, 32 < peek (t ++ x)) as Ht32
      by (intros x; rewrite peek_head by done; unfold value_start in Hh; lia).
    rewrite skip_now by done. cbn [mbind res_bind].
    rewrite peek_head by done. destruct (Z.eqb_spec (peek t) 93); [unfold value_start in Hh; lia |].
    rewrite skip_now by done. cbn [mbind res_bind].
    rewrite Hr; [| done | done | subst l'; rewrite !length_app in *; cbn [length] in *; lia].
    rewrite (then_skip_ok _ _ [] l') by (done || apply Forall_nil_2). cbn [mbind res_bind].
    rewrite rename_None by done. subst l'. rewrite (parse_elements_reads sp ts cs); [| done | done | rewrite !length_app in *; cbn [length] in *; lia..].
    cbn. unfold set_child, set_type, rename. cbn. by rewrite Hv, Hn.
Qed.

(** *** Objects *)
Inductive reads_member : list ascii * list ascii -> cJSON -> Prop :=
| reads_member_intro nm t j : reads t j ->
    reads_member (string_text nm, t) (set_name (visible (c_str nm)) j).

(** One member: a name, a value, and what comes after it. *)
Lemma parse_member_text N nm t j gap ws l : reads t j -> blanks gap -> blanks ws -> 32 < peek l ->
  stops (ws ++ l) = true -> (length (t ++ ws ++ l) <= N)%nat ->
  parse_member (parse_value N) (string_text nm ++ chr 58 :: gap ++ t ++ ws ++ l)
  = Ok (Some (set_name (visible (c_str nm)) j, l)).
Proof.
  intros [Hh Hnm Hr] Hgap Hws Hl Hst HN. unfold parse_member.
  rewrite parse_printed_string, (then_skip_ok _ _ [] (chr 58 :: gap ++ t ++ ws ++ l))
    by (done || apply Forall_nil_2).
  cbn [mbind res_bind peek]. change (negb (code (chr 58) =? 58)) with false. cbn [advance mbind res_bind].
  assert (0 < peek t) by (unfold value_start in Hh; lia).
  rewrite skip_blanks; [| done | rewrite peek_head by done; unfold value_start in Hh; lia].
  cbn [mbind res_bind]. rewrite Hr by done. by rewrite (then_skip_ok _ _ ws l).
Qed.

Definition new_line (fmt : bool) : list ascii := if fmt then [chr 10] else [].
Definition one_tab (fmt : bool) : list ascii := if fmt then [chr 9] else [].
Definition tabs (fmt : bool) k : list ascii := if fmt then repeat (chr 9) k else [].

Section Members.
Variables (fmt : bool) (depth : nat) (rest : list ascii).

Lemma blanks_nl : blanks (new_line fmt).
Proof. unfold blanks, new_line. destruct fmt; [apply Forall_singleton; vm_compute; congruence | apply Forall_nil_2]. Qed.
Lemma blanks_tabs k : blanks (tabs fmt k).
Proof.
  unfold blanks, tabs. destruct fmt; [|apply Forall_nil_2].
  apply Forall_forall. intros c Hc. apply repeat_spec in Hc as ->. vm_compute; congruence.
Qed.
Lemma blanks_app a b : blanks a -> blanks b -> blanks (a ++ b).
Proof. apply Forall_app_2. Qed.

(** The text after a value, and the same without the blanks at its start. *)
Definition after (ms : list (list ascii * list ascii)) : list ascii :=
  (match ms with [] => [] | _ => [chr 44] end) ++ new_line fmt ++ print_members fmt depth ms
  ++ tabs fmt (depth - 1) ++ chr 125 :: rest.
Definition after_skip (ms : list (list ascii * list ascii)) : list ascii :=
  match ms with [] => chr 125 :: rest | _ => after ms end.
Lemma after_blanks ms : exists ws, after ms = ws ++ after_skip ms /\ blanks ws /\
  32 < peek (after_skip ms) /\ stops (after ms) = true.
Proof.
  destruct ms as [|m ms].
  - exists (new_line fmt ++ tabs fmt (depth - 1)). unfold after, after_skip. cbn [app print_members].
    split; [by rewrite <- app_assoc |]. split; [apply blanks_app; auto using blanks_nl, blanks_tabs |].
    split; [done |]. unfold new_line, tabs. destruct fmt; [done |]. done.
  - exists []. split; [done |]. split; [apply Forall_nil_2 |]. done.
Qed.
Lemma print_members_cons m ms : print_members fmt depth (m :: ms) ++ tabs fmt (depth - 1) ++ chr 125 :: rest
  = tabs fmt depth ++ fst m ++ chr 58 :: one_tab fmt ++ snd m ++ after ms.
Proof.
  unfold after. cbn [print_members]. unfold print_member. fold (one_tab fmt) (new_line fmt).
  change (if fmt then repeat (chr 9) depth else []) with (tabs fmt depth).
  rewrite <- !app_assoc. do 3 f_equal. cbn [app]. do 3 f_equal. by destruct ms.
Qed.

Lemma parse_member_reads N m c ms : reads_member m c ->
  (length (snd m ++ after ms) <= N)%nat ->
  parse_member (parse_value N) (fst m ++ chr 58 :: one_tab fmt ++ snd m ++ after ms)
  = Ok (Some (c, after_skip ms)).
Proof.
  intros [nm t j Hr] Hl. cbn [fst snd] in *. destruct (after_blanks ms) as (ws & Ha & Hw & Hp & Hs).
  rewrite Ha in *. apply parse_member_text; try done.
  unfold one_tab, blanks. destruct fmt; [apply Forall_singleton; vm_compute; congruence | apply Forall_nil_2].
Qed.

Lemma parse_members_reads N ms cs : Forall2 reads_member ms cs -> forall n acc,
  (length (after_skip ms) <= n)%nat -> (length (after_skip ms) <= N)%nat ->
  parse_members (parse_value N) n acc (after_skip ms) = Ok (Some (acc ++ cs, chr 125 :: rest)).
Proof.
  intros Hms. induction Hms as [|m c ms cs Hm _ IH]; intros n acc Hn HN.
  - cbn. rewrite app_nil_r. by destruct n.
  - cbn [after_skip] in *. unfold after in *. cbn [app] in *. cbn [length] in Hn, HN.
    rewrite length_app, print_members_cons in Hn, HN. rewrite print_members_cons.
    rewrite !length_app in Hn, HN. cbn [length] in Hn, HN. rewrite !length_app in Hn, HN.
    assert (length (after_skip ms) <= length (after ms))%nat as Hle.
    { destruct (after_blanks ms) as (ws & Ha & _). rewrite Ha, length_app. lia. }
    destruct n as [|n]; [lia |]. cbn [parse_members peek].
    change (negb (code (chr 44) =? 44)) with false. cbn [advance mbind res_bind].
    rewrite app_assoc, skip_blanks;
      [| apply blanks_app; auto using blanks_nl, blanks_tabs | by inversion Hm].
    cbn [mbind res_bind]. rewrite (parse_member_reads N m c ms) by (done || rewrite length_app; lia).
    cbn [mbind res_bind]. rewrite IH by lia. by rewrite <- app_assoc.
Qed.
End Members.

Lemma reads_object ms cs (fmt : bool) depth : Forall2 reads_member ms cs ->
  reads ([chr 123] ++ (if fmt then [chr 10] else []) ++ print_members fmt depth ms ++
    (if fmt then repeat (chr 9) (depth - 1) else []) ++ [chr 125]) (set_child cs cJSON_CreateObject).
Proof.
  intros Hms. split; [vm_compute; repeat split; congruence | done |].
  intros [|n] item rest (Hv & Hn & Hc) Hst Hl; [cbn in Hl; lia |].
  rewrite parse_value_other by done. cbn [app peek]. change (code (chr 123)) with 123.
  change (number_start 123) with false. cbn [Z.eqb Pos.eqb].
  unfold parse_object. cbn [peek negb]. change (negb (code (chr 123) =? 123)) with false.
  cbn [advance mbind res_bind]. cbn [app length] in Hl. rewrite <- !app_assoc in *. cbn [app] in *.
  pose proof (blanks_nl fmt) as Hnl. pose proof (blanks_tabs fmt) as Htabs. unfold new_line in Hnl. unfold tabs in Htabs.
  destruct Hms as [|m c ms cs Hm Hms].
  - cbn [print_members app]. rewrite app_assoc, skip_blanks by (done || apply blanks_app; auto).
    cbn. unfold set_child, set_type, rename. cbn. by rewrite Hv, Hn, Hc.
  - fold (tabs fmt (depth - 1)) in *. rewrite (print_members_cons fmt depth rest m ms) in *. rewrite !length_app in Hl.
    cbn [length] in Hl. rewrite !length_app in Hl.
    assert (length (after_skip fmt depth rest ms) <= length (after fmt depth rest ms))%nat as Hle.
    { destruct (after_blanks fmt depth rest ms) as (ws & Ha & _). rewrite Ha, length_app. lia. }
    assert (forall x, peek (fst m ++ x) = 34) as Hq by (by inversion Hm).
    rewrite app_assoc, skip_blanks; [| exact (blanks_app _ _ Hnl (Htabs depth)) | by rewrite Hq].
    cbn [mbind res_bind]. rewrite Hq. cbn [Z.eqb Pos.eqb]. rewrite skip_now by (by rewrite Hq).
    cbn [mbind res_bind]. rewrite (parse_member_reads fmt depth rest n m c ms)
      by (done || rewrite length_app; lia).
    cbn [mbind res_bind]. rewrite (parse_members_reads fmt depth rest n ms cs) by (done || lia).
    cbn. unfold set_child, set_type, rename. cbn. by rewrite Hv, Hn.
Qed.

(** *** Any item *)
Lemma fill_ok len l : Z.of_nat (length l) + 1 <= len -> fill len l = Ok l.
Proof. intros Hl. unfold fill. by destruct (Z.leb_spec (Z.of_nat (length l) + 1) len); [| lia]. Qed.
(** The buffers the printer allocates are large enough. *)
Lemma print_array_ok fmt ts : print_array fmt ts =
  Ok ([chr 91] ++ join (chr 44 :: if fmt : bool then [chr 32] else []) ts ++ [chr 93]).
Proof.
  unfold print_array. apply fill_ok. set (sep := chr 44 :: if fmt then [chr 32] else []).
  assert (length sep = Z.to_nat (1 + b2z fmt)) as Hsep by (by destruct fmt).
  enough (Z.of_nat (length (join sep ts)) <=
    foldr (fun e n => Z.of_nat (length e) + 2 + b2z fmt + n) 0 ts) as Hj.
  { cbn [app length]. rewrite length_app. cbn [length].
    enough (foldr (fun e n => Z.of_nat (length e) + 2 + b2z fmt + n) 5 ts
      = 5 + foldr (fun e n => Z.of_nat (length e) + 2 + b2z fmt + n) 0 ts) by lia.
    clear. induction ts as [|t ts IH]; cbn; lia. }
  assert (0 <= b2z fmt) by (by destruct fmt).
  destruct ts as [|t ts]; [done |]. rewrite join_tail, length_app. cbn [foldr].
  enough (Z.of_nat (length (tail_text sep ts)) <=
    foldr (fun e n => Z.of_nat (length e) + 2 + b2z fmt + n) 0 ts) by lia.
  induction ts as [|u ts IH]; [done |]. unfold tail_text in *. cbn [map concat foldr].
  rewrite !length_app. lia.
Qed.
Lemma print_object_ok fmt depth ms : (0 < depth)%nat -> print_object fmt depth ms =
  Ok ([chr 123] ++ (if fmt : bool then [chr 10] else []) ++ print_members fmt depth ms ++
    (if fmt then repeat (chr 9) (depth - 1) else []) ++ [chr 125]).
Proof.
  intros Hd. unfold print_object. apply fill_ok.
  set (step := fun (m : list ascii * list ascii) n => Z.of_nat (length (snd m)) +
    Z.of_nat (length (fst m)) + 2 + (if fmt then 2 + Z.of_nat depth else 0) + n).
  assert (forall k, foldr step k ms = k + foldr step 0 ms) as Hk
    by (intros k; induction ms as [|m ms IH]; cbn; [lia | rewrite IH; unfold step; lia]).
  assert (Z.of_nat (length (print_members fmt depth ms)) <= foldr step 0 ms) as Hm.
  { clear Hk. induction ms as [|m ms IH]; [done |]. cbn [print_members foldr].
    rewrite length_app. unfold step at 1, print_member. rewrite !length_app. cbn [length].
    destruct fmt, ms; cbn [length app] in *; rewrite ?repeat_length; lia. }
  rewrite Hk. cbn [app length]. rewrite !length_app. cbn [length].
  destruct fmt; rewrite ?repeat_length; cbn [length]; lia.
Qed.

Lemma collect_reads {A B C} (f : A -> res B) (g : A -> res C) (R : B -> C -> Prop) l :
  Forall (fun x => forall y, g x = Ok y -> exists t, f x = Ok t /\ R t y) l ->
  forall ys, collect (map g l) = Ok ys -> exists ts, collect (map f l) = Ok ts /\ Forall2 R ts ys.
Proof.
  induction 1 as [|x l Hx _ IH]; intros ys Hy; cbn in *.
  - injection Hy as <-. exists []. split; [done | constructor].
  - apply bind_Ok in Hy as (y & Ey & Hy). apply bind_Ok in Hy as (ys' & Eys & Hy).
    injection Hy as <-. destruct (Hx y Ey) as (t & -> & Ht). destruct (IH ys' Eys) as (ts & -> & Hts).
    exists (t :: ts). split; [done | by constructor].
Qed.

Theorem print_reads j : forall j', reread_item j = Ok j' -> forall depth fmt,
  exists t, print_value j depth fmt = Ok t /\ reads t j'.
Proof.
  induction j as [ty vs n nm cs IH] using cJSON_rect'. intros j' Hj depth fmt. destruct ty; cbn in Hj.
  - eexists; split; [done |]. apply reads_word. injection Hj as <-. set_solver.
  - eexists; split; [done |]. apply reads_word. injection Hj as <-. set_solver.
  - eexists; split; [done |]. apply reads_word. injection Hj as <-. set_solver.
  - apply bind_Ok in Hj as (n' & Hn & Hj). injection Hj as <-. eexists; split; [done |].
    exact (reads_number n n' Hn).
  - apply bind_Ok in Hj as (s & Hs & Hj). apply rd_Ok in Hs as ->. injection Hj as <-.
    exists (string_text s). split; [apply print_string_ok | apply reads_string].
  - apply bind_Ok in Hj as (cs' & Hcs & Hj). injection Hj as <-. cbn [print_value].
    eapply (collect_reads (fun c => print_value c (S depth) fmt) reread_item reads) in Hcs
      as (ts & -> & Hts).
    2: { eapply List.Forall_impl; [|exact IH]. intros c Hc y Hy. apply Hc, Hy. }
    cbn [mbind res_bind]. rewrite print_array_ok. eexists; split; [done |]. by apply reads_array.
  - apply bind_Ok in Hj as (cs' & Hcs & Hj). injection Hj as <-. cbn [print_value].
    eapply (collect_reads (fun c => name ← print_string_ptr (jname c);
      v ← print_value c (S depth) fmt; Ok (name, v)) _ reads_member) in Hcs as (ts & -> & Hts).
    2: { eapply List.Forall_impl; [|exact IH]. intros c Hc y Hy. cbn beta in Hy.
         apply bind_Ok in Hy as (name & Hn & Hy). apply rd_Ok in Hn as ->.
         apply bind_Ok in Hy as (c' & Hc' & Hy). injection Hy as <-.
         destruct (Hc c' Hc' (S depth) fmt) as (t & -> & Ht). rewrite print_string_ok.
         eexists; split; [done |]. by constructor. }
    cbn [mbind res_bind]. rewrite print_object_ok by lia. eexists; split; [done |].
    by apply reads_object.
Qed.

(** What is printed is read back: printing does not overflow its buffers, and the
    parser accepts the text, formatted or not, and gives the same item. *)
Theorem parse_print j j' fmt : reread_item j = Ok j' ->
  exists t, print_value j 0 fmt = Ok t /\ cJSON_Parse t = Ok (Some j').
Proof.
  intros Hj. destruct (print_reads j j' Hj 0 fmt) as (t & Hp & [Hh Hn Hr]). exists t.
  split; [done |]. unfold cJSON_Parse. rewrite skip_now by (by destruct Hh). cbn [mbind res_bind].
  specialize (Hr (S (length t)) cJSON_New_Item []). rewrite app_nil_r in Hr.
  rewrite Hr by (done || lia). cbn. by rewrite rename_None.
Qed.
End Reader.
