(* ===== verification/JsonEnds.v ===== *)
(** The JSON parser ends: the bounds that [parse_value] gives to nesting and loops
    are never the reason for its answer. *)
From S2P Require Import Prelude Cnum Json JsonProps.
From Stdlib Require Import Ascii SpecFloat Zpower.
Open Scope Z_scope.
Open Scope list_scope.
(** ** Reading always ends *)

Lemma skip_le l l' : skip l = Ok l' -> (length l' <= length l)%nat.
Proof. induction l as [|c l IH]; cbn; [done |]. case_match; [intros ?%IH; lia | by intros [= <-]]. Qed.
Lemma advance_lt l l' : advance l = Ok l' -> length l = S (length l').
Proof. destruct l; cbn; [done |]. by intros [= ->]. Qed.
Lemma int_digits_le n l m l' : int_digits n l = Ok (m, l') -> (length l' <= length l)%nat.
Proof.
  revert n. induction l as [|c l IH]; cbn; intros n Hi; [by injection Hi as <- <- |].
  case_match; [|by injection Hi as <- <-]. res_inv. specialize (IH _ H2). lia.
Qed.
Lemma exp_value_le n l m l' : exp_value n l = Ok (m, l') -> (length l' <= length l)%nat.
Proof.
  revert n. induction l as [|c l IH]; cbn; intros n Hi; [by injection Hi as <- <- |].
  case_match; [|by injection Hi as <- <-]. res_inv. specialize (IH _ H2). lia.
Qed.
Lemma frac_digits_le d k l : (length (snd (frac_digits d k l)) <= length l)%nat.
Proof.
  revert d k. induction l as [|c l IH]; cbn; intros d k; [lia |].
  case_match; cbn; [|lia]. specialize (IH (frac_step d c) (k - 1)). lia.
Qed.
Lemma take_sign_le l : (length (snd (take_sign l)) <= length l)%nat.
Proof. destruct l as [|c l]; cbn; [lia |]. repeat case_match; cbn; lia. Qed.
Lemma parse_fraction_le n l num k l' : parse_fraction n l = Ok (num, k, l') -> (length l' <= length l)%nat.
Proof.
  unfold parse_fraction. case_match; [|by intros [= <- <- <-]].
  destruct l as [|c [|c2 l]]; [done.. |].
  pose proof (frac_digits_le (frac_step (float_of_Z n) c2) (-1) l) as Hf.
  destruct (frac_digits _ _ l) as [[d k2] l2]. intros [= <- <- <-]. cbn in *. lia.
Qed.
Lemma parse_exponent_le l b s l' : parse_exponent l = Ok (b, s, l') -> (length l' <= length l)%nat.
Proof.
  unfold parse_exponent. destruct l as [|c l]; [by intros [= <- <- <-] |].
  case_match; [|by intros [= <- <- <-]].
  pose proof (take_sign_le l). destruct (take_sign l) as [neg l2].
  destruct (exp_value 0 l2) as [[v l3]| |] eqn:E; cbn; [|done..]. intros [= <- <- <-].
  apply exp_value_le in E. cbn in *. lia.
Qed.

Section Ending.
Context `{Libm}.

Lemma parse_number_lt item l i l' : number_start (peek l) = true ->
  parse_number item l = Ok (i, l') -> (length l' < length l)%nat.
Proof.
  intros Hs Hp. unfold parse_number in Hp.
  apply bind_Ok in Hp as (l1 & E1 & Hp). apply bind_Ok in Hp as (l2 & E2 & Hp).
  apply bind_Ok in Hp as ([n l3] & E3 & Hp). apply bind_Ok in Hp as ([[num k] l4] & E4 & Hp).
  apply bind_Ok in Hp as ([[ex sub] l5] & E5 & Hp).
  assert (l' = l5) as ->.
  { destruct num; [destruct ex |]; [by simplify_eq | | by simplify_eq].
    apply bind_Ok in Hp as (? & _ & Hp). by simplify_eq. }
  apply parse_fraction_le in E4. apply parse_exponent_le in E5.
  assert (length l1 <= length l /\ length l2 <= length l1 /\ length l3 <= length l2)%nat as (?&?&?).
  { split; [|split].
    - destruct (peek l =? 45); [apply advance_lt in E1; lia | by simplify_eq].
    - destruct (peek l1 =? 48); [apply advance_lt in E2; lia | by simplify_eq].
    - destruct (nonzero_digit (peek l2)); [by apply int_digits_le in E3 | by simplify_eq]. }
  destruct (Z.eqb_spec (peek l) 45) as [H45 | H45]; [apply advance_lt in E1; lia |].
  injection E1 as <-. destruct (Z.eqb_spec (peek l) 48) as [H48 | H48]; [apply advance_lt in E2; lia |].
  injection E2 as <-.
  assert (nonzero_digit (peek l) = true) as Hnz
    by (unfold number_start, digit_code, nonzero_digit in *; lia).
  rewrite Hnz in E3. destruct l as [|c l]; [done |]. cbn in E3.
  assert (is_digit c = true) as Hc by (unfold nonzero_digit, is_digit in *; cbn in Hnz; lia).
  rewrite Hc in E3. apply bind_Ok in E3 as (a & _ & E3). apply bind_Ok in E3 as (b & _ & E3).
  apply int_digits_le in E3. cbn. lia.
Qed.

Lemma string_bytes_le k : forall room uc l out l', (length l <= k)%nat ->
  string_bytes room uc l = Ok (out, l') -> (length l' <= length l)%nat.
Proof.
  induction k as [|k IH]; intros room uc l out l' Hk Hs.
  { destruct l; [|cbn in Hk; lia]. cbn in Hs. by case_match; simplify_eq. }
  destruct l as [|c l]; cbn in Hs, Hk; [by case_match; simplify_eq |].
  case_match; [by case_match; simplify_eq |].
  case_match; cbn.
  - destruct l as [|e l]; [done |]. case_match; cbn in *.
    + destruct l as [|h1 [|h2 [|h3 [|h4 l]]]]; [done.. |].
      apply bind_Ok in Hs as (u & _ & Hs). case_match; [done |].
      apply bind_Ok in Hs as ([o r] & Hs & Hr). injection Hr as <- <-.
      apply IH in Hs; cbn in *; lia.
    + case_match; [done |]. apply bind_Ok in Hs as ([o r] & Hs & Hr). injection Hr as <- <-.
      apply IH in Hs; cbn in *; lia.
  - case_match; [done |]. apply bind_Ok in Hs as ([o r] & Hs & Hr). injection Hr as <- <-.
    apply IH in Hs; cbn in *; lia.
Qed.
Lemma parse_string_lt item l i l' : parse_string item l = Ok (Some (i, l')) -> (length l' < length l)%nat.
Proof.
  unfold parse_string. case_match; [done |]. intros Hp.
  apply bind_Ok in Hp as (l1 & E1 & Hp). apply bind_Ok in Hp as (len & _ & Hp).
  apply bind_Ok in Hp as ([out r] & E2 & Hp). injection Hp as <- <-.
  apply advance_lt in E1. apply (string_bytes_le (length l1)) in E2; [|done].
  case_match; [rewrite length_drop |]; lia.
Qed.

Lemma then_skip_inv r i l : then_skip r = Ok (Some (i, l)) ->
  exists l0, r = Ok (Some (i, l0)) /\ (length l <= length l0)%nat.
Proof.
  unfold then_skip. intros Hr. apply bind_Ok in Hr as (o & -> & Hr). destruct o as [[i0 l0] |]; [|done].
  apply bind_Ok in Hr as (l1 & Hs%skip_le & Hr). injection Hr as <- <-. by exists l0.
Qed.

(** A parser that always takes something. *)
Definition consumes (parse : cJSON -> list ascii -> res (option (cJSON * list ascii))) : Prop :=
  forall item l i l', parse item l = Ok (Some (i, l')) -> (length l' < length l)%nat.

Section Nested.
Variable p : cJSON -> list ascii -> res (option (cJSON * list ascii)).
Hypothesis p_consumes : consumes p.

Lemma parse_elements_le n acc l cs l' : parse_elements p n acc l = Ok (Some (cs, l')) ->
  (length l' <= length l)%nat.
Proof.
  revert acc l. induction n as [|n IH]; intros acc l He; cbn in He.
  - case_match; [by injection He as <- <- | done].
  - case_match; [by injection He as <- <- |].
    apply bind_Ok in He as (l1 & E1%advance_lt & He). apply bind_Ok in He as (l2 & E2%skip_le & He).
    apply bind_Ok in He as ([[i l3] |] & E3 & He); [|done].
    apply then_skip_inv in E3 as (l0 & E3%p_consumes & ?). apply IH in He. lia.
Qed.
Lemma parse_member_lt l i l' : parse_member p l = Ok (Some (i, l')) -> (length l' < length l)%nat.
Proof.
  unfold parse_member. intros He. apply bind_Ok in He as ([[j l1] |] & E1 & He); [|done].
  apply then_skip_inv in E1 as (l0 & E1 & ?). apply parse_string_lt in E1. case_match; [done |].
  apply bind_Ok in He as (l2 & E2%advance_lt & He). apply bind_Ok in He as (l3 & E3%skip_le & He).
  apply then_skip_inv in He as (l4 & E4%p_consumes & ?). lia.
Qed.
Lemma parse_members_le n acc l cs l' : parse_members p n acc l = Ok (Some (cs, l')) ->
  (length l' <= length l)%nat.
Proof.
  revert acc l. induction n as [|n IH]; intros acc l He; cbn in He.
  - case_match; [by injection He as <- <- | done].
  - case_match; [by injection He as <- <- |].
    apply bind_Ok in He as (l1 & E1%advance_lt & He). apply bind_Ok in He as (l2 & E2%skip_le & He).
    apply bind_Ok in He as ([[i l3] |] & E3 & He); [|done]. apply parse_member_lt in E3. apply IH in He. lia.
Qed.
Lemma parse_array_lt n item l i l' : parse_array p n item l = Ok (Some (i, l')) -> (length l' < length l)%nat.
Proof.
  unfold parse_array. case_match; [done |]. intros He.
  apply bind_Ok in He as (l1 & E1%advance_lt & He). apply bind_Ok in He as (l2 & E2%skip_le & He).
  case_match; [injection He as <- <-; rewrite length_drop; lia |].
  apply bind_Ok in He as (l3 & E3%skip_le & He). apply bind_Ok in He as ([[j l4] |] & E4 & He); [|done].
  apply then_skip_inv in E4 as (l0 & E4%p_consumes & ?).
  apply bind_Ok in He as ([[cs l5] |] & E5 & He); [|done]. apply parse_elements_le in E5.
  case_match; [|done]. injection He as <- <-. rewrite length_drop. lia.
Qed.
Lemma parse_object_lt n item l i l' : parse_object p n item l = Ok (Some (i, l')) -> (length l' < length l)%nat.
Proof.
  unfold parse_object. case_match; [done |]. intros He.
  apply bind_Ok in He as (l1 & E1%advance_lt & He). apply bind_Ok in He as (l2 & E2%skip_le & He).
  case_match; [injection He as <- <-; rewrite length_drop; lia |].
  apply bind_Ok in He as (l3 & E3%skip_le & He).
  apply bind_Ok in He as ([[j l4] |] & E4 & He); [|done]. apply parse_member_lt in E4.
  apply bind_Ok in He as ([[cs l5] |] & E5 & He); [|done]. apply parse_members_le in E5.
  case_match; [|done]. injection He as <- <-. rewrite length_drop. lia.
Qed.
End Nested.

Lemma starts_with_length w l : starts_with w l = true -> (String.length w <= length l)%nat.
Proof.
  unfold starts_with. intros Hw%bool_decide_eq_true.
  assert (length (take (String.length w) l) = String.length w) as Hl.
  { rewrite Hw. clear. induction w; cbn; lia. }
  rewrite length_take in Hl. lia.
Qed.
Lemma parse_value_consumes n : consumes (parse_value n).
Proof.
  induction n as [|n IH]; intros item l i l' Hp; [done |]. cbn [parse_value] in Hp.
  destruct (starts_with "null" l) eqn:E1.
  { apply starts_with_length in E1. injection Hp as <- <-. rewrite length_drop. cbn in *. lia. }
  destruct (starts_with "false" l) eqn:E2.
  { apply starts_with_length in E2. injection Hp as <- <-. rewrite length_drop. cbn in *. lia. }
  destruct (starts_with "true" l) eqn:E3.
  { apply starts_with_length in E3. injection Hp as <- <-. rewrite length_drop. cbn in *. lia. }
  destruct (peek l =? 34); [by apply parse_string_lt in Hp |].
  fold (number_start (peek l)) in Hp. destruct (number_start (peek l)) eqn:E4.
  { apply fmap_Ok in Hp as ([i0 l0] & Hp & [= -> ->]). by apply parse_number_lt in Hp. }
  destruct (peek l =? 91); [by apply parse_array_lt in Hp |].
  destruct (peek l =? 123); [by apply parse_object_lt in Hp | done].
Qed.

(** Two parsers that agree on texts of at most [k] characters. *)
Definition agree k (p q : cJSON -> list ascii -> res (option (cJSON * list ascii))) : Prop :=
  forall item l, (length l <= k)%nat -> p item l = q item l.

Section Agree.
Variables (p q : cJSON -> list ascii -> res (option (cJSON * list ascii))) (k : nat).
Hypothesis p_q : agree k p q.
Hypothesis p_consumes : consumes p.

Lemma parse_elements_agree n m acc l : (length l <= S k)%nat -> (length l <= n)%nat -> (length l <= m)%nat ->
  parse_elements p n acc l = parse_elements q m acc l.
Proof.
  revert m acc l. induction n as [|n IH]; intros m acc l Hk Hn Hm.
  { destruct l; [by destruct m | cbn in Hn; lia]. }
  destruct m as [|m]; [destruct l; [done | cbn in Hm; lia] |]. cbn.
  case_match; [done |]. destruct (advance l) as [l1| |] eqn:E1; [|done..]. cbn.
  destruct (skip l1) as [l2| |] eqn:E2; [|done..]. cbn.
  apply advance_lt in E1. apply skip_le in E2. rewrite p_q by lia.
  destruct (then_skip (q cJSON_New_Item l2)) as [[[i l3] |]| |] eqn:E3; [|done..]. cbn.
  apply then_skip_inv in E3 as (l0 & E3 & ?). rewrite <- p_q in E3 by lia. apply p_consumes in E3.
  apply IH; lia.
Qed.
Lemma parse_member_agree l : (length l <= S k)%nat -> parse_member p l = parse_member q l.
Proof.
  intros Hk. unfold parse_member.
  destruct (then_skip (parse_string _ l)) as [[[i l1] |]| |] eqn:E1; [|done..]. cbn.
  case_match; [done |]. destruct (advance l1) as [l2| |] eqn:E2; [|done..]. cbn.
  destruct (skip l2) as [l3| |] eqn:E3; [|done..]. cbn.
  apply then_skip_inv in E1 as (l0 & E1 & ?). apply parse_string_lt in E1. apply advance_lt in E2.
  apply skip_le in E3. by rewrite p_q by lia.
Qed.
Lemma parse_members_agree n m acc l : (length l <= S k)%nat -> (length l <= n)%nat -> (length l <= m)%nat ->
  parse_members p n acc l = parse_members q m acc l.
Proof.
  revert m acc l. induction n as [|n IH]; intros m acc l Hk Hn Hm.
  { destruct l; [by destruct m | cbn in Hn; lia]. }
  destruct m as [|m]; [destruct l; [done | cbn in Hm; lia] |]. cbn.
  case_match; [done |]. destruct (advance l) as [l1| |] eqn:E1; [|done..]. cbn.
  destruct (skip l1) as [l2| |] eqn:E2; [|done..]. cbn.
  apply advance_lt in E1. apply skip_le in E2. rewrite <- parse_member_agree by lia.
  destruct (parse_member p l2) as [[[i l3] |]| |] eqn:E3; [|done..]. cbn.
  apply parse_member_lt in E3; [|done]. apply IH; lia.
Qed.
Lemma parse_array_agree n m item l : (length l <= S k)%nat -> (length l <= S n)%nat -> (length l <= S m)%nat ->
  parse_array p n item l = parse_array q m item l.
Proof.
  intros Hk Hn Hm. unfold parse_array. case_match; [done |].
  destruct (advance l) as [l1| |] eqn:E1; [|done..]. cbn [mbind res_bind].
  destruct (skip l1) as [l2| |] eqn:E2; [|done..]. cbn [mbind res_bind]. case_match; [done |].
  destruct (skip l2) as [l3| |] eqn:E3; [|done..]. cbn [mbind res_bind].
  apply advance_lt in E1. apply skip_le in E2, E3. rewrite p_q by lia.
  destruct (then_skip (q cJSON_New_Item l3)) as [[[i l4] |]| |] eqn:E4; [|done..]. cbn [mbind res_bind].
  apply then_skip_inv in E4 as (l0 & E4 & ?). rewrite <- p_q in E4 by lia. apply p_consumes in E4.
  by rewrite (parse_elements_agree n m) by lia.
Qed.
Lemma parse_object_agree n m item l : (length l <= S k)%nat -> (length l <= S n)%nat -> (length l <= S m)%nat ->
  parse_object p n item l = parse_object q m item l.
Proof.
  intros Hk Hn Hm. unfold parse_object. case_match; [done |].
  destruct (advance l) as [l1| |] eqn:E1; [|done..]. cbn [mbind res_bind].
  destruct (skip l1) as [l2| |] eqn:E2; [|done..]. cbn [mbind res_bind]. case_match; [done |].
  destruct (skip l2) as [l3| |] eqn:E3; [|done..]. cbn [mbind res_bind].
  apply advance_lt in E1. apply skip_le in E2, E3. rewrite <- parse_member_agree by lia.
  destruct (parse_member p l3) as [[[i l4] |]| |] eqn:E4; [|done..]. cbn [mbind res_bind].
  apply parse_member_lt in E4; [|done]. by rewrite (parse_members_agree n m) by lia.
Qed.
End Agree.

(** More nesting or more rounds than the text has characters change nothing. *)
Lemma parse_value_fuel n m item l : (length l < n)%nat -> (length l < m)%nat ->
  parse_value n item l = parse_value m item l.
Proof.
  revert m item l. induction n as [|n IH]; intros m item l Hn Hm; [lia |].
  destruct m as [|m]; [lia |].
  destruct (decide (length l = 0%nat)) as [Hl | Hl]; [by destruct l |].
  assert (agree (length l - 1) (parse_value n) (parse_value m)) as Ha
    by (intros it x Hx; apply IH; lia).
  cbn [parse_value]. repeat (case_match; [done |]).
  destruct (peek l =? 91); [apply (parse_array_agree _ _ (length l - 1)); auto using parse_value_consumes; lia |].
  destruct (peek l =? 123); [|done].
  apply (parse_object_agree _ _ (length l - 1)); auto using parse_value_consumes; lia.
Qed.
End Ending.
