(* ===== verification/MessageEncoding.v ===== *)
(** Messages between processes (MessageEncoding.cpp): commands, states and errors as
    JSON texts, and their decoding. [DYNAMIC_VALUES] is not defined in the build, so
    dynamic values have no text. *)
From S2P Require Import Prelude Cnum Tokeniser Value SymbolTable Json.
From Stdlib Require Import SpecFloat Ascii.
Open Scope Z_scope.

Abbreviation text := (list ascii).

Section Encoding.
Context `{DynEnv} `{Libm}.

Definition valueType (v : Value) : string :=
  match kind v with
  | t_symbol => "NAME"
  | t_string => "STRING"
  | t_integer => "INTEGER"
  | t_float => "FLOAT"
  | t_bool => "BOOL"
  | t_empty | t_dynamic => ""
  end.

(** The item a value becomes; none for an empty or dynamic value. *)
Definition value_item (val : Value) : res (option cJSON) :=
  match kind val with
  | t_symbol | t_string => Ok (Some (cJSON_CreateString (chars (sValue val))))
  | t_integer => i ← rd (iValue val); Ok (Some (cJSON_CreateLong i))
  | t_float => f ← rd (fValue val); Ok (Some (cJSON_CreateDouble f))
  | t_bool => b ← rd (bValue val); Ok (Some (if b : bool then cJSON_CreateTrue else cJSON_CreateFalse))
  | t_empty | t_dynamic => Ok None
  end.
Definition addValueToJSONObject (obj : cJSON) (name : string) (val : Value) : res cJSON :=
  o ← value_item val;
  Ok (match o with Some i => cJSON_AddItemToObject obj (chars name) i | None => obj end).
Definition addValueToJSONArray (obj : cJSON) (val : Value) : res cJSON :=
  o ← value_item val;
  Ok (match o with Some i => cJSON_AddItemToArray obj i | None => obj end).

Definition AddString (obj : cJSON) (name : string) (s : text) : cJSON :=
  cJSON_AddItemToObject obj (chars name) (cJSON_CreateString s).

(** The parameters of a command that differ from [Null], each with its type. *)
Fixpoint encode_params (cjParams : cJSON) (ps : list Value) : res cJSON :=
  match ps with
  | [] => Ok cjParams
  | val :: ps' =>
      d ← value_ne val Null;
      if d : bool then
        let cjItem := AddString cJSON_CreateObject "type" (chars (valueType val)) in
        cjItem ← addValueToJSONObject cjItem "value" val;
        encode_params (cJSON_AddItemToArray cjParams cjItem) ps'
      else encode_params cjParams ps'
  end.
Definition encodeCommand (cmd : string) (params : option (list Value)) : res text :=
  let msg := AddString cJSON_CreateObject "command" (chars cmd) in
  cjParams ← encode_params cJSON_CreateArray (default [] params);
  cJSON_PrintUnformatted (cJSON_AddItemToObject msg (chars "params") cjParams).

(** The form with up to four parameters. *)
Fixpoint not_null (ps : list Value) : res (list Value) :=
  match ps with
  | [] => Ok []
  | p :: ps' => d ← value_ne p Null; r ← not_null ps'; Ok (if d : bool then p :: r else r)
  end.
Definition encodeCommand4 (cmd : string) (p1 p2 p3 p4 : Value) : res text :=
  ps ← not_null [p1; p2; p3; p4]; encodeCommand cmd (Some ps).

(** [encodeState]: the names are copied between quotes as they are. *)
Definition state_prefix : text :=
  Eval vm_compute in chars "{" ++ [chr 34] ++ chars "command" ++ [chr 34] ++ chars ":" ++ [chr 34]
    ++ chars "STATE" ++ [chr 34] ++ chars ", " ++ [chr 34] ++ chars "params" ++ [chr 34] ++ chars ":[".
Definition quoted_text (s : string) : text := [chr 34] ++ c_str (chars s) ++ [chr 34].
(** [%PRId64] shows the authority as a signed number. *)
Definition encodeState_auth (machine state : string) (authority : Z) : text :=
  snprintf_buf (String.length machine + String.length state + 80)
    (state_prefix ++ quoted_text machine ++ chars ", " ++ quoted_text state ++ chars ", "
     ++ print_long (to_s64 authority) ++ chars "]} ").
Definition encodeState (machine state : string) : text :=
  snprintf_buf (String.length machine + String.length state + 50)
    (state_prefix ++ quoted_text machine ++ chars ", " ++ quoted_text state ++ chars "]}").

Definition encodeError (error : string) : res text :=
  cJSON_PrintUnformatted (AddString cJSON_CreateObject "error" (chars error)).

(** ** Decoding *)
Definition valueFromJSONObject (obj cjType : option cJSON) : SM Tokeniser Value :=
  (match obj with
   | None => sret Null
   | Some obj =>
       let? type :=
         match cjType with
         | Some c => _ ← assert (bool_decide (jtype c = cJSON_String)); s ← rd (valuestring c); Ok s
         | None => Ok (chars "STRING")
         end in
       match jtype obj with
       | cJSON_String =>
           let? s := rd (valuestring obj) in
           if bool_decide (type = chars "STRING")
           then let! v := Value_cstr (str s) t_string in sret (assign Value_empty v)
           else let! v := Value_cstr (str s) t_symbol in sret (assign Value_empty v)
       | cJSON_NULL => sret (assign Value_empty Null)
       | cJSON_True => sret (assign Value_empty (Value_bool true))
       | cJSON_False => sret (assign Value_empty (Value_bool false))
       | cJSON_Number =>
           match valueNumber obj with
           | cJSON_Number_int_t z => sret (assign Value_empty (Value_long z))
           | cJSON_Number_double_t d => sret (assign Value_empty (Value_double d))
           end
       | cJSON_Array | cJSON_Object => sret (assign Value_empty Null)
       end
   end)%sm.

(** The item of a parameter: bare in a STATE message, otherwise an object with its
    type and value. *)
Definition param_value (bare : bool) (item : option cJSON) : SM Tokeniser Value :=
  (if bare then valueFromJSONObject item None
   else
     let? type := cJSON_GetObjectItem item (chars "type") in
     let? value := cJSON_GetObjectItem item (chars "value") in
     valueFromJSONObject value type)%sm.
(** [n] parameters from index [i]; a value that equals [Null] is left out, except
    where [keep_null]. *)
Fixpoint decode_params (bare keep_null : bool) (cjParams : option cJSON) (i : Z) (n : nat)
    : SM Tokeniser (list Value) :=
  (match n with
   | O => sret []
   | S n' =>
       let? item := cJSON_GetArrayItem cjParams i in
       let! v := param_value bare item in
       let? d := value_ne v Null in
       let! vs := decode_params bare keep_null cjParams (i + 1) n' in
       sret (if keep_null || d then v :: vs else vs)
   end)%sm.
(** The list is null when there are no parameters. *)
Definition message_params (bare keep_null : bool) (obj : cJSON) : SM Tokeniser (option (list Value)) :=
  (let? cjParams := cJSON_GetObjectItem (Some obj) (chars "params") in
   let? num_params := cJSON_GetArraySize cjParams in
   if num_params =? 0 then sret None
   else let! vs := decode_params bare keep_null cjParams 0 (Z.to_nat num_params) in
        sret (Some vs))%sm.

(** The text of the member "command", when it is a string. *)
Definition command_of (obj : cJSON) : res (option text) :=
  command ← cJSON_GetObjectItem (Some obj) (chars "command");
  match command with
  | None => Ok None
  | Some c => if bool_decide (jtype c = cJSON_String) then s ← rd (valuestring c); Ok (Some s) else Ok None
  end.

(** [getCommand] and [getState]: [None] is the answer false, which leaves [cmd] and
    [params] alone. *)
Definition decode (bare : string -> bool) (keep_null : string -> bool) (msg : text)
    : SM Tokeniser (option (string * option (list Value))) :=
  (let? obj := cJSON_Parse msg in
   match obj with
   | None => sret None
   | Some obj =>
       let? command := command_of obj in
       match command with
       | None => sret None
       | Some s =>
           let cmd := str s in
           let! ps := message_params (bare cmd) (keep_null cmd) obj in
           sret (Some (cmd, ps))
       end
   end)%sm.
Definition is_state (cmd : string) : bool := bool_decide (cmd = "STATE").
(** The form for a list; the form for a vector keeps nulls in a STATE message. *)
Definition getCommand : text -> SM Tokeniser (option (string * option (list Value))) :=
  decode is_state (fun _ => false).
Definition getCommand_vector : text -> SM Tokeniser (option (string * option (list Value))) :=
  decode is_state is_state.
Definition getState : text -> SM Tokeniser (option (string * option (list Value))) :=
  decode (fun _ => true) (fun _ => false).
End Encoding.
