(* ===== verification/MessageEncodingProps.v ===== *)
(** Properties of the messages between processes: a command that is encoded is
    decoded to the same command with the same parameters, and where that fails. *)
From S2P Require Import Prelude Cnum Tokeniser Value SymbolTable Json JsonProps JsonEnds MessageEncoding.
From Stdlib Require Import SpecFloat Ascii.
Open Scope Z_scope.

(** ** Plain texts: without NUL and without the control characters that are lost *)
Definition plain (s : string) : Prop := Forall (fun c => kept c = true) (chars s).
#[export] Instance plain_dec s : Decision (plain s).
Proof. unfold plain. apply _. Defined.

Lemma plain_visible s : plain s -> visible (chars s) = chars s.
Proof.
  unfold plain, visible. induction 1 as [|c l Hc _ IH]; cbn; [done |]. by rewrite Hc, IH.
Qed.
Lemma kept_nul c : kept c = true -> code c <> 0.
Proof. intros Hk Hc. unfold kept, escape in Hk. by rewrite Hc in Hk. Qed.
Lemma plain_c_str s : plain s -> c_str (chars s) = chars s.
Proof. intros Hs. apply c_str_id. eapply List.Forall_impl; [|exact Hs]. intros c. apply kept_nul. Qed.
Lemma str_chars s : str (chars s) = s.
Proof. apply String.string_of_list_ascii_of_string. Qed.

Lemma chars_length s : length (chars s) = String.length s.
Proof. induction s as [|c s IH]; [done |]. cbn. by f_equal. Qed.

Lemma string_item s : plain s -> cJSON_CreateString (chars s) = set_text (chars s) cJSON_New_Item.
Proof. intros Hs. unfold cJSON_CreateString. by rewrite plain_c_str. Qed.

Lemma value_ne_null `{DynEnv} v : kind v <> t_empty -> value_ne v Null = Ok true.
Proof. intros Hv. unfold value_ne. destruct v as [[] b i f s tok d]; try done. Qed.

Section Messages.
Context `{DynEnv} `{Libm}.

(** ** Values that survive *)
(** [true] and [false] as symbols are booleans, [NULL] is empty: no symbol has these
    names. An integer must have at most 53 bits, and the text of a float must be
    readable. *)
Definition sendable (v : Value) : Prop :=
  match kind v with
  | t_string => plain (sValue v)
  | t_symbol => plain (sValue v) /\ sValue v ∉ ["TRUE"; "FALSE"; "NULL"]
  | t_integer => exists z, iValue v = Some z /\ - 2 ^ 53 <= z <= 2 ^ 53
  | t_bool => is_Some (bValue v)
  | t_float => exists d d', fValue v = Some d /\
      reread (cJSON_Number_double_t d) = Ok (cJSON_Number_double_t d')
  | t_empty | t_dynamic => False
  end.
(** [v'] is [v] as the other side sees it, with the tokens [t] of that side. *)
Definition received (t : Tokeniser) (v v' : Value) : Prop :=
  kind v' = kind v /\
  match kind v with
  | t_string => sValue v' = sValue v
  | t_symbol => sValue v' = sValue v /\
      (sValue v <> "" -> exists id, tokens t !! sValue v = Some id /\ token_id v' = Some id)
  | t_integer => iValue v' = iValue v
  | t_bool => bValue v' = bValue v
  | t_float => exists d d', fValue v = Some d /\ fValue v' = Some d' /\
      reread (cJSON_Number_double_t d) = Ok (cJSON_Number_double_t d')
  | t_empty | t_dynamic => True
  end.
Lemma received_ext t t' v v' : tok_ext t t' -> received t v v' -> received t' v v'.
Proof.
  intros [Hs _] [Hk Hr]. split; [done |]. destruct (kind v); try done. destruct Hr as [Hr Ht].
  split; [done |]. intros Hn. destruct (Ht Hn) as (id & Hid & E). exists id. split; [|done].
  by eapply lookup_weaken.
Qed.
Lemma sendable_not_null v : sendable v -> value_ne v Null = Ok true.
Proof. intros Hs. apply value_ne_null. intros Hk. unfold sendable in Hs. by rewrite Hk in Hs. Qed.
Lemma received_not_null t v v' : sendable v -> received t v v' -> value_ne v' Null = Ok true.
Proof.
  intros Hs [Hk _]. apply value_ne_null. rewrite Hk. intros E. unfold sendable in Hs. by rewrite E in Hs.
Qed.

(** The item of a type. *)
Definition type_item (v : Value) : cJSON := set_text (chars (valueType v)) cJSON_New_Item.
Lemma plain_type v : plain (valueType v).
Proof. unfold plain, valueType. destruct (kind v); repeat constructor. Qed.

Lemma token_room name t : tok_wf t -> next t < INT_MAX -> exists id t', getTokenId name t = Ok (id, t') /\
  tok_wf t' /\ tok_ext t t' /\ tokens t' !! name = Some id /\ next t' <= next t + 1.
Proof.
  intros Hw Hn. destruct (getTokenId name t) as [[id t'] | |] eqn:E.
  - destruct (getTokenId_inv _ _ _ _ Hw E) as (Hw' & He & Hl). exists id, t'. do 4 (split; [done |]).
    unfold getTokenId in E. destruct (tokens t !! name); simplify_eq/=; [lia |].
    destruct (int_of (next t + 1)) as [n| |] eqn:E2; simplify_eq/=.
    unfold int_of in E2. case_match; simplify_eq/=. lia.
  - unfold getTokenId in E. destruct (tokens t !! name); [done |]. unfold int_of in E.
    destruct Hw as [_ _ Hx]. assert (in_int (next t + 1) = true) as Hi
      by (apply in_int_spec; unfold INT_MIN; lia). by rewrite Hi in E.
  - unfold getTokenId in E. destruct (tokens t !! name); [done |]. unfold int_of in E. by case_match.
Qed.

(** A value that can be sent has an item, which is read back and decoded. *)
Lemma sendable_item v : sendable v -> exists i i', value_item v = Ok (Some i) /\ reread_item i = Ok i' /\
  forall nm ty t, jtype ty = cJSON_String -> valuestring ty = Some (chars (valueType v)) ->
    tok_wf t -> next t < INT_MAX ->
    exists v' t', valueFromJSONObject (Some (set_name nm i')) (Some ty) t = Ok (v', t') /\
      received t' v v' /\ tok_wf t' /\ tok_ext t t' /\ next t' <= next t + 1.
Proof.
  intros Hs. unfold sendable in Hs. unfold value_item, received, valueType.
  destruct (kind v) eqn:K; [done | | | | | done |].
  - destruct Hs as (z & Hz & Hr). rewrite Hz. eexists _, _. split; [done |]. split.
    { cbn. rewrite reread_int by done. done. }
    intros nm ty t Ht Hty Hw Hn. cbn. rewrite Hty, bool_decide_true by done. cbn.
    eexists _, t. split; [done |]. split; [by repeat split | split; [done | split; [apply tok_ext_refl | lia]]].
  - rewrite string_item by done. eexists _, _. split; [done |]. split.
    { cbn. rewrite plain_c_str, plain_visible by done. done. }
    intros nm ty t Ht Hty Hw Hn. cbn. rewrite Hty, bool_decide_true by done. cbn.
    eexists _, t. split; [by rewrite str_chars |]. split; [by repeat split | split; [done | split; [apply tok_ext_refl | lia]]].
  - destruct Hs as [b Hb]. rewrite Hb. destruct b; (eexists _, _; split; [done |]; split; [done |];
      intros nm ty t Ht Hty Hw Hn; cbn; rewrite Hty, bool_decide_true by done; cbn;
      eexists _, t; split; [done |]; split; [by repeat split | split; [done | split; [apply tok_ext_refl | lia]]]).
  - destruct Hs as [Hp Hlit]. rewrite string_item by done. eexists _, _. split; [done |]. split.
    { cbn. rewrite plain_c_str, plain_visible by done. done. }
    intros nm ty t Ht Hty Hw Hn. cbn. rewrite Hty, bool_decide_true by done. cbn.
    rewrite bool_decide_false by done. rewrite str_chars. unfold Value_cstr. cbn [Kind_eqb andb].
    destruct (decide (sValue v = "")) as [E | E].
    { rewrite bool_decide_true by done. cbn. eexists _, t. split; [done |]. split; [by repeat split | split; [done | split; [apply tok_ext_refl | lia]]]. }
    rewrite !elem_of_cons in Hlit. rewrite !bool_decide_false by tauto. cbn [negb].
    destruct (token_room (sValue v) t Hw Hn) as (id & t' & Hid & Hw' & He & Hl & Hx).
    unfold sbind at 1 2. rewrite Hid. eexists _, t'. split; [done |].
    split; [|done]. split; [done |]. split; [done |]. intros _. by exists id.
  - destruct Hs as (d & d' & Hd & Hr). rewrite Hd. eexists _, _. split; [done |]. split.
    { cbn. rewrite Hr. done. }
    intros nm ty t Ht Hty Hw Hn. cbn. rewrite Hty, bool_decide_true by done. cbn.
    eexists _, t. split; [done |]. split; [split; [done | by exists d, d'] |]. split; [done |]. split; [apply tok_ext_refl | lia].
Qed.

(** [it] is what the other side reads for the parameter [v]. *)
Definition decodes (v : Value) (it : cJSON) : Prop :=
  jtype it = cJSON_Object /\ forall t, tok_wf t -> next t < INT_MAX ->
    exists v' t', param_value false (Some it) t = Ok (v', t') /\
      received t' v v' /\ tok_wf t' /\ tok_ext t t' /\ next t' <= next t + 1.

Lemma reread_named nm i : reread_item (set_name nm i) = reread_item i.
Proof. by destruct i as [[] vs n nm' cs]. Qed.
Lemma reread_object vs n nm cs : reread_item (mkItem cJSON_Object vs n nm cs)
  = cs' ← collect (map (fun c => name ← rd (jname c); c' ← reread_item c;
      Ok (set_name (visible (c_str name)) c')) cs);
    Ok (set_child cs' cJSON_CreateObject).
Proof. done. Qed.
Lemma reread_type_value s i :
  reread_item (cJSON_AddItemToArray (cJSON_AddItemToArray cJSON_CreateObject
    (set_name (c_str (chars "type")) (set_text s cJSON_New_Item))) (set_name (c_str (chars "value")) i))
  = i' ← reread_item i; Ok (set_child [set_name (chars "type") (set_text (visible (c_str s)) cJSON_New_Item);
      set_name (chars "value") i'] cJSON_CreateObject).
Proof.
  unfold cJSON_AddItemToArray, cJSON_CreateObject, set_type, set_child. cbn [child jtype valuestring valueNumber jname cJSON_New_Item app].
  rewrite reread_object. cbn [map collect jname set_name rd mbind res_bind]. rewrite reread_named.
  by destruct (reread_item i).
Qed.

Lemma sendable_param v : sendable v -> exists it it',
  addValueToJSONObject (AddString cJSON_CreateObject "type" (chars (valueType v))) "value" v = Ok it /\
  reread_item it = Ok it' /\ decodes v it'.
Proof.
  intros Hs. destruct (sendable_item v Hs) as (i & i' & Hi & Hr & Hd).
  unfold addValueToJSONObject. rewrite Hi. cbn [mbind res_bind]. eexists _, _. split; [done |].
  unfold AddString, cJSON_AddItemToObject. rewrite string_item by apply plain_type. split.
  - rewrite reread_type_value, Hr. cbn [mbind res_bind].
    by rewrite (plain_c_str (valueType v)), plain_visible by apply plain_type.
  - split; [done |]. intros t Hw Hn. unfold param_value. cbn -[valueFromJSONObject chars].
    exact (Hd _ (set_name _ (set_text (chars (valueType v)) cJSON_New_Item)) t eq_refl eq_refl Hw Hn).
Qed.

Lemma encode_params_ok vs arr : Forall sendable vs -> exists its its',
  encode_params arr vs = Ok (set_child (child arr ++ its) arr) /\
  collect (map reread_item its) = Ok its' /\ Forall2 decodes vs its'.
Proof.
  intros Hvs. revert arr. induction Hvs as [|v vs Hv _ IH]; intros arr; cbn [encode_params].
  - exists [], []. rewrite app_nil_r. split; [by destruct arr | by split].
  - rewrite (sendable_not_null v Hv). cbn [mbind res_bind].
    destruct (sendable_param v Hv) as (it & it' & -> & Hr & Hd). cbn [mbind res_bind].
    destruct (IH (cJSON_AddItemToArray arr it)) as (its & its' & -> & Hrs & Hds).
    exists (it :: its), (it' :: its'). cbn. rewrite Hr, Hrs, <- app_assoc. split; [done |].
    split; [done | by constructor].
Qed.

Lemma decode_params_ok vs its arr : Forall2 decodes vs its -> Forall sendable vs -> forall pre t,
  child arr = pre ++ its -> tok_wf t -> next t + Z.of_nat (length vs) <= INT_MAX ->
  exists vs' t', decode_params false false (Some arr) (Z.of_nat (length pre)) (length its) t = Ok (vs', t') /\
    Forall2 (received t') vs vs' /\ tok_wf t' /\ tok_ext t t' /\ next t' <= next t + Z.of_nat (length vs).
Proof.
  intros Hd. induction Hd as [|v it vs its Hv _ IH]; intros Hs pre t Hc Hw Hn; cbn [decode_params length].
  - exists [], t. split; [done |]. split; [constructor |]. split; [done | split; [apply tok_ext_refl | lia]].
  - apply List.Forall_cons_iff in Hs as [Hsv Hs]. cbn [length] in Hn.
    assert (child arr !! Z.to_nat (Z.of_nat (length pre)) = Some it) as Hit.
    { rewrite Nat2Z.id, Hc, lookup_app_r, Nat.sub_diag by lia. done. }
    destruct (proj2 Hv t Hw ltac:(lia)) as (v' & t1 & Hp & Hr & Hw1 & He1 & Hn1).
    destruct (IH Hs (pre ++ [it]) t1) as (vs' & t' & Hp2 & Hr2 & Hw2 & He2 & Hn2);
      [by rewrite Hc, <- app_assoc | done | lia |].
    exists (v' :: vs'), t'. split.
    + unfold cJSON_GetArrayItem. cbn [rd mbind res_bind]. rewrite Hit.
      rewrite (slift_run _ _ _ (Some it)) by done. rewrite (sbind_run _ _ _ _ _ Hp).
      rewrite (slift_run _ _ _ true) by (exact (received_not_null t1 v v' Hsv Hr)).
      rewrite length_app in Hp2. cbn [length] in Hp2.
      replace (Z.of_nat (length pre) + 1) with (Z.of_nat (length pre + 1)) by lia.
      by rewrite (sbind_run _ _ _ _ _ Hp2).
    + split; [constructor; [by apply (received_ext t1) | done] |].
      split; [done | split; [by apply (tok_ext_trans _ t1) | lia]].
Qed.

(** The object of a message, and its parameters. *)
Definition message_item (c : cJSON) (cs : list cJSON) : cJSON := set_child
  [set_name (chars "command") c; set_name (chars "params") (set_child cs cJSON_CreateArray)]
  cJSON_CreateObject.
Lemma message_params_run bare kn c cs t : message_params bare kn (message_item c cs) t =
  match cs with
  | [] => sret None
  | _ => sbind (decode_params bare kn
      (Some (set_name (chars "params") (set_child cs cJSON_CreateArray))) 0 (length cs))
      (fun vs => sret (Some vs))
  end t.
Proof.
  unfold message_params.
  rewrite (slift_run _ _ _ (Some (set_name (chars "params") (set_child cs cJSON_CreateArray)))) by done.
  rewrite (slift_run _ _ _ (Z.of_nat (length cs))) by done. destruct cs as [|x cs]; [done |].
  destruct (Z.eqb_spec (Z.of_nat (length (x :: cs))) 0) as [E |]; [done |]. by rewrite Nat2Z.id.
Qed.

(** A command with sendable parameters is printed, and the text parses to the command. *)
Lemma encode_command_ok cmd vs : plain cmd -> Forall sendable vs ->
  exists msg its', encodeCommand cmd (Some vs) = Ok msg /\
    cJSON_Parse msg = Ok (Some (message_item (set_text (chars cmd) cJSON_New_Item) its')) /\
    Forall2 decodes vs its'.
Proof.
  intros Hcmd Hvs. unfold encodeCommand. change (default [] (Some vs)) with vs.
  destruct (encode_params_ok vs cJSON_CreateArray Hvs) as (its & its' & -> & Hrs & Hds).
  cbn [mbind res_bind]. set (tree := cJSON_AddItemToObject _ _ _).
  assert (reread_item tree = Ok (message_item (set_text (chars cmd) cJSON_New_Item) its')) as Hr.
  { subst tree. unfold AddString, cJSON_AddItemToObject. rewrite string_item by done.
    cbn -[chars visible c_str]. rewrite Hrs. cbn -[chars visible c_str].
    by rewrite (plain_c_str cmd), plain_visible by done. }
  destruct (parse_print tree _ false Hr) as (msg & Hp & Hparse). eauto.
Qed.

Lemma command_decodes cmd vs t : plain cmd -> cmd <> "STATE" -> Forall sendable vs ->
  tok_wf t -> next t + Z.of_nat (length vs) <= INT_MAX ->
  exists msg vs' t', encodeCommand cmd (Some vs) = Ok msg /\
    getCommand msg t = Ok (Some (cmd, match vs' with [] => None | _ => Some vs' end), t') /\
    Forall2 (received t') vs vs' /\ tok_wf t' /\ tok_ext t t' /\ next t' <= next t + Z.of_nat (length vs).
Proof.
  intros Hcmd Hst Hvs Hw Hn. destruct (encode_command_ok cmd vs Hcmd Hvs) as (msg & its' & Hp & Hparse & Hds).
  assert (length vs = length its') as Hlen by exact (Forall2_length Hds).
  destruct (decode_params_ok vs its' (set_name (chars "params") (set_child its' cJSON_CreateArray))
    Hds Hvs [] t eq_refl Hw Hn) as (vs' & t' & Hdec & Hrec & Hw' & He).
  exists msg, vs', t'. split; [exact Hp |]. split; [|done].
  unfold getCommand, decode. rewrite (slift_run _ _ _ _ Hparse).
  rewrite (slift_run _ _ _ (Some (chars cmd))) by done. rewrite str_chars.
  unfold is_state. rewrite bool_decide_false by done.
  rewrite (sbind_run _ _ _ (match vs' with [] => None | _ => Some vs' end) t'); [done |].
  rewrite message_params_run. destruct its' as [|it its'].
  - destruct vs; [|done]. inversion Hrec; subst. cbn in Hdec. by injection Hdec as <-.
  - destruct vs as [|v vs]; [done |]. destruct vs' as [|v' vs']; [by inversion Hrec |].
    change (Z.of_nat (length [])) with 0 in Hdec. by rewrite (sbind_run _ _ _ _ _ Hdec).
Qed.

(** C25: a command with parameters that can be sent is encoded to a text that
    [getCommand] decodes to the same command, with the parameters in order, each of
    the same kind and contents, a float with the value its printed text reads as; the
    receiver's own token table, which has room, gives the symbols their ids. A command
    STATE is excepted. Parameters that can be sent ([sendable]) are texts without the
    control characters that the printer drops, symbols other than TRUE, FALSE and NULL,
    integers up to [2 ^ 53] in size, truth values and floats that read back as floats. *)
Theorem command_roundtrip cmd vs t : plain cmd -> cmd <> "STATE" -> Forall sendable vs ->
  tok_wf t -> next t + Z.of_nat (length vs) <= INT_MAX ->
  exists msg vs' t', encodeCommand cmd (Some vs) = Ok msg /\
    getCommand msg t = Ok (Some (cmd, match vs' with [] => None | _ => Some vs' end), t') /\
    Forall2 (received t') vs vs' /\ tok_wf t' /\ tok_ext t t'.
Proof.
  intros Hc Hs Hv Hw Hn. destruct (command_decodes cmd vs t Hc Hs Hv Hw Hn) as (msg & vs' & t' & He & Hd & Hr & Hw' & Hx & _). by exists msg, vs', t'.
Qed.

(** ** States *)
(** A name that needs no escapes. *)
Definition literal (s : string) : Prop := Forall (fun c => escape c = [c]) (chars s).
#[export] Instance literal_dec s : Decision (literal s).
Proof. unfold literal. apply _. Defined.
Lemma literal_plain s : literal s -> plain s.
Proof. apply List.Forall_impl. intros c Hc. unfold kept. by rewrite Hc. Qed.
Lemma literal_text s : literal s -> string_text (chars s) = quoted_text s.
Proof.
  intros Hs. unfold string_text, quoted_text. rewrite plain_c_str by (by apply literal_plain).
  cbn [app]. do 2 f_equal. induction Hs as [|c l Hc _ IH]; cbn [map concat]; [done |].
  by rewrite Hc, IH.
Qed.

(** An object of two members, with a space between them. *)
Lemma parse_two_members n1 v1 j1 n2 v2 j2 rest : reads v1 j1 -> reads v2 j2 ->
  cJSON_Parse ([chr 123] ++ string_text n1 ++ chr 58 :: v1 ++ chr 44 :: chr 32 :: string_text n2
    ++ chr 58 :: v2 ++ chr 125 :: rest)
  = Ok (Some (set_child [set_name (visible (c_str n1)) j1; set_name (visible (c_str n2)) j2]
      cJSON_CreateObject)).
Proof.
  intros Hr1 Hr2.
  unfold cJSON_Parse. cbn [app]. rewrite skip_now by done. cbn [mbind res_bind].
  rewrite parse_value_other by done. change (peek (chr 123 :: _)) with 123. cbn [Z.eqb Pos.eqb].
  change (number_start 123) with false. cbn iota. unfold parse_object. cbn [peek].
  change (negb (code (chr 123) =? 123)) with false. cbn [advance mbind res_bind].
  rewrite skip_now by done. cbn [mbind res_bind].
  change (peek (string_text n1 ++ _) =? 125) with false. cbn iota. rewrite skip_now by done.
  cbn [mbind res_bind]. set (N := length _).
  set (l2 := chr 44 :: chr 32 :: string_text n2 ++ chr 58 :: v2 ++ chr 125 :: rest) in *.
  assert (length (v1 ++ l2) <= N /\ S (length (v2 ++ chr 125 :: rest)) <= N /\ length l2 <= N)%nat as (HN1 & HN2 & HN3).
  { subst N l2. rewrite !length_app. cbn [length]. rewrite !length_app. cbn [length]. rewrite !length_app.
    cbn [length]. rewrite !length_app. cbn [length]. rewrite !length_app. cbn [length]. lia. }
  rewrite (parse_member_text N n1 v1 j1 [] [] l2) by (done || apply Forall_nil_2).
  cbn [mbind res_bind]. destruct N as [|N]; [lia |]. subst l2. cbn [parse_members peek].
  change (negb (code (chr 44) =? 44)) with false. cbn [advance mbind res_bind].
  assert (forall x, skip (chr 32 :: x) = skip x) as -> by done. rewrite skip_now by done.
  cbn [mbind res_bind]. rewrite (parse_member_text (S N) n2 v2 j2 [] [] (chr 125 :: rest))
    by (done || apply Forall_nil_2 || (cbn [app]; lia)).
  cbn [mbind res_bind]. by destruct N.
Qed.

(** The values of a state message. *)
Definition string_value (s : string) : Value := assign Value_empty (mkString t_string s 0).
Definition long_value (z : Z) : Value := assign Value_empty (Value_long z).

Lemma bare_string nm s t :
  param_value true (Some (rename nm (set_text (chars s) cJSON_New_Item))) t = Ok (string_value s, t).
Proof. unfold param_value. cbn. by rewrite str_chars. Qed.
Lemma bare_number nm z t :
  param_value true (Some (rename nm (set_number (cJSON_Number_int_t z) cJSON_New_Item))) t
  = Ok (long_value z, t).
Proof. done. Qed.

Lemma decode_bare cs vs arr : Forall2 (fun c v => forall t, param_value true (Some c) t = Ok (v, t) /\
    value_ne v Null = Ok true) cs vs -> forall pre t, child arr = pre ++ cs ->
  decode_params true false (Some arr) (Z.of_nat (length pre)) (length cs) t = Ok (vs, t).
Proof.
  intros Hd. induction Hd as [|c v cs vs Hv _ IH]; intros pre t Hc; cbn [decode_params length]; [done |].
  destruct (Hv t) as [Hp Hn]. unfold cJSON_GetArrayItem. cbn [rd mbind res_bind].
  rewrite Nat2Z.id, Hc, lookup_app_r, Nat.sub_diag by lia. cbn [lookup list_lookup].
  rewrite (slift_run _ _ _ (Some c)) by done. rewrite (sbind_run _ _ _ _ _ Hp).
  rewrite (slift_run _ _ _ true) by done.
  specialize (IH (pre ++ [c]) t). rewrite length_app in IH. cbn [length] in IH.
  replace (Z.of_nat (length pre) + 1) with (Z.of_nat (length pre + 1)) by lia.
  rewrite (sbind_run _ _ _ _ _ (IH ltac:(by rewrite Hc, <- app_assoc))). done.
Qed.

(** Decoding a STATE message whose parameters are bare strings and numbers. *)
Lemma decode_state (d : text -> SM Tokeniser (option (string * option (list Value)))) msg c cs vs t :
  d = getCommand \/ d = getState ->
  cJSON_Parse msg = Ok (Some (message_item (set_text (chars "STATE") cJSON_New_Item) (c :: cs))) ->
  Forall2 (fun c v => forall t, param_value true (Some c) t = Ok (v, t) /\ value_ne v Null = Ok true)
    (c :: cs) vs ->
  d msg t = Ok (Some ("STATE", Some vs), t).
Proof.
  intros Hd Hp Hcs.
  pose proof (decode_bare _ _ (set_name (chars "params") (set_child (c :: cs) cJSON_CreateArray))
    Hcs [] t eq_refl) as Hdec. change (Z.of_nat (length [])) with 0 in Hdec.
  destruct Hd as [-> | ->]; unfold getCommand, getState, decode; rewrite (slift_run _ _ _ _ Hp);
    rewrite (slift_run _ _ _ (Some (chars "STATE"))) by done.
  all: rewrite (sbind_run _ _ _ (Some vs) t); [done |]; rewrite message_params_run;
    cbn iota; exact (sbind_run _ _ _ _ _ Hdec).
Qed.

Lemma reads_name_text s : literal s -> reads (quoted_text s) (set_text (chars s) cJSON_New_Item).
Proof.
  intros Hs. rewrite <- literal_text by done. pose proof (reads_string (chars s)) as Hr.
  rewrite plain_c_str, plain_visible in Hr by (by apply literal_plain). done.
Qed.
Lemma reads_long z : - 2 ^ 53 <= z <= 2 ^ 53 ->
  reads (print_long z) (set_number (cJSON_Number_int_t z) cJSON_New_Item).
Proof.
  intros Hz. assert (LONG_MIN <= - 2 ^ 53 /\ 2 ^ 53 <= LONG_MAX) as [??] by done.
  rewrite <- (print_number_int (set_number (cJSON_Number_int_t z) cJSON_New_Item)) by (done || lia).
  by apply reads_number, reread_int.
Qed.

(** The text of a state message, and the item it is read as. *)
Lemma parse_state_text ts cs rest : Forall2 reads ts cs ->
  cJSON_Parse (state_prefix ++ join (chars ", ") ts ++ chr 93 :: chr 125 :: rest)
  = Ok (Some (message_item (set_text (chars "STATE") cJSON_New_Item) cs)).
Proof.
  intros Hts. pose proof (reads_array ts cs true Hts) as Ha. cbn iota in Ha.
  pose proof (reads_string (chars "STATE")) as Hs.
  pose proof (parse_two_members (chars "command") _ _ (chars "params") _ _ rest Hs Ha) as Hp.
  rewrite <- !app_assoc in Hp. exact Hp.
Qed.

Lemma state_text_decodes machine state authority t : literal machine -> literal state ->
  0 <= authority <= 2 ^ 53 ->
  let msg := encodeState_auth machine state authority in
  let answer := Ok (Some ("STATE", Some [string_value machine; string_value state; long_value authority]), t) in
  getState msg t = answer /\ getCommand msg t = answer.
Proof.
  intros Hm Hs Ha msg answer. assert (2 ^ 53 < LONG_MAX /\ LONG_MIN <= 0) as [??] by done.
  assert (to_s64 authority = authority) as Hauth by (apply to_s64_small; lia).
  assert (msg = state_prefix ++ join (chars ", ") [quoted_text machine; quoted_text state; print_long authority]
    ++ chr 93 :: chr 125 :: [chr 32]) as ->.
  { subst msg. unfold encodeState_auth, snprintf_buf. rewrite Hauth. rewrite take_ge.
    - cbn [join]. by rewrite <- !app_assoc.
    - pose proof (print_long_length authority ltac:(lia)). unfold quoted_text.
      rewrite !plain_c_str by (by apply literal_plain).
      rewrite !length_app. rewrite !chars_length. cbn. lia. }
  assert (Forall2 reads [quoted_text machine; quoted_text state; print_long authority]
    [set_text (chars machine) cJSON_New_Item; set_text (chars state) cJSON_New_Item;
     set_number (cJSON_Number_int_t authority) cJSON_New_Item]) as Hr.
  { repeat apply Forall2_cons; [by apply reads_name_text.. | | apply Forall2_nil]. apply reads_long. lia. }
  pose proof (parse_state_text _ _ [chr 32] Hr) as Hp.
  split; (eapply decode_state; [by auto | exact Hp |]); repeat apply Forall2_cons; try apply Forall2_nil.
  all: intros t0; (split; [|by apply value_ne_null]).
  all: first [apply (bare_string None) | apply (bare_number None)].
Qed.

(** A state message with an authority of at most 53 bits fits its buffer and is
    decoded, by [getState] and by [getCommand], to the names and the authority. *)
Theorem state_roundtrip machine state authority t : literal machine -> literal state ->
  0 <= authority <= 2 ^ 53 ->
  let msg := encodeState_auth machine state authority in
  let answer := Ok (Some ("STATE", Some [string_value machine; string_value state; long_value authority]), t) in
  getState msg t = answer /\ getCommand msg t = answer.
Proof. apply state_text_decodes. Qed.

(** ** Where messages fail *)
(** A message without "params" is not refused: the decoder asks a null pointer
    for its size. *)
Theorem missing_params_undefined cmd t : plain cmd ->
  exists msg, cJSON_PrintUnformatted (AddString cJSON_CreateObject "command" (chars cmd)) = Ok msg /\
    getCommand msg t = Undef /\ getState msg t = Undef.
Proof.
  intros Hc. set (tree := AddString _ _ _).
  assert (reread_item tree = Ok (set_child [set_name (chars "command") (set_text (chars cmd) cJSON_New_Item)]
    cJSON_CreateObject)) as Hr.
  { subst tree. unfold AddString, cJSON_AddItemToObject. rewrite string_item by done.
    cbn -[chars visible c_str]. by rewrite (plain_c_str cmd), plain_visible by done. }
  destruct (parse_print tree _ false Hr) as (msg & Hp & Hparse). exists msg. split; [done |].
  split; unfold getCommand, getState, decode; rewrite (slift_run _ _ _ _ Hparse);
    by rewrite (slift_run _ _ _ (Some (chars cmd))).
Qed.

Lemma decode_objects vs cs arr : Forall2 decodes vs cs -> forall pre t, child arr = pre ++ cs ->
  decode_params true false (Some arr) (Z.of_nat (length pre)) (length cs) t = Ok ([], t).
Proof.
  intros Hd. induction Hd as [|v c vs cs [Ho _] _ IH]; intros pre t Hc; cbn [decode_params length]; [done |].
  unfold cJSON_GetArrayItem. cbn [rd mbind res_bind].
  rewrite Nat2Z.id, Hc, lookup_app_r, Nat.sub_diag by lia. cbn [lookup list_lookup].
  rewrite (slift_run _ _ _ (Some c)) by done.
  rewrite (sbind_run _ _ _ (assign Value_empty Null) t) by (cbn; by rewrite Ho).
  rewrite (slift_run _ _ _ false) by done.
  specialize (IH (pre ++ [c]) t). rewrite length_app in IH. cbn [length] in IH.
  replace (Z.of_nat (length pre) + 1) with (Z.of_nat (length pre + 1)) by lia.
  rewrite (sbind_run _ _ _ _ _ (IH ltac:(by rewrite Hc, <- app_assoc))). done.
Qed.

(** A command STATE loses its parameters: they are sent as objects and read as bare
    values. *)
Lemma state_command_loses_params vs t : Forall sendable vs -> vs <> [] ->
  exists msg, encodeCommand "STATE" (Some vs) = Ok msg /\ getCommand msg t = Ok (Some ("STATE", Some []), t).
Proof.
  intros Hvs Hne. unfold encodeCommand. change (default [] (Some vs)) with vs.
  destruct (encode_params_ok vs cJSON_CreateArray Hvs) as (its & its' & -> & Hrs & Hds).
  cbn [mbind res_bind]. set (tree := cJSON_AddItemToObject _ _ _).
  assert (reread_item tree = Ok (message_item (set_text (chars "STATE") cJSON_New_Item) its')) as Hr.
  { subst tree. unfold AddString, cJSON_AddItemToObject. cbn -[chars visible c_str]. by rewrite Hrs. }
  destruct (parse_print tree _ false Hr) as (msg & Hp & Hparse). exists msg. split; [done |].
  unfold getCommand, decode. rewrite (slift_run _ _ _ _ Hparse).
  rewrite (slift_run _ _ _ (Some (chars "STATE"))) by done.
  rewrite (sbind_run _ _ _ (Some []) t); [done |]. rewrite message_params_run.
  destruct its' as [|it its']; [by inversion Hds; subst |].
  rewrite (sbind_run _ _ _ [] t); [done |].
  exact (decode_objects vs (it :: its') (set_name (chars "params") (set_child (it :: its') cJSON_CreateArray))
    Hds [] t eq_refl).
Qed.

(** An array that is not closed is not refused: the parser reads past the end of the
    text. *)
Lemma unclosed_array_overrun l j : reads l j -> cJSON_Parse (chr 91 :: l) = Undef.
Proof.
  intros [Hh Hn Hr]. unfold cJSON_Parse. rewrite skip_now by done. cbn [mbind res_bind].
  rewrite parse_value_other by done. change (peek (chr 91 :: l)) with 91.
  change (number_start 91) with false. cbn [Z.eqb Pos.eqb].
  unfold parse_array. cbn [peek]. change (negb (code (chr 91) =? 91)) with false. cbn [advance mbind res_bind].
  assert (32 < peek l) by (by destruct Hh). rewrite skip_now by done. cbn [mbind res_bind].
  destruct (Z.eqb_spec (peek l) 93); [destruct Hh; lia |]. rewrite skip_now by done. cbn [mbind res_bind].
  specialize (Hr (length (chr 91 :: l)) cJSON_New_Item []). rewrite app_nil_r in Hr.
  by rewrite Hr by (done || cbn; lia).
Qed.

(** Integers above 53 bits are changed, and the largest has no defined result. *)
Lemma large_integers_misread : reread (cJSON_Number_int_t (2 ^ 53 + 1)) = Ok (cJSON_Number_int_t (2 ^ 53)) /\
  reread (cJSON_Number_int_t LONG_MAX) = Undef.
Proof. split; vm_compute; reflexivity. Qed.
End Messages.

(** ** Samples *)
(** Powers of ten, rounded to nearest. *)
Definition sample_libm : Libm :=
  {| pow := fun _ y => match ftrunc y with Some z => dec_float false 1 z | None => fzero end |}.
Definition sample_params : list Value :=
  [mkString t_symbol "tank_1" 7; mkString t_string "level" 0; Value_long (-42); Value_bool true;
   Value_double (dec_float false 25 (-1))].

Ltac solve_chars := unfold plain, literal; repeat apply List.Forall_cons; try apply List.Forall_nil; reflexivity.

Lemma sample_sendable : Forall (@sendable sample_libm) sample_params.
Proof.
  unfold sample_params.
  apply List.Forall_cons.
  { split; [solve_chars |]. intros Hin. rewrite !elem_of_cons, elem_of_nil in Hin.
    destruct Hin as [|[|[|]]]; done. }
  apply List.Forall_cons; [cbn; solve_chars |].
  apply List.Forall_cons; [exists (-42); split; [done | lia] |].
  apply List.Forall_cons; [by eexists |].
  apply List.Forall_cons; [|apply List.Forall_nil].
  eexists _, _. split; [reflexivity | vm_compute; reflexivity].
Defined.

Lemma command_roundtrip_w : exists msg vs' t',
  @encodeCommand no_dyn "PROPERTY" (Some sample_params) = Ok msg /\
  @getCommand no_dyn sample_libm msg Tokeniser_new =
    Ok (Some ("PROPERTY", match vs' with [] => None | _ => Some vs' end), t') /\
  Forall2 (@received sample_libm t') sample_params vs' /\ tok_wf t' /\ tok_ext Tokeniser_new t'.
Proof.
  apply (@command_roundtrip no_dyn sample_libm "PROPERTY" sample_params Tokeniser_new).
  - solve_chars.
  - done.
  - exact sample_sendable.
  - exact tok_wf_new.
  - vm_compute. congruence.
Defined.

Lemma state_roundtrip_w :
  @getState no_dyn sample_libm (encodeState_auth "tank_1" "filling" 424238335) Tokeniser_new
  = Ok (Some ("STATE", Some [string_value "tank_1"; string_value "filling"; long_value 424238335]), Tokeniser_new).
Proof.
  apply (@state_roundtrip no_dyn sample_libm "tank_1" "filling" 424238335 Tokeniser_new);
    [solve_chars.. | lia].
Defined.

Lemma missing_params_undefined_w : exists msg,
  cJSON_PrintUnformatted (AddString cJSON_CreateObject "command" (chars "LIST")) = Ok msg /\
  @getCommand no_dyn sample_libm msg Tokeniser_new = Undef /\
  @getState no_dyn sample_libm msg Tokeniser_new = Undef.
Proof.
  apply (@missing_params_undefined no_dyn sample_libm "LIST" Tokeniser_new).
  solve_chars.
Defined.
