(* ===== verification/Transitions.v ===== *)
(** Changing the state of a machine and executing messages (MachineInstance.cpp:
    setState, notifyDependents, execute, sendMessageToReceiver, setInitialState,
    enable, disable, resume and what they call; the queue of Dispatcher.cpp).

    A machine has its part in the heap of Machine.v and a [Site] with the fields
    the transitions use. What a handler does when it runs is the class
    [Reactions]; calls of devices, channels, MQTT, modbus and of the timer are
    events. The set of dependents is walked with an iterator, as in the code. *)
From S2P Require Import Prelude Cnum Tokeniser Value SymbolTable Message Handlers Machine StableStates Modbus.
Open Scope Z_scope.
Local Open Scope sm_scope.

(** ** Data *)
Record Site := mkSite {
  _type : string;
  s_owner : option ptr;
  shadow : bool;
  owner_channel : option bool;
  expected_authority : Z;
  class_states : list State;
  initial_state : State;
  current_state : State;
  properties : SymbolTable;
  io_interface : option ptr;
  mq_interface : option ptr;
  published : Z;
  exports_self : bool;
  modbus_exports : gmap string ModbusAddress;
  s_listens : list ptr;
  s_locals : list (option ptr);
  s_parameters : list (option ptr);
  start_time : Z;
  disabled_time : Z
}.
(** What the code asks of a device. *)
Inductive IORequest :=
| IOInitial | IOSetup | IOHandleChange | IOTurnOn | IOTurnOff | IOSetSigned (z : Z) | IOSetUnsigned (z : Z).
Inductive TEvent :=
| ELog (m : ptr)
| EExecute (m : ptr) (event : string)
| ERequestStateChange (m : ptr) (state : string) (authority : Z)
| EStateChange (m : ptr) (state : string) (authority : Z)
| EModbus (m : ptr) (name : string) (value : Z)
| EEnter (m : ptr) (state : string)
| EPublish (m : ptr) (topic state : string)
| ESchedule (m : ptr) (delay : Z) (t : ptr)
| ETimerUpdate (m : ptr)
| ETimerResume (m : ptr)
| ESetValue (m : ptr) (property : string) (v : Value)
| EDevice (io : ptr) (r : IORequest)
| ESendCommand (m : ptr) (command param : string)
| ESendOut (m : ptr) (message : string).
Record TWorld := mkTWorld {
  tw : World;
  sites : gmap ptr Site;
  rules : gmap ptr (list StableState);
  toks : Tokeniser;
  key_words : option SymbolTable;
  sequence : Z;
  to_deliver : list Package;
  log : list TEvent
}.
Abbreviation TM := (SM TWorld).

Definition set_current x s := mkSite (_type s) (s_owner s) (shadow s) (owner_channel s) (expected_authority s)
  (class_states s) (initial_state s) x (properties s) (io_interface s) (mq_interface s) (published s)
  (exports_self s) (modbus_exports s) (s_listens s) (s_locals s) (s_parameters s) (start_time s) (disabled_time s).
Definition set_properties x s := mkSite (_type s) (s_owner s) (shadow s) (owner_channel s) (expected_authority s)
  (class_states s) (initial_state s) (current_state s) x (io_interface s) (mq_interface s) (published s)
  (exports_self s) (modbus_exports s) (s_listens s) (s_locals s) (s_parameters s) (start_time s) (disabled_time s).
Definition set_times a b s := mkSite (_type s) (s_owner s) (shadow s) (owner_channel s) (expected_authority s)
  (class_states s) (initial_state s) (current_state s) (properties s) (io_interface s) (mq_interface s) (published s)
  (exports_self s) (modbus_exports s) (s_listens s) (s_locals s) (s_parameters s) a b.
Definition set_enabled x m := mkMachine (m_name m) x (machine_active m) (error_state m)
  (state_machine m) (needs_check m) (active_actions m) (mail_queue m) (has_work m) (next_poll m) (depends m)
  (action_errors m) (locked m).
Definition set_error_state x m := mkMachine (m_name m) (is_enabled m) (machine_active m) x
  (state_machine m) (needs_check m) (active_actions m) (mail_queue m) (has_work m) (next_poll m) (depends m)
  (action_errors m) (locked m).

(** ** Access to the parts of the state *)
Definition world : TM TWorld := fun s => Ok (s, s).
Definition on_heap {A} (c : M A) : TM A := fun s =>
  '(a, w) ← c (tw s);
  Ok (a, mkTWorld w (sites s) (rules s) (toks s) (key_words s) (sequence s) (to_deliver s) (log s)).
Definition tokenise {A} (c : SM Tokeniser A) : TM A := fun s =>
  '(a, t) ← c (toks s);
  Ok (a, mkTWorld (tw s) (sites s) (rules s) t (key_words s) (sequence s) (to_deliver s) (log s)).
Definition get_site (m : ptr) : TM Site := fun s => x ← rd (sites s !! m); Ok (x, s).
Definition upd_site (m : ptr) (f : Site -> Site) : TM unit := fun s =>
  x ← rd (sites s !! m);
  Ok (tt, mkTWorld (tw s) (<[m := f x]> (sites s)) (rules s) (toks s) (key_words s) (sequence s)
            (to_deliver s) (log s)).
Definition set_rules (m : ptr) (l : list StableState) : TM unit := fun s =>
  Ok (tt, mkTWorld (tw s) (sites s) (<[m := l]> (rules s)) (toks s) (key_words s) (sequence s)
            (to_deliver s) (log s)).
Definition record (e : TEvent) : TM unit := fun s =>
  Ok (tt, mkTWorld (tw s) (sites s) (rules s) (toks s) (key_words s) (sequence s) (to_deliver s) (log s ++ [e])).
Definition machine (m : ptr) : TM Machine := on_heap (get_machine m).
Definition mname (m : ptr) : TM string := let! x := machine m in sret (m_name x).

(** [Message (text, kind)]: the constructor counts the messages. *)
Definition new_message (txt : string) (k : MessageType) : TM Message := fun s =>
  let '(msg, n) := Message_new txt k None (sequence s) in
  Ok (msg, mkTWorld (tw s) (sites s) (rules s) (toks s) (key_words s) n (to_deliver s) (log s)).
(** [Dispatcher::deliver]. *)
Definition deliver (p : Package) : TM unit := fun s =>
  Ok (tt, mkTWorld (tw s) (sites s) (rules s) (toks s) (key_words s) (sequence s) (to_deliver s ++ [p]) (log s)).

(** [MachineClass::findState (const State &)] and by name. *)
Definition findState (seek : State) (l : list State) : option State := List.find (fun s => state_eq s seek) l.
Definition findState_name (seek : string) (l : list State) : option State :=
  List.find (fun s => bool_decide (s_text s = seek)) l.

(** What the transitions ask of the rest: what running a HandleMessageAction for a
    package does, the methods of a machine that decide what it receives, the value
    of a property, the state a device reports, which machines are channels, the clock. *)
Class Reactions := {
  react : ptr -> Package -> TM Status;
  methods : ptr -> list (string * Handlers.Command) * list (Message * Handlers.Command) * list Transition * list string;
  property_value : ptr -> string -> TWorld -> Value;
  io_name : ptr -> string;
  io_state : ptr -> string;
  io_value : ptr -> TWorld -> Value;
  io_signed : ptr -> bool;
  is_channel : ptr -> bool;
  microsecs : TWorld -> Z
}.

Section Transitions.
Variable tk : ClockworkToken.
Context `{DynEnv} `{!Reactions} `{!Hub}.

Definition needs_check (m : ptr) : TM unit := on_heap (setNeedsCheck tk m).

(** [receives], which may register a check of the machine. *)
Definition instance_of (m : ptr) : TM Instance_ :=
  let! x := machine m in
  let! s := get_site m in
  let '(cmds, recv, trans, stable) := methods m in
  sret (Handlers.mkInstance m (m_name x) (is_enabled x) (current_state s) (io_interface s) (s_listens s)
          cmds recv trans stable).
Definition receives_message (m : ptr) (msg : Message) (from : option ptr) : TM bool :=
  let! i := instance_of m in
  let '(b, check) := receives msg from i in
  run! (if check : bool then needs_check m else sret tt) in
  sret b.

(** A loop over the set of dependents: [dep_iter] moves on before the body runs, and
    must still be in the set when it is used. [fuel] bounds the rounds. *)
Fixpoint next_after (d : ptr) (l : list ptr) : option ptr :=
  match l with
  | [] => None
  | x :: l' => if bool_decide (x = d) then head l' else next_after d l'
  end.
Fixpoint each_from (fuel : nat) (m : ptr) (it : option ptr) (body : ptr -> TM unit) : TM unit :=
  match it with
  | None => sret tt
  | Some d =>
      match fuel with
      | O => fun _ => Undef
      | S fuel' =>
          let! x := machine m in
          if negb (bool_decide (d ∈ depends x)) then fun _ => Undef else
          run! body d in
          each_from fuel' m (next_after d (depends x)) body
      end
  end.
Definition each_dependent (m : ptr) (body : ptr -> TM unit) : TM unit :=
  let! x := machine m in
  let! w := world in
  each_from (size (machines (tw w))) m (head (depends x)) body.

(** ** Executing a message *)
(** A suspended action of a dependent machine is resumed. *)
Definition wake_action (d : ptr) : TM unit :=
  let! act := on_heap (executingCommand d) in
  match act with
  | None => sret tt
  | Some a =>
      let! x := on_heap (get_action a) in
      match status x with Suspended => on_heap (resume tk a) | _ => sret tt end
  end.
(** The triggers of the actions of the machine that wait for the message. The
    condition of a SetStateAction is never set, so every branch fires. *)
Fixpoint fire_triggers (txt : string) (l : list ptr) : M unit :=
  match l with
  | [] => sret tt
  | a :: l' =>
      let! x := get_action a in
      run! (match trigger x with
            | None => sret tt
            | Some t => let! y := get_trigger t in if matches txt y then fire tk t else sret tt
            end) in
      fire_triggers txt l'
  end.
Definition has_dot (s : string) : bool := match after_dot s with Some _ => true | None => false end.
Definition is_empty (s : string) : bool := bool_decide (s = "").

Section Execute.
(** [setState] of a machine, which the message of a device leads to. *)
Variable change : ptr -> State -> Z -> bool -> TM Status.

(** A message from the device of the machine. *)
Definition from_device (m : ptr) (txt : string) : TM Status :=
  let! s := get_site m in
  let! x := machine m in
  match state_machine x with
  | None => sret Failed
  | Some _ =>
      let go state :=
        match findState_name state (class_states s) with
        | Some st => let! _r := change m st (expected_authority s) false in sret Complete
        | None => run! record (ELog m) in sret Failed
        end in
      if bool_decide (txt = "on_enter") && negb (bool_decide (s_text (current_state s) = "on")) then go "on"
      else if bool_decide (txt = "off_enter") && negb (bool_decide (s_text (current_state s) = "off")) then go "off"
      else if bool_decide (txt = "property_change") then
        let? io := rd (io_interface s) in
        let! w := world in
        run! record (ESetValue m "VALUE" (io_value io w)) in sret Complete
      else sret Complete
  end.

(** [from->getName ()], of a machine or a device. *)
Definition sender_name (f : ptr) : TM string := fun s =>
  Ok (match machines (tw s) !! f with Some x => m_name x | None => io_name f end, s).

(** [execute (m, from)]. *)
Definition execute (m : ptr) (msg : Message) (from : option ptr) : TM Status :=
  let! x := machine m in
  if negb (is_enabled x) then
    run! (if (5 <? String.length (Message.text msg))%nat &&
             bool_decide (String.substring (String.length (Message.text msg) - 5) 5 (Message.text msg) = "_done")
          then record (ELog m) else sret tt) in
    sret Failed
  else if is_empty (Message.text msg) then sret Failed
  else
  run! needs_check m in
  let! event_name :=
    match from with
    | Some f => if has_dot (Message.text msg) then sret (Message.text msg)
                else let! n := sender_name f in sret (n +:+ "." +:+ Message.text msg)%string
    | None => sret (Message.text msg)
    end in
  let! y := machine m in
  run! on_heap (fire_triggers (Message.text msg) (active_actions y)) in
  let! s := get_site m in
  let is_from o := match o, from with Some a, Some b => bool_decide (a = b) | _, _ => false end in
  if is_from (io_interface s) || is_from (mq_interface s) then from_device m (Message.text msg)
  else
    run! record (EExecute m event_name) in
    let! e := new_message event_name SIMPLEMSG in
    react m (mkPackage from (Some m) e false).
End Execute.

(** [notifyDependents ()]. *)
Definition notifyDependents_check (m : ptr) : TM unit :=
  each_dependent m (fun d =>
    if bool_decide (m = d) then sret tt else
    let! x := machine d in
    let! s := get_site d in
    if negb (is_enabled x) then sret tt
    else if negb (machine_active x) && negb (bool_decide (is_Some (io_interface s))) then sret tt
    else run! wake_action d in needs_check d).

Section Change.
Variable execute : ptr -> Message -> option ptr -> TM Status.

(** [notifyDependents (msg)]. *)
Definition notifyDependents (m : ptr) (msg : Message) : TM unit :=
  each_dependent m (fun d =>
    if bool_decide (m = d) then sret tt else
    let! x := machine d in
    let! s := get_site d in
    if negb (is_enabled x) then sret tt
    else if negb (machine_active x) && negb (bool_decide (is_Some (io_interface s))) then sret tt
    else
      let! r := receives_message d msg (Some m) in
      if r : bool then let! _st := execute d msg (Some m) in sret tt else sret tt).

(** The messages on leaving a state. *)
Definition leave_state (m : ptr) (new_state : State) : TM unit :=
  let! x := machine m in
  let! s := get_site m in
  if is_enabled x && state_ne (current_state s) new_state
     && negb (bool_decide (s_text (current_state s) = "undefined")) then
    let txt := (s_text (current_state s) +:+ "_leave")%string in
    let! msg := new_message txt LEAVEMSG in
    let! r := receives_message m msg (Some m) in
    run! (if r : bool then
            let! stat := execute m msg (Some m) in
            let! y := machine m in
            if bool_decide (stat = Failed) || (negb (machine_active y) && negb (bool_decide (stat = Complete)))
            then record (ELog m) else sret tt
          else sret tt) in
    let! s' := get_site m in
    let! msg2 := new_message (m_name x +:+ "." +:+ s_text (current_state s') +:+ "_leave")%string LEAVEMSG in
    each_dependent m (fun d =>
      if bool_decide (m = d) then sret tt else
      let! r := receives_message d msg2 (Some m) in
      if negb r then sret tt else
      run! wake_action d in
      let! _st := execute d msg2 (Some m) in sret tt)
  else sret tt.

(** The modbus coil or input of the machine itself. *)
Definition is_on (state : string) : bool := bool_decide (state = "on") || bool_decide (state = "true").
Definition update_self (m : ptr) (new_state : State) : TM unit :=
  let! s := get_site m in
  if negb (published s =? 0) && exports_self s then
    let! n := mname m in
    match modbus_exports s !! n with
    | None => record (ELog m)
    | Some ma =>
        if bool_decide (Modbus.source ma = src_machine) && negb (bool_decide (group ma = g_none)) then
          if is_on (s_text new_state) then record (EModbus m n 1)
          else if is_on (s_text (current_state s)) then record (EModbus m n 0) else sret tt
        else sret tt
    end
  else sret tt.
Definition update_state (m : ptr) (state : string) (value : Z) : TM unit :=
  let! s := get_site m in
  let! n := mname m in
  match modbus_exports s !! (n +:+ "." +:+ state)%string with
  | None => sret tt
  | Some ma =>
      let? _u := assert (bool_decide (Modbus.source ma = src_state)) in
      record (EModbus m (n +:+ "." +:+ state)%string value)
  end.

(** The property STATE, and MQTT. *)
Definition set_state_property (m : ptr) : TM unit :=
  let! s := get_site m in
  let! v := tokenise (Value_cstr (s_text (current_state s)) t_symbol) in
  let! r := tokenise (SymbolTable.add "STATE" v ST_REPLACE (properties s)) in
  upd_site m (set_properties (snd r)).
Definition publish_state (m : ptr) (new_state : State) : TM unit :=
  let! s := get_site m in
  let! w := world in
  match mq_interface s with
  | None => sret tt
  | Some _ =>
      if bool_decide (_type s = "POINT") then
        let? ty := SymbolTable.lookup (key_words w) "type" (properties s) in
        let! out := tokenise (Value_cstr "Output" t_symbol) in
        let? same := value_eq ty out in
        if same : bool then
          let? topic := SymbolTable.lookup (key_words w) "topic" (properties s) in
          let? t := asString topic in
          record (EPublish m t (s_text new_state))
        else sret tt
      else sret tt
  end.

(** The timers of the rules. *)
Definition schedule_rules (m : ptr) : TM unit :=
  let! s := get_site m in
  let! w := world in
  let! r := on_heap (setState_timers tk (fun n => property_value m n w) m (s_text (current_state s))
                       (default [] (rules w !! m))) in
  run! set_rules m (snd r) in
  match fst r with Some (delay, t) => record (ESchedule m delay t) | None => sret tt end.

(** The machine takes the state; the answer is the name of the one before. *)
Definition move_state (m : ptr) (new_state : State) : TM string :=
  let! w := world in
  let! s := get_site m in
  run! upd_site m (set_times (microsecs w) (microsecs w)) in
  let! copy := tokenise (State_copy new_state) in
  run! upd_site m (set_current copy) in
  run! record (EEnter m (s_text new_state)) in
  run! set_state_property m in
  sret (s_text (current_state s)).
(** The change itself, to a state of the class. *)
Definition change_state (m : ptr) (new_state : State) (authority : Z) : TM Status :=
  run! leave_state m new_state in
  run! update_self m new_state in
  let! last := move_state m new_state in
  run! publish_state m new_state in
  let! s := get_site m in
  run! (if negb (published s =? 0) && negb (bool_decide (modbus_exports s = ∅)) then
          run! update_state m last 0 in update_state m (s_text (current_state s)) 1
        else sret tt) in
  run! schedule_rules m in
  let! s := get_site m in
  run! (if negb (published s =? 0) then record (EStateChange m (s_text new_state) authority) else sret tt) in
  let! n := mname m in
  let! msg := new_message (n +:+ "." +:+ s_text new_state +:+ "_enter")%string ENTERMSG in
  let! stat := execute m msg (Some m) in
  run! notifyDependents m msg in
  sret stat.
End Change.

(** ** [setState] *)
(** [setState] with calls nested up to [d] deep: a name that is no state of the class
    is looked up as a property, and executing the message of a device changes the
    state. *)
Fixpoint setState_n (d : nat) (m : ptr) (new_state : State) (authority : Z) (resume : bool) : TM Status :=
  match d with
  | O => fun _ => Undef
  | S d' =>
      let! s := get_site m in
      if negb (expected_authority s =? 0) && (authority =? 0) then
        if shadow s then
          run! (if bool_decide (owner_channel s = Some true)
                then record (ERequestStateChange m (s_text new_state) authority) else sret tt) in
          sret Running
        else sret Failed
      else if (expected_authority s =? 0) && negb (authority =? 0) then sret Failed
      else if negb resume && state_eq (current_state s) new_state then sret Complete
      else
      let! x := machine m in
      let? _sm := rd (state_machine x) in
      match findState new_state (class_states s) with
      | None =>
          let! w := world in
          let? txt := asString (property_value m (s_text new_state) w) in
          let! propertyState := tokenise (State_new txt) in
          match findState propertyState (class_states s) with
          | None => run! record (ELog m) in sret Failed
          | Some _ => setState_n d' m propertyState authority resume
          end
      | Some _ =>
          change_state (execute (setState_n d')) m new_state authority
      end
  end.
(** Two levels: the call itself, and the call for a property that names the state. The
    messages that are executed during a change come from machines, not from
    devices. *)
Definition setState : ptr -> State -> Z -> bool -> TM Status := setState_n 2.
Definition execute_message : ptr -> Message -> option ptr -> TM Status := execute setState.

(** ** Sending messages *)
(** [sendMessageToReceiver]: a shadow is reached through its channel; a machine that
    is disabled is not sent messages that nobody waits for. *)
Definition sendMessageToReceiver (m : ptr) (msg : Message) (r : ptr) (expect_reply : bool) : TM unit :=
  let! s := get_site r in
  let! x := machine r in
  if shadow s then record (ESendCommand r "SEND" (m_name x +:+ "." +:+ Message.text msg)%string)
  else if is_enabled x || expect_reply then deliver (mkPackage (Some m) (Some r) msg expect_reply)
  else
    let! e := new_message "DisabledMessageTargetException" SIMPLEMSG in
    deliver (mkPackage (Some m) (Some m) e false).

(** The delivery of one package: to a messaging interface for a channel or an external
    machine, to the mail of any other machine, or to all receivers that take it. *)
Fixpoint broadcast (p : Package) (l : list ptr) : TM unit :=
  match l with
  | [] => sret tt
  | r :: l' =>
      let! b := receives_message r (message p) (transmitter p) in
      run! (if b : bool then on_heap (enqueue tk p r) else sret tt) in
      broadcast p l'
  end.
Definition external (x : Machine) : bool :=
  match state_machine x with Some sm => sm_token sm =? tokEXTERNAL tk | None => false end.
Definition dispatch (all_receivers : list ptr) (p : Package) : TM unit :=
  match receiver p with
  | Some r =>
      let! x := machine r in
      run! (match state_machine x with None => record (ELog r) | Some _ => sret tt end) in
      if is_channel r || external x then record (ESendOut r (Message.text (message p)))
      else
        run! on_heap (enqueue tk p r) in
        run! on_heap (workset_add r) in on_heap (activate r)
  | None => broadcast p all_receivers
  end.
(** The loop of the dispatcher while it runs: packages that arrive meanwhile wait for
    its lock. *)
Fixpoint dispatch_all (n : nat) (all_receivers : list ptr) : TM unit :=
  match n with
  | O => sret tt
  | S n' => fun s =>
      match to_deliver s with
      | [] => Ok (tt, s)
      | p :: rest =>
          (run! dispatch all_receivers p in dispatch_all n' all_receivers)
            (mkTWorld (tw s) (sites s) (rules s) (toks s) (key_words s) (sequence s) rest (log s))
      end
  end.

(** ** Initial states *)
Definition class_token (m : ptr) : TM Z :=
  let! x := machine m in let? sm := rd (state_machine x) in sret (sm_token sm).
(** [fixListState]: the state that says whether the list has entries. *)
Definition fixListState (m : ptr) : TM unit :=
  let! s := get_site m in
  let! _t := class_token m in
  match findState_name (match s_parameters s with [] => "empty" | _ => "nonempty" end) (class_states s) with
  | Some st => let! _r := setState m st 0 false in sret tt
  | None => fun _ => Abort
  end.
Definition setInitialState (m : ptr) (resume : bool) : TM unit :=
  let! s := get_site m in
  run! (match io_interface s with Some io => record (EDevice io IOInitial) | None => sret tt end) in
  let! x := machine m in
  match state_machine x with
  | None => record (ELog m)
  | Some sm =>
      match io_interface s with
      | Some io =>
          match findState_name (io_state io) (class_states s) with
          | Some st => let! _r := setState m st (expected_authority s) false in sret tt
          | None => record (ELog m)
          end
      | None =>
          run! (if sm_token sm =? tokLIST tk then fixListState m
                else let! _r := setState m (initial_state s) (expected_authority s) resume in sret tt) in
          needs_check m
      end
  end.

(** ** Enabling and disabling *)
(** [uses]: the order in which related machines are enabled. *)
Definition uses (a b : ptr) : TM bool :=
  let! sa := get_site a in
  let! sb := get_site b in
  let! na := mname a in
  let! nb := mname b in
  let ta := _type sa in
  let tb := _type sb in
  let before := match String.compare nb na with Lt => true | _ => false end in
  sret (if bool_decide (b ∈ s_listens sa) then true
        else if bool_decide (a ∈ s_listens sb) then false
        else if bool_decide (ta = tb) then before
        else if bool_decide (tb = "MODULE") then true
        else if bool_decide (ta = "MODULE") then false
        else if bool_decide (tb ∈ ["POINT"; "ANALOGINPUT"; "COUNTERRATE"; "COUNTER"; "ANALOGOUTPUT";
                                   "STATUS_FLAG"; "FLAG"]) then true
        else if bool_decide (ta = "POINT") then false
        else if bool_decide (ta ∈ ["ANALOGINPUT"; "COUNTERRATE"; "ANALOGOUTPUT"; "STATUS_FLAG"]) then true
        else if bool_decide (ta = "FLAG") then false
        else before).
(** A machine is placed before the first one that it does not use. *)
Fixpoint place_machine (a : ptr) (sorted : list ptr) : TM (list ptr) :=
  match sorted with
  | [] => sret [a]
  | b :: l =>
      let! u := uses a b in
      if u : bool then let! r := place_machine a l in sret (b :: r) else sret (a :: sorted)
  end.
Fixpoint place_machines (l sorted : list ptr) : TM (list ptr) :=
  match l with
  | [] => sret sorted
  | a :: l' => let! r := place_machine a sorted in place_machines l' r
  end.
(** [sortDependentMachines]: the locals, and the entries of a global list. *)
Definition related (s : Site) : gset ptr :=
  list_to_set (omap id (s_locals s)) ∪
  (if bool_decide (_type s = "LIST") && bool_decide (s_owner s = None)
   then list_to_set (omap id (s_parameters s)) else ∅).
Definition sortDependentMachines (m : ptr) : TM (list ptr) :=
  let! s := get_site m in place_machines (elements (related s)) [].

Fixpoint for_each (body : ptr -> TM unit) (l : list ptr) : TM unit :=
  match l with [] => sret tt | a :: l' => run! body a in for_each body l' end.
(** The enabled dependents check their states. *)
Definition wake_dependents (m : ptr) : TM unit :=
  each_dependent m (fun d => let! x := machine d in if is_enabled x then needs_check d else sret tt).

Section Stack.
Context `{!Virtuals}.

(** [enable], with related machines nested up to [d] deep. *)
Fixpoint enable_n (d : nat) (m : ptr) : TM unit :=
  match d with
  | O => fun _ => Undef
  | S d' =>
      let! x := machine m in
      let! s := get_site m in
      let special := bool_decide (_type s = "LIST") || bool_decide (_type s = "REFERENCE") in
      if is_enabled x && negb special then needs_check m else
      run! on_heap (upd_machine m (fun y => set_error_state 0 (set_enabled true y))) in
      run! on_heap (clearAllActions m) in
      run! (match io_interface s with
            | Some io => run! record (EDevice io IOSetup) in record (EDevice io IOHandleChange)
            | None => sret tt
            end) in
      let! sorted := sortDependentMachines m in
      run! for_each (enable_n d') sorted in
      let! x := machine m in
      run! (if machine_active x && negb (shadow s) then
              let! t := class_token m in
              if t =? tokEXTERNAL tk then sret tt else
              let! msg := new_message (m_name x +:+ "_enabled")%string ENABLEMSG in
              sendMessageToReceiver m msg m false
            else sret tt) in
      run! (if bool_decide (_type s = "LIST") then fixListState m
            else if bool_decide (_type s = "REFERENCE") then
              let! s := get_site m in
              let! _t := class_token m in
              let? st := rd (findState_name (match s_locals s with [] => "EMPTY" | _ => "ASSIGNED" end)
                               (class_states s)) in
              let! _r := setState m st 0 false in sret tt
            else setInitialState m true) in
      run! needs_check m in
      wake_dependents m
  end.

(** The value of a machine that is disabled, from its property "default". *)
Definition default_value (m : ptr) : TM unit :=
  let! s := get_site m in
  let! w := world in
  let? v := SymbolTable.lookup (key_words w) "default" (properties s) in
  let? d := value_ne v Null in
  if d && Kind_eqb (kind v) t_integer then
    let? i := rd (iValue v) in
    run! record (ESetValue m "VALUE" (Value_long i)) in
    match io_interface s with
    | None => sret tt
    | Some io => record (EDevice io (if io_signed io then IOSetSigned (to_s32 (u32 i)) else IOSetUnsigned (u32 i)))
    end
  else sret tt.
Fixpoint disable_n (d : nat) (m : ptr) : TM unit :=
  match d with
  | O => fun _ => Undef
  | S d' =>
      let! x := machine m in
      let! s := get_site m in
      let special := bool_decide (_type s = "LIST") || bool_decide (_type s = "REFERENCE") in
      if negb (is_enabled x) && negb special then needs_check m else
      run! record (ETimerUpdate m) in
      run! on_heap (upd_machine m (set_locked None)) in
      run! (match io_interface s with Some io => record (EDevice io IOTurnOff) | None => sret tt end) in
      run! (if shadow s then setInitialState m false else sret tt) in
      run! on_heap (upd_machine m (set_enabled false)) in
      run! default_value m in
      let! w := world in
      run! upd_site m (fun s => set_times (start_time s) (microsecs w) s) in
      let! sorted := sortDependentMachines m in
      run! for_each (disable_n d') (rev sorted) in
      wake_dependents m
  end.

(** [resume ()]: the locals first, then the current state again. *)
Fixpoint resume_n (d : nat) (m : ptr) : TM unit :=
  match d with
  | O => fun _ => Undef
  | S d' =>
      let! x := machine m in
      if is_enabled x then sret tt else
      run! on_heap (upd_machine m (fun y => set_error_state 0 (set_enabled true y))) in
      let! s := get_site m in
      let? ls := (if forallb (fun o => bool_decide (is_Some o)) (s_locals s) then Ok (omap id (s_locals s))
                  else Undef) in
      run! for_each (resume_n d') ls in
      let! s := get_site m in
      let! _r := setState m (current_state s) (expected_authority s) true in
      run! record (ETimerResume m) in
      needs_check m
  end.
(** [resume (const State &)]. *)
Definition resume_state (d : nat) (m : ptr) (st : State) : TM unit :=
  let! x := machine m in
  if is_enabled x then sret tt else
  run! on_heap (clearAllActions m) in
  run! on_heap (upd_machine m (fun y => set_error_state 0 (set_enabled true y))) in
  let! s := get_site m in
  let? ls := (if forallb (fun o => bool_decide (is_Some o)) (s_locals s) then Ok (omap id (s_locals s))
              else Undef) in
  run! for_each (resume_n d) ls in
  let! s := get_site m in
  let! _r := setState m st (expected_authority s) true in
  run! needs_check m in
  run! (if bool_decide (_type s = "LIST") then for_each (resume_n d) (omap id (s_parameters s)) else sret tt) in
  wake_dependents m.
(** [resumeAll]: the locals that are not enabled. *)
Definition resumeAll (d : nat) (m : ptr) : TM unit :=
  let! s := get_site m in
  let? ls := (if forallb (fun o => bool_decide (is_Some o)) (s_locals s) then Ok (omap id (s_locals s))
              else Undef) in
  for_each (fun l => let! x := machine l in if is_enabled x then sret tt else resume_n d l) ls.
End Stack.
End Transitions.
