(* ===== verification/TransitionsProps.v ===== *)
(** The state a machine is in: along all transitions every machine is in a state of
    its class, and its property STATE names it. *)
From S2P Require Import Prelude Cnum Tokeniser Value SymbolTable Message Handlers Machine StableStates Modbus Transitions.
Open Scope Z_scope.
Local Open Scope sm_scope.

(** ** The invariant *)
(** A state carries the token of its name. *)
Definition named (t : Tokeniser) (st : State) : Prop := tokens t !! s_text st = Some (s_token st).
(** The value that names a state: its text as a symbol, or the literal it reads as. *)
Definition names_state (n : string) (v : Value) : Prop :=
  exists t r t' old, Value_cstr n t_symbol t = Ok (r, t') /\ v = assign old r.
Record site_ok (t : Tokeniser) (x : Site) : Prop := {
  so_class : Forall (named t) (class_states x);
  so_initial : named t (initial_state x);
  so_current : named t (current_state x)
}.
(** The machine is in a state of its class, and its property STATE names it. *)
Definition in_state (x : Site) : Prop :=
  is_Some (findState (current_state x) (class_states x)) /\
  exists v, st (properties x) !! "STATE" = Some v /\ names_state (s_text (current_state x)) v.
(** Its state and its property STATE are those of before. *)
Definition unmoved (x x' : Site) : Prop :=
  current_state x' = current_state x /\ st (properties x') !! "STATE" = st (properties x) !! "STATE".
(** It has the states it had, and has stayed or is in one of them. *)
Definition follows (x x' : Site) : Prop :=
  class_states x' = class_states x /\ (unmoved x x' \/ in_state x').
Record states_ok (s : TWorld) : Prop := {
  ok_toks : tok_wf (toks s);
  ok_sites : map_Forall (fun _ => site_ok (toks s)) (sites s)
}.

(** What a step may do to the states: keep the invariant, only add tokens, leave
    the states of the classes alone and move machines to states of their class. *)
Record keeps (s s' : TWorld) : Prop := {
  k_ext : tok_ext (toks s) (toks s');
  k_site m : option_Forall2 follows (sites s !! m) (sites s' !! m);
  k_ok : states_ok s'
}.
Definition tame {A} (c : TM A) : Prop :=
  forall s a s', states_ok s -> c s = Ok (a, s') -> keeps s s'.

Lemma named_ext t t' st : tok_ext t t' -> named t st -> named t' st.
Proof. intros He Hn. by eapply tok_ext_lookup. Qed.
Lemma site_ok_ext t t' x : tok_ext t t' -> site_ok t x -> site_ok t' x.
Proof. intros He []. split; eauto using named_ext, Forall_impl. Qed.

#[export] Instance follows_refl : Reflexive follows.
Proof. intros x. by split; [|left]. Qed.
#[export] Instance follows_trans : Transitive follows.
Proof.
  intros x y z [C1 F1] [C2 F2]. split; [congruence |]. destruct F2 as [[U V] | ?]; [|by right].
  destruct F1 as [[] | [Hf (v & Hv & Hn)]]; [left; split; congruence | right].
  split; [by rewrite U, C2 | exists v; by rewrite V, U].
Qed.
Lemma keeps_refl s : states_ok s -> keeps s s.
Proof. intros Hs. split; [apply tok_ext_refl | intros m; reflexivity | done]. Qed.
Lemma keeps_trans s1 s2 s3 : keeps s1 s2 -> keeps s2 s3 -> keeps s1 s3.
Proof. intros [E1 C1 K1] [E2 C2 K2]. split; [by eapply tok_ext_trans | intros m; etrans; [apply C1 | apply C2] | done]. Qed.
Lemma keeps_at s s' m x : keeps s s' -> sites s !! m = Some x -> exists y, sites s' !! m = Some y /\ follows x y.
Proof. intros K Ex. pose proof (k_site _ _ K m) as Hm. rewrite Ex in Hm. inversion Hm; subst. eauto. Qed.
Lemma keeps_frame s s' : states_ok s -> toks s' = toks s -> sites s' = sites s -> keeps s s'.
Proof.
  intros [Ht Hs] Et Es. split; [by rewrite Et; apply tok_ext_refl | intros m; by rewrite Es |].
  split; by rewrite ?Et, ?Es.
Qed.
Lemma keeps_toks s s' : states_ok s -> sites s' = sites s -> tok_wf (toks s') ->
  tok_ext (toks s) (toks s') -> keeps s s'.
Proof.
  intros [Ht Hs] Es Hwf He. split; [done | intros m; by rewrite Es |]. split; [done |].
  rewrite Es. eapply map_Forall_impl; [exact Hs |]. intros m x. by apply site_ok_ext.
Qed.
Lemma keeps_site s s' m x y : states_ok s -> sites s !! m = Some x -> sites s' = <[m := y]> (sites s) ->
  toks s' = toks s -> follows x y -> site_ok (toks s) y -> keeps s s'.
Proof.
  intros [Ht Hs] Ex Es Et Ef Hy. split; [by rewrite Et; apply tok_ext_refl | |].
  - intros m'. rewrite Es. destruct (decide (m = m')) as [<- | Hne]; [|by rewrite lookup_insert_ne].
    rewrite lookup_insert_eq, Ex. by constructor.
  - split; rewrite ?Et, ?Es; [done |]. by apply map_Forall_insert_2.
Qed.

(** ** Computations that keep it *)
Lemma tame_ret {A} (a : A) : tame (sret a).
Proof. intros s b s' Hs [= <- <-]. by apply keeps_refl. Qed.
Lemma tame_lift {A} (r : res A) : tame (slift r).
Proof. intros s b s' Hs (a & -> & [= <- <-])%slift_Ok. by apply keeps_refl. Qed.
Lemma tame_bind {A B} (c : TM A) (f : A -> TM B) : tame c -> (forall a, tame (f a)) -> tame (sbind c f).
Proof.
  intros Hc Hf s b s' Hs (a & s1 & H1 & H2)%sbind_Ok. pose proof (Hc _ _ _ Hs H1) as K1.
  eapply keeps_trans; [exact K1 |]. exact (Hf a _ _ _ (k_ok _ _ K1) H2).
Qed.
Lemma tame_undef {A} : tame (A := A) (fun _ => Undef).
Proof. by intros s a s' _ [=]. Qed.
Lemma tame_abort {A} : tame (A := A) (fun _ => Abort).
Proof. by intros s a s' _ [=]. Qed.
Lemma tame_world : tame world.
Proof. intros s b s' Hs [= <- <-]. by apply keeps_refl. Qed.
Lemma tame_heap {A} (c : M A) : tame (on_heap c).
Proof. intros s a s' Hs. unfold on_heap. intros ([b w] & _ & [= <- <-])%bind_Ok. by apply keeps_frame. Qed.
Lemma tame_get_site m : tame (get_site m).
Proof. intros s a s' Hs. unfold get_site. intros (x & _ & [= <- <-])%bind_Ok. by apply keeps_refl. Qed.
Lemma tame_record e : tame (record e).
Proof. intros s a s' Hs [= <- <-]. by apply keeps_frame. Qed.
Lemma tame_deliver p : tame (deliver p).
Proof. intros s a s' Hs [= <- <-]. by apply keeps_frame. Qed.
Lemma tame_set_rules m l : tame (set_rules m l).
Proof. intros s a s' Hs [= <- <-]. by apply keeps_frame. Qed.
Lemma tame_new_message n k : tame (new_message n k).
Proof. intros s a s' Hs. unfold new_message. case_match. intros [= <- <-]. by apply keeps_frame. Qed.
Lemma tame_times m f : (forall x, class_states (f x) = class_states x /\ initial_state (f x) = initial_state x /\
    current_state (f x) = current_state x /\ properties (f x) = properties x) -> tame (upd_site m f).
Proof.
  intros Hf s a s' Hs. unfold upd_site. intros (x & Ex%rd_Ok & [= <- <-])%bind_Ok.
  destruct (Hf x) as (E1 & E2 & E3 & E4). eapply keeps_site; [done | exact Ex | done | done | |].
  - split; [done |]. left. split; [done | by rewrite E4].
  - destruct (map_Forall_lookup_1 _ _ _ _ (ok_sites _ Hs) Ex) as []. split; by rewrite ?E1, ?E2, ?E3.
Qed.
Definition grows {A} (c : SM Tokeniser A) : Prop :=
  forall t a t', tok_wf t -> c t = Ok (a, t') -> tok_wf t' /\ tok_ext t t'.
Lemma tame_tokenise {A} (c : SM Tokeniser A) : grows c -> tame (tokenise c).
Proof.
  intros Hc s a s' Hs. unfold tokenise. intros ([b t] & Ht & [= <- <-])%bind_Ok.
  destruct (Hc _ _ _ (ok_toks _ Hs) Ht). by apply keeps_toks.
Qed.

Lemma grows_ret {A} (a : A) : grows (sret a).
Proof. intros t b t' Hwf [= <- <-]. auto using tok_ext_refl. Qed.
Lemma grows_bind {A B} (c : SM Tokeniser A) (f : A -> SM Tokeniser B) :
  grows c -> (forall a, grows (f a)) -> grows (sbind c f).
Proof.
  intros Hc Hf t b t' Hwf (a & t1 & H1 & H2)%sbind_Ok. destruct (Hc _ _ _ Hwf H1).
  destruct (Hf _ _ _ _ H H2). split; [done | by eapply tok_ext_trans].
Qed.
Lemma grows_token n : grows (getTokenId n).
Proof. intros t a t' Hwf Hg. apply getTokenId_inv in Hg as (? & ? & _); done. Qed.
Lemma grows_State_copy st : grows (State_copy st).
Proof. apply grows_bind; [apply grows_token | intros; apply grows_ret]. Qed.
Lemma grows_State_new n : grows (State_new n).
Proof. apply grows_bind; [apply grows_token | intros; apply grows_ret]. Qed.
Lemma grows_Value_cstr n k : grows (Value_cstr n k).
Proof.
  unfold Value_cstr. repeat case_match; try apply grows_ret.
  apply grows_bind; [apply grows_token | intros; apply grows_ret].
Qed.
Lemma grows_store n v s : grows (store n v s).
Proof.
  unfold store. case_match; [|apply grows_ret].
  apply grows_bind; [apply grows_token | intros; apply grows_ret].
Qed.
Lemma grows_add n v mode s : grows (SymbolTable.add n v mode s).
Proof.
  unfold SymbolTable.add. case_match; [|apply grows_ret].
  apply grows_bind; [apply grows_store | intros; apply grows_ret].
Qed.
Create HintDb tame.
#[export] Hint Resolve tame_ret tame_lift tame_undef tame_abort tame_world tame_heap tame_get_site tame_record
  tame_deliver tame_set_rules tame_new_message grows_State_copy grows_State_new grows_Value_cstr grows_add : tame.

(** Follow the structure of a computation. *)
Ltac tame_step :=
  match goal with
  | |- tame (sbind _ _) => apply tame_bind; [|intros ?]
  | |- tame (tokenise _) => apply tame_tokenise
  | |- tame (if ?b then _ else _) => destruct b
  | |- tame (match ?x with _ => _ end) => destruct x
  | |- tame (let '_ := ?x in _) => destruct x
  end.
Ltac tame := repeat first [progress auto with tame | tame_step].
(** The hypothesis says that a computation that keeps the invariant has returned. *)
Ltac by_tame Hrun :=
  match type of Hrun with
  | ?c ?s = Ok (?a, ?s') =>
      let T := fresh in assert (tame c) as T by tame; exact (T s a s' ltac:(assumption) Hrun)
  end.

(** The move to a state of the class. *)
Lemma State_copy_named t st c t' : tok_wf t -> named t st -> State_copy st t = Ok (c, t') -> c = st.
Proof.
  intros Hwf Hn. unfold State_copy, getTokenId. unfold named in Hn. intros Hc. res_inv.
  rewrite Hn in H. injection H as <- <-. by destruct st.
Qed.
Lemma get_site_run m x s : sites s !! m = Some x -> get_site m s = Ok (x, s).
Proof. intros E. unfold get_site. by rewrite E. Qed.
Lemma upd_site_run m f x s : sites s !! m = Some x -> upd_site m f s =
  Ok (tt, mkTWorld (tw s) (<[m := f x]> (sites s)) (rules s) (toks s) (key_words s) (sequence s)
            (to_deliver s) (log s)).
Proof. intros E. unfold upd_site. by rewrite E. Qed.
Lemma tokenise_Ok {A} (c : SM Tokeniser A) s r : tokenise c s = Ok r <-> exists a t, c (toks s) = Ok (a, t) /\
  r = (a, mkTWorld (tw s) (sites s) (rules s) t (key_words s) (sequence s) (to_deliver s) (log s)).
Proof. unfold tokenise. destruct (c (toks s)) as [[a t] | |]; cbn; naive_solver. Qed.

Section Moves.
Context `{!Reactions}.

(** What the move leaves behind. *)
Definition moved (x : Site) (now : Z) (st : State) (p : SymbolTable) : Site :=
  set_properties p (set_current st (set_times now now x)).
Lemma move_state_inv m st s a s' x : tok_wf (toks s) -> named (toks s) st -> sites s !! m = Some x ->
  move_state m st s = Ok (a, s') ->
  exists p v, SymbolTable.st p !! "STATE" = Some v /\ names_state (s_text st) v /\
    a = s_text (current_state x) /\
    s' = mkTWorld (tw s) (<[m := moved x (microsecs s) st p]> (sites s)) (rules s) (toks s') (key_words s)
           (sequence s) (to_deliver s) (log s ++ [EEnter m (s_text st)]) /\
    tok_wf (toks s') /\ tok_ext (toks s) (toks s').
Proof.
  intros Hwf Hn Ex Hrun. unfold move_state in Hrun. rewrite (sbind_run world _ s s s eq_refl) in Hrun.
  rewrite (sbind_run _ _ _ _ _ (get_site_run _ _ _ Ex)) in Hrun.
  rewrite (sbind_run _ _ _ _ _ (upd_site_run _ _ _ _ Ex)) in Hrun.
  apply sbind_Ok in Hrun as (c & s1 & (c' & t1 & Hc & [= -> ->])%tokenise_Ok & Hrun). cbn [toks] in *.
  destruct (grows_State_copy _ _ _ _ Hwf Hc) as [W1 E1].
  rewrite (State_copy_named _ _ _ _ Hwf Hn Hc) in *. clear Hc.
  erewrite (sbind_run (upd_site _ _)) in Hrun by (apply upd_site_run; cbn; apply lookup_insert_eq).
  rewrite (sbind_run (record _) _ _ _ _ eq_refl) in Hrun. cbn [tw sites rules toks key_words sequence to_deliver log] in *.
  apply sbind_Ok in Hrun as ([] & s2 & Hrun & [= <- <-]). unfold set_state_property in Hrun.
  erewrite (sbind_run (get_site _)) in Hrun by (apply get_site_run; cbn; apply lookup_insert_eq).
  apply sbind_Ok in Hrun as (v & s3 & (v' & t2 & Hv & [= -> ->])%tokenise_Ok & Hrun). cbn [toks] in *.
  apply sbind_Ok in Hrun as (r & s4 & (r' & t3 & Hr & [= -> ->])%tokenise_Ok & Hrun). cbn [toks] in *.
  erewrite upd_site_run in Hrun by (cbn; apply lookup_insert_eq). injection Hrun as <-.
  destruct (grows_Value_cstr _ _ _ _ _ W1 Hv) as [W2 E2]. destruct (grows_add _ _ _ _ _ _ _ W2 Hr) as [W3 E3].
  unfold SymbolTable.add in Hr. cbn in Hr. apply sbind_Ok in Hr as (p & t4 & Hp & [= <- <-]).
  apply store_st in Hp. exists p. eexists. cbn. rewrite !insert_insert_eq. split.
  { rewrite Hp. apply map_assign_eq. }
  split; [by do 4 eexists |]. split; [done |]. split; [done |]. eauto using tok_ext_trans.
Qed.
Lemma move_state_keeps m st s a s' x : states_ok s -> named (toks s) st -> sites s !! m = Some x ->
  is_Some (findState st (class_states x)) -> move_state m st s = Ok (a, s') -> keeps s s'.
Proof.
  intros Hs Hn Ex Hf Hrun.
  destruct (move_state_inv _ _ _ _ _ _ (ok_toks _ Hs) Hn Ex Hrun) as (p & v & Hv & Hnv & _ & Es & W & E).
  set (s1 := mkTWorld (tw s) (sites s) (rules s) (toks s') (key_words s) (sequence s) (to_deliver s) (log s)).
  assert (K1 : keeps s s1) by (by apply keeps_toks).
  eapply keeps_trans; [exact K1 |]. rewrite Es.
  eapply keeps_site; [apply K1 | exact Ex | done | done | |].
  - split; [done | right]. split; [done | eauto].
  - destruct (map_Forall_lookup_1 _ _ _ _ (ok_sites _ (k_ok _ _ K1)) Ex) as [].
    split; [done | done | by eapply named_ext].
Qed.
End Moves.

(** ** All transitions *)
Section Tame.
Variable tk : ClockworkToken.
Context `{DynEnv} `{!Reactions} `{!Hub}.
Hypothesis react_tame : forall m p, tame (react m p).

Lemma tame_needs_check m : tame (needs_check tk m).
Proof. apply tame_heap. Qed.
Lemma tame_machine m : tame (machine m).
Proof. apply tame_heap. Qed.
Lemma tame_mname m : tame (mname m).
Proof. unfold mname. apply tame_bind; [apply tame_machine | intros; apply tame_ret]. Qed.
Hint Resolve react_tame tame_needs_check tame_machine tame_mname : tame.
Lemma tame_receives m msg from : tame (receives_message tk m msg from).
Proof. unfold receives_message, instance_of. tame. Qed.
Lemma tame_each_from fuel m it body : (forall d, tame (body d)) -> tame (each_from fuel m it body).
Proof. intros Hb. revert it. induction fuel as [|fuel IH]; intros [d|]; cbn; tame. Qed.
Lemma tame_each m body : (forall d, tame (body d)) -> tame (each_dependent m body).
Proof. intros Hb. unfold each_dependent. tame. by apply tame_each_from. Qed.
Lemma tame_wake d : tame (wake_action tk d).
Proof. unfold wake_action. tame. Qed.
Lemma tame_sender f : tame (sender_name f).
Proof. intros s a s' Hs [= <- <-]. by apply keeps_refl. Qed.
Hint Resolve tame_receives tame_wake tame_sender : tame.

(** A change of state keeps the invariant when it is asked for a state that carries
    its token. *)
Definition tame_change (c : ptr -> State -> Z -> bool -> TM Status) : Prop :=
  forall m new_state auth r s a s', states_ok s -> named (toks s) new_state ->
    c m new_state auth r s = Ok (a, s') -> keeps s s'.
Lemma class_named s m x n st0 : states_ok s -> sites s !! m = Some x ->
  findState_name n (class_states x) = Some st0 -> named (toks s) st0.
Proof.
  intros Hs Ex Hf. apply List.find_some in Hf as [Hin _].
  destruct (map_Forall_lookup_1 _ _ _ _ (ok_sites _ Hs) Ex) as [Hc _ _].
  rewrite Forall_forall in Hc. by apply Hc.
Qed.
Lemma get_site_Ok m s r : get_site m s = Ok r <-> exists x, sites s !! m = Some x /\ r = (x, s).
Proof. unfold get_site. destruct (sites s !! m); cbn; naive_solver. Qed.
Lemma machine_Ok m s r : machine m s = Ok r <-> exists x, machines (tw s) !! m = Some x /\ r = (x, s).
Proof.
  unfold machine, on_heap, get_machine. destruct (machines (tw s) !! m); cbn; [|naive_solver].
  destruct s. naive_solver.
Qed.

Lemma tame_from_device change m txt : tame_change change -> tame (from_device change m txt).
Proof.
  intros Hc s a s' Hs Hrun. unfold from_device in Hrun.
  apply sbind_Ok in Hrun as (x & s0 & (x' & Ex & [= -> ->])%get_site_Ok & Hrun).
  apply sbind_Ok in Hrun as (y & s0 & (y' & Ey & [= -> ->])%machine_Ok & Hrun).
  assert (Hgo : forall n b s1, match findState_name n (class_states x') with
     | Some st => let! _r := change m st (expected_authority x') false in sret Complete
     | None => run! record (ELog m) in sret Failed end s = Ok (b, s1) -> keeps s s1).
  { intros n b s1. destruct (findState_name n (class_states x')) as [st0|] eqn:Ef; intros Hr.
    - apply sbind_Ok in Hr as (r & s2 & Hr & [= <- <-]). eapply Hc; [done | | exact Hr]. by eapply class_named.
    - revert Hr. apply tame_bind; [apply tame_record | intros; apply tame_ret | done]. }
  destruct (state_machine y') as [c|]; [|by injection Hrun as <- <-; apply keeps_refl].
  do 2 (match type of Hrun with (if ?b then _ else _) _ = _ => destruct b end; [by eapply Hgo |]).
  by_tame Hrun.
Qed.
Lemma tame_execute change m msg from : tame_change change -> tame (execute tk change m msg from).
Proof.
  intros Hc. unfold execute. pose proof (tame_from_device change m (Message.text msg) Hc). tame.
Qed.

Section Change.
Variable exec : ptr -> Message -> option ptr -> TM Status.
Hypothesis exec_tame : forall m msg from, tame (exec m msg from).
Hint Resolve exec_tame : tame.
Lemma tame_notify m msg : tame (notifyDependents tk exec m msg).
Proof. unfold notifyDependents. apply tame_each. intros d. tame. Qed.
Lemma tame_leave m new_state : tame (leave_state tk exec m new_state).
Proof. unfold leave_state. tame. apply tame_each. intros d. tame. Qed.
Lemma tame_update_self m new_state : tame (update_self m new_state).
Proof. unfold update_self. tame. Qed.
Lemma tame_update_state m n v : tame (update_state m n v).
Proof. unfold update_state. tame. Qed.
Lemma tame_publish m new_state : tame (publish_state m new_state).
Proof. unfold publish_state. tame. Qed.
Lemma tame_schedule m : tame (schedule_rules tk m).
Proof. unfold schedule_rules. tame. Qed.
Hint Resolve tame_notify tame_leave tame_update_self tame_update_state tame_publish tame_schedule : tame.

Lemma change_state_keeps m new_state auth s a s' x : states_ok s -> named (toks s) new_state ->
  sites s !! m = Some x -> is_Some (findState new_state (class_states x)) ->
  change_state tk exec m new_state auth s = Ok (a, s') -> keeps s s'.
Proof.
  intros Hs Hn Ex Hf Hrun. unfold change_state in Hrun.
  apply sbind_Ok in Hrun as (u1 & s1 & R1 & Hrun). pose proof (tame_leave _ _ _ _ _ Hs R1) as K1.
  apply sbind_Ok in Hrun as (u2 & s2 & R2 & Hrun).
  pose proof (keeps_trans _ _ _ K1 (tame_update_self _ _ _ _ _ (k_ok _ _ K1) R2)) as K2.
  apply sbind_Ok in Hrun as (last & s3 & R3 & Hrun).
  destruct (keeps_at _ _ _ _ K2 Ex) as (x2 & E2 & Ec & _).
  assert (K3 : keeps s2 s3).
  { eapply (move_state_keeps m new_state s2); [apply K2 | | exact E2 | by rewrite Ec | exact R3].
    eapply named_ext; [apply K2 | done]. }
  pose proof (keeps_trans _ _ _ K2 K3) as K. eapply keeps_trans; [exact K |].
  destruct K as [_ _ Hs3]. by_tame Hrun.
Qed.
End Change.

Lemma setState_keeps d : tame_change (setState_n tk d).
Proof.
  induction d as [|d IH]; intros m new_state auth r s a s' Hs Hn Hrun; [done |]. cbn [setState_n] in Hrun.
  apply sbind_Ok in Hrun as (x & s0 & (x' & Ex & [= -> ->])%get_site_Ok & Hrun).
  do 3 (match type of Hrun with (if ?b then _ else _) _ = _ => destruct b end; [by_tame Hrun |]).
  apply sbind_Ok in Hrun as (y & s0 & (y' & Ey & [= -> ->])%machine_Ok & Hrun).
  apply sbind_Ok in Hrun as (sm & s0 & (sm' & Esm & [= -> ->])%slift_Ok & Hrun).
  destruct (findState new_state (class_states x')) as [st0|] eqn:Ef.
  { eapply change_state_keeps; [| done | done | exact Ex | by rewrite Ef | exact Hrun].
    intros. by apply tame_execute. }
  rewrite (sbind_run world _ s s s eq_refl) in Hrun.
  apply sbind_Ok in Hrun as (txt & s0 & (txt' & _ & [= -> ->])%slift_Ok & Hrun).
  apply sbind_Ok in Hrun as (ps & s1 & (ps' & t1 & Hp & [= -> ->])%tokenise_Ok & Hrun).
  destruct (grows_State_new _ _ _ _ (ok_toks _ Hs) Hp) as [W1 E1].
  set (s1 := mkTWorld _ _ _ t1 _ _ _ _) in *. assert (K1 : keeps s s1) by (by apply keeps_toks).
  eapply keeps_trans; [exact K1 |]. destruct K1 as [_ _ Hs1].
  destruct (findState ps' (class_states x')); [|by_tame Hrun].
  eapply IH; [done | | exact Hrun]. unfold named, State_new in *. cbn.
  apply sbind_Ok in Hp as (id & t2 & Hg & [= <- <-]). apply getTokenId_inv in Hg as (_ & _ & Hg); [done | apply Hs].
Qed.

(** *** Computations that run after a point where states were read *)
Definition after {A} (s : TWorld) (c : TM A) : Prop :=
  forall s1 a s2, keeps s s1 -> c s1 = Ok (a, s2) -> keeps s1 s2.
Lemma after_tame {A} s (c : TM A) : tame c -> after s c.
Proof. intros Hc s1 a s2 K. apply Hc, K. Qed.
Lemma after_bind {A B} s (c : TM A) (f : A -> TM B) : after s c -> (forall a, after s (f a)) -> after s (sbind c f).
Proof.
  intros Hc Hf s1 b s2 K (a & s3 & R1 & R2)%sbind_Ok. pose proof (Hc _ _ _ K R1) as K1.
  eapply keeps_trans; [exact K1 |]. eapply Hf; [|exact R2]. by eapply keeps_trans.
Qed.
Lemma after_site {A} s m (f : Site -> TM A) :
  (forall s1 x, keeps s s1 -> states_ok s1 -> sites s1 !! m = Some x -> after s1 (f x)) ->
  after s (sbind (get_site m) f).
Proof.
  intros Hf s1 b s2 K (x & s3 & (x' & Ex & [= -> ->])%get_site_Ok & R)%sbind_Ok.
  eapply Hf; [exact K | apply K | exact Ex | apply keeps_refl, K | exact R].
Qed.
Lemma after_rd {A B} s (o : option A) (f : A -> TM B) : (forall a, o = Some a -> after s (f a)) ->
  after s (sbind (slift (rd o)) f).
Proof.
  intros Hf s1 b s2 K (a & s3 & (a' & Ea%rd_Ok & [= -> ->])%slift_Ok & R)%sbind_Ok. by eapply Hf.
Qed.
Lemma tame_after {A} (c : TM A) : (forall s, after s c) -> tame c.
Proof. intros Hc s a s' Hs. apply (Hc s). by apply keeps_refl. Qed.
Lemma after_set s m new_state auth r : named (toks s) new_state -> after s (setState tk m new_state auth r).
Proof. intros Hn s1 a s2 K. apply setState_keeps; [apply K |]. eapply named_ext; [apply K | done]. Qed.

Ltac after_step :=
  match goal with
  | |- after _ (sbind (get_site _) _) => apply after_site; intros ?????
  | |- after _ (sbind (slift (rd _)) _) => apply after_rd; intros ? ?
  | |- after _ (sbind _ _) => apply after_bind; [|intros ?]
  | |- after _ (if ?b then _ else _) => destruct b eqn:?
  | |- after _ (match ?x with _ => _ end) => destruct x eqn:?
  | |- after _ (setState _ _ _ _ _) => apply after_set; eauto using class_named
  | |- after _ _ => apply after_tame; solve [tame]
  end.
Ltac by_after := apply tame_after; intros ?; repeat after_step.

Lemma tame_class_token m : tame (class_token m).
Proof. unfold class_token. tame. Qed.
Hint Resolve tame_class_token : tame.
Lemma tame_fixListState m : tame (fixListState tk m).
Proof. unfold fixListState. by_after. Qed.
Hint Resolve tame_fixListState : tame.
Lemma initial_named s m x : states_ok s -> sites s !! m = Some x -> named (toks s) (initial_state x).
Proof. intros Hs Ex. by destruct (map_Forall_lookup_1 _ _ _ _ (ok_sites _ Hs) Ex). Qed.
Lemma current_named s m x : states_ok s -> sites s !! m = Some x -> named (toks s) (current_state x).
Proof. intros Hs Ex. by destruct (map_Forall_lookup_1 _ _ _ _ (ok_sites _ Hs) Ex). Qed.
Lemma tame_setInitialState m r : tame (setInitialState tk m r).
Proof. unfold setInitialState. by_after; eauto using initial_named. Qed.
Hint Resolve tame_setInitialState : tame.
Lemma tame_sendMessage m msg r e : tame (sendMessageToReceiver m msg r e).
Proof. unfold sendMessageToReceiver. tame. Qed.
Lemma tame_uses a b : tame (uses a b).
Proof. unfold uses. tame. Qed.
Hint Resolve tame_sendMessage tame_uses : tame.
Lemma tame_place a l : tame (place_machine a l).
Proof. induction l; cbn; tame. Qed.
Hint Resolve tame_place : tame.
Lemma tame_places l acc : tame (place_machines l acc).
Proof. revert acc. induction l; intros acc; cbn; tame. Qed.
Hint Resolve tame_places : tame.
Lemma tame_sort m : tame (sortDependentMachines m).
Proof. unfold sortDependentMachines. tame. Qed.
Lemma tame_for_each body l : (forall a, tame (body a)) -> tame (for_each body l).
Proof. intros Hb. induction l; cbn; tame. Qed.
Lemma tame_wake_dependents m : tame (wake_dependents tk m).
Proof. unfold wake_dependents. apply tame_each. intros d. tame. Qed.
Hint Resolve tame_sort tame_for_each tame_wake_dependents : tame.

Context `{!Virtuals}.
Lemma tame_enable d m : tame (enable_n tk d m).
Proof.
  revert m. induction d as [|d IH]; intros m; cbn [enable_n]; [apply tame_undef |]. by_after.
Qed.
Lemma tame_default m : tame (default_value m).
Proof. unfold default_value. tame. Qed.
Hint Resolve tame_default : tame.
Lemma tame_disable d m : tame (disable_n tk d m).
Proof.
  revert m. induction d as [|d IH]; intros m; cbn [disable_n]; [apply tame_undef |].
  tame. by apply tame_times.
Qed.
Lemma tame_resume d m : tame (resume_n tk d m).
Proof.
  revert m. induction d as [|d IH]; intros m; cbn [resume_n]; [apply tame_undef |]. by_after; eauto using current_named.
Qed.
Lemma after_resume_state d m s new_state : named (toks s) new_state -> after s (resume_state tk d m new_state).
Proof.
  intros Hn. pose proof (tame_resume d). unfold resume_state. repeat after_step;
    by (do 2 (eapply named_ext; [by apply k_ext |])).
Qed.
Lemma tame_resume_all d m : tame (resumeAll tk d m).
Proof. unfold resumeAll. pose proof (tame_resume d). tame; apply tame_for_each; intros; tame. Qed.
Lemma tame_broadcast p l : tame (broadcast tk p l).
Proof. induction l; cbn; tame. Qed.
Hint Resolve tame_broadcast : tame.
Lemma tame_dispatch_all n l : tame (dispatch_all tk n l).
Proof.
  induction n as [|n IH]; cbn; [apply tame_ret |]. intros s a s' Hs. destruct (to_deliver s) as [|p rest].
  { intros [= <- <-]. by apply keeps_refl. }
  set (s1 := mkTWorld _ _ _ _ _ _ _ _). assert (K1 : keeps s s1) by (by apply keeps_frame).
  intros Hrun. eapply keeps_trans; [exact K1 |]. destruct K1 as [_ _ Hs1].
  assert (tame (dispatch tk l p)) by (unfold dispatch; tame). by_tame Hrun.
Qed.

(** ** Histories *)
Inductive Operation :=
| SetState (m : ptr) (name : string) (authority : Z) (resume : bool)
| Execute (m : ptr) (msg : Message) (from : option ptr)
| SetInitialState (m : ptr) (resume : bool)
| ResumeState (m : ptr) (name : string)
| Enable (m : ptr) | Disable (m : ptr) | Resume (m : ptr) | ResumeAll (m : ptr)
| Send (m : ptr) (msg : Message) (to : ptr) (expect_reply : bool)
| Dispatch (receivers : list ptr).
(** [d] bounds how deep related machines are nested. *)
Definition operate (d : nat) (o : Operation) : TM unit :=
  match o with
  | SetState m name auth r =>
      let! new_state := tokenise (State_new name) in
      let! _s := setState tk m new_state auth r in sret tt
  | ResumeState m name =>
      let! new_state := tokenise (State_new name) in resume_state tk d m new_state
  | Execute m msg from => let! _s := execute_message tk m msg from in sret tt
  | SetInitialState m r => setInitialState tk m r
  | Enable m => enable_n tk d m
  | Disable m => disable_n tk d m
  | Resume m => resume_n tk d m
  | ResumeAll m => resumeAll tk d m
  | Send m msg to e => sendMessageToReceiver m msg to e
  | Dispatch l => let! w := world in dispatch_all tk (length (to_deliver w)) l
  end.
Fixpoint operate_all (d : nat) (l : list Operation) : TM unit :=
  match l with [] => sret tt | o :: l' => run! operate d o in operate_all d l' end.

(** A state made from its name. *)
Lemma tame_new_state {A} name (f : State -> TM A) :
  (forall s new_state, named (toks s) new_state -> after s (f new_state)) ->
  tame (sbind (tokenise (State_new name)) f).
Proof.
  intros Hf s a s' Hs (st0 & s1 & (st1 & t1 & Hn & [= -> ->])%tokenise_Ok & Hrun)%sbind_Ok.
  destruct (grows_State_new _ _ _ _ (ok_toks _ Hs) Hn) as [W1 E1].
  set (s1 := mkTWorld _ _ _ t1 _ _ _ _) in *. assert (K1 : keeps s s1) by (by apply keeps_toks).
  eapply keeps_trans; [exact K1 |]. eapply (Hf s1); [| by apply keeps_refl; apply K1 | exact Hrun].
  unfold State_new in Hn. apply sbind_Ok in Hn as (id & t2 & Hg & [= <- <-]).
  apply getTokenId_inv in Hg as (_ & _ & Hg); [done | apply Hs].
Qed.
Lemma tame_operate d o : tame (operate d o).
Proof.
  pose proof tame_enable. pose proof tame_disable. pose proof tame_resume. pose proof tame_resume_all.
  pose proof tame_dispatch_all.
  destruct o as [m0 name auth r| | | | | | | | |]; cbn [operate]; try solve [tame].
  - apply tame_new_state. intros s0 st0 Hn. apply after_bind; [by apply after_set | intros; by apply after_tame, tame_ret].
  - apply tame_bind; [apply tame_execute, setState_keeps | intros; apply tame_ret].
  - apply tame_new_state. intros s0 st0 Hn. by apply after_resume_state.
Qed.
Lemma tame_operate_all d l : tame (operate_all d l).
Proof. pose proof tame_operate. induction l; cbn; tame. Qed.
End Tame.

(** ** Handlers *)
(** What a handler does: operations of the machines, and work on the heap of actions,
    triggers and queues. *)
Inductive Deed := Does (o : Operation) | Works (f : World -> World).
Section Scripts.
Variable tk : ClockworkToken.
Context `{DynEnv} `{!Hub} `{!Virtuals}.

Fixpoint perform `{!Reactions} (d : nat) (l : list Deed) : TM unit :=
  match l with
  | [] => sret tt
  | Does o :: l' => run! operate tk d o in perform d l'
  | Works f :: l' => run! on_heap (fun w => Ok (tt, f w)) in perform d l'
  end.
Definition with_react (base : Reactions) (f : ptr -> Package -> TM Status) : Reactions := {|
  react := f;
  methods := @methods base;
  property_value := @property_value base;
  io_name := @io_name base;
  io_state := @io_state base;
  io_value := @io_value base;
  io_signed := @io_signed base;
  is_channel := @is_channel base;
  microsecs := @microsecs base
|}.
(** The handlers that perform what [script] says and give its answer; the operations of a
    handler lead to further handlers, nested up to [n] deep. *)
Fixpoint scripted (base : Reactions) (script : ptr -> Package -> TWorld -> list Deed * Status) (d n : nat) : Reactions :=
  with_react base (match n with
    | O => fun _ _ _ => Undef
    | S n' => fun m p s =>
        (run! @perform (scripted base script d n') d (fst (script m p s)) in sret (snd (script m p s))) s
    end).

Lemma tame_perform `{!Reactions} d l : (forall m p, tame (react m p)) -> tame (perform d l).
Proof.
  intros Hr. induction l as [|[o | f] l IH]; cbn [perform]; [apply tame_ret | |];
    (apply tame_bind; [|done]); [by apply tame_operate | apply tame_heap].
Qed.
Lemma tame_scripted base script d n m p : tame (@react (scripted base script d n) m p).
Proof.
  revert m p. induction n as [|n IH]; intros m p; cbn [scripted with_react react]; [apply tame_undef |].
  intros s a s' Hs Hrun. revert Hrun. apply tame_bind; [by apply tame_perform | intros; apply tame_ret | done].
Qed.
End Scripts.

(** What being in a state means for the names. *)
Definition state_named (x : Site) : Prop :=
  (exists st0, st0 ∈ class_states x /\ s_text st0 = s_text (current_state x)) /\
  exists v, st (properties x) !! "STATE" = Some v /\ names_state (s_text (current_state x)) v.
Lemma in_state_named t x : tok_wf t -> site_ok t x -> in_state x -> state_named x.
Proof.
  intros Hwf [Hc _ Hn] [[st0 Hf] Hv]. split; [|done].
  apply List.find_some in Hf as [Hin He]. exists st0. split; [by apply list_elem_of_In |].
  unfold state_eq in He. apply andb_true_iff in He as [He%Z.eqb_eq _].
  rewrite Forall_forall in Hc. specialize (Hc st0 Hin). unfold named in *.
  apply (tok_inj _ Hwf _ _ (s_token st0)); [done | by rewrite He].
Qed.
Lemma state_named_unmoved x x' : class_states x' = class_states x -> unmoved x x' -> state_named x -> state_named x'.
Proof. intros Ec [Eu Ev] [(st0 & Hin & Ht) (v & Hv & Hn)]. unfold state_named. rewrite Ec, Eu, Ev. naive_solver. Qed.

(** C6: along any history of changes of state, messages executed and delivered, machines
    enabled, disabled, resumed and initialised, that returns, with handlers that perform
    any such operations and any work on actions, triggers and queues, nested to any
    depth: no machine appears or vanishes, the states of every class stay what they
    were, and every machine either still has the state and the property STATE it started
    with or is in one of the states of its class with STATE holding the name of
    that state; so a machine in a state of its class that STATE names stays in one. At the
    start the states of classes and machines carry the tokens of their names. *)
Theorem states_stay_in_class `{DynEnv} `{!Hub} `{!Virtuals} tk base script d n ops s s' :
  states_ok s -> @operate_all tk _ (scripted tk base script d n) _ _ d ops s = Ok (tt, s') ->
  dom (sites s') = dom (sites s) /\
  forall m x x', sites s !! m = Some x -> sites s' !! m = Some x' ->
    class_states x' = class_states x /\ (unmoved x x' \/ state_named x') /\
    (state_named x -> state_named x').
Proof.
  intros Hs Hrun. pose proof (tame_operate_all tk (tame_scripted tk base script d n) d ops _ _ _ Hs Hrun) as K.
  split.
  - apply set_eq. intros m. rewrite !elem_of_dom. pose proof (k_site _ _ K m) as Hm.
    destruct Hm; split; intros []; simplify_eq; by eexists.
  - intros m x x' Ex Ex'. destruct (keeps_at _ _ _ _ K Ex) as (y & Ey & Ec & Hf). simplify_eq. split; [done |].
    assert (unmoved x x' \/ state_named x') as Hm.
    { destruct Hf as [? | Hi]; [by left | right]. apply (in_state_named (toks s')); [apply K | | done].
      exact (map_Forall_lookup_1 _ _ _ _ (ok_sites _ (k_ok _ _ K)) Ex'). }
    split; [done |]. intros Hn. destruct Hm as [Hu | ?]; [by eapply state_named_unmoved | done].
Qed.
