(* ===== verification/TransitionOrder.v ===== *)
(** The order of events in a change of state: who is told that the state is left,
    when the machine takes the new state, who is told that it was entered. *)
From S2P Require Import Prelude Cnum Tokeniser Value SymbolTable Message Handlers Machine MachineProps StableStates Modbus Transitions TransitionsProps.
Open Scope Z_scope.
Local Open Scope sm_scope.

(** ** Steps that queue checks, send messages, assign properties and record events *)
(** The properties of a machine may change, other than STATE. *)
Record site_frame (x y : Site) : Prop := {
  sf_rest : y = set_properties (properties y) x;
  sf_state : st (properties y) !! "STATE" = st (properties x) !! "STATE"
}.
#[export] Instance site_frame_refl : Reflexive site_frame.
Proof. intros []. by split. Qed.
#[export] Instance site_frame_trans : Transitive site_frame.
Proof.
  intros x y z [R1 S1] [R2 S2]. split; [|by rewrite S2].
  trans (set_properties (properties z) (set_properties (properties y) x)); [by rewrite <- R1 | done].
Qed.
Record still (s s' : TWorld) : Prop := {
  q_heap : checked (tw s) (tw s');
  q_sites d : option_Forall2 site_frame (sites s !! d) (sites s' !! d);
  q_rules : rules s' = rules s;
  q_toks : toks s' = toks s;
  q_key_words : key_words s' = key_words s;
  q_to_deliver : to_deliver s `prefix_of` to_deliver s'
}.
Lemma still_same s s' : checked (tw s) (tw s') -> sites s' = sites s -> rules s' = rules s -> toks s' = toks s ->
  key_words s' = key_words s -> to_deliver s' = to_deliver s -> still s s'.
Proof. intros ? Es ? ? ? Eq. split; [done | intros d; by rewrite Es | done .. | by rewrite Eq]. Qed.
#[export] Instance still_refl : Reflexive still.
Proof. intros s. by apply still_same. Qed.
#[export] Instance still_trans : Transitive still.
Proof.
  intros s1 s2 s3 [? Q1] [? Q2]. split; [by etrans | intros d; etrans; [apply Q1 | apply Q2] | congruence .. | by etrans].
Qed.

(** [k] more checks fit the counters. *)
Definition room (k : nat) (s : TWorld) : Prop :=
  checks_ok (tw s) /\ bounded (INT_MAX - 1 - Z.of_nat k) (tw s) /\ Z.of_nat k < 2 ^ 30.
(** The computation returns [a], registers at most [k] checks and records [ev]. *)
Definition runs {A} (k : nat) (c : TM A) (s : TWorld) (a : A) (ev : list TEvent) : Prop :=
  forall j, room (k + j) s -> exists s', c s = Ok (a, s') /\ still s s' /\ log s' = log s ++ ev /\ room j s'.

Lemma room_le j k s : (j <= k)%nat -> room k s -> room j s.
Proof.
  intros Hle (Hok & Hb & Hk). split; [done |]. split; [|lia]. eapply map_Forall_impl; [exact Hb |].
  intros m x. cbn. lia.
Qed.
Lemma runs_le {A} k k' (c : TM A) s a ev : (k <= k')%nat -> runs k c s a ev -> runs k' c s a ev.
Proof. intros Hle Hc j Hr. apply Hc. eapply room_le; [|exact Hr]. lia. Qed.
Lemma runs_pure {A} (c : TM A) s a s' : c s = Ok (a, s') -> still s s' -> log s' = log s -> tw s' = tw s ->
  runs 0 c s a [].
Proof.
  intros Hc Hs Hl Ht j Hr. exists s'. rewrite Hl, app_nil_r. unfold room in *. rewrite Ht. done.
Qed.
Lemma runs_ret {A} (a : A) s : runs 0 (sret a) s a [].
Proof. by eapply runs_pure. Qed.
Lemma runs_bind {A B} k1 k2 (c : TM A) (f : A -> TM B) s a b ev1 ev2 : runs k1 c s a ev1 ->
  (forall s1, still s s1 -> runs k2 (f a) s1 b ev2) -> runs (k1 + k2) (sbind c f) s b (ev1 ++ ev2).
Proof.
  intros Hc Hf j Hr. destruct (Hc (k2 + j)%nat) as (s1 & R1 & S1 & L1 & Hr1).
  { eapply room_le; [|exact Hr]. lia. }
  destruct (Hf s1 S1 j Hr1) as (s2 & R2 & S2 & L2 & Hr2).
  exists s2. unfold sbind. rewrite R1. split; [done |]. split; [by etrans |].
  split; [by rewrite L2, L1, app_assoc | done].
Qed.
(** The first step registers nothing and records nothing. *)
Lemma runs_step {A B} k (c : TM A) (f : A -> TM B) s a b ev : runs 0 c s a [] ->
  (forall s1, still s s1 -> runs k (f a) s1 b ev) -> runs k (sbind c f) s b ev.
Proof. apply (runs_bind 0 k). Qed.
(** It only reads. *)
Lemma runs_read {A B} k (c : TM A) (f : A -> TM B) s a b ev : c s = Ok (a, s) ->
  runs k (f a) s b ev -> runs k (sbind c f) s b ev.
Proof. intros Hc Hf j. rewrite (sbind_run _ _ _ _ _ Hc). apply Hf. Qed.
Lemma runs_record e s : runs 0 (record e) s tt [e].
Proof. intros j Hr. eexists. split; [reflexivity |]. split; [by apply still_same |]. done. Qed.
Lemma runs_new_message n k s : runs 0 (new_message n k) s (fst (Message_new n k None (sequence s))) [].
Proof. eapply runs_pure; [reflexivity | by apply still_same | done ..]. Qed.
Lemma machine_run m x s : machines (tw s) !! m = Some x -> machine m s = Ok (x, s).
Proof. intros E. apply machine_Ok. eauto. Qed.
Lemma mname_run m x s : machines (tw s) !! m = Some x -> mname m s = Ok (m_name x, s).
Proof. intros E. unfold mname. by rewrite (sbind_run _ _ _ _ _ (machine_run _ _ _ E)). Qed.

Lemma still_machine s s' m x : still s s' -> machines (tw s) !! m = Some x ->
  exists y, machines (tw s') !! m = Some y /\ mach_frame x y.
Proof. intros Hs. apply checked_lookup, Hs. Qed.
Lemma still_site s s' m x : still s s' -> sites s !! m = Some x -> exists y, sites s' !! m = Some y /\ site_frame x y.
Proof. intros Hs Ex. pose proof (q_sites _ _ Hs m) as Hm. rewrite Ex in Hm. inversion Hm; subst. eauto. Qed.

Lemma on_heap_id {A} (c : M A) s a : c (tw s) = Ok (a, tw s) -> on_heap c s = Ok (a, s).
Proof. intros E. unfold on_heap. rewrite E. by destruct s. Qed.

(** ** Machines at rest *)
(** No action of the machine waits for a trigger or is suspended. *)
Definition resting (w : World) (a : ptr) : Prop :=
  exists y, actions w !! a = Some y /\ status y <> Suspended /\ trigger y = None.
Record at_rest (s : TWorld) (d : ptr) (x : Machine) (si : Site) : Prop := {
  ar_machine : machines (tw s) !! d = Some x;
  ar_site : sites s !! d = Some si;
  ar_stack : Forall (resting (tw s)) (active_actions x)
}.
Lemma at_rest_still s s' d x si : still s s' -> at_rest s d x si ->
  exists y sj, at_rest s' d y sj /\ mach_frame x y /\ site_frame si sj.
Proof.
  intros Hs [Ex Esi Hst]. destruct (still_machine _ _ _ _ Hs Ex) as (y & Ey & Hf).
  destruct (still_site _ _ _ _ Hs Esi) as (sj & Esj & Hg). exists y, sj. split; [|done].
  split; [done | done |]. destruct Hf as [-> _]. cbn.
  revert Hst. apply Forall_impl. intros a (z & Hz & ?). exists z. by rewrite (ck_actions _ _ (q_heap _ _ Hs)).
Qed.

Section Order.
Variable tk : ClockworkToken.
Context `{DynEnv} `{!Reactions} `{!Hub}.

Definition instance_at (d : ptr) (x : Machine) (si : Site) : Instance_ :=
  let '(cmds, recv, trans, stable) := methods d in
  Handlers.mkInstance d (m_name x) (is_enabled x) (current_state si) (io_interface si) (s_listens si)
    cmds recv trans stable.
(** Does the machine take a message of the kind and text? *)
Definition takes (d : ptr) (x : Machine) (si : Site) (k : MessageType) (txt : string) (from : option ptr) : bool :=
  fst (receives (mkMessage k 0 txt None) from (instance_at d x si)).
(** The name under which the message of a machine is handled. *)
Definition event_name (from txt : string) : string :=
  if has_dot txt then txt else (from +:+ "." +:+ txt)%string.

Lemma takes_frame d x y si sj k txt from : mach_frame x y -> site_frame si sj ->
  takes d y sj k txt from = takes d x si k txt from.
Proof. by intros [-> _] [-> _]. Qed.

Lemma runs_needs_check d x s : machines (tw s) !! d = Some x -> runs 1 (needs_check tk d) s tt [].
Proof.
  intros Ex j (Hok & Hb & Hk).
  pose proof (map_Forall_lookup_1 _ _ _ _ Hb Ex) as Hx. cbn in Hx.
  destruct (setNeedsCheck_ok tk d (tw s) x Hok Ex ltac:(lia)) as (w' & Hr & Hc & Hu).
  eexists. unfold needs_check, on_heap. rewrite Hr. split; [reflexivity |]. split; [by apply still_same |].
  split; [by rewrite app_nil_r |]. split; [by eapply checked_ok |]. split; [|lia].
  apply Hu; [unfold INT_MAX in *; lia | lia |]. eapply map_Forall_impl; [exact Hb |]. intros m y. cbn. lia.
Qed.
Lemma runs_receives d x si s msg f : machines (tw s) !! d = Some x -> sites s !! d = Some si ->
  runs 1 (receives_message tk d msg f) s (takes d x si (m_kind msg) (Message.text msg) f) [].
Proof.
  intros Ex Esi. unfold receives_message.
  eapply (runs_read _ _ _ _ (instance_at d x si)).
  { unfold instance_of, instance_at. rewrite (sbind_run _ _ _ _ _ (machine_run _ _ _ Ex)).
    rewrite (sbind_run _ _ _ _ _ (get_site_run _ _ _ Esi)). by destruct (methods d) as [[[? ?] ?] ?]. }
  replace (receives msg f (instance_at d x si)) with
    (receives (mkMessage (m_kind msg) 0 (Message.text msg) None) f (instance_at d x si)) by done.
  unfold takes. destruct (receives (mkMessage _ _ _ _) _ _) as [b check].
  apply (runs_bind 1 0 _ _ _ tt _ [] []); [|intros; apply runs_ret].
  destruct check; [by eapply runs_needs_check | eapply runs_le; [|apply runs_ret]; lia].
Qed.
Lemma fire_triggers_rest txt l w : Forall (resting w) l -> fire_triggers tk txt l w = Ok (tt, w).
Proof.
  induction 1 as [|a l (y & Ey & _ & Et) _ IH]; [done |]. cbn [fire_triggers]. heap_step. rewrite Et. by heap_step.
Qed.
Lemma wake_run d x si s : at_rest s d x si -> wake_action tk d s = Ok (tt, s).
Proof.
  intros [Ex _ Hst]. unfold wake_action.
  rewrite (sbind_run _ _ s (executing x) s); [|apply on_heap_id; unfold executingCommand; by heap_step].
  destruct (executing x) as [a|] eqn:Ea; [|done].
  assert (resting (tw s) a) as (y & Ey & Hns & _).
  { rewrite Forall_forall in Hst. apply Hst, list_elem_of_In. by apply last_Some_elem_of. }
  rewrite (sbind_run _ _ s y s); [|by apply on_heap_id, get_action_run]. by destruct (status y).
Qed.

(** The handlers answer at once: they may register up to [kh] checks, record events,
    send messages and assign properties. *)
Variable answer : ptr -> string -> Status.
Variable emits : ptr -> string -> list TEvent.
Variable kh : nat.
Hypothesis react_answers : forall d p s,
  runs kh (react d p) s (answer d (Message.text (message p))) (emits d (Message.text (message p))).
(** A machine executes the message. *)
Definition handled (d : ptr) (txt : string) : list TEvent := EExecute d txt :: emits d txt.

Lemma runs_execute change d x si f xf s msg : at_rest s d x si -> is_enabled x = true ->
  Message.text msg <> "" -> io_interface si <> Some f -> mq_interface si <> Some f ->
  machines (tw s) !! f = Some xf ->
  runs (1 + kh) (execute tk change d msg (Some f)) s (answer d (event_name (m_name xf) (Message.text msg)))
    (handled d (event_name (m_name xf) (Message.text msg))).
Proof.
  intros Hd Hen Ht Hio Hmq Ef. set (ev := event_name _ _). unfold execute.
  eapply runs_read; [apply machine_run, Hd |]. rewrite Hen. cbn [negb].
  unfold is_empty. rewrite bool_decide_false by done.
  apply (runs_bind 1 kh _ _ _ tt _ []); [by eapply runs_needs_check, Hd |]. intros s2 S2.
  destruct (still_machine s s2 f xf S2 Ef) as (xf' & Ef' & F2).
  apply (runs_read _ _ _ _ ev).
  { unfold ev, event_name. destruct (has_dot (Message.text msg)); [done |].
    unfold sbind, sender_name. rewrite Ef'. by destruct F2 as [-> _]. }
  destruct (at_rest_still s s2 _ _ _ S2 Hd) as (y & sj & Hy & _ & [Esj _]).
  eapply runs_read; [apply machine_run, Hy |].
  eapply runs_read; [apply on_heap_id, fire_triggers_rest, Hy |].
  eapply runs_read; [apply get_site_run, Hy |]. cbn.
  assert (forall o, o <> Some f -> match o with Some a => bool_decide (a = f) | None => false end = false) as Hnot.
  { intros [a|]; [|done]. intros Ha. apply bool_decide_false. congruence. }
  replace (io_interface sj) with (io_interface si) by (by rewrite Esj).
  replace (mq_interface sj) with (mq_interface si) by (by rewrite Esj).
  rewrite (Hnot _ Hio), (Hnot _ Hmq). cbn [orb].
  apply (runs_bind 0 kh _ _ _ tt _ [_]); [apply runs_record |]. intros s7 S7.
  eapply runs_step; [apply runs_new_message |]. intros s8 S8. apply react_answers.
Qed.

(** *** The loop over the dependents *)
Lemma next_after_cons d l pre : d ∉ pre -> next_after d (pre ++ d :: l) = head l.
Proof.
  induction pre as [|a pre IH]; cbn; intros Hn.
  - by rewrite bool_decide_true.
  - apply not_elem_of_cons in Hn as [Hne Hn]. rewrite bool_decide_false by congruence. by apply IH.
Qed.
Lemma runs_each m x (body : ptr -> TM unit) (ev : ptr -> list TEvent) k s :
  machines (tw s) !! m = Some x -> NoDup (depends x) ->
  (forall d, d ∈ depends x -> is_Some (machines (tw s) !! d)) ->
  (forall d s1, d ∈ depends x -> still s s1 -> runs k (body d) s1 tt (ev d)) ->
  runs (k * length (depends x)) (each_dependent m body) s tt (depends x ≫= ev).
Proof.
  intros Ex Hnd Hex Hb. unfold each_dependent. eapply runs_read; [by apply machine_run |].
  apply (runs_read _ world _ _ s); [done |].
  assert (Hsz : (length (depends x) <= size (machines (tw s)))%nat).
  { rewrite <- size_dom, <- (size_list_to_set (C := gset ptr)) by done.
    apply subseteq_size. intros d Hd%elem_of_list_to_set. by apply elem_of_dom, Hex. }
  enough (forall l pre s2 fuel, depends x = pre ++ l -> still s s2 -> (length l <= fuel)%nat ->
    runs (k * length l) (each_from fuel m (head l) body) s2 tt (l ≫= ev)) as Hgo by (by apply (Hgo _ [])).
  clear Hsz. induction l as [|d l IH]; intros pre s2 fuel El S2 Hf.
  { destruct fuel; (eapply runs_le; [|apply runs_ret]; lia). }
  destruct fuel as [|fuel]; [cbn in Hf; lia |]. cbn [each_from head].
  destruct (still_machine _ _ _ _ S2 Ex) as (y & Ey & [Fy _]).
  eapply runs_read; [by apply machine_run |].
  assert (Edep : depends y = pre ++ d :: l) by (by rewrite Fy, <- El).
  assert (Hin : d ∈ pre ++ d :: l) by (apply elem_of_app; right; left).
  rewrite Edep, bool_decide_true by done. cbn [negb].
  replace (k * length (d :: l))%nat with (k + k * length l)%nat by (cbn; lia).
  apply (runs_bind k (k * length l) _ _ _ tt _ (ev d)).
  { apply Hb; [by rewrite El | done]. }
  intros s4 S4. rewrite next_after_cons.
  - apply (IH (pre ++ [d])); [by rewrite <- app_assoc | by etrans | cbn in Hf; lia].
  - rewrite El in Hnd. apply list.NoDup_app in Hnd as (_ & Hd & _). intros Hp. apply (Hd d Hp). left.
Qed.

(** *** Leaving and entering *)
(** A machine and its dependents, all at rest, none of them the device of another. *)
Record scene (s : TWorld) (m : ptr) (x : Machine) (si : Site) : Prop := {
  sc_rest : at_rest s m x si;
  sc_nodup : NoDup (depends x);
  sc_io : io_interface si <> Some m /\ mq_interface si <> Some m;
  sc_deps : forall d, d ∈ depends x -> exists xd sd, at_rest s d xd sd /\
    io_interface sd <> Some m /\ mq_interface sd <> Some m
}.
Lemma scene_still s s' m x si : still s s' -> scene s m x si ->
  exists y sj, scene s' m y sj /\ mach_frame x y /\ site_frame si sj.
Proof.
  intros Hs [Hr Hnd Hio Hd]. destruct (at_rest_still _ _ _ _ _ Hs Hr) as (y & sj & Hy & Hf & Hg).
  exists y, sj. split; [|done]. destruct Hf as [Ey _]. split; [done | by rewrite Ey | by destruct Hg as [-> _] |].
  intros d Hin. replace (depends y) with (depends x) in Hin by (by rewrite Ey).
  destruct (Hd d Hin) as (xd & sd & Hxd & Hsd). 
  destruct (at_rest_still _ _ _ _ _ Hs Hxd) as (yd & zd & Hyd & _ & [Ezd _]). exists yd, zd. split; [done |].
  by rewrite Ezd.
Qed.
Lemma scene_deps s m x si d : scene s m x si -> d ∈ depends x -> is_Some (machines (tw s) !! d).
Proof. intros [_ _ _ Hd] Hin. destruct (Hd d Hin) as (xd & sd & [-> _ _] & _). done. Qed.

(** Whom the machine tells that it leaves, and that it has entered a state. *)
Definition told_leaving (s : TWorld) (m : ptr) (txt : string) (d : ptr) : list TEvent :=
  match machines (tw s) !! d, sites s !! d with
  | Some xd, Some sd =>
      if negb (bool_decide (m = d)) && takes d xd sd LEAVEMSG txt (Some m) then handled d txt else []
  | _, _ => []
  end.
Definition told_entered (s : TWorld) (m : ptr) (txt : string) (d : ptr) : list TEvent :=
  match machines (tw s) !! d, sites s !! d with
  | Some xd, Some sd =>
      if negb (bool_decide (m = d)) && is_enabled xd
         && (machine_active xd || bool_decide (is_Some (io_interface sd)))
         && takes d xd sd ENTERMSG txt (Some m) then handled d txt else []
  | _, _ => []
  end.

Lemma has_dot_app a b : has_dot (a +:+ "." +:+ b)%string = true.
Proof.
  unfold has_dot. induction a as [|c a IH]; [done |]. rewrite string_cons_app. cbn [after_dot].
  destruct (code c =? 46); [done | exact IH].
Qed.
Lemma event_dotted f a b : event_name f (a +:+ "." +:+ b)%string = (a +:+ "." +:+ b)%string.
Proof. unfold event_name. by rewrite has_dot_app. Qed.
Lemma dotted_nonempty a b : (a +:+ "." +:+ b)%string <> "".
Proof. destruct a; [done |]. by rewrite string_cons_app. Qed.
Lemma takes_enabled d x si k txt f : takes d x si k txt f = true -> is_enabled x = true.
Proof.
  unfold takes, receives, instance_at. destruct (methods d) as [[[? ?] ?] ?]. cbn. by destruct (is_enabled x).
Qed.

(** A dependent that takes the message executes it. *)
Lemma runs_tell change m xm d xd sd s a b k q : at_rest s d xd sd -> machines (tw s) !! m = Some xm ->
  io_interface sd <> Some m -> mq_interface sd <> Some m ->
  let txt := (a +:+ "." +:+ b)%string in
  runs (2 + kh) (let! r := receives_message tk d (mkMessage k q txt None) (Some m) in
          if negb r then sret tt else
          run! wake_action tk d in
          let! _st := execute tk change d (mkMessage k q txt None) (Some m) in sret tt) s tt
    (if takes d xd sd k txt (Some m) then handled d txt else []).
Proof.
  intros Hd Em Hio Hmq txt. apply (runs_bind 1 (1 + kh) _ _ _ (takes d xd sd k txt (Some m)) _ []).
  { apply (runs_receives d xd sd s (mkMessage k q txt None)); apply Hd. }
  intros s1 S1. destruct (takes d xd sd k txt (Some m)) eqn:Et; cbn [negb]; [|eapply runs_le; [|apply runs_ret]; lia].
  destruct (at_rest_still _ _ _ _ _ S1 Hd) as (yd & sy & Hyd & [Eyd _] & [Esy _]).
  eapply runs_read; [by eapply wake_run |].
  destruct (still_machine s s1 m xm S1 Em) as (zm & Ezm & _).
  rewrite <- (app_nil_r (handled d txt)). replace (1 + kh)%nat with (1 + kh + 0)%nat by lia.
  eapply runs_bind; [|intros; apply runs_ret].
  pose proof (runs_execute change d yd sy m zm s1 (mkMessage k q txt None) Hyd) as Hx.
  cbn [Message.text] in Hx. unfold txt in *. rewrite event_dotted in Hx.
  apply Hx; [|apply dotted_nonempty | by rewrite Esy .. | done].
  rewrite Eyd. by eapply takes_enabled.
Qed.

Lemma told_leaving_at s s1 m txt d xd sd : still s s1 -> at_rest s1 d xd sd -> told_leaving s m txt d =
  if negb (bool_decide (m = d)) && takes d xd sd LEAVEMSG txt (Some m) then handled d txt else [].
Proof.
  intros Hs [Ex Esi _]. unfold told_leaving. pose proof (q_sites _ _ Hs d) as Hd. rewrite Esi in Hd.
  inversion Hd as [z ? Hg Ez |]; subst. destruct (checked_inv _ _ _ _ (q_heap _ _ Hs) Ex) as (y & -> & Hf).
  by rewrite (takes_frame _ _ _ _ _ _ _ _ Hf Hg).
Qed.
Lemma told_entered_at s s1 m txt d xd sd : still s s1 -> at_rest s1 d xd sd -> told_entered s m txt d =
  if negb (bool_decide (m = d)) && is_enabled xd && (machine_active xd || bool_decide (is_Some (io_interface sd)))
     && takes d xd sd ENTERMSG txt (Some m) then handled d txt else [].
Proof.
  intros Hs [Ex Esi _]. unfold told_entered. pose proof (q_sites _ _ Hs d) as Hd. rewrite Esi in Hd.
  inversion Hd as [z ? Hg Ez |]; subst. destruct (checked_inv _ _ _ _ (q_heap _ _ Hs) Ex) as (y & -> & Hf).
  rewrite (takes_frame _ _ _ _ _ _ _ _ Hf Hg). by destruct Hf as [-> _], Hg as [-> _].
Qed.
Lemma told_entered_still s s1 m txt d : still s s1 -> told_entered s1 m txt d = told_entered s m txt d.
Proof.
  intros Hs. unfold told_entered.
  pose proof (ck_machines _ _ (q_heap _ _ Hs) d) as Hd. destruct Hd as [x y Hf|]; [|done].
  destruct (q_sites _ _ Hs d) as [z z' Hg|]; [|done]. rewrite (takes_frame _ _ _ _ _ _ _ _ Hf Hg).
  by destruct Hf as [-> _], Hg as [-> _].
Qed.

(** What happens before the machine takes its new state. *)
Definition leaving (s : TWorld) (m : ptr) (x : Machine) (si : Site) (new_state : State) : list TEvent :=
  let old := s_text (current_state si) in
  let ev := event_name (m_name x) (old +:+ "_leave") in
  if is_enabled x && state_ne (current_state si) new_state && negb (bool_decide (old = "undefined")) then
    (if takes m x si LEAVEMSG (old +:+ "_leave") (Some m)
     then handled m ev ++ (if bool_decide (answer m ev = Failed)
            || (negb (machine_active x) && negb (bool_decide (answer m ev = Complete))) then [ELog m] else [])
     else []) ++
    (depends x ≫= told_leaving s m (m_name x +:+ "." +:+ old +:+ "_leave"))
  else [].
(** The machine's own LEAVE handler. *)
Lemma runs_leave_self change m x si s old q : scene s m x si -> is_enabled x = true ->
  let ev := event_name (m_name x) (old +:+ "_leave") in
  runs (1 + kh) (let! stat := execute tk change m (mkMessage LEAVEMSG q (old +:+ "_leave")%string None) (Some m) in
    let! y := machine m in
    if bool_decide (stat = Failed) || (negb (machine_active y) && negb (bool_decide (stat = Complete)))
    then record (ELog m) else sret tt) s tt
    (handled m ev ++ (if bool_decide (answer m ev = Failed)
            || (negb (machine_active x) && negb (bool_decide (answer m ev = Complete))) then [ELog m] else [])).
Proof.
  intros Hsc Hen ev. replace (1 + kh)%nat with (1 + kh + 0)%nat by lia.
  apply (runs_bind _ 0 _ _ _ (answer m ev) _ (handled m ev)).
  { apply (runs_execute change m x si m x s (mkMessage LEAVEMSG q (old +:+ "_leave")%string None));
      [apply Hsc | done | by destruct old | apply Hsc | apply Hsc | apply Hsc]. }
  intros s5 S5. destruct (scene_still s s5 _ _ _ S5 Hsc) as (z5 & ? & Hz5 & [Ez5 _] & _).
  eapply runs_read; [apply machine_run, Hz5 |].
  replace (machine_active z5) with (machine_active x) by (by rewrite Ez5).
  destruct (bool_decide (answer m ev = Failed) || _); [apply runs_record | apply runs_ret].
Qed.
Lemma runs_leave change m x si new_state s : scene s m x si ->
  runs (2 + kh + (2 + kh) * length (depends x)) (leave_state tk (execute tk change) m new_state) s tt
    (leaving s m x si new_state).
Proof.
  intros Hsc. unfold leave_state, leaving.
  eapply runs_read; [apply machine_run, Hsc |]. eapply runs_read; [apply get_site_run, Hsc |].
  set (old := s_text (current_state si)). destruct (is_enabled x) eqn:Een;
    cbn [andb]; [|eapply runs_le; [|apply runs_ret]; lia].
  destruct (state_ne (current_state si) new_state && negb (bool_decide (old = "undefined")));
    [|eapply runs_le; [|apply runs_ret]; lia].
  eapply runs_step; [apply runs_new_message |]. intros s3 S03. cbn [fst Message_new].
  destruct (scene_still _ _ _ _ _ S03 Hsc) as (y & sy & Hy & Fy & Gy).
  set (ev := event_name _ _). set (self := if takes _ _ _ _ _ _ then _ else _).
  replace (2 + kh + (2 + kh) * length (depends x))%nat with (1 + ((1 + kh) + (2 + kh) * length (depends x)))%nat by lia.
  apply (runs_bind 1 _ _ _ _ (takes m x si LEAVEMSG (old +:+ "_leave") (Some m)) _ [] (self ++ _)).
  { rewrite <- (takes_frame _ _ _ _ _ _ _ _ Fy Gy).
    apply (runs_receives m y sy s3 (mkMessage LEAVEMSG _ (old +:+ "_leave") None)); apply Hy. }
  intros s4 S4. assert (S04 : still s s4) by (by etrans).
  apply (runs_bind (1 + kh) _ _ _ _ tt _ self).
  { subst self. destruct (takes _ _ _ _ _ _); [|eapply runs_le; [|apply runs_ret]; lia].
    destruct (scene_still _ _ _ _ _ S04 Hsc) as (z & sz & Hz & [Ez _] & _). subst ev.
    replace (m_name x) with (m_name z) by (by rewrite Ez).
    replace (machine_active x) with (machine_active z) by (by rewrite Ez).
    eapply runs_leave_self; [exact Hz | by rewrite Ez]. }
  intros s5 S5. assert (S05 : still s s5) by (by etrans).
  destruct (scene_still _ _ _ _ _ S05 Hsc) as (z5 & sz5 & Hz5 & _ & [Esz _]).
  eapply runs_read; [apply get_site_run, Hz5 |].
  eapply runs_step; [apply runs_new_message |]. intros s7 S7. cbn [fst Message_new].
  replace (s_text (current_state sz5)) with old by (by rewrite Esz).
  assert (S07 : still s s7) by (by etrans).
  destruct (scene_still _ _ _ _ _ S07 Hsc) as (z & sz & Hz & [Ez _] & _).
  replace (depends x) with (depends z) by (by rewrite Ez).
  apply runs_each; [apply Hz | apply Hz | intros d; by eapply scene_deps |].
  intros d s8 Hd S8. destruct (sc_deps _ _ _ _ Hz d Hd) as (xd & sd & Hxd & Hio & Hmq).
  destruct (at_rest_still _ _ _ _ _ S8 Hxd) as (yd & syd & Hyd & _ & [Esyd _]).
  rewrite (told_leaving_at s s8 m _ d yd syd) by (try done; by etrans).
  destruct (bool_decide (m = d)); cbn [negb andb]; [eapply runs_le; [|apply runs_ret]; lia |].
  destruct (still_machine s7 s8 m z) as (zm & Ezm & _); [done | apply Hz |].
  eapply runs_tell; [exact Hyd | exact Ezm | by rewrite Esyd ..].
Qed.

(** What happens after it. *)
Definition entering (s : TWorld) (m : ptr) (x : Machine) (txt : string) : list TEvent :=
  handled m txt ++ (depends x ≫= told_entered s m txt).
Lemma runs_notify change m x si s a b k q : scene s m x si -> k = ENTERMSG ->
  let txt := (a +:+ "." +:+ b)%string in
  runs ((2 + kh) * length (depends x)) (notifyDependents tk (execute tk change) m (mkMessage k q txt None)) s tt
    (depends x ≫= told_entered s m txt).
Proof.
  intros Hsc -> txt. apply runs_each; [apply Hsc | apply Hsc | intros d; by eapply scene_deps |].
  intros d s1 Hd S1. destruct (sc_deps _ _ _ _ Hsc d Hd) as (xd & sd & Hxd & Hio & Hmq).
  destruct (at_rest_still _ _ _ _ _ S1 Hxd) as (yd & syd & Hyd & _ & [Esyd _]).
  rewrite (told_entered_at s s1 m _ d yd syd) by done.
  destruct (bool_decide (m = d)); cbn [negb andb]; [eapply runs_le; [|apply runs_ret]; lia |].
  eapply runs_read; [apply machine_run, Hyd |]. eapply runs_read; [apply get_site_run, Hyd |].
  destruct (is_enabled yd) eqn:Een; cbn [negb andb]; [|eapply runs_le; [|apply runs_ret]; lia].
  destruct (machine_active yd || bool_decide (is_Some (io_interface syd))) eqn:Ea; cbn [andb].
  2: { apply orb_false_iff in Ea as [-> ->]. cbn. eapply runs_le; [|apply runs_ret]; lia. }
  replace (negb (machine_active yd) && negb (bool_decide (is_Some (io_interface syd)))) with false
    by (by rewrite <- negb_orb, Ea).
  apply (runs_bind 1 (1 + kh) _ _ _ (takes d yd syd ENTERMSG txt (Some m)) _ []).
  { apply (runs_receives d yd syd s1 (mkMessage ENTERMSG q txt None)); apply Hyd. }
  intros s4 S4. destruct (takes _ _ _ _ _ _); [|eapply runs_le; [|apply runs_ret]; lia].
  destruct (at_rest_still s1 s4 _ _ _ S4 Hyd) as (wd & swd & Hwd & [Ewd _] & [Eswd _]).
  destruct (still_machine s s4 m x) as (zm & Ezm & _); [by etrans | apply Hsc |].
  rewrite <- (app_nil_r (handled d txt)). replace (1 + kh)%nat with (1 + kh + 0)%nat by lia.
  eapply runs_bind; [|intros; apply runs_ret].
  pose proof (runs_execute change d wd swd m zm s4 (mkMessage ENTERMSG q txt None) Hwd) as Hx.
  cbn [Message.text] in Hx. unfold txt in *. rewrite event_dotted in Hx.
  apply Hx; [by rewrite Ewd | apply dotted_nonempty | by rewrite Eswd, Esyd .. | done].
Qed.
Lemma runs_enter change m x si s new : scene s m x si -> is_enabled x = true ->
  let txt := (m_name x +:+ "." +:+ new +:+ "_enter")%string in
  runs (1 + kh + (2 + kh) * length (depends x))
    (let! n := mname m in
     let! msg := new_message (n +:+ "." +:+ new +:+ "_enter")%string ENTERMSG in
     let! stat := execute tk change m msg (Some m) in
     run! notifyDependents tk (execute tk change) m msg in
     sret stat) s (answer m txt) (entering s m x txt).
Proof.
  intros Hsc Hen txt. eapply runs_read; [apply mname_run, Hsc |].
  eapply runs_step; [apply runs_new_message |]. intros s2 S02. cbn [fst Message_new]. fold txt.
  destruct (scene_still _ _ _ _ _ S02 Hsc) as (y & sy & Hy & [Ey _] & _).
  apply (runs_bind (1 + kh) _ _ _ _ (answer m txt) _ (handled m txt)).
  { pose proof (runs_execute change m y sy m y s2 (mkMessage ENTERMSG (u64 (sequence s + 1)) txt None)) as Hx.
    cbn [Message.text] in Hx. unfold txt in *. rewrite event_dotted in Hx.
    apply Hx; [apply Hy | by rewrite Ey | apply dotted_nonempty | apply Hy ..]. }
  intros s3 S3. assert (S03 : still s s3) by (by etrans).
  destruct (scene_still _ _ _ _ _ S03 Hsc) as (z & sz & Hz & [Ez _] & _).
  rewrite <- (app_nil_r (depends x ≫= told_entered s m txt)).
  replace ((2 + kh) * length (depends x))%nat with ((2 + kh) * length (depends z) + 0)%nat by (rewrite Ez; cbn; lia).
  apply (runs_bind _ 0 _ _ _ tt); [|intros; apply runs_ret].
  replace (depends x ≫= told_entered s m txt) with (depends z ≫= told_entered s3 m txt).
  { eapply runs_notify; [exact Hz | done]. }
  apply list_bind_ext; [|by rewrite Ez]. intros d. by apply told_entered_still.
Qed.

(** *** The change itself *)
Lemma Value_cstr_known n k t id : tokens t !! n = Some id -> exists v, Value_cstr n k t = Ok (v, t).
Proof.
  intros Hn. unfold Value_cstr. repeat case_match; eauto. unfold sbind, getTokenId. rewrite Hn. by eexists.
Qed.
Lemma move_state_run m st0 s x : tok_room 1 (toks s) -> named (toks s) st0 -> sites s !! m = Some x ->
  exists a s', move_state m st0 s = Ok (a, s').
Proof.
  intros Hr Hn Ex. unfold move_state. rewrite (sbind_run world _ s s s eq_refl).
  rewrite (sbind_run _ _ _ _ _ (get_site_run _ _ _ Ex)), (sbind_run _ _ _ _ _ (upd_site_run _ _ _ _ Ex)).
  unfold sbind at 1, tokenise at 1, State_copy, getTokenId, sbind at 1. cbn [toks]. unfold named in Hn. rewrite Hn. cbn.
  erewrite (sbind_run (upd_site _ _)) by (apply upd_site_run; cbn; apply lookup_insert_eq).
  rewrite (sbind_run (record _) _ _ _ _ eq_refl). cbn [tw sites rules toks key_words sequence to_deliver log].
  unfold set_state_property. unfold sbind at 1.
  erewrite (sbind_run (get_site _)) by (apply get_site_run; cbn; apply lookup_insert_eq).
  destruct (Value_cstr_known (s_text st0) t_symbol (toks s) _ Hn) as (v & Hv). cbn [set_current current_state].
  unfold tokenise at 1, sbind at 1. cbn [toks s_text]. rewrite Hv. cbn [mbind res_bind].
  destruct (store_defined "STATE" v (properties x) (toks s) 0 Hr) as (p' & t' & Hp & _).
  unfold sbind at 1, tokenise at 1, SymbolTable.add, sbind at 1. cbn [toks properties set_times set_current].
  rewrite Hp. cbn. erewrite upd_site_run by (cbn; apply lookup_insert_eq). eauto.
Qed.

Definition untimed (r : StableState) : Prop := ss_uses_timer r = false /\ subcondition_handlers r = None.
Lemma scan_untimed gv cur i l best w : Forall untimed l -> scan_rules tk gv cur i l best w = Ok (best, l, w).
Proof.
  intros Hl. revert i. induction Hl as [|r l [Hu Hs] _ IH]; intros i; [done |]. cbn [scan_rules].
  unfold scan_rule. rewrite Hu. unfold sbind at 1 2. cbn. rewrite Hs. cbn.
  unfold sbind at 1. by rewrite IH.
Qed.
Definition with_rules (m : ptr) (l : list StableState) (s : TWorld) : TWorld :=
  mkTWorld (tw s) (sites s) (<[m := l]> (rules s)) (toks s) (key_words s) (sequence s) (to_deliver s) (log s).
Lemma schedule_untimed m x s : sites s !! m = Some x -> Forall untimed (default [] (rules s !! m)) ->
  schedule_rules tk m s = Ok (tt, with_rules m (default [] (rules s !! m)) s).
Proof.
  intros Ex Hl. unfold schedule_rules. rewrite (sbind_run _ _ _ _ _ (get_site_run _ _ _ Ex)).
  rewrite (sbind_run world _ s s s eq_refl).
  rewrite (sbind_run _ _ s (None, default [] (rules s !! m)) s); [done |].
  apply on_heap_id. unfold setState_timers. unfold sbind at 1. by rewrite scan_untimed.
Qed.

(** The world after the move: the site of the machine, tokens, rules and log differ. *)
Lemma scene_moved s s' m x si si' : scene s m x si -> tw s' = tw s -> sites s' = <[m := si']> (sites s) ->
  io_interface si' = io_interface si -> mq_interface si' = mq_interface si -> scene s' m x si'.
Proof.
  intros [[Ex Esi Hst] Hnd Hio Hd] Ht Es Ei Em.
  split; [split; rewrite ?Ht, ?Es; [done | apply lookup_insert_eq | done] | done | by rewrite Ei, Em |].
  intros d Hin. destruct (Hd d Hin) as (xd & sd & [Exd Esd Hsd] & Hi & Hm).
  destruct (decide (d = m)) as [-> | Hne].
  - exists x, si'. split; [split; rewrite ?Ht, ?Es; [done | apply lookup_insert_eq | done] |]. by rewrite Ei, Em.
  - exists xd, sd. split; [|done]. split; rewrite ?Ht, ?Es; [done | by rewrite lookup_insert_ne | done].
Qed.
Lemma told_entered_moved s s' m si' txt d : tw s' = tw s -> sites s' = <[m := si']> (sites s) ->
  is_Some (sites s !! m) -> told_entered s' m txt d = told_entered s m txt d.
Proof.
  intros Ht Es [si Hsi]. unfold told_entered. rewrite Ht, Es. destruct (decide (m = d)) as [<- | Hne].
  - rewrite lookup_insert_eq, Hsi. destruct (machines (tw s) !! m); [|done]. by rewrite bool_decide_true.
  - by rewrite lookup_insert_ne.
Qed.

(** The parts of a change of state that only concern the machine itself, when it is
    not connected to MQTT, exports no coils and has no rules with timers. *)
Lemma middle_run m si new_state auth s (rest : TM Status) : sites s !! m = Some si ->
  tok_room 1 (toks s) -> named (toks s) new_state -> mq_interface si = None -> exports_self si = false ->
  modbus_exports si = ∅ -> Forall untimed (default [] (rules s !! m)) ->
  exists s' p v, st p !! "STATE" = Some v /\ names_state (s_text new_state) v /\
    tw s' = tw s /\ sites s' = <[m := moved si (microsecs s) new_state p]> (sites s) /\
    log s' = log s ++ EEnter m (s_text new_state) ::
      (if published si =? 0 then [] else [EStateChange m (s_text new_state) auth]) /\
    (run! update_self m new_state in
     let! last := move_state m new_state in
     run! publish_state m new_state in
     let! s := get_site m in
     run! (if negb (published s =? 0) && negb (bool_decide (modbus_exports s = ∅)) then
             run! update_state m last 0 in update_state m (s_text (current_state s)) 1
           else sret tt) in
     run! schedule_rules tk m in
     let! s := get_site m in
     run! (if negb (published s =? 0) then record (EStateChange m (s_text new_state) auth) else sret tt) in
     rest) s = rest s'.
Proof.
  intros Esi Hr Hn Hmq Hex Hmb Hru. destruct (move_state_run m new_state s si Hr Hn Esi) as (last & s1 & Hmv).
  destruct (move_state_inv _ _ _ _ _ _ (proj1 Hr) Hn Esi Hmv) as (p & v & Hv & Hnv & _ & Es1 & _ & _).
  set (si' := moved si (microsecs s) new_state p) in *.
  assert (Esi' : sites s1 !! m = Some si') by (rewrite Es1; cbn; apply lookup_insert_eq).
  set (s2 := with_rules m (default [] (rules s1 !! m)) s1).
  assert (Hs2 : sites s2 !! m = Some si') by done.
  exists (if published si =? 0 then s2 else mkTWorld (tw s2) (sites s2) (rules s2) (toks s2) (key_words s2)
            (sequence s2) (to_deliver s2) (log s2 ++ [EStateChange m (s_text new_state) auth])), p, v.
  split; [done |]. split; [done |]. split; [by destruct (published si =? 0); cbn; rewrite Es1 |].
  split; [by destruct (published si =? 0); cbn; rewrite Es1 |].
  split; [destruct (published si =? 0); cbn; rewrite Es1; cbn; [done | by rewrite <- app_assoc] |].
  rewrite (sbind_run (update_self m new_state) _ s tt s).
  2: { unfold update_self. rewrite (sbind_run _ _ _ _ _ (get_site_run _ _ _ Esi)), Hex. by rewrite andb_false_r. }
  rewrite (sbind_run _ _ _ _ _ Hmv).
  rewrite (sbind_run (publish_state m new_state) _ s1 tt s1).
  2: { unfold publish_state. rewrite (sbind_run _ _ _ _ _ (get_site_run _ _ _ Esi')).
       rewrite (sbind_run world _ s1 s1 s1 eq_refl). change (mq_interface si') with (mq_interface si). by rewrite Hmq. }
  rewrite (sbind_run _ _ _ _ _ (get_site_run _ _ _ Esi')).
  change (modbus_exports si') with (modbus_exports si). change (published si') with (published si).
  rewrite Hmb, bool_decide_true by done. rewrite andb_false_r, (sbind_run (sret tt) _ s1 tt s1 eq_refl).
  rewrite (sbind_run (schedule_rules tk m) _ s1 tt s2).
  2: { apply (schedule_untimed m si' s1 Esi'). by rewrite Es1. }
  rewrite (sbind_run _ _ _ _ _ (get_site_run _ _ _ Hs2)). change (published si') with (published si).
  by destruct (published si =? 0).
Qed.
End Order.

(** C3: a change of state of an enabled machine to another state of its class, asked for
    with the right authority, returns the answer of its ENTER handler, and happens in this
    order: the machine's own LEAVE handler, then the dependents that take the LEAVE
    message, one by one; then the machine takes the state; then channels hear of it if
    it is published; then its own ENTER handler and the dependents that are active and
    take the ENTER message; what handlers record comes in its place. The machine ends
    in the new state, and its property STATE names it; of the other machines nothing
    differs but properties that handlers assigned and checks that were registered. Handlers answer at once: they
    may send messages, assign properties other than STATE, register checks and record
    events, but change no state and no stack of actions. The machine and its dependents,
    registered once each, have no suspended action or trigger on their stacks and have no
    machine as their device; the machine has no rules with timers or subconditions, no MQTT
    and no modbus exports; check counters and tokens have room. *)
Theorem transition_protocol `{DynEnv} `{!Reactions} `{!Hub} tk answer emits kh m x si new_state auth s :
  (forall d p s, runs kh (react d p) s (answer d (Message.text (message p))) (emits d (Message.text (message p)))) ->
  scene s m x si -> is_enabled x = true -> is_Some (state_machine x) ->
  (expected_authority si =? 0) = (auth =? 0) ->
  state_eq (current_state si) new_state = false -> is_Some (findState new_state (class_states si)) ->
  named (toks s) new_state -> tok_room 1 (toks s) ->
  mq_interface si = None -> exports_self si = false -> modbus_exports si = ∅ ->
  Forall untimed (default [] (rules s !! m)) -> room (3 + 2 * kh + 2 * ((2 + kh) * length (depends x))) s ->
  let txt := (m_name x +:+ "." +:+ s_text new_state +:+ "_enter")%string in
  exists s' now p v, setState tk m new_state auth false s = Ok (answer m txt, s') /\
    log s' = log s ++ leaving answer emits s m x si new_state ++ [EEnter m (s_text new_state)] ++
      (if published si =? 0 then [] else [EStateChange m (s_text new_state) auth]) ++ entering emits s m x txt /\
    sites s' !! m = Some (moved si now new_state p) /\
    st p !! "STATE" = Some v /\ names_state (s_text new_state) v /\
    (forall d, d <> m -> option_Forall2 site_frame (sites s !! d) (sites s' !! d)) /\ checked (tw s) (tw s').
Proof.
  intros Hre Hsc Hen [sm Hsm] Hau Hne [st0 Hf] Hn Htr Hmq Hex Hmb Hru Hroom txt.
  destruct (runs_leave tk answer emits kh Hre (setState_n tk 1) m x si new_state s Hsc
    (1 + kh + (2 + kh) * length (depends x))%nat) as (s1 & R1 & S1 & L1 & Hr1); [eapply room_le; [|exact Hroom]; lia |].
  destruct (scene_still _ _ _ _ _ S1 Hsc) as (y & si1 & Hy & [Ey _] & [Esi1 _]).
  pose proof (sc_rest _ _ _ _ Hsc) as [Ex Esi _].
  destruct (middle_run tk m si1 new_state auth s1
    (let! n := mname m in
     let! msg := new_message (n +:+ "." +:+ s_text new_state +:+ "_enter")%string ENTERMSG in
     let! stat := execute tk (setState_n tk 1) m msg (Some m) in
     run! notifyDependents tk (execute tk (setState_n tk 1)) m msg in sret stat))
    as (s2 & p & v & Hv & Hnv & T2 & P2 & L2 & R2);
    [apply Hy | by rewrite (q_toks _ _ S1) | by rewrite (q_toks _ _ S1) | by rewrite Esi1 .. | by rewrite (q_rules _ _ S1) |].
  set (si2 := moved si1 (microsecs s1) new_state p) in *.
  assert (Hsc2 : scene s2 m y si2) by (by eapply scene_moved).
  destruct (runs_enter tk answer emits kh Hre (setState_n tk 1) m y _ s2 (s_text new_state) Hsc2 ltac:(by rewrite Ey) 0%nat)
    as (s3 & R3 & S3 & L3 & _).
  { unfold room in *. rewrite T2. replace (depends y) with (depends x) by (by rewrite Ey). by rewrite Nat.add_0_r. }
  destruct (still_site s2 s3 m si2 S3 ltac:(rewrite P2; apply lookup_insert_eq)) as (si3 & E3 & [F3 F3']).
  exists s3, (microsecs s1), (properties si3), v. replace (m_name y) with (m_name x) in * by (by rewrite Ey).
  split_and!; [| | | by rewrite F3' | done | |].
  - unfold setState. cbn [setState_n]. rewrite (sbind_run _ _ _ _ _ (get_site_run _ _ _ Esi)).
    replace (negb (expected_authority si =? 0) && (auth =? 0)) with false by (rewrite Hau; by destruct (auth =? 0)).
    replace ((expected_authority si =? 0) && negb (auth =? 0)) with false by (rewrite Hau; by destruct (auth =? 0)).
    rewrite Hne. cbn [negb andb]. rewrite (sbind_run _ _ _ _ _ (machine_run _ _ _ Ex)), Hsm.
    rewrite (slift_run (rd (Some sm)) _ _ sm eq_refl), Hf. unfold change_state. rewrite (sbind_run _ _ _ _ _ R1). etrans; [exact R2 | exact R3].
  - rewrite L3, L2, L1, <- !app_assoc. replace (published si1) with (published si) by (by rewrite Esi1).
    do 2 f_equal. cbn. do 3 f_equal. fold txt. f_equal.
    apply list_bind_ext; [|by rewrite Ey]. intros d.
    rewrite (told_entered_moved emits s1 s2 m _ _ d T2 P2); [by apply told_entered_still |].
    exists si1. apply Hy.
  - rewrite E3, F3. unfold si2. by rewrite Esi1.
  - intros d Hd. etrans; [apply (q_sites _ _ S1) |]. etrans; [|apply (q_sites _ _ S3)].
    by rewrite P2, lookup_insert_ne.
  - etrans; [apply S1 |]. rewrite <- T2. apply S3.
Qed.
