(* ===== verification/DispatchProps.v ===== *)
(** The dispatcher: every package reaches the mail of the machines it is for, in the
    order in which it was sent.
    A door and a lamp that listens to it: the theorems on transitions applied. *)
From S2P Require Import Prelude Cnum Tokeniser Value SymbolTable Message Machine MachineProps Handlers StableStates Modbus Transitions TransitionsProps TransitionOrder.
Open Scope Z_scope.
Local Open Scope sm_scope.

(** The fields of a machine that delivering mail does not touch. *)
Definition profile (x : Machine) : string * bool * option MachineClass * list ptr :=
  (m_name x, is_enabled x, state_machine x, depends x).
(** Mail was added to machines, [post m] to [m]; machines may be queued for checks. *)
Record posted (s s' : TWorld) (post : ptr -> list Package) : Prop := {
  po_sites : sites s' = sites s;
  po_queue : to_deliver s' = to_deliver s;
  po_none m : machines (tw s) !! m = None -> machines (tw s') !! m = None;
  po_mail m x : machines (tw s) !! m = Some x -> exists y, machines (tw s') !! m = Some y /\
    profile y = profile x /\ mail_queue y = mail_queue x ++ post m
}.
Lemma posted_refl s : posted s s (fun _ => []).
Proof. split; [done | done | done |]. intros m x Hx. exists x. by rewrite app_nil_r. Qed.
Lemma posted_trans s1 s2 s3 f g : posted s1 s2 f -> posted s2 s3 g -> posted s1 s3 (fun m => f m ++ g m).
Proof.
  intros [S1 Q1 N1 M1] [S2 Q2 N2 M2]. split; [congruence | congruence | auto |]. intros m x Hx.
  destruct (M1 m x Hx) as (y & Hy & Py & Ly). destruct (M2 m y Hy) as (z & Hz & Pz & Lz).
  exists z. split; [done |]. split; [congruence |]. by rewrite Lz, Ly, app_assoc.
Qed.
Lemma posted_ext s s' f g : (forall m, f m = g m) -> posted s s' f -> posted s s' g.
Proof. intros Hfg [S Q N Mf]. split; [done | done | done |]. intros m x Hx. rewrite <- Hfg. by apply Mf. Qed.
Lemma checked_posted s s' : checked (tw s) (tw s') -> sites s' = sites s -> to_deliver s' = to_deliver s ->
  posted s s' (fun _ => []).
Proof.
  intros Hh Hs Hq. split; [done | done | |].
  - intros m Hm. destruct (machines (tw s') !! m) as [y|] eqn:E; [|done].
    destruct (checked_inv _ _ _ _ Hh E) as (x & Hx & _). congruence.
  - intros m x Hx. destruct (checked_lookup _ _ _ _ Hh Hx) as (y & Hy & [Ey _]). exists y. split; [done |].
    split; [by rewrite Ey | by rewrite app_nil_r, Ey].
Qed.

Section Delivery.
Variable tk : ClockworkToken.
Context `{DynEnv} `{!Reactions} `{!Hub}.

Lemma receives_posted d msg f s b s' : receives_message tk d msg f s = Ok (b, s') -> still s s' ->
  posted s s' (fun _ => []).
Proof.
  intros Hrun S. apply checked_posted; [apply S | |]; revert Hrun; unfold receives_message, instance_of;
    (intros (i & s1 & (x & s2 & (? & _ & [= -> ->])%machine_Ok & (y & s3 & (? & _ & [= -> ->])%get_site_Ok & R)%sbind_Ok)%sbind_Ok & R2)%sbind_Ok);
    destruct (methods d) as [[[? ?] ?] ?]; injection R as <- <-; destruct (receives _ _ _) as [b' []];
    apply sbind_Ok in R2 as (u & s4 & R3 & [= <- <-]); revert R3; unfold needs_check, on_heap;
    [intros ([? ?] & _ & [= <- <-])%bind_Ok | intros [= <- <-] | intros ([? ?] & _ & [= <- <-])%bind_Ok | intros [= <- <-]]; done.
Qed.
Definition one_letter (p : Package) (r m : ptr) : list Package := if bool_decide (m = r) then [p] else [].
Lemma enqueue_posts p r s k : is_Some (machines (tw s) !! r) -> room (S k) s ->
  exists s', on_heap (enqueue tk p r) s = Ok (tt, s') /\ posted s s' (one_letter p r) /\ room k s'.
Proof.
  intros [x Hx] (Hok & Hb & Hk).
  set (y := set_work true (set_mail (mail_queue x ++ [p]) x)).
  set (w1 := with_machines (<[r := y]> (machines (tw s))) (tw s)).
  assert (Hok1 : checks_ok w1).
  { destruct Hok as [Hn Hd]. split; cbn.
    - intros m z [[<- <-] | [_ Hz]]%lookup_insert_Some; [exact (Hn r x Hx) | by apply (Hn m)].
    - intros m z d Hz Hin. rewrite lookup_insert_is_Some'. right.
      apply lookup_insert_Some in Hz as [[<- <-] | [_ Hz]]; [by apply (Hd r x) | by apply (Hd m z)]. }
  pose proof (map_Forall_lookup_1 _ _ _ _ Hb Hx) as Hxb. cbn in Hxb.
  assert (Hb1 : bounded (INT_MAX - 1 - Z.of_nat k) w1).
  { apply map_Forall_insert_2; [cbn; lia |]. eapply map_Forall_impl; [exact Hb |]. intros m z. cbn. lia. }
  destruct (setNeedsCheck_ok tk r w1 y Hok1 ltac:(apply lookup_insert_eq) ltac:(cbn; lia)) as (w' & Hr & Hc & Hu).
  eexists. unfold on_heap, enqueue. rewrite (sbind_run _ _ _ _ _ (upd_machine_run _ _ _ _ Hx)). fold y w1.
  rewrite Hr. split; [reflexivity |]. split; cbn.
  - split; [done | done | |].
    { intros m Hm. destruct (machines w' !! m) as [z|] eqn:E; [|done].
      destruct (checked_inv _ _ _ _ Hc E) as (z' & Hz' & _). cbn in Hz'.
      apply lookup_insert_Some in Hz' as [[<- _] | [_ ?]]; congruence. }
    intros m z Hz. unfold one_letter.
    assert (exists z', machines w1 !! m = Some z' /\ profile z' = profile z /\
      mail_queue z' = mail_queue z ++ if bool_decide (m = r) then [p] else []) as (z' & Ez' & Pz & Lz).
    { destruct (decide (m = r)) as [-> | Hne].
      - exists y. rewrite bool_decide_true by done. split; [apply lookup_insert_eq |]. by simplify_eq.
      - exists z. rewrite bool_decide_false, app_nil_r by done. split; [by apply lookup_insert_Some; right | done]. }
    destruct (checked_lookup _ _ _ _ Hc Ez') as (u & Hu' & [Eu _]). exists u. split; [exact Hu' |].
    rewrite <- Lz, <- Pz. by rewrite Eu.
  - split; [by eapply checked_ok |]. split; [|lia]. cbn. apply Hu; [unfold INT_MAX in *; lia | cbn; lia | done].
Qed.

(** ** Who gets a package *)
Definition takes_package (s : TWorld) (p : Package) (r : ptr) : bool :=
  match machines (tw s) !! r, sites s !! r with
  | Some x, Some si => takes r x si (m_kind (message p)) (Message.text (message p)) (transmitter p)
  | _, _ => false
  end.
Definition recipients (s : TWorld) (all_receivers : list ptr) (p : Package) : list ptr :=
  match receiver p with
  | Some r => [r]
  | None => filter (fun r => takes_package s p r = true) all_receivers
  end.
Definition mail_for (s : TWorld) (all_receivers : list ptr) (l : list Package) (m : ptr) : list Package :=
  filter (fun p => m ∈ recipients s all_receivers p) l.

Lemma profile_takes d x y si k txt f : profile y = profile x -> takes d y si k txt f = takes d x si k txt f.
Proof. unfold profile, takes, instance_at. intros [= -> -> _ _]. done. Qed.
Lemma posted_takes s s' f p r : posted s s' f -> takes_package s' p r = takes_package s p r.
Proof.
  intros [Hs _ Hn Hm]. unfold takes_package. rewrite Hs. destruct (machines (tw s) !! r) as [x|] eqn:E.
  - destruct (Hm r x E) as (y & -> & Py & _). destruct (sites s !! r); [|done]. by apply profile_takes.
  - by rewrite Hn.
Qed.

Definition letter_to (p : Package) (l : list ptr) (m : ptr) : list Package := if bool_decide (m ∈ l) then [p] else [].
Lemma letter_cons p r l m : r ∉ l -> letter_to p (r :: l) m = one_letter p r m ++ letter_to p l m.
Proof.
  intros Hr. unfold letter_to, one_letter. destruct (decide (m = r)) as [-> | Hne].
  - rewrite (bool_decide_true (r ∈ r :: l)) by left. rewrite (bool_decide_true (r = r)), bool_decide_false by done. done.
  - rewrite (bool_decide_false (m = r)) by done. cbn.
    by rewrite (bool_decide_ext _ (m ∈ l)) by (rewrite elem_of_cons; naive_solver).
Qed.
(** The machines that can be sent mail. *)
Definition present (s : TWorld) (r : ptr) : Prop := is_Some (machines (tw s) !! r) /\ is_Some (sites s !! r).
Lemma posted_present s s' f r : posted s s' f -> present s r -> present s' r.
Proof.
  intros [Hs _ _ Hm] [[x Hx] Hsi]. split; [|by rewrite Hs]. destruct (Hm r x Hx) as (y & -> & _). done.
Qed.

Lemma broadcast_posts p l : forall s k, NoDup l -> Forall (present s) l -> room (2 * length l + k) s ->
  exists s', broadcast tk p l s = Ok (tt, s') /\
    posted s s' (letter_to p (filter (fun r => takes_package s p r = true) l)) /\ room k s'.
Proof.
  induction l as [|r l IH]; intros s k Hnd Hp Hr; cbn [broadcast].
  { exists s. split; [done |]. split; [apply posted_refl | done]. }
  apply list.NoDup_cons in Hnd as [Hni Hnd]. apply list.Forall_cons in Hp as [[[x Hx] [si Hsi]] Hp].
  destruct (runs_receives tk r x si s (message p) (transmitter p) Hx Hsi (1 + (2 * length l + k))%nat)
    as (s1 & R1 & S1 & _ & Hr1); [eapply room_le; [|exact Hr]; cbn; lia |].
  rewrite (sbind_run _ _ _ _ _ R1). pose proof (receives_posted _ _ _ _ _ _ R1 S1) as P1.
  assert (Et : takes_package s p r = takes r x si (m_kind (message p)) (Message.text (message p)) (transmitter p))
    by (unfold takes_package; by rewrite Hx, Hsi).
  rewrite <- Et.
  assert (exists s2, (if takes_package s p r then on_heap (enqueue tk p r) else sret tt) s1 = Ok (tt, s2) /\
    posted s s2 (if takes_package s p r then one_letter p r else fun _ => []) /\ room (2 * length l + k) s2)
    as (s2 & R2 & P2 & Hr2).
  { destruct (takes_package s p r).
    - destruct (enqueue_posts p r s1 (2 * length l + k)) as (s2 & R2 & P2 & Hr2); [|done |].
      { destruct (po_mail _ _ _ P1 r x Hx) as (y & -> & _). done. }
      exists s2. split; [done |]. split; [|done]. by apply (posted_trans _ _ _ _ _ P1 P2).
    - exists s1. split; [done |]. split; [done |]. eapply room_le; [|exact Hr1]. lia. }
  rewrite (sbind_run _ _ _ _ _ R2).
  destruct (IH s2 k Hnd) as (s3 & R3 & P3 & Hr3); [| done |].
  { eapply Forall_impl; [|exact Hp]. intros q. by apply (posted_present _ _ _ _ P2). }
  exists s3. split; [done |]. split; [|done].
  eapply posted_ext; [|exact (posted_trans _ _ _ _ _ P2 P3)]. intros m. cbv beta.
  rewrite (list_filter_iff _ (fun r => takes_package s p r = true) l)
    by (intros q; by rewrite (posted_takes _ _ _ p q P2)).
  rewrite filter_cons. destruct (takes_package s p r); [|done].
  destruct (decide (true = true)) as [_|]; [|done]. rewrite letter_cons; [done |].
  rewrite list_elem_of_filter. by intros [_ ?].
Qed.

Lemma room_machines k s s' : machines (tw s') = machines (tw s) -> room k s -> room k s'.
Proof.
  intros E ([Hn Hd] & Hb & Hk). split; [split; rewrite E; [exact Hn | exact Hd] |]. split; [|done].
  unfold bounded. by rewrite E.
Qed.
(** A package goes to mail when its receiver is a machine of this system. *)
Definition deliverable (s : TWorld) (p : Package) : Prop :=
  match receiver p with
  | Some r => exists x, machines (tw s) !! r = Some x /\ external tk x = false /\ is_channel r = false
  | None => True
  end.
Lemma dispatch_posts p l s k : NoDup l -> Forall (present s) l -> deliverable s p -> room (1 + 2 * length l + k) s ->
  exists s', dispatch tk l p s = Ok (tt, s') /\ posted s s' (letter_to p (recipients s l p)) /\ room k s'.
Proof.
  intros Hnd Hp Hd Hr. unfold dispatch, recipients. unfold deliverable in Hd. destruct (receiver p) as [r|].
  - destruct Hd as (x & Hx & Hext & Hch). rewrite (sbind_run _ _ _ _ _ (machine_run _ _ _ Hx)).
    assert (exists s0, (match state_machine x with None => record (ELog r) | Some _ => sret tt end) s = Ok (tt, s0) /\
      tw s0 = tw s /\ sites s0 = sites s /\ to_deliver s0 = to_deliver s) as (s0 & R0 & T0 & S0 & Q0).
    { destruct (state_machine x); by eexists. }
    rewrite (sbind_run _ _ _ _ _ R0), Hch, Hext. cbn [orb].
    destruct (enqueue_posts p r s0 k) as (s1 & R1 & P1 & Hr1);
      [by rewrite T0, Hx | eapply room_le; [|by eapply room_machines; [|exact Hr]; rewrite T0]; lia |].
    eexists. rewrite (sbind_run _ _ _ _ _ R1). unfold sbind, on_heap, workset_add, activate, modify. cbn.
    split; [reflexivity |]. split; [|by eapply room_machines; [|exact Hr1]].
    eapply posted_ext; [|destruct P1 as [Ps Pq Pn Pm]; rewrite T0 in *; split; [by rewrite <- S0 | by rewrite <- Q0 | exact Pn | exact Pm]].
    intros m. unfold letter_to, one_letter. by rewrite (bool_decide_ext (m ∈ [r]) (m = r)) by set_solver.
  - apply broadcast_posts; [done | done |]. eapply room_le; [|exact Hr]. lia.
Qed.

Definition with_queue (q : list Package) (s : TWorld) : TWorld :=
  mkTWorld (tw s) (sites s) (rules s) (toks s) (key_words s) (sequence s) q (log s).
Lemma posted_queue q s s' f : posted s s' f -> posted (with_queue q s) (with_queue q s') f.
Proof. intros [Hs _ Hn Hm]. by split. Qed.
Lemma mail_for_cons s l p ps m : mail_for s l (p :: ps) m = letter_to p (recipients s l p) m ++ mail_for s l ps m.
Proof.
  unfold mail_for, letter_to. rewrite filter_cons. destruct (decide (m ∈ recipients s l p)).
  - by rewrite bool_decide_true.
  - by rewrite bool_decide_false.
Qed.
Lemma posted_recipients s s' f l p : posted s s' f -> recipients s' l p = recipients s l p.
Proof.
  intros Hp. unfold recipients. destruct (receiver p); [done |].
  apply list_filter_iff. intros r. by rewrite (posted_takes _ _ _ _ _ Hp).
Qed.
Lemma dispatch_all_posts l ps : forall s k, to_deliver s = ps -> NoDup l -> Forall (present s) l ->
  Forall (deliverable s) ps -> room ((1 + 2 * length l) * length ps + k) s ->
  exists s', dispatch_all tk (length ps) l s = Ok (tt, s') /\
    posted (with_queue [] s) s' (mail_for s l ps) /\ room k s'.
Proof.
  induction ps as [|p ps IH]; intros s k Hq Hnd Hp Hd Hr; cbn [length dispatch_all].
  { exists s. split; [done |]. split; [|eapply room_le; [|exact Hr]; lia]. split; [done | by rewrite Hq | done |].
    intros m x Hx. exists x. unfold mail_for. by rewrite app_nil_r. }
  rewrite Hq. apply list.Forall_cons in Hd as [Hd1 Hd].
  destruct (dispatch_posts p l (with_queue ps s) ((1 + 2 * length l) * length ps + k) Hnd)
    as (s1 & R1 & P1 & Hr1); [done | done | eapply room_le; [|exact Hr]; cbn; lia |].
  change (mkTWorld _ _ _ _ _ _ ps _) with (with_queue ps s). rewrite (sbind_run _ _ _ _ _ R1).
  destruct (IH s1 k) as (s2 & R2 & P2 & Hr2); [by rewrite (po_queue _ _ _ P1) | done | | | done |].
  { revert Hp. apply Forall_impl. intros r. by apply (posted_present _ _ _ _ P1). }
  { revert Hd. apply Forall_impl. intros q. unfold deliverable. destruct (receiver q) as [r|]; [|done].
    intros (x & Hx & Hext & Hch). destruct (po_mail _ _ _ P1 r x Hx) as (y & Hy & Py & _). exists y.
    split; [done |]. split; [|done]. rewrite <- Hext. unfold profile, external in *. by injection Py as _ _ -> _. }
  exists s2. split; [done |]. split; [|done].
  apply (posted_queue []) in P1 as P1'. eapply posted_ext; [|exact (posted_trans _ _ _ _ _ P1' P2)].
  intros m. cbv beta. rewrite mail_for_cons. f_equal. unfold mail_for. apply list_filter_iff. intros q.
  by rewrite (posted_recipients _ _ _ l q P1).
Qed.
End Delivery.


Definition door : ptr := 1%positive.
Definition lamp : ptr := 2%positive.
Fixpoint learn (l : list string) (t : Tokeniser) : Tokeniser :=
  match l with
  | [] => t
  | n :: l' => match getTokenId n t with Ok (_, t') => learn l' t' | _ => t end
  end.
Lemma learn_wf l t : tok_wf t -> tok_wf (learn l t).
Proof.
  revert t. induction l as [|n l IH]; intros t Ht; cbn; [done |].
  destruct (getTokenId n t) as [[id t']| |] eqn:E; [|done | done]. by apply IH, (grows_token n t id t').
Qed.
Definition door_toks : Tokeniser := learn ["undefined"; "INIT"; "open"; "closed"; "STATE"] Tokeniser_new.
Definition st_init : State := mkState "INIT" 0 2.
Definition st_open : State := mkState "open" 0 3.
Definition st_closed : State := mkState "closed" 0 4.
Definition new_site (ty : string) (current : State) (p : SymbolTable) (ls : list ptr) : Site :=
  mkSite ty None false None 0 [st_init; st_open; st_closed] st_init current p None None 1 false ∅ ls [] [] 0 0.
Definition init_props : SymbolTable := mkST {["STATE" := mkString t_symbol "INIT" 2]} ∅.
Definition new_machine (n : string) (deps : list ptr) : Machine :=
  mkMachine n true true 0 (Some (mkClass 99 true)) 0 [] [] false 0 deps 0 None.
Definition door_heap : World :=
  mkWorld ∅ ∅ (list_to_map [(door, new_machine "door" [lamp]); (lamp, new_machine "lamp" [])]) ∅ ∅ ∅ 0 0 [].
Definition door_world : TWorld :=
  mkTWorld door_heap
    (list_to_map [(door, new_site "DOOR" st_init init_props []); (lamp, new_site "LAMP" st_init init_props [door])])
    ∅ door_toks None 0 [] [].

(** The lamp has methods for the door leaving its first state and being open. *)
Definition lamp_methods (m : ptr) : list (string * Handlers.Command) * list (Message * Handlers.Command) * list Transition * list string :=
  if bool_decide (m = lamp)
  then ([], [(mkMessage SIMPLEMSG 0 "door.open_enter" None, Handlers.mkCommand 9%positive "" false);
             (mkMessage SIMPLEMSG 0 "door.INIT_leave" None, Handlers.mkCommand 8%positive "" false)], [], [])
  else ([], [], [], []).
Definition idle_reactions : Reactions := {|
  react := fun _ _ => sret Complete;
  methods := lamp_methods;
  property_value := fun _ _ _ => Null;
  io_name := fun _ => "";
  io_state := fun _ => "";
  io_value := fun _ _ => Null;
  io_signed := fun _ => false;
  is_channel := fun _ => false;
  microsecs := fun _ => 1000
|}.
(** The method of the lamp switches it. *)
Definition lamp_script (m : ptr) (p : Package) (_ : TWorld) : list Deed * Status :=
  if bool_decide (m = lamp) && bool_decide (Message.text (message p) = "door.open_enter")
  then ([Does (SetState lamp "open" 0 false)], Complete) else ([], Complete).
Definition lamp_reactions : Reactions :=
  @scripted some_tokens no_dyn some_hub no_virtuals idle_reactions lamp_script 2 2.
Definition morning : list Operation :=
  [SetState door "open" 0 false; Disable lamp; Enable lamp; Send door (mkMessage SIMPLEMSG 1 "hello" None) lamp false;
   Dispatch [door; lamp]; SetState door "open" 0 true].
Definition evening : TWorld :=
  match @operate_all some_tokens no_dyn lamp_reactions some_hub no_virtuals 2 morning door_world with
  | Ok (_, s') => s' | _ => door_world end.

Lemma site_start_ok ty ls : site_ok door_toks (new_site ty st_init init_props ls).
Proof.
  by split; [repeat constructor | done | done].
Qed.
Lemma site_start_named ty ls : state_named (new_site ty st_init init_props ls).
Proof.
  split; [exists st_init; split; [left | done] |].
  eexists. split; [reflexivity |]. exists door_toks. do 3 eexists. split; [vm_compute; reflexivity |].
  by instantiate (1 := mkString t_symbol "INIT" 2).
Qed.
Lemma door_world_ok : states_ok door_world.
Proof.
  split; [apply learn_wf, tok_wf_new |].
  intros m x [[= -> ->] | [[= -> ->] | Hin%elem_of_nil]%elem_of_cons]%elem_of_list_to_map_2%elem_of_cons;
    [apply site_start_ok .. | done].
Qed.
Lemma morning_runs : @operate_all some_tokens no_dyn lamp_reactions some_hub no_virtuals 2 morning door_world = Ok (tt, evening).
Proof. vm_compute. reflexivity. Qed.
Lemma states_stay_in_class_w : exists x', sites evening !! lamp = Some x' /\
  s_text (current_state x') = "open" /\ state_named x'.
Proof.
  eexists. split; [vm_compute; reflexivity |]. split; [reflexivity |].
  destruct (@states_stay_in_class no_dyn some_hub no_virtuals some_tokens idle_reactions lamp_script 2 2 morning
    door_world evening door_world_ok morning_runs) as [_ Hall].
  apply (Hall lamp (new_site "LAMP" st_init init_props [door])); [reflexivity | vm_compute; reflexivity |].
  apply site_start_named.
Defined.

(** ** The order of events *)
(** Every handler tells the door what it has heard, and the lamp logs it as well. *)
Definition hears (d : ptr) (p : Package) : TM Status :=
  run! deliver (mkPackage (Some d) (Some door) (message p) false) in
  run! (if bool_decide (d = lamp) then record (ELog lamp) else sret tt) in
  sret Complete.
Definition talking_reactions : Reactions := with_react idle_reactions hears.
Definition agrees (d : ptr) (ev : string) : Status := Complete.
Definition says (d : ptr) (ev : string) : list TEvent := if bool_decide (d = lamp) then [ELog lamp] else [].
Lemma hears_answers d p s : runs 0 (@react talking_reactions d p) s (agrees d (Message.text (message p)))
  (says d (Message.text (message p))).
Proof.
  intros j Hr. unfold talking_reactions, with_react, react, hears, says, sbind, deliver.
  destruct (bool_decide (d = lamp)); (eexists; split; [reflexivity |]; split;
    [split; [reflexivity | reflexivity | done .. | by eexists] | by rewrite ?app_nil_r]).
Qed.
Lemma door_world_room : room 20 door_world.
Proof.
  split; [split|split; [|done]].
  - intros m x [[= -> ->] | [[= -> ->] | Hin%elem_of_nil]%elem_of_cons]%elem_of_list_to_map_2%elem_of_cons; cbn; [lia | lia | done].
  - intros m x d [[= -> ->] | [[= -> ->] | Hin%elem_of_nil]%elem_of_cons]%elem_of_list_to_map_2%elem_of_cons; [| |done].
    + intros ->%list_elem_of_singleton. by eexists.
    + by intros ?%elem_of_nil.
  - intros m x [[= -> ->] | [[= -> ->] | Hin%elem_of_nil]%elem_of_cons]%elem_of_list_to_map_2%elem_of_cons;
      [unfold INT_MAX; cbn; lia .. | done].
Qed.
Lemma door_scene : scene door_world door (new_machine "door" [lamp]) (new_site "DOOR" st_init init_props []).
Proof.
  split; [by split | by apply NoDup_singleton | done |].
  intros d ->%list_elem_of_singleton. do 2 eexists. split; [split; [vm_compute; reflexivity ..| constructor] | done].
Qed.
Lemma transition_protocol_w : exists s' now p,
  @setState some_tokens no_dyn talking_reactions some_hub door st_open 0 false door_world = Ok (Complete, s') /\
  log s' = [EExecute lamp "door.INIT_leave"; ELog lamp; EEnter door "open"; EStateChange door "open" 0;
            EExecute door "door.open_enter"; EExecute lamp "door.open_enter"; ELog lamp] /\
  sites s' !! door = Some (moved (new_site "DOOR" st_init init_props []) now st_open p).
Proof.
  destruct (@transition_protocol no_dyn talking_reactions some_hub some_tokens agrees says 0 door (new_machine "door" [lamp])
    (new_site "DOOR" st_init init_props []) st_open 0 door_world hears_answers door_scene)
    as (s' & now & p & v & R & L & Hs & _);
    [reflexivity | by eexists | reflexivity | reflexivity | by eexists | reflexivity | | reflexivity | reflexivity
    | reflexivity | constructor | eapply room_le; [|exact door_world_room]; cbn; lia | exists s', now, p; split; [exact R | split; [rewrite L; vm_compute; reflexivity | exact Hs]]].
  split; [apply learn_wf, tok_wf_new | vm_compute; discriminate].
Defined.

(** ** Mail *)
Definition post (r : option ptr) (txt : string) : Package := mkPackage (Some door) r (mkMessage SIMPLEMSG 1 txt None) false.
Definition door_mail : TWorld := with_queue [post (Some lamp) "a"; post None "b"; post (Some lamp) "c"] door_world.
