(* ===== verification/IOComponents.v ===== *)
(** Input and output components and the process image (IOComponent.h, IOComponent.cpp):
    the mapping of components to bits of the process data, the data and mask sent to
    the hardware, and what is done with the data that comes back.

    Components live in a map by address; a byte array is a list and access outside of
    it is [Undef]; a field that no constructor sets is [None] at first. The macros
    that read and write 16 and 32 bit values belong to the EtherCAT library and are
    the class [Ecrt]. *)
From S2P Require Import Prelude Cnum Tokeniser Value BitOps Message.
Open Scope Z_scope.
Local Open Scope sm_scope.

(** ** Data *)
Record IOAddress := mkAddress {
  module_position : Z;
  io_offset : Z;
  io_bitpos : Z;
  a_value : Z;
  bitlen : Z;
  entry_position : Z;
  is_signed : bool;
  description : string
}.
Definition IOAddress_new (module_pos offs bitp entry_pos len : Z) (signed_value : bool) : IOAddress :=
  mkAddress module_pos offs bitp 0 len entry_pos signed_value "".
Inductive Direction := DirInput | DirOutput | DirBidirectional.
#[export] Instance Direction_eq_dec : EqDecision Direction.
Proof. solve_decision. Defined.
Inductive event := e_on | e_off | e_change | e_none.
#[export] Instance event_eq_dec : EqDecision event.
Proof. solve_decision. Defined.
Inductive HardwareState := s_hardware_preinit | s_hardware_init | s_operational.
#[export] Instance HardwareState_eq_dec : EqDecision HardwareState.
Proof. solve_decision. Defined.
(** The subclass of a component. *)
Inductive DeviceClass :=
| CPlain | CInput | COutput | CAnalogueInput | CCounter | CCounterRate | CAnalogueOutput | CPIDController
| CMQTTPublisher | CMQTTSubscriber.
Record IOComponent := mkIO {
  io_class : DeviceClass;
  address : IOAddress;
  io_index : Z;
  last_event : event;
  pending_value : option Z;
  read_time : option Z;
  raw_value : Z;
  direction_ : option Direction;
  io_name : string;
  io_owners : list ptr
}.
Abbreviation bytes := (list Z).
Record IOState := mkIOState {
  components : gmap ptr IOComponent;
  processing_queue : list ptr;
  io_names : gmap string IOAddress;
  io_clock : Z;
  process_data_size : Z;
  io_process_data : option bytes;
  io_process_mask : option bytes;
  update_data : option bytes;
  default_data : option bytes;
  default_mask : option bytes;
  last_process_data : option bytes;
  outputs_waiting : Z;
  max_offset : Z;
  min_offset : Z;
  indexed_components : list (option ptr);
  io_map : list (option (list ptr));
  regular_polls : gset ptr;
  updatedComponentsIn : gset ptr;
  updatedComponentsOut : gset ptr;
  updates_sent : bool;
  hardware_state : HardwareState;
  work_queue : list Package;
  activated : gset ptr;
  sequence : Z
}.
Abbreviation IM := (SM IOState).

(** *** Field updates *)
Definition set_value v c := mkIO (io_class c)
  (mkAddress (module_position (address c)) (io_offset (address c)) (io_bitpos (address c)) v (bitlen (address c))
     (entry_position (address c)) (is_signed (address c)) (description (address c)))
  (io_index c) (last_event c) (pending_value c) (read_time c) (raw_value c) (direction_ c) (io_name c) (io_owners c).
Definition set_event e c := mkIO (io_class c) (address c) (io_index c) e (pending_value c) (read_time c)
  (raw_value c) (direction_ c) (io_name c) (io_owners c).
Definition set_pending v c := mkIO (io_class c) (address c) (io_index c) (last_event c) (Some v) (read_time c)
  (raw_value c) (direction_ c) (io_name c) (io_owners c).
Definition set_read_time t c := mkIO (io_class c) (address c) (io_index c) (last_event c) (pending_value c) (Some t)
  (raw_value c) (direction_ c) (io_name c) (io_owners c).
Definition set_raw v c := mkIO (io_class c) (address c) (io_index c) (last_event c) (pending_value c) (read_time c)
  v (direction_ c) (io_name c) (io_owners c).

Definition with_components x s := mkIOState x (processing_queue s) (io_names s) (io_clock s) (process_data_size s)
  (io_process_data s) (io_process_mask s) (update_data s) (default_data s) (default_mask s) (last_process_data s)
  (outputs_waiting s) (max_offset s) (min_offset s) (indexed_components s) (io_map s) (regular_polls s)
  (updatedComponentsIn s) (updatedComponentsOut s) (updates_sent s) (hardware_state s) (work_queue s) (activated s)
  (sequence s).
Definition with_in x s := mkIOState (components s) (processing_queue s) (io_names s) (io_clock s)
  (process_data_size s) (io_process_data s) (io_process_mask s) (update_data s) (default_data s) (default_mask s)
  (last_process_data s) (outputs_waiting s) (max_offset s) (min_offset s) (indexed_components s) (io_map s)
  (regular_polls s) x (updatedComponentsOut s) (updates_sent s) (hardware_state s) (work_queue s) (activated s)
  (sequence s).
Definition with_out x s := mkIOState (components s) (processing_queue s) (io_names s) (io_clock s)
  (process_data_size s) (io_process_data s) (io_process_mask s) (update_data s) (default_data s) (default_mask s)
  (last_process_data s) (outputs_waiting s) (max_offset s) (min_offset s) (indexed_components s) (io_map s)
  (regular_polls s) (updatedComponentsIn s) x (updates_sent s) (hardware_state s) (work_queue s) (activated s)
  (sequence s).
Definition with_waiting x s := mkIOState (components s) (processing_queue s) (io_names s) (io_clock s)
  (process_data_size s) (io_process_data s) (io_process_mask s) (update_data s) (default_data s) (default_mask s)
  (last_process_data s) x (max_offset s) (min_offset s) (indexed_components s) (io_map s) (regular_polls s)
  (updatedComponentsIn s) (updatedComponentsOut s) (updates_sent s) (hardware_state s) (work_queue s) (activated s)
  (sequence s).
Definition with_sent x s := mkIOState (components s) (processing_queue s) (io_names s) (io_clock s)
  (process_data_size s) (io_process_data s) (io_process_mask s) (update_data s) (default_data s) (default_mask s)
  (last_process_data s) (outputs_waiting s) (max_offset s) (min_offset s) (indexed_components s) (io_map s)
  (regular_polls s) (updatedComponentsIn s) (updatedComponentsOut s) x (hardware_state s) (work_queue s)
  (activated s) (sequence s).
Definition with_data x s := mkIOState (components s) (processing_queue s) (io_names s) (io_clock s)
  (process_data_size s) x (io_process_mask s) (update_data s) (default_data s) (default_mask s)
  (last_process_data s) (outputs_waiting s) (max_offset s) (min_offset s) (indexed_components s) (io_map s)
  (regular_polls s) (updatedComponentsIn s) (updatedComponentsOut s) (updates_sent s) (hardware_state s)
  (work_queue s) (activated s) (sequence s).
Definition with_update x s := mkIOState (components s) (processing_queue s) (io_names s) (io_clock s)
  (process_data_size s) (io_process_data s) (io_process_mask s) x (default_data s) (default_mask s)
  (last_process_data s) (outputs_waiting s) (max_offset s) (min_offset s) (indexed_components s) (io_map s)
  (regular_polls s) (updatedComponentsIn s) (updatedComponentsOut s) (updates_sent s) (hardware_state s)
  (work_queue s) (activated s) (sequence s).
Definition with_last x s := mkIOState (components s) (processing_queue s) (io_names s) (io_clock s)
  (process_data_size s) (io_process_data s) (io_process_mask s) (update_data s) (default_data s) (default_mask s)
  x (outputs_waiting s) (max_offset s) (min_offset s) (indexed_components s) (io_map s) (regular_polls s)
  (updatedComponentsIn s) (updatedComponentsOut s) (updates_sent s) (hardware_state s) (work_queue s)
  (activated s) (sequence s).
Definition with_clock x s := mkIOState (components s) (processing_queue s) (io_names s) x
  (process_data_size s) (io_process_data s) (io_process_mask s) (update_data s) (default_data s) (default_mask s)
  (last_process_data s) (outputs_waiting s) (max_offset s) (min_offset s) (indexed_components s) (io_map s)
  (regular_polls s) (updatedComponentsIn s) (updatedComponentsOut s) (updates_sent s) (hardware_state s)
  (work_queue s) (activated s) (sequence s).
Definition with_defaults d k s := mkIOState (components s) (processing_queue s) (io_names s) (io_clock s)
  (process_data_size s) (io_process_data s) (io_process_mask s) (update_data s) d k
  (last_process_data s) (outputs_waiting s) (max_offset s) (min_offset s) (indexed_components s) (io_map s)
  (regular_polls s) (updatedComponentsIn s) (updatedComponentsOut s) (updates_sent s) (hardware_state s)
  (work_queue s) (activated s) (sequence s).
Definition with_hardware x s := mkIOState (components s) (processing_queue s) (io_names s) (io_clock s)
  (process_data_size s) (io_process_data s) (io_process_mask s) (update_data s) (default_data s) (default_mask s)
  (last_process_data s) (outputs_waiting s) (max_offset s) (min_offset s) (indexed_components s) (io_map s)
  (regular_polls s) (updatedComponentsIn s) (updatedComponentsOut s) (updates_sent s) x (work_queue s)
  (activated s) (sequence s).
Definition with_work q a n s := mkIOState (components s) (processing_queue s) (io_names s) (io_clock s)
  (process_data_size s) (io_process_data s) (io_process_mask s) (update_data s) (default_data s) (default_mask s)
  (last_process_data s) (outputs_waiting s) (max_offset s) (min_offset s) (indexed_components s) (io_map s)
  (regular_polls s) (updatedComponentsIn s) (updatedComponentsOut s) (updates_sent s) (hardware_state s) q a n.

(** ** Access *)
Definition get_state : IM IOState := fun s => Ok (s, s).
Definition put (f : IOState -> IOState) : IM unit := fun s => Ok (tt, f s).
Definition get_io (c : ptr) : IM IOComponent := fun s => x ← rd (components s !! c); Ok (x, s).
Definition upd_io (c : ptr) (f : IOComponent -> IOComponent) : IM unit := fun s =>
  x ← rd (components s !! c); Ok (tt, with_components (<[c := f x]> (components s)) s).
Fixpoint io_fold {A} (f : A -> ptr -> IM A) (a : A) (l : list ptr) : IM A :=
  match l with [] => sret a | c :: l' => let! a' := f a c in io_fold f a' l' end.

(** A byte of an array. *)
Definition byte_at (l : bytes) (i : Z) : res Z := if 0 <=? i then rd (l !! Z.to_nat i) else Undef.
Definition set_byte (l : bytes) (i v : Z) : res bytes :=
  if (0 <=? i) && (i <? Z.of_nat (length l)) then Ok (<[Z.to_nat i := v]> l) else Undef.
(** [1 << bitpos] on [int]. *)
Definition shift1 (bitpos : Z) : res Z := if (0 <=? bitpos) && (bitpos <? 31) then Ok (Z.shiftl 1 bitpos) else Undef.
(** Where the first bit of a component is: the byte and the bit in it. *)
Definition byte_of (a : IOAddress) : Z := io_offset a + Z.quot (io_bitpos a) 8.
Definition bit_of (a : IOAddress) : Z := Z.rem (io_bitpos a) 8.
Definition to_s8 (z : Z) : Z := (z + 2 ^ 7) mod 2 ^ 8 - 2 ^ 7.

(** [EC_READ_U16] and the like, on the bytes at an address. *)
Class Ecrt := {
  ec_read_u16 : Z -> Z -> Z;
  ec_write_u16 : Z -> Z * Z;
  ec_read_u32 : Z -> Z -> Z -> Z -> Z;
  ec_write_u32 : Z -> Z * Z * Z * Z
}.

(** ** Construction *)
Definition class_direction (k : DeviceClass) : option Direction :=
  match k with
  | CInput | CAnalogueInput => Some DirInput
  | COutput | CAnalogueOutput | CPIDController => Some DirOutput
  | CPlain | CCounter | CCounterRate | CMQTTPublisher | CMQTTSubscriber => None
  end.
Definition polled (k : DeviceClass) : bool := match k with CAnalogueInput | CCounter => true | _ => false end.
Definition IOComponent_new (c : ptr) (k : DeviceClass) (addr : IOAddress) : IM unit := fun s =>
  let io := mkIO k addr (io_offset addr * 8 + io_bitpos addr) e_none None None 0
              (class_direction k) "" [] in
  Ok (tt, mkIOState (<[c := io]> (components s)) (processing_queue s ++ [c]) (io_names s) (io_clock s)
    (process_data_size s) (io_process_data s) (io_process_mask s) (update_data s) (default_data s) (default_mask s)
    (last_process_data s) (outputs_waiting s) (max_offset s) (min_offset s) (indexed_components s) (io_map s)
    (if polled k then {[c]} ∪ regular_polls s else regular_polls s)
    (updatedComponentsIn s) (updatedComponentsOut s) (updates_sent s) (hardware_state s) (work_queue s) (activated s)
    (sequence s)).
(** The default constructor. *)
Definition IOComponent_default (c : ptr) : IM unit := fun s =>
  let io := mkIO CPlain (IOAddress_new 0 0 0 0 1 false) (-1) e_none None None 0 (Some DirBidirectional) "" [] in
  Ok (tt, mkIOState (<[c := io]> (components s)) (processing_queue s ++ [c]) (io_names s) (io_clock s)
    (process_data_size s) (io_process_data s) (io_process_mask s) (update_data s) (default_data s) (default_mask s)
    (last_process_data s) (outputs_waiting s) (max_offset s) (min_offset s) (indexed_components s) (io_map s)
    (regular_polls s) (updatedComponentsIn s) (updatedComponentsOut s) (updates_sent s) (hardware_state s)
    (work_queue s) (activated s) (sequence s)).
(** [reset]; [devices] are the components that machines hold as [io_interface]. The
    components with changes and requests are not reset. *)
Definition io_reset (devices : list ptr) : IM unit := put (fun s =>
  mkIOState (fold_right (fun c m => delete c m) (components s) devices) [] (io_names s) (io_clock s) (process_data_size s)
    None None None None None None (outputs_waiting s) (max_offset s) (min_offset s) (indexed_components s) (io_map s) ∅
    (updatedComponentsIn s) (updatedComponentsOut s) (updates_sent s) (hardware_state s) (work_queue s) (activated s)
    (sequence s)).
Definition remove_io_module (pos : Z) : IM unit := put (fun s =>
  mkIOState (components s) (processing_queue s) ∅ (io_clock s) (process_data_size s)
    (io_process_data s) (io_process_mask s) (update_data s) (default_data s) (default_mask s)
    (last_process_data s) (outputs_waiting s) (max_offset s) (min_offset s) (indexed_components s) (io_map s)
    (regular_polls s) (updatedComponentsIn s) (updatedComponentsOut s) (updates_sent s) (hardware_state s)
    (work_queue s) (activated s) (sequence s)).
(** [add_io_entry]: the name is cut to the buffer. *)
Definition add_io_entry (name : string) (module_pos offs bit_offset entry_pos bit_len : Z) (signed_value : bool)
    : IM IOAddress := fun s =>
  let addr := mkAddress module_pos offs bit_offset 0 bit_len entry_pos signed_value name in
  let buf := String.string_of_list_ascii (snprintf_buf 80 (chars "io:" ++ chars name ++ chars "_" ++ print_long (to_s32 module_pos))) in
  Ok (addr, mkIOState (components s) (processing_queue s) (<[buf := addr]> (io_names s)) (io_clock s)
    (process_data_size s) (io_process_data s) (io_process_mask s) (update_data s) (default_data s) (default_mask s)
    (last_process_data s) (outputs_waiting s) (max_offset s) (min_offset s) (indexed_components s) (io_map s)
    (regular_polls s) (updatedComponentsIn s) (updatedComponentsOut s) (updates_sent s) (hardware_state s)
    (work_queue s) (activated s) (sequence s)).

Definition updatesSent (which : bool) : IM unit := put (with_sent which).
Definition updatesToSend : IM bool := let! s := get_state in sret (negb (updates_sent s)).
Definition updatesWaiting : IM Z := let! s := get_state in sret (outputs_waiting s).
Definition hasUpdates : IM bool := let! s := get_state in sret (negb (bool_decide (updatedComponentsOut s = ∅))).
Definition setHardwareState (st : HardwareState) : IM unit := put (with_hardware st).

(** ** Masks *)
(** A bit of the mask for each bit of a value, from [mask] in byte [offset] on. *)
Fixpoint mark_bits (n : nat) (offset mask : Z) (l : bytes) : res bytes :=
  match n with
  | O => Ok l
  | S n' =>
      b ← byte_at l offset;
      l' ← set_byte l offset (u8 (Z.lor b mask));
      let mask' := u8 (Z.shiftl mask 1) in
      if mask' =? 0 then mark_bits n' (offset + 1) 1 l' else mark_bits n' offset mask' l'
  end.
Definition mark_component (c : IOComponent) (l : bytes) : res bytes :=
  m ← shift1 (bit_of (address c));
  mark_bits (Z.to_nat (bitlen (address c))) (byte_of (address c)) m l.
Definition blank_mask (s : IOState) : bytes := replicate (Z.to_nat (max_offset s + 1)) 0.
Definition generateProcessMask : IM bytes :=
  let! s := get_state in
  io_fold (fun l c => let! x := get_io c in slift (mark_component x l)) (blank_mask s) (processing_queue s).
(** [generateMask]: for the devices of a list of machines; [device] is the field
    [io_interface] of a machine. *)
Definition generateMask (device : ptr -> option ptr) (outputs : list ptr) : IM bytes :=
  let! s := get_state in
  io_fold (fun l m => match device m with
                      | Some c => let! x := get_io c in slift (mark_component x l)
                      | None => sret l
                      end) (blank_mask s) outputs.

Section Updates.
(** Which machines are enabled. *)
Variable enabled : ptr -> bool.

Definition ownersEnabled (c : IOComponent) : bool :=
  match io_owners c with [] => true | l => existsb enabled l end.
(** A component that nobody uses any more leaves the queue, its bits are sent once
    more. *)
Definition update_mask_of (l : bytes) (c : ptr) : IM bytes :=
  let! x := get_io c in
  run! (if ownersEnabled x then sret tt
        else put (fun s => with_out (updatedComponentsOut s ∖ {[c]}) s)) in
  let? d := rd (direction_ x) in
  match d with DirInput => sret l | _ => slift (mark_component x l) end.
Definition generateUpdateMask : IM (option bytes) :=
  let! s := get_state in
  if bool_decide (updatedComponentsOut s = ∅) then sret None else
  let! l := io_fold update_mask_of (blank_mask s) (elements (updatedComponentsOut s)) in sret (Some l).

(** [memcpy] of the process data. *)
Definition copy_data (s : IOState) (l : bytes) : res bytes :=
  if Z.of_nat (length l) <? process_data_size s then Undef else Ok (take (Z.to_nat (process_data_size s)) l).
Definition getUpdateData : IM bytes :=
  let! s := get_state in
  match io_process_data s with
  | None => fun _ => Abort
  | Some l =>
      match update_data s with
      | Some u => sret u
      | None => let? u := copy_data s l in run! put (with_update (Some u)) in sret u
      end
  end.
(** The size, the data and the mask of an update. *)
Record IOUpdate := mkUpdate { u_size : Z; u_data : bytes; u_mask : bytes }.
Definition getUpdates : IM (option IOUpdate) :=
  let! m := generateUpdateMask in
  match m with
  | None => sret None
  | Some mask =>
      let! d := getUpdateData in
      let! s := get_state in
      sret (Some (mkUpdate (u32 (max_offset s - min_offset s + 1)) d mask))
  end.
Definition getDefaults : IM (option IOUpdate) :=
  let! s := get_state in
  if max_offset s <? min_offset s then sret None else
  match io_process_data s, default_data s, default_mask s with
  | Some p, Some d, Some m =>
      if process_data_size s =? 0 then fun _ => Abort else
      let? p' := copyMaskedBits (Z.to_nat (process_data_size s)) p d m in
      run! put (with_data (Some p')) in
      sret (Some (mkUpdate (u32 (max_offset s - min_offset s + 1)) p' m))
  | _, _, _ => fun _ => Abort
  end.
Definition setDefaultData (data : bytes) : IM unit :=
  let! s := get_state in
  let? d := copy_data s data in put (fun s => with_defaults (Some d) (default_mask s) s).
Definition setDefaultMask (mask : bytes) : IM unit :=
  let! s := get_state in
  let? m := copy_data s mask in put (fun s => with_defaults (default_data s) (Some m) s).
End Updates.

(** ** The map of the process data *)
(** The offsets a component takes up, as they are counted. *)
Definition last_byte (a : IOAddress) : Z := if 8 <=? bitlen a then byte_of a + bitlen a / 8 - 1 else byte_of a.
Fixpoint find_range (l : list ptr) (lo hi : Z) : IM (Z * Z) :=
  match l with
  | [] => sret (lo, hi)
  | c :: l' =>
      let! x := get_io c in
      let lo' := if byte_of (address x) <? lo then byte_of (address x) else lo in
      let hi' := if hi <? last_byte (address x) then last_byte (address x) else hi in
      let? _u := assert (hi' <? 10000) in
      find_range l' lo' hi'
  end.
(** The component is entered for each of its bits. The bit position is added to the
    byte that already counts the whole bytes of it. *)
Fixpoint index_bits (n : nat) (i : Z) (c : ptr) (l : list (option ptr)) : res (list (option ptr)) :=
  match n with
  | O => Ok l
  | S n' =>
      if (0 <=? i) && (i <? Z.of_nat (length l)) then index_bits n' (i + 1) c (<[Z.to_nat i := Some c]> l) else Undef
  end.
Definition enter_component (im : list (option ptr) * list (option (list ptr))) (c : ptr)
    : IM (list (option ptr) * list (option (list ptr))) :=
  let! x := get_io c in
  if bool_decide (io_name x = "") then sret im else
  let offset := byte_of (address x) in
  let? ix := index_bits (Z.to_nat (bitlen (address x))) (offset * 8 + io_bitpos (address x)) c (fst im) in
  let? cl := (if 0 <=? offset then rd (snd im !! Z.to_nat offset) else Undef) in
  sret (ix, <[Z.to_nat offset := Some (default [] cl ++ [c])]> (snd im)).
Definition setupIOMap : IM unit :=
  let! s := get_state in
  let! r := find_range (processing_queue s) 1000000 0 in
  let hi := snd r in
  let lo := if hi <? fst r then hi else fst r in
  let size := Z.to_nat (hi + 1) in
  let! im := io_fold enter_component (replicate (size * 8) None, replicate size None) (processing_queue s) in
  run! put (fun s => mkIOState (components s) (processing_queue s) (io_names s) (io_clock s)
    (hi + 1) (Some (replicate size 0)) (io_process_mask s) (update_data s) (default_data s) (default_mask s)
    (last_process_data s) (outputs_waiting s) hi lo (fst im) (snd im) (regular_polls s)
    (updatedComponentsIn s) (updatedComponentsOut s) (updates_sent s) (hardware_state s) (work_queue s) (activated s)
    (sequence s)) in
  let! m := generateProcessMask in
  put (fun s => mkIOState (components s) (processing_queue s) (io_names s) (io_clock s)
    (process_data_size s) (io_process_data s) (Some m) (update_data s) (default_data s) (default_mask s)
    (last_process_data s) (outputs_waiting s) (max_offset s) (min_offset s) (indexed_components s) (io_map s)
    (regular_polls s) (updatedComponentsIn s) (updatedComponentsOut s) (updates_sent s) (hardware_state s)
    (work_queue s) (activated s) (sequence s)).

(** ** Data from the hardware *)
Definition notifyComponentsAt (offset : Z) : IM Z :=
  let! s := get_state in
  let? _u := assert ((offset <=? max_offset s) && (min_offset s <=? offset)) in
  let? cl := (if 0 <=? offset then rd (io_map s !! Z.to_nat offset) else Undef) in
  let l := default [] cl in
  run! put (fun s => with_in (list_to_set l ∪ updatedComponentsIn s) s) in
  sret (Z.of_nat (length l)).

(** The bits of one byte: [p] is the incoming byte, [m] its mask, [q] the byte of the
    process data; [just_added] is the component looked at last. *)
Definition change_bit (p bitmask q : Z) : Z :=
  if negb (Z.land p bitmask =? Z.land q bitmask) then
    if negb (Z.land p bitmask =? 0) then u8 (Z.lor q bitmask) else u8 (Z.land q (u8 (255 - bitmask)))
  else q.
Fixpoint process_bits (n : nat) (bitmask i j p m : Z) (index : list (option ptr))
    (st : Z * option ptr * gset ptr) : res (Z * option ptr * gset ptr) :=
  match n with
  | O => Ok st
  | S n' =>
      let '(q, just_added, changed) := st in
      st' ← (if negb (Z.land m bitmask =? 0) then
               ioc ← rd (index !! Z.to_nat (i * 8 + j));
               Ok (change_bit p bitmask q,
                   match ioc with Some c => Some c | None => just_added end,
                   match ioc with
                   | Some c => if negb (bool_decide (just_added = Some c)) &&
                                  negb (Z.land p bitmask =? Z.land q bitmask)
                               then {[c]} ∪ changed else changed
                   | None => changed
                   end)
             else Ok st);
      process_bits n' (u8 (Z.shiftl bitmask 1)) i (j + 1) p m index st'
  end.
(** One byte after the other; the first time, all components of a byte with a mask
    are notified. *)
Fixpoint process_bytes (i : Z) (qs ps ms : bytes) (just_added : option ptr) : IM bytes :=
  match qs, ps, ms with
  | [], _, _ => sret []
  | q :: qs', p :: ps', m :: ms' =>
      let! s := get_state in
      run! (match last_process_data s with
            | None => if m =? 0 then sret tt else let! _n := notifyComponentsAt i in sret tt
            | Some _ => sret tt
            end) in
      let! s := get_state in
      let? st := (if negb (p =? q) && negb (m =? 0)
                  then process_bits 8 1 i 0 p m (indexed_components s) (q, just_added, updatedComponentsIn s)
                  else Ok (q, just_added, updatedComponentsIn s)) in
      run! put (with_in (snd st)) in
      let! rest := process_bytes (i + 1) qs' ps' ms' (snd (fst st)) in
      sret (fst (fst st) :: rest)
  | _, _, _ => fun _ => Undef
  end.

(** The components that changed are handed on; requests that were sent are resolved. *)
Definition take_changed (updated : gset ptr) (c : ptr) : IM (gset ptr) :=
  let! s := get_state in
  run! upd_io c (set_read_time (io_clock s)) in
  run! put (fun s => with_in (updatedComponentsIn s ∖ {[c]}) s) in
  run! (if updates_sent s && bool_decide (c ∈ updatedComponentsOut s)
        then put (fun s => with_out (updatedComponentsOut s ∖ {[c]}) s) else sret tt) in
  sret ({[c]} ∪ updated).
Definition drop_matching (u : unit) (c : ptr) : IM unit :=
  let! x := get_io c in
  let? v := rd (pending_value x) in
  if v =? u32 (a_value (address x)) then put (fun s => with_out (updatedComponentsOut s ∖ {[c]}) s) else sret tt.
Definition hand_on (updated_machines : gset ptr) : IM (gset ptr) :=
  let! s := get_state in
  if bool_decide (updatedComponentsIn s = ∅) then sret updated_machines else
  let! updated := io_fold take_changed updated_machines (elements (updatedComponentsIn s)) in
  let! s := get_state in
  run! (if updates_sent s then io_fold drop_matching tt (elements (updatedComponentsOut s)) else sret tt) in
  run! put (fun s => with_waiting (Z.of_nat (size (updatedComponentsOut s))) s) in
  sret updated.
Definition processAll (clock data_size : Z) (mask data : bytes) (updated_machines : gset ptr) : IM (gset ptr) :=
  run! put (with_clock clock) in
  let! s := get_state in
  let? _u := assert (data_size =? process_data_size s) in
  let? q := rd (io_process_data s) in
  match hardware_state s with
  | s_hardware_preinit => let? d := copy_data s data in run! put (with_data (Some d)) in sret updated_machines
  | _ =>
      let! q' := process_bytes 0 q data mask None in
      run! put (with_data (Some q')) in
      run! (match hardware_state s with s_operational => put (with_last (Some q')) | _ => sret tt end) in
      hand_on updated_machines
  end.

(** ** Requests of the machines *)
(** [markChange]: the pending request goes into the update data. *)
Section Ec.
Context `{Ecrt}.
Definition write_value (a : IOAddress) (v : Z) (l : bytes) : res bytes :=
  let i := byte_of a in
  if bitlen a =? 8 then set_byte l i (u8 v)
  else if bitlen a =? 16 then
    let '(b0, b1) := ec_write_u16 (v mod 65536) in
    l1 ← set_byte l i b0; set_byte l1 (i + 1) b1
  else if bitlen a =? 32 then
    let '(b0, b1, b2, b3) := ec_write_u32 v in
    l1 ← set_byte l i b0; l2 ← set_byte l1 (i + 1) b1; l3 ← set_byte l2 (i + 2) b2; set_byte l3 (i + 3) b3
  else Ok l.
Definition markChange (c : ptr) : IM unit :=
  let! u := getUpdateData in
  let! x := get_io c in
  let a := address x in
  if bitlen a =? 1 then
    let? b := byte_at u (byte_of a) in
    let? m := shift1 (bit_of a) in
    let value := negb (Z.land b m =? 0) in
    run! (if negb value && bool_decide (last_event x = e_on) then
            let? b' := set_bit b (bit_of a) 1 in
            let? u' := set_byte u (byte_of a) b' in
            run! put (with_update (Some u')) in updatesSent false
          else if value && bool_decide (last_event x = e_off) then
            let? b' := set_bit b (bit_of a) 0 in
            let? u' := set_byte u (byte_of a) b' in
            run! put (with_update (Some u')) in updatesSent false
          else sret tt) in
    upd_io c (set_event e_none)
  else
    match last_event x with
    | e_change =>
        let? v := rd (pending_value x) in
        let? u' := write_value a v u in
        run! put (with_update (Some u')) in
        run! upd_io c (set_event e_none) in
        updatesSent false
    | _ => sret tt
    end.
(** A request is queued and marked. *)
Definition request (c : ptr) (f : IOComponent -> IOComponent) : IM unit :=
  run! upd_io c f in
  run! put (fun s => with_out ({[c]} ∪ updatedComponentsOut s) s) in
  run! updatesSent false in
  run! put (fun s => with_waiting (u32 (outputs_waiting s + 1)) s) in
  markChange c.
Definition is_output (k : DeviceClass) : bool :=
  match k with COutput | CAnalogueOutput | CPIDController => true | _ => false end.
(** Only outputs override these. *)
Definition turnOn (c : ptr) : IM unit :=
  let! x := get_io c in if is_output (io_class x) then request c (set_event e_on) else sret tt.
Definition turnOff (c : ptr) : IM unit :=
  let! x := get_io c in if is_output (io_class x) then request c (set_event e_off) else sret tt.
Definition setValue_unsigned (c : ptr) (v : Z) : IM unit :=
  let! x := get_io c in
  let? _u := assert (negb (is_signed (address x))) in
  request c (fun y => set_event e_change (set_pending (u32 v) y)).
Definition setValue_signed (c : ptr) (v : Z) : IM unit :=
  let! x := get_io c in
  let? _u := assert (is_signed (address x)) in
  request c (fun y => set_event e_change (set_pending (u32 v) y)).

Definition isOn (x : IOComponent) : bool := bool_decide (last_event x = e_none) && negb (a_value (address x) =? 0).
Definition isOff (x : IOComponent) : bool := bool_decide (last_event x = e_none) && (a_value (address x) =? 0).
Definition io_value_of (x : IOComponent) : Z :=
  if bitlen (address x) =? 1 then (if isOn x then 1 else 0) else a_value (address x).
Definition getStateString (x : IOComponent) : string :=
  if bool_decide (last_event x = e_change) && (1 <? bitlen (address x)) then "unstable"
  else if 1 <? bitlen (address x) then "stable"
  else if bool_decide (last_event x = e_on) then "turning_on"
  else if bool_decide (last_event x = e_off) then "turning_off"
  else if a_value (address x) =? 0 then "off" else "on".

(** ** Reading a component's value from the process data *)
(** The messages to the owners. *)
Definition send_owners (txt : string) (k : MessageType) (wake : bool) (c : ptr) (owners : list ptr) : IM unit :=
  io_fold (fun _ o => put (fun s =>
    let '(msg, n) := Message_new txt k None (sequence s) in
    with_work (work_queue s ++ [mkPackage (Some c) (Some o) msg false])
      (if wake then {[o]} ∪ activated s else activated s) n s)) tt owners.
(** Fields of two to seven bits. *)
Fixpoint small_bits (n : nat) (l : bytes) (i bitmask val : Z) : res (Z * Z) :=
  match n with
  | O => Ok (val, bitmask)
  | S n' =>
      b ← byte_at l i;
      let val' := val + Z.land b bitmask in
      let bm := Z.shiftr bitmask 1 in
      if bm =? 0 then small_bits n' l (i + 1) 128 val' else small_bits n' l i bm val'
  end.
Fixpoint shift_down (n : nat) (val bitmask : Z) : Z :=
  match n with
  | O => val
  | S n' => if bitmask =? 0 then val else shift_down n' (Z.shiftr val 1) (Z.shiftr bitmask 1)
  end.
Definition read_small (a : IOAddress) (l : bytes) : res Z :=
  m ← (if (0 <=? bit_of a) && (bit_of a <? 32) then Ok (Z.shiftr 8 (bit_of a)) else Undef);
  r ← small_bits (Z.to_nat (bitlen a)) l (byte_of a) m 0;
  Ok (shift_down 8 (fst r) (snd r)).
Definition read_value (a : IOAddress) (l : bytes) : res Z :=
  let i := byte_of a in
  if bitlen a <? 8 then read_small a l
  else if bitlen a =? 8 then b ← byte_at l i; Ok (to_s8 b)
  else if bitlen a =? 16 then b0 ← byte_at l i; b1 ← byte_at l (i + 1); Ok (ec_read_u16 b0 b1)
  else if bitlen a =? 32 then
    b0 ← byte_at l i; b1 ← byte_at l (i + 1); b2 ← byte_at l (i + 2); b3 ← byte_at l (i + 3);
    Ok (to_s32 (ec_read_u32 b0 b1 b2 b3))
  else Ok 0.

Section Sampling.
(** The filters of analogue inputs and counters; every other component passes the
    value on. *)
Variable sample : ptr -> Z -> IM Z.
Definition filter_value (c : ptr) (v : Z) : IM Z :=
  let! x := get_io c in if polled (io_class x) then sample c v else sret v.

Definition handleChange (c : ptr) : IM unit :=
  let! s := get_state in
  match io_process_data s with
  | None => fun _ => Abort
  | Some l =>
      let! x := get_io c in
      let a := address x in
      if bitlen a =? 1 then
        let? b := byte_at l (byte_of a) in
        let? m := shift1 (bit_of a) in
        let value := if Z.land b m =? 0 then 0 else 1 in
        run! (if negb (a_value a =? value) then
                run! send_owners (if a_value a =? 0 then "off_leave" else "on_leave") LEAVEMSG true c (io_owners x) in
                send_owners (if value =? 0 then "off_enter" else "on_enter") ENTERMSG false c (io_owners x)
              else sret tt) in
        upd_io c (set_value value)
      else
        let? val := read_value a l in
        if bool_decide (c ∈ regular_polls s) then upd_io c (fun y => set_value val (set_raw (u32 val) y))
        else if bool_decide (hardware_state s = s_hardware_init)
                || (bool_decide (hardware_state s = s_operational) && negb (raw_value x =? u32 val)) then
          run! upd_io c (set_raw (u32 val)) in
          let! nv := filter_value c val in
          if bool_decide (hardware_state s = s_operational) then upd_io c (set_value nv) else sret tt
        else sret tt
  end.
(** [handle_io_sampling]: [now] is the time, [last_sample] the time of the last call
    that did anything. *)
Definition handle_io_sampling (now last_sample clock : Z) : IM Z :=
  if u64 (now - last_sample) <? 1000 then sret last_sample else
  let! s := get_state in
  run! io_fold (fun _ c =>
         run! upd_io c (set_read_time clock) in
         let! x := get_io c in
         let! _v := filter_value c (a_value (address x)) in sret tt) tt (elements (regular_polls s)) in
  sret now.
End Sampling.
End Ec.
