(* ===== verification/IOMaskProps.v ===== *)
(** The bits of the process data: what the masks mark, and that setting up the map
    enters every component for its bits. *)
From S2P Require Import Prelude Cnum Tokeniser Value BitOps Message IOComponents.
Open Scope Z_scope.
Local Open Scope sm_scope.

(** ** Bits of a byte array *)
Definition bit (l : bytes) (g : Z) : bool :=
  match l !! Z.to_nat (g / 8) with Some b => Z.testbit b (g mod 8) | None => false end.
(** The number of the first bit of a component, and whether a bit belongs to it. *)
Definition first_bit (a : IOAddress) : Z := byte_of a * 8 + bit_of a.
Definition covers (a : IOAddress) (g : Z) : bool := (first_bit a <=? g) && (g <? first_bit a + bitlen a).
(** The component lies inside of the process data of [n] bytes. *)
Record fits (n : nat) (a : IOAddress) : Prop := {
  f_bitpos : 0 <= io_bitpos a < 8;
  f_offset : 0 <= io_offset a;
  f_len : 0 <= bitlen a;
  f_end : first_bit a + bitlen a <= 8 * Z.of_nat n
}.
Lemma fits_first n a : fits n a -> byte_of a = io_offset a /\ bit_of a = io_bitpos a.
Proof.
  intros [Hb _ _ _]. unfold byte_of, bit_of. rewrite Z.quot_small, Z.rem_small by lia. lia.
Qed.

Lemma byte_at_lookup l i b : 0 <= i -> byte_at l i = Ok b <-> l !! Z.to_nat i = Some b.
Proof. intros Hi. unfold byte_at. rewrite (proj2 (Z.leb_le 0 i)) by done. apply rd_Ok. Qed.
Lemma byte_at_ok l i : 0 <= i < Z.of_nat (length l) -> exists b, byte_at l i = Ok b /\ l !! Z.to_nat i = Some b.
Proof.
  intros Hi. destruct (lookup_lt_is_Some_2 l (Z.to_nat i)) as [b Hb]; [lia |].
  exists b. split; [|done]. by apply byte_at_lookup; [lia |].
Qed.
Lemma set_byte_ok l i v : 0 <= i < Z.of_nat (length l) -> set_byte l i v = Ok (<[Z.to_nat i := v]> l).
Proof.
  intros Hi. unfold set_byte. rewrite (proj2 (Z.leb_le 0 i)), (proj2 (Z.ltb_lt i _)) by lia. done.
Qed.
Lemma bit_at l i k b : l !! Z.to_nat i = Some b -> 0 <= i -> 0 <= k < 8 -> bit l (i * 8 + k) = Z.testbit b k.
Proof.
  intros Hl Hi Hk. unfold bit. rewrite Z.div_add_l, Z.div_small, Z.add_0_r by lia.
  rewrite Hl, Z.add_comm, Z.mod_add, Z.mod_small by lia. done.
Qed.
(** Replacing one byte. *)
Lemma bit_insert l i v g : 0 <= i < Z.of_nat (length l) -> 0 <= g ->
  bit (<[Z.to_nat i := v]> l) g = if g / 8 =? i then Z.testbit v (g mod 8) else bit l g.
Proof.
  intros Hi Hg. unfold bit. pose proof (Z.div_pos g 8 Hg ltac:(lia)). destruct (Z.eqb_spec (g / 8) i) as [-> | Hne].
  - by rewrite list_lookup_insert_eq by lia.
  - by rewrite list_lookup_insert_ne by lia.
Qed.
Lemma bytes_insert l i v : Forall byte l -> byte v -> Forall byte (<[i := v]> l).
Proof. intros Hl Hv. by apply Forall_insert. Qed.
(** Setting one bit of a byte array. *)
Definition put_at (b : bool) (g : Z) (l : bytes) : bytes :=
  match l !! Z.to_nat (g / 8) with Some x => <[Z.to_nat (g / 8) := put_bit b (g mod 8) x]> l | None => l end.
Lemma put_at_bit b g l h : Forall byte l -> 0 <= g < 8 * Z.of_nat (length l) -> 0 <= h ->
  bit (put_at b g l) h = if h =? g then b else bit l h.
Proof.
  intros Hl Hg Hh. unfold put_at. pose proof (Z.div_pos g 8 ltac:(lia) ltac:(lia)).
  assert (g / 8 < Z.of_nat (length l)) by (apply Z.div_lt_upper_bound; lia).
  destruct (lookup_lt_is_Some_2 l (Z.to_nat (g / 8))) as [x Hx]; [lia |]. rewrite Hx.
  rewrite bit_insert by lia. pose proof (Z.mod_pos_bound g 8 ltac:(lia)). pose proof (Z.mod_pos_bound h 8 ltac:(lia)).
  pose proof (Z.div_mod g 8 ltac:(lia)). pose proof (Z.div_mod h 8 ltac:(lia)).
  destruct (Z.eqb_spec (h / 8) (g / 8)) as [E | E].
  - rewrite put_bit_spec by (try lia; rewrite List.Forall_forall in Hl; apply Hl, list_elem_of_In; by eapply list_elem_of_lookup_2).
    unfold bit. rewrite E, Hx. destruct (Z.eqb_spec (h mod 8) (g mod 8)), (Z.eqb_spec h g); try done; lia.
  - destruct (Z.eqb_spec h g); [|done]. subst. done.
Qed.
Lemma put_at_length b g l : length (put_at b g l) = length l.
Proof. unfold put_at. destruct (l !! _); [apply length_insert | done]. Qed.
Lemma put_at_bytes b g l : Forall byte l -> Forall byte (put_at b g l).
Proof. intros Hl. unfold put_at. destruct (l !! _); [|done]. apply bytes_insert; [done |]. apply put_bit_byte. Qed.

(** ** Marking the bits of a component *)
Lemma mark_step l i k : Forall byte l -> 0 <= i < Z.of_nat (length l) -> 0 <= k < 8 ->
  (b ← byte_at l i; set_byte l i (u8 (Z.lor b (2 ^ k)))) = Ok (put_at true (i * 8 + k) l).
Proof.
  intros Hl Hi Hk. destruct (byte_at_ok l i Hi) as (b & Hb & Hlb). rewrite Hb. cbn. rewrite set_byte_ok by done.
  unfold put_at. rewrite Z.div_add_l, Z.div_small, Z.add_0_r by lia. rewrite Hlb.
  by rewrite Z.add_comm, Z.mod_add, Z.mod_small by lia.
Qed.
Lemma mark_bits_spec n : forall i k l, Forall byte l -> 0 <= i -> 0 <= k < 8 ->
  i * 8 + k + Z.of_nat n <= 8 * Z.of_nat (length l) ->
  exists l', mark_bits n i (2 ^ k) l = Ok l' /\ Forall byte l' /\ length l' = length l /\
    forall g, 0 <= g -> bit l' g = bit l g || ((i * 8 + k <=? g) && (g <? i * 8 + k + Z.of_nat n)).
Proof.
  induction n as [|n IH]; intros i k l Hl Hi Hk He.
  { exists l. do 3 (split; [done |]). intros g Hg. change (Z.of_nat 0) with 0. rewrite Z.add_0_r.
    destruct (Z.leb_spec (i * 8 + k) g), (Z.ltb_spec g (i * 8 + k)); try lia; by rewrite orb_false_r. }
  assert (Hil : 0 <= i < Z.of_nat (length l)) by lia.
  pose proof (mark_step l i k Hl Hil Hk) as Hs. cbn [mark_bits]. set (l1 := put_at true (i * 8 + k) l) in *.
  destruct (byte_at l i) as [b| |]; [|done | done]. cbn in Hs. cbn [mbind res_bind]. rewrite Hs. cbn [mbind res_bind].
  assert (Hl1 : Forall byte l1) by (by apply put_at_bytes). assert (Hlen : length l1 = length l) by apply put_at_length.
  assert (Hb1 : forall g, 0 <= g -> bit l1 g = if g =? i * 8 + k then true else bit l g)
    by (intros g Hg; apply put_at_bit; [done | lia | done]).
  assert (Hfin : forall i' k', i' * 8 + k' = i * 8 + k + 1 -> 0 <= i' -> 0 <= k' < 8 ->
    exists l', mark_bits n i' (2 ^ k') l1 = Ok l' /\ Forall byte l' /\ length l' = length l /\
    forall g, 0 <= g -> bit l' g = bit l g || ((i * 8 + k <=? g) && (g <? i * 8 + k + Z.of_nat (S n)))).
  { intros i' k' E Hi' Hk'. destruct (IH i' k' l1 Hl1 Hi' Hk' ltac:(rewrite Hlen; lia)) as (l' & Hm & Hb & Hn & Hg).
    exists l'. split; [done |]. split; [done |]. split; [by rewrite Hn |]. intros g Hge. rewrite Hg, Hb1, E by done.
    destruct (Z.eqb_spec g (i * 8 + k)), (Z.leb_spec (i * 8 + k + 1) g), (Z.leb_spec (i * 8 + k) g),
      (Z.ltb_spec g (i * 8 + k + 1 + Z.of_nat n)), (Z.ltb_spec g (i * 8 + k + Z.of_nat (S n))); try lia;
      rewrite ?orb_true_r, ?orb_false_r; done. }
  assert (E8 : u8 (Z.shiftl (2 ^ k) 1) = if k =? 7 then 0 else 2 ^ (k + 1)).
  { apply bit_cases in Hk. destruct_or! Hk; subst; reflexivity. }
  rewrite E8. destruct (Z.eqb_spec k 7) as [-> |].
  - cbn [Z.eqb]. apply (Hfin (i + 1) 0); lia.
  - rewrite (proj2 (Z.eqb_neq (2 ^ (k + 1)) 0)) by (apply Z.pow_nonzero; lia). apply (Hfin i (k + 1)); lia.
Qed.
Lemma mark_component_spec x l : Forall byte l -> fits (length l) (address x) ->
  exists l', mark_component x l = Ok l' /\ Forall byte l' /\ length l' = length l /\
    forall g, 0 <= g -> bit l' g = bit l g || covers (address x) g.
Proof.
  intros Hl Hf. pose proof (fits_first _ _ Hf) as [E1 E2]. destruct Hf as [Hb Ho Hn He].
  unfold mark_component, shift1, covers, first_bit in *. rewrite E1, E2 in *.
  rewrite (proj2 (Z.leb_le 0 _)), (proj2 (Z.ltb_lt _ 31)) by lia. cbn [andb mbind res_bind].
  rewrite Z.shiftl_1_l.
  destruct (mark_bits_spec (Z.to_nat (bitlen (address x))) (io_offset (address x)) (io_bitpos (address x)) l Hl Ho Hb)
    as (l' & Hm & Hl' & Hlen & Hg); [lia |].
  exists l'. split; [done |]. split; [done |]. split; [done |]. intros g Hge. rewrite Hg by done. by rewrite Z2Nat.id.
Qed.

(** ** Setting up the map *)
(** A loop whose steps read the state but do not change it. *)
Lemma io_fold_read {A} (f : A -> ptr -> IM A) (P : list ptr -> A -> Prop) s l : forall pre a, P pre a ->
  (forall pre' c a', c ∈ l -> P pre' a' -> exists a'', f a' c s = Ok (a'', s) /\ P (pre' ++ [c]) a'') ->
  exists a', io_fold f a l s = Ok (a', s) /\ P (pre ++ l) a'.
Proof.
  induction l as [|c l IH]; intros pre a Ha Hf; cbn [io_fold].
  { exists a. split; [done |]. by rewrite app_nil_r. }
  destruct (Hf pre c a ltac:(left) Ha) as (a1 & H1 & P1). rewrite (sbind_run _ _ _ _ _ H1).
  destruct (IH (pre ++ [c]) a1 P1) as (a2 & H2 & P2).
  { intros pre' c' a' Hc. apply Hf. by right. }
  exists a2. split; [done |]. by rewrite <- app_assoc in P2.
Qed.
Lemma put_run {B} f (k : unit -> IM B) s : sbind (put f) k s = k tt (f s).
Proof. done. Qed.
Lemma get_io_run c x s : components s !! c = Some x -> get_io c s = Ok (x, s).
Proof. intros E. unfold get_io. by rewrite E. Qed.

(** The bits of a component do not cross a byte unless they are whole bytes. *)
Record aligned (a : IOAddress) : Prop := {
  al_bitpos : 0 <= io_bitpos a < 8;
  al_offset : 0 <= io_offset a;
  al_bits : (1 <= bitlen a < 8 /\ io_bitpos a + bitlen a <= 8) \/
            (8 <= bitlen a /\ io_bitpos a = 0 /\ bitlen a mod 8 = 0)
}.
Lemma aligned_first a : aligned a -> byte_of a = io_offset a /\ bit_of a = io_bitpos a.
Proof. intros [Hb _ _]. unfold byte_of, bit_of. rewrite Z.quot_small, Z.rem_small by lia. lia. Qed.
Lemma aligned_fits a n : aligned a -> last_byte a < Z.of_nat n -> fits n a.
Proof.
  intros Ha Hl. pose proof (aligned_first a Ha) as [E1 E2]. destruct Ha as [Hb Ho Hbits].
  unfold last_byte in Hl. rewrite E1 in Hl. split; [done | done | lia |]. unfold first_bit. rewrite E1, E2.
  destruct Hbits as [[H8 He] | (H8 & H0 & Hm)].
  - rewrite (proj2 (Z.leb_gt 8 _)) in Hl by lia. lia.
  - rewrite (proj2 (Z.leb_le 8 _)) in Hl by lia. pose proof (Z.div_mod (bitlen a) 8 ltac:(lia)). lia.
Qed.
Lemma aligned_last a : aligned a -> 0 <= last_byte a.
Proof.
  intros Ha. pose proof (aligned_first a Ha) as [E1 _]. destruct Ha as [_ Ho _]. unfold last_byte. rewrite E1.
  destruct (Z.leb_spec 8 (bitlen a)); [|lia]. pose proof (Z.div_le_lower_bound (bitlen a) 8 1 ltac:(lia) ltac:(lia)). lia.
Qed.

Section Setup.
Variable s : IOState.
(** The components that are set up. *)
Definition at_hand (c : ptr) (x : IOComponent) : Prop := c ∈ processing_queue s /\ components s !! c = Some x.
Hypothesis all_present : forall c, c ∈ processing_queue s -> is_Some (components s !! c).
Hypothesis all_aligned : forall c x, at_hand c x -> aligned (address x) /\ last_byte (address x) < 10000.

Lemma find_range_spec l : forall lo hi, (forall c, c ∈ l -> c ∈ processing_queue s) -> 0 <= hi < 10000 ->
  exists lo' hi', find_range l lo hi s = Ok ((lo', hi'), s) /\ hi <= hi' < 10000 /\
    forall c x, c ∈ l -> components s !! c = Some x -> last_byte (address x) <= hi'.
Proof.
  induction l as [|c l IH]; intros lo hi Hl Hhi; cbn [find_range].
  { exists lo, hi. split; [done |]. split; [lia |]. intros c x Hc. by apply elem_of_nil in Hc. }
  destruct (all_present c (Hl c ltac:(left))) as [x Hx]. rewrite (sbind_run _ _ _ _ _ (get_io_run _ _ _ Hx)).
  destruct (all_aligned c x) as [_ Hlt]; [split; [apply Hl; left | done] |].
  set (hi1 := if hi <? last_byte (address x) then last_byte (address x) else hi).
  assert (hi <= hi1 < 10000 /\ last_byte (address x) <= hi1) as [Hh1 Hx1]
    by (subst hi1; destruct (Z.ltb_spec hi (last_byte (address x))); lia).
  rewrite (slift_run (assert (hi1 <? 10000)) _ _ tt) by (rewrite (proj2 (Z.ltb_lt _ _)) by lia; done).
  destruct (IH (if byte_of (address x) <? lo then byte_of (address x) else lo) hi1) as (lo' & hi' & Hr & Hh & Ha);
    [intros d Hd; apply Hl; by right | lia |].
  exists lo', hi'. split; [done |]. split; [lia |].
  intros d y [-> | Hd]%elem_of_cons Hy; [simplify_eq; lia | by eapply Ha].
Qed.

Lemma index_bits_spec n : forall i c l, 0 <= i -> i + Z.of_nat n <= Z.of_nat (length l) ->
  exists l', index_bits n i c l = Ok l' /\ length l' = length l /\
    forall g, 0 <= g < Z.of_nat (length l) ->
      l' !! Z.to_nat g = if (i <=? g) && (g <? i + Z.of_nat n) then Some (Some c) else l !! Z.to_nat g.
Proof.
  induction n as [|n IH]; intros i c l Hi Hl; cbn [index_bits].
  { exists l. do 2 (split; [done |]). intros g Hg. change (Z.of_nat 0) with 0. rewrite Z.add_0_r.
    destruct (Z.leb_spec i g), (Z.ltb_spec g i); try lia; done. }
  rewrite (proj2 (Z.leb_le 0 i)), (proj2 (Z.ltb_lt i _)) by lia. cbn [andb].
  destruct (IH (i + 1) c (<[Z.to_nat i := Some c]> l)) as (l' & Hr & Hlen & Hg); [lia | rewrite length_insert; lia |].
  rewrite length_insert in *. exists l'. split; [done |]. split; [done |]. intros g Hge. rewrite Hg by done.
  destruct (Z.eq_dec g i) as [-> | Hne].
  - rewrite list_lookup_insert_eq by lia.
    destruct (Z.leb_spec (i + 1) i), (Z.leb_spec i i), (Z.ltb_spec i (i + 1 + Z.of_nat n)), (Z.ltb_spec i (i + Z.of_nat (S n)));
      try lia; done.
  - rewrite list_lookup_insert_ne by lia.
    destruct (Z.leb_spec (i + 1) g), (Z.leb_spec i g), (Z.ltb_spec g (i + 1 + Z.of_nat n)), (Z.ltb_spec g (i + Z.of_nat (S n)));
      try lia; done.
Qed.

Variable n : nat.
Hypothesis all_fit : forall c x, at_hand c x -> last_byte (address x) < Z.of_nat n.
Hypothesis all_apart : forall c d x y g, at_hand c x -> at_hand d y -> covers (address x) g = true ->
  covers (address y) g = true -> c = d.

(** The entries for the components [pre]. *)
Record entered (pre : list ptr) (im : list (option ptr) * list (option (list ptr))) : Prop := {
  en_length : length (fst im) = (n * 8)%nat /\ length (snd im) = n;
  en_in c x g : c ∈ pre -> at_hand c x -> io_name x <> "" -> covers (address x) g = true ->
    fst im !! Z.to_nat g = Some (Some c);
  en_out c g : 0 <= g -> fst im !! Z.to_nat g = Some (Some c) ->
    c ∈ pre /\ exists x, components s !! c = Some x /\ io_name x <> "" /\ covers (address x) g = true
}.
Lemma covers_range c x g : at_hand c x -> covers (address x) g = true -> 0 <= g < 8 * Z.of_nat n.
Proof.
  intros Hc Hg. destruct (all_aligned c x Hc) as [Ha _].
  destruct (aligned_fits _ n Ha (all_fit c x Hc)) as [Hb Ho _ He].
  unfold covers in Hg. apply andb_true_iff in Hg as [H1%Z.leb_le H2%Z.ltb_lt].
  pose proof (aligned_first _ Ha) as [E1 E2]. unfold first_bit in *. rewrite E1, E2 in *. lia.
Qed.
Lemma enter_step pre c im : c ∈ processing_queue s -> entered pre im ->
  exists im', enter_component im c s = Ok (im', s) /\ entered (pre ++ [c]) im'.
Proof.
  intros Hc [[L1 L2] Hin Hout]. destruct (all_present c Hc) as [x Hx]. assert (Hh : at_hand c x) by done.
  unfold enter_component. rewrite (sbind_run _ _ _ _ _ (get_io_run _ _ _ Hx)).
  destruct (decide (io_name x = "")) as [Hn | Hn].
  { rewrite bool_decide_true by done. exists im. split; [done |]. split; [done | |].
    - intros d y g [Hd | ->%list_elem_of_singleton]%elem_of_app Hy; [by apply Hin |].
      destruct Hy as [_ Hy]. simplify_eq. done.
    - intros d g Hg Hd. destruct (Hout d g Hg Hd). split; [by apply elem_of_app; left | done]. }
  rewrite bool_decide_false by done. destruct (all_aligned c x Hh) as [Ha _].
  pose proof (aligned_first _ Ha) as [E1 E2]. destruct (aligned_fits _ n Ha (all_fit c x Hh)) as [Hb Ho Hl He].
  unfold first_bit in He. rewrite E1, E2 in He. rewrite E1.
  destruct (index_bits_spec (Z.to_nat (bitlen (address x))) (io_offset (address x) * 8 + io_bitpos (address x)) c (fst im))
    as (ix & Hix & Lix & Hg); [lia | rewrite L1; lia |].
  rewrite (slift_run _ _ _ ix Hix), (proj2 (Z.leb_le 0 (io_offset (address x)))) by lia.
  destruct (lookup_lt_is_Some_2 (snd im) (Z.to_nat (io_offset (address x)))) as [cl Hcl].
  { rewrite L2. pose proof (al_bits _ Ha). lia. }
  rewrite (slift_run _ _ _ cl) by (by rewrite Hcl).
  assert (Hcov : forall g, (io_offset (address x) * 8 + io_bitpos (address x) <=? g) &&
    (g <? io_offset (address x) * 8 + io_bitpos (address x) + Z.of_nat (Z.to_nat (bitlen (address x)))) = covers (address x) g).
  { intros g. unfold covers, first_bit. by rewrite E1, E2, Z2Nat.id. }
  eexists. split; [reflexivity |]. split; cbn.
  - by rewrite Lix, length_insert.
  - intros d y g Hd Hy Hny Hcy. rewrite Hg, Hcov by (rewrite L1; pose proof (covers_range d y g Hy Hcy); lia).
    destruct (covers (address x) g) eqn:Ecx.
    + by rewrite (all_apart c d x y g Hh Hy Ecx Hcy).
    + apply elem_of_app in Hd as [Hd | ->%list_elem_of_singleton]; [by apply (Hin d y) |].
      destruct Hy as [_ Hy]. simplify_eq. congruence.
  - intros d g Hge Hd. pose proof (lookup_lt_Some _ _ _ Hd) as Hlt. rewrite Lix, L1 in Hlt.
    rewrite Hg, Hcov in Hd by (rewrite L1; lia). destruct (covers (address x) g) eqn:Ecx.
    + simplify_eq. split; [apply elem_of_app; right; left | eauto].
    + destruct (Hout d g Hge Hd) as [Hp ?]. split; [by apply elem_of_app; left | done].
Qed.
(** The mask of the components [pre]. *)
Definition masked (pre : list ptr) (l : bytes) : Prop :=
  Forall byte l /\ length l = n /\
  forall g, 0 <= g -> bit l g = true <-> exists c x, c ∈ pre /\ at_hand c x /\ covers (address x) g = true.
Lemma mask_step pre c l : c ∈ processing_queue s -> masked pre l ->
  exists x l', components s !! c = Some x /\ mark_component x l = Ok l' /\ masked (pre ++ [c]) l'.
Proof.
  intros Hc (Hb & Hl & Hg). destruct (all_present c Hc) as [x Hx]. assert (Hh : at_hand c x) by done.
  destruct (all_aligned c x Hh) as [Ha _].
  destruct (mark_component_spec x l Hb) as (l' & Hm & Hb' & Hl' & Hg'); [rewrite Hl; by apply aligned_fits; [|apply (all_fit c)] |].
  exists x, l'. split; [done |]. split; [done |]. split; [done |]. split; [by rewrite Hl' |].
  intros g Hge. rewrite Hg', orb_true_iff, Hg by done. split.
  - intros [(d & y & Hd & Hy & Hcy) | Hcx]; [exists d, y | exists c, x]; (split; [apply elem_of_app |]); auto using list_elem_of_here.
  - intros (d & y & [Hd | ->%list_elem_of_singleton]%elem_of_app & Hy & Hcy); [left; eauto |].
    destruct Hy as [_ Hy]. simplify_eq. by right.
Qed.
End Setup.

Lemma bit_zeros n g : bit (replicate n 0) g = false.
Proof.
  unfold bit. destruct (replicate n 0 !! _) eqn:E; [|done]. apply lookup_replicate in E as [-> _]. apply Z.bits_0.
Qed.
Lemma zeros_bytes n : Forall byte (replicate n 0).
Proof. apply Forall_replicate. unfold byte. lia. Qed.

