(* ===== verification/IOProps.v ===== *)
(** The exchange of data with the hardware: incoming data are merged into the process
    data and the components concerned are handed on; a request of a machine reaches
    the hardware and, when it comes back, the owners of the component. *)
From S2P Require Import Prelude Cnum Tokeniser Value BitOps Message IOComponents IOMaskProps.
Open Scope Z_scope.
Local Open Scope sm_scope.

(** ** One byte *)
Definition merge (q p m : Z) : Z := Z.lor (Z.land p m) (Z.ldiff q m).
Lemma land_bit_eqb p q k : 0 <= k -> (Z.land p (2 ^ k) =? Z.land q (2 ^ k)) = Bool.eqb (Z.testbit p k) (Z.testbit q k).
Proof.
  intros Hk. apply eq_true_iff_eq. rewrite Z.eqb_eq, eqb_true_iff. split.
  - intros E. apply (f_equal (fun z => Z.testbit z k)) in E.
    by rewrite !Z.land_spec, !Z.pow2_bits_true, !andb_true_r in E.
  - intros E. apply Z.bits_inj'. intros j Hj. rewrite !Z.land_spec. destruct (Z.eq_dec j k) as [-> |]; [by rewrite E |].
    by rewrite Z.pow2_bits_false, !andb_false_r.
Qed.
Lemma change_bit_spec p q k j : byte q -> 0 <= k < 8 -> 0 <= j ->
  byte (change_bit p (2 ^ k) q) /\
  Z.testbit (change_bit p (2 ^ k) q) j = if j =? k then Z.testbit p k else Z.testbit q j.
Proof.
  intros Hq Hk Hj. unfold change_bit. rewrite land_bit_eqb, mask_bit by lia.
  pose proof (put_bit_byte (Z.testbit p k) k q) as Hb. pose proof (put_bit_spec (Z.testbit p k) k q j Hq Hk Hj) as Hs.
  unfold put_bit in *. destruct (Bool.eqb (Z.testbit p k) (Z.testbit q k)) eqn:E; cbn [negb].
  - apply eqb_prop in E. split; [done |]. destruct (Z.eqb_spec j k); [by subst | done].
  - by destruct (Z.testbit p k).
Qed.

(** The mask marks changed bits only. *)
Definition exact (q p m : Z) : Prop := forall k, 0 <= k < 8 -> Z.testbit m k = true -> Z.testbit p k <> Z.testbit q k.
(** The components at the masked bits of a byte. *)
Definition seen_at (index : list (option ptr)) (i m : Z) (c : ptr) : Prop :=
  exists k, 0 <= k < 8 /\ Z.testbit m k = true /\ index !! Z.to_nat (i * 8 + k) = Some (Some c).
(** The component looked at last is among the changed ones. *)
Definition added_ok (ja : option ptr) (ch : gset ptr) : Prop := forall c, ja = Some c -> c ∈ ch.

Lemma process_bits_spec n : forall q0 i p m index q ja ch, (n <= 8)%nat -> 0 <= i -> byte q ->
  i * 8 + 8 <= Z.of_nat (length index) -> exact q0 p m -> added_ok ja ch ->
  (forall k, 8 - Z.of_nat n <= k < 8 -> Z.testbit q k = Z.testbit q0 k) ->
  exists q' ja' ch', process_bits n (if (n =? 0)%nat then 0 else 2 ^ (8 - Z.of_nat n)) i (8 - Z.of_nat n) p m index (q, ja, ch)
      = Ok (q', ja', ch') /\ byte q' /\ added_ok ja' ch' /\
    (forall k, 0 <= k < 8 -> Z.testbit q' k =
       if (8 - Z.of_nat n <=? k) && Z.testbit m k then Z.testbit p k else Z.testbit q k) /\
    (forall c, c ∈ ch' <-> c ∈ ch \/ exists k, 8 - Z.of_nat n <= k < 8 /\ Z.testbit m k = true /\
       index !! Z.to_nat (i * 8 + k) = Some (Some c)).
Proof.
  induction n as [|n IH]; intros q0 i p m index q ja ch Hn Hi Hq Hix Hex Hja Heq.
  { exists q, ja, ch. cbn [process_bits]. do 3 (split; [done |]). split.
    - intros k Hk. change (Z.of_nat 0) with 0. rewrite (proj2 (Z.leb_gt _ k)) by lia. done.
    - intros c. split; [by left | intros [? | (k & Hk & _)]; [done | lia]]. }
  set (j := 8 - Z.of_nat (S n)). assert (Hj : 0 <= j < 8) by (subst j; lia).
  change (S n =? 0)%nat with false. cbn [process_bits]. rewrite mask_bit by lia.
  replace (u8 (Z.shiftl (2 ^ j) 1)) with (if (n =? 0)%nat then 0 else 2 ^ (8 - Z.of_nat n)).
  2: { subst j. do 8 (destruct n as [|n]; [reflexivity |]). lia. }
  replace (j + 1) with (8 - Z.of_nat n) by (subst j; lia).
  destruct (lookup_lt_is_Some_2 index (Z.to_nat (i * 8 + j))) as [ioc Hioc]; [lia |].
  destruct (Z.testbit m j) eqn:Em.
  - rewrite Hioc. cbn [rd mbind res_bind].
    assert (Hd : negb (Z.land p (2 ^ j) =? Z.land q (2 ^ j)) = true).
    { rewrite land_bit_eqb by lia. apply negb_true_iff, eqb_false_iff. rewrite Heq by (subst j; lia). by apply Hex. }
    set (ja1 := match ioc with Some c => Some c | None => ja end).
    set (ch1 := match ioc with Some c => if negb (bool_decide (ja = Some c)) then {[c]} ∪ ch else ch | None => ch end).
    replace (match ioc with
             | Some c => if negb (bool_decide (ja = Some c)) && negb (Z.land p (2 ^ j) =? Z.land q (2 ^ j))
                         then {[c]} ∪ ch else ch
             | None => ch end) with ch1 by (subst ch1; destruct ioc; [by rewrite Hd, andb_true_r | done]).
    assert (added_ok ja1 ch1 /\ forall c, c ∈ ch1 <-> c ∈ ch \/ ioc = Some c) as [Hok1 Hch1].
    { subst ja1 ch1. destruct ioc as [c0|]; [|split; [done | naive_solver]].
      case_bool_decide as Eja; cbn [negb].
      - split; [intros c [= <-]; by apply Hja |]. intros c. split; [by left | intros [? | [= <-]]; [done | by apply Hja]].
      - split; [intros c [= <-]; set_solver |]. set_solver. }
    destruct (change_bit_spec p q j 0 Hq Hj ltac:(lia)) as [Hb1 _].
    destruct (IH q0 i p m index (change_bit p (2 ^ j) q) ja1 ch1) as (q' & ja' & ch' & Hr & Hb & Hok & Hbit & Hset);
      [lia | done | done | done | done | done | |].
    { intros k Hk. destruct (change_bit_spec p q j k Hq Hj ltac:(lia)) as [_ ->].
      rewrite (proj2 (Z.eqb_neq k j)) by (subst j; lia). apply Heq. subst j. lia. }
    exists q', ja', ch'. split; [exact Hr |]. split; [done |]. split; [done |]. split.
    + intros k Hk. rewrite Hbit by done. destruct (change_bit_spec p q j k Hq Hj ltac:(lia)) as [_ ->].
      destruct (Z.eqb_spec k j) as [-> | Hne].
      * rewrite (proj2 (Z.leb_gt _ j)), (Z.leb_refl j), Em by (subst j; lia). done.
      * destruct (Z.leb_spec (8 - Z.of_nat n) k), (Z.leb_spec j k); try done; subst j; lia.
    + intros c. rewrite Hset, Hch1. split.
      * intros [[? | Eioc] | (k & Hk & ?)]; [by left | right; exists j; split; [subst j; lia |]; by rewrite Hioc, Eioc |].
        right. exists k. split; [subst j; lia | done].
      * intros [? | (k & Hk & Hmk & Hc)]; [by left; left |].
        destruct (Z.eq_dec k j) as [-> | Hne]; [left; right; congruence |]. right. exists k. split; [subst j; lia | done].
  - cbn [negb mbind res_bind].
    destruct (IH q0 i p m index q ja ch) as (q' & ja' & ch' & Hr & Hb & Hok & Hbit & Hset);
      [lia | done | done | done | done | done | intros k Hk; apply Heq; subst j; lia |].
    exists q', ja', ch'. split; [exact Hr |]. split; [done |]. split; [done |]. split.
    + intros k Hk. rewrite Hbit by done. destruct (Z.eq_dec k j) as [-> | Hne].
      * rewrite (proj2 (Z.leb_gt _ j)), (Z.leb_refl j), Em by (subst j; lia). done.
      * destruct (Z.leb_spec (8 - Z.of_nat n) k), (Z.leb_spec j k); try done; subst j; lia.
    + intros c. rewrite Hset. split.
      * intros [? | (k & Hk & ?)]; [by left |]. right. exists k. split; [subst j; lia | done].
      * intros [? | (k & Hk & Hmk & Hc)]; [by left |]. destruct (Z.eq_dec k j) as [-> | Hne]; [congruence |].
        right. exists k. split; [subst j; lia | done].
Qed.

(** ** All bytes *)
Fixpoint merge_bytes (qs ps ms : bytes) : bytes :=
  match qs, ps, ms with q :: qs', p :: ps', m :: ms' => merge q p m :: merge_bytes qs' ps' ms' | _, _, _ => [] end.
Inductive exact_bytes : bytes -> bytes -> bytes -> Prop :=
| exact_nil : exact_bytes [] [] []
| exact_cons q p m qs ps ms : byte q -> byte p -> byte m -> exact q p m -> exact_bytes qs ps ms ->
    exact_bytes (q :: qs) (p :: ps) (m :: ms).
(** The components at the masked bits of the bytes from [i] on. *)
Definition seen_in (index : list (option ptr)) (i : Z) (ms : bytes) (c : ptr) : Prop :=
  exists b m, ms !! b = Some m /\ seen_at index (i + Z.of_nat b) m c.
Lemma seen_in_cons index i m ms c :
  seen_in index i (m :: ms) c <-> seen_at index i m c \/ seen_in index (i + 1) ms c.
Proof.
  split.
  - intros (b & m' & Hb & Hs). destruct b as [|b]; cbn in Hb.
    + simplify_eq. left. by rewrite Z.add_0_r in Hs.
    + right. exists b, m'. split; [done |]. by replace (i + 1 + Z.of_nat b) with (i + Z.of_nat (S b)) by lia.
  - intros [Hs | (b & m' & Hb & Hs)].
    + exists 0%nat, m. split; [done |]. by rewrite Z.add_0_r.
    + exists (S b), m'. split; [done |]. by replace (i + Z.of_nat (S b)) with (i + 1 + Z.of_nat b) by lia.
Qed.
Lemma merge_byte_bits q p m q' : byte q -> byte p -> byte m -> byte q' ->
  (forall k, 0 <= k < 8 -> Z.testbit q' k = if Z.testbit m k then Z.testbit p k else Z.testbit q k) -> q' = merge q p m.
Proof.
  intros Hq Hp Hm Hq' Hb. apply Z.bits_inj'. intros k Hk. unfold merge. rewrite Z.lor_spec, Z.land_spec, Z.ldiff_spec.
  destruct (Z.lt_ge_cases k 8).
  - rewrite Hb by done. destruct (Z.testbit m k), (Z.testbit p k), (Z.testbit q k); done.
  - by rewrite !byte_bits.
Qed.
Lemma merge_same q m : merge q q m = q.
Proof. apply Z.bits_inj'. intros k Hk. unfold merge. rewrite Z.lor_spec, Z.land_spec, Z.ldiff_spec. by destruct (Z.testbit q k), (Z.testbit m k). Qed.
Lemma merge_none q p : merge q p 0 = q.
Proof. unfold merge. by rewrite Z.land_0_r, Z.ldiff_0_r. Qed.

Lemma process_bytes_spec qs ps ms : exact_bytes qs ps ms -> forall i ja s, 0 <= i ->
  (i + Z.of_nat (length qs)) * 8 <= Z.of_nat (length (indexed_components s)) ->
  is_Some (last_process_data s) -> added_ok ja (updatedComponentsIn s) ->
  exists ch, process_bytes i qs ps ms ja s = Ok (merge_bytes qs ps ms, with_in ch s) /\
    forall c, c ∈ ch <-> c ∈ updatedComponentsIn s \/ seen_in (indexed_components s) i ms c.
Proof.
  induction 1 as [|q p m qs ps ms Hq Hp Hm Hex _ IH]; intros i ja s Hi Hlen [l Hl] Hja.
  { exists (updatedComponentsIn s). split; [by destruct s |]. intros c. split; [by left |].
    intros [? | (b & m & Hb & _)]; [done | by rewrite lookup_nil in Hb]. }
  cbn [length] in Hlen. cbn [process_bytes]. rewrite (sbind_run get_state _ s s s eq_refl), Hl.
  rewrite (sbind_run (sret tt) _ s tt s eq_refl), (sbind_run get_state _ s s s eq_refl).
  assert (exists ja' ch', (if negb (p =? q) && negb (m =? 0)
      then process_bits 8 1 i 0 p m (indexed_components s) (q, ja, updatedComponentsIn s)
      else Ok (q, ja, updatedComponentsIn s)) = Ok (merge q p m, ja', ch') /\ added_ok ja' ch' /\
    forall c, c ∈ ch' <-> c ∈ updatedComponentsIn s \/ seen_at (indexed_components s) i m c) as (ja' & ch' & Hst & Hok & Hch).
  { destruct (Z.eqb_spec p q) as [-> | Hne]; [|destruct (Z.eqb_spec m 0) as [-> | Hm0]]; cbn [negb andb].
    - exists ja, (updatedComponentsIn s). rewrite merge_same. split; [done |]. split; [done |]. intros c.
      split; [by left | intros [? | (k & Hk & Hmk & _)]; [done | by destruct (Hex k Hk Hmk)]].
    - exists ja, (updatedComponentsIn s). rewrite merge_none. split; [done |]. split; [done |]. intros c.
      split; [by left | intros [? | (k & Hk & Hmk & _)]; [done | by rewrite Z.bits_0 in Hmk]].
    - destruct (process_bits_spec 8 q i p m (indexed_components s) q ja (updatedComponentsIn s))
        as (q' & ja' & ch' & Hr & Hb & Hok & Hbit & Hset); [lia | done | done | lia | done | done | done |].
      exists ja', ch'. rewrite <- (merge_byte_bits q p m q'); [split; [exact Hr |]; split; [done |] | done .. |].
      + intros c. rewrite Hset. unfold seen_at. done.
      + intros k Hk. rewrite Hbit by done. rewrite (proj2 (Z.leb_le _ k)) by lia. done. }
  rewrite (slift_run _ _ _ _ Hst). cbn [fst snd]. rewrite put_run.
  destruct (IH (i + 1) ja' (with_in ch' s)) as (ch & Hrun & Hspec); [lia | cbn; lia | by exists l | done |].
  rewrite (sbind_run _ _ _ _ _ Hrun). exists ch. split; [done |]. intros c. rewrite Hspec. cbn.
  rewrite Hch, seen_in_cons. tauto.
Qed.

(** ** Handing on the changed components *)
(** Equal up to the time of the last read. *)
Definition same_io (x y : IOComponent) : Prop := set_read_time 0 y = set_read_time 0 x.
(** What handing on leaves alone. *)
Record kept (s s' : IOState) : Prop := {
  kp_data : io_process_data s' = io_process_data s;
  kp_update : update_data s' = update_data s;
  kp_size : process_data_size s' = process_data_size s;
  kp_range : max_offset s' = max_offset s /\ min_offset s' = min_offset s;
  kp_last : last_process_data s' = last_process_data s;
  kp_index : indexed_components s' = indexed_components s /\ io_map s' = io_map s;
  kp_polls : regular_polls s' = regular_polls s;
  kp_sent : updates_sent s' = updates_sent s;
  kp_hardware : hardware_state s' = hardware_state s;
  kp_work : work_queue s' = work_queue s /\ sequence s' = sequence s;
  kp_clock : io_clock s' = io_clock s;
  kp_components c x : components s !! c = Some x -> exists y, components s' !! c = Some y /\ same_io x y
}.
Lemma io_kept_refl s : kept s s.
Proof. split; try done. intros c x Hx. by exists x. Qed.
Ltac kept_frame := split; try done; intros ? y ?; by exists y.
Lemma kept_trans s1 s2 s3 : kept s1 s2 -> kept s2 s3 -> kept s1 s3.
Proof.
  intros K1 K2. destruct K1 as [A1 A2 A3 [A4 A4'] A5 [A6 A6'] A7 A8 A9 [A10 A10'] A11 A12],
    K2 as [B1 B2 B3 [B4 B4'] B5 [B6 B6'] B7 B8 B9 [B10 B10'] B11 B12].
  split; try congruence; try (split; congruence).
  intros c x Hx. destruct (A12 c x Hx) as (y & Hy & E1). destruct (B12 c y Hy) as (z & Hz & E2).
  exists z. split; [done |]. unfold same_io in *. congruence.
Qed.
Lemma upd_io_run c f x s : components s !! c = Some x ->
  upd_io c f s = Ok (tt, with_components (<[c := f x]> (components s)) s).
Proof. intros E. unfold upd_io. by rewrite E. Qed.
Lemma kept_update c f s x : components s !! c = Some x -> same_io x (f x) ->
  kept s (with_components (<[c := f x]> (components s)) s).
Proof.
  intros Hx Hf. split; try done. intros d y Hy. cbn. destruct (decide (c = d)) as [<- | Hne].
  - exists (f x). rewrite lookup_insert_eq. simplify_eq. done.
  - exists y. by rewrite lookup_insert_ne.
Qed.

Lemma take_changed_run u c s x : components s !! c = Some x ->
  exists s', take_changed u c s = Ok ({[c]} ∪ u, s') /\ kept s s' /\
    updatedComponentsIn s' = updatedComponentsIn s ∖ {[c]} /\
    updatedComponentsOut s' = (if updates_sent s then updatedComponentsOut s ∖ {[c]} else updatedComponentsOut s).
Proof.
  intros Hx. unfold take_changed. rewrite (sbind_run get_state _ s s s eq_refl).
  rewrite (sbind_run _ _ _ _ _ (upd_io_run _ _ _ _ Hx)), put_run.
  set (s1 := with_components _ s). assert (K1 : kept s s1) by (by apply kept_update).
  destruct (updates_sent s) eqn:Es; cbn [andb].
  - destruct (decide (c ∈ updatedComponentsOut s)).
    + rewrite bool_decide_true, put_run by done. eexists. split; [reflexivity |]. split; [|done].
      eapply kept_trans; [exact K1 |]. kept_frame.
    + rewrite bool_decide_false by done. eexists. split; [reflexivity |]. split; [|split; [done | cbn; set_solver]].
      eapply kept_trans; [exact K1 |]. kept_frame.
  - eexists. split; [reflexivity |]. split; [|done]. eapply kept_trans; [exact K1 |]. kept_frame.
Qed.
Lemma take_changed_fold l : forall u s, (forall c, c ∈ l -> is_Some (components s !! c)) ->
  exists s', io_fold take_changed u l s = Ok (list_to_set l ∪ u, s') /\ kept s s' /\
    updatedComponentsIn s' = updatedComponentsIn s ∖ list_to_set l /\
    updatedComponentsOut s' = (if updates_sent s then updatedComponentsOut s ∖ list_to_set l else updatedComponentsOut s).
Proof.
  induction l as [|c l IH]; intros u s Hl; cbn [io_fold].
  { exists s. cbn. rewrite union_empty_l_L, !difference_empty_L. split; [done |]. split; [apply io_kept_refl |].
    split; [done | by destruct (updates_sent s)]. }
  destruct (Hl c ltac:(left)) as [x Hx]. destruct (take_changed_run u c s x Hx) as (s1 & R1 & K1 & I1 & O1).
  rewrite (sbind_run _ _ _ _ _ R1). destruct (IH ({[c]} ∪ u) s1) as (s2 & R2 & K2 & I2 & O2).
  { intros d Hd. destruct (Hl d ltac:(by right)) as [y Hy]. destruct (kp_components _ _ K1 d y Hy) as (z & -> & _). done. }
  exists s2. rewrite R2. cbn [list_to_set]. split; [do 2 f_equal; clear; set_solver |].
  split; [by eapply kept_trans |]. rewrite I2, I1, O2, O1, (kp_sent _ _ K1).
  split; [|destruct (updates_sent s); [|done]]; clear; set_solver.
Qed.

(** The pending value is that of the hardware. *)
Definition settled (s : IOState) (c : ptr) : Prop :=
  exists x, components s !! c = Some x /\ pending_value x = Some (u32 (a_value (address x))).
Lemma drop_matching_fold l : forall s,
  (forall c, c ∈ l -> exists x v, components s !! c = Some x /\ pending_value x = Some v) ->
  exists s', io_fold drop_matching tt l s = Ok (tt, s') /\ kept s s' /\ components s' = components s /\
    updatedComponentsIn s' = updatedComponentsIn s /\
    forall c, c ∈ updatedComponentsOut s' <-> c ∈ updatedComponentsOut s /\ ~ (c ∈ l /\ settled s c).
Proof.
  induction l as [|c l IH]; intros s Hl; cbn [io_fold].
  { exists s. split; [done |]. split; [apply io_kept_refl |]. do 2 (split; [done |]). intros c.
    split; [intros ?; split; [done |]; intros [Hc _]; by apply elem_of_nil in Hc | by intros [? _]]. }
  destruct (Hl c ltac:(left)) as (x & v & Hx & Hv). unfold drop_matching at 1.
  rewrite (sbind_run _ _ _ tt (if v =? u32 (a_value (address x)) then with_out (updatedComponentsOut s ∖ {[c]}) s else s)).
  2: { rewrite (sbind_run _ _ _ _ _ (get_io_run _ _ _ Hx)), (slift_run _ _ _ v) by (by rewrite Hv).
       by destruct (v =? u32 (a_value (address x))). }
  set (s1 := if v =? _ then _ else s).
  assert (K1 : kept s s1 /\ components s1 = components s /\ updatedComponentsIn s1 = updatedComponentsIn s)
    by (subst s1; destruct (v =? _); [split; [kept_frame |] | split; [apply io_kept_refl |]]; done).
  destruct K1 as (K1 & C1 & I1).
  assert (O1 : forall d, d ∈ updatedComponentsOut s1 <-> d ∈ updatedComponentsOut s /\ ~ (d = c /\ settled s c)).
  { intros d. assert (settled s c <-> v = u32 (a_value (address x))) as Hset.
    { split; [intros (y & Hy & Hp); simplify_eq; congruence | intros ->; by exists x]. }
    subst s1. destruct (Z.eqb_spec v (u32 (a_value (address x)))) as [E | E]; cbn; set_solver. }
  destruct (IH s1) as (s2 & R2 & K2 & C2 & I2 & O2).
  { intros d Hd. rewrite C1. apply Hl. by right. }
  exists s2. split; [done |]. split; [by eapply kept_trans |]. split; [congruence |]. split; [congruence |].
  intros d. rewrite O2, O1, elem_of_cons. unfold settled. rewrite C1. naive_solver.
Qed.
Lemma same_io_fields x y : same_io x y -> pending_value y = pending_value x /\ address y = address x /\
  last_event y = last_event x /\ io_class y = io_class x /\ raw_value y = raw_value x /\ io_owners y = io_owners x.
Proof. destruct x, y. unfold same_io. cbn. intros [=]. by subst. Qed.
Lemma settled_kept s s' c : kept s s' -> is_Some (components s !! c) -> settled s' c <-> settled s c.
Proof.
  intros K [x Hx]. destruct (kp_components _ _ K c x Hx) as (y & Hy & Hs). apply same_io_fields in Hs as (E1 & E2 & _).
  split; intros (z & Hz & Hp); simplify_eq; eexists; (split; [eassumption |]); congruence.
Qed.

Definition pending_known (s : IOState) (c : ptr) : Prop :=
  exists x v, components s !! c = Some x /\ pending_value x = Some v.
Lemma pending_kept s s' c : kept s s' -> pending_known s c -> pending_known s' c.
Proof.
  intros K (x & v & Hx & Hv). destruct (kp_components _ _ K c x Hx) as (y & Hy & E).
  apply same_io_fields in E as (E & _). exists y, v. split; [done | congruence].
Qed.
Lemma drop_sent s : (updates_sent s = true -> forall c, c ∈ updatedComponentsOut s -> pending_known s c) ->
  exists s', (if updates_sent s then io_fold drop_matching tt (elements (updatedComponentsOut s)) else sret tt) s
      = Ok (tt, s') /\ kept s s' /\ updatedComponentsIn s' = updatedComponentsIn s /\
    forall c, c ∈ updatedComponentsOut s' <-> c ∈ updatedComponentsOut s /\ ~ (updates_sent s = true /\ settled s c).
Proof.
  intros Hp. destruct (updates_sent s).
  - destruct (drop_matching_fold (elements (updatedComponentsOut s)) s) as (s' & R & K & _ & I & O).
    { intros c Hc%elem_of_elements. by apply (Hp eq_refl). }
    exists s'. do 3 (split; [done |]). intros c. rewrite O, elem_of_elements. naive_solver.
  - exists s. split; [done |]. split; [apply io_kept_refl |]. split; [done |]. naive_solver.
Qed.
Lemma hand_on_spec u s : (forall c, c ∈ updatedComponentsIn s -> is_Some (components s !! c)) ->
  (updates_sent s = true -> forall c, c ∈ updatedComponentsOut s -> c ∈ updatedComponentsIn s \/ pending_known s c) ->
  exists s', hand_on u s = Ok (updatedComponentsIn s ∪ u, s') /\ kept s s' /\ updatedComponentsIn s' = ∅ /\
    forall c, c ∈ updatedComponentsOut s' <-> c ∈ updatedComponentsOut s /\
      ~ (updates_sent s = true /\ (c ∈ updatedComponentsIn s \/ updatedComponentsIn s <> ∅ /\ settled s c)).
Proof.
  intros Hpres Hpend. unfold hand_on. rewrite (sbind_run get_state _ s s s eq_refl). case_bool_decide as Ei.
  { exists s. rewrite Ei, union_empty_l_L. split; [done |]. split; [apply io_kept_refl |]. split; [done |].
    intros c. rewrite elem_of_empty. tauto. }
  destruct (take_changed_fold (elements (updatedComponentsIn s)) u s) as (s3 & R3 & K3 & I3 & O3).
  { intros c Hc. by apply Hpres, elem_of_elements. }
  rewrite list_to_set_elements_L in *. rewrite difference_diag_L in I3.
  rewrite (sbind_run _ _ _ _ _ R3), (sbind_run get_state _ s3 s3 s3 eq_refl).
  assert (Hsub : forall c, c ∈ updatedComponentsOut s3 -> c ∈ updatedComponentsOut s)
    by (intros c; rewrite O3; destruct (updates_sent s); [rewrite elem_of_difference; tauto | done]).
  destruct (drop_sent s3) as (s4 & R4 & K4 & I4 & O4).
  { rewrite (kp_sent _ _ K3). intros Es c Hc. rewrite O3, Es, elem_of_difference in Hc.
    destruct (Hpend Es c) as [? | ?]; [naive_solver .. |]. by eapply pending_kept. }
  rewrite (sbind_run _ _ _ _ _ R4), put_run. eexists. split; [reflexivity |].
  split; [eapply kept_trans; [exact K3 |]; eapply kept_trans; [exact K4 |]; kept_frame |].
  split; [by cbn; rewrite I4 |]. intros c. cbn. rewrite O4, (kp_sent _ _ K3).
  assert (updates_sent s = true -> c ∈ updatedComponentsOut s3 -> settled s3 c <-> settled s c) as Hse.
  { intros Es Hc. apply (settled_kept s s3 c K3).
    destruct (Hpend Es c (Hsub c Hc)) as [? | (x & v & Hx & _)]; [by apply Hpres | by rewrite Hx]. }
  assert (c ∈ updatedComponentsOut s3 <->
    c ∈ updatedComponentsOut s /\ ~ (updates_sent s = true /\ c ∈ updatedComponentsIn s)) as Hout
    by (rewrite O3; destruct (updates_sent s); [rewrite elem_of_difference |]; naive_solver).
  clear -Hse Hout Ei. destruct (updates_sent s); naive_solver.
Qed.

(** A component is touched when it waits to be handed on or the mask marks one of its
    bits. *)
Definition touched (s : IOState) (m : bytes) (c : ptr) : Prop :=
  c ∈ updatedComponentsIn s \/ seen_in (indexed_components s) 0 m c.
(** The state after the data were merged. *)
Definition merged (clock : Z) (q' : bytes) (s : IOState) : IOState :=
  with_clock clock (with_data (Some q')
    (if bool_decide (hardware_state s = s_operational) then with_last (Some q') s else s)).

Lemma processAll_spec clock m p u s q : hardware_state s <> s_hardware_preinit ->
  io_process_data s = Some q -> process_data_size s = Z.of_nat (length q) -> exact_bytes q p m ->
  Z.of_nat (length q) * 8 <= Z.of_nat (length (indexed_components s)) -> is_Some (last_process_data s) ->
  (forall c, touched s m c -> is_Some (components s !! c)) ->
  (updates_sent s = true -> forall c, c ∈ updatedComponentsOut s -> touched s m c \/ pending_known s c) ->
  exists s' upd, processAll clock (Z.of_nat (length q)) m p u s = Ok (upd, s') /\
    io_process_data s' = Some (merge_bytes q p m) /\
    (forall c, c ∈ upd <-> c ∈ u \/ touched s m c) /\ updatedComponentsIn s' = ∅ /\
    (forall c, c ∈ updatedComponentsOut s' <-> c ∈ updatedComponentsOut s /\
       ~ (updates_sent s = true /\ (touched s m c \/ (exists d, touched s m d) /\ settled s c))) /\
    kept (merged clock (merge_bytes q p m) s) s'.
Proof.
  intros Hhw Hd Hsz Hex Hix Hlast Hpres Hpend. unfold processAll. rewrite put_run.
  set (s0 := with_clock clock s). rewrite (sbind_run get_state _ s0 s0 s0 eq_refl).
  rewrite (slift_run (assert _) _ _ tt) by (cbn; by rewrite Hsz, Z.eqb_refl).
  rewrite (slift_run (rd _) _ _ q) by (cbn; by rewrite Hd).
  destruct (process_bytes_spec q p m Hex 0 None s0 ltac:(lia) ltac:(cbn; lia) Hlast ltac:(done)) as (ch & Hr & Hch).
  set (q' := merge_bytes q p m) in *. set (s2 := with_in ch (merged clock q' s)).
  assert (Hch' : forall c, c ∈ ch <-> touched s m c) by (intros c; by rewrite Hch).
  assert (Hsame : components s2 = components s /\ updatedComponentsOut s2 = updatedComponentsOut s /\
    updates_sent s2 = updates_sent s) by (subst s2; unfold merged; by case_bool_decide).
  destruct Hsame as (C2 & O2 & U2).
  destruct (hand_on_spec u s2) as (s' & R & K & I & O).
  { intros c Hc. rewrite C2. by apply Hpres, Hch'. }
  { rewrite U2, O2. unfold pending_known. rewrite C2. change (updatedComponentsIn s2) with ch.
    intros Es c Hc. rewrite Hch'. by apply Hpend. }
  exists s', (ch ∪ u). split.
  { transitivity (hand_on u s2); [|exact R]. change (hardware_state s0) with (hardware_state s).
    subst s2. unfold merged. destruct (hardware_state s); [done | |];
      rewrite (sbind_run _ _ _ _ _ Hr), put_run; (by rewrite bool_decide_false + by rewrite bool_decide_true). }
  split; [rewrite (kp_data _ _ K); subst s2; unfold merged; by case_bool_decide |].
  split; [intros c; rewrite elem_of_union, Hch'; tauto |]. split; [done |]. split.
  - intros c. rewrite O, O2, U2. change (updatedComponentsIn s2) with ch. rewrite Hch'.
    assert (ch <> ∅ <-> exists d, touched s m d) as ->.
    { split; [intros [d Hd']%set_choose_L; exists d; by apply Hch' | intros [d Hd'%Hch'] E; rewrite E in Hd'; by apply elem_of_empty in Hd']. }
    unfold settled. by rewrite C2.
  - eapply kept_trans; [|exact K]. kept_frame.
Qed.

