(* ===== verification/IOOutputs.v ===== *)
(** Outputs: a request of a machine goes into the data and the mask sent to the hardware,
    and when the hardware has taken it over the owners of the component are told. *)
From S2P Require Import Prelude Cnum Tokeniser Value BitOps Message IOComponents IOMaskProps IOProps.
Open Scope Z_scope.
Local Open Scope sm_scope.

(** ** Bytes and bits *)
Lemma bytes_ext l l' : Forall byte l -> Forall byte l' -> length l = length l' ->
  (forall g, 0 <= g < 8 * Z.of_nat (length l) -> bit l g = bit l' g) -> l = l'.
Proof.
  intros Hl Hl' Hlen Hb. apply list_eq_same_length with (length l); [done | done |].
  intros i x y Hi Hx Hy. pose proof (Forall_lookup_1 _ _ _ _ Hl Hx). pose proof (Forall_lookup_1 _ _ _ _ Hl' Hy).
  apply Z.bits_inj'. intros k Hk. destruct (Z.lt_ge_cases k 8); [|by rewrite !byte_bits].
  specialize (Hb (Z.of_nat i * 8 + k) ltac:(lia)).
  by rewrite (bit_at l (Z.of_nat i) k x), (bit_at l' (Z.of_nat i) k y) in Hb by (rewrite ?Nat2Z.id; done || lia).
Qed.
Lemma put_at_same b g l : Forall byte l -> 0 <= g < 8 * Z.of_nat (length l) -> bit l g = b -> put_at b g l = l.
Proof.
  intros Hl Hg E. apply bytes_ext; [by apply put_at_bytes | done | apply put_at_length |].
  intros h Hh. rewrite put_at_length in Hh. rewrite put_at_bit by (done || lia).
  destruct (Z.eqb_spec h g); by subst.
Qed.
Lemma put_at_set l i k x b : l !! Z.to_nat i = Some x -> 0 <= i -> 0 <= k < 8 ->
  put_at b (i * 8 + k) l = <[Z.to_nat i := put_bit b k x]> l.
Proof.
  intros Hl Hi Hk. unfold put_at. rewrite Z.div_add_l, Z.div_small, Z.add_0_r by lia. rewrite Hl.
  by rewrite Z.add_comm, Z.mod_add, Z.mod_small by lia.
Qed.
Lemma set_bit_put q k (b : bool) : 0 <= k < 8 -> set_bit q k (if b then 1 else 0) = Ok (put_bit b k q).
Proof.
  intros Hk. unfold set_bit, put_bit. rewrite (proj2 (Z.ltb_lt k 32)) by lia. rewrite Z.shiftl_1_l.
  replace (u8 (2 ^ k)) with (2 ^ k); [by destruct b |].
  symmetry. apply Z.mod_small. split; [lia |]. apply Z.pow_lt_mono_r; lia.
Qed.
Lemma shift1_ok k : 0 <= k < 8 -> shift1 k = Ok (2 ^ k).
Proof.
  intros Hk. unfold shift1. rewrite (proj2 (Z.leb_le 0 k)), (proj2 (Z.ltb_lt k 31)) by lia. cbn. by rewrite Z.shiftl_1_l.
Qed.

(** ** Requests *)
Definition update_of (s : IOState) (l : bytes) : bytes := default l (update_data s).
Lemma getUpdateData_run s l : io_process_data s = Some l -> process_data_size s = Z.of_nat (length l) ->
  getUpdateData s = Ok (update_of s l, with_update (Some (update_of s l)) s).
Proof.
  intros Hl Hn. unfold getUpdateData, update_of. rewrite (sbind_run get_state _ s s s eq_refl), Hl.
  destruct (update_data s) as [u|] eqn:E.
  - unfold with_update. cbn. rewrite <- E. by destruct s.
  - unfold copy_data. rewrite Hn, Z.ltb_irrefl, Nat2Z.id, firstn_all. done.
Qed.

Section Requests.
Context `{Ecrt}.
(** [turnOn] and [turnOff]. *)
Definition switch (b : bool) (c : ptr) : IM unit := if b then turnOn c else turnOff c.
(** The state once a request was marked. *)
Definition requested (c : ptr) (x : IOComponent) (u : bytes) (s : IOState) : IOState :=
  with_sent false (with_update (Some u) (with_components (<[c := x]> (components s))
    (with_waiting (u32 (outputs_waiting s + 1)) (with_out ({[c]} ∪ updatedComponentsOut s) s)))).
(** The state when the change is marked. *)
Definition queued (c : ptr) (x : IOComponent) (s : IOState) : IOState :=
  with_waiting (u32 (outputs_waiting s + 1)) (with_sent false (with_out ({[c]} ∪ updatedComponentsOut s)
    (with_components (<[c := x]> (components s)) s))).
Lemma requested_eq c x y u s : with_components (<[c := y]> (components (with_sent false (with_update (Some u) (queued c x s)))))
  (with_sent false (with_update (Some u) (queued c x s))) = requested c y u s.
Proof. unfold requested, queued. destruct s. cbn. by rewrite insert_insert_eq. Qed.
Lemma requested_unsent c x y u s : with_components (<[c := y]> (components (with_update (Some u) (queued c x s))))
  (with_update (Some u) (queued c x s)) = requested c y u s.
Proof. unfold requested, queued. destruct s. cbn. by rewrite insert_insert_eq. Qed.

Variables (s : IOState) (l : bytes) (c : ptr) (x : IOComponent).
Hypothesis Hl : io_process_data s = Some l.
Hypothesis Hn : process_data_size s = Z.of_nat (length l).
Hypothesis Hu : Forall byte (update_of s l) /\ length (update_of s l) = length l.
Hypothesis Hx : components s !! c = Some x.
Hypothesis Hfit : fits (length l) (address x).

Lemma switch_run b : is_output (io_class x) = true -> bitlen (address x) = 1 ->
  switch b c s = Ok (tt, requested c (set_event e_none x) (put_at b (first_bit (address x)) (update_of s l)) s).
Proof.
  intros Ho H1. destruct Hu as [Hub Hul]. pose proof (fits_first _ _ Hfit) as [E1 E2].
  destruct Hfit as [Hb Hof _ He]. unfold first_bit in *. rewrite E1, E2, H1 in *.
  set (i := io_offset (address x)) in *. set (k := io_bitpos (address x)) in *.
  set (s1 := queued c (set_event (if b then e_on else e_off) x) s).
  transitivity (markChange c s1).
  { unfold switch, turnOn, turnOff. destruct b; rewrite (sbind_run _ _ _ _ _ (get_io_run _ _ _ Hx)), Ho;
      unfold request; rewrite (sbind_run _ _ _ _ _ (upd_io_run _ _ _ _ Hx)), put_run; done. }
  unfold markChange. rewrite (sbind_run _ _ _ _ _ (getUpdateData_run s1 l Hl Hn)).
  change (update_of s1 l) with (update_of s l). set (u := update_of s l) in *.
  assert (Hx1 : components (with_update (Some u) s1) !! c = Some (set_event (if b then e_on else e_off) x))
    by apply lookup_insert_eq.
  rewrite (sbind_run _ _ _ _ _ (get_io_run _ _ _ Hx1)). cbn [address set_event]. rewrite H1, Z.eqb_refl.
  destruct (byte_at_ok u (io_offset (address x))) as (v & Hv & Hlv); [lia |].
  rewrite E1, E2, (slift_run _ _ _ v Hv), (slift_run _ _ _ _ (shift1_ok _ Hb)), mask_bit by lia. fold i k in Hlv |- *.
  assert (Hset : set_byte u i (put_bit b k v) = Ok (put_at b (i * 8 + k) u)).
  { rewrite set_byte_ok by lia. by rewrite (put_at_set u i k v) by (done || lia). }
  assert (Hbit : bit u (i * 8 + k) = Z.testbit v k) by (apply bit_at; done || lia).
  destruct (Bool.bool_dec (Z.testbit v k) b) as [Eb | Eb].
  - rewrite put_at_same by (done || lia || congruence). rewrite Eb.
    replace (_ && _) with false by (by destruct b). replace (b && _) with false by (by destruct b).
    rewrite (sbind_run (sret tt) _ _ tt _ eq_refl), (upd_io_run _ _ _ _ Hx1).
    subst s1. by rewrite requested_unsent.
  - assert (Hput : sbind (slift (set_bit v k (if b then 1 else 0))) (fun b' => sbind (slift (set_byte u i b'))
      (fun u' => sbind (put (with_update (Some u'))) (fun _ => updatesSent false))) (with_update (Some u) s1)
      = Ok (tt, with_sent false (with_update (Some (put_at b (i * 8 + k) u)) s1))).
    { rewrite (slift_run _ _ _ _ (set_bit_put v k b Hb)), (slift_run _ _ _ _ Hset). done. }
    assert (Z.testbit v k = negb b) as -> by (by destruct (Z.testbit v k), b).
    rewrite (sbind_run _ _ _ tt (with_sent false (with_update (Some (put_at b (i * 8 + k) u)) s1)))
      by (destruct b; exact Hput).
    rewrite (upd_io_run c _ (set_event (if b then e_on else e_off) x)) by exact Hx1.
    subst s1. by rewrite requested_eq.
Qed.

(** *** Values *)
Definition set_output (c : ptr) (v : Z) : IM unit :=
  if is_signed (address x) then setValue_signed c v else setValue_unsigned c v.
Lemma set_output_run v u' : bitlen (address x) <> 1 -> write_value (address x) (u32 v) (update_of s l) = Ok u' ->
  set_output c v s = Ok (tt, requested c (set_event e_none (set_pending (u32 v) x)) u' s).
Proof.
  intros H1 Hw. set (x1 := set_event e_change (set_pending (u32 v) x)). set (s1 := queued c x1 s).
  transitivity (markChange c s1).
  { unfold set_output, setValue_signed, setValue_unsigned. destruct (is_signed (address x)) eqn:Es;
      rewrite (sbind_run _ _ _ _ _ (get_io_run _ _ _ Hx)), Es, (slift_run _ _ _ tt) by done;
      unfold request; rewrite (sbind_run _ _ _ _ _ (upd_io_run _ _ _ _ Hx)), put_run; done. }
  unfold markChange. rewrite (sbind_run _ _ _ _ _ (getUpdateData_run s1 l Hl Hn)).
  change (update_of s1 l) with (update_of s l). set (u := update_of s l) in *.
  assert (Hx1 : components (with_update (Some u) s1) !! c = Some x1) by apply lookup_insert_eq.
  rewrite (sbind_run _ _ _ _ _ (get_io_run _ _ _ Hx1)). cbn [address x1 set_event set_pending last_event pending_value].
  rewrite (proj2 (Z.eqb_neq _ 1)) by done. rewrite (slift_run (rd _) _ _ (u32 v)) by done.
  rewrite (slift_run _ _ _ u' Hw), put_run.
  rewrite (sbind_run _ _ _ _ _ (upd_io_run c _ x1 (with_update (Some u') s1) Hx1)).
  unfold updatesSent, put. rewrite <- (requested_unsent c x1). by destruct s.
Qed.
End Requests.


(** What the EtherCAT macros promise: a value that is written is read back. *)
Class EcrtLaws `{Ecrt} : Prop := {
  u16_written v : 0 <= v < 2 ^ 16 -> let '(b0, b1) := ec_write_u16 v in ec_read_u16 b0 b1 = v;
  u32_written v : 0 <= v < 2 ^ 32 -> let '(b0, b1, b2, b3) := ec_write_u32 v in ec_read_u32 b0 b1 b2 b3 = v
}.
(** What is left of a value in a field of 8, 16 or 32 bits. *)
Definition in_field (n v : Z) : Z := if n =? 8 then to_s8 v else if n =? 16 then v mod 2 ^ 16 else to_s32 v.

(** Storing bytes one after the other. *)
Fixpoint store_bytes (l : bytes) (i : Z) (bs : bytes) : bytes :=
  match bs with [] => l | b :: bs' => store_bytes (<[Z.to_nat i := b]> l) (i + 1) bs' end.
Lemma store_length bs : forall l i, length (store_bytes l i bs) = length l.
Proof. induction bs as [|b bs IH]; intros l i; cbn; [done |]. by rewrite IH, length_insert. Qed.
Lemma store_out bs : forall l i j, 0 <= i -> 0 <= j -> ~ i <= j < i + Z.of_nat (length bs) ->
  store_bytes l i bs !! Z.to_nat j = l !! Z.to_nat j.
Proof.
  induction bs as [|b bs IH]; intros l i j Hi Hj Hout; cbn [store_bytes length] in *; [done |].
  rewrite IH by lia. apply list_lookup_insert_ne. lia.
Qed.
Lemma store_in bs : forall l i k b, 0 <= i -> i + Z.of_nat (length bs) <= Z.of_nat (length l) -> bs !! k = Some b ->
  store_bytes l i bs !! Z.to_nat (i + Z.of_nat k) = Some b.
Proof.
  induction bs as [|b' bs IH]; intros l i k b Hi Hl Hk; cbn [store_bytes length] in *; [done |].
  destruct k as [|k]; cbn in Hk.
  - simplify_eq. rewrite store_out by lia. rewrite Z.add_0_r. apply list_lookup_insert_eq. lia.
  - replace (i + Z.of_nat (S k)) with (i + 1 + Z.of_nat k) by lia.
    apply IH; [lia | rewrite length_insert; lia | done].
Qed.
Lemma store_byte bs l i k b : 0 <= i -> i + Z.of_nat (length bs) <= Z.of_nat (length l) -> bs !! k = Some b ->
  byte_at (store_bytes l i bs) (i + Z.of_nat k) = Ok b.
Proof. intros Hi Hl Hk. apply byte_at_lookup; [lia |]. by apply store_in. Qed.

Lemma mod_mod_pow v a b : 0 <= a <= b -> (v mod 2 ^ b) mod 2 ^ a = v mod 2 ^ a.
Proof.
  intros Hab. replace b with ((b - a) + a) by lia. rewrite Z.pow_add_r by lia.
  pose proof (Z.pow_pos_nonneg 2 a ltac:(lia) ltac:(lia)). pose proof (Z.pow_pos_nonneg 2 (b - a) ltac:(lia) ltac:(lia)).
  rewrite (Z.mul_comm (2 ^ (b - a))), Z.rem_mul_r by lia. by rewrite (Z.mul_comm (2 ^ a)), Z.mod_add, Z.mod_mod by lia.
Qed.
Lemma write_value_stores `{EcrtLaws} a v u : fits (length u) a -> io_bitpos a = 0 -> bitlen a ∈ [8; 16; 32] ->
  exists bs, write_value a (u32 v) u = Ok (store_bytes u (byte_of a) bs) /\ Z.of_nat (length bs) * 8 = bitlen a /\
    read_value a (store_bytes u (byte_of a) bs) = Ok (in_field (bitlen a) v).
Proof.
  intros Hf Hb0 Hlen. pose proof (fits_first _ _ Hf) as [E1 E2]. destruct Hf as [_ Ho _ He].
  unfold first_bit in He. rewrite E1, E2, Hb0 in He.
  unfold write_value, read_value, in_field. rewrite E1. set (i := io_offset a) in *.
  assert (Hbs : forall bs : bytes, i + Z.of_nat (length bs) <= Z.of_nat (length u) -> forall k b, bs !! k = Some b ->
    byte_at (store_bytes u i bs) (i + Z.of_nat k) = Ok b) by (intros; by apply store_byte).
  assert (Hb1 : forall bs b, i + Z.of_nat (length bs) <= Z.of_nat (length u) -> bs !! 0%nat = Some b ->
    byte_at (store_bytes u i bs) i = Ok b) by (intros bs b Hl Hk; rewrite <- (Z.add_0_r i) at 2; by apply (Hbs bs Hl 0%nat)).
  rewrite !elem_of_cons, elem_of_nil in Hlen. destruct Hlen as [E | [E | [E | []]]]; rewrite E in *; cbn [Z.ltb Z.eqb Z.compare Pos.eqb Pos.compare Pos.compare_cont].
  - exists [u8 (u32 v)]. rewrite set_byte_ok by lia. do 2 (split; [done |]). 
    rewrite (Hb1 [u8 (u32 v)] (u8 (u32 v)) ltac:(cbn; lia) eq_refl). cbn. f_equal. unfold to_s8, u8, u32.
    by rewrite mod_mod_pow, Z.add_mod_idemp_l by lia.
  - pose proof (u16_written (u32 v mod 2 ^ 16) ltac:(apply Z.mod_pos_bound; lia)) as Hw.
    change 65536 with (2 ^ 16) in *. destruct (ec_write_u16 _) as [b0 b1]. exists [b0; b1].
    rewrite set_byte_ok by lia. cbn [mbind res_bind]. rewrite set_byte_ok by (rewrite length_insert; lia).
    do 2 (split; [done |]).
    rewrite (Hb1 [b0; b1] b0 ltac:(cbn; lia) eq_refl). cbn [mbind res_bind].
    rewrite (Hbs [b0; b1] ltac:(cbn; lia) 1%nat b1 eq_refl : byte_at _ (i + 1) = _). cbn [mbind res_bind]. rewrite Hw. f_equal.
    unfold u32. by rewrite mod_mod_pow by lia.
  - pose proof (u32_written (u32 v) ltac:(apply Z.mod_pos_bound; lia)) as Hw.
    destruct (ec_write_u32 _) as [[[b0 b1] b2] b3]. exists [b0; b1; b2; b3].
    rewrite set_byte_ok by lia. cbn [mbind res_bind].
    do 3 (rewrite set_byte_ok by (rewrite ?length_insert; lia); cbn [mbind res_bind]).
    replace (i + 2) with (i + 1 + 1) by lia. replace (i + 3) with (i + 1 + 1 + 1) by lia. do 2 (split; [done |]).
    rewrite (Hb1 [b0; b1; b2; b3] b0 ltac:(cbn; lia) eq_refl). cbn [mbind res_bind].
    replace (i + 1 + 1) with (i + 2) by lia. replace (i + 2 + 1) with (i + 3) by lia.
    rewrite (Hbs [b0; b1; b2; b3] ltac:(cbn; lia) 1%nat b1 eq_refl : byte_at _ (i + 1) = _). cbn [mbind res_bind].
    rewrite (Hbs [b0; b1; b2; b3] ltac:(cbn; lia) 2%nat b2 eq_refl : byte_at _ (i + 2) = _). cbn [mbind res_bind].
    rewrite (Hbs [b0; b1; b2; b3] ltac:(cbn; lia) 3%nat b3 eq_refl : byte_at _ (i + 3) = _). cbn [mbind res_bind]. rewrite Hw. f_equal.
    unfold to_s32, u32. by rewrite Z.add_mod_idemp_l by lia.
Qed.

(** ** What is sent *)
Section Sent.
Variable enabled : ptr -> bool.
(** An output whose request is the only one. *)
Record only_request (n : nat) (s : IOState) (c : ptr) (x : IOComponent) : Prop := {
  or_io : components s !! c = Some x;
  or_out : updatedComponentsOut s = {[c]};
  or_direction : exists d, direction_ x = Some d /\ d <> DirInput;
  or_fits : fits n (address x);
  or_size : max_offset s = Z.of_nat n - 1
}.
Lemma getUpdates_one n s c x l u : only_request n s c x -> io_process_data s = Some l -> update_data s = Some u ->
  exists mask, getUpdates enabled s = Ok (Some (mkUpdate (u32 (max_offset s - min_offset s + 1)) u mask),
      if ownersEnabled enabled x then s else with_out ∅ s) /\
    Forall byte mask /\ length mask = n /\ forall g, 0 <= g -> bit mask g = covers (address x) g.
Proof.
  intros [Hx Ho (d & Hd & Hdi) Hf Hm] Hl Hu. set (s1 := if ownersEnabled enabled x then s else with_out ∅ s).
  destruct (mark_component_spec x (replicate n 0) (zeros_bytes n)) as (mask & Hmk & Hb & Hlen & Hg);
    [by rewrite length_replicate |].
  assert (Hstep : update_mask_of enabled (replicate n 0) c s = Ok (mask, s1)).
  { unfold update_mask_of. rewrite (sbind_run _ _ _ _ _ (get_io_run _ _ _ Hx)).
    rewrite (sbind_run _ _ _ tt s1) by (subst s1; destruct (ownersEnabled enabled x); [done |];
      unfold put; by rewrite Ho, difference_diag_L).
    rewrite (slift_run _ _ _ d) by (by rewrite Hd). destruct d; [done | |]; unfold slift; by rewrite Hmk. }
  assert (Hgen : generateUpdateMask enabled s = Ok (Some mask, s1)).
  { unfold generateUpdateMask. rewrite (sbind_run get_state _ s s s eq_refl), bool_decide_false by (rewrite Ho; set_solver).
    unfold blank_mask. rewrite Ho, elements_singleton, Hm. replace (Z.to_nat (Z.of_nat n - 1 + 1)) with n by lia.
    cbn [io_fold]. by rewrite (sbind_run _ _ s mask s1) by (by rewrite (sbind_run _ _ _ _ _ Hstep)). }
  assert (Hs1 : update_data s1 = Some u /\ io_process_data s1 = Some l /\ max_offset s1 = max_offset s /\ min_offset s1 = min_offset s)
    by (subst s1; by destruct (ownersEnabled enabled x)).
  destruct Hs1 as (U1 & L1 & M1 & N1). exists mask. split.
  - unfold getUpdates. rewrite (sbind_run _ _ _ _ _ Hgen), (sbind_run getUpdateData _ s1 u s1).
    + rewrite (sbind_run get_state _ s1 s1 s1 eq_refl), M1, N1. done.
    + unfold getUpdateData. by rewrite (sbind_run get_state _ s1 s1 s1 eq_refl), L1, U1.
  - rewrite length_replicate in Hlen. do 2 (split; [done |]). intros g Hge. by rewrite Hg, bit_zeros by done.
Qed.

(** *** Several requests *)
(** The outputs that wait: each is known, and those that are no inputs fit the data. *)
Definition waiting (n : nat) (s : IOState) (l : list ptr) : Prop :=
  forall c, c ∈ l -> exists x d, components s !! c = Some x /\ direction_ x = Some d /\ (d <> DirInput -> fits n (address x)).
(** The bits of the outputs of a list. *)
Definition output_bit (s : IOState) (l : list ptr) (g : Z) : Prop :=
  exists c x, c ∈ l /\ components s !! c = Some x /\ direction_ x <> Some DirInput /\ covers (address x) g = true.
(** A component that nobody uses leaves the queue. *)
Definition in_use (s : IOState) (c : ptr) : Prop := forall x, components s !! c = Some x -> ownersEnabled enabled x = true.
Lemma update_masks n l : forall mask s, Forall byte mask -> length mask = n -> waiting n s l ->
  exists mask' out, io_fold (update_mask_of enabled) mask l s = Ok (mask', with_out out s) /\
    Forall byte mask' /\ length mask' = n /\
    (forall g, 0 <= g -> bit mask' g = true <-> bit mask g = true \/ output_bit s l g) /\
    (forall c, in_use s c -> c ∈ updatedComponentsOut s -> c ∈ out).
Proof.
  induction l as [|c l IH]; intros mask s Hb Hn Hw.
  { exists mask, (updatedComponentsOut s). cbn [io_fold]. split; [by destruct s |]. split; [done |]. split; [done |].
    split; [|done]. intros g _. split; [by left | intros [|(c & x & Hc & _)]; [done | by apply elem_of_nil in Hc]]. }
  destruct (Hw c ltac:(left)) as (x & d & Hx & Hd & Hf). cbn [io_fold].
  set (s1 := if ownersEnabled enabled x then s else with_out (updatedComponentsOut s ∖ {[c]}) s).
  assert (exists mask1, update_mask_of enabled mask c s = Ok (mask1, s1) /\ Forall byte mask1 /\ length mask1 = n /\
    forall g, 0 <= g -> bit mask1 g = bit mask g || (negb (bool_decide (d = DirInput)) && covers (address x) g))
    as (mask1 & R1 & Hb1 & Hn1 & Hg1).
  { unfold update_mask_of. rewrite (sbind_run _ _ _ _ _ (get_io_run _ _ _ Hx)).
    rewrite (sbind_run _ _ _ tt s1) by (subst s1; by destruct (ownersEnabled enabled x)).
    rewrite (slift_run _ _ _ d) by (by rewrite Hd). destruct (decide (d = DirInput)) as [-> | Hne].
    { exists mask. do 3 (split; [done |]). intros g _. cbn. by rewrite orb_false_r. }
    destruct (mark_component_spec x mask Hb) as (mask1 & Hm & ? & ? & Hg); [rewrite Hn; by apply Hf |].
    exists mask1. rewrite bool_decide_false by done. split; [destruct d; (done || by unfold slift; rewrite Hm) |].
    split; [done |]. split; [congruence | done]. }
  assert (Ec : components s1 = components s) by (subst s1; by destruct (ownersEnabled enabled x)).
  destruct (IH mask1 s1 Hb1 Hn1) as (mask' & out & R & Hb' & Hn' & Hg & Hout).
  { intros c' Hc'. rewrite Ec. apply Hw. by right. }
  exists mask', out. rewrite (sbind_run _ _ _ _ _ R1), R.
  split; [subst s1; by destruct (ownersEnabled enabled x), s |]. split; [done |]. split; [done |]. split.
  - intros g Hge. rewrite Hg, Hg1, orb_true_iff, andb_true_iff, negb_true_iff, bool_decide_eq_false by done.
    unfold output_bit. rewrite Ec. split.
    + intros [[? | [Hdi Hc]] | (c' & x' & Hc' & H')]; [by left | right; exists c, x | right; exists c', x'].
      * split; [left | split; [done | split; [congruence | done]]].
      * split; [by right | done].
    + intros [? | (c' & x' & [-> | Hc']%elem_of_cons & Hx' & Hd' & Hcov)]; [by left; left | left; right | right; by exists c', x'].
      rewrite Hx in Hx'. injection Hx' as <-. split; [congruence | done].
  - intros c' Hu Hc'. apply Hout; [unfold in_use in *; by rewrite Ec |]. subst s1.
    destruct (ownersEnabled enabled x) eqn:Eo; [done |]. cbn. apply elem_of_difference. split; [done |].
    intros ->%elem_of_singleton. specialize (Hu x Hx). congruence.
Qed.
Lemma getUpdates_all n s l u : updatedComponentsOut s <> ∅ -> waiting n s (elements (updatedComponentsOut s)) ->
  max_offset s = Z.of_nat n - 1 -> io_process_data s = Some l -> update_data s = Some u ->
  exists mask out, getUpdates enabled s = Ok (Some (mkUpdate (u32 (max_offset s - min_offset s + 1)) u mask), with_out out s) /\
    length mask = n /\ (forall g, 0 <= g -> bit mask g = true <-> output_bit s (elements (updatedComponentsOut s)) g) /\
    (forall c, in_use s c -> c ∈ updatedComponentsOut s -> c ∈ out).
Proof.
  intros Ho Hw Hm Hl Hu.
  destruct (update_masks n (elements (updatedComponentsOut s)) (replicate n 0) s (zeros_bytes n)) as (mask & out & R & _ & Hn & Hg & Hout);
    [by rewrite length_replicate | done |].
  exists mask, out. split.
  - unfold getUpdates, generateUpdateMask. rewrite (sbind_run _ _ s (Some mask) (with_out out s)).
    + unfold getUpdateData. rewrite (sbind_run _ _ _ u (with_out out s));
        [done | by rewrite (sbind_run get_state _ _ _ _ eq_refl); cbn; rewrite Hl, Hu].
    + rewrite (sbind_run get_state _ s s s eq_refl), bool_decide_false by done. unfold blank_mask. rewrite Hm.
      replace (Z.to_nat (Z.of_nat n - 1 + 1)) with n by lia. by rewrite (sbind_run _ _ _ _ _ R).
  - split; [done |]. split; [|done]. intros g Hge. rewrite Hg, bit_zeros by done. naive_solver.
Qed.

Context `{EcrtLaws}.
(** C38: a value set for an output of 8, 16 or 32 bits that starts at a byte is in the data
    of the next update, whatever other outputs wait: the update returns the data in which
    the component reads as the value cut to its width, all other bits of the data are as
    before, and the mask marks exactly the bits of the component and of the other outputs
    that wait; the pending value is kept and the request is queued, unsent. *)
Theorem value_reaches_update s l c x n v : io_process_data s = Some l -> process_data_size s = Z.of_nat n ->
  length l = n -> Forall byte (update_of s l) -> length (update_of s l) = n -> components s !! c = Some x ->
  waiting n s (elements (updatedComponentsOut s)) -> (exists d, direction_ x = Some d /\ d <> DirInput) -> fits n (address x) ->
  max_offset s = Z.of_nat n - 1 -> io_bitpos (address x) = 0 -> bitlen (address x) ∈ [8; 16; 32] ->
  exists u s' y, (run! set_output x c v in getUpdates enabled) s = Ok (Some u, s') /\
    read_value (address x) (u_data u) = Ok (in_field (bitlen (address x)) v) /\
    (forall g, 0 <= g -> covers (address x) g = false -> bit (u_data u) g = bit (update_of s l) g) /\
    (forall g, 0 <= g -> bit (u_mask u) g = true <->
       covers (address x) g = true \/ output_bit s (elements (updatedComponentsOut s)) g) /\
    components s' !! c = Some y /\ pending_value y = Some (u32 v) /\ last_event y = e_none /\
    updates_sent s' = false /\ (ownersEnabled enabled x = true -> c ∈ updatedComponentsOut s').
Proof.
  intros Hl Hn Hll Hub Hul Hx Ho (d & Hd & Hdi) Hf Hm Hb0 Hlen.
  destruct (write_value_stores (address x) v (update_of s l)) as (bs & Hw & Hbs & Hrd); [by rewrite Hul | done | done |].
  set (u' := store_bytes (update_of s l) (byte_of (address x)) bs) in *.
  set (y := set_event e_none (set_pending (u32 v) x)). set (s1 := requested c y u' s).
  assert (Hrun : set_output x c v s = Ok (tt, s1)).
  { apply (set_output_run s l c x Hl); [by rewrite Hn, Hll | by rewrite Hll | done | | done].
    intros E1. rewrite E1, !elem_of_cons, elem_of_nil in Hlen. destruct Hlen as [|[|[|[]]]]; lia. }
  assert (Hy : components s1 !! c = Some y) by apply lookup_insert_eq.
  assert (Hother : forall c', c' <> c -> components s1 !! c' = components s !! c') by (intros c' Hc'; by apply lookup_insert_ne).
  destruct (getUpdates_all n s1 l u') as (mask & out & Hup & _ & Hmask & Hout); [cbn; set_solver | | done | done | done |].
  { intros c' Hc'. destruct (decide (c' = c)) as [-> | Hne]; [by exists y, d |]. rewrite Hother by done. apply Ho.
    apply elem_of_elements. apply elem_of_elements in Hc'. cbn in Hc'. set_solver. }
  eexists _, _, y. split; [rewrite (sbind_run _ _ _ _ _ Hrun); exact Hup |]. cbn [u_data u_mask].
  split; [done |]. split; [|split; [|split; [exact Hy |]]].
  - intros g Hg Hc. pose proof (fits_first _ _ Hf) as [E1 E2]. unfold bit, u'.
    unfold covers, first_bit in Hc. rewrite E1, E2, Hb0 in *. destruct Hf as [_ Hof _ _].
    pose proof (Z.div_mod g 8 ltac:(lia)). pose proof (Z.mod_pos_bound g 8 ltac:(lia)). pose proof (Z.div_pos g 8 Hg ltac:(lia)).
    rewrite store_out; [done | lia | lia |]. apply andb_false_iff in Hc as [Hc%Z.leb_gt | Hc%Z.ltb_ge]; lia.
  - intros g Hg. rewrite Hmask by done. split.
    + intros (c' & x' & Hc' & Hx' & Hd' & Hcov). destruct (decide (c' = c)) as [-> | Hne].
      * rewrite Hy in Hx'. injection Hx' as <-. by left.
      * right. rewrite Hother in Hx' by done. exists c', x'. split; [|done]. apply elem_of_elements.
        apply elem_of_elements in Hc'. cbn in Hc'. set_solver.
    + intros [Hcov | (c' & x' & Hc' & Hx' & Hd' & Hcov)].
      * exists c, y. split; [apply elem_of_elements; cbn; set_solver |]. split; [done |]. split; [|done]. cbn. congruence.
      * destruct (decide (c' = c)) as [-> | Hne].
        { exists c, y. rewrite Hx in Hx'. injection Hx' as <-. split; [apply elem_of_elements; cbn; set_solver | done]. }
        exists c', x'. rewrite Hother by done. split; [|done]. apply elem_of_elements. apply elem_of_elements in Hc'. cbn. set_solver.
  - do 3 (split; [done |]). intros Hen. apply Hout; [|cbn; set_solver]. intros z Hz. rewrite Hy in Hz. by injection Hz as <-.
Qed.
End Sent.
