(* ===== verification/IOCycle.v ===== *)
(** One cycle of an output: the request, the update for the hardware, the data that come
    back, and what the owners are told.
    Concrete process data: an output of one bit and one of 16 bits, on which the
    theorems about input and output are applied. *)
From S2P Require Import Prelude Cnum Tokeniser Value Message BitOps IOComponents IOMaskProps IOProps IOOutputs.
Open Scope Z_scope.
Local Open Scope sm_scope.

(** ** Bits of merged data *)
Lemma exact_bytes_intro q : forall p m, Forall byte q -> Forall byte p -> Forall byte m ->
  length p = length q -> length m = length q ->
  (forall g, 0 <= g -> bit m g = true -> bit p g <> bit q g) -> exact_bytes q p m.
Proof.
  induction q as [|b q IH]; intros [|c p] [|d m] Hq Hp Hm Lp Lm Hg; try discriminate; [constructor |].
  apply list.Forall_cons in Hq as [? ?], Hp as [? ?], Hm as [? ?].
  constructor; [done | done | done | |].
  - intros k Hk E. specialize (Hg (0 * 8 + k) ltac:(lia)). rewrite (bit_at (d :: m) 0 k d), (bit_at (c :: p) 0 k c), (bit_at (b :: q) 0 k b) in Hg by (done || lia). by apply Hg.
  - cbn in Lp, Lm. apply IH; [done | done | done | lia | lia |]. intros g Hge. specialize (Hg (g + 8) ltac:(lia)).
    unfold bit in *. replace ((g + 8) / 8) with (g / 8 + 1) in Hg by (rewrite <- (Z.div_add g 1 8) by lia; done).
    replace ((g + 8) mod 8) with (g mod 8) in Hg by (rewrite <- (Z.mod_add g 1 8) by lia; done).
    pose proof (Z.div_pos g 8 Hge ltac:(lia)). rewrite Z2Nat.inj_add, Nat.add_1_r in Hg by lia. done.
Qed.
Lemma merge_bytes_lookup q : forall p m i x y z, q !! i = Some x -> p !! i = Some y -> m !! i = Some z ->
  merge_bytes q p m !! i = Some (merge x y z).
Proof.
  induction q as [|b q IH]; intros [|c p] [|d m] [|i] x y z; try discriminate; cbn; [naive_solver |]. apply IH.
Qed.
Lemma merge_bytes_length q : forall p m, length p = length q -> length m = length q ->
  length (merge_bytes q p m) = length q.
Proof. induction q as [|b q IH]; intros [|c p] [|d m]; try discriminate; cbn; [done |]. intros. f_equal. apply IH; lia. Qed.
Lemma merge_bytes_bit q p m g : length p = length q -> length m = length q -> 0 <= g < 8 * Z.of_nat (length q) ->
  bit (merge_bytes q p m) g = if bit m g then bit p g else bit q g.
Proof.
  intros Lp Lm Hg. assert (g / 8 < Z.of_nat (length q)) by (apply Z.div_lt_upper_bound; lia).
  pose proof (Z.div_pos g 8 ltac:(lia) ltac:(lia)).
  destruct (lookup_lt_is_Some_2 q (Z.to_nat (g / 8))) as [x Hx]; [lia |].
  destruct (lookup_lt_is_Some_2 p (Z.to_nat (g / 8))) as [y Hy]; [lia |].
  destruct (lookup_lt_is_Some_2 m (Z.to_nat (g / 8))) as [z Hz]; [lia |].
  unfold bit. rewrite (merge_bytes_lookup q p m _ x y z), Hx, Hy, Hz by done. unfold merge.
  rewrite Z.lor_spec, Z.land_spec, Z.ldiff_spec. destruct (Z.testbit x _), (Z.testbit y _), (Z.testbit z _); done.
Qed.

(** ** Telling the owners *)
(** The packages sent to the owners. *)
Fixpoint told (txt : string) (k : MessageType) (c : ptr) (n : Z) (owners : list ptr) : list Package :=
  match owners with
  | [] => []
  | o :: os => mkPackage (Some c) (Some o) (fst (Message_new txt k None n)) false :: told txt k c (u64 (n + 1)) os
  end.
Lemma send_owners_run txt k wake c os : forall s, exists a n,
  send_owners txt k wake c os s = Ok (tt, with_work (work_queue s ++ told txt k c (sequence s) os) a n s).
Proof.
  unfold send_owners. induction os as [|o os IH]; intros s; cbn [io_fold told].
  - exists (activated s), (sequence s). rewrite app_nil_r. by destruct s.
  - unfold put at 1, sbind at 1. cbn [Message_new]. destruct (IH (with_work (work_queue s ++
        [mkPackage (Some c) (Some o) (fst (Message_new txt k None (sequence s))) false])
        (if wake then {[o]} ∪ activated s else activated s) (u64 (sequence s + 1)) s)) as (a & n & Hr).
    exists a, n. etransitivity; [exact Hr |]. cbn. by rewrite <- app_assoc.
Qed.
Lemma told_text txt k c os : forall n, map (fun p => (receiver p, text (message p))) (told txt k c n os)
  = map (fun o => (Some o, txt)) os.
Proof. induction os as [|o os IH]; intros n; cbn; [done |]. by rewrite IH. Qed.

Section Cycle.
Context `{Ecrt}.
Variable enabled : ptr -> bool.
Variable sample : ptr -> Z -> IM Z.

Definition leave_text (b : bool) : string := if b then "on_leave" else "off_leave".
Definition enter_text (b : bool) : string := if b then "on_enter" else "off_enter".
Definition flag (b : bool) : Z := if b then 1 else 0.
Lemma handleChange_bit s l c x : io_process_data s = Some l -> components s !! c = Some x ->
  fits (length l) (address x) -> bitlen (address x) = 1 ->
  a_value (address x) = flag (negb (bit l (first_bit (address x)))) ->
  exists ms s', handleChange sample c s = Ok (tt, s') /\ work_queue s' = work_queue s ++ ms /\
    map (fun p => (receiver p, text (message p))) ms =
      map (fun o => (Some o, leave_text (negb (bit l (first_bit (address x)))))) (io_owners x) ++
      map (fun o => (Some o, enter_text (bit l (first_bit (address x))))) (io_owners x) /\
    components s' !! c = Some (set_value (flag (bit l (first_bit (address x)))) x) /\
    io_process_data s' = Some l /\ updatedComponentsOut s' = updatedComponentsOut s.
Proof.
  intros Hl Hx Hf H1 Hv. pose proof (fits_first _ _ Hf) as [E1 E2]. destruct Hf as [Hb Ho _ He].
  unfold first_bit in *. rewrite E1, E2, H1 in *.
  destruct (byte_at_ok l (io_offset (address x))) as (v & Hby & Hlv); [lia |].
  rewrite (bit_at l _ _ v Hlv) in * by lia. set (b := Z.testbit v (io_bitpos (address x))) in *.
  destruct (send_owners_run (leave_text (negb b)) LEAVEMSG true c (io_owners x) s) as (a1 & n1 & R1).
  set (s1 := with_work _ a1 n1 s) in R1.
  destruct (send_owners_run (enter_text b) ENTERMSG false c (io_owners x) s1) as (a2 & n2 & R2).
  set (s2 := with_work _ a2 n2 s1) in R2.
  eexists (_ ++ _), _. split.
  { unfold handleChange. rewrite (sbind_run get_state _ s s s eq_refl), Hl, (sbind_run _ _ _ _ _ (get_io_run _ _ _ Hx)).
    rewrite H1, Z.eqb_refl, E1, E2, (slift_run _ _ _ v Hby), (slift_run _ _ _ _ (shift1_ok _ Hb)).
    replace (if Z.land v (2 ^ io_bitpos (address x)) =? 0 then 0 else 1) with (flag b)
      by (pose proof (mask_bit v (io_bitpos (address x)) ltac:(lia)) as Hmb; fold b in Hmb;
          destruct (Z.land v _ =? 0), b; done).
    replace (a_value (address x) =? flag b) with false by (rewrite Hv; by destruct b).
    cbn [negb]. replace (if a_value (address x) =? 0 then "off_leave" else "on_leave") with (leave_text (negb b))
      by (rewrite Hv; by destruct b).
    replace (if flag b =? 0 then "off_enter" else "on_enter") with (enter_text b) by (by destruct b).
    rewrite (sbind_run _ _ s tt s2) by (rewrite (sbind_run _ _ _ _ _ R1); exact R2).
    by apply upd_io_run. }
  cbn. split; [by rewrite <- app_assoc |]. split; [by rewrite map_app, !told_text |].
  split; [apply lookup_insert_eq | done].
Qed.

(** The request is sent, the hardware takes it over and returns what it was sent. *)
Definition cycle (clock : Z) (b : bool) (c : ptr) : IM (option IOUpdate) :=
  run! switch b c in
  let! u := getUpdates enabled in
  match u with
  | None => sret None
  | Some up =>
      run! updatesSent true in
      let! changed := processAll clock (Z.of_nat (length (u_data up))) (u_mask up) (u_data up) ∅ in
      run! io_fold (fun _ d => handleChange sample d) tt (elements changed) in
      sret (Some up)
  end.
(** An output of one bit, at rest with the value [b]. *)
Record at_rest (s : IOState) (l : bytes) (c : ptr) (x : IOComponent) (b : bool) : Prop := {
  ar_hardware : hardware_state s = s_operational;
  ar_data : io_process_data s = Some l;
  ar_size : process_data_size s = Z.of_nat (length l);
  ar_range : max_offset s = Z.of_nat (length l) - 1;
  ar_bytes : Forall byte l;
  ar_update : Forall byte (update_of s l) /\ length (update_of s l) = length l;
  ar_last : is_Some (last_process_data s);
  ar_index : length (indexed_components s) = (length l * 8)%nat;
  ar_quiet : updatedComponentsIn s = ∅ /\ updatedComponentsOut s = ∅;
  ar_io : components s !! c = Some x;
  ar_class : is_output (io_class x) = true;
  ar_direction : direction_ x = Some DirOutput;
  ar_bit : bitlen (address x) = 1;
  ar_fits : fits (length l) (address x);
  ar_entry : indexed_components s !! Z.to_nat (first_bit (address x)) = Some (Some c);
  ar_value : bit l (first_bit (address x)) = b /\ a_value (address x) = flag b
}.
Lemma covers_one a g : bitlen a = 1 -> covers a g = (g =? first_bit a).
Proof.
  intros E. unfold covers. rewrite E.
  destruct (Z.leb_spec (first_bit a) g), (Z.ltb_spec g (first_bit a + 1)), (Z.eqb_spec g (first_bit a)); try lia; done.
Qed.
Lemma touched_one s m c x : updatedComponentsIn s = ∅ -> 0 <= first_bit (address x) < 8 * Z.of_nat (length m) ->
  indexed_components s !! Z.to_nat (first_bit (address x)) = Some (Some c) ->
  (forall g, 0 <= g -> bit m g = (g =? first_bit (address x))) -> forall d, touched s m d <-> d = c.
Proof.
  intros Hi Hf Hc Hm d. unfold touched. rewrite Hi. split.
  - intros [[]%elem_of_empty | (i & y & Hy & k & Hk & Ht & Hd)].
    specialize (Hm (Z.of_nat i * 8 + k) ltac:(lia)).
    rewrite (bit_at m (Z.of_nat i) k y), Ht in Hm by (rewrite ?Nat2Z.id; done || lia).
    symmetry in Hm. apply Z.eqb_eq in Hm. rewrite Z.add_0_l, Hm in Hd. congruence.
  - intros ->. right. set (g := first_bit (address x)) in *. specialize (Hm g ltac:(lia)). rewrite Z.eqb_refl in Hm.
    pose proof (Z.mod_pos_bound g 8 ltac:(lia)). pose proof (Z.div_mod g 8 ltac:(lia)). pose proof (Z.div_pos g 8 ltac:(lia) ltac:(lia)).
    unfold bit in Hm. destruct (m !! Z.to_nat (g / 8)) as [y|] eqn:Ey; [|done].
    exists (Z.to_nat (g / 8)), y. split; [done |]. exists (g mod 8). split; [lia |]. split; [done |].
    rewrite Z2Nat.id, Z.add_0_l by lia. by replace (g / 8 * 8 + g mod 8) with g by lia.
Qed.

(** The state when the request was sent. *)
Record sent_out (s : IOState) (l : bytes) (c : ptr) (x : IOComponent) (s2 : IOState) : Prop := {
  so_data : io_process_data s2 = Some l /\ process_data_size s2 = Z.of_nat (length l);
  so_in : updatedComponentsIn s2 = ∅ /\ updatedComponentsOut s2 ⊆ {[c]};
  so_index : indexed_components s2 = indexed_components s /\ last_process_data s2 = last_process_data s;
  so_hardware : hardware_state s2 = s_operational /\ updates_sent s2 = true;
  so_io : components s2 !! c = Some (set_event e_none x);
  so_work : work_queue s2 = work_queue s
}.
Lemma first_bit_range n a : fits n a -> bitlen a = 1 -> 0 <= first_bit a < 8 * Z.of_nat n.
Proof. intros Hf E. pose proof (fits_first _ _ Hf) as [E1 E2]. destruct Hf as [? ? _ He]. unfold first_bit in *. lia. Qed.
Lemma switch_sends s l c x b : at_rest s l c x (negb b) -> exists up s1, 
  (run! switch b c in getUpdates enabled) s = Ok (Some up, s1) /\ sent_out s l c x (with_sent true s1) /\
  length (u_data up) = length l /\ length (u_mask up) = length l /\ Forall byte (u_data up) /\ Forall byte (u_mask up) /\
  (forall g, 0 <= g -> bit (u_mask up) g = (g =? first_bit (address x))) /\ bit (u_data up) (first_bit (address x)) = b.
Proof.
  intros [Hhw Hl Hn Hr Hby Hu Hlast Hix [Hin Hout] Hx Hcl Hdir H1 Hf Hent [Hbit Hval]].
  pose proof (first_bit_range _ _ Hf H1) as Hg0.
  set (g0 := first_bit (address x)) in *. set (u := put_at b g0 (update_of s l)).
  set (y1 := set_event e_none x). set (s1 := requested c y1 u s).
  pose proof (switch_run s l c x Hl Hn Hu Hx Hf b Hcl H1) as Hsw. destruct Hu as [Hub Hul].
  assert (Hone : only_request (length l) s1 c y1).
  { split; [apply lookup_insert_eq | cbn; rewrite Hout; by rewrite union_empty_r_L | by eexists | done | done]. }
  destruct (getUpdates_one enabled (length l) s1 c y1 l u Hone Hl eq_refl) as (mask & Hup & Hmb & Hml & Hmask).
  eexists _, _. split; [rewrite (sbind_run _ _ _ _ _ Hsw); exact Hup |]. cbn [u_data u_mask]. split.
  - destruct (ownersEnabled enabled y1); (split; cbn; [done | rewrite ?Hout; set_solver | done | done | | done]);
      apply lookup_insert_eq.
  - split; [subst u; by rewrite put_at_length |]. split; [done |]. split; [by apply put_at_bytes |]. split; [done |]. split.
    + intros g Hg. rewrite Hmask by done. by apply covers_one.
    + subst u. rewrite put_at_bit, Z.eqb_refl by (done || lia). done.
Qed.
(** The data come back. *)
Lemma sent_returns clock s l c x b s2 u mask : at_rest s l c x (negb b) -> sent_out s l c x s2 ->
  length u = length l -> length mask = length l -> Forall byte u -> Forall byte mask ->
  (forall g, 0 <= g -> bit mask g = (g =? first_bit (address x))) -> bit u (first_bit (address x)) = b ->
  exists s3 y, processAll clock (Z.of_nat (length l)) mask u ∅ s2 = Ok ({[c]}, s3) /\
    io_process_data s3 = Some (merge_bytes l u mask) /\ updatedComponentsOut s3 = ∅ /\ work_queue s3 = work_queue s /\
    components s3 !! c = Some y /\ address y = address x /\ last_event y = e_none /\ io_owners y = io_owners x.
Proof.
  intros [_ _ _ _ Hby _ Hlast Hix _ _ _ _ H1 Hf Hent [Hbit _]] [[L2 N2] [I2 O2] [X2 P2] [H2 U2] Hcx W2] Lu Lm Hu Hmb Hm Bu.
  pose proof (first_bit_range _ _ Hf H1) as Hg0.
  assert (Ht : forall d, touched s2 mask d <-> d = c) by (apply (touched_one s2 mask c x); rewrite ?X2, ?Lm; done).
  destruct (processAll_spec clock mask u ∅ s2 l) as (s3 & upd & R3 & D3 & Hupd & I3 & O3 & K3).
  { by rewrite H2. } { done. } { done. }
  { apply exact_bytes_intro; try done. intros g Hg. rewrite Hm by done. intros ->%Z.eqb_eq. rewrite Bu, Hbit. by destruct b. }
  { rewrite X2, Hix. lia. } { by rewrite P2. }
  { intros d ->%Ht. by rewrite Hcx. }
  { intros _ d Hd. left. apply Ht. set_solver. }
  assert (upd = {[c]}) as -> by (apply set_eq; intros d; rewrite Hupd, Ht; set_solver).
  destruct (kp_components _ _ K3 c (set_event e_none x)) as (y & Hy & (_ & Ea & Ee & _ & _ & Eo)%same_io_fields).
  { unfold merged. by case_bool_decide. }
  exists s3, y. do 2 (split; [done |]). split; [|split; [|done]].
  - apply set_eq. intros d. rewrite O3. split; [|by intros ?%elem_of_empty]. intros [Hd Hn']. exfalso.
    apply Hn'. split; [done |]. left. apply Ht. set_solver.
  - destruct (kp_work _ _ K3) as [-> _].
    assert (work_queue (merged clock (merge_bytes l u mask) s2) = work_queue s2) as ->
      by (unfold merged; by case_bool_decide).
    by rewrite W2.
Qed.

(** The owners are told about the bit that came back. *)
Definition completed (s : IOState) (l : bytes) (c : ptr) (x : IOComponent) (b : bool) (s' : IOState) : Prop :=
  exists l' y ms, io_process_data s' = Some l' /\
    (forall g, 0 <= g < 8 * Z.of_nat (length l) -> bit l' g = if g =? first_bit (address x) then b else bit l g) /\
    components s' !! c = Some y /\ isOn y = b /\ isOff y = negb b /\ updatedComponentsOut s' = ∅ /\
    work_queue s' = work_queue s ++ ms /\
    map (fun p => (receiver p, text (message p))) ms =
      map (fun o => (Some o, leave_text (negb b))) (io_owners x) ++ map (fun o => (Some o, enter_text b)) (io_owners x).
Lemma returned_told s l c x b s3 y u mask : at_rest s l c x (negb b) -> length u = length l -> length mask = length l ->
  (forall g, 0 <= g -> bit mask g = (g =? first_bit (address x))) -> bit u (first_bit (address x)) = b ->
  io_process_data s3 = Some (merge_bytes l u mask) -> updatedComponentsOut s3 = ∅ -> work_queue s3 = work_queue s ->
  components s3 !! c = Some y -> address y = address x -> last_event y = e_none -> io_owners y = io_owners x ->
  exists s4, handleChange sample c s3 = Ok (tt, s4) /\ completed s l c x b s4.
Proof.
  intros Hrest Lu Lm Hm Bu D3 O3 W3 Hy Ea Ee Eo.
  destruct Hrest as [_ _ _ _ _ _ _ _ _ _ _ _ H1 Hf _ [Hbit Hval]]. pose proof (first_bit_range _ _ Hf H1) as Hg0.
  set (l' := merge_bytes l u mask) in *.
  assert (Bl : forall g, 0 <= g < 8 * Z.of_nat (length l) -> bit l' g = if g =? first_bit (address x) then b else bit l g).
  { intros g Hg. subst l'. rewrite merge_bytes_bit, Hm by (done || lia).
    destruct (Z.eqb_spec g (first_bit (address x))) as [-> |]; [exact Bu | done]. }
  assert (Bl0 : bit l' (first_bit (address x)) = b) by (rewrite Bl, Z.eqb_refl by lia; done).
  assert (Ll : length l' = length l) by (by apply merge_bytes_length).
  destruct (handleChange_bit s3 l' c y) as (ms & s4 & R4 & W4 & M4 & C4 & D4 & O4); rewrite ?Ea, ?Ll, ?Bl0; try done.
  rewrite Ea, Eo, Bl0 in M4. rewrite Ea, Bl0 in C4. exists s4. split; [done |]. exists l', (set_value (flag b) y), ms.
  do 2 (split; [done |]). split; [exact C4 |]. unfold isOn, isOff. cbn. rewrite Ee, bool_decide_true by done.
  split; [by destruct b |]. split; [by destruct b |]. split; [by rewrite O4 |]. by rewrite W4, W3.
Qed.

(** Switching an output completes: from rest, the request is sent with exactly the
    bit of the output marked and set in the data; when the hardware returns what it was
    sent, the process data differ from before in that bit only, the output is known to
    be on (off), no request is left, and each owner has been told once that the output
    left the old state and once that it entered the new one, in this order. *)
Theorem switch_completes clock s l c x b : at_rest s l c x (negb b) ->
  exists up s' l' y ms, cycle clock b c s = Ok (Some up, s') /\
    (forall g, 0 <= g -> bit (u_mask up) g = (g =? first_bit (address x))) /\
    bit (u_data up) (first_bit (address x)) = b /\
    io_process_data s' = Some l' /\
    (forall g, 0 <= g < 8 * Z.of_nat (length l) -> bit l' g = if g =? first_bit (address x) then b else bit l g) /\
    components s' !! c = Some y /\ isOn y = b /\ isOff y = negb b /\ updatedComponentsOut s' = ∅ /\
    work_queue s' = work_queue s ++ ms /\
    map (fun p => (receiver p, text (message p))) ms =
      map (fun o => (Some o, leave_text (negb b))) (io_owners x) ++ map (fun o => (Some o, enter_text b)) (io_owners x).
Proof.
  intros Hrest. destruct (switch_sends s l c x b Hrest) as (up & s1 & R1 & Hso & Lu & Lm & Hu & Hmb & Hm & Bu).
  destruct (sent_returns clock s l c x b _ (u_data up) (u_mask up) Hrest Hso Lu Lm Hu Hmb Hm Bu)
    as (s3 & y & R3 & D3 & O3 & W3 & Hy & Ea & Ee & Eo).
  destruct (returned_told s l c x b s3 y _ _ Hrest Lu Lm Hm Bu D3 O3 W3 Hy Ea Ee Eo) as (s4 & R4 & l' & z & ms & Hc).
  exists up, s4, l', z, ms. split; [|done].
  unfold cycle. unfold sbind at 1 in R1. unfold sbind at 1. destruct (switch b c s) as [[[] s0] | |]; [|done | done].
  cbn in R1 |- *. rewrite (sbind_run _ _ _ _ _ R1), Lu. unfold updatesSent. rewrite put_run.
  rewrite (sbind_run _ _ _ _ _ R3), elements_singleton. cbn [io_fold].
  rewrite (sbind_run _ _ s3 tt s4) by (by rewrite (sbind_run _ _ _ _ _ R4)). done.
Qed.
End Cycle.

(** Little endian, as on the bus. *)
#[export] Instance little_endian : Ecrt := {
  ec_read_u16 b0 b1 := b0 + b1 * 256;
  ec_write_u16 v := (v mod 256, v / 256);
  ec_read_u32 b0 b1 b2 b3 := b0 + b1 * 256 + b2 * 65536 + b3 * 16777216;
  ec_write_u32 v := (v mod 256, v / 256 mod 256, v / 65536 mod 256, v / 16777216)
}.
#[export] Instance little_endian_laws : EcrtLaws.
Proof.
  split; intros v Hv; cbn.
  - rewrite (Z.div_mod v 256) at 3 by lia. lia.
  - change 65536 with (256 * 256). change 16777216 with (256 * 256 * 256). rewrite <- !Z.div_div by lia.
    pose proof (Z.div_mod v 256 ltac:(lia)). pose proof (Z.div_mod (v / 256) 256 ltac:(lia)).
    pose proof (Z.div_mod (v / 256 / 256) 256 ltac:(lia)). lia.
Qed.

Definition valve : IOComponent :=
  mkIO COutput (IOAddress_new 0 0 3 0 1 false) 3 e_none None None 0 (Some DirOutput) "valve" [10%positive; 11%positive].
Definition drive : IOComponent :=
  mkIO CAnalogueOutput (IOAddress_new 0 1 0 1 16 false) 8 e_none None None 0 (Some DirOutput) "drive" [12%positive].
Definition blank : IOState :=
  mkIOState (<[1%positive := valve]> {[2%positive := drive]}) [1%positive; 2%positive] ∅ 0 0 None None None None None
    (Some []) 0 0 0 [] [] ∅ ∅ ∅ false s_operational [] ∅ 0.
Definition ready_io : IOState := match setupIOMap blank with Ok (_, s) => s | _ => blank end.
Definition zeros : bytes := [0; 0; 0].

Lemma blank_cases c x : at_hand blank c x -> (c = 1%positive /\ x = valve) \/ (c = 2%positive /\ x = drive).
Proof.
  intros [Hc Hx]. change (processing_queue blank) with [1%positive; 2%positive] in Hc.
  rewrite !elem_of_cons, elem_of_nil in Hc. destruct Hc as [-> | [-> | []]]; vm_compute in Hx; [left | right]; by simplify_eq.
Qed.
Lemma valve_aligned : aligned (address valve).
Proof. split; cbn; lia. Qed.
Lemma drive_aligned : aligned (address drive).
Proof. split; cbn; [lia | lia |]. right. done. Qed.
Lemma valve_fits : fits 3 (address valve).
Proof. by apply aligned_fits; [apply valve_aligned |]. Qed.
Lemma drive_fits : fits 3 (address drive).
Proof. by apply aligned_fits; [apply drive_aligned |]. Qed.
Lemma zeros_byte : Forall byte zeros.
Proof. apply (zeros_bytes 3). Qed.


(** The bit of the valve. *)
Definition valve_mask : bytes := put_at true 3 zeros.
Lemma valve_mask_bit g : 0 <= g -> bit valve_mask g = (g =? first_bit (address valve)).
Proof.
  intros Hg. unfold valve_mask. rewrite put_at_bit; [|apply zeros_byte | cbn; lia | done].
  change (first_bit (address valve)) with 3. destruct (g =? 3); [done |]. apply (bit_zeros 3).
Qed.
Lemma valve_touched c : touched ready_io valve_mask c <-> c = 1%positive.
Proof. apply (touched_one ready_io valve_mask 1%positive valve); [reflexivity | by split | reflexivity | apply valve_mask_bit]. Qed.


(** The valve waits as well. *)
Definition busy_io : IOState := with_out {[1%positive]} ready_io.
Lemma busy_waiting : waiting 3 busy_io (elements (updatedComponentsOut busy_io)).
Proof.
  intros c Hc%elem_of_elements. cbn in Hc. apply elem_of_singleton in Hc as ->.
  exists valve, DirOutput. split; [reflexivity |]. split; [reflexivity |]. intros _. apply valve_fits.
Qed.
Lemma value_reaches_update_w : exists u s' y,
  (run! set_output drive 2%positive 70000 in getUpdates (fun _ => true)) busy_io = Ok (Some u, s') /\
  read_value (address drive) (u_data u) = Ok 4464 /\ bit (u_mask u) (first_bit (address valve)) = true /\
  bit (u_mask u) (first_bit (address drive)) = true /\ components s' !! 2%positive = Some y /\ pending_value y = Some 70000.
Proof.
  destruct (value_reaches_update (fun _ => true) busy_io zeros 2%positive drive 3 70000)
    as (u & s' & y & R & V & _ & Hm & Y & P & _); try reflexivity.
  - apply zeros_byte.
  - exact busy_waiting.
  - by exists DirOutput.
  - apply drive_fits.
  - cbn. set_solver.
  - exists u, s', y. split; [exact R |]. split; [exact V |]. split; [|split; [|split; [exact Y | exact P]]].
    + apply Hm; [by vm_compute |]. right. exists 1%positive, valve. split; [apply elem_of_elements; cbn; set_solver |].
      split; [reflexivity |]. split; [discriminate | reflexivity].
    + apply Hm; [by vm_compute |]. left. reflexivity.
Defined.

Lemma valve_at_rest : at_rest ready_io zeros 1%positive valve false.
Proof.
  split; try reflexivity; [apply zeros_byte | split; [apply zeros_byte | reflexivity] | eexists; reflexivity
    | split; reflexivity | apply valve_fits | split; reflexivity].
Qed.
Lemma switch_completes_w : exists up s' y ms,
  cycle (fun _ => true) (fun _ v => sret v) 7 true 1%positive ready_io = Ok (Some up, s') /\
  components s' !! 1%positive = Some y /\ isOn y = true /\ work_queue s' = work_queue ready_io ++ ms /\
  map (fun p => (receiver p, text (message p))) ms =
    [(Some 10%positive, "off_leave"); (Some 11%positive, "off_leave");
     (Some 10%positive, "on_enter"); (Some 11%positive, "on_enter")].
Proof.
  destruct (switch_completes (fun _ => true) (fun _ v => sret v) 7 ready_io zeros 1%positive valve true valve_at_rest)
    as (up & s' & l' & y & ms & R & _ & _ & _ & _ & C & On & _ & _ & W & M).
  exists up, s', y, ms. split; [exact R |]. split; [exact C |]. split; [exact On |]. split; [exact W | exact M].
Defined.
