(* ===== verification/MachineActions.v ===== *)
(** The actions that act on other machines (SetStateAction.cpp, CallMethodAction.cpp,
    SendMessageAction.cpp, HandleMessageAction.cpp, ExecuteMessageAction.cpp,
    EnableAction.cpp, DisableAction.cpp, ResumeAction.cpp, ShutdownAction.cpp).

    The fields of an action that its class adds are passed in and, where the method
    changes them, returned. The texts of error messages are abbreviated. *)
From S2P Require Import Prelude Cnum Tokeniser Value SymbolTable Message Handlers Machine StableStates Modbus Transitions Control.
Open Scope Z_scope.
Local Open Scope sm_scope.

(** What the actions ask of the machine they run on, its [owner]: the machine of a
    name ([MachineInstance::lookup]), the value of a name ([getValue]), a predicate and
    a condition, the handler of a package ([findHandler]), the completion message
    ([prepareCompletionMessage]), the timer of the rules of a state
    ([scheduleTimerEvents] over the rules of the class), the transitions of a machine
    with their flag [abort_on_failure], and a channel of a type. *)
Class Scope := {
  lookup_machine : ptr -> string -> TM (option ptr);
  value_in : ptr -> string -> TM Value;
  predicate_value : nat -> ptr -> TM Value;
  condition_value : nat -> ptr -> TM bool;
  handler_for : ptr -> Package -> TM (option ptr);
  prepare_completion : ptr -> option ptr -> string -> TM unit;
  class_timer : ptr -> string -> TM (option (Z * string));
  transition_table : ptr -> list (Transition * bool);
  channel_of_type : string -> TM (option ptr)
}.

Section Actions.
Variable tk : ClockworkToken.
Context `{DynEnv} `{!Reactions} `{!Hub} `{!Virtuals} `{!Scope}.

Definition owner_of (a : ptr) : TM ptr := let! x := on_heap (get_action a) in sret (a_owner x).
Definition begin (a o : ptr) : TM unit := on_heap (start tk a o).
Definition halt (a o : ptr) : TM unit := on_heap (stop tk a o).
Definition put_status (st : Status) (a : ptr) : TM unit := on_heap (set_st st a).
Definition status_of (a : ptr) : TM Status := on_heap (get_status a).
(** [status = st; owner->stop (this); return status]. *)
Definition done (st : Status) (a o : ptr) : TM Status := on_heap (finish tk st a o).
(** [status = st; cleanupTrigger (); owner->stop (this); return status]. *)
Definition done_clean (st : Status) (a o : ptr) : TM Status :=
  run! put_status st a in run! on_heap (cleanupTrigger a) in run! halt a o in status_of a.
(** [status = st; if (status is final) owner->stop (this); return status]. *)
Definition settled (st : Status) (a o : ptr) : TM Status := on_heap (settle tk st a o).
Definition fail_text (txt : string) (a : ptr) : TM unit := on_heap (upd_action a (set_error txt)).
Definition set_error_msg x a := mkAction (a_refs a) (a_owner a) (error_str a) (status a) (saved_status a)
  (blocked a) (trigger a) (started_ a) (aborted_ a) (timeout_msg a) x (body a).

(** [MachineInstance::setupTrigger]. *)
Definition setupTrigger (o : ptr) (machine_name message suffix : string) : TM ptr :=
  on_heap (Trigger_new (Some (OwnMachine o)) (machine_name +:+ "." +:+ message +:+ suffix)%string).
(** [setTrigger (owner->setupTrigger (...))]. *)
Definition await (o a : ptr) (machine_name message suffix : string) : TM unit :=
  let! t := setupTrigger o machine_name message suffix in on_heap (setTrigger (Some t) a).

(** ** SET and MOVE *)
Record SetStateFields := mkSetState {
  ss_target : string;
  ss_saved : Value;
  ss_new : Value;
  ss_value : State;
  ss_machine : option ptr;
  ss_expr : option nat;
  ss_authority : Z
}.
Definition with_new v f := mkSetState (ss_target f) (ss_saved f) v (ss_value f) (ss_machine f) (ss_expr f) (ss_authority f).
Definition with_value st f := mkSetState (ss_target f) (ss_saved f) (ss_new f) st (ss_machine f) (ss_expr f) (ss_authority f).
Definition with_machine m f := mkSetState (ss_target f) (ss_saved f) (ss_new f) (ss_value f) m (ss_expr f) (ss_authority f).

Definition is_name (v : Value) : bool := Kind_eqb (kind v) t_symbol || Kind_eqb (kind v) t_string.
(** [MachineInstance::hasState]. *)
Definition hasState (m : ptr) (name : string) : TM bool :=
  let! st := tokenise (State_new name) in
  let! x := machine m in
  let! s := get_site m in
  match state_machine x with
  | None => run! record (ELog m) in sret false
  | Some _ => sret (bool_decide (is_Some (findState st (class_states s))))
  end.
(** The state that is sought: a name that is no state of the machine may be a property
    of the owner that holds the name. [None] if the action fails. *)
Definition seek_state (m o a : ptr) (f : SetStateFields) : TM (SetStateFields * option unit) :=
  let! st := tokenise (State_new (sValue (ss_new f))) in
  let f := with_value st f in
  let! known := hasState m (sValue (ss_new f)) in
  if known : bool then sret (f, Some tt) else
  let! deref := value_in o (sValue (ss_new f)) in
  let? some_value := value_ne deref Null in
  if some_value : bool then
    if negb (is_name deref) then
      run! fail_text "must be a symbol or string" a in run! record (ELog o) in sret (f, None)
    else
      let! known := hasState m (sValue deref) in
      if negb known then run! record (ELog o) in run! fail_text "does not have a state" a in sret (f, None)
      else
        let! st := tokenise (State_new (sValue deref)) in
        let! v := tokenise (Value_str (s_text st) t_symbol) in
        sret (with_new v (with_value st f), Some tt)
  else run! record (ELog m) in sret (f, Some tt).

(** A machine with a device: the device is asked to switch. *)
Definition switch_device (m io o a : ptr) (st : State) : TM Status :=
  if bool_decide (io_state io = s_text st) then done_clean Complete a o else
  let! x := machine m in
  let! on := tokenise (State_new "on") in
  if state_eq st on then
    run! record (EDevice io IOTurnOn) in
    run! put_status Running a in
    run! await o a (m_name x) (s_text st) "" in status_of a
  else
  let! off := tokenise (State_new "off") in
  if state_eq st off then
    run! record (EDevice io IOTurnOff) in
    run! put_status Running a in
    run! await o a (m_name x) (s_text st) "" in status_of a
  else done Failed a o.

(** What the table of transitions says about the change. *)
Inductive Choice := Manual | Answer (st : Status).
Fixpoint use_transition (m o a : ptr) (current : State) (st : State) (l : list (Transition * bool)) : TM Choice :=
  match l with
  | [] => sret Manual
  | (t, abort_on_failure) :: l' =>
      if (state_eq (Handlers.source t) current || bool_decide (s_text (Handlers.source t) = "ANY")) &&
         (state_eq (dest t) st || bool_decide (s_text (dest t) = "ANY")) then
        let! ok := (match Handlers.condition t with None => sret true | Some c => condition_value c o end) in
        if ok : bool then
          if bool_decide (Message.text (tr_trigger t) = "NOTRIGGER") then sret Manual else
          let! msg := new_message (Message.text (tr_trigger t)) SIMPLEMSG in
          let! r := execute_message tk m msg (Some m) in
          run! put_status r a in
          run! (match r with Failed => fail_text "failed to execute transition" a | _ => sret tt end) in
          let! top := on_heap (executingCommand o) in
          run! (if negb (bool_decide (r = Running)) && negb (bool_decide (r = Suspended)) && bool_decide (top = Some a)
                then run! on_heap (cleanupTrigger a) in halt a o else sret tt) in
          let! r' := status_of a in sret (Answer r')
        else
          run! fail_text "transition denied" a in
          run! record (ELog o) in
          if abort_on_failure then
            let! aa := on_heap (Action_new o None (BAbort true (value_text "transition denied"))) in
            run! on_heap (enqueueAction aa o) in
            run! put_status Failed a in sret (Answer Failed)
          else run! put_status New a in run! needs_check tk o in sret (Answer NeedsRetry)
      else use_transition m o a current st l'
  end.
(** The timers of the rules of the owner, once the change is complete. *)
Definition schedule_state (o : ptr) (state : string) : TM unit :=
  let! t := class_timer o state in
  match t with
  | None => sret tt
  | Some (delay, label) =>
      let! tr := on_heap (Trigger_new None label) in
      let! fta := on_heap (FireTriggerAction_new o tr) in
      run! on_heap (emit (ScheduleAction delay fta)) in
      on_heap (trigger_release tr)
  end.
Definition manual_change (m o a : ptr) (f : SetStateFields) : TM Status :=
  let! r := setState tk m (ss_value f) (ss_authority f) false in
  run! put_status r a in
  run! on_heap (cleanupTrigger a) in
  run! (if is_final r then halt a o
        else let! n := mname m in
             let! t := setupTrigger o n (s_text (ss_value f)) "" in on_heap (upd_action a (set_atrigger (Some t)))) in
  run! (match r with
        | Failed => fail_text "setState failed" a
        | Complete => run! halt a o in schedule_state o (sValue (ss_new f))
        | _ => sret tt
        end) in
  status_of a.
Definition executeStateChange (use_transitions : bool) (f : SetStateFields) (a : ptr) : TM (SetStateFields * Status) :=
  let! o := owner_of a in
  let! v := (match kind (ss_saved f), ss_expr f with
             | t_empty, Some e => predicate_value e o
             | t_empty, None => sret (ss_new f)
             | _, _ => sret (ss_saved f)
             end) in
  let! st := tokenise (State_new (sValue v)) in
  let f := with_value st (with_new v f) in
  run! begin a o in
  let? _text := asString v in
  if negb (is_name v) then
    run! fail_text "must be a symbol or string" a in
    run! on_heap (upd_action a (set_error_msg (Some "InvalidStableStateException"))) in
    let! r := done_clean Failed a o in sret (f, r)
  else
  let! k := lookup_machine o (ss_target f) in
  let f := with_machine k f in
  match k with
  | None => run! fail_text "failed to find machine" a in let! r := done Failed a o in sret (f, r)
  | Some m =>
      let! sought := seek_state m o a f in
      let f := fst sought in
      match snd sought with
      | None => let! r := done_clean Failed a o in sret (f, r)
      | Some _ =>
          let! s := get_site m in
          match io_interface s with
          | Some io => let! r := switch_device m io o a (ss_value f) in sret (f, r)
          | None =>
              if state_eq (Transitions.current_state s) (ss_value f) then let! r := done_clean Complete a o in sret (f, r) else
              let! c := (if use_transitions
                         then use_transition m o a (Transitions.current_state s) (ss_value f) (transition_table m)
                         else sret Manual) in
              match c with
              | Answer r => sret (f, r)
              | Manual => let! r := manual_change m o a f in sret (f, r)
              end
          end
      end
  end.
Definition SetStateAction_run : SetStateFields -> ptr -> TM (SetStateFields * Status) := executeStateChange true.
Definition MoveStateAction_run : SetStateFields -> ptr -> TM (SetStateFields * Status) := executeStateChange false.

(** [trigger->fired ()]: whether the trigger of the action is there and has fired. *)
Definition has_fired (a : ptr) : TM bool :=
  let! x := on_heap (get_action a) in
  match trigger x with
  | None => sret false
  | Some t => let! y := on_heap (get_trigger t) in sret (seen y)
  end.
(** The change is there: the trigger is fired if it still waits. *)
Definition reached (a o : ptr) : TM unit :=
  run! put_status Complete a in
  let! x := on_heap (get_action a) in
  run! (match trigger x with
        | None => sret tt
        | Some t =>
            let! y := on_heap (get_trigger t) in
            run! (if is_active y && negb (seen y) then on_heap (fire tk t) else sret tt) in
            on_heap (cleanupTrigger a)
        end) in
  halt a o.
Definition SetStateAction_checkComplete (f : SetStateFields) (a : ptr) : TM (SetStateFields * Status) :=
  let! o := owner_of a in
  let! st := status_of a in
  let! f := (match st with
             | New | NeedsRetry => let! r := executeStateChange true f a in sret (fst r)
             | _ => sret f
             end) in
  let! st := status_of a in
  run! (match st with Suspended => on_heap (resume tk a) | _ => sret tt end) in
  let! st := status_of a in
  if negb (bool_decide (st = Complete)) && negb (bool_decide (st = Running)) then sret (f, st) else
  let! fired := has_fired a in
  if fired : bool then let! r := done_clean Complete a o in sret (f, r) else
  let? m := rd (ss_machine f) in
  let! s := get_site m in
  match io_interface s with
  | Some io =>
      if bool_decide (s_text (ss_value f) = io_state io)
      then run! reached a o in let! r := status_of a in sret (f, r)
      else let! r := status_of a in sret (f, r)
  | None =>
      if bool_decide (s_text (Transitions.current_state s) = s_text (ss_value f))
      then run! reached a o in run! notifyDependents_check tk o in let! r := status_of a in sret (f, r)
      else let! r := status_of a in sret (f, r)
  end.

(** [SetIOStateAction]. *)
Definition SetIOStateAction_run (io : ptr) (state : State) (a : ptr) : TM Status :=
  let! o := owner_of a in
  run! begin a o in
  if bool_decide (s_text state = io_state io) then done Complete a o
  else if bool_decide (s_text state = "on") then
    run! record (EDevice io IOTurnOn) in run! put_status Running a in status_of a
  else if bool_decide (s_text state = "off") then
    run! record (EDevice io IOTurnOff) in run! put_status Running a in status_of a
  else done Failed a o.
Definition SetIOStateAction_checkComplete (io : ptr) (state : State) (authority : Z) (a : ptr) : TM Status :=
  let! o := owner_of a in
  let! st := status_of a in
  if is_final st then run! halt a o in status_of a
  else match st with
  | Running | Suspended =>
      if bool_decide (s_text state = io_state io)
      then let! r := setState tk o state authority false in settled r a o
      else sret st
  | _ => sret st
  end.

(** ** CALL *)
Definition sendMessage (o : ptr) (txt : string) (r : ptr) (expect_reply : bool) : TM unit :=
  let! msg := new_message txt SIMPLEMSG in sendMessageToReceiver o msg r expect_reply.
(** The trigger is missing, has fired or is disabled. *)
Definition no_wait (a : ptr) : TM bool :=
  let! x := on_heap (get_action a) in
  match trigger x with
  | None => sret true
  | Some t => let! y := on_heap (get_trigger t) in sret (seen y || negb (is_active y))
  end.
Definition CallMethodAction_run (message target : string) (a : ptr) : TM (option ptr * Status) :=
  let! o := owner_of a in
  run! begin a o in
  let! k := lookup_machine o target in
  match k with
  | None => run! record (ELog o) in run! fail_text "failed to find machine" a in sret (k, Failed)
  | Some m =>
      if bool_decide (m = o) then
        let! msg := new_message message SIMPLEMSG in
        let! r := execute_message tk o msg (Some m) in
        run! put_status r a in
        run! (match r with Complete => halt a o | _ => sret tt end) in
        let! r' := status_of a in sret (k, r')
      else
      let! x := machine m in
      if is_enabled x then
        let! free := no_wait a in
        run! (if free : bool
              then run! await o a (m_name x) message "_done" in sendMessage o message m true
              else record (ELog o)) in
        run! put_status Running a in
        let! r := status_of a in sret (k, r)
      else
        run! record (ELog o) in
        run! put_status Failed a in
        run! fail_text "call to disabled machine" a in
        let! r := status_of a in sret (k, r)
  end.
Definition CallMethodAction_checkComplete (message target : string) (k : option ptr) (a : ptr) : TM (option ptr * Status) :=
  let! o := owner_of a in
  let! st := status_of a in
  if is_final st then sret (k, st) else
  let! again := (match st with
                 | New => let! r := CallMethodAction_run message target a in sret (fst r, bool_decide (snd r = New))
                 | _ => sret (k, false)
                 end) in
  let k := fst again in
  let! st := status_of a in
  if snd again then sret (k, st) else
  let! x := on_heap (get_action a) in
  let! waits := (match trigger x with None => sret false | Some t => let! y := on_heap (get_trigger t) in sret (negb (seen y)) end) in
  match st with
  | New =>
      run! (if waits : bool then sret tt
            else let? m := rd k in
                 let! n := mname m in
                 run! await o a n message "_done" in
                 run! sendMessage o message m true in put_status Running a) in
      let! r := status_of a in sret (k, r)
  | _ =>
      if waits : bool then
        let? _u := assert (bool_decide (st = Running)) in sret (k, st)
      else let! r := done Complete a o in sret (k, r)
  end.

(** ** SEND *)
Definition entries_of (s : Site) : list (option ptr) :=
  if bool_decide (_type s = "LIST") then s_parameters s
  else if bool_decide (_type s = "REFERENCE") then s_locals s else [].
Fixpoint send_entries (o : ptr) (txt : string) (l : list (option ptr)) : TM unit :=
  match l with
  | [] => sret tt
  | None :: l' => send_entries o txt l'
  | Some e :: l' => run! sendMessage o txt e false in send_entries o txt l'
  end.
Definition message_text (o : ptr) (message : Value) : TM string :=
  match kind message with
  | t_symbol =>
      let! v := value_in o (sValue message) in
      let? some_value := value_ne v Null in
      slift (asString (if some_value : bool then v else message))
  | _ => slift (asString message)
  end.
Definition SendMessageAction_run (message target : Value) (a : ptr) : TM Status :=
  let! o := owner_of a in
  run! begin a o in
  let? addressed := value_ne target (Value_int 0) in
  run! (if addressed : bool then
          let! found := (if is_name target then lookup_machine o (sValue target) else sret None) in
          let! k := (match found with
                     | Some m => sret (Some m)
                     | None => let? name := asString target in channel_of_type name
                     end) in
          match k with
          | Some m =>
              let! txt := message_text o message in
              run! sendMessage o txt m false in
              let! s := get_site m in
              let! x := machine m in
              run! (if is_enabled x then send_entries o txt (entries_of s) else sret tt) in
              put_status Complete a
          | None => run! record (ELog o) in put_status Failed a
          end
        else
          let? txt := asString message in
          let! msg := new_message txt SIMPLEMSG in
          deliver (mkPackage (Some o) None msg false)) in
  run! halt a o in status_of a.
Definition SendMessageAction_checkComplete (a : ptr) : TM Status := sret Complete.

(** ** Handling and executing messages *)
Definition HandleMessageAction_run (p : Package) (a : ptr) : TM (option ptr * Status) :=
  let! o := owner_of a in
  run! begin a o in
  let! s := get_site o in
  if match io_interface s, transmitter p with Some io, Some t => bool_decide (t = io) | _, _ => false end then
    let! sent := execute_message tk o (message p) (transmitter p) in
    run! put_status (match sent with Failed => Failed | _ => Complete end) a in
    run! halt a o in
    run! (if needs_receipt p then prepare_completion o None (Message.text (message p)) else sret tt) in
    let! r := status_of a in sret (None, r)
  else
  let! h := handler_for o p in
  match h with
  | Some h =>
      run! on_heap (suspend a) in
      let! stat := on_heap (start_action h) in
      match stat with
      | Failed => run! fail_text "handler failed to start" a in let! r := done Failed a o in sret (Some h, r)
      | Running | Suspended => run! put_status stat a in let! r := status_of a in sret (Some h, r)
      | _ =>
          run! (match stat with Complete => halt a o | _ => sret tt end) in
          run! put_status stat a in let! r := status_of a in sret (Some h, r)
      end
  | None => let! r := done Complete a o in sret (None, r)
  end.
Definition HandleMessageAction_checkComplete (handler : option ptr) (a : ptr) : TM Status :=
  let! o := owner_of a in
  let! st := status_of a in
  if is_final st then sret st else
  run! (match st with Suspended => on_heap (resume tk a) | _ => sret tt end) in
  let! st := status_of a in
  run! (match handler, st with
        | Some h, Running =>
            let! _c := on_heap (complete h) in
            let! r := status_of h in put_status r a
        | _, _ => sret tt
        end) in
  let! st := status_of a in
  run! (if is_final st then halt a o else sret tt) in status_of a.

Definition ExecuteMessageAction_run (message target : string) (k : option ptr) (a : ptr) : TM (option ptr * Status) :=
  let! o := owner_of a in
  run! begin a o in
  let! k := (match k with Some m => sret (Some m) | None => lookup_machine o target end) in
  match k with
  | Some m =>
      let! msg := new_message message SIMPLEMSG in
      let! r := execute_message tk m msg (Some o) in
      let! r' := settled r a o in sret (k, r')
  | None => let! r := done Failed a o in sret (k, r)
  end.
(** The message is executed again; the action leaves the stack if that goes on. *)
Definition ExecuteMessageAction_checkComplete (message : string) (k : option ptr) (a : ptr) : TM Status :=
  let! o := owner_of a in
  let? m := rd k in
  let! msg := new_message message SIMPLEMSG in
  let! r := execute_message tk m msg (Some o) in
  run! put_status r a in
  run! (match r with Running | Suspended => halt a o | _ => sret tt end) in
  status_of a.

(** ** ENABLE, DISABLE, RESUME and SHUTDOWN *)
(** [d]: how deep machines are nested. *)
Variable d : nat.
Fixpoint enable_each (o a : ptr) (l : list (string * option ptr)) (st : Status) : TM (list (string * option ptr) * Status) :=
  match l with
  | [] => sret ([], st)
  | (name, known) :: l' =>
      let! k := (match known with Some m => sret (Some m) | None => lookup_machine o name end) in
      let! st := (match k with
                  | Some m => run! enable_n tk d m in sret st
                  | None => run! record (ELog o) in run! fail_text "cannot find" a in sret Failed
                  end) in
      let! r := enable_each o a l' st in sret ((name, k) :: fst r, snd r)
  end.
Definition EnableAction_run (machines : list (string * option ptr)) (a : ptr) : TM (list (string * option ptr) * Status) :=
  let! o := owner_of a in
  run! begin a o in
  run! put_status Complete a in
  let! r := enable_each o a machines Complete in
  let! st := done (snd r) a o in sret (fst r, st).
Definition DisableAction_run (machine_name : string) (a : ptr) : TM Status :=
  let! o := owner_of a in
  run! begin a o in
  let! k := lookup_machine o machine_name in
  match k with
  | Some m => run! disable_n tk d m in done Complete a o
  | None => run! record (ELog o) in run! fail_text "cannot find" a in done Failed a o
  end.
Definition ResumeAction_run (machine_name resume_to : string) (a : ptr) : TM Status :=
  let! o := owner_of a in
  run! begin a o in
  if bool_decide (machine_name = "ALL") then run! resumeAll tk d o in done Complete a o else
  let! k := lookup_machine o machine_name in
  match k with
  | Some m =>
      let! x := machine m in
      let! s := get_site m in
      match state_machine x with
      | None => run! record (ELog o) in run! fail_text "no state machine" a in run! put_status Failed a in status_of a
      | Some _ =>
          if bool_decide (resume_to = "") then run! resume_n tk d m in done Complete a o else
          match findState_name resume_to (class_states s) with
          | None => run! record (ELog o) in run! fail_text "no state machine" a in run! put_status Failed a in status_of a
          | Some st => run! resume_state tk d m st in done Complete a o
          end
      end
  | None => run! fail_text "cannot find machine" a in run! put_status Failed a in status_of a
  end.
(** The common [checkComplete] of ENABLE, DISABLE and RESUME. *)
Definition plain_checkComplete (a : ptr) : TM Status := on_heap (when_on_top a (finish tk Complete a)).
(** SHUTDOWN: the answer says that the program is done. *)
Definition ShutdownAction_run (a : ptr) : TM (bool * Status) :=
  let! o := owner_of a in run! begin a o in let! r := done Complete a o in sret (true, r).
Definition ShutdownAction_checkComplete (a : ptr) : TM Status := run! put_status Complete a in status_of a.
End Actions.
