(* ===== verification/MachineActionsProps.v ===== *)
(** The actions that act on other machines: a CALL ends with the answer of the machine
    that was called, a SEND reaches every entry of a list.
    A lamp that calls a method of a door, sends to a list and sets the door: the
    theorems on these actions applied. *)
From S2P Require Import Prelude Cnum Tokeniser Value SymbolTable Message Machine MachineProps Handlers StableStates Control ControlProps Modbus Transitions TransitionsProps TransitionOrder DispatchProps MachineActions.
Open Scope Z_scope.
Local Open Scope sm_scope.

(** ** The parts of the state *)
Definition heap_to (w : World) (s : TWorld) : TWorld :=
  mkTWorld w (sites s) (rules s) (toks s) (key_words s) (sequence s) (to_deliver s) (log s).
Lemma on_heap_run {A} (c : M A) s a w : c (tw s) = Ok (a, w) -> on_heap c s = Ok (a, heap_to w s).
Proof. intros E. unfold on_heap. by rewrite E. Qed.
Lemma heap_to_id s : heap_to (tw s) s = s.
Proof. by destruct s. Qed.
Lemma owner_of_run a y s : actions (tw s) !! a = Some y -> owner_of a s = Ok (a_owner y, s).
Proof. intros E. unfold owner_of. by rewrite (sbind_run _ _ s y s) by (by apply on_heap_id, get_action_run). Qed.
Lemma status_of_run a y s : actions (tw s) !! a = Some y -> status_of a s = Ok (status y, s).
Proof. intros E. apply on_heap_id. unfold get_status. by heap_step. Qed.
Lemma action_run a y s : actions (tw s) !! a = Some y -> on_heap (get_action a) s = Ok (y, s).
Proof. intros E. by apply on_heap_id, get_action_run. Qed.
Lemma put_status_run st a y s : actions (tw s) !! a = Some y ->
  put_status st a s = Ok (tt, heap_to (with_actions (<[a := set_status st y]> (actions (tw s))) (tw s)) s).
Proof. intros E. apply on_heap_run. unfold set_st. by erewrite upd_action_run. Qed.

Lemma dot_not_empty n m : (n +:+ "." +:+ m)%string <> "".
Proof. by destruct n. Qed.

Section Calls.
Context (tk : ClockworkToken) `{DynEnv} `{!Reactions} `{!Hub} `{!Virtuals} `{!Scope}.

(** ** CALL *)
(** The name of the trigger a call waits for. *)
Definition done_event (name message : string) : string := (name +:+ "." +:+ message +:+ "_done")%string.
(** The call [a] of the machine [o] waits for its answer: it is on top of the stack
    [l ++ [a]], runs, and holds a trigger for the answer. *)
Record calling (a o t : ptr) (x : Machine) (y : Action) (l : list ptr) (event : string) (B : Z) (s : TWorld) : Prop := {
  cg_fit : fit a o x y B (tw s);
  cg_stack : active_actions x = l ++ [a] /\ a ∉ l;
  cg_enabled : is_enabled x = true;
  cg_status : status y = Running;
  cg_trigger : trigger y = Some t;
  cg_waits : triggers (tw s) !! t = Some (mkTrigger event false (Some (OwnAction a)) 1 true [a]);
  cg_others b : b ∈ l -> exists z, actions (tw s) !! b = Some z /\ trigger z = None
}.

(** The trigger is set on an action without one. *)
Lemma setTrigger_fresh a y t z w : actions w !! a = Some y -> trigger y = None -> triggers w !! t = Some z ->
  setTrigger (Some t) a w = Ok (tt, with_actions (<[a := set_atrigger (Some t) y]> (actions w))
    (with_triggers (<[t := set_towner (Some (OwnAction a)) (set_holders (holders z ++ [a]) z)]> (triggers w)) w)).
Proof.
  intros Ea Et Ez. unfold setTrigger. heap_step. rewrite Et, bool_decide_false by done.
  rewrite (sbind_run (cleanupTrigger a) _ w tt w) by (unfold cleanupTrigger; heap_step; by rewrite Et).
  unfold addHolder. heap_step. heap_step. erewrite upd_action_run by look. do 2 f_equal.
  unfold with_actions, with_triggers. cbn. by rewrite insert_insert_eq.
Qed.
Lemma await_run o a y s n msg suffix : actions (tw s) !! a = Some y -> trigger y = None ->
  let t := fresh (dom (triggers (tw s)) : gset ptr) in
  await o a n msg suffix s = Ok (tt, heap_to
    (with_actions (<[a := set_atrigger (Some t) y]> (actions (tw s)))
      (with_triggers (<[t := mkTrigger (n +:+ "." +:+ msg +:+ suffix)%string false (Some (OwnAction a)) 1 true [a]]>
         (triggers (tw s))) (tw s))) s).
Proof.
  intros Ea Et t. unfold await, setupTrigger, Trigger_new.
  set (z := mkTrigger (n +:+ "." +:+ msg +:+ suffix)%string false (Some (OwnMachine o)) 1 true []).
  set (w1 := with_triggers (<[t := z]> (triggers (tw s))) (tw s)).
  rewrite (sbind_run _ _ s t (heap_to w1 s)) by (by apply on_heap_run).
  erewrite on_heap_run by (apply (setTrigger_fresh a y t z); [done | done | apply lookup_insert_eq]).
  unfold heap_to, with_actions, with_triggers. cbn. by rewrite insert_insert_eq.
Qed.

(** Sending to a machine of this program that is enabled. *)
Definition sent_by (o k : ptr) (txt : string) (reply : bool) (n : Z) : Package :=
  mkPackage (Some o) (Some k) (mkMessage SIMPLEMSG n txt None) reply.
Lemma sendMessage_run o k txt reply sk xk s : sites s !! k = Some sk -> shadow sk = false ->
  machines (tw s) !! k = Some xk -> is_enabled xk = true ->
  sendMessage o txt k reply s = Ok (tt, mkTWorld (tw s) (sites s) (rules s) (toks s) (key_words s) (u64 (sequence s + 1))
    (to_deliver s ++ [sent_by o k txt reply (u64 (sequence s + 1))]) (log s)).
Proof.
  intros Es Hs Ex He. unfold sendMessage.
  set (s1 := mkTWorld (tw s) (sites s) (rules s) (toks s) (key_words s) (u64 (sequence s + 1)) (to_deliver s) (log s)).
  rewrite (sbind_run _ _ s (mkMessage SIMPLEMSG (u64 (sequence s + 1)) txt None) s1) by done.
  unfold sendMessageToReceiver. rewrite (sbind_run _ _ _ _ _ (get_site_run k sk s1 Es)).
  rewrite (sbind_run _ _ _ _ _ (machine_run k xk s1 Ex)), Hs, He. done.
Qed.

Section Call.
Variables (a o k : ptr) (x xk : Machine) (y : Action) (sk : Site) (l : list ptr) (message target : string).
(** The machine that is called. *)
Record callee (s : TWorld) : Prop := {
  ce_found : forall s', lookup_machine o target s' = Ok (Some k, s');
  ce_other : k <> o;
  ce_machine : machines (tw s) !! k = Some xk;
  ce_enabled : is_enabled xk = true;
  ce_site : sites s !! k = Some sk;
  ce_here : shadow sk = false
}.
Lemma call_sends B s : fit a o x y B (tw s) -> B < INT_MAX -> started_ y = false -> trigger y = None ->
  is_enabled x = true -> begun_stack a x = l ++ [a] -> a ∉ l ->
  (forall b, b ∈ l -> exists z, actions (tw s) !! b = Some z /\ trigger z = None) -> callee s ->
  exists s1 t x1 y1, CallMethodAction_run tk message target a s = Ok ((Some k, Running), s1) /\
    to_deliver s1 = to_deliver s ++ [sent_by o k message true (u64 (sequence s + 1))] /\ sites s1 = sites s /\
    calling a o t x1 y1 l (done_event (m_name xk) message) (B + 1) s1 /\
    forall b, b <> a -> actions (tw s1) !! b = actions (tw s) !! b.
Proof.
  intros Hf HB Hst Htr Hen Hstk Hal Hoth [Hfound Hne Hxk Hken Hsk Hsh].
  destruct (start_checked tk a o x y B (tw s) Hf Hst HB) as (w1 & R1 & C1 & B1).
  destruct (fit_started a o x y B (tw s) w1 Hf C1 B1) as (x1 & F1 & Hf1).
  set (y1 := begun a x y) in *.
  assert (trigger y1 = None) as Et1 by (subst y1; unfold begun; by destruct (on_top a x)).
  pose proof (fit_action _ _ _ _ _ _ Hf1) as Ea1.
  destruct (checked_lookup _ _ k xk C1) as (xk1 & Exk1 & Fk).
  { unfold started_world. cbn. by rewrite lookup_insert_ne. }
  assert (m_name xk1 = m_name xk /\ is_enabled xk1 = true) as [En1 Ee1] by (destruct Fk as [-> _]; done).
  set (s1 := heap_to w1 s). set (t := fresh (dom (triggers (tw s1)) : gset ptr)).
  pose proof (await_run o a y1 s1 (m_name xk1) message "_done" Ea1 Et1) as R2. cbv zeta in R2. fold t in R2.
  set (s2 := heap_to _ s1) in R2.
  pose proof (sendMessage_run o k message true sk xk1 s2 Hsk Hsh Exk1 Ee1) as R3. set (s3 := mkTWorld _ _ _ _ _ _ _ _) in R3.
  assert (Ea3 : actions (tw s3) !! a = Some (set_atrigger (Some t) y1)) by apply lookup_insert_eq.
  pose proof (put_status_run Running a _ s3 Ea3) as R4. set (s4 := heap_to _ s3) in R4.
  set (y4 := set_status Running (set_atrigger (Some t) y1)) in *.
  assert (Ea4 : actions (tw s4) !! a = Some y4) by apply lookup_insert_eq.
  assert (Hacts : forall b, b <> a -> actions (tw s4) !! b = actions (tw s) !! b).
  { intros b Hb. subst s4 s3 s2 s1. cbn. rewrite !lookup_insert_ne, (ck_actions _ _ C1) by done. cbn.
    by rewrite lookup_insert_ne. }
  exists s4, t, x1, y4. split; [|split; [done | split; [done | split; [|exact Hacts]]]].
  - unfold CallMethodAction_run. rewrite (sbind_run _ _ _ _ _ (owner_of_run a y s (fit_action _ _ _ _ _ _ Hf))).
    rewrite (fit_owner _ _ _ _ _ _ Hf). unfold begin. rewrite (sbind_run _ _ s tt s1) by (by apply on_heap_run).
    rewrite (sbind_run _ _ _ _ _ (Hfound s1)), bool_decide_false by done.
    rewrite (sbind_run _ _ _ _ _ (machine_run k xk1 s1 Exk1)), Ee1.
    rewrite (sbind_run (no_wait a) _ s1 true s1)
      by (unfold no_wait; rewrite (sbind_run _ _ _ _ _ (action_run a y1 s1 Ea1)); by rewrite Et1).
    rewrite (sbind_run _ _ s1 tt s3) by (rewrite (sbind_run _ _ _ _ _ R2); exact R3).
    rewrite (sbind_run _ _ _ _ _ R4), (sbind_run _ _ _ _ _ (status_of_run a y4 s4 Ea4)). done.
  - destruct Hf1 as [Em1 _ Eow1 _ Hok1 Hb1 HB1 Hr1 Hn1]. assert (active_actions x1 = l ++ [a]) as Es1
      by (rewrite <- Hstk; by destruct F1 as [-> _]).
    split; try done.
    + split; try done.
      * intros t' [= <-]. eexists. split; [apply lookup_insert_eq |]. cbn. lia.
      * by destruct Hok1.
      * intros n Hn. destruct (Hn1 n Hn) as (z & Ez & Hz). exists z. split; [|done]. rewrite Hacts by (by eapply without_last_ne).
        rewrite (ck_actions _ _ C1) in Ez. cbn in Ez. by rewrite lookup_insert_ne in Ez by (intros <-; by apply without_last_ne in Hn).
    + by destruct F1 as [-> _].
    + cbn. unfold done_event. rewrite <- En1. apply lookup_insert_eq.
    + intros b Hb. rewrite Hacts by (by intros ->). by apply Hoth.
Qed.
End Call.

(** *** The answer *)
Lemma fit_checked a o x y B B' w w' : fit a o x y B w -> checked w w' -> bounded B' w' -> 1 <= B' ->
  exists x', mach_frame x x' /\ fit a o x' y B' w'.
Proof.
  intros [Em Ea Eo Ht Hok Hb HB Hr Hn] C Hb' HB'. destruct (checked_lookup _ _ _ _ C Em) as (x' & Ex' & F).
  assert (active_actions x' = active_actions x) as Es by (by destruct F as [-> _]).
  exists x'. split; [done |]. split; rewrite ?Es; try done.
  - by rewrite (ck_actions _ _ C).
  - intros t Et. rewrite (ck_triggers _ _ C). by apply Ht.
  - by apply (checked_ok _ _ C).
  - intros n Hn'. destruct (Hn n Hn') as (z & Ez & Hz). exists z. rewrite (ck_actions _ _ C). split; [done |].
    by apply (checked_same_owner _ _ _ C).
Qed.
Lemma calling_checked a o t x y l ev B B' s w' : calling a o t x y l ev B s -> checked (tw s) w' -> bounded B' w' -> 1 <= B' ->
  exists x', calling a o t x' y l ev B' (heap_to w' s).
Proof.
  intros [Hf [Es Hal] He Hst Ht Hz Ho] C Hb HB. destruct (fit_checked a o x y B B' (tw s) w' Hf C Hb HB) as (x' & F & Hf').
  exists x'. split; try done.
  - by destruct F as [-> _].
  - by destruct F as [-> _].
  - cbn. by rewrite (ck_triggers _ _ C).
  - intros b Hb'. cbn. rewrite (ck_actions _ _ C). by apply Ho.
Qed.
Lemma fire_triggers_quiet txt l w : (forall b, b ∈ l -> exists z, actions w !! b = Some z /\ trigger z = None) ->
  forall k, fire_triggers tk txt (l ++ k) w = fire_triggers tk txt k w.
Proof.
  induction l as [|b l IH]; intros Hq k; [done |]. destruct (Hq b ltac:(left)) as (z & Ez & Et).
  cbn [app fire_triggers]. heap_step. rewrite Et. rewrite (sbind_run (sret tt) _ w tt w) by done.
  apply IH. intros c Hc. apply Hq. by right.
Qed.
(** The trigger fires, nothing else does. *)
Definition answered (a t : ptr) (ev : string) (s : TWorld) : TWorld :=
  heap_to (with_triggers (<[t := mkTrigger ev true (Some (OwnAction a)) 1 true [a]]> (triggers (tw s))) (tw s)) s.
Lemma fire_answer a o t x y l ev B s : calling a o t x y l ev B s ->
  on_heap (fire_triggers tk ev (active_actions x)) s = Ok (tt, answered a t ev s).
Proof.
  intros [Hf [Es Hal] He Hst Ht Hz Ho]. apply on_heap_run. rewrite Es, fire_triggers_quiet by done.
  pose proof (fit_action _ _ _ _ _ _ Hf) as Ea. cbn [fire_triggers]. heap_step. rewrite Ht.
  erewrite (sbind_run _ _ _ tt); [reflexivity |]. heap_step. unfold matches. cbn [is_active t_name andb].
  rewrite bool_decide_true by done. unfold fire. heap_step. cbn [seen t_owner]. heap_step. reflexivity.
Qed.

(** The handlers of a machine answer and leave the heap of machines, actions and
    triggers alone. *)
Definition light_handlers (o : ptr) : Prop :=
  forall p s, exists st s', react o p s = Ok (st, s') /\ tw s' = tw s.
(** The machine [o] takes the answer of [k]. *)
Lemma answer_arrives a o k t x y l ev B s so msg : calling a o t x y l ev B s -> B + 1 < INT_MAX ->
  Message.text msg = ev -> has_dot ev = true -> ev <> "" -> sites s !! o = Some so ->
  io_interface so <> Some k -> mq_interface so <> Some k ->
  light_handlers o ->
  exists s2 st x2, execute_message tk o msg (Some k) s = Ok (st, s2) /\ fit a o x2 y (B + 1) (tw s2) /\
    active_actions x2 = l ++ [a] /\ triggers (tw s2) !! t = Some (mkTrigger ev true (Some (OwnAction a)) 1 true [a]) /\
    forall b, actions (tw s2) !! b = actions (tw s) !! b.
Proof.
  intros Hc HB Hmsg Hdot Hne Hso Hio Hmq Hreact. pose proof Hc as [Hf [Es Hal] He Hst Ht Hz Ho].
  destruct Hf as [Em Ea Eo Htl Hok Hb HB1 Hr Hn].
  pose proof (Hb _ _ Em) as Hx. cbn in Hx.
  destruct (setNeedsCheck_ok tk o (tw s) x Hok Em ltac:(lia)) as (w1 & R1 & C1 & Hu).
  specialize (Hu (B + 1) ltac:(lia) ltac:(lia) (bounded_mono B (B + 1) (tw s) Hb ltac:(lia))).
  destruct (calling_checked a o t x y l ev B (B + 1) s w1 Hc C1 Hu ltac:(lia)) as (x1 & Hc1).
  set (s1 := heap_to w1 s) in *. pose proof (fire_answer _ _ _ _ _ _ _ _ _ Hc1) as R2.
  destruct Hc1 as [Hf1 [Es1 _] _ _ _ Hz1 _]. pose proof (fit_machine _ _ _ _ _ _ Hf1) as Em1.
  assert (sites (answered a t ev s1) !! o = Some so) as Hso2 by done.
  set (s2 := answered a t ev s1) in *.
  assert (Hmsg' : Message.text msg <> "") by congruence.
  set (s3 := mkTWorld (tw s2) (sites s2) (rules s2) (toks s2) (key_words s2) (u64 (sequence s2 + 1)) (to_deliver s2)
    (log s2 ++ [EExecute o ev])).
  destruct (Hreact (mkPackage (Some k) (Some o) (mkMessage SIMPLEMSG (u64 (sequence s2 + 1)) ev None) false) s3)
    as (st & s4 & R4 & T4).
  exists s4, st, x1. split.
  { unfold execute_message, execute. rewrite (sbind_run _ _ _ _ _ (machine_run o x s Em)), He. cbn [negb].
    unfold is_empty. rewrite bool_decide_false by done.
    unfold needs_check. rewrite (sbind_run _ _ s tt s1) by (by apply on_heap_run). rewrite Hmsg, Hdot.
    rewrite (sbind_run (sret ev) _ s1 ev s1) by done.
    rewrite (sbind_run _ _ _ _ _ (machine_run o x1 s1 Em1)), (sbind_run _ _ _ _ _ R2).
    rewrite (sbind_run _ _ _ _ _ (get_site_run o so s2 Hso2)).
    replace (match io_interface so with Some i => bool_decide (i = k) | None => false end) with false
      by (destruct (io_interface so); [|done]; symmetry; apply bool_decide_false; congruence).
    replace (match mq_interface so with Some i => bool_decide (i = k) | None => false end) with false
      by (destruct (mq_interface so); [|done]; symmetry; apply bool_decide_false; congruence).
    cbn [orb]. unfold record. unfold sbind at 1, new_message, sbind at 1. cbn. exact R4. }
  rewrite T4. subst s3 s2 s1. cbn. split; [|split; [done | split; [apply lookup_insert_eq |]]].
  - destruct Hf1 as [Em1' Ea1 Eo1 Ht1 Hok1 Hb1 HB1' Hr1 Hn1]. split; try done; [|by destruct Hok1].
    intros t' Et'. destruct (decide (t = t')) as [<- | Hne'].
    + eexists. split; [apply lookup_insert_eq |]. cbn. lia.
    + cbn. rewrite lookup_insert_ne by done. by apply Ht1.
  - intros b. by rewrite (ck_actions _ _ C1).
Qed.

Lemma call_waits a o t x y l ev B s message target k : calling a o t x y l ev B s ->
  CallMethodAction_checkComplete tk message target (Some k) a s = Ok ((Some k, Running), s).
Proof.
  intros [Hf _ _ Hst Ht Hz _]. pose proof (fit_action _ _ _ _ _ _ Hf) as Ea. unfold CallMethodAction_checkComplete.
  rewrite (sbind_run _ _ _ _ _ (owner_of_run a y s Ea)), !(sbind_run _ _ _ _ _ (status_of_run a y s Ea)), Hst.
  cbn [is_final]. rewrite (sbind_run (sret _) _ s (Some k, false) s) by done. cbn [fst snd].
  rewrite (sbind_run _ _ _ _ _ (status_of_run a y s Ea)), Hst.
  rewrite (sbind_run _ _ _ _ _ (action_run a y s Ea)), Ht.
  erewrite (sbind_run _ _ s true s); [done |].
  by rewrite (sbind_run _ _ s _ s (on_heap_id _ s _ (get_trigger_run t _ _ Hz))).
Qed.
Lemma call_ends a o t x y l B s message target k z : fit a o x y B (tw s) -> B + 2 <= INT_MAX ->
  active_actions x = l ++ [a] -> a ∉ l -> status y = Running -> trigger y = Some t ->
  triggers (tw s) !! t = Some z -> seen z = true ->
  exists s2 y', CallMethodAction_checkComplete tk message target (Some k) a s = Ok ((Some k, Complete), s2) /\
    stack_of o (tw s2) = Some l /\ actions (tw s2) !! a = Some y' /\ status y' = Complete /\ trigger y' = None /\
    forall b, b <> a -> actions (tw s2) !! b =
      (fun z => if bool_decide (list.last l = Some b) then unblocked z else z) <$> actions (tw s) !! b.
Proof.
  intros Hf HB Es Hal Hst Ht Hz Hseen. pose proof (fit_action _ _ _ _ _ _ Hf) as Ea.
  destruct (finish_checked tk Complete a o x y B (tw s) Hf HB) as (w2 & am & R & _ & C & Ham & Hoth).
  destruct (without_fresh a l Hal) as [Hwl _]. rewrite Es, Hwl in Hoth.
  exists (heap_to w2 s), (stopped a x (set_status Complete y)). split.
  { unfold CallMethodAction_checkComplete.
    rewrite (sbind_run _ _ _ _ _ (owner_of_run a y s Ea)), !(sbind_run _ _ _ _ _ (status_of_run a y s Ea)), Hst.
    cbn [is_final]. rewrite (sbind_run (sret _) _ s (Some k, false) s) by done. cbn [fst snd].
    rewrite (sbind_run _ _ _ _ _ (status_of_run a y s Ea)), Hst, (sbind_run _ _ _ _ _ (action_run a y s Ea)), Ht.
    rewrite (sbind_run _ _ s false s)
      by (rewrite (sbind_run _ _ s _ s (on_heap_id _ s _ (get_trigger_run t _ _ Hz))); by rewrite Hseen).
    unfold done. rewrite (fit_owner _ _ _ _ _ _ Hf), (sbind_run _ _ s Complete (heap_to w2 s)) by (by apply on_heap_run). done. }
  split; [|split; [|split; [done | split; [done |]]]].
  - cbn. rewrite (checked_stack _ _ o C). unfold stack_of, removed. cbn. rewrite lookup_insert_eq. cbn. by rewrite Es, Hwl.
  - cbn. by rewrite (ck_actions _ _ C).
  - intros b Hb. cbn. rewrite (ck_actions _ _ C). cbn. rewrite Hoth by done. cbn. by rewrite lookup_insert_ne.
Qed.

(** What the machine that is called prepares for a message without a dot. *)
Lemma call_answers o k txt n i : has_dot txt = false -> is_machine o = true ->
  let r := (i_name i +:+ "." +:+ txt +:+ "_done")%string in
  exists h ps, findHandler (Message.message (sent_by o k txt true n)) (Some o) true i = Ok (h, ps) /\
    PushCompletion o r ∈ ps /\ forall to r', PushCompletion to r' ∈ ps -> to = o /\ r' = r.
Proof.
  intros Hdot Hm r. set (m := Message.message (sent_by o k txt true n)).
  assert (short_name_of m = txt) as Hshort.
  { unfold short_name_of, m. cbn. unfold has_dot in Hdot. by destruct (after_dot txt). }
  destruct (answers_once m o i Hm) as (h & ps & E & r' & Hin). exists h, ps. split; [done |].
  pose proof (findHandler_to m o true i h ps E) as Ha. rewrite Hshort, list.Forall_forall in Ha.
  destruct (Ha _ Hin) as [_ ->]. split; [done |]. intros to r' Hin'. exact (Ha _ Hin').
Qed.

(** C9: a CALL of a method, named without a dot, of another enabled machine of this
    program ends with the answer. Running it sends one message to that machine, with a
    request for an answer, and leaves the call on the stack; as long as no answer comes
    it keeps waiting and changes nothing. Whatever handler the called machine then
    chooses for the message, it prepares an answer to the caller, and all answers it
    prepares have the same text; when the caller executes a message with that text, the
    next check completes the call, takes it off the stack and unblocks the action below.
    The other actions of the caller hold no triggers, its own handlers leave actions,
    triggers and machines alone, and the check counters have room. *)
Theorem call_completes a o k x xk y so sk l message target B s :
  fit a o x y B (tw s) -> B + 4 <= INT_MAX -> started_ y = false -> trigger y = None -> is_enabled x = true ->
  begun_stack a x = l ++ [a] -> a ∉ l ->
  (forall b, b ∈ l -> exists z, actions (tw s) !! b = Some z /\ trigger z = None) ->
  callee o k xk sk target s -> sites s !! o = Some so -> io_interface so <> Some k -> mq_interface so <> Some k ->
  light_handlers o -> has_dot message = false -> is_machine o = true ->
  exists s1 p r, CallMethodAction_run tk message target a s = Ok ((Some k, Running), s1) /\
    to_deliver s1 = to_deliver s ++ [p] /\ transmitter p = Some o /\ receiver p = Some k /\
    Message.text (Message.message p) = message /\ needs_receipt p = true /\ stack_of o (tw s1) = Some (l ++ [a]) /\
    CallMethodAction_checkComplete tk message target (Some k) a s1 = Ok ((Some k, Running), s1) /\
    (forall i, i_name i = m_name xk -> exists h ps,
      findHandler (Message.message p) (transmitter p) (needs_receipt p) i = Ok (h, ps) /\ PushCompletion o r ∈ ps /\
      forall to r', PushCompletion to r' ∈ ps -> to = o /\ r' = r) /\
    forall n, exists s2 y',
      (let! _st := execute_message tk o (mkMessage SIMPLEMSG n r None) (Some k) in
       CallMethodAction_checkComplete tk message target (Some k) a) s1 = Ok ((Some k, Complete), s2) /\
      stack_of o (tw s2) = Some l /\ actions (tw s2) !! a = Some y' /\ status y' = Complete /\
      forall b, b ∈ l -> actions (tw s2) !! b =
        (fun z => if bool_decide (list.last l = Some b) then unblocked z else z) <$> actions (tw s) !! b.
Proof.
  intros Hf HB Hst Ht Hen Hstk Hal Hoth Hce Hso Hio Hmq Hreact Hdot Hmach.
  destruct (call_sends a o k x xk y sk l message target B s) as (s1 & t & x1 & y1 & R1 & Hq & Hs1 & Hc & Hsame);
    [done | lia | done .. |].
  pose proof Hc as [Hf1 [Es1 _] _ Hst1 Ht1 _ _].
  exists s1, (sent_by o k message true (u64 (sequence s + 1))), (done_event (m_name xk) message).
  split; [done |]. do 5 (split; [done |]).
  split; [unfold stack_of; rewrite (fit_machine _ _ _ _ _ _ Hf1); cbn; by rewrite Es1 |].
  split; [by eapply call_waits |].
  split; [intros i Hi; unfold done_event; rewrite <- Hi; by apply call_answers |]. intros n.
  destruct (answer_arrives a o k t x1 y1 l (done_event (m_name xk) message) (B + 1) s1 so (mkMessage SIMPLEMSG n (done_event (m_name xk) message) None))
    as (s2 & st & x2 & R2 & Hf2 & Es2 & Hz2 & Ha2);
    [done | lia | done | apply has_dot_app | apply dot_not_empty | by rewrite Hs1 | done .. |].
  destruct (call_ends a o t x2 y1 l (B + 1 + 1) s2 message target k
    (mkTrigger (done_event (m_name xk) message) true (Some (OwnAction a)) 1 true [a]) Hf2)
    as (s3 & y3 & R3 & E3 & A3 & St3 & _ & Hs3); [lia | done .. |].
  exists s3, y3. split; [rewrite (sbind_run _ _ _ _ _ R2); exact R3 |]. do 3 (split; [done |]).
  intros b Hb. assert (b <> a) by (by intros ->). by rewrite Hs3, Ha2, Hsame.
Qed.

(** ** SEND *)
(** A machine of this program that is enabled. *)
Definition takes_mail (s : TWorld) (k : ptr) : Prop :=
  exists xk sk, machines (tw s) !! k = Some xk /\ is_enabled xk = true /\ sites s !! k = Some sk /\ shadow sk = false.
(** Nothing but messages were sent. *)
Record mailed (o : ptr) (txt : string) (to : list ptr) (s s' : TWorld) : Prop := {
  ml_heap : tw s' = tw s;
  ml_sites : sites s' = sites s;
  ml_queue : exists ps, to_deliver s' = to_deliver s ++ ps /\
    map (fun p => (transmitter p, receiver p, Message.text (Message.message p), needs_receipt p)) ps =
    map (fun k => (Some o, Some k, txt, false)) to
}.
Lemma mailed_cons o txt k to s1 s2 s3 : mailed o txt [k] s1 s2 -> mailed o txt to s2 s3 -> mailed o txt (k :: to) s1 s3.
Proof.
  intros [A1 A2 (ps & A3 & A4)] [B1 B2 (qs & B3 & B4)]. split; [congruence | congruence |].
  exists (ps ++ qs). rewrite B3, A3, app_assoc. split; [done |]. by rewrite map_app, A4, B4.
Qed.
Lemma send_mails o txt k s : takes_mail s k -> exists s', sendMessage o txt k false s = Ok (tt, s') /\ mailed o txt [k] s s'.
Proof.
  intros (xk & sk & Ex & He & Es & Hs). eexists. split; [by eapply sendMessage_run |].
  split; [done | done |]. by eexists [_].
Qed.
Lemma takes_mail_kept o txt to s s' k : mailed o txt to s s' -> takes_mail s k -> takes_mail s' k.
Proof. intros [E1 E2 _]. unfold takes_mail. by rewrite E1, E2. Qed.
Lemma send_entries_run o txt l : forall s, Forall (takes_mail s) (omap id l) ->
  exists s', send_entries o txt l s = Ok (tt, s') /\ mailed o txt (omap id l) s s'.
Proof.
  induction l as [|[k|] l IH]; intros s Hl; cbn [send_entries].
  - exists s. split; [done |]. split; [done | done |]. exists []. by rewrite app_nil_r.
  - cbn in Hl. apply list.Forall_cons in Hl as [Hk Hl]. destruct (send_mails o txt k s Hk) as (s1 & R1 & M1).
    destruct (IH s1) as (s2 & R2 & M2).
    { revert Hl. apply Forall_impl. intros q. by apply (takes_mail_kept o txt [k]). }
    exists s2. rewrite (sbind_run _ _ _ _ _ R1). split; [done |]. by eapply mailed_cons.
  - by apply IH.
Qed.

(** SEND to a list completes with one message for the list and one for each of its
    machines, in their order, all from the sender; the action leaves the stack and the
    action below is unblocked. *)
Theorem send_reaches_entries a o k x y xk sk l message target txt B s :
  fit a o x y B (tw s) -> B + 3 <= INT_MAX -> started_ y = false -> trigger y = None ->
  begun_stack a x = l ++ [a] -> a ∉ l ->
  value_ne target (Value_int 0) = Ok true -> is_name target = true ->
  (forall s', lookup_machine o (sValue target) s' = Ok (Some k, s')) -> k <> o ->
  (forall s', message_text o message s' = Ok (txt, s')) ->
  machines (tw s) !! k = Some xk -> is_enabled xk = true -> sites s !! k = Some sk -> shadow sk = false ->
  _type sk = "LIST" -> Forall (fun e => takes_mail s e /\ e <> o) (omap id (s_parameters sk)) ->
  exists s' ps y', SendMessageAction_run tk message target a s = Ok (Complete, s') /\
    to_deliver s' = to_deliver s ++ ps /\
    map (fun p => (transmitter p, receiver p, Message.text (Message.message p), needs_receipt p)) ps =
      map (fun e => (Some o, Some e, txt, false)) (k :: omap id (s_parameters sk)) /\
    stack_of o (tw s') = Some l /\ actions (tw s') !! a = Some y' /\ status y' = Complete /\
    forall b, b <> a -> actions (tw s') !! b =
      (fun z => if bool_decide (list.last l = Some b) then unblocked z else z) <$> actions (tw s) !! b.
Proof.
  intros Hf HB Hst Ht Hstk Hal Haddr Hname Hlook Hko Htxt Hxk Hken Hsk Hsh Hty Hents.
  destruct (start_checked tk a o x y B (tw s) Hf Hst ltac:(lia)) as (w1 & R1 & C1 & B1).
  destruct (fit_started a o x y B (tw s) w1 Hf C1 B1) as (x1 & F1 & Hf1).
  set (y1 := begun a x y) in *. set (s1 := heap_to w1 s).
  assert (Hmail : forall e, e <> o -> takes_mail s e -> takes_mail s1 e).
  { intros e He (xe & se & Ex & Hen & Es & Hs). destruct (checked_lookup _ _ e xe C1) as (xe1 & Exe & Fe).
    { unfold started_world. cbn. by rewrite lookup_insert_ne. }
    exists xe1, se. do 3 (split; [done || by destruct Fe as [-> _] |]). done. }
  assert (Hk1 : takes_mail s1 k) by (apply Hmail; [done |]; by exists xk, sk).
  destruct (send_mails o txt k s1 Hk1) as (s2 & R2 & M2).
  destruct (send_entries_run o txt (s_parameters sk) s2) as (s3 & R3 & M3).
  { revert Hents. apply Forall_impl. intros e [He Heo]. eapply takes_mail_kept; [exact M2 |]. by apply Hmail. }
  pose proof (mailed_cons _ _ _ _ _ _ _ M2 M3) as [T3 S3 (ps & Q3 & P3)].
  destruct Hk1 as (xk1 & _ & Exk1 & Hken1 & _).
  assert (T2 : tw s2 = w1) by (by destruct M2 as [-> _ _]). assert (S2 : sites s2 = sites s) by (by destruct M2 as [_ -> _]).
  assert (Ea3 : actions (tw s3) !! a = Some y1) by (rewrite T3; exact (fit_action _ _ _ _ _ _ Hf1)).
  assert (Hf3 : fit a o x1 y1 (B + 1) (tw s3)) by (by rewrite T3).
  destruct (finish_checked tk Complete a o x1 y1 (B + 1) (tw s3) Hf3 ltac:(lia)) as (w4 & am & R4 & _ & C4 & Ham & Hoth).
  assert (Es1 : active_actions x1 = l ++ [a]) by (rewrite <- Hstk; by destruct F1 as [-> _]).
  destruct (without_fresh a l Hal) as [Hwl _]. rewrite Es1, Hwl in Hoth.
  exists (heap_to w4 s3), ps, (stopped a x1 (set_status Complete y1)). split.
  { unfold SendMessageAction_run. rewrite (sbind_run _ _ _ _ _ (owner_of_run a y s (fit_action _ _ _ _ _ _ Hf))).
    rewrite (fit_owner _ _ _ _ _ _ Hf). unfold begin. rewrite (sbind_run _ _ s tt s1) by (by apply on_heap_run).
    rewrite (slift_run _ _ _ _ Haddr).
    rewrite (sbind_run _ _ s1 tt (heap_to (with_actions (<[a := set_status Complete y1]> (actions (tw s3))) (tw s3)) s3)).
    2: { rewrite Hname, (sbind_run _ _ _ _ _ (Hlook s1)). rewrite (sbind_run (sret (Some k)) _ s1 (Some k) s1) by done.
         rewrite (sbind_run _ _ _ _ _ (Htxt s1)), (sbind_run _ _ _ _ _ R2).
         rewrite (sbind_run _ _ _ _ _ (get_site_run k sk s2 ltac:(by rewrite S2))).
         rewrite (sbind_run _ _ _ _ _ (machine_run k xk1 s2 ltac:(by rewrite T2))), Hken1.
         unfold entries_of. rewrite bool_decide_true by done. rewrite (sbind_run _ _ _ _ _ R3). by apply put_status_run. }
    revert R4. unfold finish, set_st, halt, status_of. 
    rewrite (sbind_run _ _ _ _ _ (upd_action_run a (set_status Complete) y1 (tw s3) Ea3)).
    set (w3 := with_actions (<[a := set_status Complete y1]> (actions (tw s3))) (tw s3)).
    unfold sbind at 1. destruct (stop tk a o w3) as [[[] w]| |] eqn:Estop; [|done | done]. intros R4.
    rewrite (sbind_run _ _ _ tt (heap_to w s3)) by (by apply (on_heap_run _ (heap_to w3 s3))).
    by apply (on_heap_run _ (heap_to w s3)). }
  split; [exact Q3 |]. split; [exact P3 |]. split; [|split; [|split; [done |]]].
  - cbn. rewrite (checked_stack _ _ o C4). unfold stack_of, removed. cbn. rewrite lookup_insert_eq. cbn. by rewrite Es1, Hwl.
  - cbn. by rewrite (ck_actions _ _ C4).
  - intros b Hb. cbn. rewrite (ck_actions _ _ C4). cbn. rewrite Hoth by done. cbn.
    rewrite T3. cbn. rewrite lookup_insert_ne by done. rewrite (ck_actions _ _ C1). cbn. by rewrite lookup_insert_ne.
Qed.

(** ** SET with a transition that is denied *)
Lemma state_known n id s : getTokenId n (toks s) = Ok (id, toks s) -> tokenise (State_new n) s = Ok (mkState n 0 id, s).
Proof. intros E. unfold tokenise, State_new. rewrite (sbind_run _ _ _ _ _ E). by destruct s. Qed.
Lemma hasState_run m n id x si s : getTokenId n (toks s) = Ok (id, toks s) -> machines (tw s) !! m = Some x ->
  is_Some (state_machine x) -> sites s !! m = Some si -> is_Some (findState (mkState n 0 id) (class_states si)) ->
  hasState m n s = Ok (true, s).
Proof.
  intros Ht Hx [sm Hsm] Hs Hf. unfold hasState. rewrite (sbind_run _ _ _ _ _ (state_known n id s Ht)).
  rewrite (sbind_run _ _ _ _ _ (machine_run m x s Hx)), (sbind_run _ _ _ _ _ (get_site_run m si s Hs)), Hsm.
  by rewrite bool_decide_true.
Qed.
(** The transition leads from the current state to the state sought. *)
Definition leads (current st : State) (t : Transition) : bool :=
  (state_eq (Handlers.source t) current || bool_decide (s_text (Handlers.source t) = "ANY")) &&
  (state_eq (Handlers.dest t) st || bool_decide (s_text (Handlers.dest t) = "ANY")).
(** The first transition that does is denied by its condition. *)
Definition denied (o : ptr) (current st : State) (table : list (Transition * bool)) (abort : bool) : Prop :=
  exists pre t rest c, table = pre ++ (t, abort) :: rest /\ Forall (fun q => leads current st (fst q) = false) pre /\
    leads current st t = true /\ Handlers.condition t = Some c /\ forall s, condition_value c o s = Ok (false, s).
(** What a denied change leaves behind: the action fails with an abort queued behind the
    stack of its machine, or is new again. *)
Definition denial_abort (o : ptr) : Action :=
  mkAction 1 o "" New Running None None false false None None (BAbort true (value_text "transition denied")).
Record refused (abort : bool) (a o : ptr) (stack : list ptr) (y : Action) (s s' : TWorld) : Prop := {
  rf_sites : sites s' = sites s;
  rf_rules : rules s' = rules s;
  rf_queue : to_deliver s' = to_deliver s;
  rf_log : log s' = log s ++ [ELog o];
  rf_triggers : triggers (tw s') = triggers (tw s);
  rf_effects : effects (tw s') = effects (tw s);
  rf_action : actions (tw s') !! a = Some (set_status (if abort then Failed else New) (set_error "transition denied" y));
  rf_stack : exists q, stack_of o (tw s') = Some (q ++ stack) /\
    (forall b, b <> a -> b ∉ q -> actions (tw s') !! b = actions (tw s) !! b) /\
    if abort then exists aa, q = [aa] /\ actions (tw s) !! aa = None /\ actions (tw s') !! aa = Some (denial_abort o)
    else q = [];
  rf_others k : k <> o -> option_Forall2 mach_frame (machines (tw s) !! k) (machines (tw s') !! k);
  rf_runs : o ∈ runnable (tw s')
}.
Lemma skip_transitions m o a current st pre l s : Forall (fun q => leads current st (fst q) = false) pre ->
  use_transition tk m o a current st (pre ++ l) s = use_transition tk m o a current st l s.
Proof.
  induction 1 as [|[t b] pre Ht _ IH]; [done |]. cbn [app use_transition]. cbn [fst] in Ht. unfold leads in Ht. by rewrite Ht.
Qed.
Lemma denied_aborts o a st y x B s : fit a o x y B (tw s) ->
  exists s', (let! aa := on_heap (Action_new o None (BAbort true (value_text "transition denied"))) in
     run! on_heap (enqueueAction aa o) in run! put_status st a in sret (Answer st)) s = Ok (Answer st, s') /\
    sites s' = sites s /\ rules s' = rules s /\ to_deliver s' = to_deliver s /\ log s' = log s /\
    triggers (tw s') = triggers (tw s) /\ effects (tw s') = effects (tw s) /\
    (exists aa, stack_of o (tw s') = Some (aa :: active_actions x) /\ actions (tw s) !! aa = None /\
      actions (tw s') !! aa = Some (denial_abort o) /\
      actions (tw s') !! a = Some (set_status st y) /\
      forall b, b <> a -> b <> aa -> actions (tw s') !! b = actions (tw s) !! b) /\
    (forall k, k <> o -> machines (tw s') !! k = machines (tw s) !! k) /\ o ∈ runnable (tw s').
Proof.
  intros Hf. pose proof (fit_action _ _ _ _ _ _ Hf) as Ea. pose proof (fit_machine _ _ _ _ _ _ Hf) as Em.
  set (aa := fresh (dom (actions (tw s)) : gset ptr)).
  assert (actions (tw s) !! aa = None) as Haa by (apply not_elem_of_dom, is_fresh).
  assert (a <> aa) as Hne by congruence.
  assert (Ha1 : <[aa := denial_abort o]> (actions (tw s)) !! a = Some y) by (by rewrite lookup_insert_ne).
  eexists. split.
  { unfold Action_new, alloc_action. fold aa. change (mkAction 1 o "" New _ _ _ _ _ _ _ _) with (denial_abort o).
    erewrite (sbind_run (on_heap _)); [|by apply on_heap_run].
    erewrite (sbind_run (on_heap (enqueueAction _ _))).
    2: { apply on_heap_run. unfold enqueueAction.
         erewrite (sbind_run (upd_machine _ _)) by (apply upd_machine_run; exact Em).
         unfold count_work, workset_add, activate, modify. rewrite (sbind_run _ _ _ tt _ eq_refl).
         erewrite (sbind_run (upd_machine _ _)) by (apply upd_machine_run; cbn; apply lookup_insert_eq).
         rewrite (sbind_run _ _ _ tt _ eq_refl). reflexivity. }
    erewrite (sbind_run (put_status _ _)); [reflexivity |]. apply put_status_run. exact Ha1. }
  cbn. do 6 (split; [done |]). split; [|split].
  - exists aa. split; [unfold stack_of; cbn; by rewrite lookup_insert_eq |]. split; [done |].
    split; [by rewrite lookup_insert_ne, lookup_insert_eq |]. split; [apply lookup_insert_eq |].
    intros b Hb Hb'. by rewrite !lookup_insert_ne.
  - intros k Hk. by rewrite !lookup_insert_ne.
  - set_solver.
Qed.
Lemma denied_again o a y x B s : fit a o x y B (tw s) -> B < INT_MAX -> is_enabled x = true -> is_Some (state_machine x) ->
  exists w, (run! put_status New a in run! needs_check tk o in sret (Answer NeedsRetry)) s = Ok (Answer NeedsRetry, heap_to w s) /\
    checked (with_actions (<[a := set_status New y]> (actions (tw s))) (tw s)) w /\ o ∈ runnable w.
Proof.
  intros Hf HB He [sm Hsm]. set (y2 := set_status New y).
  set (w3 := with_actions (<[a := y2]> (actions (tw s))) (tw s)).
  pose proof (fit_update a o x y y2 B (tw s) Hf eq_refl eq_refl eq_refl) as [Em3 Ea3 _ _ Hok3 Hb3 HB3 _ _].
  pose proof (Hb3 _ _ Em3) as Hx. cbn in Hx.
  destruct (setNeedsCheck_ok tk o w3 x Hok3 Em3 ltac:(lia)) as (w4 & R4 & C4 & _).
  exists w4. split; [|split; [done |]].
  - rewrite (sbind_run _ _ s tt (heap_to w3 s)) by (apply put_status_run, Hf).
    unfold needs_check. by rewrite (sbind_run _ _ (heap_to w3 s) tt (heap_to w4 s)) by exact (on_heap_run _ (heap_to w3 s) _ _ R4).
  - apply (setNeedsCheck_queues tk o w3 x sm w4); try done. split; [by apply (co_counts _ Hok3 o) | lia].
Qed.
Lemma denied_change m o a current st table abort y x B s : denied o current st table abort -> fit a o x y B (tw s) ->
  B < INT_MAX -> is_enabled x = true -> is_Some (state_machine x) ->
  exists s', use_transition tk m o a current st table s = Ok (Answer (if abort then Failed else NeedsRetry), s') /\
    refused abort a o (active_actions x) y s s'.
Proof.
  intros (pre & t & rest & c & -> & Hpre & Hl & Hc & Hcv) Hf HB He Hsm. pose proof (fit_action _ _ _ _ _ _ Hf) as Ea.
  rewrite skip_transitions by done. cbn [use_transition]. unfold leads in Hl. rewrite Hl, Hc, (sbind_run _ _ _ _ _ (Hcv s)).
  set (y1 := set_error "transition denied" y).
  set (s1 := heap_to (with_actions (<[a := y1]> (actions (tw s))) (tw s)) s).
  set (s2 := mkTWorld (tw s1) (sites s1) (rules s1) (toks s1) (key_words s1) (sequence s1) (to_deliver s1) (log s1 ++ [ELog o])).
  unfold fail_text. rewrite (sbind_run _ _ s tt s1) by (apply on_heap_run; by erewrite upd_action_run).
  rewrite (sbind_run (record (ELog o)) _ s1 tt s2) by done.
  pose proof (fit_update a o x y y1 B (tw s) Hf eq_refl eq_refl eq_refl : fit a o x y1 B (tw s2)) as Hf2.
  destruct abort.
  - destruct (denied_aborts o a Failed y1 x B s2 Hf2)
      as (s' & R & E1 & E2 & E3 & E4 & E5 & E6 & (aa & K & N & A & Y & O) & Hm & Hr).
    assert (a <> aa) as Hne by (intros ->; cbn in N; by rewrite lookup_insert_eq in N).
    exists s'. split; [exact R |]. split; try done.
    + exists [aa]. split; [done |]. split.
      * intros b Hb Hq. rewrite O by (done || set_solver). cbn. by rewrite lookup_insert_ne.
      * exists aa. cbn in N. rewrite lookup_insert_ne in N by done. done.
    + intros k Hk. rewrite Hm by done. cbn. destruct (machines (tw s) !! k); constructor. apply mach_frame_refl.
  - destruct (denied_again o a y1 x B s2 Hf2 HB He Hsm) as (w & R & C & Hr).
    exists (heap_to w s2). split; [exact R |]. split; try done.
    + exact (ck_triggers _ _ C).
    + exact (ck_effects _ _ C).
    + cbn. rewrite (ck_actions _ _ C). apply lookup_insert_eq.
    + exists []. split; [cbn; rewrite (checked_stack _ _ o C); unfold stack_of; cbn; by rewrite (fit_machine _ _ _ _ _ _ Hf) |].
      split; [|done]. intros b Hb _. cbn. rewrite (ck_actions _ _ C). cbn. by rewrite !lookup_insert_ne.
    + intros k _. exact (ck_machines _ _ C k).
Qed.
(** The same, seen from before the action was started. *)
Lemma refused_started abort a o x y s s' w1 stk B : fit a o x y B (tw s) ->
  checked (started_world a o x y (tw s)) w1 -> refused abort a o stk (begun a x y) (heap_to w1 s) s' ->
  refused abort a o stk (begun a x y) s s'.
Proof.
  intros Hf C [E1 E2 E3 E4 E5 E6 Y (q & K & O & Ab) Hm Hr].
  assert (forall b, b <> a -> actions w1 !! b = actions (tw s) !! b) as Hw.
  { intros b Hb. rewrite (ck_actions _ _ C). cbn. by rewrite lookup_insert_ne. }
  split; try done.
  - by rewrite E5; apply (ck_triggers _ _ C).
  - by rewrite E6; apply (ck_effects _ _ C).
  - exists q. split; [done |]. split; [intros b Hb Hq; rewrite O by done; by apply Hw |].
    destruct abort; [|done]. destruct Ab as (aa & -> & N & A). exists aa. split; [done |]. split; [|done].
    rewrite <- Hw; [done |]. intros ->. cbn in N. rewrite (ck_actions _ _ C) in N. cbn in N. by rewrite lookup_insert_eq in N.
  - intros k Hk. pose proof (ck_machines _ _ C k) as Hf'. cbn in Hf'. rewrite lookup_insert_ne in Hf' by done.
    pose proof (Hm k Hk) as Hk'. cbn in Hk'. inversion Hf' as [u v Huv Eu Ev | Eu Ev]; rewrite <- Ev in Hk'; [|done].
    inversion Hk'; subst. constructor. by eapply mach_frame_trans.
Qed.

(** C32: a SET of a machine without a device, of its own or another, to one of its
    states by name, where the first transition to that state from the one the machine is
    in is denied by its condition: no site of a machine, trigger or rule changes and nothing
    is sent; other machines only get checks registered, other actions stay as they are and
    the owner is queued. Without ABORT ON FAILURE the action stays on the stack as new
    and asks to be tried again; with it the action has failed, stays on the stack, and one
    abort of the owner is queued behind it. Evaluating the condition changes nothing, the
    name of the state has its token and the check counters have room. *)
Theorem denied_set_retries a o m x xm y si id f v abort B s :
  fit a o x y B (tw s) -> B + 2 <= INT_MAX -> started_ y = false -> is_enabled x = true -> is_Some (state_machine x) ->
  ss_saved f = v -> kind v = t_symbol -> getTokenId (sValue v) (toks s) = Ok (id, toks s) -> (exists txt, asString v = Ok txt) ->
  (forall s', lookup_machine o (ss_target f) s' = Ok (Some m, s')) ->
  machines (tw s) !! m = Some xm -> is_Some (state_machine xm) -> sites s !! m = Some si -> io_interface si = None ->
  is_Some (findState (mkState (sValue v) 0 id) (class_states si)) ->
  state_eq (Transitions.current_state si) (mkState (sValue v) 0 id) = false ->
  denied o (Transitions.current_state si) (mkState (sValue v) 0 id) (transition_table m) abort ->
  exists s' f', SetStateAction_run tk f a s = Ok ((f', if abort then Failed else NeedsRetry), s') /\
    refused abort a o (begun_stack a x) (begun a x y) s s'.
Proof.
  intros Hf HB Hst Hen Hsm Hsv Hk Htok [txt Htxt] Hlook Hxm Hsmm Hsi Hio Hfind Hcur Hden.
  destruct (start_checked tk a o x y B (tw s) Hf Hst ltac:(lia)) as (w1 & R1 & C1 & B1).
  destruct (fit_started a o x y B (tw s) w1 Hf C1 B1) as (x1 & F1 & Hf1).
  set (y1 := begun a x y) in *. set (s1 := heap_to w1 s).
  assert (exists xm1, machines (tw s1) !! m = Some xm1 /\ is_Some (state_machine xm1)) as (xm1 & Exm1 & Hsm1).
  { destruct (decide (m = o)) as [-> | Hmo].
    - exists x1. split; [apply Hf1 | by destruct F1 as [-> _]].
    - destruct (checked_lookup _ _ m xm C1) as (xm1 & Exm1 & Fm).
      { unfold started_world. cbn. by rewrite lookup_insert_ne. }
      exists xm1. split; [done |]. by destruct Fm as [-> _]. }
  destruct (denied_change m o a (Transitions.current_state si) (mkState (sValue v) 0 id) (transition_table m) abort y1 x1 (B + 1) s1 Hden Hf1 ltac:(lia))
    as (s2 & R2 & Hrf); [by destruct F1 as [-> _] .. |].
  replace (active_actions x1) with (begun_stack a x) in Hrf by (by destruct F1 as [-> _]).
  set (f1 := with_machine (Some m) (with_value (mkState (sValue v) 0 id) (with_new v f))).
  exists s2, (with_value (mkState (sValue v) 0 id) f1). split; [|by eapply refused_started].
  unfold SetStateAction_run, executeStateChange.
  rewrite (sbind_run _ _ _ _ _ (owner_of_run a y s (fit_action _ _ _ _ _ _ Hf))), (fit_owner _ _ _ _ _ _ Hf), Hsv, Hk.
  rewrite (sbind_run (sret v) _ s v s) by done. rewrite (sbind_run _ _ _ _ _ (state_known _ id s Htok)).
  unfold begin. rewrite (sbind_run _ _ s tt s1) by (by apply on_heap_run). rewrite (slift_run _ _ _ _ Htxt).
  unfold is_name. rewrite Hk. cbn [Kind_eqb orb negb]. cbn [ss_target with_value with_new].
  rewrite (sbind_run _ _ _ _ _ (Hlook s1)). fold f1.
  rewrite (sbind_run (seek_state m o a f1) _ s1 (with_value (mkState (sValue v) 0 id) f1, Some tt) s1).
  2: { unfold seek_state. cbn [ss_new f1 with_machine with_value with_new].
       rewrite (sbind_run _ _ _ _ _ (state_known _ id s1 Htok)).
       cbn [ss_new f1 with_machine with_value with_new].
       by rewrite (sbind_run _ _ _ _ _ (hasState_run m _ id xm1 si s1 Htok Exm1 Hsm1 Hsi Hfind)). }
  cbn [fst snd]. rewrite (sbind_run _ _ _ _ _ (get_site_run m si s1 Hsi)), Hio. cbn [ss_value with_value].
  by rewrite Hcur, (sbind_run _ _ _ _ _ R2).
Qed.
End Calls.

Definition bell : ptr := 3%positive.
Definition group_list : ptr := 4%positive.
Definition act : ptr := 5%positive.
Definition below : ptr := 6%positive.
Definition fresh_action : Action := mkAction 2 lamp "" New Running None None false false None None (BOther 0).
Definition waiting_command : Action := mkAction 2 lamp "" Suspended Running (Some act) None true false None None (BOther 1).
Definition lamp_busy : Machine :=
  mkMachine "lamp" true true 0 (Some (mkClass 99 true)) 0 [below] [] false 0 [] 0 None.
Definition scene_heap : World :=
  mkWorld ∅ (list_to_map [(act, fresh_action); (below, waiting_command)])
    (list_to_map [(door, new_machine "door" []); (lamp, lamp_busy); (bell, new_machine "bell" []);
                  (group_list, new_machine "group" [])]) ∅ ∅ ∅ 0 0 [].
Definition list_site : Site :=
  mkSite "LIST" None false None 0 [] st_init st_init init_props None None 1 false ∅ [] [] [Some door; None; Some bell] 0 0.
Definition scene : TWorld :=
  mkTWorld scene_heap
    (list_to_map [(door, new_site "DOOR" st_init init_props []); (lamp, new_site "LAMP" st_init init_props [door]);
                  (bell, new_site "BELL" st_init init_props []); (group_list, list_site)])
    ∅ door_toks None 0 [] [].
(** Opening the door is not allowed at the moment. *)
Definition guarded : Transition := mkTransition st_init st_open (mkMessage SIMPLEMSG 0 "open" None) (Some 0%nat).
Definition closing : Transition := mkTransition st_open st_closed (mkMessage SIMPLEMSG 0 "close" None) None.
Definition scene_scope : Scope := {|
  lookup_machine := fun _ n => sret (if bool_decide (n = "group") then Some group_list else Some door);
  value_in := fun _ _ => sret Null;
  predicate_value := fun _ _ => sret Null;
  condition_value := fun _ _ => sret false;
  handler_for := fun _ _ => sret None;
  prepare_completion := fun _ _ _ => sret tt;
  class_timer := fun _ _ => sret None;
  transition_table := fun m => if bool_decide (m = door) then [(closing, true); (guarded, false)] else [];
  channel_of_type := fun _ => sret None
|}.
Definition machine_hub : Hub := {| cond_holds := fun _ => true; is_machine := fun _ => true; any_state := mkState "ANY" 0 1; command_coil := fun _ => false |}.

Lemma scene_fit : fit act lamp lamp_busy fresh_action 1 (tw scene).
Proof.
  split; try reflexivity.
  - intros t [=].
  - split.
    + intros m x Hx. apply elem_of_list_to_map_2 in Hx.
      repeat (apply elem_of_cons in Hx as [[= -> ->] | Hx]; [cbn; lia |]). by apply elem_of_nil in Hx.
    + intros m x d Hx. apply elem_of_list_to_map_2 in Hx.
      repeat (apply elem_of_cons in Hx as [[= -> ->] | Hx]; [by intros ?%elem_of_nil |]). by apply elem_of_nil in Hx.
  - intros m x Hx. apply elem_of_list_to_map_2 in Hx.
    repeat (apply elem_of_cons in Hx as [[= -> ->] | Hx]; [cbn; lia |]). by apply elem_of_nil in Hx.
  - intros n Hn. vm_compute in Hn. injection Hn as <-. eexists. split; [reflexivity |]. by eexists.
Qed.

Lemma call_completes_w : exists s1 p s2,
  @CallMethodAction_run some_tokens no_dyn idle_reactions machine_hub no_virtuals scene_scope "close" "door" act scene
    = Ok ((Some door, Running), s1) /\ to_deliver s1 = [p] /\ receiver p = Some door /\ needs_receipt p = true /\
  (let! _st := @execute_message some_tokens no_dyn idle_reactions machine_hub lamp (mkMessage SIMPLEMSG 7 "door.close_done" None) (Some door) in
   @CallMethodAction_checkComplete some_tokens no_dyn idle_reactions machine_hub no_virtuals scene_scope "close" "door" (Some door) act) s1
    = Ok ((Some door, Complete), s2) /\ stack_of lamp (tw s2) = Some [below] /\
  (status <$> actions (tw s2) !! below) = Some Running.
Proof.
  destruct (@call_completes some_tokens no_dyn idle_reactions machine_hub no_virtuals scene_scope act lamp door lamp_busy
    (new_machine "door" []) fresh_action (new_site "LAMP" st_init init_props [door]) (new_site "DOOR" st_init init_props [])
    [below] "close" "door" 1 scene)
    as (s1 & p & r & R1 & Q & Htr & Hr & Ht & Hn & _ & _ & Hans & Hend); try reflexivity.
  - exact scene_fit.
  - unfold INT_MAX. lia.
  - by intros [=]%list_elem_of_singleton.
  - intros b ->%list_elem_of_singleton. eexists. split; reflexivity.
  - split; try reflexivity. discriminate.
  - discriminate.
  - discriminate.
  - intros p s. by exists Complete, s.
  - assert (r = "door.close_done") as ->.
    { destruct (Hans (Handlers.mkInstance door "door" true st_init None [] [("close", mkCommand 7%positive "" false)] [] [] []) eq_refl)
        as (h & ps & E & Hin & _). rewrite Hn, Htr in E. destruct p as [tr re [mk sq tx pa] nr]. cbn in *. subst.
      revert E. vm_compute. intros [= <- <-]. apply list_elem_of_singleton in Hin. by injection Hin. }
    destruct (Hend 7) as (s2 & y' & R2 & K2 & _ & _ & Hb). exists s1, p, s2.
    split; [exact R1 |]. split; [exact Q |]. split; [exact Hr |]. split; [exact Hn |]. split; [exact R2 |]. split; [exact K2 |].
    rewrite (Hb below) by (by left). reflexivity.
Defined.

Definition hello : Value := mkString t_string "hello" 0.
Definition to_group : Value := mkString t_symbol "group" 77.
Lemma send_reaches_entries_w : exists s' ps,
  @SendMessageAction_run some_tokens no_dyn no_virtuals scene_scope hello to_group act scene = Ok (Complete, s') /\
  to_deliver s' = ps /\ map receiver ps = [Some group_list; Some door; Some bell] /\ stack_of lamp (tw s') = Some [below].
Proof.
  destruct (@send_reaches_entries some_tokens no_dyn no_virtuals scene_scope act lamp group_list lamp_busy fresh_action
    (new_machine "group" []) list_site [below] hello to_group "hello" 1 scene)
    as (s' & ps & y' & R & Q & P & K & _); try reflexivity.
  - exact scene_fit.
  - unfold INT_MAX. lia.
  - by intros [=]%list_elem_of_singleton.
  - discriminate.
  - repeat constructor; try discriminate; eexists _, _; repeat split; reflexivity.
  - exists s', ps. split; [exact R |]. split; [exact Q |]. split; [|exact K].
    apply (f_equal (map (fun q => snd (fst (fst q))))) in P. rewrite map_map in P. exact P.
Defined.

Definition set_open : SetStateFields :=
  mkSetState "door" (mkString t_symbol "open" 3) (mkString t_symbol "open" 3) (mkState "" 0 0) None None 0.
Lemma denied_set_retries_w : exists s' f',
  @SetStateAction_run some_tokens no_dyn idle_reactions machine_hub no_virtuals scene_scope set_open act scene
    = Ok ((f', NeedsRetry), s') /\ sites s' = sites scene /\ lamp ∈ runnable (tw s') /\ stack_of lamp (tw s') = Some [below; act].
Proof.
  destruct (@denied_set_retries some_tokens no_dyn idle_reactions machine_hub no_virtuals scene_scope act lamp door lamp_busy
    (new_machine "door" []) fresh_action (new_site "DOOR" st_init init_props []) 3 set_open (mkString t_symbol "open" 3)
    false 1 scene) as (s' & f' & R & Hrf); try reflexivity.
  - exact scene_fit.
  - unfold INT_MAX. lia.
  - by eexists.
  - by eexists.
  - by eexists.
  - eexists. reflexivity.
  - exists [(closing, true)], guarded, [], 0%nat. repeat split. by repeat constructor.
  - exists s', f'. split; [exact R |]. split; [apply Hrf |]. split; [apply Hrf |].
    destruct (rf_stack _ _ _ _ _ _ _ Hrf) as (q & K & _ & ->). exact K.
Defined.
(** Without the transition the door opens. *)
Example move_opens : match @MoveStateAction_run some_tokens no_dyn idle_reactions machine_hub no_virtuals scene_scope set_open act scene with
  | Ok ((_, st), s') => st = Complete /\ (s_text ∘ Transitions.current_state <$> sites s' !! door) = Some "open" /\
      stack_of lamp (tw s') = Some [below]
  | _ => False
  end.
Proof. vm_compute. done. Qed.
