(* ===== verification/Channels.v ===== *)
(** Channels (Channel.cpp, Channel.h, SyncRemoteStatesAction.cpp): which machines a
    channel carries, what is sent to the other system when a machine changes, the
    throttling of property changes and the exchange that starts a connection.

    A channel is a machine, so its state and its actions are in the world of
    Transitions.v. What is written to a socket is recorded on the [wire] with its
    header; the state of the network connections (SubscriptionManager) is data.
    Sets and maps of strings are walked in the order of their keys. *)
From S2P Require Import Prelude Cnum Tokeniser Value SymbolTable Message Handlers Machine StableStates Names Modbus Transitions Control MachineActions Json MessageEncoding.
From stdpp Require Import sorting.
Open Scope Z_scope.
Local Open Scope sm_scope.

(** ** Data *)
Inductive Feature := ReportStateChanges | ReportPropertyChanges | ReportModbusUpdates | ReportLocalPropertyChanges.
#[export] Instance Feature_eq_dec : EqDecision Feature.
Proof. solve_decision. Defined.

Record ChannelImplementation := mkImpl {
  monitors_patterns : gset string;
  ignores_patterns : gset string;
  monitors_names : gset string;
  monitor_linked : gset string;
  monitors_properties : gmap string Value;
  updates_names : gmap string Value;
  shares_names : gmap string Value;
  monitors_exports : bool;
  last_modified : Z;
  last_checked : Z;
  authority : Z
}.
Record ChannelDefinition := mkDefinition {
  d_name : string;
  d_impl : ChannelImplementation;
  features : list Feature;
  ignore_response : bool;
  psk : string;
  d_identifier : string;
  d_version : string;
  send_messages : gset string;
  recv_messages : gset string;
  options : gmap string Value;
  d_throttle_time : Z
}.
(** What a channel reads of its SubscriptionManager: [monit_setup] may be null. *)
Inductive SetupStatus :=
| e_not_used | e_startup | e_disconnected | e_waiting_connect | e_settingup_subscriber
| e_waiting_subscriber | e_waiting_setup | e_done | e_error | e_connected.
#[export] Instance SetupStatus_eq_dec : EqDecision SetupStatus.
Proof. solve_decision. Defined.
Record Comms := mkComms {
  setup_disconnected : option bool;
  subs_disconnected : bool;
  setupStatus : SetupStatus;
  comms_ready : bool;
  comms_authority : Z
}.
Record MachineRecord := mkRecord { mr_machine : ptr; mr_properties : gmap string Value }.
Record Channel := mkChannel {
  channel_name : string;
  ch_impl : ChannelImplementation;
  definition_ : option ptr;
  definition_file : string;
  comms : option Comms;
  has_mif : bool;
  has_client : bool;
  has_server : bool;
  channel_machines : gset ptr;
  throttled_items : gmap ptr MachineRecord;
  throttle_time : Z;
  last_throttled_send : Z;
  connections : Z;
  does_monitor : bool;
  does_share : bool;
  does_update : bool
}.
(** What channels know of the class of a machine and of the machine itself. *)
Record ClassInfo := mkClassInfo { local_properties : gset string; property_names : gset string; is_interface : bool }.
Record Subject := mkSubject { m_class : option ClassInfo; needs_throttle : bool; ownerChannel : option ptr }.

Inductive Socket := cmd_client | cmd_server | publisher | remote_sock.
Inductive Port := SOCK_CW | SOCK_CHAN | SOCK_CTRL.
Record Header := mkHeader { h_dest : Port; h_source : Port; need_reply : bool }.
Inductive Wire :=
| Sent (c : ptr) (sock : Socket) (msg : text) (h : Header)
| ModbusUpdate (m : ptr) (name : string) (v : Value)
| Published (c : ptr) (msg : text)
| CLog (c : ptr).
(** The actions of classes that only channels use. *)
Inductive ChannelAction := ASync | AEnable (m : ptr).

Record CWorld := mkCWorld {
  ct : TWorld;
  chans : gmap ptr Channel;
  all_channels : option (gmap string ptr);
  definitions : gmap ptr ChannelDefinition;
  all_definitions : gmap string ptr;
  subjects : gmap ptr Subject;
  all_machines : list ptr;
  classes : gmap string ClassInfo;
  action_kinds : gmap ptr ChannelAction;
  wire : list Wire
}.
Abbreviation CM := (SM CWorld).

Definition set_impl x c := mkChannel (channel_name c) x (definition_ c) (definition_file c) (comms c) (has_mif c)
  (has_client c) (has_server c) (channel_machines c) (throttled_items c) (throttle_time c) (last_throttled_send c)
  (connections c) (does_monitor c) (does_share c) (does_update c).
Definition set_definition x c := mkChannel (channel_name c) (ch_impl c) x (definition_file c) (comms c) (has_mif c)
  (has_client c) (has_server c) (channel_machines c) (throttled_items c) (throttle_time c) (last_throttled_send c)
  (connections c) (does_monitor c) (does_share c) (does_update c).
Definition set_machines x c := mkChannel (channel_name c) (ch_impl c) (definition_ c) (definition_file c) (comms c) (has_mif c)
  (has_client c) (has_server c) x (throttled_items c) (throttle_time c) (last_throttled_send c)
  (connections c) (does_monitor c) (does_share c) (does_update c).
Definition set_throttled x c := mkChannel (channel_name c) (ch_impl c) (definition_ c) (definition_file c) (comms c) (has_mif c)
  (has_client c) (has_server c) (channel_machines c) x (throttle_time c) (last_throttled_send c)
  (connections c) (does_monitor c) (does_share c) (does_update c).
Definition set_last_send x c := mkChannel (channel_name c) (ch_impl c) (definition_ c) (definition_file c) (comms c) (has_mif c)
  (has_client c) (has_server c) (channel_machines c) (throttled_items c) (throttle_time c) x
  (connections c) (does_monitor c) (does_share c) (does_update c).
Definition set_connections x c := mkChannel (channel_name c) (ch_impl c) (definition_ c) (definition_file c) (comms c) (has_mif c)
  (has_client c) (has_server c) (channel_machines c) (throttled_items c) (throttle_time c) (last_throttled_send c)
  x (does_monitor c) (does_share c) (does_update c).
Definition set_does m sh u c := mkChannel (channel_name c) (ch_impl c) (definition_ c) (definition_file c) (comms c) (has_mif c)
  (has_client c) (has_server c) (channel_machines c) (throttled_items c) (throttle_time c) (last_throttled_send c)
  (connections c) m sh u.
Definition set_published x s := mkSite (_type s) (s_owner s) (shadow s) (owner_channel s) (expected_authority s)
  (class_states s) (initial_state s) (Transitions.current_state s) (properties s) (io_interface s) (mq_interface s) x
  (exports_self s) (modbus_exports s) (s_listens s) (s_locals s) (s_parameters s) (start_time s) (disabled_time s).
Definition set_authority x s := mkSite (_type s) (s_owner s) (shadow s) (owner_channel s) x
  (class_states s) (initial_state s) (Transitions.current_state s) (properties s) (io_interface s) (mq_interface s) (published s)
  (exports_self s) (modbus_exports s) (s_listens s) (s_locals s) (s_parameters s) (start_time s) (disabled_time s).

(** ** Access *)
Definition on_t {A} (c : TM A) : CM A := fun s =>
  '(a, t) ← c (ct s);
  Ok (a, mkCWorld t (chans s) (all_channels s) (definitions s) (all_definitions s) (subjects s) (all_machines s) (classes s)
            (action_kinds s) (wire s)).
Definition get_world : CM CWorld := fun s => Ok (s, s).
Definition get_chan (c : ptr) : CM Channel := fun s => x ← rd (chans s !! c); Ok (x, s).
Definition upd_chan (c : ptr) (f : Channel -> Channel) : CM unit := fun s =>
  x ← rd (chans s !! c);
  Ok (tt, mkCWorld (ct s) (<[c := f x]> (chans s)) (all_channels s) (definitions s) (all_definitions s) (subjects s) (all_machines s)
            (classes s) (action_kinds s) (wire s)).
Definition transmit (e : Wire) : CM unit := fun s =>
  Ok (tt, mkCWorld (ct s) (chans s) (all_channels s) (definitions s) (all_definitions s) (subjects s) (all_machines s) (classes s)
            (action_kinds s) (wire s ++ [e])).
Definition set_kind (a : ptr) (k : ChannelAction) : CM unit := fun s =>
  Ok (tt, mkCWorld (ct s) (chans s) (all_channels s) (definitions s) (all_definitions s) (subjects s) (all_machines s) (classes s)
            (<[a := k]> (action_kinds s)) (wire s)).
Definition get_subject (m : ptr) : CM Subject := fun s => x ← rd (subjects s !! m); Ok (x, s).
(** [definition ()], which is dereferenced. *)
Definition definition (c : ptr) : CM ChannelDefinition :=
  let! x := get_chan c in
  let? d := rd (definition_ x) in
  fun s => y ← rd (definitions s !! d); Ok (y, s).
Definition site_of (m : ptr) : CM Site := on_t (get_site m).
Definition name_of (m : ptr) : CM string := on_t (mname m).
(** [safeSend]: the socket is dereferenced. *)
Definition safeSend (c : ptr) (sock : Socket) (msg : text) (h : Header) : CM unit :=
  let! x := get_chan c in
  let? _ok := rd (match sock with
                  | cmd_client => if has_client x then Some tt else None
                  | cmd_server => if has_server x then Some tt else None
                  | publisher => if has_mif x then Some tt else None
                  | remote_sock => Some tt
                  end) in
  transmit (Sent c sock msg h).
Fixpoint each_of {A} (f : A -> CM unit) (l : list A) : CM unit :=
  match l with [] => sret tt | a :: l' => run! f a in each_of f l' end.

Definition with_features x d := mkDefinition (d_name d) (d_impl d) x (ignore_response d) (psk d) (d_identifier d)
  (d_version d) (send_messages d) (recv_messages d) (options d) (d_throttle_time d).
Definition addFeature (f : Feature) (d : ChannelDefinition) : ChannelDefinition :=
  if bool_decide (f ∈ features d) then d else with_features (f :: features d) d.
Definition removeFeature (f : Feature) (d : ChannelDefinition) : ChannelDefinition :=
  with_features (filter (fun g => g <> f) (features d)) d.
Definition hasFeature (f : Feature) (d : ChannelDefinition) : bool := bool_decide (f ∈ features d).
Definition isPublisher (d : ChannelDefinition) : bool := ignore_response d.
Definition isClient (x : Channel) : bool := negb (bool_decide (definition_file x = "dynamic")).

(** ** Definitions of channels *)
Section Definitions.
Variable now : Z.
Definition modified (i : ChannelImplementation) := mkImpl (monitors_patterns i) (ignores_patterns i) (monitors_names i)
  (monitor_linked i) (monitors_properties i) (updates_names i) (shares_names i) (monitors_exports i) now (last_checked i) (authority i).
Definition checked_now (i : ChannelImplementation) := mkImpl (monitors_patterns i) (ignores_patterns i) (monitors_names i)
  (monitor_linked i) (monitors_properties i) (updates_names i) (shares_names i) (monitors_exports i) (last_modified i) now (authority i).
Definition with_ignores x i := mkImpl (monitors_patterns i) x (monitors_names i)
  (monitor_linked i) (monitors_properties i) (updates_names i) (shares_names i) (monitors_exports i) (last_modified i) (last_checked i) (authority i).
Definition with_names x i := mkImpl (monitors_patterns i) (ignores_patterns i) x
  (monitor_linked i) (monitors_properties i) (updates_names i) (shares_names i) (monitors_exports i) (last_modified i) (last_checked i) (authority i).
Definition with_patterns x i := mkImpl x (ignores_patterns i) (monitors_names i)
  (monitor_linked i) (monitors_properties i) (updates_names i) (shares_names i) (monitors_exports i) (last_modified i) (last_checked i) (authority i).
Definition with_linked x i := mkImpl (monitors_patterns i) (ignores_patterns i) (monitors_names i)
  x (monitors_properties i) (updates_names i) (shares_names i) (monitors_exports i) (last_modified i) (last_checked i) (authority i).
Definition with_properties x i := mkImpl (monitors_patterns i) (ignores_patterns i) (monitors_names i)
  (monitor_linked i) x (updates_names i) (shares_names i) (monitors_exports i) (last_modified i) (last_checked i) (authority i).
Definition with_updates x i := mkImpl (monitors_patterns i) (ignores_patterns i) (monitors_names i)
  (monitor_linked i) (monitors_properties i) x (shares_names i) (monitors_exports i) (last_modified i) (last_checked i) (authority i).
Definition with_shares x i := mkImpl (monitors_patterns i) (ignores_patterns i) (monitors_names i)
  (monitor_linked i) (monitors_properties i) (updates_names i) x (monitors_exports i) (last_modified i) (last_checked i) (authority i).
Definition with_exports x i := mkImpl (monitors_patterns i) (ignores_patterns i) (monitors_names i)
  (monitor_linked i) (monitors_properties i) (updates_names i) (shares_names i) x (last_modified i) (last_checked i) (authority i).
Definition with_channel_authority x i := mkImpl (monitors_patterns i) (ignores_patterns i) (monitors_names i)
  (monitor_linked i) (monitors_properties i) (updates_names i) (shares_names i) (monitors_exports i) (last_modified i) (last_checked i) x.

(** The pattern that matches exactly a name: [^name$]. *)
Definition whole_name (s : string) : string := ("^" +:+ s +:+ "$")%string.
Definition addMonitor (s : string) (i : ChannelImplementation) : ChannelImplementation :=
  modified (with_names ({[s]} ∪ monitors_names i) (with_ignores (ignores_patterns i ∖ {[whole_name s]}) i)).
Definition addIgnorePattern (s : string) (i : ChannelImplementation) : ChannelImplementation :=
  modified (with_ignores ({[s]} ∪ ignores_patterns i) i).
Definition removeIgnorePattern (s : string) (i : ChannelImplementation) : ChannelImplementation :=
  modified (with_ignores (ignores_patterns i ∖ {[s]}) i).
Definition removeMonitor (s : string) (i : ChannelImplementation) : ChannelImplementation :=
  if bool_decide (s ∈ monitors_names i) then modified (with_names (monitors_names i ∖ {[s]}) i)
  else modified (addIgnorePattern (whole_name s) i).
Definition addMonitorPattern (s : string) (i : ChannelImplementation) : ChannelImplementation :=
  let i := if bool_decide (s ∈ ignores_patterns i) then modified (with_ignores (ignores_patterns i ∖ {[s]}) i) else i in
  if bool_decide (s ∈ monitors_patterns i) then i else modified (with_patterns ({[s]} ∪ monitors_patterns i) i).
Definition removeMonitorPattern (s : string) (i : ChannelImplementation) : ChannelImplementation :=
  if bool_decide (s ∈ monitors_patterns i) then modified (with_patterns (monitors_patterns i ∖ {[s]}) i)
  else modified (with_ignores ({[s]} ∪ ignores_patterns i) i).
Definition addMonitorProperty (key : string) (v : Value) (i : ChannelImplementation) : ChannelImplementation :=
  modified (with_properties (map_assign key v (monitors_properties i)) i).
Definition removeMonitorProperty (key : string) (v : Value) (i : ChannelImplementation) : ChannelImplementation :=
  modified (with_properties (delete key (monitors_properties i)) i).
Definition addMonitorExports (i : ChannelImplementation) : ChannelImplementation :=
  if monitors_exports i then i else modified (with_exports true i).
Definition removeMonitorExports (i : ChannelImplementation) : ChannelImplementation :=
  if monitors_exports i then modified (with_exports false i) else i.
Definition addMonitorLinkedTo (s : string) (i : ChannelImplementation) : ChannelImplementation :=
  if bool_decide (s ∈ monitor_linked i) then i else modified (with_linked ({[s]} ∪ monitor_linked i) i).
(** [updates_names[nm] = if_nm], where the name becomes a value. *)
Definition addUpdates (nm if_nm : string) (i : ChannelImplementation) : SM Tokeniser ChannelImplementation :=
  let! v := Value_cstr if_nm t_symbol in sret (modified (with_updates (map_assign nm v (updates_names i)) i)).
Definition addShares (nm if_nm : string) (i : ChannelImplementation) : SM Tokeniser ChannelImplementation :=
  let! v := Value_cstr if_nm t_symbol in sret (modified (with_shares (map_assign nm v (shares_names i)) i)).
Definition monitors (i : ChannelImplementation) : bool :=
  monitors_exports i || negb (bool_decide (monitors_names i = ∅)) || negb (bool_decide (monitors_patterns i = ∅)) ||
  negb (bool_decide (dom (monitors_properties i) = ∅)).
Definition updates (i : ChannelImplementation) : bool := negb (bool_decide (dom (updates_names i) = ∅)).
Definition shares_machines (i : ChannelImplementation) : bool := negb (bool_decide (dom (shares_names i) = ∅)).
End Definitions.

(** The static states of channels. *)
Class ChannelStates := {
  DISCONNECTED : State;
  WAITSTART : State;
  CONNECTING : State;
  CONNECTED : State;
  DOWNLOADING : State;
  UPLOADING : State;
  ACTIVE : State
}.
(** Extended regular expressions: whether a pattern compiles and matches a text. *)
Class Patterns := {
  pattern_compiles : string -> bool;
  pattern_matches : string -> string -> bool
}.

Section Channels.
Variable tk : ClockworkToken.
Context `{DynEnv} `{!Reactions} `{!Hub} `{!Virtuals} `{!Scope} `{!ChannelStates} `{!Patterns}.

(** [MachineInstance::find]. *)
Fixpoint first_named (name : string) (l : list ptr) : CM (option ptr) :=
  match l with
  | [] => sret None
  | m :: l' => let! n := name_of m in if bool_decide (n = name) then sret (Some m) else first_named name l'
  end.
Definition find_machine (name : string) : CM (option ptr) :=
  let! w := get_world in
  match split_dot name with
  | Some (machine, rest) =>
      let! mi := first_named machine (all_machines w) in
      match mi with Some m => on_t (lookup_machine m rest) | None => sret None end
  | None => first_named name (all_machines w)
  end.
(** [fullName]: the names of the owners, joined with dots. *)
Fixpoint full_name_n (n : nat) (res : string) (o : option ptr) : CM string :=
  match o with
  | None => sret res
  | Some m =>
      match n with
      | O => fun _ => Undef
      | S n' =>
          let! nm := name_of m in
          let! s := site_of m in
          full_name_n n' (nm +:+ "." +:+ res)%string (s_owner s)
      end
  end.
Definition fullName (m : ptr) : CM string :=
  let! w := get_world in
  let! nm := name_of m in
  let! s := site_of m in
  full_name_n (size (sites (ct w))) nm (s_owner s).

(** [publish] and [unpublish]. *)
Definition publish (m : ptr) : CM unit := on_t (upd_site m (fun s => set_published (published s + 1) s)).
Definition unpublish (m : ptr) : CM unit := on_t (upd_site m (fun s => set_published (published s - 1) s)).
Definition insert_machine (c m : ptr) : CM unit := upd_chan c (fun x => set_machines ({[m]} ∪ channel_machines x) x).
Definition carries (c m : ptr) : CM bool := let! x := get_chan c in sret (bool_decide (m ∈ channel_machines x)).
(** A machine that the channel does not carry yet is added. *)
Definition join_machine (c m : ptr) : CM unit :=
  let! there := carries c m in
  if there : bool then sret tt else run! publish m in insert_machine c m.
Definition touch (c : ptr) : CM unit :=
  let! w := get_world in upd_chan c (fun x => set_impl (modified (microsecs (ct w)) (ch_impl x)) x).

(** ** Which machines a channel carries *)
Definition each_machine (f : ptr -> CM unit) : CM unit := let! w := get_world in each_of f (all_machines w).
Definition has_exports (s : Site) : bool := negb (bool_decide (modbus_exports s = ∅)).
Definition include_exports (c : ptr) : CM unit :=
  each_machine (fun m =>
    let! s := site_of m in
    if has_exports s then run! insert_machine c m in publish m else sret tt).
Definition include_linked (c : ptr) (master_name : string) : CM unit :=
  let! master := find_machine master_name in
  run! (match master with None => transmit (CLog c) | Some _ => sret tt end) in
  each_machine (fun m =>
    let! s := site_of m in
    if match master with Some k => bool_decide (k ∈ s_listens s) | None => false end then join_machine c m else sret tt).
Definition include_matching (c : ptr) (pattern : string) : CM unit :=
  if pattern_compiles pattern then
    each_machine (fun m =>
      let! n := name_of m in if pattern_matches pattern n then join_machine c m else sret tt)
  else transmit (CLog c).
(** The machine has the property, and the value is the one given, if one is. *)
Definition property_matches (v wanted : Value) : res bool :=
  some_value ← value_ne v Null;
  if some_value : bool then any ← value_eq wanted Null; if any : bool then Ok true else value_eq v wanted
  else Ok false.
Definition include_property (c : ptr) (item : string * Value) : CM unit :=
  each_machine (fun m =>
    let! there := carries c m in
    if there : bool then sret tt else
    let! w := get_world in
    let? yes := property_matches (property_value m (fst item) (ct w)) (snd item) in
    if yes : bool then run! insert_machine c m in publish m else sret tt).
Definition ignore_matching (c : ptr) (pattern : string) : CM unit :=
  if pattern_compiles pattern then
    each_machine (fun m =>
      let! n := name_of m in
      if pattern_matches pattern n then
        let! there := carries c m in
        if there : bool then
          run! unpublish m in upd_chan c (fun x => set_machines (channel_machines x ∖ {[m]}) x)
        else sret tt
      else sret tt)
  else transmit (CLog c).
(** [processIgnoresPatternList]. *)
Definition processIgnoresPatternList (c : ptr) (patterns : gset string) : CM unit :=
  each_of (ignore_matching c) (names_of patterns).
Definition include_named (c : ptr) (name : string) : CM unit :=
  let! m := find_machine name in
  match m with Some m => join_machine c m | None => sret tt end.

Definition setupFilters (c : ptr) : CM unit :=
  let! x := get_chan c in
  let i := ch_impl x in
  if last_modified i <? last_checked i then sret tt else
  let! d := definition c in
  let di := d_impl d in
  run! (if monitors_exports di || monitors_exports i then include_exports c else sret tt) in
  run! each_of (include_linked c) (names_of (monitor_linked di)) in
  run! each_of (include_matching c) (names_of (monitors_patterns di)) in
  run! each_of (include_property c) (in_order (monitors_properties di)) in
  run! processIgnoresPatternList c (ignores_patterns di) in
  run! each_of (include_named c) (names_of (monitors_names di)) in
  run! processIgnoresPatternList c (ignores_patterns i) in
  run! each_of (include_named c) (names_of (monitors_names i)) in
  let monitoring := monitors_exports i || monitors_exports di ||
    negb (bool_decide (monitors_names di = ∅) && bool_decide (monitors_patterns di = ∅) &&
          bool_decide (dom (monitors_properties di) = ∅) && bool_decide (ignores_patterns di = ∅) &&
          bool_decide (ignores_patterns i = ∅) && bool_decide (monitors_names i = ∅) &&
          bool_decide (monitors_patterns i = ∅) && bool_decide (dom (monitors_properties i) = ∅)) in
  let! w := get_world in
  upd_chan c (fun x => set_impl (checked_now (microsecs (ct w)) (ch_impl x))
                         (set_does monitoring (shares_machines di) (updates di) x)).

(** [setupShadows]: the machines of the definition that are here are published; a
    shadow is owned by the channel. *)
Definition own_machine (m c : ptr) : CM unit := fun s =>
  x ← rd (subjects s !! m);
  Ok (tt, mkCWorld (ct s) (chans s) (all_channels s) (definitions s) (all_definitions s)
            (<[m := mkSubject (m_class x) (needs_throttle x) (Some c)]> (subjects s))
            (all_machines s) (classes s) (action_kinds s) (wire s)).
Definition setup_update (c : ptr) (name : string) : CM unit :=
  let! found := find_machine name in
  match found with
  | None => sret tt
  | Some m =>
      let! s := site_of m in
      if shadow s then
        run! publish m in run! insert_machine c m in run! touch c in own_machine m c
      else
        let! there := carries c m in
        if there : bool then sret tt else run! publish m in run! insert_machine c m in touch c
  end.
Definition setup_share (c : ptr) (name : string) : CM unit :=
  let! found := find_machine name in
  match found with
  | None => sret tt
  | Some m =>
      let! s := site_of m in
      if shadow s then sret tt else
      let! there := carries c m in
      if there : bool then sret tt else run! publish m in run! insert_machine c m in touch c
  end.
Definition setupShadows (c : ptr) : CM unit :=
  let! x := get_chan c in
  let! s := site_of c in
  let! w := get_world in
  let found := match definition_ x with Some d => Some d | None => all_definitions w !! _type s end in
  run! upd_chan c (set_definition found) in
  match found with
  | None => transmit (CLog c)
  | Some _ =>
      let! d := definition c in
      run! each_of (setup_update c) (keys_of (updates_names (d_impl d))) in
      each_of (setup_share c) (keys_of (shares_names (d_impl d)))
  end.
Definition channel_list : CM (list ptr) :=
  let! w := get_world in sret (match all_channels w with Some a => snd <$> in_order a | None => [] end).
Definition setupAllShadows : CM unit := let! l := channel_list in each_of setupShadows l.

(** [Channel::find], [findByType] and [remove]. *)
Definition channel_find (name : string) : CM (option ptr) :=
  let! w := get_world in sret (match all_channels w with Some a => a !! name | None => None end).
Fixpoint first_of_type (kind : string) (l : list ptr) : CM (option ptr) :=
  match l with
  | [] => sret None
  | c :: l' => let! s := site_of c in if bool_decide (_type s = kind) then sret (Some c) else first_of_type kind l'
  end.
Definition findByType (kind : string) : CM (option ptr) := let! l := channel_list in first_of_type kind l.
Definition channel_remove (name : string) : CM unit := fun s =>
  Ok (tt, mkCWorld (ct s) (chans s) (delete name <$> all_channels s) (definitions s) (all_definitions s) (subjects s)
            (all_machines s) (classes s) (action_kinds s) (wire s)).

(** [matches] and [filtersAllow]. *)
Definition filtersAllow (c m : ptr) : CM bool :=
  let! d := definition c in
  let! x := get_chan c in
  let! s := site_of m in
  if negb (bool_decide (monitor_linked (d_impl d) = ∅)) &&
     (bool_decide (_type s = "INPUTBIT") || bool_decide (_type s = "INPUTREGISTER")) then sret false
  else if (monitors_exports (d_impl d) || monitors_exports (ch_impl x)) && has_exports s then sret true
  else carries c m.

(** ** What is sent when a machine changes *)
Definition header : Header := mkHeader SOCK_CW SOCK_CHAN false.
Definition set_up (k : Comms) : bool := bool_decide (setupStatus k = e_done).
(** [ChannelDefinition::interfaceFor]: the interface of an updated or shared machine. *)
Definition interfaceFor (d : ChannelDefinition) (name : string) : CM (option ClassInfo) :=
  let! w := get_world in
  match updates_names (d_impl d) !! name with
  | Some v => let? n := asString v in sret (classes w !! n)
  | None =>
      match shares_names (d_impl d) !! name with
      | Some v => let? n := asString v in sret (classes w !! n)
      | None => sret None
      end
  end.
(** [propertyIsLocal] of the class of a machine; a machine without a class has no
    local properties. *)
Definition is_local (m : ptr) (key : Value) : CM bool :=
  let! s := get_subject m in
  match m_class s with
  | None => sret false
  | Some k => let? n := asString key in sret (bool_decide (n ∈ local_properties k))
  end.
Definition PROPERTY (name : string) (key v auth : Value) : CM text :=
  let! n := on_t (tokenise (Value_str name t_symbol)) in slift (encodeCommand4 "PROPERTY" n key v auth).
Definition as_authority (z : Z) : Value := Value_long (to_s64 z).
(** The command that [sendPropertyChangeMessage] sends, if any. *)
Definition property_command (c m : ptr) (name : string) (key v : Value) (auth : Z) : CM (option text) :=
  let! d := definition c in
  if isPublisher d then let! t := PROPERTY name key v Null in sret (Some t) else
  let! s := site_of m in
  let! k := get_subject m in
  if shadow s && bool_decide (ownerChannel k = Some c) then
    if negb (auth =? 0) then sret None else
    let? cls := rd (m_class k) in
    let? n := asString key in
    if bool_decide (n ∈ property_names cls) then let! t := PROPERTY name key v (as_authority auth) in sret (Some t)
    else sret None
  else
    let! mn := name_of m in
    let! found := interfaceFor d mn in
    let? _ok := assert (bool_decide (is_Some found)) in
    match found with
    | None => sret None
    | Some i =>
        let? n := asString key in
        if bool_decide (n ∈ property_names i) then
          let! t := PROPERTY name key v (as_authority (authority (d_impl d))) in sret (Some t)
        else sret None
    end.
Definition sendPropertyChangeMessage (c m : ptr) (name : string) (key v : Value) (auth : Z) : CM unit :=
  let! d := definition c in
  if hasFeature ReportLocalPropertyChanges d then sret tt else
  let! l := is_local m key in
  if l : bool then sret tt else
  let! x := get_chan c in
  match comms x with
  | Some k =>
      let! cmd := property_command c m name key v auth in
      match cmd with
      | None => sret tt
      | Some t => if isClient x && negb (set_up k) then sret tt else safeSend c cmd_client t header
      end
  | None =>
      if has_mif x then let! t := PROPERTY name key v Null in safeSend c publisher t header else sret tt
  end.

Definition state_of (c : ptr) : CM State := let! s := site_of c in sret (Transitions.current_state s).
Definition disconnected (c : ptr) : CM bool := let! st := state_of c in sret (state_eq st DISCONNECTED).
Definition active (c : ptr) : CM bool := let! st := state_of c in sret (state_eq st ACTIVE).
(** [throttled_items[machine]->properties[key] = val]. *)
Definition throttle (c m : ptr) (key : string) (v : Value) : CM unit :=
  upd_chan c (fun x =>
    let r := default (mkRecord m ∅) (throttled_items x !! m) in
    set_throttled (<[m := mkRecord (mr_machine r) (map_assign key v (mr_properties r))]> (throttled_items x)) x).
Definition reports_key (d : ChannelDefinition) (m : ptr) (key : Value) : CM bool :=
  if hasFeature ReportLocalPropertyChanges d then sret true else
  let! s := get_subject m in
  match m_class s with
  | None => sret false
  | Some _ => let! l := is_local m key in sret (negb l)
  end.
Definition change_on (c m : ptr) (key v : Value) (auth : Z) : CM unit :=
  let! d := definition c in
  if negb (hasFeature ReportPropertyChanges d) then sret tt else
  let! a := active c in
  if negb a then sret tt else
  let! there := carries c m in
  if negb there then sret tt else
  let! allowed := filtersAllow c m in
  if negb allowed then sret tt else
  let! x := get_chan c in
  let! s := get_subject m in
  if negb (throttle_time x =? 0) && needs_throttle s then
    let? n := asString key in throttle c m n v
  else
    let! yes := reports_key d m key in
    if yes : bool then let! nm := name_of m in sendPropertyChangeMessage c m nm key v auth else sret tt.
Definition sendPropertyChange (m : ptr) (key v : Value) (auth : Z) : CM unit :=
  let! w := get_world in
  match all_channels w with
  | None => sret tt
  | Some _ =>
      let! _name := fullName m in
      let! l := is_local m key in
      if l : bool then sret tt else
      let! cs := channel_list in each_of (fun c => change_on c m key v auth) cs
  end.

(** One throttled property is sent. *)
Definition send_throttled (c : ptr) (d : ChannelDefinition) (m : ptr) (p : string * Value) : CM unit :=
  let! key := on_t (tokenise (Value_str (fst p) t_symbol)) in
  let! yes := reports_key d m key in
  if yes : bool then let! nm := name_of m in sendPropertyChangeMessage c m nm key (snd p) 0 else sret tt.
Definition modbus_throttled (m : ptr) (p : string * Value) : CM unit := transmit (ModbusUpdate m (fst p) (snd p)).
Definition send_record (c : ptr) (item : ptr * MachineRecord) : CM unit :=
  let! d := definition c in
  let do_modbus := hasFeature ReportModbusUpdates d in
  let do_properties := hasFeature ReportPropertyChanges d in
  let r := snd item in
  let? _ok := assert (do_properties || do_modbus) in
  run! (if do_properties then each_of (send_throttled c d (mr_machine r)) (in_order (mr_properties r)) else sret tt) in
  run! (if do_modbus then each_of (modbus_throttled (mr_machine r)) (in_order (mr_properties r)) else sret tt) in
  upd_chan c (fun x => set_throttled (delete (fst item) (throttled_items x)) x).
Definition sendThrottledUpdates (c : ptr) : CM unit :=
  let! a := active c in
  if negb a then sret tt else
  let! x := get_chan c in
  if match comms x with None => true | Some k => subs_disconnected k end then sret tt else
  let! w := get_world in
  run! upd_chan c (set_last_send (microsecs (ct w))) in
  each_of (send_record c) (map_to_list (throttled_items x)).
Definition throttledItemsReady (now_usecs : Z) (x : Channel) : bool :=
  negb (bool_decide (dom (throttled_items x) = ∅)) && (throttle_time x <=? u64 (now_usecs - last_throttled_send x)).
(** [sendPropertyChanges]: the changes recorded for a machine are sent at once. *)
Definition changes_on (m c : ptr) : CM unit :=
  let! d := definition c in
  let do_modbus := hasFeature ReportModbusUpdates d in
  let do_properties := hasFeature ReportPropertyChanges d in
  let! off := disconnected c in
  if off : bool then sret tt else
  if negb do_modbus && negb do_properties then sret tt else
  let! there := carries c m in
  if negb there then sret tt else
  let! x := get_chan c in
  if throttle_time x =? 0 then sret tt else
  let! allowed := filtersAllow c m in
  match (if allowed : bool then throttled_items x !! m else None) with
  | None => sret tt
  | Some r =>
      run! each_of (fun p =>
          run! (if do_properties then send_throttled c d m p else
                let! _key := on_t (tokenise (Value_str (fst p) t_symbol)) in sret tt) in
          if do_modbus then modbus_throttled m p else sret tt) (in_order (mr_properties r)) in
      upd_chan c (fun x => set_throttled (delete m (throttled_items x)) x)
  end.
Definition sendPropertyChanges (m : ptr) : CM unit :=
  let! w := get_world in
  match all_channels w with
  | None => sret tt
  | Some _ => let! _name := fullName m in let! cs := channel_list in each_of (changes_on m) cs
  end.
Definition modbus_on (m : ptr) (name : string) (v : Value) (c : ptr) : CM unit :=
  let! off := disconnected c in
  if off : bool then sret tt else
  let! d := definition c in
  if negb (hasFeature ReportModbusUpdates d) then sret tt else
  let! x := get_chan c in
  let! s := get_subject m in
  if negb (throttle_time x =? 0) && needs_throttle s then throttle c m name v
  else transmit (ModbusUpdate m name v).
Definition sendModbusUpdate (m : ptr) (name : string) (v : Value) : CM unit :=
  let! cs := channel_list in each_of (modbus_on m name v) cs.

(** The command that reports a state. *)
Definition state_command (c m : ptr) (name state : string) (auth : Z) (echo : bool) : CM (option text) :=
  let! d := definition c in
  if isPublisher d then sret (Some (encodeState name state)) else
  let! s := site_of m in
  let! k := get_subject m in
  if shadow s then
    if negb echo && bool_decide (ownerChannel k = Some c) && negb (auth =? 0) then sret None
    else sret (Some (encodeState_auth name state auth))
  else let! x := get_chan c in sret (Some (encodeState_auth name state (authority (ch_impl x)))).
Definition connected_comms (x : Channel) : bool :=
  match comms x with Some k => negb (isClient x) || set_up k | None => false end.
Definition state_on (m : ptr) (name state : string) (auth : Z) (c : ptr) : CM unit :=
  let! off := disconnected c in
  if off : bool then sret tt else
  let! d := definition c in
  if negb (hasFeature ReportStateChanges d) then sret tt else
  let! there := carries c m in
  if negb there then sret tt else
  let! allowed := filtersAllow c m in
  if negb allowed then sret tt else
  let! cmd := state_command c m name state auth false in
  match cmd with
  | None => sret tt
  | Some t =>
      let! x := get_chan c in
      if connected_comms x then safeSend c cmd_client t header
      else if has_mif x then safeSend c publisher t header
      else transmit (CLog c)
  end.
Definition sendStateChange (m : ptr) (state : string) (auth : Z) : CM unit :=
  let! w := get_world in
  match all_channels w with
  | None => sret tt
  | Some _ => let! name := fullName m in let! cs := channel_list in each_of (state_on m name state auth) cs
  end.
Definition requestStateChange (c m : ptr) (state : string) (auth : Z) : CM unit :=
  let! name := fullName m in
  let! off := disconnected c in
  if off : bool then sret tt else
  let! d := definition c in
  if negb (hasFeature ReportStateChanges d) then sret tt else
  let! there := carries c m in
  if negb there then sret tt else
  let! allowed := filtersAllow c m in
  if negb allowed then sret tt else
  let! cmd := state_command c m name state auth true in
  match cmd with
  | None => sret tt
  | Some t =>
      let! x := get_chan c in
      if connected_comms x then safeSend c cmd_client t header
      else if has_mif x then transmit (Published c t)
      else transmit (CLog c)
  end.
(** [sendCommand]. *)
Definition command_on (m : ptr) (command : string) (params : option (list Value)) (c : ptr) : CM unit :=
  let! off := disconnected c in
  if off : bool then sret tt else
  let! d := definition c in
  if bool_decide (command = "UPDATE") && negb (hasFeature ReportModbusUpdates d) then sret tt else
  let! there := carries c m in
  if negb there then sret tt else
  let! allowed := filtersAllow c m in
  if negb allowed then sret tt else
  let! x := get_chan c in
  if connected_comms x then let? t := encodeCommand command params in safeSend c cmd_server t header
  else if has_mif x then let? t := encodeCommand command params in safeSend c publisher t header
  else transmit (CLog c).
Definition sendCommand (m : ptr) (command : string) (params : option (list Value)) : CM unit :=
  let! w := get_world in
  match all_channels w with
  | None => sret tt
  | Some _ =>
      let! s := site_of m in
      if shadow s then
        let! k := get_subject m in
        match ownerChannel k with
        | None => sret tt
        | Some c =>
            let! off := disconnected c in
            if off : bool then sret tt else
            let? _ok := assert (negb (bool_decide (command = "UPDATE"))) in
            let? t := encodeCommand command params in
            let! x := get_chan c in
            if connected_comms x then safeSend c cmd_client t header else transmit (CLog c)
        end
      else
        let! _name := fullName m in
        let! cs := channel_list in each_of (command_on m command params) cs
  end.

(** ** The exchange that starts a connection *)
Definition check_channel (c : ptr) : CM unit := on_t (Transitions.needs_check tk c).
Definition queue_action (c : ptr) (b : Body) : CM ptr :=
  let! a := on_t (on_heap (Action_new c None b)) in
  run! on_t (on_heap (enqueueAction a c)) in sret a.
(** [enqueueAction] of SET SELF TO a state. *)
Definition queue_state (c : ptr) (state : string) : CM unit :=
  let! _a := queue_action c (BSetState "SELF" state) in sret tt.
Definition requireAuthority (m : ptr) (auth : Z) : CM unit := on_t (upd_site m (set_authority auth)).
(** The authority of the definition of the channel that owns a shadow. *)
Definition machine_authority (m : ptr) : CM Z :=
  let! k := get_subject m in
  let? o := rd (ownerChannel k) in
  let! d := definition o in sret (authority (d_impl d)).
(** A shadow is linked to the channel and an EnableAction of the shadow is put on the
    stack of the channel. *)
Definition enable_shadow (c m : ptr) : CM unit :=
  let! there := carries c m in
  run! (if there : bool then sret tt else run! insert_machine c m in touch c) in
  let! a := on_t (on_heap (Action_new m None (BOther 0))) in
  run! set_kind a (AEnable m) in on_t (on_heap (enqueueAction a c)).
Definition shadow_named (name : string) : CM (option ptr) :=
  let! found := find_machine name in
  match found with
  | None => sret None
  | Some m => let! s := site_of m in sret (if shadow s then Some m else None)
  end.
Definition enable_update (c : ptr) (name : string) : CM unit :=
  let! found := shadow_named name in
  match found with
  | None => sret tt
  | Some m =>
      let! auth := machine_authority m in
      let! d := definition c in
      let! mn := name_of m in
      run! (if bool_decide (mn ∈ dom (updates_names (d_impl d))) then requireAuthority m auth else sret tt) in
      let! x := get_chan c in
      if (isClient x && (authority (ch_impl x) =? auth)) || (authority (d_impl d) =? auth) then enable_shadow c m else sret tt
  end.
Definition enable_share (c : ptr) (name : string) : CM unit :=
  let! found := shadow_named name in
  match found with
  | None => sret tt
  | Some m =>
      let! auth := machine_authority m in
      let! x := get_chan c in
      run! (if isClient x then requireAuthority m auth else sret tt) in
      if authority (ch_impl x) =? auth then enable_shadow c m else sret tt
  end.
Definition enableShadows (c : ptr) : CM unit :=
  let! x := get_chan c in
  run! (if isClient x then
          let? k := rd (comms x) in
          upd_chan c (fun x => set_impl (with_channel_authority (comms_authority k) (ch_impl x)) x)
        else sret tt) in
  let! d := definition c in
  run! each_of (enable_update c) (keys_of (updates_names (d_impl d))) in
  each_of (enable_share c) (keys_of (shares_names (d_impl d))).
Definition disable_shadow (m : ptr) : CM unit :=
  let! w := get_world in on_t (disable_n tk (S (size (Machine.machines (tw (ct w))))) m).
Definition disable_update (c : ptr) (name : string) : CM unit :=
  let! found := shadow_named name in
  match found with
  | None => sret tt
  | Some m =>
      let! auth := machine_authority m in
      let! d := definition c in
      let! x := get_chan c in
      if (isClient x && (authority (ch_impl x) =? auth)) || (authority (d_impl d) =? auth) then disable_shadow m else sret tt
  end.
Definition disable_share (c : ptr) (name : string) : CM unit :=
  let! found := shadow_named name in
  match found with
  | None => sret tt
  | Some m =>
      let! auth := machine_authority m in
      let! x := get_chan c in
      if authority (ch_impl x) =? auth then disable_shadow m else sret tt
  end.
Definition disableShadows (c : ptr) : CM unit :=
  let! d := definition c in
  run! each_of (disable_update c) (keys_of (updates_names (d_impl d))) in
  each_of (disable_share c) (keys_of (shares_names (d_impl d))).

(** A channel can leave DISCONNECTED only if it has a connection or its sockets are up. *)
Definition may_change (x : Channel) : res bool :=
  match comms x with
  | None => Ok false
  | Some k =>
      if isClient x && bool_decide (setup_disconnected k = None) then Ok false else
      setup ← (if isClient x then rd (setup_disconnected k) else Ok false);
      Ok (negb (setup || subs_disconnected k))
  end.
Definition control : Header := mkHeader SOCK_CTRL SOCK_CTRL false.
Definition control_reply : Header := mkHeader SOCK_CTRL SOCK_CTRL true.
(** What happens on entering a state. *)
Definition entered (c : ptr) (st : State) : CM unit :=
  let! x := get_chan c in
  if state_eq st CONNECTED then
    run! enableShadows c in
    run! check_channel c in
    if isClient x then queue_state c "DOWNLOADING" else sret tt
  else if state_eq st WAITSTART then enableShadows c
  else if state_eq st UPLOADING then
    run! check_channel c in
    let! a := queue_action c (BOther 0) in set_kind a ASync
  else if state_eq st DOWNLOADING then
    if isClient x then safeSend c cmd_client (chars "status") control
    else safeSend c cmd_client (chars "done") control_reply
  else if state_eq st DISCONNECTED then run! disableShadows c in check_channel c
  else sret tt.
(** [Channel::setState]; the authority is not passed on. *)
Definition channel_setState (c : ptr) (st : State) (resume : bool) : CM Status :=
  run! check_channel c in
  let! x := get_chan c in
  let? ok := (if state_ne st DISCONNECTED && (connections x =? 0) then may_change x else Ok true) in
  if negb ok then sret Failed else
  let! r := on_t (Transitions.setState tk c st 0 resume) in
  run! entered c st in sret r.

(** [addConnection] and [dropConnection]. *)
Definition queue_download (c : ptr) : CM unit :=
  let! a := on_t (on_heap (Action_new c None (BWait 50 "" false))) in
  let! b := on_t (on_heap (Action_new c None (BSetState "SELF" "CONNECTED"))) in
  let! _mc := queue_action c (BCommand (mkCommand [a; b] 0 0 "" false)) in sret tt.
Definition addConnection (c : ptr) : CM unit :=
  run! upd_chan c (fun x => set_connections (connections x + 1) x) in
  let! x := get_chan c in
  let! d := definition c in
  if connections x =? 1 then
    if isPublisher d then queue_state c "ACTIVE"
    else if isClient x then queue_download c else queue_state c "WAITSTART"
  else if isClient x then fun _ => Abort
  else if isPublisher d then sret tt
  else
    let! st := state_of c in
    if state_ne st WAITSTART then queue_state c "WAITSTART" else sret tt.
Definition dropConnection (c : ptr) : CM unit :=
  let! x := get_chan c in
  let? _ok := assert (negb (connections x =? 0)) in
  run! upd_chan c (fun x => set_connections (connections x - 1) x) in
  let! x := get_chan c in
  run! (if connections x =? 0 then queue_state c "DISCONNECTED" else sret tt) in
  slift (assert (0 <=? connections x)).

(** [checkCommunications]. *)
Definition go_to (c : ptr) (st : State) : CM unit := let! _r := channel_setState c st false in sret tt.
Definition checkCommunications (c : ptr) : CM unit :=
  let! x := get_chan c in
  match comms x with
  | None => sret tt
  | Some k =>
      if negb (comms_ready k) then sret tt else
      let? setup := rd (setup_disconnected k) in
      let! st := state_of c in
      if setup || subs_disconnected k then
        if isClient x then
          if setup && state_ne st DISCONNECTED then go_to c DISCONNECTED
          else if negb setup && bool_decide (setupStatus k = e_waiting_connect) && state_ne st CONNECTING
               then go_to c CONNECTING else sret tt
        else sret tt
      else if state_eq st DISCONNECTED then go_to c CONNECTED
      else if state_eq st CONNECTED || state_eq st CONNECTING then
        if isClient x then go_to c DOWNLOADING else go_to c UPLOADING
      else sret tt
  end.
(** [checkStateChange]: the other side has sent [done] or [status]. *)
Definition checkStateChange (c : ptr) (event : string) : CM unit :=
  let! st := state_of c in
  run! (if state_eq st DISCONNECTED then checkCommunications c else sret tt) in
  let! st := state_of c in
  if state_eq st DISCONNECTED then sret tt else
  let! x := get_chan c in
  if isClient x then
    if state_eq st DOWNLOADING then go_to c UPLOADING
    else if state_eq st UPLOADING then go_to c ACTIVE else sret tt
  else
    run! (if state_eq st CONNECTED && bool_decide (event = "status") then go_to c UPLOADING else sret tt) in
    let! st := state_of c in
    if state_eq st WAITSTART && bool_decide (event = "status") then go_to c UPLOADING
    else if state_eq st ACTIVE && bool_decide (event = "status") then sret tt
    else if state_eq st UPLOADING || state_eq st DOWNLOADING then go_to c ACTIVE
    else sret tt.
(** A message on the control socket of the thread of the channel. [strncmp] with the
    length of the message accepts a prefix. *)
Definition handle_control (c : ptr) (data : string) (reply : bool) : CM unit :=
  let! x := get_chan c in
  let known := String.prefix data "done" || String.prefix data "status" in
  run! (if known then checkStateChange c data else sret tt) in
  if reply || (known && isClient x) then
    safeSend c remote_sock (chars "ack") (mkHeader SOCK_CHAN SOCK_CTRL false)
  else sret tt.

(** ** Sending the state of all machines *)
Definition encode_property (m : ptr) (d : ChannelDefinition) (key : string) : CM (list text) :=
  let! w := get_world in
  let v := property_value m key (ct w) in
  let? some_value := value_ne v Null in
  if some_value : bool then
    let! nm := name_of m in
    let! k := on_t (tokenise (Value_str key t_symbol)) in
    let! t := PROPERTY nm k v (as_authority (authority (d_impl d))) in sret [t]
  else sret [].
Fixpoint gather {A} (f : A -> CM (list text)) (l : list A) : CM (list text) :=
  match l with
  | [] => sret []
  | a :: l' => let! x := f a in let! y := gather f l' in sret (x ++ y)
  end.
Definition syncInterfaceProperties (c m : ptr) : CM (list text) :=
  let! d := definition c in
  if negb (hasFeature ReportPropertyChanges d) then sret [] else
  let! s := site_of m in
  if shadow s then sret [] else
  let! nm := name_of m in
  match (match updates_names (d_impl d) !! nm with Some v => Some v | None => shares_names (d_impl d) !! nm end) with
  | None => sret []
  | Some v =>
      let? n := asString v in
      let! w := get_world in
      match classes w !! n with
      | None => run! transmit (CLog c) in sret []
      | Some i => if is_interface i then gather (encode_property m d) (names_of (property_names i)) else sret []
      end
  end.
(** The states of the machines; a server without a socket sends them at once. *)
Definition sync_state (c m : ptr) : CM (list text) :=
  let! s := site_of m in
  if shadow s then sret [] else
  let! x := get_chan c in
  let! d := definition c in
  let! nm := name_of m in
  let state := s_text (Transitions.current_state s) in
  if isClient x then sret [encodeState_auth nm state (authority (ch_impl x))]
  else if has_client x then sret [encodeState_auth nm state (authority (d_impl d))]
  else run! sendStateChange m state (authority (d_impl d)) in sret [].
Definition syncRemoteStates (c : ptr) : CM (option (list text)) :=
  let! d := definition c in
  if isPublisher d then sret None else
  let! off := disconnected c in
  if off : bool then sret None else
  let! x := get_chan c in
  let ms := elements (channel_machines x) in
  let! states := (if hasFeature ReportStateChanges d then gather (sync_state c) ms else sret []) in
  let! props := (if hasFeature ReportPropertyChanges d then gather (syncInterfaceProperties c) ms else sret []) in
  sret (Some (states ++ props)).

(** *** SyncRemoteStatesAction *)
Inductive ProcessState := ps_init | ps_sending_messages | ps_waiting_ack.
Inductive MessageState := e_sending | e_receiving | e_sent.
Record SyncFields := mkSync {
  sy_messages : list text;
  sy_message_state : MessageState;
  sy_process : ProcessState
}.
(** The messages are sent one for each call, then [done], which wants an answer.
    [acked] says whether an answer can be read from the socket. Between calls the iterator
    is null exactly when no message is left: a failed action that is run again reads it. *)
Definition sync_messages (c : ptr) (f : SyncFields) : CM SyncFields :=
  match sy_messages f with
  | m :: l' =>
      run! safeSend c cmd_client m header in
      match l' with
      | [] => run! safeSend c cmd_client (chars "done") control_reply in sret (mkSync [] e_sent ps_waiting_ack)
      | _ => sret (mkSync l' e_sending ps_sending_messages)
      end
  | [] => run! safeSend c cmd_client (chars "done") control_reply in sret (mkSync [] e_sent ps_waiting_ack)
  end.
Definition sync_execute (acked : bool) (f : SyncFields) (a : ptr) : CM (SyncFields * Status) :=
  let! c := on_t (owner_of a) in
  match sy_process f with
  | ps_init =>
      run! on_t (begin tk a c) in
      run! on_t (put_status Running a) in
      let! l := syncRemoteStates c in
      match l with
      | None =>
          run! on_t (fail_text "Failed to sync" a) in
          let! r := on_t (done tk Failed a c) in sret (mkSync [] (sy_message_state f) ps_sending_messages, r)
      | Some l =>
          let! f' := sync_messages c (mkSync l e_sending ps_sending_messages) in
          let! r := on_t (status_of a) in sret (f', r)
      end
  | ps_sending_messages =>
      let? _iter := rd (head (sy_messages f)) in
      let! f' := sync_messages c f in let! r := on_t (status_of a) in sret (f', r)
  | ps_waiting_ack =>
      if acked then
        let! r := on_t (done tk Complete a c) in
        let! x := get_chan c in
        run! (if isClient x then queue_state c "ACTIVE" else queue_state c "DOWNLOADING") in sret (f, r)
      else let! r := on_t (status_of a) in sret (f, r)
  end.
Definition sync_run : bool -> SyncFields -> ptr -> CM (SyncFields * Status) := sync_execute.
Definition sync_checkComplete (acked : bool) (f : SyncFields) (a : ptr) : CM (SyncFields * Status) :=
  let! st := on_t (status_of a) in
  let! f := (match st with
             | New | NeedsRetry =>
                 let! r := sync_execute acked f a in
                 run! on_t (put_status (snd r) a) in sret (fst r)
             | _ => sret f
             end) in
  let! st := on_t (status_of a) in
  run! (match st with Suspended => on_t (on_heap (resume tk a)) | _ => sret tt end) in
  let! st := on_t (status_of a) in
  match st with
  | Running =>
      let! r := sync_execute acked f a in
      run! on_t (put_status (snd r) a) in sret (fst r, snd r)
  | _ => sret (f, st)
  end.
End Channels.
