(* ===== verification/ChannelFilters.v ===== *)
(** Which machines a channel carries after [setupFilters], and how often each is
    counted as published. *)
From S2P Require Import Prelude Cnum Tokeniser Value SymbolTable Message Handlers Machine MachineProps StableStates Names Modbus Transitions TransitionsProps TransitionOrder Control MachineActions Json MessageEncoding Channels.
From stdpp Require Import sorting.
Open Scope Z_scope.
Local Open Scope sm_scope.

Definition ind (b : bool) : Z := if b then 1 else 0.
Definition inside (S : gset ptr) (m : ptr) : Z := ind (bool_decide (m ∈ S)).

(** The part of a world that [setupFilters] may read but not change. *)
Record frame (w w' : CWorld) : Prop := {
  fr_tw : tw (ct w') = tw (ct w);
  fr_rules : rules (ct w') = rules (ct w);
  fr_toks : toks (ct w') = toks (ct w);
  fr_words : key_words (ct w') = key_words (ct w);
  fr_seq : sequence (ct w') = sequence (ct w);
  fr_mail : to_deliver (ct w') = to_deliver (ct w);
  fr_log : log (ct w') = log (ct w);
  fr_all : all_channels w' = all_channels w;
  fr_defs : definitions w' = definitions w;
  fr_all_defs : all_definitions w' = all_definitions w;
  fr_subjects : subjects w' = subjects w;
  fr_machines : all_machines w' = all_machines w;
  fr_classes : classes w' = classes w;
  fr_kinds : action_kinds w' = action_kinds w
}.
Lemma frame_refl w : frame w w.
Proof. by split. Qed.

Section Filters.
Context (tk : ClockworkToken) `{DynEnv} `{!Reactions} `{!Hub} `{!Virtuals} `{!Scope} `{!ChannelStates} `{!Patterns}.
Variables (c : ptr) (x0 : Channel) (w0 : CWorld) (look : ptr -> string -> option ptr).
(** Looking a name up does not change anything, and the value of a property depends on
    the properties only. *)
Hypothesis lookup_pure : forall m n t, lookup_machine m n t = Ok (look m n, t).
Hypothesis values_from_properties : forall m k t t',
  (forall j, properties <$> sites t !! j = properties <$> sites t' !! j) -> property_value m k t = property_value m k t'.
Hypothesis channel_there : chans w0 !! c = Some x0.
Hypothesis no_duplicates : NoDup (all_machines w0).
Hypothesis machines_there : forall m, m ∈ all_machines w0 ->
  is_Some (Machine.machines (tw (ct w0)) !! m) /\ is_Some (sites (ct w0) !! m).
Hypothesis found_there : forall m n k, look m n = Some k ->
  is_Some (sites (ct w0) !! k).

(** The channel carries the machines [S]; [extra] counts the machines published again. *)
Record carrying (extra : ptr -> Z) (S : gset ptr) (w : CWorld) : Prop := {
  ca_frame : frame w0 w;
  ca_chans : chans w = <[c := set_machines S x0]> (chans w0);
  ca_sites m : sites (ct w) !! m =
    (fun s => set_published (published s + inside S m - inside (channel_machines x0) m + extra m) s) <$> sites (ct w0) !! m
}.
Lemma carrying_start : carrying (fun _ => 0) (channel_machines x0) w0.
Proof.
  split; [apply frame_refl | |].
  - rewrite insert_id; [done |]. rewrite channel_there. by destruct x0.
  - intros m. destruct (sites (ct w0) !! m) as [s|]; [|done]. cbn. f_equal.
    replace (published s + inside (channel_machines x0) m - inside (channel_machines x0) m + 0) with (published s) by lia.
    by destruct s.
Qed.
Lemma carrying_chan extra S w : carrying extra S w -> chans w !! c = Some (set_machines S x0).
Proof. intros Hc. by rewrite (ca_chans _ _ _ Hc), lookup_insert_eq. Qed.
Lemma carries_run extra S w m : carrying extra S w -> carries c m w = Ok (bool_decide (m ∈ S), w).
Proof. intros Hc. unfold carries, get_chan, sbind. by rewrite (carrying_chan _ _ _ Hc). Qed.
Lemma site_of_run extra S w m s : carrying extra S w -> sites (ct w0) !! m = Some s ->
  exists s', site_of m w = Ok (s', w) /\ s' = set_published (published s') s.
Proof.
  intros Hc Es. pose proof (ca_sites _ _ _ Hc m) as E. rewrite Es in E. cbn in E. eexists. split.
  - unfold site_of, on_t, get_site. rewrite E. cbn. by destruct w.
  - done.
Qed.
Lemma name_of_run extra S w m x : carrying extra S w -> Machine.machines (tw (ct w0)) !! m = Some x ->
  name_of m w = Ok (m_name x, w).
Proof.
  intros Hc Ex. unfold name_of, on_t, mname. rewrite (sbind_run (machine m) _ (ct w) x (ct w)).
  - cbn. by destruct w.
  - apply machine_run. by rewrite (fr_tw _ _ (ca_frame _ _ _ Hc)).
Qed.
(** A change of the set and of the count of one machine. *)
Lemma published_at (z z' : Z) s : z = z' -> Some (set_published z s) = Some (set_published z' s).
Proof. by intros ->. Qed.
Lemma carrying_step extra S w m s f g S' extra' : carrying extra S w -> sites (ct w0) !! m = Some s ->
  g (set_machines S x0) = set_machines S' x0 ->
  (forall j, j <> m -> inside S' j + extra' j = inside S j + extra j) ->
  (forall z, f z = z + inside S' m + extra' m - inside S m - extra m) ->
  exists w', (run! on_t (upd_site m (fun s => set_published (f (published s)) s)) in upd_chan c g) w = Ok (tt, w') /\
    (run! upd_chan c g in on_t (upd_site m (fun s => set_published (f (published s)) s))) w = Ok (tt, w') /\
    carrying extra' S' w'.
Proof.
  intros Hc Es Hg Hoth Hm. pose proof (carrying_chan _ _ _ Hc) as Ec. pose proof (ca_sites _ _ _ Hc m) as E. rewrite Es in E. cbn in E.
  eexists. unfold sbind, on_t, upd_site, upd_chan. rewrite E, Ec. cbn. rewrite Ec, E. cbn.
  split; [reflexivity |]. split; [reflexivity |]. destruct Hc as [[] Hch Hs]. split; [by split | |].
  - cbn. by rewrite Hch, insert_insert_eq, Hg.
  - intros j. cbn. destruct (decide (m = j)) as [<- | Hne].
    + rewrite lookup_insert_eq, Es. refine (published_at (f (published s + inside S m - inside (channel_machines x0) m + extra m)) _ s _). rewrite Hm. lia.
    + rewrite lookup_insert_ne, Hs by done. destruct (sites (ct w0) !! j) as [sj|]; [|done]. cbn. apply published_at.
      specialize (Hoth j ltac:(done)). lia.
Qed.
Lemma inside_union S m j : inside ({[m]} ∪ S) j = if decide (j = m) then 1 else inside S j.
Proof. unfold inside, ind. case_decide; repeat case_bool_decide; set_solver. Qed.
Lemma inside_minus S m j : inside (S ∖ {[m]}) j = if decide (j = m) then 0 else inside S j.
Proof. unfold inside, ind. case_decide; repeat case_bool_decide; set_solver. Qed.
Lemma inside_in S m : m ∈ S -> inside S m = 1.
Proof. intros Hm. unfold inside. by rewrite bool_decide_true. Qed.
Lemma inside_out S m : m ∉ S -> inside S m = 0.
Proof. intros Hm. unfold inside. by rewrite bool_decide_false. Qed.

(** A machine joins, is put in by a property, or is taken out. *)
Lemma carrying_same extra S S' w : S = S' -> carrying extra S w -> carrying extra S' w.
Proof. by intros <-. Qed.
Lemma adds_machine extra S w m s : carrying extra S w -> sites (ct w0) !! m = Some s -> m ∉ S ->
  exists w', (run! publish m in insert_machine c m) w = Ok (tt, w') /\
    (run! insert_machine c m in publish m) w = Ok (tt, w') /\ carrying extra ({[m]} ∪ S) w'.
Proof.
  intros Hc Es Hm. apply (carrying_step extra S w m s (fun z => z + 1)); [done | done | by destruct x0 | |].
  - intros j Hj. rewrite inside_union, decide_False by done. done.
  - intros z. rewrite inside_union, decide_True, (inside_out S m) by done. lia.
Qed.
Lemma join_run extra S w m s : carrying extra S w -> sites (ct w0) !! m = Some s ->
  exists w', join_machine c m w = Ok (tt, w') /\ carrying extra ({[m]} ∪ S) w'.
Proof.
  intros Hc Es. unfold join_machine. rewrite (sbind_run _ _ _ _ _ (carries_run _ _ _ m Hc)). case_bool_decide as Hm.
  - exists w. split; [done |]. eapply carrying_same, Hc. set_solver.
  - destruct (adds_machine _ _ _ _ _ Hc Es Hm) as (w' & R & _ & Hc'). eauto.
Qed.
Lemma leave_run extra S w m s : carrying extra S w -> sites (ct w0) !! m = Some s -> m ∈ S ->
  exists w', (run! unpublish m in upd_chan c (fun x => set_machines (channel_machines x ∖ {[m]}) x)) w = Ok (tt, w') /\
    carrying extra (S ∖ {[m]}) w'.
Proof.
  intros Hc Es Hm.
  destruct (carrying_step extra S w m s (fun z => z - 1) (fun x => set_machines (channel_machines x ∖ {[m]}) x) (S ∖ {[m]}) extra)
    as (w' & R & _ & Hc'); [done | done | by destruct x0 | | | eauto].
  - intros j Hj. rewrite inside_minus, decide_False by done. done.
  - intros z. rewrite inside_minus, decide_True, (inside_in S m) by done. lia.
Qed.

(** *** Loops *)
(** A loop whose body adds the machines with a property, or takes them out. *)
Lemma each_adds extra (f : ptr -> CM unit) (P : ptr -> bool) l : forall S w, carrying extra S w ->
  (forall m S w, m ∈ l -> carrying extra S w -> exists w', f m w = Ok (tt, w') /\
    carrying extra (if P m then {[m]} ∪ S else S) w') ->
  exists w', each_of f l w = Ok (tt, w') /\ carrying extra (list_to_set (filter (fun m => P m = true) l) ∪ S) w'.
Proof.
  induction l as [|m l IH]; intros S w Hc Hf.
  - exists w. split; [done |]. eapply carrying_same, Hc. set_solver.
  - destruct (Hf m S w ltac:(left) Hc) as (w1 & R1 & Hc1).
    destruct (IH _ w1 Hc1) as (w2 & R2 & Hc2); [intros; apply Hf; [by right | done] |].
    exists w2. cbn [each_of]. rewrite (sbind_run _ _ _ _ _ R1). split; [done |]. eapply carrying_same, Hc2.
    rewrite filter_cons. destruct (P m); [rewrite decide_True by done | rewrite decide_False by done]; set_solver.
Qed.
Lemma each_drops extra (f : ptr -> CM unit) (P : ptr -> bool) l : forall S w, carrying extra S w ->
  (forall m S w, m ∈ l -> carrying extra S w -> exists w', f m w = Ok (tt, w') /\
    carrying extra (if P m then S ∖ {[m]} else S) w') ->
  exists w', each_of f l w = Ok (tt, w') /\ carrying extra (S ∖ list_to_set (filter (fun m => P m = true) l)) w'.
Proof.
  induction l as [|m l IH]; intros S w Hc Hf.
  - exists w. split; [done |]. eapply carrying_same, Hc. set_solver.
  - destruct (Hf m S w ltac:(left) Hc) as (w1 & R1 & Hc1).
    destruct (IH _ w1 Hc1) as (w2 & R2 & Hc2); [intros; apply Hf; [by right | done] |].
    exists w2. cbn [each_of]. rewrite (sbind_run _ _ _ _ _ R1). split; [done |]. eapply carrying_same, Hc2.
    rewrite filter_cons. destruct (P m); [rewrite decide_True by done | rewrite decide_False by done]; set_solver.
Qed.
(** The machines of the program with a property. *)
Definition among (P : ptr -> bool) : gset ptr := list_to_set (filter (fun m => P m = true) (all_machines w0)).
Lemma elem_of_among P m : m ∈ among P <-> m ∈ all_machines w0 /\ P m = true.
Proof. unfold among. rewrite elem_of_list_to_set, list_elem_of_filter. tauto. Qed.
Lemma each_machine_run extra f S w : carrying extra S w -> each_machine f w = each_of f (all_machines w0) w.
Proof. intros Hc. unfold each_machine, get_world, sbind. by rewrite (fr_machines _ _ (ca_frame _ _ _ Hc)). Qed.
(** Steps over a list of rules, each of which adds or takes out the machines it is about. *)
Lemma rules_add {A} extra (f : A -> CM unit) (G : A -> gset ptr) l : forall S w, carrying extra S w ->
  (forall a S w, a ∈ l -> carrying extra S w -> exists w', f a w = Ok (tt, w') /\ carrying extra (G a ∪ S) w') ->
  exists w', each_of f l w = Ok (tt, w') /\ carrying extra (⋃ (G <$> l) ∪ S) w'.
Proof.
  induction l as [|a l IH]; intros S w Hc Hf.
  - exists w. split; [done |]. eapply carrying_same, Hc. set_solver.
  - destruct (Hf a S w ltac:(left) Hc) as (w1 & R1 & Hc1).
    destruct (IH _ w1 Hc1) as (w2 & R2 & Hc2); [intros; apply Hf; [by right | done] |].
    exists w2. cbn [each_of]. rewrite (sbind_run _ _ _ _ _ R1). split; [done |]. eapply carrying_same, Hc2. cbn. set_solver.
Qed.
Lemma rules_drop {A} extra (f : A -> CM unit) (G : A -> gset ptr) l : forall S w, carrying extra S w ->
  (forall a S w, a ∈ l -> carrying extra S w -> exists w', f a w = Ok (tt, w') /\ carrying extra (S ∖ G a) w') ->
  exists w', each_of f l w = Ok (tt, w') /\ carrying extra (S ∖ ⋃ (G <$> l)) w'.
Proof.
  induction l as [|a l IH]; intros S w Hc Hf.
  - exists w. split; [done |]. eapply carrying_same, Hc. set_solver.
  - destruct (Hf a S w ltac:(left) Hc) as (w1 & R1 & Hc1).
    destruct (IH _ w1 Hc1) as (w2 & R2 & Hc2); [intros; apply Hf; [by right | done] |].
    exists w2. cbn [each_of]. rewrite (sbind_run _ _ _ _ _ R1). split; [done |]. eapply carrying_same, Hc2. cbn. set_solver.
Qed.

(** ** The rules *)
Lemma transmit_run extra S w e : carrying extra S w -> exists w', transmit e w = Ok (tt, w') /\ carrying extra S w'.
Proof. intros [[] Hch Hs]. eexists. split; [reflexivity |]. split; [by split | done | done]. Qed.
Definition name_is (n : string) (m : ptr) : bool :=
  match Machine.machines (tw (ct w0)) !! m with Some x => bool_decide (m_name x = n) | None => false end.
Lemma first_named_run extra S w n l : carrying extra S w -> (forall m, m ∈ l -> m ∈ all_machines w0) ->
  first_named n l w = Ok (List.find (name_is n) l, w).
Proof.
  intros Hc. induction l as [|m l IH]; intros Hl; [done |].
  destruct (machines_there m (Hl m ltac:(left))) as [[x Ex] _]. cbn [first_named List.find].
  rewrite (sbind_run _ _ _ _ _ (name_of_run _ _ _ m x Hc Ex)). unfold name_is at 1. rewrite Ex.
  case_bool_decide; [done |]. apply IH. intros k Hk. apply Hl. by right.
Qed.
(** The machine a name of a definition stands for. *)
Definition named (n : string) : option ptr :=
  match split_dot n with
  | Some (machine, rest) => match List.find (name_is machine) (all_machines w0) with Some m => look m rest | None => None end
  | None => List.find (name_is n) (all_machines w0)
  end.
Lemma find_machine_run extra S w n : carrying extra S w -> find_machine n w = Ok (named n, w).
Proof.
  intros Hc. unfold find_machine, named. rewrite (sbind_run get_world _ w w w) by done.
  rewrite (fr_machines _ _ (ca_frame _ _ _ Hc)). destruct (split_dot n) as [[a b]|].
  - rewrite (sbind_run _ _ _ _ _ (first_named_run _ _ _ a _ Hc ltac:(done))).
    destruct (List.find (name_is a) (all_machines w0)) as [m|]; [|done].
    unfold on_t. rewrite lookup_pure. by destruct w.
  - by apply (first_named_run _ _ _ n _ Hc).
Qed.
Lemma named_there n m : named n = Some m -> is_Some (sites (ct w0) !! m).
Proof.
  unfold named. destruct (split_dot n) as [[a b]|].
  - destruct (List.find (name_is a) _) as [k|]; [|done]. apply found_there.
  - intros Hf. apply List.find_some in Hf as [Hm _]. apply machines_there. by apply list_elem_of_In.
Qed.
Definition links (n : string) (m : ptr) : bool :=
  match named n, sites (ct w0) !! m with Some k, Some s => bool_decide (k ∈ s_listens s) | _, _ => false end.
Lemma include_linked_run extra S w n : carrying extra S w ->
  exists w', include_linked c n w = Ok (tt, w') /\ carrying extra (among (links n) ∪ S) w'.
Proof.
  intros Hc. unfold include_linked. rewrite (sbind_run _ _ _ _ _ (find_machine_run _ _ _ n Hc)).
  destruct (transmit_run _ _ _ (CLog c) Hc) as (w1 & R1 & Hc1).
  assert (exists w2, (match named n with None => transmit (CLog c) | Some _ => sret tt end) w = Ok (tt, w2) /\ carrying extra S w2)
    as (w2 & R2 & Hc2) by (destruct (named n); eauto).
  rewrite (sbind_run _ _ _ _ _ R2), (each_machine_run _ _ _ _ Hc2). apply each_adds; [done |].
  intros m T v Hm Hv. destruct (machines_there m Hm) as [_ [s Es]].
  destruct (site_of_run _ _ _ _ _ Hv Es) as (s' & Rs & Es'). rewrite (sbind_run _ _ _ _ _ Rs). unfold links. rewrite Es.
  replace (s_listens s') with (s_listens s) by (by rewrite Es').
  destruct (named n) as [k|]; [|eauto]. case_bool_decide; [by eapply join_run | eauto].
Qed.
Definition matching (p : string) (m : ptr) : bool :=
  pattern_compiles p &&
  match Machine.machines (tw (ct w0)) !! m with Some x => pattern_matches p (m_name x) | None => false end.
Lemma among_none P : (forall m, m ∈ all_machines w0 -> P m = false) -> among P = ∅.
Proof. intros HP. apply set_eq. intros m. rewrite elem_of_among. split; [|set_solver]. intros [Hm Ht]. by rewrite HP in Ht. Qed.
Lemma include_matching_run extra S w p : carrying extra S w ->
  exists w', include_matching c p w = Ok (tt, w') /\ carrying extra (among (matching p) ∪ S) w'.
Proof.
  intros Hc. unfold include_matching, matching. destruct (pattern_compiles p); cbn [andb].
  - rewrite (each_machine_run _ _ _ _ Hc). apply each_adds; [done |]. intros m T v Hm Hv.
    destruct (machines_there m Hm) as [[x Ex] [s Es]]. rewrite (sbind_run _ _ _ _ _ (name_of_run _ _ _ m x Hv Ex)), Ex.
    destruct (pattern_matches p (m_name x)); [by eapply join_run | eauto].
  - destruct (transmit_run _ _ _ (CLog c) Hc) as (w1 & R1 & Hc1). exists w1. split; [done |].
    eapply carrying_same, Hc1. rewrite among_none by done. set_solver.
Qed.
Lemma ignore_matching_run extra S w p : carrying extra S w ->
  exists w', ignore_matching c p w = Ok (tt, w') /\ carrying extra (S ∖ among (matching p)) w'.
Proof.
  intros Hc. unfold ignore_matching, matching. destruct (pattern_compiles p); cbn [andb].
  - rewrite (each_machine_run _ _ _ _ Hc). apply each_drops; [done |]. intros m T v Hm Hv.
    destruct (machines_there m Hm) as [[x Ex] [s Es]]. rewrite (sbind_run _ _ _ _ _ (name_of_run _ _ _ m x Hv Ex)), Ex.
    destruct (pattern_matches p (m_name x)); [|eauto]. rewrite (sbind_run _ _ _ _ _ (carries_run _ _ _ m Hv)).
    case_bool_decide as HT; [by eapply leave_run |]. exists v. split; [done |]. eapply carrying_same, Hv. set_solver.
  - destruct (transmit_run _ _ _ (CLog c) Hc) as (w1 & R1 & Hc1). exists w1. split; [done |].
    eapply carrying_same, Hc1. rewrite among_none by done. set_solver.
Qed.
Lemma include_named_run extra S w n : carrying extra S w ->
  exists w', include_named c n w = Ok (tt, w') /\
    carrying extra ((match named n with Some m => {[m]} | None => ∅ end) ∪ S) w'.
Proof.
  intros Hc. unfold include_named. rewrite (sbind_run _ _ _ _ _ (find_machine_run _ _ _ n Hc)).
  destruct (named n) as [m|] eqn:Hn.
  - destruct (named_there n m Hn) as [s Es]. by eapply join_run.
  - exists w. split; [done |]. eapply carrying_same, Hc. set_solver.
Qed.
Definition valued (item : string * Value) (m : ptr) : bool :=
  match property_matches (property_value m (fst item) (ct w0)) (snd item) with Ok b => b | _ => false end.
Lemma same_properties extra S w : carrying extra S w ->
  forall j, properties <$> sites (ct w) !! j = properties <$> sites (ct w0) !! j.
Proof. intros Hc j. rewrite (ca_sites _ _ _ Hc j). by destruct (sites (ct w0) !! j). Qed.
Lemma include_property_run extra S w item : carrying extra S w ->
  (forall m, m ∈ all_machines w0 -> exists b, property_matches (property_value m (fst item) (ct w0)) (snd item) = Ok b) ->
  exists w', include_property c item w = Ok (tt, w') /\ carrying extra (among (valued item) ∪ S) w'.
Proof.
  intros Hc Hdef. unfold include_property. rewrite (each_machine_run _ _ _ _ Hc). apply each_adds; [done |].
  intros m T v Hm Hv. destruct (machines_there m Hm) as [_ [s Es]]. destruct (Hdef m Hm) as [b Hb].
  rewrite (sbind_run _ _ _ _ _ (carries_run _ _ _ m Hv)). case_bool_decide as HT.
  { exists v. split; [done |]. eapply carrying_same, Hv. destruct (valued item m); set_solver. }
  rewrite (sbind_run get_world _ v v v) by done.
  rewrite (values_from_properties m (fst item) (ct v) (ct w0) (same_properties _ _ _ Hv)), (slift_run _ _ _ _ Hb).
  unfold valued. rewrite Hb. destruct b; [|eauto].
  destruct (adds_machine _ _ _ _ _ Hv Es HT) as (w' & _ & R & Hc'). eauto.
Qed.

(** The machines with exports are published again each time. *)
Definition exporting (m : ptr) : bool :=
  match sites (ct w0) !! m with Some s => has_exports s | None => false end.
Lemma carrying_extra extra extra' S w : (forall m, extra m = extra' m) -> carrying extra S w -> carrying extra' S w.
Proof. intros He [Hf Hch Hs]. split; [done | done |]. intros m. by rewrite Hs, He. Qed.
Definition again (S : gset ptr) (l : list ptr) (m : ptr) : Z :=
  if bool_decide (m ∈ l) && exporting m then inside S m else 0.
Lemma exports_run l : forall extra S w, carrying extra S w -> NoDup l -> (forall m, m ∈ l -> m ∈ all_machines w0) ->
  exists w', each_of (fun m => let! s := site_of m in
      if has_exports s then run! insert_machine c m in publish m else sret tt) l w = Ok (tt, w') /\
    carrying (fun m => extra m + again S l m) (list_to_set (filter (fun m => exporting m = true) l) ∪ S) w'.
Proof.
  induction l as [|m l IH]; intros extra S w Hc Hnd Hl.
  { exists w. split; [done |]. eapply carrying_same; [|eapply carrying_extra, Hc]; [set_solver |]. intros j. unfold again.
    rewrite bool_decide_false by set_solver. cbn. lia. }
  apply NoDup_cons in Hnd as [Hm Hnd]. destruct (machines_there m (Hl m ltac:(left))) as [_ [s Es]].
  destruct (site_of_run _ _ _ _ _ Hc Es) as (s' & Rs & Es').
  assert (Hx : exporting m = has_exports s') by (unfold exporting; by rewrite Es, Es').
  cbn [each_of]. rewrite filter_cons.
  assert (exists w1, (let! s := site_of m in if has_exports s then run! insert_machine c m in publish m else sret tt) w = Ok (tt, w1) /\
    carrying (fun j => extra j + (if decide (j = m) then ind (exporting m) * inside S m else 0))
      (if exporting m then {[m]} ∪ S else S) w1) as (w1 & R1 & Hc1).
  { rewrite (sbind_run _ _ _ _ _ Rs), <- Hx. destruct (exporting m).
    - destruct (carrying_step extra S w m s (fun z => z + 1) (fun x => set_machines ({[m]} ∪ channel_machines x) x) ({[m]} ∪ S)
        (fun j => extra j + (if decide (j = m) then ind true * inside S m else 0))) as (w1 & _ & R1 & Hc1);
        [done | done | by destruct x0 | | | eauto].
      + intros j Hj. rewrite inside_union, !decide_False by done. lia.
      + intros z. rewrite inside_union, !decide_True by done. cbn. lia.
    - exists w. split; [done |]. eapply carrying_extra, Hc. intros j. case_decide; cbn; lia. }
  destruct (IH _ _ w1 Hc1 Hnd) as (w2 & R2 & Hc2); [intros; apply Hl; by right |].
  exists w2. rewrite (sbind_run _ _ _ _ _ R1). split; [done |]. eapply carrying_same; [|eapply carrying_extra, Hc2].
  { destruct (exporting m); [rewrite decide_True by done | rewrite decide_False by done]; set_solver. }
  intros j. cbn beta. unfold again. destruct (decide (j = m)) as [-> | Hj].
  - rewrite (bool_decide_false (m ∈ l)) by done. rewrite (bool_decide_true (m ∈ m :: l)) by left. cbn [andb].
    destruct (exporting m); cbn; lia.
  - assert (bool_decide (j ∈ m :: l) = bool_decide (j ∈ l)) as ->
      by (apply bool_decide_ext; rewrite elem_of_cons; naive_solver).
    destruct (bool_decide (j ∈ l) && exporting j); [|lia].
    destruct (exporting m); [rewrite inside_union, decide_False by done |]; lia.
Qed.

(** Whether a rule of a definition chooses a machine. *)
Variable (d : ChannelDefinition) (dp : ptr).
Definition monitoring_exports : bool := monitors_exports (d_impl d) || monitors_exports (ch_impl x0).
Definition by_rules (m : ptr) : Prop :=
  (monitoring_exports = true /\ exporting m = true) \/
  (exists n, n ∈ monitor_linked (d_impl d) /\ links n m = true) \/
  (exists p, p ∈ monitors_patterns (d_impl d) /\ matching p m = true) \/
  (exists k v, monitors_properties (d_impl d) !! k = Some v /\ valued (k, v) m = true).
Definition ignored (i : ChannelImplementation) (m : ptr) : Prop := exists p, p ∈ ignores_patterns i /\ matching p m = true.
Definition by_name (i : ChannelImplementation) (m : ptr) : Prop := exists n, n ∈ monitors_names i /\ named n = Some m.
(** Names win over patterns to ignore, and the channel over its definition. *)
Definition chosen (m : ptr) : Prop :=
  by_name (ch_impl x0) m \/ (~ ignored (ch_impl x0) m /\
    (by_name (d_impl d) m \/ (~ ignored (d_impl d) m /\ (by_rules m \/ m ∈ channel_machines x0)))).

Lemma elem_of_rules {A} (G : A -> gset ptr) l m : m ∈ ⋃ (G <$> l) <-> exists a, a ∈ l /\ m ∈ G a.
Proof. rewrite elem_of_union_list. split; [intros (X & (a & -> & Ha)%list_elem_of_fmap & Hm); eauto |].
  intros (a & Ha & Hm). exists (G a). split; [by apply list_elem_of_fmap_2 | done]. Qed.

(** The channel carries the machines [S] after the rules have been applied. *)
Definition by_export : gset ptr := if monitoring_exports then among exporting else ∅.
Definition names_set (i : ChannelImplementation) : gset ptr :=
  ⋃ ((fun n => match named n with Some m => {[m]} | None => ∅ end) <$> names_of (monitors_names i)).
Definition ignored_set (i : ChannelImplementation) : gset ptr :=
  ⋃ ((fun p => among (matching p)) <$> names_of (ignores_patterns i)).
Definition rules_set : gset ptr :=
  ⋃ ((fun it => among (valued it)) <$> in_order (monitors_properties (d_impl d))) ∪
  (⋃ ((fun p => among (matching p)) <$> names_of (monitors_patterns (d_impl d))) ∪
   (⋃ ((fun n => among (links n)) <$> names_of (monitor_linked (d_impl d))) ∪ (by_export ∪ channel_machines x0))).
Definition chosen_set : gset ptr :=
  names_set (ch_impl x0) ∪ ((names_set (d_impl d) ∪ (rules_set ∖ ignored_set (d_impl d))) ∖ ignored_set (ch_impl x0)).
Lemma chosen_set_spec m : m ∈ all_machines w0 -> m ∈ chosen_set <-> chosen m.
Proof.
  intros Hm. unfold chosen_set, chosen.
  assert (Hn : forall i, m ∈ names_set i <-> by_name i m).
  { intros i. unfold names_set, by_name. rewrite elem_of_rules. apply exist_proper. intros n. rewrite elem_of_names.
    destruct (named n); [rewrite elem_of_singleton | rewrite elem_of_empty]; naive_solver. }
  assert (Hi : forall i, m ∈ ignored_set i <-> ignored i m).
  { intros i. unfold ignored_set, ignored. rewrite elem_of_rules. apply exist_proper. intros p.
    rewrite elem_of_names, elem_of_among. tauto. }
  assert (Hg : forall G l, m ∈ ⋃ ((fun a : string => among (G a)) <$> names_of l) <-> exists a, a ∈ l /\ G a m = true).
  { intros G l. rewrite elem_of_rules. apply exist_proper. intros a. rewrite elem_of_names, elem_of_among. tauto. }
  assert (Hv : m ∈ ⋃ ((fun it => among (valued it)) <$> in_order (monitors_properties (d_impl d))) <->
    exists k v, monitors_properties (d_impl d) !! k = Some v /\ valued (k, v) m = true).
  { rewrite elem_of_rules. split.
    - intros ([k v] & He & Ha). apply elem_of_in_order in He. apply elem_of_among in Ha as [_ Ha]. eauto.
    - intros (k & v & He & Ha). exists (k, v). by rewrite elem_of_in_order, elem_of_among. }
  assert (He : m ∈ by_export <-> monitoring_exports = true /\ exporting m = true).
  { unfold by_export. destruct monitoring_exports; [rewrite elem_of_among; tauto | split; [set_solver | by intros [? _]]]. }
  assert (Hr : m ∈ rules_set <-> by_rules m \/ m ∈ channel_machines x0).
  { unfold rules_set, by_rules. rewrite !elem_of_union, !Hg, Hv, He. tauto. }
  rewrite elem_of_union, elem_of_difference, elem_of_union, elem_of_difference, !Hn, !Hi, Hr. tauto.
Qed.

(** ** [setupFilters] *)
Hypothesis defined : definition_ x0 = Some dp /\ definitions w0 !! dp = Some d.
Hypothesis comparable : forall k v m, monitors_properties (d_impl d) !! k = Some v -> m ∈ all_machines w0 ->
  exists b, property_matches (property_value m k (ct w0)) v = Ok b.
Definition published_again (m : ptr) : Z := if monitoring_exports then again (channel_machines x0) (all_machines w0) m else 0.
Lemma definition_run extra S w : carrying extra S w -> definition c w = Ok (d, w).
Proof.
  intros Hc. destruct defined as [Hd Hdp]. unfold definition, get_chan, sbind, slift.
  rewrite (carrying_chan _ _ _ Hc). cbn. rewrite Hd. cbn. by rewrite (fr_defs _ _ (ca_frame _ _ _ Hc)), Hdp.
Qed.
Lemma ignores_run extra S w (i : ChannelImplementation) : carrying extra S w ->
  exists w', processIgnoresPatternList c (ignores_patterns i) w = Ok (tt, w') /\ carrying extra (S ∖ ignored_set i) w'.
Proof. intros Hc. apply rules_drop; [done |]. intros. by apply ignore_matching_run. Qed.
Lemma names_run extra S w (i : ChannelImplementation) : carrying extra S w ->
  exists w', each_of (include_named c) (names_of (monitors_names i)) w = Ok (tt, w') /\ carrying extra (names_set i ∪ S) w'.
Proof. intros Hc. apply rules_add; [done |]. intros. by apply include_named_run. Qed.
Lemma setup_carries : last_checked (ch_impl x0) <= last_modified (ch_impl x0) ->
  exists w1 x1 w', carrying published_again chosen_set w1 /\ setupFilters c w0 = Ok (tt, w') /\
    ct w' = ct w1 /\ chans w' = <[c := x1]> (chans w0) /\ channel_machines x1 = chosen_set /\
    last_checked (ch_impl x1) = microsecs (ct w1) /\ frame w0 w'.
Proof.
  intros Ht. pose proof carrying_start as Hc. unfold setupFilters.
  rewrite (sbind_run (get_chan c) _ w0 x0 w0) by (unfold get_chan; by rewrite channel_there).
  rewrite (proj2 (Z.ltb_ge _ _)) by done. rewrite (sbind_run _ _ _ _ _ (definition_run _ _ _ Hc)). fold monitoring_exports.
  assert (exists w1, (if monitoring_exports then include_exports c else sret tt) w0 = Ok (tt, w1) /\
    carrying published_again (by_export ∪ channel_machines x0) w1) as (w1 & R1 & Hc1).
  { unfold published_again, by_export. destruct monitoring_exports.
    - unfold include_exports. rewrite (each_machine_run _ _ _ _ Hc).
      destruct (exports_run (all_machines w0) _ _ _ Hc no_duplicates ltac:(done)) as (w1 & R1 & Hc1). exists w1. split; [done |].
      eapply carrying_extra, Hc1. intros m. cbn. lia.
    - exists w0. split; [done |]. eapply carrying_same, Hc. set_solver. }
  rewrite (sbind_run _ _ _ _ _ R1).
  destruct (rules_add published_again (include_linked c) (fun n => among (links n)) (names_of (monitor_linked (d_impl d))) _ _ Hc1)
    as (w2 & R2 & Hc2); [intros; by apply include_linked_run |]. rewrite (sbind_run _ _ _ _ _ R2).
  destruct (rules_add published_again (include_matching c) (fun p => among (matching p)) (names_of (monitors_patterns (d_impl d))) _ _ Hc2)
    as (w3 & R3 & Hc3); [intros; by apply include_matching_run |]. rewrite (sbind_run _ _ _ _ _ R3).
  destruct (rules_add published_again (include_property c) (fun it => among (valued it)) (in_order (monitors_properties (d_impl d))) _ _ Hc3)
    as (w4 & R4 & Hc4).
  { intros [k v] T w Hkv Hw. apply include_property_run; [done |]. intros m Hm. apply comparable; [|done]. by apply elem_of_in_order. }
  rewrite (sbind_run _ _ _ _ _ R4). fold rules_set in Hc4.
  destruct (ignores_run _ _ _ (d_impl d) Hc4) as (w5 & R5 & Hc5). rewrite (sbind_run _ _ _ _ _ R5).
  destruct (names_run _ _ _ (d_impl d) Hc5) as (w6 & R6 & Hc6). rewrite (sbind_run _ _ _ _ _ R6).
  destruct (ignores_run _ _ _ (ch_impl x0) Hc6) as (w7 & R7 & Hc7). rewrite (sbind_run _ _ _ _ _ R7).
  destruct (names_run _ _ _ (ch_impl x0) Hc7) as (w8 & R8 & Hc8). rewrite (sbind_run _ _ _ _ _ R8).
  fold chosen_set in Hc8. rewrite (sbind_run get_world _ w8 w8 w8) by done.
  eexists w8, _, _. split; [done |]. unfold upd_chan. rewrite (carrying_chan _ _ _ Hc8). cbn [rd mbind res_bind].
  split; [reflexivity |]. split; [done |]. destruct Hc8 as [[] Hch Hs]. split; [cbn; by rewrite Hch, insert_insert_eq |].
  split; [done |]. split; [done |]. by split.
Qed.
End Filters.

(** C13: [setupFilters] returns and leaves a channel that carries exactly the machines its
    rules choose: those it names itself, and those it does not ignore itself that the
    definition names or, if the definition does not ignore them, that were carried before,
    have exports, listen to a linked machine, match a pattern or have a property. Each
    machine that joins is published once more and each that leaves once less; only
    machines with exports that were carried before are counted again. *)
Theorem filters_choose_machines `{DynEnv} `{!Reactions} `{!Hub} `{!Virtuals} `{!Scope} `{!ChannelStates} `{!Patterns}
    c x0 w0 look d dp :
  (forall m n t, lookup_machine m n t = Ok (look m n, t)) ->
  (forall m k t t', (forall j, properties <$> sites t !! j = properties <$> sites t' !! j) ->
    property_value m k t = property_value m k t') ->
  chans w0 !! c = Some x0 -> NoDup (all_machines w0) ->
  (forall m, m ∈ all_machines w0 -> is_Some (Machine.machines (tw (ct w0)) !! m) /\ is_Some (sites (ct w0) !! m)) ->
  (forall m n k, look m n = Some k -> is_Some (sites (ct w0) !! k)) ->
  definition_ x0 = Some dp /\ definitions w0 !! dp = Some d ->
  (forall k v m, monitors_properties (d_impl d) !! k = Some v -> m ∈ all_machines w0 ->
    exists b, property_matches (property_value m k (ct w0)) v = Ok b) ->
  last_checked (ch_impl x0) <= last_modified (ch_impl x0) ->
  exists w' x', setupFilters c w0 = Ok (tt, w') /\ chans w' = <[c := x']> (chans w0) /\ frame w0 w' /\
    (forall m, m ∈ all_machines w0 -> m ∈ channel_machines x' <-> chosen x0 w0 look d m) /\
    (forall m s, sites (ct w0) !! m = Some s ->
      sites (ct w') !! m = Some (set_published (published s + inside (channel_machines x') m -
        inside (channel_machines x0) m + published_again x0 w0 d m) s)).
Proof.
  intros Hl Hv Hc Hnd Hm Hf Hd Hcmp Ht.
  destruct (setup_carries c x0 w0 look Hl Hv Hc Hnd Hm Hf d dp Hd Hcmp Ht) as (w1 & x1 & w' & Hc1 & R & Et & Ech & Em & _ & Hfr).
  exists w', x1. split; [done |]. split; [done |]. split; [done |]. rewrite Em. split.
  - intros m Hin. by apply (chosen_set_spec c x0 w0 look).
  - intros m s Es. by rewrite Et, (ca_sites _ _ _ _ _ _ Hc1 m), Es.
Qed.
