(* ===== verification/ChannelProps.v ===== *)
(** What channels send: a change of state goes to the channels that carry the machine
    and not back to the system it came from; throttled properties are sent once, with
    their last value. *)
From S2P Require Import Prelude Cnum Tokeniser Value SymbolTable Message Handlers Machine MachineProps StableStates Names Modbus Transitions TransitionsProps TransitionOrder Control MachineActions Json JsonProps JsonEnds MessageEncoding MessageEncodingProps Channels ChannelFilters.
From stdpp Require Import sorting.
Open Scope Z_scope.
Local Open Scope sm_scope.

Definition with_wire (l : list Wire) (w : CWorld) : CWorld :=
  mkCWorld (ct w) (chans w) (all_channels w) (definitions w) (all_definitions w) (subjects w) (all_machines w)
    (classes w) (action_kinds w) l.
Definition put_wire (ev : list Wire) (w : CWorld) : CWorld := with_wire (wire w ++ ev) w.
Lemma put_wire_nil w : put_wire [] w = w.
Proof. unfold put_wire. rewrite app_nil_r. by destruct w. Qed.
Lemma put_wire_app l k w : put_wire k (put_wire l w) = put_wire (l ++ k) w.
Proof. unfold put_wire, with_wire. cbn. by rewrite app_assoc. Qed.

(** ** Channels and machines as they are found *)
Record found_channel (w : CWorld) (c : ptr) (x : Channel) (si : Site) (d : ChannelDefinition) : Prop := {
  fc_chan : chans w !! c = Some x;
  fc_site : sites (ct w) !! c = Some si;
  fc_def : exists dp, definition_ x = Some dp /\ definitions w !! dp = Some d
}.
Record found_machine (w : CWorld) (m : ptr) (sm : Site) (k : Subject) : Prop := {
  fm_site : sites (ct w) !! m = Some sm;
  fm_subject : subjects w !! m = Some k
}.
Lemma found_channel_wire w ev c x si d : found_channel w c x si d -> found_channel (put_wire ev w) c x si d.
Proof. by intros [? ? ?]. Qed.
Lemma found_machine_wire w ev m sm k : found_machine w m sm k -> found_machine (put_wire ev w) m sm k.
Proof. by intros [? ?]. Qed.
Section Runs.
Context {w : CWorld} {c m : ptr} {x : Channel} {si sm : Site} {d : ChannelDefinition} {k : Subject}.
Lemma get_chan_run : found_channel w c x si d -> get_chan c w = Ok (x, w).
Proof. intros [Ec _ _]. unfold get_chan. by rewrite Ec. Qed.
Lemma site_run : sites (ct w) !! m = Some sm -> site_of m w = Ok (sm, w).
Proof. intros Es. unfold site_of, on_t, get_site. rewrite Es. cbn. by destruct w. Qed.
Lemma def_run : found_channel w c x si d -> definition c w = Ok (d, w).
Proof. intros [Ec _ (dp & E1 & E2)]. unfold definition, get_chan, sbind, slift. rewrite Ec. cbn. rewrite E1. cbn. by rewrite E2. Qed.
Lemma subject_run : found_machine w m sm k -> get_subject m w = Ok (k, w).
Proof. intros [_ E]. unfold get_subject. by rewrite E. Qed.
Lemma carried_run : found_channel w c x si d -> carries c m w = Ok (bool_decide (m ∈ channel_machines x), w).
Proof. intros Hc. unfold carries. by rewrite (sbind_run _ _ _ _ _ (get_chan_run Hc)). Qed.
Lemma disconnected_run `{!ChannelStates} : found_channel w c x si d ->
  disconnected c w = Ok (state_eq (Transitions.current_state si) DISCONNECTED, w).
Proof.
  intros [_ Es _]. unfold disconnected, state_of. rewrite (sbind_run _ _ _ (Transitions.current_state si) w); [done |].
  unfold site_of, on_t, get_site, sbind. rewrite Es. cbn. by destruct w.
Qed.
Lemma active_run `{!ChannelStates} : found_channel w c x si d ->
  active c w = Ok (state_eq (Transitions.current_state si) ACTIVE, w).
Proof.
  intros [_ Es _]. unfold active, state_of. rewrite (sbind_run _ _ _ (Transitions.current_state si) w); [done |].
  unfold site_of, on_t, get_site, sbind. rewrite Es. cbn. by destruct w.
Qed.
End Runs.
(** Inputs are kept from channels that follow linked machines. *)
Definition passes (d : ChannelDefinition) (sm : Site) : bool :=
  bool_decide (monitor_linked (d_impl d) = ∅) ||
  negb (bool_decide (_type sm = "INPUTBIT") || bool_decide (_type sm = "INPUTREGISTER")).
Lemma filtersAllow_run w c m x si sm d k : found_channel w c x si d -> found_machine w m sm k ->
  m ∈ channel_machines x -> filtersAllow c m w = Ok (passes d sm, w).
Proof.
  intros Hc Hm Hin. unfold filtersAllow, passes. rewrite (sbind_run _ _ _ _ _ (def_run Hc)), (sbind_run _ _ _ _ _ (get_chan_run Hc)).
  rewrite (sbind_run _ _ _ _ _ (site_run (fm_site _ _ _ _ Hm))).
  destruct (bool_decide (monitor_linked (d_impl d) = ∅)); cbn [negb andb orb].
  - destruct (_ && has_exports sm); [done |]. rewrite (carried_run Hc). by rewrite bool_decide_true.
  - destruct (bool_decide (_type sm = "INPUTBIT") || bool_decide (_type sm = "INPUTREGISTER")); [done |]. cbn [negb].
    destruct (_ && has_exports sm); [done |]. rewrite (carried_run Hc). by rewrite bool_decide_true.
Qed.

(** ** Changes of state *)
Section States.
Context `{DynEnv} `{!Reactions} `{!Hub} `{!Virtuals} `{!Scope} `{!ChannelStates} `{!Patterns}.
(** The channel reports the state of the machine. A change that was made with an
    authority does not go back to the owner of a shadow. *)
Definition reports_state (m : ptr) (sm : Site) (k : Subject) (auth : Z) (c : ptr) (x : Channel) (si : Site)
    (d : ChannelDefinition) : bool :=
  negb (state_eq (Transitions.current_state si) DISCONNECTED) && hasFeature ReportStateChanges d &&
  bool_decide (m ∈ channel_machines x) && passes d sm &&
  (isPublisher d || negb (shadow sm && bool_decide (ownerChannel k = Some c) && negb (auth =? 0))).
Definition state_text (name state : string) (sm : Site) (auth : Z) (x : Channel) (d : ChannelDefinition) : text :=
  if isPublisher d then encodeState name state
  else encodeState_auth name state (if shadow sm then auth else authority (ch_impl x)).
(** How it is sent. *)
Definition sent_on (c : ptr) (x : Channel) (t : text) : Wire :=
  if connected_comms x then Sent c cmd_client t header
  else if has_mif x then Sent c publisher t header else CLog c.
Definition usable (x : Channel) : Prop := connected_comms x = true -> has_client x = true.
Lemma sends_on w c x si d t : found_channel w c x si d -> usable x ->
  (if connected_comms x then safeSend c cmd_client t header
   else if has_mif x then safeSend c publisher t header else transmit (CLog c)) w = Ok (tt, put_wire [sent_on c x t] w).
Proof.
  intros Hc Hu. unfold sent_on. destruct (connected_comms x) eqn:E1.
  - unfold safeSend. rewrite (sbind_run _ _ _ _ _ (get_chan_run Hc)). by rewrite (Hu E1).
  - destruct (has_mif x) eqn:E2; [|done]. unfold safeSend. rewrite (sbind_run _ _ _ _ _ (get_chan_run Hc)). by rewrite E2.
Qed.
Lemma state_on_run m sm k name state auth c x si d w : found_channel w c x si d -> found_machine w m sm k -> usable x ->
  state_on m name state auth c w =
    Ok (tt, put_wire (if reports_state m sm k auth c x si d then [sent_on c x (state_text name state sm auth x d)] else []) w).
Proof.
  intros Hc Hm Hu. unfold state_on, reports_state. rewrite (sbind_run _ _ _ _ _ (disconnected_run Hc)).
  destruct (state_eq _ _); cbn [negb andb]; [by rewrite put_wire_nil |].
  rewrite (sbind_run _ _ _ _ _ (def_run Hc)). destruct (hasFeature _ d); cbn [negb andb]; [|by rewrite put_wire_nil].
  rewrite (sbind_run _ _ _ _ _ (carried_run Hc)). case_bool_decide as Hin; cbn [negb andb]; [|by rewrite put_wire_nil].
  rewrite (sbind_run _ _ _ _ _ (filtersAllow_run _ _ _ _ _ _ _ _ Hc Hm Hin)).
  destruct (passes d sm); cbn [negb andb]; [|by rewrite put_wire_nil].
  unfold state_command, state_text. rewrite (sbind_run _ _ w (if isPublisher d || negb (shadow sm && bool_decide (ownerChannel k = Some c) && negb (auth =? 0))
      then Some (state_text name state sm auth x d) else None) w).
  - destruct (isPublisher d || _); [|by rewrite put_wire_nil]. rewrite (sbind_run _ _ _ _ _ (get_chan_run Hc)).
    by apply (sends_on _ _ _ si d).
  - unfold state_text. rewrite (sbind_run _ _ _ _ _ (def_run Hc)). destruct (isPublisher d); cbn [orb]; [done |].
    rewrite (sbind_run _ _ _ _ _ (site_run (fm_site _ _ _ _ Hm))), (sbind_run _ _ _ _ _ (subject_run Hm)).
    destruct (shadow sm); cbn [andb negb].
    + destruct (bool_decide (ownerChannel k = Some c) && negb (auth =? 0)); done.
    + by rewrite (sbind_run _ _ _ _ _ (get_chan_run Hc)).
Qed.

(** The events of one channel. *)
Definition about (c : ptr) (e : Wire) : bool :=
  match e with Sent c' _ _ _ | Published c' _ | CLog c' => bool_decide (c' = c) | ModbusUpdate _ _ _ => false end.
Lemma about_sent_on c c' x t : about c (sent_on c' x t) = bool_decide (c' = c).
Proof. unfold sent_on. by destruct (connected_comms x), (has_mif x). Qed.
Definition events_of (c : ptr) (ev : list Wire) : list Wire := filter (fun e => about c e = true) ev.
Lemma events_of_app c l k : events_of c (l ++ k) = events_of c l ++ events_of c k.
Proof. apply filter_app. Qed.
Lemma events_of_one c c' x t (b : bool) : events_of c (if b then [sent_on c' x t] else []) =
  if bool_decide (c' = c) then (if b then [sent_on c' x t] else []) else [].
Proof.
  unfold events_of. destruct b; [|by case_bool_decide]. rewrite filter_cons, filter_nil, about_sent_on.
  by case_bool_decide; [rewrite decide_True | rewrite decide_False].
Qed.
(** The channels of a list are reached one after the other. *)
Definition all_found (w : CWorld) (cs : list ptr) : Prop :=
  forall c, c ∈ cs -> exists x si d, found_channel w c x si d /\ usable x.
Lemma each_state m sm k name state auth cs : forall w, NoDup cs -> all_found w cs -> found_machine w m sm k ->
  exists ev, each_of (state_on m name state auth) cs w = Ok (tt, put_wire ev w) /\
    (forall c x si d, c ∈ cs -> found_channel w c x si d -> events_of c ev =
      if reports_state m sm k auth c x si d then [sent_on c x (state_text name state sm auth x d)] else []) /\
    (forall c, c ∉ cs -> events_of c ev = []).
Proof.
  induction cs as [|c cs IH]; intros w Hnd Hall Hm.
  { exists []. rewrite put_wire_nil. split; [done |]. split; [|done]. by intros ? ? ? ? ?%elem_of_nil. }
  apply NoDup_cons in Hnd as [Hcs Hnd]. destruct (Hall c ltac:(left)) as (x & si & d & Hc & Hu).
  set (ev1 := if reports_state m sm k auth c x si d then [sent_on c x (state_text name state sm auth x d)] else []).
  pose proof (state_on_run m sm k name state auth c x si d w Hc Hm Hu) as R1. fold ev1 in R1.
  destruct (IH (put_wire ev1 w)) as (ev2 & R2 & Hin & Hout); [done | | by apply found_machine_wire |].
  { intros c' Hc'. destruct (Hall c' ltac:(by right)) as (x' & si' & d' & Hf1 & Hu1). exists x', si', d'. split; [|done]. by apply found_channel_wire. }
  exists (ev1 ++ ev2). cbn [each_of]. rewrite (sbind_run _ _ _ _ _ R1), R2, put_wire_app. split; [done |]. split.
  - intros c' x' si' d' [-> | Hc']%elem_of_cons Hf.
    + assert (x' = x /\ si' = si /\ d' = d) as (-> & -> & ->).
      { destruct Hc as [E1 E2 (dp & E3 & E4)], Hf as [F1 F2 (dp' & F3 & F4)]. rewrite E1 in F1. injection F1 as <-.
        rewrite E2 in F2. injection F2 as <-. rewrite E3 in F3. injection F3 as <-. rewrite E4 in F4. by injection F4 as <-. }
      rewrite events_of_app, (Hout c) by done. rewrite app_nil_r. subst ev1. rewrite events_of_one. by rewrite bool_decide_true.
    + rewrite events_of_app. subst ev1. rewrite events_of_one, bool_decide_false by (by intros ->).
      apply Hin; [done | by apply found_channel_wire].
  - intros c' [Hne Hc']%not_elem_of_cons. rewrite events_of_app. subst ev1. rewrite events_of_one, bool_decide_false by done. by apply Hout.
Qed.

(** The channels in the order of their names. *)
Definition registered (a : gmap string ptr) : Prop := forall n n' c, a !! n = Some c -> a !! n' = Some c -> n = n'.
Definition in_name_order (a : gmap string ptr) : list ptr := snd <$> in_order a.
Lemma channel_list_run w a : all_channels w = Some a -> channel_list w = Ok (in_name_order a, w).
Proof. intros Ea. unfold channel_list, get_world, sbind. by rewrite Ea. Qed.
Lemma elem_of_channels a c : c ∈ in_name_order a <-> exists n, a !! n = Some c.
Proof.
  unfold in_name_order. rewrite list_elem_of_fmap. split.
  - intros ([n c'] & -> & Hn). exists n. by apply elem_of_in_order.
  - intros [n Hn]. exists (n, c). by rewrite elem_of_in_order.
Qed.
Lemma NoDup_channels a : registered a -> NoDup (in_name_order a).
Proof.
  intros Hr. unfold in_name_order. pose proof (NoDup_keys a) as Hk. rewrite <- in_order_keys in Hk.
  apply NoDup_fmap_2_strong; [|by apply NoDup_fmap_1 in Hk].
  intros [n c] [n' c'] Hn Hn' E. cbn in E. subst c'. apply elem_of_in_order in Hn, Hn'. by rewrite (Hr n n' c).
Qed.
End States.

