(* ===== verification/ChannelThrottle.v ===== *)
(** Throttled properties: however often they change between two updates, each is sent
    once, with its last value. *)
From S2P Require Import Prelude Cnum Tokeniser Value SymbolTable Message Handlers Machine MachineProps StableStates Names Modbus Transitions TransitionsProps TransitionOrder Control MachineActions Json JsonProps JsonEnds MessageEncoding MessageEncodingProps Channels ChannelFilters ChannelProps.
From stdpp Require Import sorting.
Open Scope Z_scope.
Local Open Scope sm_scope.

(** ** A stored value is encoded like the value it was assigned from *)
Section Encoding.
Context `{DynEnv} `{!Libm}.
Lemma assign_sendable old v : sendable v -> sendable (assign old v).
Proof. unfold sendable, assign. destruct v as [[]]; done. Qed.
Lemma assign_item old v : sendable v -> value_item (assign old v) = value_item v /\ valueType (assign old v) = valueType v.
Proof. unfold sendable, value_item, valueType, assign. destruct v as [[]]; done. Qed.
Lemma encode_same cj l old v r : sendable v -> Forall sendable l -> 
  encode_params cj (l ++ assign old v :: r) = encode_params cj (l ++ v :: r).
Proof.
  intros Hv Hl. revert cj. induction Hl as [|p l Hp Hl IH]; intros cj; cbn [app encode_params].
  - rewrite !sendable_not_null by (done || by apply assign_sendable). cbn [mbind res_bind].
    unfold addValueToJSONObject. destruct (assign_item old v Hv) as [-> ->]. done.
  - rewrite sendable_not_null by done. cbn [mbind res_bind]. destruct (addValueToJSONObject _ _ p); cbn; [apply IH | done | done].
Qed.
Lemma encodeCommand4_sendable cmd p1 p2 p3 p4 : Forall sendable [p1; p2; p3; p4] ->
  encodeCommand4 cmd p1 p2 p3 p4 = encodeCommand cmd (Some [p1; p2; p3; p4]).
Proof.
  rewrite !Forall_cons. intros (? & ? & ? & ? & _). unfold encodeCommand4, not_null. by rewrite !sendable_not_null by done.
Qed.
Lemma encode4_same cmd p1 p2 p4 old v : Forall sendable [p1; p2; v; p4] ->
  encodeCommand4 cmd p1 p2 (assign old v) p4 = encodeCommand4 cmd p1 p2 v p4.
Proof.
  intros Hf. rewrite (encodeCommand4_sendable _ _ _ v) by done. rewrite !Forall_cons in Hf. destruct Hf as (? & ? & Hv & ? & _).
  rewrite encodeCommand4_sendable by (rewrite !Forall_cons; repeat split; try done; by apply assign_sendable).
  unfold encodeCommand. change (default [] (Some ?l)) with l.
  pose proof (encode_same cJSON_CreateArray [p1; p2] old v [p4] Hv) as E. cbn [app] in E. rewrite E by (by repeat constructor). done.
Qed.
Lemma encode4_defined cmd p1 p2 p3 p4 : plain cmd -> Forall sendable [p1; p2; p3; p4] ->
  exists msg, encodeCommand4 cmd p1 p2 p3 p4 = Ok msg.
Proof.
  intros Hc Hf. destruct (encode_command_ok cmd _ Hc Hf) as (msg & its & E & _). exists msg. by rewrite encodeCommand4_sendable.
Qed.
End Encoding.

(** ** Recording changes *)
(** A change: the name of the property, its key and the value. *)
Definition Change : Type := string * Value * Value.
Definition recorded (changes : list Change) : gmap string Value :=
  foldl (fun P ch => map_assign (fst (fst ch)) (snd ch) P) ∅ changes.
(** The key and the value of the last change of a property. *)
Definition last_change (n : string) (changes : list Change) : option (Value * Value) :=
  foldl (fun r ch => if bool_decide (fst (fst ch) = n) then Some (snd (fst ch), snd ch) else r) None changes.
Lemma recorded_last changes n : match last_change n changes with
  | Some (_, v) => exists old, recorded changes !! n = Some (assign old v)
  | None => recorded changes !! n = None
  end.
Proof.
  induction changes as [|[[k kv] v] changes IH] using rev_ind; [done |].
  unfold last_change, recorded in *. rewrite !foldl_app. cbn. case_bool_decide as Hk.
  - subst k. eexists. unfold map_assign. apply lookup_insert_eq.
  - unfold map_assign. rewrite lookup_insert_ne by done. exact IH.
Qed.
Lemma last_change_in changes n kv v : last_change n changes = Some (kv, v) -> (n, kv, v) ∈ changes.
Proof.
  induction changes as [|[[k kv'] v'] changes IH] using rev_ind; [done |]. unfold last_change in *. rewrite foldl_app. cbn.
  rewrite elem_of_app. case_bool_decide as Hk; [|naive_solver]. intros [= -> ->]. subst k. right. by left.
Qed.

Section Throttle.
Context `{DynEnv} `{!Libm} `{!Reactions} `{!Hub} `{!Virtuals} `{!Scope} `{!ChannelStates} `{!Patterns}.
Variables (c m : ptr) (x : Channel) (si sm : Site) (d : ChannelDefinition) (k : Subject) (mx : Machine) (cls i : ClassInfo)
  (kc : Comms) (iv nv : Value) (interface : string) (auth : Z).
(** A channel between two systems that is active and throttles the machine, which is here
    and has an interface on the channel. *)
Record throttles (w : CWorld) : Prop := {
  th_machine : found_machine w m sm k;
  th_there : Machine.machines (tw (ct w)) !! m = Some mx;
  th_name : Value_str (m_name mx) t_symbol (toks (ct w)) = Ok (nv, toks (ct w));
  th_interface : classes w !! interface = Some i
}.
Record settings : Prop := {
  se_time : throttle_time x <> 0 /\ needs_throttle k = true;
  se_active : state_eq (Transitions.current_state si) ACTIVE = true;
  se_features : hasFeature ReportPropertyChanges d = true /\ hasFeature ReportModbusUpdates d = false /\
    hasFeature ReportLocalPropertyChanges d = false /\ isPublisher d = false;
  se_carried : m ∈ channel_machines x /\ passes d sm = true;
  se_here : shadow sm = false /\ s_owner sm = None /\ m_class k = Some cls;
  se_updates : updates_names (d_impl d) !! m_name mx = Some iv /\ asString iv = Ok interface;
  se_comms : comms x = Some kc /\ subs_disconnected kc = false /\ connected_comms x = true /\ has_client x = true;
  se_authority : 0 <= authority (d_impl d) <= 2 ^ 53;
  se_sendable : sendable nv
}.
(** A property that the interface has and that is not local. *)
Definition reported (w : CWorld) (ch : Change) : Prop :=
  match ch with (n, kv, v) =>
  asString kv = Ok n /\ Value_str n t_symbol (toks (ct w)) = Ok (kv, toks (ct w)) /\
  (n ∉ local_properties cls) /\ n ∈ property_names i /\ sendable kv /\ sendable v end.
Hypothesis fixed : settings.

Definition with_items (P : gmap string Value) (w : CWorld) : CWorld :=
  mkCWorld (ct w) (<[c := set_throttled {[m := mkRecord m P]} x]> (chans w)) (all_channels w) (definitions w)
    (all_definitions w) (subjects w) (all_machines w) (classes w) (action_kinds w) (wire w).

Lemma is_local_run w kv n : found_machine w m sm k -> asString kv = Ok n -> n ∉ local_properties cls ->
  is_local m kv w = Ok (false, w).
Proof.
  intros Hm Hk Hn. unfold is_local. rewrite (sbind_run _ _ _ _ _ (subject_run Hm)).
  destruct (se_here fixed) as (_ & _ & ->). rewrite (slift_run _ _ _ _ Hk). by rewrite bool_decide_false.
Qed.
Lemma name_run w : throttles w -> name_of m w = Ok (m_name mx, w).
Proof.
  intros [_ Ex _ _]. unfold name_of, on_t, mname. rewrite (sbind_run (machine m) _ (ct w) mx (ct w)) by (by apply machine_run).
  by destruct w.
Qed.
Lemma fullName_run w : throttles w -> fullName m w = Ok (m_name mx, w).
Proof.
  intros Ht. unfold fullName. rewrite (sbind_run get_world _ w w w) by done. rewrite (sbind_run _ _ _ _ _ (name_run w Ht)).
  rewrite (sbind_run _ _ _ _ _ (site_run (fm_site _ _ _ _ (th_machine _ Ht)))). destruct (se_here fixed) as (_ & -> & _).
  by destruct (size (sites (ct w))).
Qed.
(** One change, with the records [it] so far. *)
Definition one_machine (it : gmap ptr MachineRecord) : Prop := it = ∅ \/ exists P, it = {[m := mkRecord m P]}.
Definition so_far (it : gmap ptr MachineRecord) : gmap string Value := default ∅ (mr_properties <$> it !! m).
Lemma change_recorded w it ch : found_channel w c (set_throttled it x) si d -> found_machine w m sm k -> reported w ch ->
  one_machine it -> change_on c m (snd (fst ch)) (snd ch) auth w =
    Ok (tt, with_items (map_assign (fst (fst ch)) (snd ch) (so_far it)) w).
Proof.
  destruct ch as [[n kv] v]. intros Hc Hm (Hk & _ & Hl & _) Hit. cbn [fst snd]. unfold change_on.
  rewrite (sbind_run _ _ _ _ _ (def_run Hc)). destruct (se_features fixed) as (-> & _). cbn [negb].
  rewrite (sbind_run _ _ _ _ _ (active_run Hc)). rewrite (se_active fixed). cbn [negb]. destruct (se_carried fixed) as [Hin Hp].
  rewrite (sbind_run _ _ _ _ _ (carried_run Hc)), bool_decide_true by done. cbn [negb].
  rewrite (sbind_run _ _ _ _ _ (filtersAllow_run _ _ _ _ _ _ _ _ Hc Hm Hin)), Hp. cbn [negb].
  rewrite (sbind_run _ _ _ _ _ (get_chan_run Hc)), (sbind_run _ _ _ _ _ (subject_run Hm)).
  cbn [throttle_time set_throttled]. destruct (se_time fixed) as [Ht ->]. rewrite (proj2 (Z.eqb_neq _ _)) by done. cbn [negb andb].
  rewrite (slift_run _ _ _ _ Hk). unfold throttle, upd_chan. rewrite (fc_chan _ _ _ _ _ Hc). unfold with_items, so_far. cbn.
  do 3 f_equal. f_equal. unfold set_throttled. cbn. f_equal. destruct Hit as [-> | [P ->]].
  - by rewrite lookup_empty.
  - rewrite lookup_singleton_eq. cbn. by rewrite insert_singleton_eq.
Qed.
Lemma in_name_order_one n : in_name_order {[n := c]} = [c].
Proof.
  unfold in_name_order, in_order, keys_of, names_of. rewrite dom_singleton_L, elements_singleton. cbn.
  by rewrite lookup_singleton_eq.
Qed.
Lemma property_recorded cn w it ch : all_channels w = Some {[cn := c]} -> throttles w ->
  found_channel w c (set_throttled it x) si d -> reported w ch -> one_machine it ->
  sendPropertyChange m (snd (fst ch)) (snd ch) auth w =
    Ok (tt, with_items (map_assign (fst (fst ch)) (snd ch) (so_far it)) w).
Proof.
  intros Ea Ht Hc Hr Hit. unfold sendPropertyChange. rewrite (sbind_run get_world _ w w w) by done.
  rewrite Ea, (sbind_run _ _ _ _ _ (fullName_run w Ht)). pose proof (th_machine _ Ht) as Hm. pose proof Hr as Hr'.
  destruct ch as [[n kv] v], Hr' as (Hk & _ & Hl & _). cbn [fst snd] in *.
  rewrite (sbind_run _ _ _ _ _ (is_local_run w kv n Hm Hk Hl)), (sbind_run _ _ _ _ _ (channel_list_run w _ Ea)), in_name_order_one.
  cbn [each_of]. by rewrite (sbind_run _ _ _ _ _ (change_recorded w it (n, kv, v) Hc Hm Hr Hit)).
Qed.
Lemma with_items_again P Q w : with_items P (with_items Q w) = with_items P w.
Proof. unfold with_items. cbn. by rewrite insert_insert_eq. Qed.
(** All changes, after some that left the properties [Q]. *)
Lemma changes_recorded cn changes : forall w Q, all_channels w = Some {[cn := c]} -> throttles w ->
  found_channel w c x si d -> Forall (reported w) changes -> 
  each_of (fun ch => sendPropertyChange m (snd (fst ch)) (snd ch) auth) changes (with_items Q w) =
    Ok (tt, with_items (foldl (fun P ch => map_assign (fst (fst ch)) (snd ch) P) Q changes) w).
Proof.
  induction changes as [|ch changes IH]; intros w Q Ea Ht Hc Hr; [done |]. apply Forall_cons in Hr as [Hr Hrs].
  cbn [each_of foldl]. rewrite (sbind_run _ _ _ tt (with_items (map_assign (fst (fst ch)) (snd ch) Q) w)); [by apply IH |].
  rewrite (property_recorded cn _ {[m := mkRecord m Q]}); [|done | by destruct Ht as [[]] | | done | by right; exists Q].
  - rewrite with_items_again. unfold so_far. by rewrite lookup_singleton_eq.
  - destruct Hc as [Ec Es Ed]. split; [apply lookup_insert_eq | done | done].
Qed.

(** ** Sending *)
Lemma tokenise_id {A} (f : SM Tokeniser A) a w : f (toks (ct w)) = Ok (a, toks (ct w)) -> on_t (tokenise f) w = Ok (a, w).
Proof. intros E. unfold on_t, tokenise. rewrite E. cbn. destruct w as [[]]. done. Qed.
Lemma throttles_wire ev w : throttles w -> throttles (put_wire ev w).
Proof. by intros [[] ? ? ?]. Qed.
(** The channel with its records, as it is while they are sent. *)
Definition sending (y : Channel) : Prop := exists it z, y = set_last_send z (set_throttled it x).
Definition report (kv v : Value) : res text :=
  encodeCommand4 "PROPERTY" nv kv v (as_authority (authority (d_impl d))).
Lemma as_authority_sendable : sendable (as_authority (authority (d_impl d))).
Proof.
  pose proof (se_authority fixed) as Ha. unfold as_authority. rewrite to_s64_small by (unfold LONG_MIN, LONG_MAX; lia).
  exists (authority (d_impl d)). split; [done | lia].
Qed.
Lemma send_throttled_run w y n kv v t : throttles w -> sending y -> found_channel w c y si d -> reported w (n, kv, v) ->
  forall old, report kv v = Ok t -> send_throttled c d m (n, assign old v) w = Ok (tt, put_wire [Sent c cmd_client t header] w).
Proof.
  intros Ht (it & z & ->) Hc (Hk & Htok & Hl & Hp & Hsk & Hsv) old Et. pose proof (th_machine _ Ht) as Hm. unfold send_throttled.
  destruct (se_features fixed) as (_ & _ & Hloc & Hpub). destruct (se_here fixed) as (Hs & _ & Hcls).
  cbn [fst snd]. rewrite (sbind_run _ _ _ _ _ (tokenise_id _ _ _ Htok)). unfold reports_key. rewrite Hloc.
  rewrite (sbind_run _ _ w true w)
    by (rewrite (sbind_run _ _ _ _ _ (subject_run Hm)), Hcls, (sbind_run _ _ _ _ _ (is_local_run w kv n Hm Hk Hl)); done).
  rewrite (sbind_run _ _ _ _ _ (name_run w Ht)). unfold sendPropertyChangeMessage. rewrite (sbind_run _ _ _ _ _ (def_run Hc)), Hloc.
  rewrite (sbind_run _ _ _ _ _ (is_local_run w kv n Hm Hk Hl)), (sbind_run _ _ _ _ _ (get_chan_run Hc)). cbn [comms set_last_send set_throttled].
  destruct (se_comms fixed) as (Hkc & _ & Hcon & Hcl). rewrite Hkc.
  assert (R : property_command c m (m_name mx) kv (assign old v) 0 w = Ok (Some t, w)).
  { unfold property_command. rewrite (sbind_run _ _ _ _ _ (def_run Hc)), Hpub.
    rewrite (sbind_run _ _ _ _ _ (site_run (fm_site _ _ _ _ Hm))), (sbind_run _ _ _ _ _ (subject_run Hm)), Hs. cbn [andb].
    rewrite (sbind_run _ _ _ _ _ (name_run w Ht)). destruct (se_updates fixed) as [Hu Hi].
    rewrite (sbind_run (interfaceFor d (m_name mx)) _ w (Some i) w).
    2: { unfold interfaceFor. rewrite (sbind_run get_world _ w w w) by done. rewrite Hu, (slift_run _ _ _ _ Hi). by rewrite (th_interface _ Ht). }
    rewrite (slift_run _ _ _ tt) by done. rewrite (slift_run _ _ _ _ Hk), bool_decide_true by done.
    unfold PROPERTY. rewrite (sbind_run _ _ w t w); [done |]. rewrite (sbind_run _ _ _ _ _ (tokenise_id _ _ _ (th_name _ Ht))).
    rewrite encode4_same by (rewrite !Forall_cons; split_and!; [apply (se_sendable fixed) | done | done | apply as_authority_sendable | apply Forall_nil_2]).
    unfold slift. by fold (report kv v); rewrite Et. }
  rewrite (sbind_run _ _ _ _ _ R). unfold connected_comms in Hcon. rewrite Hkc in Hcon. cbn [isClient set_last_send set_throttled].
  replace (isClient _ && negb (set_up kc)) with false
    by (symmetry; change (isClient (set_last_send z (set_throttled it x))) with (isClient x); destruct (isClient x), (set_up kc); done).
  unfold safeSend. rewrite (sbind_run _ _ _ _ _ (get_chan_run Hc)). cbn [has_client set_last_send set_throttled]. by rewrite Hcl.
Qed.

Definition wired (msgs : list (string * text)) : list Wire := (fun p => Sent c cmd_client (snd p) header) <$> msgs.
(** The message for a stored property is the report of its last change. *)
Definition reports_last (changes : list Change) (n : string) (t : text) : Prop :=
  exists kv v, last_change n changes = Some (kv, v) /\ report kv v = Ok t.
Lemma each_throttled changes l : forall w y, throttles w -> sending y -> found_channel w c y si d ->
  Forall (reported w) changes -> (forall n v', (n, v') ∈ l -> exists kv v old, last_change n changes = Some (kv, v) /\ v' = assign old v) ->
  exists msgs, each_of (send_throttled c d m) l w = Ok (tt, put_wire (wired msgs) w) /\
    (fst <$> msgs) = (fst <$> l) /\ forall n t, (n, t) ∈ msgs -> reports_last changes n t.
Proof.
  induction l as [|[n v'] l IH]; intros w y Ht Hy Hc Hr Hl.
  { exists []. cbn. rewrite put_wire_nil. split; [done |]. split; [done |]. by intros ? ? ?%elem_of_nil. }
  destruct (Hl n v' ltac:(left)) as (kv & v & old & Hlast & ->). pose proof (last_change_in _ _ _ _ Hlast) as Hin.
  pose proof (proj1 (Forall_forall _ _) Hr _ Hin) as Hrep. pose proof Hrep as (_ & _ & _ & _ & Hsk & Hsv).
  destruct (encode4_defined "PROPERTY" nv kv v (as_authority (authority (d_impl d)))) as [t Et].
  { solve_chars. }
  { rewrite !Forall_cons. split_and!; [apply (se_sendable fixed) | done | done | apply as_authority_sendable | apply Forall_nil_2]. }
  pose proof (send_throttled_run w y n kv v t Ht Hy Hc Hrep old Et) as R1.
  destruct (IH (put_wire [Sent c cmd_client t header] w) y) as (msgs & R2 & Hk & Hm);
    [by apply throttles_wire | done | by apply found_channel_wire | done | intros; apply Hl; by right |].
  exists ((n, t) :: msgs). cbn [each_of]. rewrite (sbind_run _ _ _ _ _ R1), R2, put_wire_app. split; [done |].
  split; [cbn; by rewrite Hk |]. intros n' t' [[= -> ->] | Hin']%elem_of_cons; [by exists kv, v | by apply Hm].
Qed.
Lemma sends_recorded changes w : throttles w -> found_channel w c x si d -> Forall (reported w) changes ->
  exists w' msgs y, sendThrottledUpdates c (with_items (recorded changes) w) = Ok (tt, w') /\
    wire w' = wire w ++ wired msgs /\ (fst <$> msgs) = keys_of (recorded changes) /\
    (forall n t, (n, t) ∈ msgs -> reports_last changes n t) /\
    chans w' = <[c := y]> (chans w) /\ throttled_items y = ∅ /\ ct w' = ct w.
Proof.
  intros Ht Hc Hr. set (P := recorded changes). set (w1 := with_items P w).
  assert (Hc1 : found_channel w1 c (set_throttled {[m := mkRecord m P]} x) si d)
    by (destruct Hc as [Ec Es Ed]; split; [apply lookup_insert_eq | done | done]).
  set (z := microsecs (ct w1)). set (y := set_last_send z (set_throttled {[m := mkRecord m P]} x)).
  set (w2 := mkCWorld (ct w1) (<[c := y]> (chans w1)) (all_channels w1) (definitions w1) (all_definitions w1) (subjects w1)
    (all_machines w1) (classes w1) (action_kinds w1) (wire w1)).
  assert (Hc2 : found_channel w2 c y si d) by (destruct Hc1 as [Ec Es Ed]; split; [apply lookup_insert_eq | done | done]).
  assert (Ht2 : throttles w2) by (by destruct Ht as [[]]).
  destruct (each_throttled changes (in_order P) w2 y) as (msgs & R & Hk & Hm); [done | by eexists _, _ | done | done | |].
  { intros n v' Hn. apply elem_of_in_order in Hn. pose proof (recorded_last changes n) as Hl. fold P in Hl. rewrite Hn in Hl.
    destruct (last_change n changes) as [[kv v]|]; [|done]. destruct Hl as [old [= ->]]. by exists kv, v, old. }
  destruct (se_features fixed) as (Hprop & Hmod & _). destruct (se_comms fixed) as (Hkc & Hsub & _).
  eexists _, msgs, (set_throttled ∅ y). split.
  { unfold sendThrottledUpdates. rewrite (sbind_run _ _ _ _ _ (active_run Hc1)), (se_active fixed). cbn [negb].
    rewrite (sbind_run _ _ _ _ _ (get_chan_run Hc1)). cbn [comms set_throttled]. rewrite Hkc, Hsub.
    rewrite (sbind_run get_world _ w1 w1 w1) by done. rewrite (sbind_run _ _ w1 tt w2).
    2: { unfold upd_chan. by rewrite (fc_chan _ _ _ _ _ Hc1). }
    cbn [throttled_items set_throttled]. rewrite map_to_list_singleton. cbn [each_of]. unfold send_record.
    erewrite (sbind_run _ _ _ tt); [reflexivity |]. rewrite (sbind_run _ _ _ _ _ (def_run Hc2)), Hprop, Hmod. cbn [orb].
    rewrite (slift_run _ _ _ tt) by done. cbn [snd mr_machine mr_properties]. rewrite (sbind_run _ _ _ _ _ R).
    rewrite (sbind_run (sret tt) _ (put_wire (wired msgs) w2) tt (put_wire (wired msgs) w2)) by done.
    unfold upd_chan. rewrite (fc_chan _ _ _ _ _ (found_channel_wire _ _ _ _ _ _ Hc2)). reflexivity. }
  split; [done |]. split; [by rewrite Hk, in_order_keys |]. split; [done |]. split; [|done].
  cbn. rewrite !insert_insert_eq. do 2 f_equal. unfold set_throttled, y. cbn. by rewrite delete_singleton_eq.
Qed.
End Throttle.

(** C21: between two updates of the only channel, which is active, connected and two-way,
    reports changes of properties, and neither modbus updates nor local properties, changes
    of properties of a throttled machine that the channel carries, to values that can be
    sent, send nothing; the update then sends, for each property that changed, exactly one
    message, with the value of its last change, and nothing is left to send. The machine is
    here, has no owner and an interface on the channel; the properties are of that interface
    and not local; nothing was recorded before, and no other machine is throttled. *)
Theorem throttled_sends_last `{DynEnv} `{!Libm} `{!Reactions} `{!Hub} `{!Virtuals} `{!Scope} `{!ChannelStates} `{!Patterns}
    c m x si sm d k mx cls i kc iv nv interface auth cn first changes w :
  settings m x si sm d k mx cls kc iv nv interface -> throttles m sm k mx i nv interface w -> found_channel w c x si d ->
  all_channels w = Some {[cn := c]} -> throttled_items x = ∅ -> Forall (reported cls i w) (first :: changes) ->
  exists w1 w2 msgs y,
    each_of (fun ch => sendPropertyChange m (snd (fst ch)) (snd ch) auth) (first :: changes) w = Ok (tt, w1) /\ wire w1 = wire w /\
    sendThrottledUpdates c w1 = Ok (tt, w2) /\ wire w2 = wire w ++ wired c msgs /\
    NoDup (fst <$> msgs) /\
    (forall n t, (n, t) ∈ msgs -> reports_last d nv (first :: changes) n t) /\
    (forall n kv v, last_change n (first :: changes) = Some (kv, v) -> n ∈ (fst <$> msgs)) /\
    chans w2 = <[c := y]> (chans w) /\ throttled_items y = ∅.
Proof.
  intros Hs Ht Hc Ea Hit Hr. pose proof Hr as Hr0. apply Forall_cons in Hr0 as [Hf Hrs].
  destruct (sends_recorded c m x si sm d k mx cls i kc iv nv interface Hs (first :: changes) w Ht Hc Hr)
    as (w2 & msgs & y & R2 & Hw & Hk & Hm & Hch & Hy & _).
  eexists _, w2, msgs, y. split; [|split; [|split; [exact R2 |]]].
  - cbn [each_of]. erewrite (sbind_run _ _ w tt).
    2: { apply (property_recorded c m x si sm d k mx cls i kc iv nv interface auth Hs cn w ∅); try done; [|by left].
         by replace (set_throttled ∅ x) with x by (destruct x; cbn in Hit |- *; by rewrite <- Hit). }
    by apply (changes_recorded c m x si sm d k mx cls i kc iv nv interface auth Hs cn).
  - done.
  - split; [done |]. split; [rewrite Hk; apply NoDup_keys |]. split; [done |]. split; [|done].
    intros n kv v Hl. rewrite Hk. unfold keys_of. rewrite elem_of_names. apply elem_of_dom.
    pose proof (recorded_last (first :: changes) n) as Hrec. rewrite Hl in Hrec. destruct Hrec as [old ->]. eauto.
Qed.
