(* ===== verification/ChannelSync.v ===== *)
(** The action with which a channel that connects sends the state of its machines: all
    messages, then [done], and the next state once the other side has answered. *)
From S2P Require Import Prelude Cnum Tokeniser Value SymbolTable Message Handlers Machine MachineProps StableStates Names Modbus Transitions TransitionsProps TransitionOrder Control ControlProps MachineActions MachineActionsProps Json MessageEncoding Channels ChannelProps.
Open Scope Z_scope.
Local Open Scope sm_scope.

Definition with_ct (t : TWorld) (w : CWorld) : CWorld :=
  mkCWorld t (chans w) (all_channels w) (definitions w) (all_definitions w) (subjects w) (all_machines w)
    (classes w) (action_kinds w) (wire w).
Lemma on_t_run {A} (f : TM A) a t w : f (ct w) = Ok (a, t) -> on_t f w = Ok (a, with_ct t w).
Proof. intros E. unfold on_t. by rewrite E. Qed.
Lemma on_t_id {A} (f : TM A) a w : f (ct w) = Ok (a, ct w) -> on_t f w = Ok (a, w).
Proof. intros E. unfold on_t. rewrite E. by destruct w. Qed.

Section Sync.
Context (tk : ClockworkToken) `{DynEnv} `{!Reactions} `{!Hub} `{!Virtuals} `{!Scope} `{!ChannelStates} `{!Patterns}.
Variables (a c : ptr) (ch : Channel) (si : Site) (d : ChannelDefinition) (props : list text).

(** Worlds in which the collected messages are the same. *)
Record alike (w w' : CWorld) : Prop := {
  al_sites : sites (ct w') = sites (ct w);
  al_toks : toks (ct w') = toks (ct w);
  al_names m : m_name <$> Machine.machines (tw (ct w')) !! m = m_name <$> Machine.machines (tw (ct w)) !! m;
  al_chans : chans w' = chans w;
  al_defs : definitions w' = definitions w;
  al_classes : classes w' = classes w
}.
(** The report of one machine; a shadow has none. *)
Definition own_authority : Z := if isClient ch then authority (ch_impl ch) else authority (d_impl d).
Definition report_of (w : CWorld) (m : ptr) : list text :=
  match sites (ct w) !! m, Machine.machines (tw (ct w)) !! m with
  | Some s, Some x => if shadow s then [] else [encodeState_auth (m_name x) (s_text (Transitions.current_state s)) own_authority]
  | _, _ => []
  end.
Definition machine_list : list ptr := elements (channel_machines ch).
Definition reports (w : CWorld) : list text :=
  (if hasFeature ReportStateChanges d then machine_list ≫= report_of w else []) ++
  (if hasFeature ReportPropertyChanges d then props else []).
(** The channel is connected to another system and can send. *)
Record syncing (w : CWorld) : Prop := {
  sg_channel : found_channel w c ch si d;
  sg_two_way : isPublisher d = false;
  sg_on : state_eq (Transitions.current_state si) DISCONNECTED = false;
  sg_client : has_client ch = true;
  sg_machines m : m ∈ channel_machines ch -> is_Some (sites (ct w) !! m) /\ is_Some (Machine.machines (tw (ct w)) !! m);
  sg_props w' : hasFeature ReportPropertyChanges d = true -> alike w w' ->
    gather (syncInterfaceProperties c) machine_list w' = Ok (props, w')
}.
Lemma alike_channel w w' : alike w w' -> found_channel w c ch si d -> found_channel w' c ch si d.
Proof. intros [Es _ _ Ec Ed _] [E1 E2 E3]. split; [by rewrite Ec | by rewrite Es | by rewrite Ed]. Qed.
Lemma sync_state_run w w' m : alike w w' -> syncing w -> m ∈ channel_machines ch -> sync_state c m w' = Ok (report_of w m, w').
Proof.
  intros Ha Hw Hm. pose proof (alike_channel _ _ Ha (sg_channel _ Hw)) as Hc. destruct (sg_machines _ Hw m Hm) as [[s Es] [x Ex]].
  unfold sync_state, report_of, own_authority. rewrite Es, Ex. rewrite (sbind_run _ _ _ s w') by (apply site_run; by rewrite (al_sites _ _ Ha)).
  destruct (shadow s); [done |]. rewrite (sbind_run _ _ _ _ _ (get_chan_run Hc)), (sbind_run _ _ _ _ _ (def_run Hc)).
  pose proof (al_names _ _ Ha m) as En. rewrite Ex in En. destruct (Machine.machines (tw (ct w')) !! m) as [x'|] eqn:Ex'; [|done].
  injection En as En. rewrite (sbind_run (name_of m) _ w' (m_name x) w').
  - destruct (isClient ch); [done |]. by rewrite (sg_client _ Hw).
  - rewrite <- En. apply on_t_id. unfold mname. by rewrite (sbind_run _ _ _ _ _ (machine_run m x' (ct w') Ex')).
Qed.
Lemma gather_states w w' l : alike w w' -> syncing w -> (forall m, m ∈ l -> m ∈ channel_machines ch) ->
  gather (sync_state c) l w' = Ok (l ≫= report_of w, w').
Proof.
  intros Ha Hw. induction l as [|m l IH]; intros Hl; [done |]. cbn [gather].
  rewrite (sbind_run _ _ _ _ _ (sync_state_run w w' m Ha Hw (Hl m ltac:(left)))).
  rewrite (sbind_run _ _ _ _ _ (IH (fun n Hn => Hl n ltac:(by right)))). done.
Qed.
Lemma syncRemoteStates_run w w' : alike w w' -> syncing w -> syncRemoteStates c w' = Ok (Some (reports w), w').
Proof.
  intros Ha Hw. pose proof (alike_channel _ _ Ha (sg_channel _ Hw)) as Hc. unfold syncRemoteStates, reports.
  rewrite (sbind_run _ _ _ _ _ (def_run Hc)), (sg_two_way _ Hw), (sbind_run _ _ _ _ _ (disconnected_run Hc)), (sg_on _ Hw).
  rewrite (sbind_run _ _ _ _ _ (get_chan_run Hc)). fold machine_list.
  rewrite (sbind_run _ _ w' (if hasFeature ReportStateChanges d then machine_list ≫= report_of w else []) w').
  2: { destruct (hasFeature ReportStateChanges d); [|done]. apply gather_states; [done | done |]. intros m. unfold machine_list. by rewrite elem_of_elements. }
  rewrite (sbind_run _ _ w' (if hasFeature ReportPropertyChanges d then props else []) w'); [done |].
  destruct (hasFeature ReportPropertyChanges d) eqn:Ef; [|done]. by apply (sg_props _ Hw).
Qed.

(** *** One message for each call *)
Definition report_wire (t : text) : Wire := Sent c cmd_client t header.
Definition done_wire : Wire := Sent c cmd_client (chars "done") control_reply.
(** What a call with the messages [l] left sends, and what it leaves. *)
Definition call_wires (l : list text) : list Wire :=
  match l with [] => [done_wire] | [t] => [report_wire t; done_wire] | t :: _ => [report_wire t] end.
Definition after_call (l : list text) : SyncFields :=
  match l with [] | [_] => mkSync [] e_sent ps_waiting_ack | _ :: l' => mkSync l' e_sending ps_sending_messages end.
Lemma client_sends w t h : found_channel w c ch si d -> has_client ch = true ->
  safeSend c cmd_client t h w = Ok (tt, put_wire [Sent c cmd_client t h] w).
Proof. intros Hc Hcl. unfold safeSend. rewrite (sbind_run _ _ _ _ _ (get_chan_run Hc)). by rewrite Hcl. Qed.
Lemma sync_messages_run w l st ps : found_channel w c ch si d -> has_client ch = true ->
  sync_messages c (mkSync l st ps) w = Ok (after_call l, put_wire (call_wires l) w).
Proof.
  intros Hc Hcl. unfold sync_messages. cbn [sy_messages]. destruct l as [|t l].
  - by rewrite (sbind_run _ _ _ _ _ (client_sends w _ _ Hc Hcl)).
  - rewrite (sbind_run _ _ _ _ _ (client_sends w _ _ Hc Hcl)). destruct l as [|t' l]; [|done].
    rewrite (sbind_run _ _ _ _ _ (client_sends (put_wire _ w) _ _ (found_channel_wire _ _ _ _ _ _ Hc) Hcl)). by rewrite put_wire_app.
Qed.
(** Further calls while the action runs. *)
Fixpoint sync_calls (n : nat) (f : SyncFields) : CM SyncFields :=
  match n with
  | O => sret f
  | S n' => let! r := sync_checkComplete tk false f a in sync_calls n' (fst r)
  end.
Definition running_sync (w : CWorld) : Prop :=
  exists y, actions (tw (ct w)) !! a = Some y /\ a_owner y = c /\ status y = Running.
Lemma put_status_same w y : actions (tw (ct w)) !! a = Some y -> on_t (put_status (status y) a) w = Ok (tt, w).
Proof.
  intros Ea. erewrite on_t_run by (by apply put_status_run).
  replace (set_status (status y) y) with y by (by destruct y). rewrite insert_id by done. destruct w as [[[]]]; done.
Qed.
Lemma check_sends w l st : l <> [] -> running_sync w -> found_channel w c ch si d -> has_client ch = true ->
  sync_checkComplete tk false (mkSync l st ps_sending_messages) a w = Ok ((after_call l, Running), put_wire (call_wires l) w).
Proof.
  intros Hl (y & Ea & Eo & Est) Hc Hcl. unfold sync_checkComplete.
  assert (Rs : forall v, tw (ct v) = tw (ct w) -> on_t (status_of a) v = Ok (Running, v))
    by (intros v Ev; rewrite <- Est; apply on_t_id, status_of_run; by rewrite Ev).
  rewrite (sbind_run _ _ _ _ _ (Rs w eq_refl)). rewrite (sbind_run (sret _) _ w (mkSync l st ps_sending_messages) w) by done.
  rewrite (sbind_run _ _ _ _ _ (Rs w eq_refl)), (sbind_run (sret tt) _ w tt w) by done. rewrite (sbind_run _ _ _ _ _ (Rs w eq_refl)).
  assert (R : sync_execute tk false (mkSync l st ps_sending_messages) a w = Ok ((after_call l, Running), put_wire (call_wires l) w)).
  { unfold sync_execute. rewrite (sbind_run _ _ w c w) by (rewrite <- Eo; by apply on_t_id, owner_of_run). cbn [sy_process sy_messages].
    destruct l as [|t l]; [done |]. rewrite (slift_run _ _ _ t) by done. set (l1 := t :: l).
    rewrite (sbind_run _ _ _ _ _ (sync_messages_run w l1 st _ Hc Hcl)). by rewrite (sbind_run _ _ _ _ _ (Rs (put_wire _ w) eq_refl)). }
  rewrite (sbind_run _ _ _ _ _ R). cbn [fst snd]. rewrite <- Est at 1.
  by rewrite (sbind_run _ _ _ _ _ (put_status_same (put_wire (call_wires l) w) y Ea)).
Qed.
Lemma check_waits w l st : running_sync w ->
  sync_checkComplete tk false (mkSync l st ps_waiting_ack) a w = Ok ((mkSync l st ps_waiting_ack, Running), w).
Proof.
  intros (y & Ea & Eo & Est). unfold sync_checkComplete.
  assert (Rs : on_t (status_of a) w = Ok (Running, w)) by (rewrite <- Est; by apply on_t_id, status_of_run).
  rewrite (sbind_run _ _ _ _ _ Rs). rewrite (sbind_run (sret _) _ w (mkSync l st ps_waiting_ack) w) by done.
  rewrite (sbind_run _ _ _ _ _ Rs), (sbind_run (sret tt) _ w tt w) by done. rewrite (sbind_run _ _ _ _ _ Rs).
  rewrite (sbind_run (sync_execute tk false (mkSync l st ps_waiting_ack) a) _ w (mkSync l st ps_waiting_ack, Running) w).
  - cbn [fst snd]. rewrite <- Est at 1. by rewrite (sbind_run _ _ _ _ _ (put_status_same w y Ea)).
  - unfold sync_execute. rewrite (sbind_run _ _ w c w) by (rewrite <- Eo; by apply on_t_id, owner_of_run). cbn [sy_process].
    by rewrite (sbind_run _ _ _ _ _ Rs).
Qed.
Lemma calls_wait n : forall w l st, running_sync w ->
  sync_calls n (mkSync l st ps_waiting_ack) w = Ok (mkSync l st ps_waiting_ack, w).
Proof.
  induction n as [|n IH]; intros w l st Hr; [done |]. cbn [sync_calls]. rewrite (sbind_run _ _ _ _ _ (check_waits w l st Hr)).
  cbn [fst]. by apply IH.
Qed.
Lemma calls_send l : forall t w, running_sync w -> found_channel w c ch si d -> has_client ch = true ->
  sync_calls (length l) (after_call (t :: l)) w = Ok (mkSync [] e_sent ps_waiting_ack,
    put_wire (match l with [] => [] | _ => (report_wire <$> l) ++ [done_wire] end) w).
Proof.
  induction l as [|t' l IH]; intros t w Hr Hc Hcl; [cbn; by rewrite put_wire_nil |]. cbn [length sync_calls].
  change (after_call (t :: t' :: l)) with (mkSync (t' :: l) e_sending ps_sending_messages).
  rewrite (sbind_run _ _ _ _ _ (check_sends w (t' :: l) e_sending ltac:(done) Hr Hc Hcl)). cbn [fst].
  rewrite (IH t' (put_wire (call_wires (t' :: l)) w)) by (done || by apply found_channel_wire). rewrite put_wire_app. by destruct l.
Qed.

(** *** The first call *)
Definition new_sync : SyncFields := mkSync [] e_sending ps_init.
Lemma started_names x y w w1 m : Machine.machines (tw (ct w)) !! c = Some x -> checked (started_world a c x y (tw (ct w))) w1 ->
  m_name <$> Machine.machines w1 !! m = m_name <$> Machine.machines (tw (ct w)) !! m.
Proof.
  intros Ex C. pose proof (ck_machines _ _ C m) as Hm. unfold started_world in Hm. cbn in Hm.
  destruct (decide (c = m)) as [<- | Hne].
  - rewrite lookup_insert_eq in Hm. rewrite Ex. inversion Hm as [? x' F E1 E2|]; subst. destruct F as [-> _]. done.
  - rewrite lookup_insert_ne in Hm by done. inversion Hm as [? ? F E1 E2 | E1 E2]; subst; [|done]. destruct F as [-> _]. done.
Qed.
Lemma sync_first x y B w : fit a c x y B (tw (ct w)) -> B < INT_MAX -> started_ y = false -> syncing w ->
  exists t1 x1 y1, sync_run tk false new_sync a w =
      Ok ((after_call (reports w), Running), put_wire (call_wires (reports w)) (with_ct t1 w)) /\
    fit a c x1 y1 (B + 1) (tw t1) /\ status y1 = Running /\ active_actions x1 = begun_stack a x /\
    sites t1 = sites (ct w) /\ toks t1 = toks (ct w) /\
    forall b, b <> a -> actions (tw t1) !! b = actions (tw (ct w)) !! b.
Proof.
  intros Hf HB Hst Hw. destruct (start_checked tk a c x y B (tw (ct w)) Hf Hst HB) as (w1 & R1 & C1 & B1).
  destruct (fit_started a c x y B (tw (ct w)) w1 Hf C1 B1) as (x1 & F1 & Hf1). set (y1 := begun a x y) in *.
  pose proof (fit_action _ _ _ _ _ _ Hf1) as Ea1. set (t1 := heap_to w1 (ct w)).
  pose proof (put_status_run Running a y1 t1 Ea1) as R2. set (t2 := heap_to _ t1) in R2.
  pose proof (fit_update a c x1 y1 (set_status Running y1) (B + 1) w1 Hf1 eq_refl eq_refl eq_refl) as Hf2.
  exists t2, x1, (set_status Running y1). split; [|split; [exact Hf2 | split; [done | split; [by destruct F1 as [-> _] | split; [done | split; [done |]]]]]].
  2: { intros b Hb. subst t2 t1. cbn. rewrite lookup_insert_ne, (ck_actions _ _ C1) by done. unfold started_world. cbn. by rewrite lookup_insert_ne. }
  assert (Ha : alike w (with_ct t2 w)).
  { split; try done. intros m. cbn. apply (started_names x y w w1 m (fit_machine _ _ _ _ _ _ Hf) C1). }
  pose proof (alike_channel _ _ Ha (sg_channel _ Hw)) as Hc2.
  unfold sync_run, sync_execute. rewrite (sbind_run _ _ w c w).
  2: { rewrite <- (fit_owner _ _ _ _ _ _ Hf). apply on_t_id, owner_of_run. exact (fit_action _ _ _ _ _ _ Hf). }
  cbn [sy_process new_sync]. rewrite (sbind_run _ _ w tt (with_ct t1 w)) by (apply on_t_run; by apply on_heap_run).
  rewrite (sbind_run _ _ (with_ct t1 w) tt (with_ct t2 w)) by (by apply (on_t_run (put_status Running a) tt t2 (with_ct t1 w))).
  rewrite (sbind_run _ _ _ _ _ (syncRemoteStates_run w (with_ct t2 w) Ha Hw)).
  rewrite (sbind_run _ _ _ _ _ (sync_messages_run (with_ct t2 w) (reports w) _ _ Hc2 (sg_client _ Hw))).
  rewrite (sbind_run _ _ (put_wire (call_wires (reports w)) (with_ct t2 w)) Running (put_wire (call_wires (reports w)) (with_ct t2 w))); [done |].
  change Running with (status (set_status Running y1)). apply on_t_id, status_of_run. cbn. apply lookup_insert_eq.
Qed.

(** *** The answer *)
Lemma queue_run b w x : Machine.machines (tw (ct w)) !! c = Some x ->
  exists q t, queue_action c b w = Ok (q, with_ct t w) /\ actions (tw t) = <[q := mkAction 1 c "" New Running None None false false None None b]> (actions (tw (ct w))) /\
    actions (tw (ct w)) !! q = None /\ stack_of c (tw t) = Some (q :: active_actions x) /\ sites t = sites (ct w).
Proof.
  intros Ex. set (q := fresh (dom (actions (tw (ct w))) : gset ptr)).
  assert (Hq : actions (tw (ct w)) !! q = None) by (apply not_elem_of_dom, is_fresh).
  eexists q, _. split.
  - unfold queue_action, Action_new, alloc_action, enqueueAction, upd_machine, get_machine, modify, sbind, on_t, on_heap.
    cbn. rewrite Ex. cbn. rewrite lookup_insert_eq. cbn. reflexivity.
  - cbn. split; [done |]. split; [done |]. split; [unfold stack_of; cbn; by rewrite lookup_insert_eq | done].
Qed.
Definition next_state : string := if isClient ch then "ACTIVE" else "DOWNLOADING".
Lemma sync_acked x y B w st : fit a c x y B (tw (ct w)) -> B + 2 <= INT_MAX -> status y = Running -> found_channel w c ch si d ->
  exists w' q y', sync_checkComplete tk true (mkSync [] st ps_waiting_ack) a w = Ok ((mkSync [] st ps_waiting_ack, Complete), w') /\
    wire w' = wire w /\ sites (ct w') = sites (ct w) /\
    stack_of c (tw (ct w')) = Some (q :: without a (active_actions x)) /\ actions (tw (ct w')) !! a = Some y' /\ status y' = Complete /\
    (body <$> actions (tw (ct w')) !! q) = Some (BSetState "SELF" next_state).
Proof.
  intros Hf HB Est Hc. pose proof (fit_action _ _ _ _ _ _ Hf) as Ea.
  destruct (finish_checked tk Complete a c x y B (tw (ct w)) Hf HB) as (w1 & am & R1 & _ & C1 & Ham & Hoth).
  set (t1 := heap_to w1 (ct w)). set (v1 := with_ct t1 w).
  assert (Ea1 : actions w1 !! a = Some (stopped a x (set_status Complete y))) by (by rewrite (ck_actions _ _ C1)).
  assert (Es1 : stack_of c w1 = Some (without a (active_actions x))).
  { rewrite (checked_stack _ _ c C1). unfold stack_of, removed. cbn. by rewrite lookup_insert_eq. }
  unfold stack_of in Es1. destruct (Machine.machines w1 !! c) as [x1|] eqn:Ex1; [|done]. injection Es1 as Es1.
  destruct (queue_run (BSetState "SELF" next_state) v1 x1 Ex1) as (q & t2 & R2 & A2 & Hq & K2 & S2). set (v2 := with_ct t2 v1) in *.
  assert (a <> q) as Haq by (intros <-; cbn in Hq; congruence).
  assert (Ea2 : actions (tw t2) !! a = Some (stopped a x (set_status Complete y))) by (rewrite A2, lookup_insert_ne by done; exact Ea1).
  exists v2, q, (stopped a x (set_status Complete y)).
  assert (Rs : on_t (status_of a) w = Ok (Running, w)) by (rewrite <- Est; by apply on_t_id, status_of_run).
  assert (Rx : sync_execute tk true (mkSync [] st ps_waiting_ack) a w = Ok ((mkSync [] st ps_waiting_ack, Complete), v2)).
  { unfold sync_execute. rewrite (sbind_run _ _ w c w) by (rewrite <- (fit_owner _ _ _ _ _ _ Hf); by apply on_t_id, owner_of_run).
    cbn [sy_process]. rewrite (sbind_run _ _ w Complete v1) by (apply on_t_run; by apply on_heap_run).
    assert (Hc1 : found_channel v1 c ch si d) by (by destruct Hc). rewrite (sbind_run _ _ _ _ _ (get_chan_run Hc1)).
    rewrite (sbind_run _ _ v1 tt v2); [done |]. unfold queue_state, next_state in *. destruct (isClient ch); by rewrite (sbind_run _ _ _ _ _ R2). }
  split; [|split; [done | split; [|split; [by rewrite <- Es1 | split; [exact Ea2 | split; [done |]]]]]].
  - unfold sync_checkComplete. rewrite (sbind_run _ _ _ _ _ Rs). rewrite (sbind_run (sret _) _ w (mkSync [] st ps_waiting_ack) w) by done.
    rewrite (sbind_run _ _ _ _ _ Rs), (sbind_run (sret tt) _ w tt w) by done. rewrite (sbind_run _ _ _ _ _ Rs), (sbind_run _ _ _ _ _ Rx).
    cbn [fst snd]. change Complete with (status (stopped a x (set_status Complete y))) at 1.
    by rewrite (sbind_run _ _ _ _ _ (put_status_same v2 _ Ea2)).
  - cbn. by rewrite S2.
  - cbn. rewrite A2. by rewrite lookup_insert_eq.
Qed.
End Sync.

