(* ===== verification/ChannelSamples.v ===== *)
(** A channel between two systems that share a pump: the theorems on channels applied,
    and the exchange of messages that starts the connection, run on both sides. *)
From S2P Require Import Prelude Cnum Tokeniser Value SymbolTable Message Handlers Machine MachineProps StableStates Names Modbus Transitions TransitionsProps TransitionOrder DispatchProps Control ControlProps MachineActions MachineActionsProps Json JsonProps JsonEnds MessageEncoding MessageEncodingProps Channels ChannelFilters ChannelProps ChannelThrottle ChannelSync.
Open Scope Z_scope.
Local Open Scope sm_scope.

Definition link : ptr := 1%positive.
Definition pump : ptr := 2%positive.
Definition tank : ptr := 3%positive.
Definition gauge : ptr := 4%positive.
Definition link_class : ptr := 1%positive.
Definition channel_toks : Tokeniser := learn ["DISCONNECTED"; "WAITSTART"; "CONNECTING"; "CONNECTED"; "DOWNLOADING"; "UPLOADING";
  "ACTIVE"; "INIT"; "STATE"; "pump"; "tank"; "gauge"; "PUMP"; "level"; "speed"] Tokeniser_new.
Definition known (n : string) : State := mkState n 0 (default 0 (tokens channel_toks !! n)).
Definition symbol (n : string) : Value := mkString t_symbol n (default 0 (tokens channel_toks !! n)).
#[export] Instance sample_states : ChannelStates := {|
  DISCONNECTED := known "DISCONNECTED"; WAITSTART := known "WAITSTART"; CONNECTING := known "CONNECTING";
  CONNECTED := known "CONNECTED"; DOWNLOADING := known "DOWNLOADING"; UPLOADING := known "UPLOADING"; ACTIVE := known "ACTIVE"
|}.
Definition channel_states : list State :=
  known <$> ["DISCONNECTED"; "CONNECTED"; "CONNECTING"; "WAITSTART"; "UPLOADING"; "DOWNLOADING"; "ACTIVE"].
(** Patterns without operators match the text itself. *)
#[export] Instance sample_patterns : Patterns := {| pattern_compiles := fun _ => true; pattern_matches := fun p n => bool_decide (p = n) |}.
Definition quiet_scope : Scope := {|
  lookup_machine := fun _ _ => sret None; value_in := fun _ _ => sret Null; predicate_value := fun _ _ => sret Null;
  condition_value := fun _ _ => sret false; handler_for := fun _ _ => sret None; prepare_completion := fun _ _ _ => sret tt;
  class_timer := fun _ _ => sret None; transition_table := fun _ => []; channel_of_type := fun _ => sret None
|}.
Definition state_props (n : string) : SymbolTable := mkST (list_to_map [("STATE", symbol n); ("level", Value_long 7)]) ∅.
(** Properties are read from the table of the machine. *)
Definition plant_reactions : Reactions := {|
  react := fun _ _ => sret Complete; methods := lamp_methods;
  property_value := fun m k t => match sites t !! m with Some s => default Null (st (properties s) !! k) | None => Null end;
  io_name := fun _ => ""; io_state := fun _ => ""; io_value := fun _ _ => Null; io_signed := fun _ => false;
  is_channel := fun m => bool_decide (m = link); microsecs := fun _ => 1000
|}.
Definition channel_site (st : string) : Site :=
  mkSite "LINK" None false None 0 channel_states (known "DISCONNECTED") (known st) (state_props st) None None 0 false ∅ [] [] [] 0 0.
Definition machine_site (is_shadow : bool) (p : Z) : Site :=
  mkSite "PUMP" None is_shadow None 0 [known "INIT"] (known "INIT") (known "INIT") (state_props "INIT") None None p false ∅ [] [] [] 0 0.
Definition exporting_site : Site :=
  mkSite "PUMP" None false None 0 [known "INIT"] (known "INIT") (known "INIT") (state_props "INIT") None None 1 false
    {["gauge" := no_address]} [] [] [] 0 0.

Definition no_impl : ChannelImplementation := mkImpl ∅ ∅ ∅ ∅ ∅ ∅ ∅ false 5 0 77.
Definition link_impl : ChannelImplementation :=
  mkImpl {["tank"]} {["tank"]} {["pump"]} ∅ ∅ {["pump" := symbol "PUMP"]} ∅ true 5 0 42.
Definition link_definition : ChannelDefinition :=
  mkDefinition "LINK" link_impl [ReportStateChanges; ReportPropertyChanges] false "" "" "" ∅ ∅ ∅ 0.
Definition link_up : Comms := mkComms (Some false) false e_done true 42.
Definition link_channel (file : string) (items : gset ptr) (connected : Z) : Channel :=
  mkChannel "link_1" no_impl (Some link_class) file (Some link_up) false true true items ∅ 100 0 connected false false true.
Definition pump_class : ClassInfo := mkClassInfo {["private"]} {["level"; "speed"]} true.
Definition other_system : Subject := mkSubject (Some pump_class) true (Some link).
Definition own_subject : Subject := mkSubject (Some pump_class) true None.

Definition plant_heap : World :=
  mkWorld ∅ (list_to_map [(act, mkAction 2 link "" New Running None None false false None None (BOther 0))])
    (list_to_map [(link, new_machine "link_1" []); (pump, new_machine "pump" []); (tank, new_machine "tank" []);
                  (gauge, new_machine "gauge" [])]) ∅ ∅ ∅ 0 0 [].
Definition plant_sites (st : string) (away : bool) : gmap ptr Site :=
  list_to_map [(link, channel_site st); (pump, machine_site away 1); (tank, machine_site false 0); (gauge, exporting_site)].
Definition plant (file st : string) (away : bool) (items : gset ptr) (connected : Z) : CWorld :=
  mkCWorld (mkTWorld plant_heap (plant_sites st away) ∅ channel_toks None 0 [] [])
    {[link := link_channel file items connected]} (Some {["link_1" := link]}) {[link_class := link_definition]}
    {["LINK" := link_class]}
    (list_to_map [(pump, if away then other_system else own_subject); (tank, own_subject); (gauge, own_subject)])
    [pump; tank; gauge] {["PUMP" := pump_class]} ∅ [].
Ltac in_plant H := apply elem_of_list_to_map_2 in H; rewrite ?elem_of_cons, elem_of_nil in H; destruct_or? H; simplify_eq.

(** ** The filters *)
Lemma no_own_ignores `{!Patterns} file items n w m : ~ ignored w (ch_impl (link_channel file items n)) m.
Proof. intros (p & Hp & _). by apply (not_elem_of_empty (C := gset string)) in Hp. Qed.
Lemma filters_choose_machines_w : exists w' x',
  @setupFilters no_dyn plant_reactions quiet_scope sample_patterns link (plant "dynamic" "ACTIVE" false {[tank; gauge]} 1) = Ok (tt, w') /\
  chans w' !! link = Some x' /\ (pump ∈ channel_machines x') /\ (tank ∉ channel_machines x') /\ (gauge ∈ channel_machines x') /\
  (published <$> sites (ct w') !! gauge) = Some 2 /\ (published <$> sites (ct w') !! tank) = Some (-1).
Proof.
  set (w := plant "dynamic" "ACTIVE" false {[tank; gauge]} 1).
  destruct (@filters_choose_machines no_dyn plant_reactions some_hub no_virtuals quiet_scope sample_states sample_patterns link
    (link_channel "dynamic" {[tank; gauge]} 1) w (fun _ _ => None) link_definition link_class)
    as (w' & x' & R & Ech & _ & Hin & Hpub).
  - intros m n t. reflexivity.
  - intros m k t t' E. cbn. specialize (E m). destruct (sites t !! m), (sites t' !! m); cbn in E; try done. by injection E as ->.
  - reflexivity.
  - repeat constructor; set_solver.
  - intros m Hm. cbn in Hm. rewrite !elem_of_cons, elem_of_nil in Hm. destruct_or? Hm; subst; split; eexists; reflexivity.
  - intros m n k E. discriminate E.
  - split; reflexivity.
  - intros k v m E. cbn in E. by rewrite lookup_empty in E.
  - cbn. lia.
  - assert (Hp : pump ∈ channel_machines x').
    { apply Hin; [by left |]. right. split; [apply no_own_ignores |]. left. exists "pump". split; [by apply (bool_decide_eq_true_1 _) | reflexivity]. }
    assert (Ht : tank ∉ channel_machines x').
    { rewrite Hin by (right; by left). intros [(n & Hn & _) | (_ & [(n & Hn & E) | (Hi & _)])].
      - by apply (not_elem_of_empty (C := gset string)) in Hn.
      - change (n ∈ ({["pump"]} : gset string)) in Hn; apply elem_of_singleton in Hn as ->. discriminate E.
      - apply Hi. exists "tank". split; [by apply (bool_decide_eq_true_1 _) | reflexivity]. }
    assert (Hg : gauge ∈ channel_machines x').
    { apply Hin; [right; right; by left |]. right. split; [apply no_own_ignores |]. right. split.
      - intros (p & Hp' & E). change (p ∈ ({["tank"]} : gset string)) in Hp'; apply elem_of_singleton in Hp' as ->. discriminate E.
      - right. by apply (bool_decide_eq_true_1 _). }
    exists w', x'. split; [exact R |]. split; [by rewrite Ech, lookup_insert_eq |]. split; [done |]. split; [done |]. split; [done |].
    rewrite (Hpub gauge exporting_site) by reflexivity. rewrite (Hpub tank (machine_site false 0)) by reflexivity.
    unfold inside. rewrite (bool_decide_true (gauge ∈ channel_machines x')), (bool_decide_false (tank ∈ channel_machines x')) by done.
    split; reflexivity.
Defined.

(** ** Changes of state *)
Lemma link_registered : registered ({["link_1" := link]}).
Proof. intros n n' c [<- <-]%lookup_singleton_Some [<- _]%lookup_singleton_Some. done. Qed.
Lemma link_found file st away items n : found_channel (plant file st away items n) link (link_channel file items n) (channel_site st) link_definition.
Proof. split; [reflexivity | reflexivity |]. exists link_class. split; reflexivity. Qed.
Definition running_plant : CWorld := plant "dynamic" "ACTIVE" false {[pump]} 1.

(** ** Properties that are sent from time to time *)
Definition changes : list Change :=
  [("level", symbol "level", Value_long 1); ("speed", symbol "speed", Value_long 5); ("level", symbol "level", Value_long 2)].
Lemma reported_change n z : n = "level" \/ n = "speed" ->
  - 2 ^ 53 <= z <= 2 ^ 53 -> @reported no_dyn sample_libm pump_class pump_class running_plant (n, symbol n, Value_long z).
Proof.
  intros Hn Hz. split; [by destruct Hn; subst|]. split; [destruct Hn; subst; vm_compute; reflexivity |].
  split; [apply (bool_decide_eq_true_1 _); by destruct Hn; subst |]. split; [apply (bool_decide_eq_true_1 _); by destruct Hn; subst |].
  split; [|exists z; split; [reflexivity | exact Hz]].
  destruct Hn; subst; (split; [solve_chars | apply (bool_decide_eq_true_1 _); reflexivity]).
Qed.
Lemma throttled_sends_last_w : exists w1 w2 msgs,
  each_of (fun ch => @sendPropertyChange no_dyn sample_states pump (snd (fst ch)) (snd ch) 0) changes running_plant = Ok (tt, w1) /\
  wire w1 = [] /\ @sendThrottledUpdates no_dyn plant_reactions sample_states link w1 = Ok (tt, w2) /\ wire w2 = wired link msgs.
Proof.
  destruct (@throttled_sends_last no_dyn sample_libm plant_reactions some_hub no_virtuals quiet_scope sample_states sample_patterns
    link pump (link_channel "dynamic" {[pump]} 1) (channel_site "ACTIVE") (machine_site false 1) link_definition own_subject
    (new_machine "pump" []) pump_class pump_class link_up (symbol "PUMP") (symbol "pump") "PUMP" 0 "link_1"
    ("level", symbol "level", Value_long 1) (tail changes) running_plant)
    as (w1 & w2 & msgs & y & R1 & W1 & R2 & W2 & _).
  - split.
    + split; [discriminate | reflexivity].
    + vm_compute. reflexivity.
    + repeat split; vm_compute; reflexivity.
    + split; [apply (bool_decide_eq_true_1 _); reflexivity | vm_compute; reflexivity].
    + repeat split; reflexivity.
    + split; vm_compute; reflexivity.
    + repeat split; reflexivity.
    + cbn. lia.
    + split; [solve_chars | apply (bool_decide_eq_true_1 _); reflexivity].
  - split; [split; reflexivity | reflexivity | vm_compute; reflexivity | vm_compute; reflexivity].
  - apply link_found.
  - reflexivity.
  - reflexivity.
  - repeat apply List.Forall_cons; try apply List.Forall_nil; apply reported_change; (tauto || lia).
  - exists w1, w2, msgs. split; [exact R1 |]. split; [exact W1 |]. split; [exact R2 | exact W2].
Defined.
(** One message for each property, with the value of its last change. *)
Example one_message_each :
  match (run! each_of (fun ch => @sendPropertyChange no_dyn sample_states pump (snd (fst ch)) (snd ch) 0) changes in
         @sendThrottledUpdates no_dyn plant_reactions sample_states link) running_plant,
    @encodeCommand4 no_dyn "PROPERTY" (symbol "pump") (symbol "level") (Value_long 2) (Value_long 42),
    @encodeCommand4 no_dyn "PROPERTY" (symbol "pump") (symbol "speed") (Value_long 5) (Value_long 42) with
  | Ok (_, w), Ok t1, Ok t2 => wire w = [Sent link cmd_client t1 header; Sent link cmd_client t2 header]
  | _, _, _ => False
  end.
Proof. vm_compute. reflexivity. Qed.

(** ** The states at the start of a connection *)
Definition upload : Action := mkAction 2 link "" New Running None None false false None None (BOther 0).
Definition uploading_plant : CWorld := plant "dynamic" "UPLOADING" false {[pump]} 1.
Lemma upload_fit : fit act link (new_machine "link_1" []) upload 1 (tw (ct uploading_plant)).
Proof.
  split; try reflexivity.
  - intros t [=].
  - split.
    + intros m x Hx. apply elem_of_list_to_map_2 in Hx.
      repeat (apply elem_of_cons in Hx as [[= -> ->] | Hx]; [cbn; lia |]). by apply elem_of_nil in Hx.
    + intros m x d Hx. apply elem_of_list_to_map_2 in Hx.
      repeat (apply elem_of_cons in Hx as [[= -> ->] | Hx]; [by intros ?%elem_of_nil |]). by apply elem_of_nil in Hx.
  - intros m x Hx. apply elem_of_list_to_map_2 in Hx.
    repeat (apply elem_of_cons in Hx as [[= -> ->] | Hx]; [cbn; lia |]). by apply elem_of_nil in Hx.
  - intros n Hn. vm_compute in Hn. discriminate Hn.
Qed.
Definition level_report : list text :=
  match @encodeCommand4 no_dyn "PROPERTY" (symbol "pump") (symbol "level") (Value_long 7) (Value_long 42) with Ok t => [t] | _ => [] end.
Lemma reports_gathered w' : alike uploading_plant w' ->
  gather (@syncInterfaceProperties no_dyn plant_reactions link) (machine_list (link_channel "dynamic" {[pump]} 1)) w' = Ok (level_report, w').
Proof.
  intros Ha.
  assert (Hn : name_of pump w' = Ok ("pump", w')).
  { unfold name_of. apply on_t_id. assert (E : m_name <$> Machine.machines (tw (ct w')) !! pump = Some "pump") by (rewrite (al_names _ _ Ha); reflexivity).
    unfold mname, machine, on_heap, get_machine, sbind.
    destruct (Machine.machines (tw (ct w')) !! pump) as [x|] eqn:Ex; [|discriminate E].
    cbn in E |- *. injection E as ->. by destruct (ct w'). }
  assert (Ht : forall n v, Value_str n t_symbol channel_toks = Ok (v, channel_toks) -> on_t (tokenise (Value_str n t_symbol)) w' = Ok (v, w')).
  { intros n v E. apply on_t_id. rewrite <- (al_toks _ _ Ha : toks (ct w') = channel_toks) in E.
    unfold tokenise. rewrite E. by destruct (ct w'). }
  assert (Hv : forall n, @property_value plant_reactions pump n (ct w') = default Null (st (state_props "INIT") !! n)).
  { intros n. cbn. by rewrite (al_sites _ _ Ha). }
  assert (Hl : @encode_property no_dyn plant_reactions pump link_definition "level" w' = Ok (level_report, w')).
  { unfold encode_property. rewrite (sbind_run get_world _ w' w' w') by done. rewrite Hv.
    change (default Null (st (state_props "INIT") !! "level")) with (Value_long 7).
    rewrite (slift_run _ _ _ true) by reflexivity.
    rewrite (sbind_run _ _ _ _ _ Hn), (sbind_run _ _ _ _ _ (Ht "level" (symbol "level") ltac:(vm_compute; reflexivity))).
    rewrite (sbind_run _ _ w' (default [] (head level_report)) w'); [reflexivity |].
    unfold PROPERTY. by rewrite (sbind_run _ _ _ _ _ (Ht "pump" (symbol "pump") ltac:(vm_compute; reflexivity))). }
  assert (Hs : @encode_property no_dyn plant_reactions pump link_definition "speed" w' = Ok ([], w')).
  { unfold encode_property. rewrite (sbind_run get_world _ w' w' w') by done. by rewrite Hv. }
  change (machine_list _) with [pump]. cbn [gather]. rewrite (sbind_run _ _ w' level_report w').
  { rewrite (sbind_run _ _ w' [] w') by done. unfold sret. by rewrite app_nil_r. }
  pose proof (alike_channel _ _ _ _ _ _ Ha (link_found "dynamic" "UPLOADING" false {[pump]} 1)) as Hc.
  unfold syncInterfaceProperties. rewrite (sbind_run _ _ _ _ _ (def_run Hc)).
  replace (negb _) with false by reflexivity.
  assert (Es : sites (ct w') !! pump = Some (machine_site false 1)) by (rewrite (al_sites _ _ Ha); reflexivity).
  rewrite (sbind_run _ _ _ _ _ (site_run Es)).
  cbn [shadow machine_site]. rewrite (sbind_run _ _ _ _ _ Hn).
  change (updates_names (d_impl link_definition) !! "pump") with (Some (symbol "PUMP")).
  cbv iota beta.   rewrite (slift_run _ _ _ "PUMP") by reflexivity. rewrite (sbind_run get_world _ w' w' w') by done.
  rewrite (al_classes _ _ Ha). change (classes uploading_plant !! "PUMP") with (Some pump_class). cbn [is_interface pump_class].
  replace (names_of _) with ["level"; "speed"] by (vm_compute; reflexivity).
  cbn [gather]. rewrite (sbind_run _ _ _ _ _ Hl). rewrite (sbind_run _ _ w' [] w'); [unfold sret; by rewrite app_nil_r |].
  by rewrite (sbind_run _ _ _ _ _ Hs).
Qed.

(** ** The exchange that starts a connection *)
Definition receive (data : string) (reply : bool) : CM unit :=
  @handle_control some_tokens no_dyn plant_reactions machine_hub quiet_scope sample_states link data reply.
Definition state_after (r : res (unit * CWorld)) : option string :=
  match r with Ok (_, w) => (s_text ∘ Transitions.current_state) <$> sites (ct w) !! link | _ => None end.
Definition queued_after (r : res (unit * CWorld)) : option nat :=
  match r with Ok (_, w) => length <$> stack_of link (tw (ct w)) | _ => None end.
(** A server that waits for [status] sends its states and is active when the client says
    that it has sent its own. *)
Example server_exchange :
  state_after (receive "status" false (plant "dynamic" "WAITSTART" false {[pump]} 1)) = Some "UPLOADING" /\
  state_after (receive "done" true (plant "dynamic" "DOWNLOADING" false {[pump]} 1)) = Some "ACTIVE".
Proof. split; vm_compute; reflexivity. Qed.
Example client_exchange :
  state_after (receive "done" true (plant "link.cw" "DOWNLOADING" true {[pump]} 1)) = Some "UPLOADING" /\
  state_after (receive "done" true (plant "link.cw" "UPLOADING" true {[pump]} 1)) = Some "ACTIVE".
Proof. split; vm_compute; reflexivity. Qed.
(** In the state CONNECTED the same message takes the server to ACTIVE, with the upload
    still to run, and an empty message counts as [done]. *)
Example server_skips_upload :
  state_after (receive "status" false (plant "dynamic" "CONNECTED" false {[pump]} 1)) = Some "ACTIVE" /\
  queued_after (receive "status" false (plant "dynamic" "CONNECTED" false {[pump]} 1)) = Some 1%nat /\
  state_after (receive "" true (plant "dynamic" "DOWNLOADING" false {[pump]} 1)) = Some "ACTIVE".
Proof. repeat split; vm_compute; reflexivity. Qed.
