(* ===== verification/Router.v ===== *)
(** Message headers and the router of a channel: it reads messages from the socket that
    leads to the other system and hands them to the socket their header addresses, and
    the other way round (MessageHeader.cpp, MessageRouter of ConnectionManager.cpp). *)
From S2P Require Import Prelude Value Message MessageEncoding.
From stdpp Require Import sorting.
Open Scope Z_scope.
Local Open Scope sm_scope.

(** ** Message headers *)
Record MessageHeader := mkMessageHeader {
  msgid : Z;
  dest : Z;
  source : Z;
  start_time : Z;
  arrival_time : Z;
  h_options : Z
}.
#[export] Instance MessageHeader_eq_dec : EqDecision MessageHeader.
Proof. solve_decision. Defined.
Definition NEED_REPLY : Z := 1.
Definition SOCK_REMOTE_id : Z := 9.
Definition SOCK_CW_id : Z := 1.
Definition SOCK_CHAN_id : Z := 2.
Definition SOCK_CTRL_id : Z := 3.
(** The constructors count the headers of the process. *)
Definition MessageHeader_new (last_id dst src : Z) (need_reply : bool) : MessageHeader * Z :=
  let id := u32 (last_id + 1) in
  (mkMessageHeader id dst src 0 0 (if need_reply then Z.lor 0 NEED_REPLY else 0), id).
Definition MessageHeader_default (last_id : Z) : MessageHeader * Z :=
  let id := u32 (last_id + 1) in (mkMessageHeader id 0 0 0 0 0, id).
Definition with_options (o : Z) (h : MessageHeader) : MessageHeader :=
  mkMessageHeader (msgid h) (dest h) (source h) (start_time h) (arrival_time h) o.
Definition with_start (t : Z) (h : MessageHeader) : MessageHeader :=
  mkMessageHeader (msgid h) (dest h) (source h) t (arrival_time h) (h_options h).
Definition needReply (needs : bool) (h : MessageHeader) : MessageHeader :=
  with_options (if needs then Z.lor (h_options h) NEED_REPLY else Z.land (h_options h) (u32 (Z.lxor (-1) NEED_REPLY))) h.
Definition needsReply (h : MessageHeader) : bool := Z.land (h_options h) NEED_REPLY =? NEED_REPLY.
Definition header_reply (h : MessageHeader) : MessageHeader :=
  mkMessageHeader (msgid h) (source h) (dest h) (start_time h) (arrival_time h) (h_options h).

(** ** Sockets *)
(** A message on a socket: a header of its own, if there is one, and the text. *)
Record Frame := mkFrame { f_header : option MessageHeader; f_text : text }.
#[export] Instance Frame_eq_dec : EqDecision Frame.
Proof. solve_decision. Defined.
Record Sockets := mkSockets {
  inboxes : gmap ptr (list Frame);
  sent : list (ptr * Frame);
  last_id : Z;
  clock : Z
}.
Abbreviation NM := (SM Sockets).
Definition inbox (s : ptr) (w : Sockets) : list Frame := default [] (inboxes w !! s).
Definition new_header : NM MessageHeader := fun w =>
  let '(h, n) := MessageHeader_default (last_id w) in Ok (h, mkSockets (inboxes w) (sent w) n (clock w)).
Definition put (s : ptr) (f : Frame) : NM unit := fun w =>
  Ok (tt, mkSockets (inboxes w) (sent w ++ [(s, f)]) (last_id w) (clock w)).
(** [safeRecv] that does not wait: [mh] is overwritten by a header of the message. *)
Definition safeRecv (s : ptr) (mh : MessageHeader) : NM (option (text * MessageHeader)) := fun w =>
  match inbox s w with
  | [] => Ok (None, w)
  | f :: fs => Ok (Some (f_text f, default mh (f_header f)),
      mkSockets (<[s := fs]> (inboxes w)) (sent w) (last_id w) (clock w))
  end.
(** [safeSend] with a header, which is sent if it has an address. *)
Definition safeSend (s : ptr) (t : text) (h : MessageHeader) : NM unit :=
  let? _ok := assert (negb (start_time h =? 0)) in
  put s (mkFrame (if negb (dest h =? 0) || negb (source h =? 0) then Some h else None) t).
Definition safeSend_plain (s : ptr) (t : text) : NM unit := put s (mkFrame None t).

(** ** The router *)
(** A filter may change the message and says whether it passes. *)
Definition MessageFilter : Type := text -> MessageHeader -> bool * (text * MessageHeader).
Record RouteInfo := mkRoute { r_sock : ptr; r_filters : list MessageFilter }.
Record MessageRouter := mkRouter {
  routes : gmap Z RouteInfo;
  filters : list MessageFilter;
  remote : option ptr;
  default_dest : option ptr
}.
Definition MessageRouter_new : MessageRouter := mkRouter ∅ [] None None.
Definition addRoute (id : Z) (s : ptr) (r : MessageRouter) : MessageRouter :=
  match routes r !! id with
  | Some _ => r
  | None => mkRouter (<[id := mkRoute s []]> (routes r)) (filters r) (remote r) (default_dest r)
  end.
Definition addDefaultRoute (s : ptr) (r : MessageRouter) : MessageRouter :=
  mkRouter (routes r) (filters r) (remote r) (Some s).
Definition setRemoteSocket (s : ptr) (r : MessageRouter) : MessageRouter :=
  mkRouter (routes r) (filters r) (Some s) (default_dest r).
Definition addFilter (id : Z) (f : MessageFilter) (r : MessageRouter) : MessageRouter :=
  if id =? SOCK_REMOTE_id then mkRouter (routes r) (filters r ++ [f]) (remote r) (default_dest r)
  else match routes r !! id with
  | Some i => mkRouter (<[id := mkRoute (r_sock i) (r_filters i ++ [f])]> (routes r)) (filters r) (remote r) (default_dest r)
  | None => r
  end.

(** The routes in the order of their numbers, as the map is traversed. *)
Definition route_ids (r : MessageRouter) : list Z := merge_sort Z.le (elements (dom (routes r))).
Definition readable (s : ptr) (w : Sockets) : bool := match inbox s w with [] => false | _ => true end.
Definition get_sockets : NM Sockets := fun w => Ok (w, w).
(** A message of the other system. Only the first filter of a route is used, and the
    default route gets the text without its header. *)
Definition from_remote (r : MessageRouter) (rs : ptr) (mh : MessageHeader) : NM unit :=
  let! m := safeRecv rs mh in
  let! w := get_sockets in
  match m with
  | None => sret tt
  | Some (t, mh) =>
      match routes r !! dest mh with
      | Some i =>
          match r_filters i with
          | f :: _ => let '(pass, (t', mh')) := f t mh in
              if pass : bool then safeSend (r_sock i) t' (with_start (clock w) mh') else sret tt
          | [] => safeSend (r_sock i) t (with_start (clock w) mh)
          end
      | None => match default_dest r with Some s => safeSend_plain s t | None => sret tt end
      end
  end.
(** All filters of the socket to the other system are used, even after one that stops
    the message. *)
Fixpoint filter_all (fs : list MessageFilter) (pass : bool) (t : text) (h : MessageHeader) : bool * (text * MessageHeader) :=
  match fs with
  | [] => (pass, (t, h))
  | f :: fs' => let '(b, (t', h')) := f t h in filter_all fs' (if b then pass else false) t' h'
  end.
Definition to_remote (r : MessageRouter) (rs : ptr) (revents : Z -> bool) (id : Z) : NM unit :=
  if revents id then
    let? i := rd (routes r !! id) in
    let! mh := new_header in
    let! m := safeRecv (r_sock i) mh in
    let! w := get_sockets in
    match m with
    | None => sret tt
    | Some (t, mh) =>
        let '(pass, (t', mh')) := filter_all (filters r) true t mh in
        if pass : bool then safeSend rs t' (with_start (clock w) mh') else sret tt
    end
  else sret tt.
Fixpoint each_id (f : Z -> NM unit) (l : list Z) : NM unit :=
  match l with
  | [] => sret tt
  | i :: l' => run! f i in each_id f l'
  end.
(** [MessageRouter::poll]: what can be read is decided before anything is read. *)
Definition poll (r : MessageRouter) : NM unit :=
  match remote r with
  | None => sret tt
  | Some rs =>
      let! w := get_sockets in
      let revents id := match routes r !! id with Some i => readable (r_sock i) w | None => false end in
      if negb (readable rs w || existsb revents (route_ids r)) then sret tt else
      let! mh := new_header in
      run! (if readable rs w then from_remote r rs mh else sret tt) in
      each_id (to_remote r rs revents) (route_ids r)
  end.

(** The router of the thread of a channel. *)
Definition channel_router (subscriber command_sock cmd_server control_sock : ptr) : MessageRouter :=
  addRoute SOCK_CTRL_id control_sock (addRoute SOCK_CHAN_id cmd_server (addRoute SOCK_CW_id command_sock
    (setRemoteSocket subscriber MessageRouter_new))).
