(* ===== verification/RouterProps.v ===== *)
(** The router delivers: every message goes once to the socket that its header
    addresses, in order, and so from one system to the other. *)
From S2P Require Import Prelude Value Message MessageEncoding Router.
From stdpp Require Import sorting.
Open Scope Z_scope.
Local Open Scope sm_scope.

(** ** Headers *)
Lemma needs_bit h : needsReply h = Z.testbit (h_options h) 0.
Proof.
  unfold needsReply, NEED_REPLY. change 1 with (Z.ones 1) at 1. rewrite Z.land_ones by lia. rewrite Z.bit0_odd.
  change (2 ^ 1) with 2. rewrite Zmod_odd. by destruct (Z.odd _).
Qed.
(** Asking for an answer and not asking for one change that bit only. *)
Lemma needReply_spec h b : 0 <= h_options h < 2 ^ 32 ->
  needsReply (needReply b h) = b /\
  forall n, 0 < n -> Z.testbit (h_options (needReply b h)) n = Z.testbit (h_options h) n.
Proof.
  intros Hr. rewrite needs_bit. unfold needReply, NEED_REPLY. cbn [h_options with_options]. destruct b.
  - split; [by rewrite Z.lor_spec, orb_true_r |]. intros n Hn. rewrite Z.lor_spec.
    rewrite (Z.bits_above_log2 1 n) by (cbn; lia). apply orb_false_r.
  - change (u32 (Z.lxor (-1) 1)) with (Z.lxor (Z.ones 32) 1). split; [by rewrite Z.land_spec, andb_false_r |].
    intros n Hn. rewrite Z.land_spec, Z.lxor_spec, (Z.bits_above_log2 1 n) by (cbn; lia). rewrite xorb_false_r.
    destruct (decide (n < 32)).
    + rewrite Z.ones_spec_low by lia. apply andb_true_r.
    + rewrite (Z.bits_above_log2 (h_options h)); [done | lia |].
      destruct (decide (h_options h = 0)) as [-> | Hne]; [cbn; lia |]. apply Z.log2_lt_pow2; [lia |].
      apply Z.lt_le_trans with (2 ^ 32); [lia |]. apply Z.pow_le_mono_r; lia.
Qed.

(** ** One turn of the router *)
Definition dest_of (f : Frame) : Z := match f_header f with Some h => dest h | None => 0 end.
Definition addressed (h : MessageHeader) : bool := negb (dest h =? 0) || negb (source h =? 0).
Definition stamp (t : Z) (f : Frame) : Frame :=
  mkFrame (match f_header f with Some h => if addressed h then Some (with_start t h) else None | None => None end) (f_text f).
Definition sent_to (s : ptr) (l : list (ptr * Frame)) : list Frame := omap (fun p => if bool_decide (fst p = s) then Some (snd p) else None) l.
Lemma sent_to_app s l k : sent_to s (l ++ k) = sent_to s l ++ sent_to s k.
Proof. apply omap_app. Qed.

(** ** Taking turns *)
(** One message of each list, then one more of each, and so on. *)
Fixpoint rounds (n : nat) (ls : list (list Frame)) : list Frame :=
  match n with
  | O => []
  | S n' => (ls ≫= take 1) ++ rounds n' (drop 1 <$> ls)
  end.
Lemma first_round_perm (ls : list (list Frame)) : (ls ≫= take 1) ++ concat (drop 1 <$> ls) ≡ₚ concat ls.
Proof.
  induction ls as [|l ls IH]; [done |]. cbn [mbind list_bind fmap list_fmap concat].
  rewrite <- (take_drop 1 l) at 3. rewrite <- IH. solve_Permutation.
Qed.
Lemma rounds_perm n : forall ls, Forall (fun l => length l <= n)%nat ls -> rounds n ls ≡ₚ concat ls.
Proof.
  induction n as [|n IH]; intros ls Hl; cbn [rounds].
  - induction Hl as [|l ls Hl _ IHl]; [done |]. cbn. destruct l; [done | cbn in Hl; lia].
  - rewrite IH; [apply first_round_perm |]. apply Forall_fmap. eapply Forall_impl; [exact Hl |]. intros l Hl'. unfold compose. rewrite length_drop. apply Nat.le_sub_le_add_l. exact Hl'.
Qed.
Lemma first_round_sublist (ls : list (list Frame)) l : l ∈ ls -> sublist (take 1 l) (ls ≫= take 1).
Proof.
  induction ls as [|k ls IH]; [by intros ?%elem_of_nil |]. intros [-> | Hin]%elem_of_cons; cbn [mbind list_bind].
  - by apply sublist_inserts_r.
  - apply sublist_inserts_l, IH, Hin.
Qed.
Lemma rounds_sublist n : forall ls l, l ∈ ls -> (length l <= n)%nat -> sublist l (rounds n ls).
Proof.
  induction n as [|n IH]; intros ls l Hin Hl; [destruct l; [apply sublist_nil_l | cbn in Hl; lia] |]. cbn [rounds].
  rewrite <- (take_drop 1 l). apply sublist_app; [by apply first_round_sublist |].
  apply IH; [by apply list_elem_of_fmap_2 | rewrite length_drop; lia].
Qed.

Fixpoint polls (n : nat) (r : MessageRouter) : NM unit :=
  match n with
  | O => sret tt
  | S n' => run! poll r in polls n' r
  end.

Section Router.
Variables (r : MessageRouter) (rs : ptr).
(** No filters, and a socket of its own for the other system and for each route. *)
Record direct : Prop := {
  di_remote : remote r = Some rs;
  di_filters : filters r = [];
  di_plain id i : routes r !! id = Some i -> r_filters i = [];
  di_apart id i : routes r !! id = Some i -> r_sock i <> rs;
  di_own id id' i i' : routes r !! id = Some i -> routes r !! id' = Some i' -> r_sock i = r_sock i' -> id = id'
}.
Hypothesis Hd : direct.
(** What is sent for a message of the other system. *)
Definition handed (t : Z) (f : Frame) : list (ptr * Frame) :=
  match routes r !! dest_of f with
  | Some i => [(r_sock i, stamp t f)]
  | None => match default_dest r with Some s => [(s, mkFrame None (f_text f))] | None => [] end
  end.
Definition sock_of (id : Z) : list ptr := match routes r !! id with Some i => [r_sock i] | None => [] end.
Definition route_socks : list ptr := route_ids r ≫= sock_of.
Definition heads (w : Sockets) (ss : list ptr) : list Frame := ss ≫= fun s => take 1 (inbox s w).

Lemma elem_of_route_ids id : id ∈ route_ids r <-> is_Some (routes r !! id).
Proof. unfold route_ids. by rewrite merge_sort_Permutation, elem_of_elements, elem_of_dom. Qed.
Lemma NoDup_route_ids : NoDup (route_ids r).
Proof. unfold route_ids. rewrite merge_sort_Permutation. apply NoDup_elements. Qed.

(** The same world with other messages. *)
Definition popped (s : ptr) (w : Sockets) : gmap ptr (list Frame) := <[s := drop 1 (inbox s w)]> (inboxes w).
Lemma recv_run s mh w : readable s w = true -> exists f, inbox s w = f :: drop 1 (inbox s w) /\
  safeRecv s mh w = Ok (Some (f_text f, default mh (f_header f)), mkSockets (popped s w) (sent w) (last_id w) (clock w)).
Proof. unfold readable, safeRecv, popped. destruct (inbox s w) as [|f fs]; [done |]. intros _. by exists f. Qed.
Lemma send_run s t h w : start_time h <> 0 ->
  safeSend s t h w = Ok (tt, mkSockets (inboxes w) (sent w ++ [(s, mkFrame (if addressed h then Some h else None) t)]) (last_id w) (clock w)).
Proof. intros Ht. unfold safeSend. by rewrite (slift_run _ _ _ tt) by (by rewrite (proj2 (Z.eqb_neq _ _) Ht)). Qed.
Lemma stamp_text t f mh : dest mh = 0 -> source mh = 0 ->
  mkFrame (if addressed (with_start t (default mh (f_header f))) then Some (with_start t (default mh (f_header f))) else None) (f_text f) = stamp t f.
Proof. intros E1 E2. unfold stamp. destruct (f_header f) as [h|]; cbn; [done |]. unfold addressed. cbn. by rewrite E1, E2. Qed.
Lemma inbox_popped s s' w n l c : inbox s' (mkSockets (popped s w) l n c) = if bool_decide (s' = s) then drop 1 (inbox s w) else inbox s' w.
Proof.
  unfold inbox at 1, popped. cbn [inboxes]. case_bool_decide as E; [by subst; rewrite lookup_insert_eq |]. by rewrite lookup_insert_ne.
Qed.
Lemma not_ready s w : readable s w = false -> inbox s w = [].
Proof. unfold readable. by destruct (inbox s w). Qed.
Lemma from_remote_run mh w : readable rs w = true -> clock w <> 0 -> dest mh = 0 -> source mh = 0 ->
  from_remote r rs mh w = Ok (tt, mkSockets (popped rs w) (sent w ++ (take 1 (inbox rs w) ≫= handed (clock w))) (last_id w) (clock w)).
Proof.
  intros Hr Hc E1 E2. destruct (recv_run rs mh w Hr) as (f & Ef & R). unfold from_remote. rewrite (sbind_run _ _ _ _ _ R).
  set (w1 := mkSockets _ _ _ _). rewrite (sbind_run get_sockets _ w1 w1 w1) by done.
  rewrite Ef. cbn [take firstn mbind list_bind]. rewrite app_nil_r. unfold handed.
  assert (dest (default mh (f_header f)) = dest_of f) as -> by (unfold dest_of; by destruct (f_header f)).
  destruct (routes r !! dest_of f) as [i|] eqn:Ei.
  - rewrite (di_plain Hd _ _ Ei), send_run by done. subst w1. cbn [clock inboxes sent last_id]. by rewrite stamp_text.
  - destruct (default_dest r); [done |]. subst w1. by rewrite app_nil_r.
Qed.
Definition fresh_header (w : Sockets) : MessageHeader := fst (MessageHeader_default (last_id w)).
Definition counted (w : Sockets) : Sockets := mkSockets (inboxes w) (sent w) (snd (MessageHeader_default (last_id w))) (clock w).
Lemma to_remote_run revents id i w : routes r !! id = Some i -> revents id = readable (r_sock i) w -> clock w <> 0 ->
  exists w', to_remote r rs revents id w = Ok (tt, w') /\ clock w' = clock w /\
    sent w' = sent w ++ ((fun f => (rs, stamp (clock w) f)) <$> take 1 (inbox (r_sock i) w)) /\
    forall s, inbox s w' = if bool_decide (s = r_sock i) then drop 1 (inbox s w) else inbox s w.
Proof.
  intros Ei Er Hc. unfold to_remote. rewrite Er. destruct (readable (r_sock i) w) eqn:Hr.
  - rewrite Ei, (slift_run _ _ _ i) by done.
    set (w1 := counted w). set (mh := fresh_header w). rewrite (sbind_run new_header _ w mh w1) by done.
    destruct (recv_run (r_sock i) mh w1 Hr) as (f & Ef & R). rewrite (sbind_run _ _ _ _ _ R).
    set (w2 := mkSockets _ _ _ _). rewrite (sbind_run get_sockets _ w2 w2 w2) by done.
    rewrite (di_filters Hd). cbn [filter_all]. rewrite send_run by done. eexists. split; [done |]. split; [done |]. split.
    + subst w2 w1. cbn [sent clock]. rewrite stamp_text by done. change (inbox (r_sock i) w = f :: drop 1 (inbox (r_sock i) w)) in Ef.
      by rewrite Ef.
    + intros s. subst w2. cbn [inboxes]. rewrite inbox_popped. case_bool_decide; by subst.
  - exists w. apply not_ready in Hr. split; [done |]. split; [done |]. rewrite Hr. split; [by rewrite app_nil_r |].
    intros s. case_bool_decide; [subst; by rewrite Hr | done].
Qed.
Lemma heads_same w w' ss : (forall s, s ∈ ss -> inbox s w' = inbox s w) -> heads w' ss = heads w ss.
Proof.
  induction ss as [|s ss IH]; intros Hs; [done |]. unfold heads in *. cbn [mbind list_bind].
  rewrite (Hs s) by (by left). f_equal. apply IH. intros s' Hin. apply Hs. by right.
Qed.
Lemma each_run revents ids : forall w, NoDup ids -> (forall id, id ∈ ids -> exists i, routes r !! id = Some i /\ revents id = readable (r_sock i) w) ->
  clock w <> 0 -> exists w', each_id (to_remote r rs revents) ids w = Ok (tt, w') /\ clock w' = clock w /\
    sent w' = sent w ++ ((fun f => (rs, stamp (clock w) f)) <$> heads w (ids ≫= sock_of)) /\
    forall s, inbox s w' = if bool_decide (s ∈ ids ≫= sock_of) then drop 1 (inbox s w) else inbox s w.
Proof.
  induction ids as [|id ids IH]; intros w Hnd Hid Hc.
  { exists w. split; [done |]. split; [done |]. cbn. split; [by rewrite app_nil_r | done]. }
  apply NoDup_cons in Hnd as [Hni Hnd]. destruct (Hid id) as (i & Ei & Er); [by left |].
  destruct (to_remote_run revents id i w Ei Er Hc) as (w1 & R1 & C1 & S1 & B1).
  assert (Hap : forall id' i', id' ∈ ids -> routes r !! id' = Some i' -> r_sock i' <> r_sock i).
  { intros id' i' Hin Ei' E. apply Hni. by rewrite (di_own Hd _ _ _ _ Ei Ei' (eq_sym E)). }
  assert (Hs : forall s, s ∈ ids ≫= sock_of -> inbox s w1 = inbox s w).
  { intros s (id' & Hs & Hin)%list_elem_of_bind. destruct (Hid id') as (i' & Ei' & _); [by right |].
    unfold sock_of in Hs. rewrite Ei' in Hs. apply list_elem_of_singleton in Hs as ->. rewrite B1, bool_decide_false; [done |].
    by apply (Hap id'). }
  destruct (IH w1 Hnd) as (w2 & R2 & C2 & S2 & B2).
  { intros id' Hin. destruct (Hid id') as (i' & Ei' & Er'); [by right |]. exists i'. split; [done |]. rewrite Er'. unfold readable.
    rewrite B1, bool_decide_false; [done | by apply (Hap id')]. }
  { by rewrite C1. }
  assert (Hh : heads w1 (ids ≫= sock_of) = heads w (ids ≫= sock_of)).
  { apply heads_same. intros s Hin. by rewrite Hs. }
  exists w2. cbn [each_id]. rewrite (sbind_run _ _ _ _ _ R1). split; [done |]. split; [congruence |].
  assert ((id :: ids) ≫= sock_of = r_sock i :: (ids ≫= sock_of)) as -> by (cbn [mbind list_bind]; unfold sock_of at 1; by rewrite Ei).
  split.
  - rewrite S2, S1, C1, Hh, <- app_assoc. unfold heads at 2. cbn [mbind list_bind]. by rewrite fmap_app.
  - intros s. rewrite B2. case_bool_decide as Hin.
    + rewrite (Hs s Hin), bool_decide_true by (by right). done.
    + rewrite B1. repeat case_bool_decide; set_solver.
Qed.
(** One turn takes one message from each socket. *)
Definition turned (w w' : Sockets) : Prop :=
  clock w' = clock w /\
  sent w' = sent w ++ (take 1 (inbox rs w) ≫= handed (clock w)) ++ ((fun f => (rs, stamp (clock w) f)) <$> heads w route_socks) /\
  forall s, inbox s w' = if bool_decide (s = rs \/ s ∈ route_socks) then drop 1 (inbox s w) else inbox s w.
Lemma route_sock s : s ∈ route_socks <-> exists id i, routes r !! id = Some i /\ r_sock i = s.
Proof.
  unfold route_socks. rewrite list_elem_of_bind. split.
  - intros (id & Hs & Hid). unfold sock_of in Hs. destruct (routes r !! id) as [i|] eqn:Ei; [|by apply elem_of_nil in Hs].
    apply list_elem_of_singleton in Hs as ->. eauto.
  - intros (id & i & Ei & <-). exists id. unfold sock_of. rewrite Ei. split; [by left | apply elem_of_route_ids; by eexists].
Qed.
Lemma rs_apart s : s ∈ route_socks -> s <> rs.
Proof. intros (id & i & Ei & <-)%route_sock. by apply (di_apart Hd id). Qed.
Lemma heads_empty w ss : (forall s, s ∈ ss -> inbox s w = []) -> heads w ss = [].
Proof.
  induction ss as [|s ss IH]; intros Hs; [done |]. unfold heads in *. cbn [mbind list_bind].
  rewrite (Hs s) by (by left). apply IH. intros s' Hin. apply Hs. by right.
Qed.
Lemma poll_run w : clock w <> 0 -> exists w', poll r w = Ok (tt, w') /\ turned w w'.
Proof.
  intros Hc. unfold poll. rewrite (di_remote Hd), (sbind_run get_sockets _ w w w) by done.
  set (revents := fun id => match routes r !! id with Some i => readable (r_sock i) w | None => false end).
  assert (Hrev : forall id i, routes r !! id = Some i -> revents id = readable (r_sock i) w) by (intros id i Ei; unfold revents; by rewrite Ei).
  destruct (readable rs w || existsb revents (route_ids r)) eqn:Hany; cbn [negb].
  - rewrite (sbind_run new_header _ w (fresh_header w) (counted w)) by done.
    set (w1 := if readable rs w then mkSockets (popped rs (counted w)) (sent w ++ (take 1 (inbox rs w) ≫= handed (clock w))) (last_id (counted w)) (clock w) else counted w).
    rewrite (sbind_run _ _ _ tt w1).
    2: { subst w1. destruct (readable rs w) eqn:Hr; [|done]. by apply (from_remote_run (fresh_header w) (counted w)). }
    assert (Hb : forall s, inbox s w1 = if bool_decide (s = rs) then drop 1 (inbox s w) else inbox s w).
    { intros s. subst w1. destruct (readable rs w) eqn:Hr.
      - rewrite inbox_popped. case_bool_decide; by subst.
      - case_bool_decide; [subst; change (inbox rs (counted w)) with (inbox rs w); by rewrite (not_ready _ _ Hr) | done]. }
    assert (Hs1 : sent w1 = sent w ++ (take 1 (inbox rs w) ≫= handed (clock w))).
    { subst w1. destruct (readable rs w) eqn:Hr; [done |]. rewrite (not_ready _ _ Hr). cbn. by rewrite app_nil_r. }
    assert (Hc1 : clock w1 = clock w) by (subst w1; by destruct (readable rs w)).
    destruct (each_run revents (route_ids r) w1 NoDup_route_ids) as (w2 & R2 & C2 & S2 & B2).
    { intros id [i Ei]%elem_of_route_ids. exists i. split; [done |]. rewrite (Hrev _ _ Ei). unfold readable.
      rewrite Hb, bool_decide_false; [done | by apply (di_apart Hd id)]. }
    { by rewrite Hc1. }
    exists w2. split; [done |]. split; [congruence |]. split.
    + rewrite S2, Hs1, Hc1, <- app_assoc. do 3 f_equal. apply heads_same. intros s Hin.
      rewrite Hb, bool_decide_false; [done | by apply rs_apart].
    + intros s. rewrite B2. fold route_socks. rewrite Hb. pose proof (rs_apart s) as Ha. repeat case_bool_decide; tauto.
  - apply orb_false_iff in Hany as [Hr He]. exists w. split; [done |].
    assert (Hem : forall s, s = rs \/ s ∈ route_socks -> inbox s w = []).
    { intros s [-> | (id & i & Ei & <-)%route_sock]; [by apply not_ready |]. apply not_ready.
      rewrite <- (Hrev _ _ Ei). destruct (revents id) eqn:E; [|done]. rewrite <- He. symmetry.
      apply List.existsb_exists. exists id. split; [|done]. apply list_elem_of_In, elem_of_route_ids. by eexists. }
    split; [done |]. split.
    + rewrite (Hem rs) by (by left). rewrite heads_empty by (intros; apply Hem; by right). cbn. by rewrite app_nil_r.
    + intros s. case_bool_decide as Hs; [|done]. by rewrite (Hem s Hs).
Qed.
Lemma heads_bind w ss : heads w ss = ((fun s => inbox s w) <$> ss) ≫= take 1.
Proof. induction ss as [|s ss IH]; [done |]. unfold heads in *. cbn [mbind list_bind fmap list_fmap]. by rewrite IH. Qed.
Lemma sent_to_same s l : sent_to s ((fun f => (s, f)) <$> l) = l.
Proof. induction l as [|f l IH]; [done |]. unfold sent_to in *. cbn. rewrite bool_decide_true by done. by rewrite IH. Qed.
Lemma sent_to_other s s' l : s <> s' -> sent_to s ((fun f => (s', f)) <$> l) = [].
Proof. intros Hne. induction l as [|f l IH]; [done |]. unfold sent_to in *. cbn. by rewrite bool_decide_false by done. Qed.
Lemma sent_to_bind s (l : list Frame) g : sent_to s (l ≫= g) = l ≫= (fun f => sent_to s (g f)).
Proof. induction l as [|f l IH]; [done |]. cbn [mbind list_bind]. by rewrite sent_to_app, IH. Qed.

(** What has happened after some turns. *)
Record delivered (n : nat) (w w' : Sockets) : Prop := {
  de_clock : clock w' = clock w;
  de_boxes s : inbox s w' = if bool_decide (s = rs \/ s ∈ route_socks) then drop n (inbox s w) else inbox s w;
  de_in s : s <> rs -> sent_to s (sent w') = sent_to s (sent w) ++ (take n (inbox rs w) ≫= fun f => sent_to s (handed (clock w) f));
  de_out : default_dest r <> Some rs ->
    sent_to rs (sent w') = sent_to rs (sent w) ++ (stamp (clock w) <$> rounds n ((fun s => inbox s w) <$> route_socks))
}.
Lemma handed_elsewhere t f : default_dest r <> Some rs -> sent_to rs (handed t f) = [].
Proof.
  intros Hdd. unfold handed, sent_to. destruct (routes r !! dest_of f) as [i|] eqn:Ei; cbn.
  - by rewrite bool_decide_false by (by apply (di_apart Hd (dest_of f))).
  - destruct (default_dest r); cbn; [|done]. rewrite bool_decide_false; [done | congruence].
Qed.
Lemma bind_nil {A B} (l : list A) (g : A -> list B) : (forall a, g a = []) -> l ≫= g = [].
Proof. intros Hg. induction l as [|a l IH]; [done |]. cbn [mbind list_bind]. by rewrite Hg. Qed.
Lemma take_S_1 {A} n (l : list A) : take (S n) l = take 1 l ++ take n (drop 1 l).
Proof. destruct l; cbn; [by rewrite take_nil | by rewrite drop_0]. Qed.
Lemma polls_run n : forall w, clock w <> 0 -> exists w', polls n r w = Ok (tt, w') /\ delivered n w w'.
Proof.
  induction n as [|n IH]; intros w Hc.
  { exists w. split; [done |]. split; [done | | |].
    - intros s. by case_bool_decide.
    - intros s _. by rewrite app_nil_r.
    - intros _. by rewrite app_nil_r. }
  destruct (poll_run w Hc) as (w1 & R1 & C1 & S1 & B1). destruct (IH w1) as (w2 & R2 & [C2 B2 I2 O2]); [by rewrite C1 |].
  exists w2. cbn [polls]. rewrite (sbind_run _ _ _ _ _ R1). split; [done |].
  assert (Hrs : inbox rs w1 = drop 1 (inbox rs w)) by (rewrite B1, bool_decide_true; tauto).
  split.
  - congruence.
  - intros s. rewrite B2. case_bool_decide as Hs; [rewrite B1, bool_decide_true, drop_drop by done; by f_equal; lia |].
    rewrite B1. by rewrite bool_decide_false.
  - intros s Hs. rewrite (I2 s Hs), S1, Hrs, C1, !sent_to_app, sent_to_bind, <- !app_assoc. f_equal.
    replace (sent_to s ((fun f => (rs, stamp (clock w) f)) <$> _)) with (@nil Frame).
    2: { rewrite (list_fmap_compose (stamp (clock w)) (fun f => (rs, f))). by rewrite sent_to_other. }
    by rewrite (take_S_1 n (inbox rs w)), bind_app.
  - intros Hdd. rewrite (O2 Hdd), S1, C1, !sent_to_app, sent_to_bind, <- !app_assoc. f_equal.
    rewrite bind_nil by (intros f; by apply handed_elsewhere). cbn [app].
    rewrite (list_fmap_compose (stamp (clock w)) (fun f => (rs, f))), sent_to_same. cbn [rounds]. rewrite fmap_app. f_equal.
    + by rewrite heads_bind.
    + do 2 f_equal. rewrite <- list_fmap_compose. apply list_fmap_ext. intros k s Hs. cbn. rewrite B1, bool_decide_true; [done |].
      right. by apply list_elem_of_lookup_2 in Hs.
Qed.
End Router.

(** ** From one system to the other *)
Lemma stamp_stamp t t' f : stamp t (stamp t' f) = stamp t f.
Proof. unfold stamp. destruct f as [[h|] x]; cbn; [|done]. destruct (addressed h) eqn:E; [|done]. change (addressed (with_start t' h)) with (addressed h). by rewrite E. Qed.
Lemma dest_stamp t f : dest_of (stamp t f) = dest_of f.
Proof.
  unfold dest_of, stamp. destruct f as [[h|] x]; cbn; [|done]. destruct (addressed h) eqn:E; [done |].
  unfold addressed in E. apply orb_false_iff in E as [E _]. apply negb_false_iff, Z.eqb_eq in E. done.
Qed.
Definition for_dest (d : Z) (l : list Frame) : list Frame := filter (fun f => dest_of f = d) l.
#[export] Instance for_dest_perm d : Proper (Permutation ==> Permutation) (for_dest d).
Proof. intros l k Hlk. unfold for_dest. by rewrite Hlk. Qed.
Lemma stamped_sublist d t l k : sublist l k -> sublist (stamp t <$> for_dest d l) (stamp t <$> for_dest d k).
Proof.
  induction 1 as [|f l k _ IH|f l k _ IH]; [done | |]; unfold for_dest in *; rewrite !filter_cons; case_decide; try done.
  - by constructor.
  - by constructor.
Qed.
Lemma for_dest_stamp d t l : for_dest d (stamp t <$> l) = stamp t <$> for_dest d l.
Proof.
  unfold for_dest. induction l as [|f l IH]; [done |]. cbn [fmap list_fmap]. rewrite !filter_cons, dest_stamp, IH. by case_decide.
Qed.
Lemma handed_dest r rs t d i l : direct r rs -> routes r !! d = Some i -> default_dest r <> Some (r_sock i) ->
  (l ≫= fun f => sent_to (r_sock i) (handed r t f)) = stamp t <$> for_dest d l.
Proof.
  intros Hd Ei Hdd. unfold for_dest. induction l as [|f l IH]; [done |]. cbn [mbind list_bind]. rewrite IH, filter_cons.
  unfold handed, sent_to. case_decide as E.
  - rewrite E, Ei. cbn. by rewrite bool_decide_true.
  - destruct (routes r !! dest_of f) as [j|] eqn:Ej; cbn.
    + rewrite bool_decide_false; [done |]. intros Es. apply E. by apply (di_own _ _ Hd _ _ _ _ Ej Ei).
    + destruct (default_dest r); cbn; [|done]. rewrite bool_decide_false; [done | congruence].
Qed.
(** Messages that arrive on a socket. *)
Definition arrive (s : ptr) (fs : list Frame) (w : Sockets) : Sockets :=
  mkSockets (<[s := inbox s w ++ fs]> (inboxes w)) (sent w) (last_id w) (clock w).
Definition waiting (r : MessageRouter) (w : Sockets) : list (list Frame) := (fun s => inbox s w) <$> route_socks r.

(** C20: two systems whose routers have no filters and whose remote sockets are connected:
    after enough turns nothing waits, and every message that a thread of the first system
    had sent with the address of a route of the second was handed to that route, once,
    unchanged but for its time; the messages of one sender stay in order. *)
Theorem messages_cross rA sA rB sB wA wB n m :
  direct rA sA -> direct rB sB -> default_dest rA <> Some sA -> clock wA <> 0 -> clock wB <> 0 ->
  Forall (fun l => length l <= n)%nat (waiting rA wA) -> (length (concat (waiting rA wA)) <= m)%nat ->
  sent_to sA (sent wA) = [] -> inbox sB wB = [] ->
  exists wA' wB', polls n rA wA = Ok (tt, wA') /\ concat (waiting rA wA') = [] /\
    polls m rB (arrive sB (sent_to sA (sent wA')) wB) = Ok (tt, wB') /\ inbox sB wB' = [] /\
    forall d i, routes rB !! d = Some i -> default_dest rB <> Some (r_sock i) -> exists new,
      sent_to (r_sock i) (sent wB') = sent_to (r_sock i) (sent wB) ++ new /\
      new ≡ₚ (stamp (clock wB) <$> for_dest d (concat (waiting rA wA))) /\
      forall l, l ∈ waiting rA wA -> sublist (stamp (clock wB) <$> for_dest d l) new.
Proof.
  intros HA HB Hdd HcA HcB Hn Hm HsA HsB.
  destruct (polls_run rA sA HA n wA HcA) as (wA' & RA & [_ BA _ OA]). specialize (OA Hdd). rewrite HsA in OA. cbn [app] in OA.
  fold (waiting rA wA) in OA. set (X := rounds n (waiting rA wA)) in *.
  set (wB1 := arrive sB (sent_to sA (sent wA')) wB).
  destruct (polls_run rB sB HB m wB1 HcB) as (wB' & RB & [CB BB IB _]). exists wA', wB'. split; [done |].
  assert (HX : X ≡ₚ concat (waiting rA wA)) by (by apply rounds_perm).
  assert (Hin : inbox sB wB1 = stamp (clock wA) <$> X) by (unfold wB1, inbox, arrive; cbn; rewrite lookup_insert_eq; cbn; by rewrite HsB, OA).
  assert (Hlen : (length (inbox sB wB1) <= m)%nat) by (rewrite Hin, length_fmap, HX; done).
  split; [|split; [done | split]].
  - apply concat_nil_Forall, Forall_fmap, Forall_forall. intros s Hs. cbn. rewrite BA, bool_decide_true by (by right).
    apply drop_ge. rewrite Forall_forall in Hn. apply Hn. by apply (list_elem_of_fmap_2 (fun s => inbox s wA)).
  - rewrite BB, bool_decide_true by (by left). by apply drop_ge.
  - intros d i Ei Hdi. exists (stamp (clock wB) <$> for_dest d X). split; [|split].
    + rewrite (IB (r_sock i)) by (by apply (di_apart _ _ HB d)). f_equal. rewrite take_ge by done.
      rewrite (handed_dest rB sB _ d i) by done. rewrite Hin, for_dest_stamp, <- list_fmap_compose.
      apply list_fmap_ext. intros k f _. cbn. apply stamp_stamp.
    + by rewrite HX.
    + intros l Hl. apply stamped_sublist, rounds_sublist; [done |]. rewrite Forall_forall in Hn. by apply Hn.
Qed.

(** ** The router of a channel *)
Lemma channel_router_direct subscriber command_sock cmd_server control_sock :
  NoDup [subscriber; command_sock; cmd_server; control_sock] ->
  direct (channel_router subscriber command_sock cmd_server control_sock) subscriber.
Proof.
  intros Hnd. rewrite !NoDup_cons, !elem_of_cons, !elem_of_nil in Hnd.
  assert (Hr : forall id i, routes (channel_router subscriber command_sock cmd_server control_sock) !! id = Some i ->
    r_filters i = [] /\ ((id = 1 /\ r_sock i = command_sock) \/ (id = 2 /\ r_sock i = cmd_server) \/ (id = 3 /\ r_sock i = control_sock))).
  { intros id i Hi. change (routes _) with (<[3 := mkRoute control_sock []]> (<[2 := mkRoute cmd_server []]>
      (<[1 := mkRoute command_sock []]> (∅ : gmap Z RouteInfo)))) in Hi. apply lookup_insert_Some in Hi as [[<- <-] | [_ Hi]]; [split; [done | tauto] |].
    apply lookup_insert_Some in Hi as [[<- <-] | [_ Hi]]; [split; [done | tauto] |].
    apply lookup_insert_Some in Hi as [[<- <-] | [_ Hi]]; [split; [done | tauto] |]. by rewrite lookup_empty in Hi. }
  split.
  - done.
  - done.
  - intros id i Hi. apply (Hr id i Hi).
  - intros id i [_ Hi]%Hr E. naive_solver.
  - intros id id' i i' [_ Hi]%Hr [_ Hi']%Hr E. naive_solver.
Qed.
Definition sample_message (dst src : Z) (b : bool) (t : string) : Frame := mkFrame (Some (fst (MessageHeader_new 0 dst src b))) (chars t).
Definition sender : Sockets := mkSockets (list_to_map [(2%positive, []); (3%positive,
  [sample_message 1 2 false "state of a"; sample_message 1 2 false "state of b"; sample_message 3 3 true "done"])]) [] 0 1000.
Definition receiver_of : Sockets := mkSockets ∅ [] 0 2000.
Definition here : MessageRouter := channel_router 1%positive 2%positive 3%positive 4%positive.
Definition there : MessageRouter := channel_router 5%positive 6%positive 7%positive 8%positive.
Lemma messages_cross_w : exists wA wB,
  polls 3 here sender = Ok (tt, wA) /\
  polls 3 there (arrive 5%positive (sent_to 1%positive (sent wA)) receiver_of) = Ok (tt, wB) /\
  map f_text (sent_to 8%positive (sent wB)) = [chars "done"] /\ length (sent_to 6%positive (sent wB)) = 2%nat.
Proof.
  destruct (messages_cross here 1%positive there 5%positive sender receiver_of 3 3)
    as (wA & wB & RA & _ & RB & _ & Hd).
  - apply channel_router_direct, (bool_decide_eq_true_1 _). reflexivity.
  - apply channel_router_direct, (bool_decide_eq_true_1 _). reflexivity.
  - discriminate.
  - discriminate.
  - discriminate.
  - vm_compute. repeat constructor.
  - vm_compute. repeat constructor.
  - reflexivity.
  - reflexivity.
  - destruct (Hd 3 (mkRoute 8%positive []) eq_refl ltac:(discriminate)) as (ctl & Ec & Pc & _).
    destruct (Hd 1 (mkRoute 6%positive []) eq_refl ltac:(discriminate)) as (cw & Ew & Pw & _).
    cbn [r_sock] in Ec, Ew. change (sent receiver_of) with (@nil (ptr * Frame)) in Ec, Ew. cbn [sent_to omap app] in Ec, Ew.
    exists wA, wB. split; [exact RA |]. split; [exact RB |]. split.
    + rewrite Ec. vm_compute in Pc. apply Permutation_singleton_r in Pc. rewrite Pc. reflexivity.
    + rewrite Ew, Pw. reflexivity.
Defined.
