(* ===== verification/Subscription.v ===== *)
(** The connection of a channel to the system that serves it (SubscriptionManager of
    ConnectionManager.cpp): connecting, asking for the channel over a request socket,
    reading the answer, connecting to the port it names, and starting again when a
    connection is lost.

    The sockets belong to zmq: a request socket must read the answer to a request before
    it can send the next one, and a message that was not read waits. What the monitors of
    the two connections report, and whether [connect] succeeds, is an argument of every
    call, and the clock stands still during a call. *)
From S2P Require Import Prelude Cnum Tokeniser Value SymbolTable Message Json MessageEncoding Channels.
Open Scope Z_scope.
Local Open Scope sm_scope.

Inductive ProtocolType := eCLOCKWORK | eRAW | eZMQ | eCHANNEL.
Inductive SubStatus := ss_pub | ss_sub | ss_init | ss_ready.
#[export] Instance ProtocolType_eq_dec : EqDecision ProtocolType.
Proof. solve_decision. Defined.
#[export] Instance SubStatus_eq_dec : EqDecision SubStatus.
Proof. solve_decision. Defined.
Record Monitors := mkMonitors {
  setup_down : bool;
  subs_down : bool;
  setup_active : bool;
  subs_active : bool;
  connects : bool
}.
(** [asked] and [connected] record the requests and the addresses of connections. *)
Record SubscriptionManager := mkSubscription {
  setup_status : SetupStatus;
  sub_status : SubStatus;
  protocol : ProtocolType;
  subscriber_host : string;
  subscriber_port : Z;
  setup_port : Z;
  sm_channel_name : string;
  current_channel : string;
  channel_url : text;
  sm_authority : Z;
  state_start : Z;
  sent_request : bool;
  send_time : Z;
  awaiting : bool;
  answers : list text;
  asked : list text;
  connected : list text
}.
Abbreviation BM := (SM SubscriptionManager).
Definition get_sub : BM SubscriptionManager := fun s => Ok (s, s).
Definition set_status_at (st : SetupStatus) (t : Z) : BM unit := fun s =>
  Ok (tt, mkSubscription st (sub_status s) (protocol s) (subscriber_host s) (subscriber_port s) (setup_port s)
    (sm_channel_name s) (current_channel s) (channel_url s) (sm_authority s) t (sent_request s) (send_time s)
    (awaiting s) (answers s) (asked s) (connected s)).
Definition set_started_at (t : Z) : BM unit := fun s => set_status_at (setup_status s) t s.
Definition set_sub_status (st : SubStatus) : BM unit := fun s =>
  Ok (tt, mkSubscription (setup_status s) st (protocol s) (subscriber_host s) (subscriber_port s) (setup_port s)
    (sm_channel_name s) (current_channel s) (channel_url s) (sm_authority s) (state_start s) (sent_request s) (send_time s)
    (awaiting s) (answers s) (asked s) (connected s)).
Definition set_current (n : string) : BM unit := fun s =>
  Ok (tt, mkSubscription (setup_status s) (sub_status s) (protocol s) (subscriber_host s) (subscriber_port s) (setup_port s)
    (sm_channel_name s) n (channel_url s) (sm_authority s) (state_start s) (sent_request s) (send_time s)
    (awaiting s) (answers s) (asked s) (connected s)).
Definition set_url (u : text) : BM unit := fun s =>
  Ok (tt, mkSubscription (setup_status s) (sub_status s) (protocol s) (subscriber_host s) (subscriber_port s) (setup_port s)
    (sm_channel_name s) (current_channel s) u (sm_authority s) (state_start s) (sent_request s) (send_time s)
    (awaiting s) (answers s) (asked s) (connected s)).
Definition set_port (p : Z) : BM unit := fun s =>
  Ok (tt, mkSubscription (setup_status s) (sub_status s) (protocol s) (subscriber_host s) p (setup_port s)
    (sm_channel_name s) (current_channel s) (channel_url s) (sm_authority s) (state_start s) (sent_request s) (send_time s)
    (awaiting s) (answers s) (asked s) (connected s)).
Definition set_key (a : Z) : BM unit := fun s =>
  Ok (tt, mkSubscription (setup_status s) (sub_status s) (protocol s) (subscriber_host s) (subscriber_port s) (setup_port s)
    (sm_channel_name s) (current_channel s) (channel_url s) a (state_start s) (sent_request s) (send_time s)
    (awaiting s) (answers s) (asked s) (connected s)).
Definition connect_to (u : text) : BM unit := fun s =>
  Ok (tt, mkSubscription (setup_status s) (sub_status s) (protocol s) (subscriber_host s) (subscriber_port s) (setup_port s)
    (sm_channel_name s) (current_channel s) (channel_url s) (sm_authority s) (state_start s) (sent_request s) (send_time s)
    (awaiting s) (answers s) (asked s) (connected s ++ [u])).
(** A request goes out; an answer is read. *)
Definition send_request (m : text) (t : Z) : BM unit := fun s =>
  Ok (tt, mkSubscription (setup_status s) (sub_status s) (protocol s) (subscriber_host s) (subscriber_port s) (setup_port s)
    (sm_channel_name s) (current_channel s) (channel_url s) (sm_authority s) (state_start s) true t
    true (answers s) (asked s ++ [m]) (connected s)).
Definition read_answer (rest : list text) : BM unit := fun s =>
  Ok (tt, mkSubscription (setup_status s) (sub_status s) (protocol s) (subscriber_host s) (subscriber_port s) (setup_port s)
    (sm_channel_name s) (current_channel s) (channel_url s) (sm_authority s) (state_start s) (sent_request s) (send_time s)
    false rest (asked s) (connected s)).

Definition is_client (s : SubscriptionManager) : bool := negb (bool_decide (setup_status s = e_not_used)).
(** The constructor; a server has the host [*] and binds the socket of its channel. *)
Definition SubscriptionManager_new (chname : string) (proto : ProtocolType) (remote_host : string)
    (remote_port setup_port_num now : Z) : res SubscriptionManager :=
  let s := mkSubscription e_startup ss_init proto remote_host remote_port setup_port_num chname "" [] 0 now false 0 false [] [] [] in
  if bool_decide (remote_host = "*") then
    _ok ← assert (bool_decide (proto = eCHANNEL));
    Ok (mkSubscription e_not_used ss_init proto remote_host remote_port setup_port_num chname "" [] 0 now false 0 false [] [] [])
  else Ok s.

Section Connections.
Context `{DynEnv} `{!Libm}.
Variables (net : Monitors) (now : Z).

Definition setSetupStatus (st : SetupStatus) : BM unit :=
  let! s := get_sub in
  let? _ok := assert (is_client s) in
  if bool_decide (setup_status s = st) then sret tt else set_status_at st now.

Definition channel_request_timeout : Z := 3000000.
(** The text of the request; the symbol's token is not part of it. *)
Definition channel_request (name : string) : res text :=
  encodeCommand4 "CHANNEL" (mkString t_symbol name 0) Null Null Null.
(** A late message is copied into a buffer of one byte. *)
Definition unexpected (t : text) : res unit := match t with [] => Ok tt | _ => Undef end.
(** Asking for the channel: reading fails with an exception, which is caught, unless the
    socket waits for an answer; sending fails while it does. The branch for a send that times
    out is left out: the socket has no limit for sending. *)
Definition ask_channel : BM unit :=
  let! s := get_sub in
  if negb (sent_request s) || (channel_request_timeout <? u64 (send_time s - now)) then
    let send :=
      let! s := get_sub in
      let? m := channel_request (sm_channel_name s) in
      if awaiting s then
        match answers s with [] => sret tt | _ :: rest => read_answer rest end
      else
        run! send_request m now in setSetupStatus e_waiting_setup in
    if awaiting s then
      match answers s with
      | [] => if sent_request s then sret tt else send
      | t :: rest => run! read_answer rest in let? _b := unexpected t in send
      end
    else send
  else sret tt.
(** The port and the key are read from the numbers of the answer as they are stored. *)
Definition read_port (item : option cJSON) : BM unit :=
  match item with
  | Some i =>
      if bool_decide (jtype i = cJSON_Number) then
        match valueNumber i with
        | cJSON_Number_int_t z => set_port (to_s32 z)
        | cJSON_Number_double_t d =>
            let? z := rd (ftrunc d) in
            if in_int z then set_port z else fun _ => Undef
        end
      else sret tt
  | None => sret tt
  end.
Definition read_name (item : option cJSON) : BM unit :=
  match item with
  | Some i =>
      if bool_decide (jtype i = cJSON_String) then let? t := rd (valuestring i) in set_current (str t) else sret tt
  | None => sret tt
  end.
Definition read_key (item : option cJSON) : BM unit :=
  match item with
  | Some i =>
      if bool_decide (jtype i = cJSON_Number) then
        match valueNumber i with
        | cJSON_Number_int_t z => set_key (u64 z)
        | cJSON_Number_double_t _ => fun _ => Undef
        end
      else sret tt
  | None => sret tt
  end.
Definition has_nul (t : text) : bool := existsb (fun c => bool_decide (code c = 0)) t.
(** The answer, in a buffer of 1000 bytes; [true] if the rest of [requestChannel] is to
    be done. *)
Definition read_channel (t : text) : BM bool :=
  let short := Z.of_nat (length t) <? 1000 in
  if negb short && negb (has_nul (take 1000 t)) then fun _ => Undef else
  run! setSetupStatus e_settingup_subscriber in
  let? chan := cJSON_Parse (c_str (if short then t else take 999 t)) in
  match chan with
  | None => run! setSetupStatus e_error in sret false
  | Some chan =>
      let? error := cJSON_GetObjectItem (Some chan) (chars "error") in
      match error with
      | Some _ => run! setSetupStatus e_error in sret false
      | None =>
          if short then
            let? port_item := cJSON_GetObjectItem (Some chan) (chars "port") in
            run! read_port port_item in
            let? chan_name := cJSON_GetObjectItem (Some chan) (chars "name") in
            run! read_name chan_name in
            let? chan_key := cJSON_GetObjectItem (Some chan) (chars "authority") in
            run! read_key chan_key in sret true
          else sret true
      end
  end.
Definition requestChannel : BM bool :=
  let! s := get_sub in
  let? _ok := assert (is_client s) in
  if (bool_decide (setup_status s = e_waiting_connect) || bool_decide (setup_status s = e_connected)) && negb (setup_down net) then
    run! ask_channel in sret false
  else
    let! go := (if bool_decide (setup_status s = e_waiting_setup) && negb (setup_down net) then
                  match awaiting s, answers s with
                  | true, [] :: rest => run! read_answer rest in sret false
                  | true, t :: rest => run! read_answer rest in read_channel t
                  | _, _ => sret false
                  end
                else sret true) in
    if go : bool then let! s := get_sub in sret (negb (bool_decide (current_channel s = "")))
    else sret false.

Definition url_of (host : string) (port : Z) : text :=
  snprintf_buf 100 (chars "tcp://" ++ chars host ++ chars ":" ++ print_long (to_s32 port)).
(** [false] if the request socket cannot be connected. *)
Definition start_connection : BM bool :=
  let! s := get_sub in
  if negb (setup_active net) then sret false else
  run! set_current "" in
  if negb (connects net) then sret false else
  run! connect_to (url_of (subscriber_host s) (setup_port s)) in
  run! setSetupStatus e_waiting_connect in sret true.
(** The process ends when the channel has moved. *)
Definition setupConnections : BM bool :=
  let! s := get_sub in
  let! started := (if bool_decide (setup_status s = e_startup) then start_connection else sret true) in
  if negb started then sret false else
  let! got := requestChannel in
  if negb got then sret false else
  let! s := get_sub in
  let url := url_of (subscriber_host s) (subscriber_port s) in
  if negb (subs_down net) && negb (bool_decide (url = channel_url s)) then fun _ => Abort else
  run! set_url url in
  if bool_decide (sub_status s = ss_init) && subs_down net then
    if negb (subs_active net) then sret false else
    run! connect_to url in
    run! set_sub_status (if bool_decide (protocol s = eCLOCKWORK) then ss_sub else ss_ready) in sret true
  else sret true.

(** How long the manager stays in a state while a connection is down; 0 is for ever. *)
Definition state_timeout (st : SetupStatus) : Z :=
  match st with
  | e_disconnected | e_done | e_not_used | e_connected => 0
  | e_waiting_connect => 60000000
  | e_settingup_subscriber | e_startup | e_waiting_setup | e_waiting_subscriber | e_error => 10000000
  end.
Definition check_timeout : BM unit :=
  let! s := get_sub in
  let limit := state_timeout (setup_status s) in
  if negb (limit =? 0) && (bool_decide (protocol s = eCLOCKWORK) || bool_decide (protocol s = eCHANNEL)) &&
     (limit <? u64 (now - state_start s)) then
    if bool_decide (setup_status s = e_error) then setSetupStatus (if setup_down net then e_startup else e_connected)
    else setSetupStatus e_startup
  else sret tt.
Definition lost_setup (st : SetupStatus) : bool :=
  match st with e_error | e_connected | e_startup | e_waiting_connect => false | _ => true end.
Definition checkConnections : BM bool :=
  let! s := get_sub in
  if negb (is_client s) then sret (negb (subs_down net)) else
  if bool_decide (setup_status s = e_startup) || bool_decide (setup_status s = e_connected) then
    let! _r := setupConnections in sret false
  else
  run! (if state_start s =? 0 then set_started_at now else sret tt) in
  if setup_down net && lost_setup (setup_status s) then
    run! setSetupStatus e_waiting_connect in sret false
  else
  run! (if setup_down net || subs_down net then check_timeout else sret tt) in
  if setup_down net then sret false else
  if subs_down net then let! _r := setupConnections in sret false else
  run! setSetupStatus e_done in sret true.
End Connections.

(** The answer of the server to the request (IODCommandChannel). *)
Definition channel_answer (port : Z) (name : string) (authority : Z) : res text :=
  let j := cJSON_AddItemToObject cJSON_CreateObject (chars "port") (cJSON_CreateLong port) in
  let j := cJSON_AddItemToObject j (chars "name") (cJSON_CreateString (chars name)) in
  cJSON_Print (cJSON_AddItemToObject j (chars "authority") (cJSON_CreateLong (to_s64 authority))).
