(* ===== verification/SubscriptionProps.v ===== *)
(** How a client gets its channel: the exchange with the server completes, and a request
    that is never answered is never repeated. *)
From S2P Require Import Prelude Cnum Tokeniser Value SymbolTable Message Json JsonProps MessageEncoding MessageEncodingProps Channels Subscription.
Open Scope Z_scope.
Local Open Scope sm_scope.

(** ** The answer of the server *)
Lemma no_nul_app l k : no_nul l -> no_nul k -> no_nul (l ++ k).
Proof. apply Forall_app_2. Qed.
Lemma no_nul_text s : no_nul (string_text s).
Proof.
  unfold string_text. constructor; [done |]. apply no_nul_app; [|repeat constructor; done].
  induction (c_str_no_nul s) as [|c l Hc _ IH]; cbn [map concat]; [constructor |]. apply no_nul_app; [|done].
  unfold escape. repeat case_match; repeat constructor; try done.
Qed.
Lemma no_nul_long z : no_nul (print_long z).
Proof. rewrite <- (c_str_print_long z). apply c_str_no_nul. Qed.
Lemma ok_no_nul (l t : text) : no_nul l -> Ok l = Ok t -> no_nul t.
Proof. intros Hl [= <-]. done. Qed.
Definition answer_item (port : Z) (name : string) (authority : Z) : cJSON :=
  set_child [set_name (chars "port") (cJSON_CreateLong port); set_name (chars "name") (set_text (chars name) cJSON_New_Item);
    set_name (chars "authority") (cJSON_CreateLong authority)] cJSON_CreateObject.
(** The condition of the branch that is taken. *)
Ltac taken v := match goal with |- (if ?b then _ else _) _ = _ => replace b with v by reflexivity; cbv iota end.
Section Answers.
Context `{DynEnv} `{!Libm}.
Lemma answer_parsed port name authority : plain name -> 0 <= port <= 65535 -> 0 <= authority <= 2 ^ 53 ->
  exists t, channel_answer port name authority = Ok t /\ c_str t = t /\ cJSON_Parse t = Ok (Some (answer_item port name authority)).
Proof.
  intros Hn Hp Ha. unfold channel_answer. rewrite to_s64_small by (unfold LONG_MIN, LONG_MAX; lia). set (j := cJSON_AddItemToObject _ _ _).
  assert (Hj : reread_item j = Ok (answer_item port name authority)).
  { subst j. unfold cJSON_AddItemToObject, cJSON_AddItemToArray. cbn -[chars visible c_str reread].
    rewrite !reread_int by lia. cbn -[chars visible c_str]. rewrite !plain_c_str by (done || solve_chars). rewrite !plain_visible by (done || solve_chars). reflexivity. }
  destruct (parse_print j _ true Hj) as (t & Et & Hpt). exists t. split; [done |]. split; [|done]. apply c_str_id.
  revert Et. subst j. unfold cJSON_AddItemToObject, cJSON_AddItemToArray. cbn -[chars c_str print_string_ptr print_object print_number].
  unfold print_string. rewrite !print_string_ok. cbn -[chars c_str print_string_ptr print_object print_number string_text].
  rewrite print_string_ok. cbn -[chars c_str print_object print_number string_text].
  rewrite print_object_ok by lia. apply ok_no_nul.
  rewrite !(print_number_int _ port), !(print_number_int _ authority) by (done || (unfold LONG_MIN, LONG_MAX; lia)).
  cbn [print_members]. unfold print_member. cbn [fst snd repeat Nat.sub].
  repeat first [apply no_nul_app | apply no_nul_text | apply no_nul_long | (repeat constructor; done)].
Qed.

(** ** The calls of an exchange *)
(** The states a client passes. *)
Variables (host name : string) (rport sport : Z).
Definition fresh (t0 : Z) : SubscriptionManager :=
  mkSubscription e_startup ss_init eCHANNEL host rport sport name "" [] 0 t0 false 0 false [] [] [].
Definition connecting (t1 : Z) : SubscriptionManager :=
  mkSubscription e_waiting_connect ss_init eCHANNEL host rport sport name "" [] 0 t1 false 0 false [] [] [url_of host sport].
Definition asking (t2 : Z) (m : text) (ans : list text) : SubscriptionManager :=
  mkSubscription e_waiting_setup ss_init eCHANNEL host rport sport name "" [] 0 t2 true t2 true ans [m] [url_of host sport].
Definition subscribed (t2 t3 port authority : Z) (n : string) (m : text) : SubscriptionManager :=
  mkSubscription e_settingup_subscriber ss_ready eCHANNEL host port sport name n (url_of host port) authority t3 true t2 false [] [m]
    [url_of host sport; url_of host port].
Definition finished (t2 t4 port authority : Z) (n : string) (m : text) : SubscriptionManager :=
  mkSubscription e_done ss_ready eCHANNEL host port sport name n (url_of host port) authority t4 true t2 false [] [m]
    [url_of host sport; url_of host port].
Definition no_link : Monitors := mkMonitors true true true true true.
Definition half_link : Monitors := mkMonitors false true true true true.
Definition full_link : Monitors := mkMonitors false false true true true.

Lemma new_client t0 : host <> "*" -> SubscriptionManager_new name eCHANNEL host rport sport t0 = Ok (fresh t0).
Proof. intros Hh. unfold SubscriptionManager_new. by rewrite bool_decide_false. Qed.
Lemma first_call t0 t1 : checkConnections no_link t1 (fresh t0) = Ok (false, connecting t1).
Proof. reflexivity. Qed.
Lemma timeout_waits net now s : u64 (now - state_start s) <= state_timeout (setup_status s) -> check_timeout net now s = Ok (tt, s).
Proof.
  intros Ht. unfold check_timeout. rewrite (sbind_run get_sub _ s s s) by done.
  rewrite (proj2 (Z.ltb_ge _ _) Ht), andb_false_r. done.
Qed.
(** A call with the request connection up and the other down asks or reads an answer. *)
Lemma half_call now s b s' : is_client s = true -> setup_status s <> e_startup -> setup_status s <> e_connected -> state_start s <> 0 ->
  u64 (now - state_start s) <= state_timeout (setup_status s) -> setupConnections half_link now s = Ok (b, s') ->
  checkConnections half_link now s = Ok (false, s').
Proof.
  intros Hc H1 H2 H3 Ht R. unfold checkConnections. rewrite (sbind_run get_sub _ s s s) by done. rewrite Hc. cbn [negb].
  rewrite !bool_decide_false by done. cbn [orb]. rewrite (proj2 (Z.eqb_neq _ _) H3). rewrite (sbind_run (sret tt) _ s tt s) by done.
  cbn [setup_down half_link andb]. cbn [orb subs_down]. rewrite (sbind_run _ _ _ _ _ (timeout_waits half_link now s Ht)).
  cbn [setup_down subs_down half_link]. by rewrite (sbind_run _ _ _ _ _ R).
Qed.
Lemma second_call t1 t2 m : 0 < t1 -> 0 <= t2 - t1 <= 60000000 -> channel_request name = Ok m ->
  checkConnections half_link t2 (connecting t1) = Ok (false, asking t2 m []).
Proof.
  intros H1 Ht Em. apply (half_call _ _ false); try done; [cbn; lia | cbn [connecting state_start setup_status state_timeout]; rewrite u64_small; lia |].
  assert (R0 : ask_channel t2 (connecting t1) = Ok (tt, asking t2 m [])).
  { unfold ask_channel. rewrite (sbind_run get_sub _ _ _ _ eq_refl). cbn [sent_request connecting negb orb awaiting].
    rewrite (sbind_run get_sub _ _ _ _ eq_refl), (slift_run _ _ _ m Em). reflexivity. }
  assert (R : requestChannel half_link t2 (connecting t1) = Ok (false, asking t2 m [])).
  { unfold requestChannel. rewrite (sbind_run get_sub _ _ _ _ eq_refl), (slift_run _ _ _ tt eq_refl). taken true.
    by rewrite (sbind_run _ _ _ _ _ R0). }
  unfold setupConnections. rewrite (sbind_run get_sub _ _ _ _ eq_refl), (sbind_run _ _ _ true (connecting t1)) by reflexivity.
  taken false. by rewrite (sbind_run _ _ _ _ _ R).
Qed.
Lemma third_call t2 t3 m port authority n t : 0 < t2 -> 0 <= t3 - t2 <= 10000000 -> plain n -> n <> "" ->
  0 <= port <= 65535 -> 0 <= authority <= 2 ^ 53 -> channel_answer port n authority = Ok t -> Z.of_nat (length t) < 1000 ->
  checkConnections half_link t3 (asking t2 m [t]) = Ok (false, subscribed t2 t3 port authority n m).
Proof.
  intros H2 Ht Hn Hne Hp Ha Et Hl.
  apply (half_call _ _ true); try done; [cbn; lia | cbn [asking state_start setup_status state_timeout]; rewrite u64_small; lia |].
  destruct (answer_parsed port n authority Hn Hp Ha) as (t' & Et' & Hc & Hpar). rewrite Et in Et'. injection Et' as <-.
  assert (Ht0 : t <> []) by (intros ->; vm_compute in Hpar; discriminate Hpar).
  assert (R : requestChannel half_link t3 (asking t2 m [t]) = Ok (true,
    mkSubscription e_settingup_subscriber ss_init eCHANNEL host port sport name n [] authority t3 true t2 false [] [m] [url_of host sport])).
  { unfold requestChannel. rewrite (sbind_run get_sub _ _ _ _ eq_refl), (slift_run _ _ _ tt eq_refl). taken false.
    destruct t as [|c t]; [done |]. set (T := c :: t) in *.
    set (s1 := mkSubscription e_settingup_subscriber ss_init eCHANNEL host rport sport name "" [] 0 t3 true t2 false [] [m] [url_of host sport]).
    set (s2 := mkSubscription _ _ _ _ port _ _ _ _ _ _ _ _ _ _ _ _).
    assert (R : read_channel t3 T (mkSubscription e_waiting_setup ss_init eCHANNEL host rport sport name "" [] 0 t2 true t2 false [] [m] [url_of host sport]) = Ok (true, s2)).
    { unfold read_channel. rewrite (proj2 (Z.ltb_lt _ _) Hl). cbn [negb andb]. rewrite Hc, (sbind_run _ _ _ tt s1) by reflexivity. rewrite (slift_run _ _ _ _ Hpar).
      rewrite (slift_run _ _ _ None), (slift_run _ _ _ (Some (set_name (chars "port") (cJSON_CreateLong port)))) by reflexivity.
      transitivity (Ok (true, mkSubscription e_settingup_subscriber ss_init eCHANNEL host (to_s32 port) sport name (str (chars n)) []
        (u64 authority) t3 true t2 false [] [m] [url_of host sport])); [reflexivity |].
      assert (to_s32 port = port) as -> by (unfold to_s32; rewrite Z.mod_small; lia). rewrite u64_small by lia. by rewrite str_chars. }
    rewrite (sbind_run _ _ _ true s2).
    - cbv iota. rewrite (sbind_run get_sub _ _ _ _ eq_refl). subst s2. cbn [current_channel]. by rewrite bool_decide_false.
    - exact R. }
  unfold setupConnections. rewrite (sbind_run get_sub _ _ _ _ eq_refl), (sbind_run _ _ _ true (asking t2 m [t])) by reflexivity. taken false.
  rewrite (sbind_run _ _ _ _ _ R). reflexivity.
Qed.
Lemma fourth_call t2 t3 t4 m port authority n : t3 <> 0 ->
  checkConnections full_link t4 (subscribed t2 t3 port authority n m) = Ok (true, finished t2 t4 port authority n m).
Proof. intros H3. unfold checkConnections. rewrite (sbind_run get_sub _ _ _ _ eq_refl). taken false. taken false.
  cbn [state_start subscribed]. rewrite (proj2 (Z.eqb_neq _ _) H3). reflexivity. Qed.
End Answers.

(** An answer arrives. *)
Definition answered (t : text) (s : SubscriptionManager) : SubscriptionManager :=
  mkSubscription (setup_status s) (sub_status s) (protocol s) (subscriber_host s) (subscriber_port s) (setup_port s)
    (sm_channel_name s) (current_channel s) (channel_url s) (sm_authority s) (state_start s) (sent_request s) (send_time s)
    (awaiting s) (answers s ++ [t]) (asked s) (connected s).
Lemma request_decodes `{DynEnv} `{!Libm} name tok : plain name -> name ∉ ["TRUE"; "FALSE"; "NULL"] -> tok_wf tok -> next tok + 1 <= INT_MAX ->
  exists m v tok', channel_request name = Ok m /\ getCommand m tok = Ok (Some ("CHANNEL", Some [v]), tok') /\ kind v = t_symbol /\ sValue v = name.
Proof.
  intros Hn Hres Hw Hx. set (sym := mkString t_symbol name 0).
  destruct (command_decodes "CHANNEL" [sym] tok) as (m & vs & tok' & Em & Hd & Hr & _); try done.
  - solve_chars.
  - apply Forall_singleton. by split.
  - apply Forall2_cons_inv_l in Hr as (v & vs' & [Hk Hv] & Hnil & ->). apply Forall2_nil_inv_l in Hnil as ->.
    exists m, v, tok'. split; [|split; [done | split; [done | by apply Hv]]]. exact Em.
Qed.

(** C15: a client gets its channel. A new manager connects to the server, asks for the
    channel by name in a request that decodes to that command, reads the port, the name of
    the channel the server has made for it and the authority out of the answer of the server,
    connects to that port and is done once this connection is up, with this name and this
    authority; the server is reached within a minute after the first call and its answer is
    read within ten seconds after the request. *)
Theorem subscription_completes `{DynEnv} `{!Libm} host name served rport sport port authority tok t0 t1 t2 t3 t4 answer :
  host <> "*" -> plain name -> name ∉ ["TRUE"; "FALSE"; "NULL"] -> plain served -> served <> "" ->
  0 <= port <= 65535 -> 0 <= authority <= 2 ^ 53 -> tok_wf tok -> next tok + 1 <= INT_MAX ->
  0 < t1 -> 0 <= t2 - t1 <= 60000000 -> 0 <= t3 - t2 <= 10000000 ->
  channel_answer port served authority = Ok answer -> Z.of_nat (length answer) < 1000 ->
  exists s0 s1 s2 s3 s4 m v tok', SubscriptionManager_new name eCHANNEL host rport sport t0 = Ok s0 /\
    checkConnections no_link t1 s0 = Ok (false, s1) /\ checkConnections half_link t2 s1 = Ok (false, s2) /\
    asked s2 = [m] /\ getCommand m tok = Ok (Some ("CHANNEL", Some [v]), tok') /\ kind v = t_symbol /\ sValue v = name /\
    checkConnections half_link t3 (answered answer s2) = Ok (false, s3) /\ checkConnections full_link t4 s3 = Ok (true, s4) /\
    setup_status s4 = e_done /\ current_channel s4 = served /\ sm_channel_name s4 = name /\ sm_authority s4 = authority /\
    asked s4 = [m] /\ connected s4 = [url_of host sport; url_of host port].
Proof.
  intros Hh Hn Hres Hsv Hne Hp Ha Htw Htn H1 H2 H3 Et Hl. destruct (request_decodes name tok Hn Hres Htw Htn) as (m & v & tok' & Em & Hd & Hk & Hv).
  exists (fresh host name rport sport t0), (connecting host name rport sport t1), (asking host name rport sport t2 m []),
    (subscribed host name sport t2 t3 port authority served m), (finished host name sport t2 t4 port authority served m), m, v, tok'.
  split; [by apply new_client |]. split; [apply first_call |]. split; [by apply second_call |]. split; [done |]. split; [done |].
  split; [done |]. split; [done |]. split; [apply (third_call host name rport sport t2 t3 m port authority served answer); (done || lia) |].
  split; [apply fourth_call; lia |]. done.
Qed.

(** ** A request without an answer *)
(** The socket waits for the answer to the last request. *)
Definition stalled (A : list text) (s : SubscriptionManager) : Prop :=
  sent_request s = true /\ awaiting s = true /\ answers s = [] /\ asked s = A.
Definition keeps {B} (A : list text) (m : BM B) (s : SubscriptionManager) : Prop :=
  match m s with Ok (_, s') => stalled A s' | Abort => True | Undef => False end.
Section Stalled.
Context `{DynEnv} `{!Libm}.
Variables (net : Monitors) (now : Z) (A : list text).
Lemma keeps_sbind {B C} (m : BM B) (f : B -> BM C) s : keeps A m s -> (forall x s', m s = Ok (x, s') -> stalled A s' -> keeps A (f x) s') ->
  keeps A (sbind m f) s.
Proof. unfold keeps, sbind. destruct (m s) as [[x s']| |] eqn:E; [|done..]. intros Hm Hf. by apply Hf. Qed.
Lemma keeps_get {C} (f : SubscriptionManager -> BM C) s : keeps A (f s) s -> keeps A (sbind get_sub f) s.
Proof. done. Qed.
Lemma keeps_assert {C} b (f : unit -> BM C) s : (b = true -> keeps A (f tt) s) -> keeps A (sbind (slift (assert b)) f) s.
Proof. intros Hf. destruct b; [by apply Hf | done]. Qed.
Lemma keeps_if {C} (b : bool) (f g : BM C) s : keeps A f s -> keeps A g s -> keeps A (if b then f else g) s.
Proof. by destruct b. Qed.
Lemma keeps_set st s : stalled A s -> keeps A (setSetupStatus now st) s.
Proof. intros Hs. unfold setSetupStatus. apply keeps_get, keeps_assert. intros _. by apply keeps_if. Qed.
Lemma keeps_request s : stalled A s -> keeps A (requestChannel net now) s.
Proof.
  intros Hs. pose proof Hs as (H1 & H2 & H3 & H4). unfold requestChannel. apply keeps_get, keeps_assert. intros _. apply keeps_if.
  - apply keeps_sbind; [|done]. unfold ask_channel. apply keeps_get, keeps_if; [|done]. by rewrite H2, H3, H1.
  - apply keeps_sbind; [apply keeps_if; [by rewrite H2, H3 | done] |]. intros [] s' _ Hs'; done.
Qed.
Lemma keeps_setup s : stalled A s -> keeps A (setupConnections net now) s.
Proof.
  intros Hs. unfold setupConnections. apply keeps_get, keeps_sbind.
  - apply keeps_if; [|done]. unfold start_connection. apply keeps_get, keeps_if; [done |]. apply keeps_sbind; [done |].
    intros _ s1 _ Hs1. apply keeps_if; [done |]. apply keeps_sbind; [done |]. intros _ s2 _ Hs2. apply keeps_sbind; [by apply keeps_set | done].
  - intros started s1 _ Hs1. apply keeps_if; [done |]. apply keeps_sbind; [by apply keeps_request |]. intros got s2 _ Hs2.
    apply keeps_if; [done |]. apply keeps_get, keeps_if; [done |]. apply keeps_sbind; [done |]. intros _ s3 _ Hs3.
    apply keeps_if; [|done]. apply keeps_if; [done |]. apply keeps_sbind; [done |]. intros _ s4 _ Hs4. by apply keeps_sbind.
Qed.
Lemma keeps_check s : stalled A s -> keeps A (checkConnections net now) s.
Proof.
  intros Hs. unfold checkConnections. apply keeps_get, keeps_if; [done |]. apply keeps_if.
  - apply keeps_sbind; [by apply keeps_setup | done].
  - apply keeps_sbind; [by apply keeps_if |]. intros _ s1 _ Hs1. apply keeps_if; [apply keeps_sbind; [by apply keeps_set | done] |].
    apply keeps_sbind.
    + apply keeps_if; [|done]. unfold check_timeout. apply keeps_get, keeps_if; [|done]. apply keeps_if; by apply keeps_set.
    + intros _ s2 _ Hs2. apply keeps_if; [done |]. apply keeps_if; [apply keeps_sbind; [by apply keeps_setup | done] |].
      apply keeps_sbind; [by apply keeps_set | done].
Qed.
End Stalled.
(** Calls at any times with any reports of the monitors. *)
Fixpoint check_all `{DynEnv} `{!Libm} (calls : list (Monitors * Z)) : BM unit :=
  match calls with
  | [] => sret tt
  | (net, now) :: calls' => let! _r := checkConnections net now in check_all calls'
  end.

(** C28: a request that stays without an answer is never repeated: whatever the monitors
    report and however much time passes, the manager does not send another request and
    reads no memory it should not, until an answer arrives; a server that was restarted
    after it got the request is never asked again. *)
Theorem unanswered_request_stalls `{DynEnv} `{!Libm} calls s :
  sent_request s = true -> awaiting s = true -> answers s = [] ->
  match check_all calls s with
  | Ok (_, s') => asked s' = asked s /\ awaiting s' = true
  | Abort => True
  | Undef => False
  end.
Proof.
  intros H1 H2 H3. enough (keeps (asked s) (check_all calls) s) as K.
  { unfold keeps in K. destruct (check_all calls s) as [[[] s']| |]; [|done..]. by destruct K as (_ & ? & _ & ?). }
  assert (Hs : stalled (asked s) s) by done. revert Hs. generalize (asked s). clear H1 H2 H3. intros A. revert s.
  induction calls as [|[net now] calls IH]; intros s Hs; [done |].
  cbn [check_all]. apply keeps_sbind; [by apply keeps_check |]. intros _ s' _ Hs'. by apply IH.
Qed.

(** ** Samples *)
Definition sample_answer : text := match channel_answer 7601 "LINK_7601" 1804289383 with Ok t => t | _ => [] end.
Lemma subscription_completes_w : exists s0 s1 s2 s3 s4,
  SubscriptionManager_new "LINK" eCHANNEL "localhost" 0 5555 5 = Ok s0 /\
  @checkConnections no_dyn sample_libm no_link 10 s0 = Ok (false, s1) /\
  @checkConnections no_dyn sample_libm half_link 2000000 s1 = Ok (false, s2) /\
  @checkConnections no_dyn sample_libm half_link 2500000 (answered sample_answer s2) = Ok (false, s3) /\
  @checkConnections no_dyn sample_libm full_link 2600000 s3 = Ok (true, s4) /\
  sm_authority s4 = 1804289383 /\ current_channel s4 = "LINK_7601" /\ sm_channel_name s4 = "LINK".
Proof.
  destruct (@subscription_completes no_dyn sample_libm "localhost" "LINK" "LINK_7601" 0 5555 7601 1804289383 Tokeniser_new 5 10 2000000 2500000 2600000
    sample_answer) as (s0 & s1 & s2 & s3 & s4 & m & v & tok' & R0 & R1 & R2 & _ & _ & _ & _ & R3 & R4 & _ & Hn & Hc & Ha & _).
  - discriminate.
  - solve_chars.
  - apply (bool_decide_eq_true_1 _). reflexivity.
  - solve_chars.
  - discriminate.
  - lia.
  - lia.
  - apply tok_wf_new.
  - vm_compute. discriminate.
  - lia.
  - lia.
  - lia.
  - vm_compute. reflexivity.
  - vm_compute. reflexivity.
  - exists s0, s1, s2, s3, s4. split; [exact R0 |]. split; [exact R1 |]. split; [exact R2 |]. split; [exact R3 |]. split; [exact R4 |].
    split; [exact Ha |]. split; [exact Hn | exact Hc].
Defined.
(** A server that goes away after it was asked and comes back. *)
Definition asked_once : SubscriptionManager := asking "localhost" "LINK" 0 5555 2000000 (chars "request") [].
Definition restart : list (Monitors * Z) :=
  [(no_link, 3000000); (half_link, 4000000); (half_link, 70000000); (half_link, 80000000); (half_link, 200000000)].
Lemma unanswered_request_stalls_w : exists s,
  @check_all no_dyn sample_libm restart asked_once = Ok (tt, s) /\ asked s = [chars "request"] /\ setup_status s = e_waiting_connect.
Proof.
  pose proof (@unanswered_request_stalls no_dyn sample_libm restart asked_once eq_refl eq_refl eq_refl) as K.
  destruct (check_all restart asked_once) as [[[] s]| |] eqn:E; [|destruct K; vm_compute in E; discriminate E..].
  exists s. split; [reflexivity |]. split; [apply K |]. vm_compute in E. injection E as <-. reflexivity.
Defined.
(** An answer after the ten seconds is copied into a buffer of one byte, and a channel
    that comes back on another port is noted but not connected. *)
Example late_answer : @checkConnections no_dyn sample_libm half_link 13000000 (answered sample_answer asked_once) = Undef.
Proof. vm_compute. reflexivity. Qed.
Definition back_again : SubscriptionManager :=
  mkSubscription e_waiting_setup ss_ready eCHANNEL "localhost" 7601 5555 "LINK" "LINK_7601" (url_of "localhost" 7601) 1 2000000 true 2000000
    true [match channel_answer 7650 "LINK_7650" 9 with Ok t => t | _ => [] end] [] [url_of "localhost" 5555; url_of "localhost" 7601].
Example moved_channel : exists s, @checkConnections no_dyn sample_libm half_link 2500000 back_again = Ok (false, s) /\
  channel_url s = url_of "localhost" 7650 /\ connected s = connected back_again.
Proof. eexists. vm_compute. repeat split. Qed.
