(* ===== verification/Assignments.v ===== *)
(** Assignments (PredicateAction.cpp) and the actions INC, DEC and SET of a property
    (ExpressionAction.cpp): the [run] method of each, from the start of the action to its
    status. [owner] is the machine an action runs for. *)
From S2P Require Import Prelude Cnum Tokeniser Value SymbolTable ValueOps Message Machine Expression Names Properties Lists DynamicValues StoreActions.
Open Scope Z_scope.
Local Open Scope sm_scope.

(** What the evaluation asks of dynamic values: their value in the scope of a machine,
    the name a PropertyLookupValue resolves to ([None] for the other classes), and the
    value of a predicate (Expression.v). *)
Class Operands := {
  dynamic_call : dynref -> ptr -> NM Value;
  resolvedName : dynref -> ptr -> NM (option string);
  predicate_evaluate : Predicate -> ptr -> NM Value
}.

Section Assignments.
Context `{DynEnv} `{Clock} `{!Expression.Scope} `{!Operands}.
Variable ct : ClockworkToken.

(** ** Evaluation by recursion *)
(** [resolve]: a symbol stands for a property, if the machine has it. *)
Definition resolve_entry (m : ptr) (e : Value) : NM Value :=
  if Kind_eqb (kind e) t_symbol then
    if bool_decide (sValue e = "TIMER") then
      let! r := getTimerVal m in let! t := load r in sret (assign (operand e) t)
    else
      let! r := getValue ct m (sValue e) in
      let! prop := load r in
      let? d := value_ne prop Null in
      if d : bool then sret (operand prop) else sret (operand e)
  else if Kind_eqb (kind e) t_dynamic then
    match dyn_value e with Some d => dynamic_call d m | None => sret (Value_bool false) end
  else sret (operand e).
(** The [switch] of [eval], which differs from that of the stack machine in what a text
    that is no integer and the operators on lists give. *)
Definition eval_op (m : ptr) (o : PredicateOperator) (l r : Value) : NM Value :=
  match o with
  | opInteger =>
      let? x := asInteger r None in
      match x with
      | (true, i) => let? z := rd i in sret (Value_long z)
      | (false, _) => sret Value_empty
      end
  | opAny | opAll | opIncludes | opCount =>
      match dyn_value r with Some d => dynamic_call d m | None => sret Value_empty end
  | _ => tokenise (apply_op o l r l r)
  end.
(** [eval]: both operands are always evaluated, the left one first. *)
Fixpoint eval (m : ptr) (p : Predicate) : NM Value :=
  match p with
  | mkPred None _ None e _ _ _ _ _ _ _ => resolve_entry m e
  | mkPred l o r _ _ _ _ _ _ _ _ =>
      let! lv := match l with Some q => let! v := eval m q in sret (operand v) | None => sret Value_empty end in
      let! rv := match r with Some q => let! v := eval m q in sret (operand v) | None => sret Value_empty end in
      let! v := eval_op m o lv rv in sret (operand v)
  end.

(** ** Assignments *)
(** A predicate without a right side is the name of a property itself, looked up as a
    value or as a text. *)
Definition assigned_value (by_text : bool) (owner : ptr) (p : Predicate) : NM Value :=
  match right_p p with
  | Some rp => eval owner rp
  | None =>
      if by_text then let! r := getValue ct owner (sValue (Expression.entry p)) in load r
      else let! r := getValue_of ct owner (Names.plain (Expression.entry p)) in load (fst r)
  end.
Definition stop_with (owner : ptr) (st : Status) : NM Status := run! emit (EStop owner) in sret st.
Definition set_and_stop (owner target : ptr) (name : string) (v : Value) : NM Status :=
  let! _ok := setValue ct target name v 0 in stop_with owner Complete.
Definition PredicateAction_run (owner : ptr) (p : Predicate) : NM Status :=
  run! emit (EStart owner) in
  match left_p p with
  | Some lp =>
      if Kind_eqb (kind (Expression.entry lp)) t_symbol then
        let name := sValue (Expression.entry lp) in
        let! v := assigned_value false owner p in
        let! i := get owner in
        let? c := rd (state_machine (fixed i)) in
        match global_references c !! name with
        | Some None => run! emit (ELog owner name) in fun _ => Abort
        | Some (Some g) =>
            let! gi := get g in
            if bool_decide (i_type (fixed gi) = "CONSTANT") then stop_with owner Failed
            else set_and_stop owner g "VALUE" v
        | None => set_and_stop owner owner name v
        end
      else if Kind_eqb (kind (Expression.entry lp)) t_dynamic then
        let! v := assigned_value true owner p in
        let! name := match dyn_value (Expression.entry lp) with Some d => resolvedName d owner | None => sret None end in
        match name with
        | Some n => set_and_stop owner owner n v
        | None => stop_with owner Failed
        end
      else run! emit (ELog owner (sValue (Expression.entry lp))) in stop_with owner Failed
  | None => stop_with owner Failed
  end.

(** ** INC, DEC and SET *)
Inductive opType := opInc | opDec | opSet.
Record ExpressionFields := mkExpression {
  lhs : string;
  rhs : Value;
  e_op : opType;
  extra : Value;
  expr : option Predicate
}.
(** The constructors of the template; [DEC] adds the negated value. *)
Definition ExpressionActionTemplate_new (var : string) (oper : opType) : ExpressionFields :=
  mkExpression var (match oper with opDec => Value_int (-1) | _ => Value_int 1 end) oper Value_empty None.
Definition ExpressionActionTemplate_value (var : string) (oper : opType) (v e : Value) : res ExpressionFields :=
  r ← (match oper with opDec => value_neg v | _ => Ok v end); Ok (mkExpression var r oper e None).
(** [resolve]: the value of a property whose name may be the VALUE of a machine. *)
Definition resolve_property (scope : ptr) (v : Value) : NM Value :=
  let? null := value_eq v Null in
  if null : bool then sret v else
  if negb (Kind_eqb (kind v) t_symbol) && negb (Kind_eqb (kind v) t_string) then sret v else
  let! r := getValue ct scope (sValue v) in
  let! local_v := load r in
  let! machine := lookup ct scope (sValue v) in
  let? found := value_ne local_v Null in
  let! target := (if found : bool then sret local_v
                  else match machine with
                       | Some o => let! r := getValue ct o "VALUE" in load r
                       | None => sret v
                       end) in
  let? missing := value_eq target Null in
  if missing : bool then let! r := getValue ct scope (sValue v) in load r else
  run! (if negb (Kind_eqb (kind target) t_symbol) && negb (Kind_eqb (kind target) t_string)
        then emit (ELog scope (sValue v)) else sret tt) in sret target.
Definition set_of (owner : ptr) (name : string) (v : Value) : NM unit :=
  let! _ok := setValue ct owner name v 0 in sret tt.
(** SET: a symbol names the property, of another machine if [extra] is given. *)
Definition run_set (owner : ptr) (f : ExpressionFields) : NM Status :=
  if Kind_eqb (kind (rhs f)) t_symbol then
    let! lookup_v := resolve_property owner (rhs f) in
    let? other := value_ne (extra f) Null in
    let! scope := (if other : bool then let? n := asString (extra f) in lookup ct owner n else sret (Some owner)) in
    match scope with
    | None => run! emit (ELog owner (lhs f)) in sret Failed
    | Some scope =>
        let! property_v := resolve_property scope lookup_v in
        let? missing := value_eq property_v Null in
        run! (if missing : bool then
                let? t := asString (rhs f) in
                let! s := tokenise (Value_str t t_string) in set_of owner (lhs f) s
              else set_of owner (lhs f) property_v) in sret Complete
    end
  else
    let? other := value_ne (extra f) Null in
    run! (if other : bool then emit (ELog owner (lhs f)) else set_of owner (lhs f) (rhs f)) in sret Complete.
(** [v] is a reference: the value written back at the end is read after the change. *)
Definition run_present (owner : ptr) (f : ExpressionFields) (r : Ref) : NM Status :=
  let! v := load r in
  let! st := (match e_op f with
              | opInc | opDec =>
                  if negb (Kind_eqb (kind v) t_integer) || negb (Kind_eqb (kind (rhs f)) t_integer) then sret Failed
                  else
                    let? x := rd (iValue v) in
                    let? y := rd (iValue (rhs f)) in
                    let? z := long_of (x + y) in
                    run! set_of owner (lhs f) (Value_long z) in sret Complete
              | opSet => run_set owner f
              end) in
  match st with
  | Failed => sret Failed
  | _ => let! v := load r in run! set_of owner (lhs f) v in sret Complete
  end.
Definition ExpressionAction_run (owner : ptr) (f : ExpressionFields) : NM Status :=
  run! emit (EStart owner) in
  let! st := (match expr f with
              | Some e => let! v := predicate_evaluate e owner in run! set_of owner (lhs f) v in sret Complete
              | None =>
                  let! r := getValue ct owner (lhs f) in
                  let! v := load r in
                  let? present := value_ne v Null in
                  if present : bool then run_present owner f r
                  else run! set_of owner (lhs f) (rhs f) in sret Complete
              end) in
  run! emit (ENeedsCheck owner) in stop_with owner st.
(** [checkComplete] of both. *)
Definition assignment_checkComplete : Status := Complete.
End Assignments.
