(* ===== verification/AssignmentsProps.v ===== *)
(** Assignments compute: an arithmetic expression over properties is assigned as its
    value, and INC and DEC add to a property. *)
From S2P Require Import Prelude Cnum Tokeniser Value SymbolTable ValueOps ValueProps Message Machine Expression Names Properties Lists DynamicValues StoreActions NamesProps ExpressionProps PropertiesProps DynamicValuesProps Assignments.
Open Scope Z_scope.
Local Open Scope sm_scope.

(** ** Arithmetic *)
Inductive Arith := ANum (z : Z) | AProp (name : string) | ABin (o : PredicateOperator) (l r : Arith).
(** The value of an expression: undefined when a result is not a [long], when a divisor
    is zero, or for a property without a value. *)
Definition checked (z : Z) : option Z := if in_long z then Some z else None.
Definition arith (o : PredicateOperator) (x y : Z) : option Z :=
  match o with
  | opPlus => checked (x + y)
  | opMinus => checked (x - y)
  | opTimes => checked (x * y)
  | opDivide => if y =? 0 then None else checked (Z.quot x y)
  | opMod => if (y =? 0) || negb (in_long (Z.quot x y)) then None else checked (Z.rem x y)
  | _ => None
  end.
Fixpoint meaning (env : string -> option Z) (e : Arith) : option Z :=
  match e with
  | ANum z => checked z
  | AProp n => env n
  | ABin o l r => x ← meaning env l; y ← meaning env r; arith o x y
  end.
Fixpoint pred_of (ids : string -> Z) (e : Arith) : Predicate :=
  match e with
  | ANum z => Predicate_value (Value_long z)
  | AProp n => Predicate_value (mkString t_symbol n (ids n))
  | ABin o l r => Predicate_node (Some (pred_of ids l)) o (Some (pred_of ids r))
  end.

Lemma number_operand v z : number v z -> number (operand v) z.
Proof. apply number_assign. Qed.
Lemma checked_Some z w : checked z = Some w -> z = w /\ in_long z = true.
Proof. unfold checked. destruct (in_long z) eqn:E; [|done]. intros [= <-]. done. Qed.
Section Values.
Context `{DynEnv} `{Clock} `{!Expression.Scope} `{!Operands}.
Lemma number_set_i v x z : number v x -> number (set_i z v) z.
Proof. intros [K _]. split; [exact K | done]. Qed.
Lemma arith_op o a b lv rv x y z t : number lv x -> number rv y -> arith o x y = Some z ->
  exists v, apply_op o a b lv rv t = Ok (v, t) /\ number v z.
Proof.
  intros Nl Nr Hz. pose proof Nl as [Kl Il]. pose proof Nr as [Kr Ir].
  assert (Hl : forall w, in_long w = true -> long_of w = Ok w) by (intros w Hw; unfold long_of; by rewrite Hw).
  destruct o; try discriminate Hz; cbn [arith] in Hz; cbn [apply_op];
    unfold value_add, value_sub, value_mul, value_div, value_mod, add_assign, sub_assign, mul_assign, div_assign, mod_assign;
    rewrite Kl, Kr; cbn [Kind_eqb negb]; unfold sbind, slift, rd; rewrite ?Il, ?Ir.
  - apply checked_Some in Hz as [<- Hz]. rewrite (Hl _ Hz). eexists. split; [done | by eapply number_set_i].
  - apply checked_Some in Hz as [<- Hz]. rewrite (Hl _ Hz). eexists. split; [done | by eapply number_set_i].
  - apply checked_Some in Hz as [<- Hz]. rewrite (Hl _ Hz). eexists. split; [done | by eapply number_set_i].
  - destruct (y =? 0) eqn:Ey; [done |]. apply checked_Some in Hz as [<- Hz]. destruct (x =? 0) eqn:Ex.
    + apply Z.eqb_eq in Ex as ->. eexists. split; [done |]. rewrite Z.quot_0_l by (by apply Z.eqb_neq). done.
    + unfold c_div. rewrite Ey, (Hl _ Hz). eexists. split; [done | by eapply number_set_i].
  - destruct (y =? 0) eqn:Ey; [done |]. cbn [orb] in Hz. destruct (in_long (Z.quot x y)) eqn:Eq; [|done]. apply checked_Some in Hz as [<- _].
    unfold c_rem. rewrite Ey, Eq. eexists. split; [done | by eapply number_set_i].
Qed.

(** ** Properties that hold numbers *)
Variable ct : ClockworkToken.
(** A property of a machine itself that holds an integer; its name is known. *)
Record own_number (s : Store) (m : ptr) (i : MachineInstance) (c : MachineClass) (p : string) (z : Z) : Prop := {
  on_inst : heap s !! m = Some i;
  on_class : state_machine (fixed i) = Some c;
  on_filter : plugin_filter c = None;
  on_global : global_references c !! p = None;
  on_variable : is_variable ct c = false;
  on_authority : expected_authority (fixed i) = 0;
  on_name : p <> "" /\ split_dot p = None;
  on_keyword : st (keywords s) !! p = None;
  on_special : p ∉ ["TIMER"; "POLLING_DELAY"; "TRACEABLE"];
  on_plain : mq_interface (fixed i) = false /\ (io_interface (fixed i) = None \/ p <> "VALUE");
  on_owner o : owner (fixed i) = Some o -> is_Some (heap s !! o);
  on_tok : tok_wf (tok s) /\ built_in ct (tok s) /\ is_Some (tokens (tok s) !! p);
  on_number : exists v, st (properties i) !! p = Some v /\ number v z;
  on_range : in_long z = true
}.
Lemma own_number_emit s m i c p z e : own_number s m i c p z -> own_number (mkStore (heap s) (machines s) (globals s) (keywords s) (tok s) e) m i c p z.
Proof. intros []. by split. Qed.
Lemma number_kind v z : number v z -> kind v <> t_empty.
Proof. intros [K _]. by rewrite K. Qed.
Lemma read_number s m i c p z : own_number s m i c p z -> (0 < call_depth)%nat ->
  exists v, getValue ct m p s = Ok (RProp m p, s) /\ load (RProp m p) s = Ok (v, s) /\ number v z.
Proof.
  intros [E C F G V A [Np D] K Sp Q O (Tw & B & [t T]) (v & Pv & Nv) _] Hd. exists v. split; [|split; [|done]].
  - unfold getValue. destruct call_depth as [|n]; [lia |]. apply (getValue_own ct n m p t c i v s); try done.
    + eapply other_token; [done | exact T | exact (bi_timer _ _ B) | set_solver].
    + by eapply number_kind.
  - unfold load. cbn. rewrite E. cbn. by rewrite Pv.
Qed.
Lemma comparable_number v z : number v z -> in_long z = true -> comparable v.
Proof.
  intros [K I] Hz. apply in_long_spec in Hz. unfold comparable, initialised. rewrite K. split; [by exists z |].
  split; [done |]. split; [done |]. done.
Qed.
Lemma identical_number w v z : kind w = kind v -> number v z -> identical w v = Ok true -> number w z.
Proof.
  intros Kw Nv Hi. pose proof Nv as [Kv Iv]. rewrite Kv in Kw. split; [exact Kw |].
  unfold identical, value_eq, coerced in Hi. rewrite Kw, Kv in Hi. cbn in Hi. destruct (iValue w) as [x|] eqn:Iw.
  - rewrite (asInteger_number w x None) in Hi by done. cbn in Hi. rewrite (asInteger_number v z None Nv) in Hi. cbn in Hi.
    injection Hi as Hi. apply Z.eqb_eq in Hi. by subst.
  - unfold asInteger in Hi. destruct dyn_depth; cbn in Hi; rewrite Kw in Hi; cbn in Hi; rewrite Iw in Hi; discriminate Hi.
Qed.
(** Setting it to another number. *)
Lemma set_number s m i c p z v y : own_number s m i c p z -> (0 < call_depth)%nat -> number v y -> in_long y = true ->
  exists s' i', setValue ct m p v 0 s = Ok (true, s') /\ own_number s' m i' c p y /\ fixed i' = fixed i /\
    tok s' = tok s /\ keywords s' = keywords s /\ (forall o, o <> m -> heap s' !! o = heap s !! o) /\
    (forall k, k <> p -> st (properties i') !! k = st (properties i) !! k).
Proof.
  intros On Hd Nv Hy. pose proof On as [E C F G V A [Np D] K Sp [Q IO] O (Tw & B & [t T]) (w0 & Pv & Nw) Hz].
  unfold setValue. destruct call_depth as [|n]; [lia |]. cbn [setValue_n]. rewrite bool_decide_eq_false_2, D by done.
  rewrite (sbind_run _ _ _ _ _ (get_run m i s E)), A. cbn [Z.eqb negb andb].
  destruct (tokenise_known p s t T Np) as (pv & Tk & Ti). rewrite (sbind_run _ _ _ _ _ Tk), Ti. cbn [rd]. rewrite (slift_run _ _ _ _ eq_refl).
  rewrite (other_token _ _ _ _ _ Tw T (bi_polling _ _ B)) by set_solver.
  rewrite (other_token _ _ _ _ _ Tw T (bi_traceable _ _ B)) by set_solver. cbn [negb andb].
  rewrite C. cbn [rd]. rewrite (slift_run _ _ _ _ eq_refl), (sbind_run _ _ _ tt s) by done.
  rewrite G, (sbind_run _ _ _ _ _ (get_run m i s E)), (sbind_run _ _ _ _ _ (table_ref_run _ _ _ s K)),
    (sbind_run _ _ _ _ _ (load_prop m p i s E)), Pv. cbn [default].
  rewrite (slift_run _ _ _ _ (proj1 (not_null w0 (number_kind _ _ Nw)))). cbn [andb].
  destruct (set_own_run ct m c p pv v t 0 i s) as (s' & i' & w & R & E' & F' & P' & K' & T' & Pw & I & Kw & L & X); try done.
  - rewrite Pv. by destruct (comparable_number w0 z Nw Hz) as (? & ? & _).
  - destruct IO as [-> | Hv]; [by left |]. right. by eapply other_token; [| | exact (bi_value _ _ B) |].
  - eapply comparable_number; [exact Nv | exact Hy].
  - exists s', i'. split; [done |]. split; [|done]. split; rewrite ?F', ?K', ?T'; try done.
    + intros o Ho. by eapply others_live; [exact E | exact E' | exact L | apply O].
    + exists w. split; [done | by eapply identical_number].
Qed.

(** ** Expressions *)
(** The properties of [m] that an expression may use. *)
Definition environment (s : Store) (m : ptr) (i : MachineInstance) (c : MachineClass) (env : string -> option Z) : Prop :=
  forall n z, env n = Some z -> own_number s m i c n z.
Lemma resolve_number s m i c n z id : own_number s m i c n z -> (0 < call_depth)%nat ->
  exists v, resolve_entry ct m (mkString t_symbol n id) s = Ok (v, s) /\ number v z.
Proof.
  intros On Hd. destruct (read_number s m i c n z On Hd) as (v & R & Hl & Nv). exists (operand v). split; [|by apply number_operand].
  unfold resolve_entry. cbn [kind mkString sValue Kind_eqb]. rewrite bool_decide_false.
  - rewrite (sbind_run _ _ _ _ _ R), (sbind_run _ _ _ _ _ Hl). by rewrite (slift_run _ _ _ _ (proj2 (not_null v (number_kind _ _ Nv)))).
  - pose proof (on_special _ _ _ _ _ _ On). set_solver.
Qed.
Lemma tokenise_same {A} (f : SM Tokeniser A) a s : f (tok s) = Ok (a, tok s) -> Names.tokenise f s = Ok (a, s).
Proof. intros E. unfold Names.tokenise. rewrite E. cbn. by destruct s. Qed.
Lemma eval_arith s m i c env ids e : environment s m i c env -> (0 < call_depth)%nat -> forall z, meaning env e = Some z ->
  exists v, eval ct m (pred_of ids e) s = Ok (v, s) /\ number v z.
Proof.
  intros He Hd. induction e as [k | n | o l IHl r IHr]; intros z Hz; cbn [meaning] in Hz.
  - apply checked_Some in Hz as [<- _]. by exists (operand (Value_long k)).
  - apply (resolve_number s m i c n z (ids n)); [by apply He | done].
  - destruct (meaning env l) as [x|] eqn:El; [|done]. destruct (meaning env r) as [y|] eqn:Er; [|done]. cbn in Hz.
    destruct (IHl x eq_refl) as (lv & Rl & Nl). destruct (IHr y eq_refl) as (rv & Rr & Nr).
    apply number_operand in Nl, Nr. cbn [pred_of Predicate_node eval].
    rewrite (sbind_run _ _ s (operand lv) s) by (by rewrite (sbind_run _ _ _ _ _ Rl)).
    rewrite (sbind_run _ _ s (operand rv) s) by (by rewrite (sbind_run _ _ _ _ _ Rr)).
    destruct (arith_op o (operand lv) (operand rv) _ _ x y z (tok s) Nl Nr Hz) as (v & Rv & Nv).
    exists (operand v). split; [|by apply number_operand].
    rewrite (sbind_run _ _ s v s); [done |].
    destruct o; try discriminate Hz; cbn [eval_op]; by apply tokenise_same.
Qed.
Lemma arith_range o x y z : arith o x y = Some z -> in_long z = true.
Proof. intros Hz. destruct o; try discriminate Hz; cbn [arith] in Hz; repeat case_match; try discriminate Hz; by apply checked_Some in Hz as [<- ?]. Qed.
Lemma meaning_range s m i c env e z : environment s m i c env -> meaning env e = Some z -> in_long z = true.
Proof.
  intros He. destruct e as [k | n | o l r]; cbn [meaning]; intros Hz.
  - by apply checked_Some in Hz as [<- ?].
  - apply (on_range _ _ _ _ _ _ (He _ _ Hz)).
  - destruct (meaning env l); [|done]. destruct (meaning env r); [|done]. by eapply arith_range.
Qed.
End Values.

(** The assignment of an expression to a property. *)
Definition assignment (ids : string -> Z) (p : string) (e : Arith) : Predicate :=
  Predicate_node (Some (Predicate_value (mkString t_symbol p (ids p)))) opAssign (Some (pred_of ids e)).

(** C14: an assignment of an arithmetic expression to an integer property of the machine
    completes and leaves the property with the value of the expression in the old
    properties, also if the property occurs in it, if no result is out of the range of
    [long] and no divisor is zero; reading the property then gives this value. *)
Theorem assignment_computes `{DynEnv} `{Clock} `{!Expression.Scope} `{!Operands} (ct : ClockworkToken) ids env s m i c p e old z :
  environment ct s m i c env -> own_number ct s m i c p old -> meaning env e = Some z -> (0 < call_depth)%nat ->
  exists s' i' v, PredicateAction_run ct m (assignment ids p e) s = Ok (Complete, s') /\ own_number ct s' m i' c p z /\
    getValue ct m p s' = Ok (RProp m p, s') /\ load (RProp m p) s' = Ok (v, s') /\ number v z.
Proof.
  intros He Hp Hz Hd. unfold PredicateAction_run. set (s0 := with_events (events s ++ [EStart m]) s).
  rewrite (sbind_run _ _ s tt s0) by done. cbn [assignment Predicate_node left_p].
  assert (He0 : environment ct s0 m i c env) by (intros n x Hx; by apply own_number_emit, He).
  pose proof (own_number_emit ct s m i c p old (events s ++ [EStart m]) Hp) as Hp0. fold (with_events (events s ++ [EStart m]) s) in Hp0. fold s0 in Hp0.
  destruct (eval_arith ct s0 m i c env ids e He0 Hd z Hz) as (v & Rv & Nv).
  cbn [Predicate_value Expression.entry kind mkString Kind_eqb sValue].
  rewrite (sbind_run _ _ s0 v s0) by exact Rv.
  rewrite (sbind_run _ _ _ _ _ (get_run m i s0 (on_inst _ _ _ _ _ _ _ Hp0))), (on_class _ _ _ _ _ _ _ Hp0). cbn [rd].
  rewrite (slift_run _ _ _ _ eq_refl), (on_global _ _ _ _ _ _ _ Hp0).
  destruct (set_number ct s0 m i c p old v z Hp0 Hd Nv) as (s1 & i1 & R1 & On1 & _); [by eapply meaning_range |].
  unfold set_and_stop. rewrite (sbind_run _ _ _ _ _ R1). set (s2 := with_events (events s1 ++ [EStop m]) s1).
  assert (On2 : own_number ct s2 m i1 c p z) by (by apply own_number_emit).
  destruct (read_number ct s2 m i1 c p z On2 Hd) as (w & Rw & Lw & Nw).
  exists s2, i1, w. split; [done |]. done.
Qed.

(** INC and DEC of an integer property complete and add: the property then holds its
    old value plus the amount (minus it for DEC), although the reference read at the
    start is written back at the end. *)
Theorem increment_adds `{DynEnv} `{Clock} `{!Expression.Scope} `{!Operands} (ct : ClockworkToken) s m i c p oper amount f old y :
  own_number ct s m i c p old -> oper <> opSet -> number amount y -> in_long (- y) = true ->
  ExpressionActionTemplate_value p oper amount Value_empty = Ok f ->
  in_long (old + match oper with opDec => - y | _ => y end) = true -> (0 < call_depth)%nat ->
  exists s' i' v, ExpressionAction_run ct m f s = Ok (Complete, s') /\
    getValue ct m p s' = Ok (RProp m p, s') /\ load (RProp m p) s' = Ok (v, s') /\
    number v (old + match oper with opDec => - y | _ => y end) /\ fixed i' = fixed i /\ heap s' !! m = Some i'.
Proof.
  intros Hp Hop Na Hy Hf Hr Hd. set (y' := match oper with opDec => - y | _ => y end) in *.
  assert (exists r, f = mkExpression p r oper Value_empty None /\ number r y') as (r & -> & Nr).
  { pose proof Na as [Ka Ia]. unfold ExpressionActionTemplate_value in Hf. destruct oper; try done.
    - injection Hf as <-. by exists amount.
    - unfold value_neg in Hf. rewrite Ka, Ia in Hf. cbn in Hf. unfold long_of in Hf. rewrite Hy in Hf. injection Hf as <-. by eexists. }
  unfold ExpressionAction_run. set (s0 := with_events (events s ++ [EStart m]) s).
  rewrite (sbind_run _ _ s tt s0) by done. cbn [expr lhs].
  assert (On0 : own_number ct s0 m i c p old) by (by apply own_number_emit).
  destruct (read_number ct s0 m i c p old On0 Hd) as (v & Rv & Lv & Nv).
  destruct (set_number ct s0 m i c p old (Value_long (old + y')) (old + y') On0 Hd) as (s1 & i1 & R1 & On1 & F1 & _); [done | done |].
  destruct (read_number ct s1 m i1 c p _ On1 Hd) as (w & _ & Lw & Nw).
  destruct (set_number ct s1 m i1 c p _ w (old + y') On1 Hd Nw Hr) as (s2 & i2 & R2 & On2 & F2 & _).
  set (s3 := with_events (events s2 ++ [ENeedsCheck m]) s2). set (s4 := with_events (events s3 ++ [EStop m]) s3).
  assert (On4 : own_number ct s4 m i2 c p (old + y')) by (by apply own_number_emit, own_number_emit).
  destruct (read_number ct s4 m i2 c p _ On4 Hd) as (w4 & R4 & L4 & N4).
  exists s4, i2, w4. split; [|split; [done | split; [done | split; [done | split; [congruence | apply (on_inst _ _ _ _ _ _ _ On4)]]]]].
  rewrite (sbind_run _ _ s0 Complete s2); [done |].
  rewrite (sbind_run _ _ _ _ _ Rv), (sbind_run _ _ _ _ _ Lv), (slift_run _ _ _ _ (proj2 (not_null v (number_kind _ _ Nv)))).
  unfold run_present. rewrite (sbind_run _ _ _ _ _ Lv). cbn [e_op rhs lhs].
  rewrite (sbind_run _ _ s0 Complete s1).
  - rewrite (sbind_run _ _ _ _ _ Lw). unfold set_of. by rewrite (sbind_run _ _ s1 tt s2) by (by rewrite (sbind_run _ _ _ _ _ R2)).
  - destruct Nv as [Kv Iv], Nr as [Kr Ir]. destruct oper; try done; rewrite Kv, Kr; cbn [Kind_eqb negb orb]; rewrite Iv, Ir; cbn [rd];
      rewrite !(slift_run _ _ _ _ eq_refl), (slift_run _ _ _ (old + y')) by (unfold long_of; by rewrite Hr);
      unfold set_of; by rewrite (sbind_run _ _ s0 tt s1) by (by rewrite (sbind_run _ _ _ _ _ R1)).
Qed.

(** ** A sample: a machine that counts *)
Definition counting_tok : Tokeniser := Eval vm_compute in
  match (sbind (getTokenId "count") (fun _ => getTokenId "step")) (snd tokens0) with
  | Ok (_, t) => t
  | _ => Tokeniser_new
  end.
Definition name_id (n : string) : Z := default 0 (tokens counting_tok !! n).
Definition counter_class : MachineClass := sample_class "COUNTER" 101 ["idle"].
Definition counter : MachineInstance :=
  mkInstance (sample_fixed "counter" "COUNTER" counter_class) [] [] ∅
    (mkST (list_to_map [("count", Value_long 7); ("step", Value_long 3)]) (list_to_map [(name_id "count", Value_long 7); (name_id "step", Value_long 3)]))
    "idle" true 0 Value_empty ∅ ∅ 0 false false 0.
Definition counting_store : Store :=
  mkStore {[4%positive := counter]} {["counter" := 4%positive]} SymbolTable_new SymbolTable_new counting_tok [].
Definition no_operands : Operands :=
  {| dynamic_call := fun _ _ => sret Value_empty; resolvedName := fun _ _ => sret None; predicate_evaluate := fun _ _ => sret Value_empty |}.
Definition count_env (n : string) : option Z :=
  if bool_decide (n = "count") then Some 7 else if bool_decide (n = "step") then Some 3 else None.
Lemma counting_number n z : count_env n = Some z -> own_number ct0 counting_store 4%positive counter counter_class n z.
Proof.
  unfold count_env. intros Hn.
  assert ((n = "count" /\ z = 7) \/ (n = "step" /\ z = 3)) as Hc.
  { destruct (bool_decide (n = "count")) eqn:E1; [left | destruct (bool_decide (n = "step")) eqn:E2; [right | done]];
      injection Hn as <-; (split; [by apply bool_decide_eq_true in E1 || apply bool_decide_eq_true in E2 | done]). }
  destruct Hc as [[-> ->] | [-> ->]]; (split; [done | done | done | done | done | done | by split | done | set_solver | by split; [|left] | done | | by eexists | done]);
    (split; [by apply tok_wf_check; vm_compute | split; [split; by vm_compute | by eexists; vm_compute]]).
Qed.
(** count := count * count - step / 2 *)
Definition count_expression : Arith := ABin opMinus (ABin opTimes (AProp "count") (AProp "count")) (ABin opDivide (AProp "step") (ANum 2)).
Lemma assignment_computes_w : exists s' v,
  @PredicateAction_run no_dyn sample_clock empty_scope no_operands ct0 4%positive (assignment name_id "count" count_expression) counting_store = Ok (Complete, s') /\
  load (RProp 4%positive "count") s' = Ok (v, s') /\ number v 48.
Proof.
  destruct (@assignment_computes no_dyn sample_clock ExpressionProps.empty_scope no_operands ct0 name_id count_env counting_store 4%positive counter counter_class
    "count" count_expression 7 48 counting_number (counting_number "count" 7 ltac:(reflexivity)) ltac:(reflexivity) ltac:(by apply Nat.lt_0_succ))
    as (s' & i' & v & R & _ & _ & L & N).
  by exists s', v.
Defined.
Lemma increment_adds_w : exists s' v f, ExpressionActionTemplate_value "count" opDec (Value_long 10) Value_empty = Ok f /\
  @ExpressionAction_run no_dyn sample_clock no_operands ct0 4%positive f counting_store = Ok (Complete, s') /\
  load (RProp 4%positive "count") s' = Ok (v, s') /\ number v (-3).
Proof.
  destruct (@increment_adds no_dyn sample_clock ExpressionProps.empty_scope no_operands ct0 counting_store 4%positive counter counter_class
    "count" opDec (Value_long 10) _ 7 10 (counting_number "count" 7 ltac:(reflexivity)) ltac:(discriminate) ltac:(by split) ltac:(reflexivity) ltac:(reflexivity)
    ltac:(reflexivity) ltac:(by apply Nat.lt_0_succ))
    as (s' & i' & v & R & _ & L & N & _).
  eexists s', v, _. split; [reflexivity |]. by split.
Defined.
