(* ===== verification/Persistence.v ===== *)
(** The values of persistent machines: the store and its file (PersistentStore.cpp), the
    program that keeps the file up to date (persistd.cpp), the answer it asks for
    (IODCommandPersistentState of IODCommands.cpp) and the loading of the file at the
    start (load_properties_file of clockwork.cpp).

    A file is its contents. Files can be written: [save] writes a scratch file and
    renames it, so that the file is the old one or the whole new one. *)
From S2P Require Import Prelude Cnum Tokeniser Value SymbolTable ValueOps Message Json MessageEncoding Modbus Machine Names Properties.
From Stdlib Require Import SpecFloat Ascii.
Open Scope Z_scope.
Local Open Scope sm_scope.

(** ** Values on a stream *)
(** The text of the expression of a dynamic value. *)
Class Printing := { dynamic_text : dynref -> list ascii }.
Definition f_1em4 : double := Eval vm_compute in dec_float false 1 (-4).
(** [std::scientific] with [p] digits after the point. *)
Definition print_scientific (p : Z) (x : double) : list ascii :=
  let show s m k :=
    (if s : bool then [chr 45] else []) ++ print_nat (m / 10 ^ p) ++ [dot] ++ pad_left (chr 48) (Z.to_nat p) (print_nat (m mod 10 ^ p)) ++
    chr 101 :: (if k <? 0 then chr 45 else chr 43) :: pad_left (chr 48) 2 (print_nat (Z.abs k)) in
  match x with
  | S754_finite s m e =>
      let n := Z.pos m * 2 ^ Z.max 0 e in
      let d := 2 ^ Z.max 0 (- e) in
      let k := dec_exponent 4 n d ((Z.log2 n - Z.log2 d) * 30103 / 100000) in
      let r := round_even (n * 10 ^ Z.max 0 (p - k)) (d * 10 ^ Z.max 0 (k - p)) in
      if 10 ^ (p + 1) <=? r then show s (10 ^ p) (k + 1) else show s r k
  | _ => print_lf x
  end.
Definition empty_mark : list ascii := chars "(empty)".

Section Print.
Context `{DynEnv} `{!Printing}.
(** [Value::operator<<]; the precision belongs to the stream, and a small number is
    written with the one that was set before. *)
Definition print_Value (prec : Z) (v : Value) : res (list ascii * Z) :=
  match kind v with
  | t_empty => Ok (empty_mark, prec)
  | t_integer => i ← rd (iValue v); Ok (print_long i, prec)
  | t_float =>
      f ← rd (fValue v);
      if negb (feqb f fzero) && fleb f f_1em4 && fleb (fopp f_1em4) f then Ok (print_scientific prec f, prec)
      else match f with
           | S754_zero s => Ok ((if s then [chr 45] else []) ++ chars "0.0", 1)
           | _ => Ok (print_lf f, 6)
           end
  | t_symbol => Ok (chars (sValue v), prec)
  | t_string => Ok ([chr 34] ++ chars (sValue v) ++ [chr 34], prec)
  | t_bool => b ← rd (bValue v); Ok (chars (if b : bool then "true" else "false"), prec)
  | t_dynamic => Ok (match dyn_value v with Some d => dynamic_text d | None => chars "<null>" end, prec)
  end.

(** ** The store *)
Record PersistentStore := mkPersistent {
  init_values : gmap string (gmap string Value);
  is_dirty : bool
}.
Definition PersistentStore_new : PersistentStore := mkPersistent ∅ false.
Definition dirty (st : PersistentStore) : bool := is_dirty st.
(** [insert]: [entry[key] = value], in the entry of the machine or in a new one. *)
Definition persist (machine key : string) (value : Value) (st : PersistentStore) : PersistentStore :=
  mkPersistent (<[machine := map_assign key value (default ∅ (init_values st !! machine))]> (init_values st)) true.

(** *** Writing *)
Definition letter (c : ascii) : bool := ((65 <=? code c) && (code c <=? 90)) || ((97 <=? code c) && (code c <=? 122)).
Definition symbol_char (c : ascii) : bool := letter c || is_digit c || (code c =? 95) || (code c =? 46).
Definition skip_quote (l : list ascii) : list ascii :=
  match l with c :: l' => if code c =? 34 then l' else l | [] => [] end.
(** The two patterns: an optional quote, a letter, letters, digits, underscores and
    points, an optional quote; and an optional minus and digits. *)
Definition symbol_pattern (l : list ascii) : bool :=
  match skip_quote l with
  | c :: l' => letter c && at_end (skip_quote (snd (span symbol_char l')))
  | [] => false
  end.
Definition number_pattern (l : list ascii) : bool :=
  match span is_digit (match l with c :: l' => if code c =? 45 then l' else l | [] => [] end) with
  | (_ :: _, []) => true
  | _ => false
  end.
(** The value of an entry as it is written. *)
Definition entry_text (prec : Z) (v : Value) : res (list ascii * Z) :=
  let in_quotes := q ← quoted v; Ok (chars q, prec) in
  match kind v with
  | t_string => in_quotes
  | t_bool | t_integer | t_float => print_Value prec v
  | _ => s ← asString v;
         if symbol_pattern (c_str (chars s)) || number_pattern (c_str (chars s)) then print_Value prec v else in_quotes
  end.
Definition space : ascii := chr 32.
Definition row (machine key : string) (txt : list ascii) : list ascii :=
  chars machine ++ [space] ++ chars key ++ [space] ++ txt ++ [newline].
Fixpoint print_entries (machine : string) (l : list (string * Value)) (prec : Z) : res (list ascii * Z) :=
  match l with
  | [] => Ok ([], prec)
  | (key, v) :: l' =>
      '(txt, prec1) ← entry_text prec v;
      '(rest, prec2) ← print_entries machine l' prec1;
      Ok (row machine key txt ++ rest, prec2)
  end.
Fixpoint print_machines (l : list (string * gmap string Value)) (prec : Z) : res (list ascii) :=
  match l with
  | [] => Ok []
  | (machine, values) :: l' =>
      '(txt, prec1) ← print_entries machine (entries values) prec;
      rest ← print_machines l' prec1;
      Ok (txt ++ rest)
  end.
(** [save]: the contents of the file; a new stream has the precision 6. *)
Definition save (st : PersistentStore) : res (list ascii) := print_machines (in_order (init_values st)) 6.

(** *** Reading *)
(** Quotes around a text of one character or more make it a string. *)
Definition unquoted (vp : list ascii) : Kind * list ascii :=
  match vp with
  | c :: rest =>
      if (code c =? 34) && (2 <? length vp)%nat && (code (List.last vp c) =? 34) then (t_string, List.removelast rest)
      else (t_symbol, vp)
  | [] => (t_symbol, [])
  end.
Definition load_value (vp : list ascii) : SM Tokeniser Value :=
  let '(k, l) := unquoted vp in
  if bool_decide (str l = "FALSE") || bool_decide (str l = "TRUE") then Value_str (str l) t_symbol
  else
    let '(i, endp) := strtol l in
    if at_end endp then sret (Value_long i)
    else
      let '(d, endp) := strtod l in
      if at_end endp then sret (Value_double d) else Value_cstr (str l) k.
(** A line: the name of the machine, that of the property, and the rest. *)
Definition load_entry (line : list ascii) (st : PersistentStore) : SM Tokeniser PersistentStore :=
  let '(name, rest) := read_word (Some line) in
  let '(property, rest) := read_word rest in
  let! v := load_value (snd (span (fun c => code c =? 32) (default [] rest))) in
  sret (persist (str name) (str property) v st).
(** A line of 400 characters or more ends the loop. *)
Fixpoint load_entries (l : list (list ascii)) (st : PersistentStore) : SM Tokeniser PersistentStore :=
  match l with
  | [] => sret st
  | line :: l' =>
      if (length line <=? 399)%nat then let! st' := load_entry (c_str line) st in load_entries l' st' else sret st
  end.
Definition load_store (file : option (list ascii)) (st : PersistentStore) : SM Tokeniser PersistentStore :=
  match file with
  | None => sret st
  | Some contents => let! st' := load_entries (lines_of contents) st in sret (mkPersistent (init_values st') false)
  end.

(** ** persistd *)
(** [split]: at the last dot; without one [erase] throws. *)
Definition split_property (prop : list ascii) : option (list ascii * list ascii) :=
  pos ← rfind [dot] prop; Some (take pos prop, drop (pos + 1) prop).
Definition ignored_properties : list string :=
  ["tab"; "type"; "name"; "image"; "class"; "state"; "export"; "startup_enabled"; "NAME"; "STATE"; "PERSISTENT";
   "POLLING_DELAY"; "TRACEABLE"; "IOTIME"].
(** A field of an item: the text of a JSON string, by way of a [Value]. *)
Definition string_field (item : cJSON) (i : Z) : SM Tokeniser string :=
  let? fld := cJSON_GetArrayItem (Some item) i in
  let? fld := rd fld in
  let? _ok := assert (bool_decide (jtype fld = cJSON_String)) in
  let? s := rd (valuestring fld) in
  let! v := Value_cstr (str s) t_symbol in
  slift (asString v).
Definition field_value (json_val : cJSON) : SM Tokeniser Value :=
  match jtype json_val with
  | cJSON_String => let? s := rd (valuestring json_val) in Value_cstr (str s) t_symbol
  | cJSON_Number => sret (match valueNumber json_val with cJSON_Number_int_t z => Value_long z | cJSON_Number_double_t d => Value_double d end)
  | cJSON_True => sret (Value_bool true)
  | cJSON_False => sret (Value_bool false)
  | _ => fun _ => Abort
  end.
Definition load_active_item (item : cJSON) (st : PersistentStore) : SM Tokeniser PersistentStore :=
  if bool_decide (jtype item = cJSON_Array) then
    let! machine := string_field item 0 in
    let! property := string_field item 1 in
    if bool_decide (property ∈ ignored_properties) then sret st
    else
      let? json_val := cJSON_GetArrayItem (Some item) 2 in
      let? json_val := rd json_val in
      let! v := field_value json_val in
      sret (persist machine property v st)
  else sret st.
Fixpoint load_active_items (l : list cJSON) (st : PersistentStore) : SM Tokeniser PersistentStore :=
  match l with
  | [] => sret st
  | item :: l' => let! st' := load_active_item item st in load_active_items l' st'
  end.
(** The result is false for a text that is not JSON. *)
Definition loadActiveData `{!Libm} (initial_settings : list ascii) (st : PersistentStore) : SM Tokeniser (bool * PersistentStore) :=
  let? obj := cJSON_Parse initial_settings in
  match obj with
  | None => sret (false, st)
  | Some o => let! st' := load_active_items (child o) st in sret (true, st')
  end.
(** The store and its file. *)
Definition saved (st : PersistentStore) : SM Tokeniser (PersistentStore * option (list ascii)) :=
  let? f := save st in sret (st, Some f).
(** A message about a property, from the loop of [main]: a command, or the text of an
    older form, [machine.property op value]. *)
Definition persistd_message `{!Libm} (data : list ascii) (st : PersistentStore) (file : option (list ascii))
    : SM Tokeniser (PersistentStore * option (list ascii)) :=
  let! c := getCommand data in
  match c with
  | Some (cmd, params) =>
      match params with
      | Some [machine_name; property_name; value] =>
          if bool_decide (cmd = "PROPERTY") then
            let? m := asString machine_name in
            let? p := asString property_name in
            saved (persist m p value st)
          else sret (st, file)
      | _ => sret (st, file)
      end
  | None =>
      let '(property, rest) := read_word (Some data) in
      let '(_op, rest) := read_word rest in
      let '(value, _) := read_word rest in
      match split_property property with
      | Some (m, p) => let! v := Value_cstr (str value) t_symbol in saved (persist (str m) (str p) v st)
      | None => sret (st, file)
      end
  end.
(** An answer to PERSISTENT STATUS. *)
Definition collect_status `{!Libm} (initial_settings : list ascii) (st : PersistentStore) (file : option (list ascii))
    : SM Tokeniser (PersistentStore * option (list ascii)) :=
  if bool_decide (map lower (take 7 initial_settings) = chars "ignored") then sret (st, file)
  else
    let! r := loadActiveData initial_settings st in
    if fst r : bool then saved (snd r) else sret (snd r, file).
End Print.

(** ** The machines *)
Section Machines.
Context `{DynEnv} `{Clock}.
Variable ct : ClockworkToken.
(** [load_properties_file]: a text that is a number is set as that number. *)
Definition set_loaded (m : ptr) (key : string) (v : Value) : NM unit :=
  let put w := let! _ok := setValue ct m key w 0 in sret tt in
  match kind v with
  | t_bool | t_integer | t_float => put v
  | _ =>
      let? f := asFloat v None in
      match f with
      | (true, d) => let? d := rd d in put (Value_double d)
      | (false, _) =>
          let? i := asInteger v None in
          match i with
          | (true, i) => let? i := rd i in put (Value_long i)
          | (false, _) => put v
          end
      end
  end.
Fixpoint set_all_loaded (m : ptr) (l : list (string * Value)) : NM unit :=
  match l with
  | [] => sret tt
  | (key, v) :: l' => run! set_loaded m key v in set_all_loaded m l'
  end.
Definition load_machine (only_persistent : bool) (st : PersistentStore) (m : ptr) : NM unit :=
  let! i := get m in
  let! wanted := (if negb only_persistent then sret true
                  else if bool_decide (i_type (fixed i) = "CONSTANT") then sret true else isPersistent ct m) in
  if wanted : bool then
    let! name := fullName m in
    match init_values st !! name with
    | Some values => set_all_loaded m (entries values)
    | None => sret tt
    end
  else sret tt.
Fixpoint load_machines (only_persistent : bool) (st : PersistentStore) (l : list ptr) : NM unit :=
  match l with
  | [] => sret tt
  | m :: l' => run! load_machine only_persistent st m in load_machines only_persistent st l'
  end.
Definition load_properties_file (file : option (list ascii)) (only_persistent : bool) (all_machines : list ptr) : NM unit :=
  let! st := tokenise (load_store file PersistentStore_new) in
  load_machines only_persistent st all_machines.

(** PERSISTENT STATUS: an item for each property of each persistent machine. *)
Definition status_item (name : string) (e : string * Value) : res cJSON :=
  addValueToJSONArray
    (cJSON_AddItemToArray (cJSON_AddItemToArray cJSON_CreateArray (cJSON_CreateString (chars name)))
       (cJSON_CreateString (chars (fst e)))) (snd e).
Fixpoint status_items (name : string) (l : list (string * Value)) (result : cJSON) : res cJSON :=
  match l with
  | [] => Ok result
  | e :: l' => it ← status_item name e; status_items name l' (cJSON_AddItemToArray result it)
  end.
Fixpoint status_machines (l : list ptr) (result : cJSON) : NM cJSON :=
  match l with
  | [] => sret result
  | m :: l' =>
      let! p := isPersistent ct m in
      if p : bool then
        let! name := fullName m in
        let! i := get m in
        let? r := status_items name (entries (st (properties i))) result in
        status_machines l' r
      else status_machines l' result
  end.
Definition IODCommandPersistentState_run (all_machines : list ptr) : NM (list ascii) :=
  let! result := status_machines all_machines cJSON_CreateArray in
  slift (cJSON_PrintUnformatted result).
End Machines.
