(* ===== verification/PersistenceProps.v ===== *)
(** What persistd was told survives a restart: the file it writes is read back. *)
From S2P Require Import Prelude Cnum Tokeniser Value SymbolTable ValueOps ValueProps Message Json MessageEncoding MessageEncodingProps Modbus MappingFile Machine Names Properties Persistence.
From Stdlib Require Import Ascii.
Open Scope Z_scope.
Local Open Scope sm_scope.

(** ** Values that can be kept *)
Definition number_like (l : list ascii) : bool := at_end (snd (strtol l)) || at_end (snd (strtod l)).
Definition between_quotes (l : list ascii) : bool :=
  match l with c :: _ => (code c =? 34) && (code (List.last l c) =? 34) | [] => false end.
(** Integers; strings of one line that are not empty, not a number, a truth value or a
    text in quotes; symbols of letters, digits, underscores and points. *)
Definition storable (v : Value) : Prop :=
  match kind v with
  | t_integer => exists z, iValue v = Some z /\ LONG_MIN <= z <= LONG_MAX
  | t_string => let l := chars (sValue v) in l <> [] /\ Forall (fun c => line_char c = true) l /\ between_quotes l = false /\
      number_like l = false /\ sValue v ∉ ["TRUE"; "FALSE"]
  | t_symbol => let l := chars (sValue v) in (exists c l', l = c :: l' /\ letter c = true /\ Forall (fun c => symbol_char c = true) l') /\
      number_like l = false /\ sValue v ∉ ["TRUE"; "FALSE"; "NULL"]
  | _ => False
  end.
(** [w] is [v] but for tokens. *)
Definition same (v w : Value) : Prop :=
  kind w = kind v /\ match kind v with t_integer => iValue w = iValue v | _ => sValue w = sValue v end.
Lemma same_refl v : same v v.
Proof. split; [done |]. by destruct (kind v). Qed.
Lemma same_trans u v w : same u v -> same v w -> same u w.
Proof. intros [K E] [K' E']. split; [congruence |]. rewrite K in E'. destruct (kind u); congruence. Qed.
Lemma same_assign u v w : storable v -> same v w -> same v (assign u w).
Proof.
  intros Sv [K E]. unfold storable in Sv. unfold same, assign in *. destruct (kind v); try done; rewrite K; cbn; split; congruence.
Qed.
Lemma same_storable v w : storable v -> same v w -> storable w.
Proof. intros Sv [K E]. unfold storable in *. rewrite K. destruct (kind v); try done; by rewrite E. Qed.

(** ** One entry *)
Definition value_line (v : Value) : list ascii :=
  match kind v with
  | t_integer => print_long (default 0 (iValue v))
  | t_string => [chr 34] ++ chars (sValue v) ++ [chr 34]
  | _ => chars (sValue v)
  end.
Definition line_of (machine key : string) (v : Value) : list ascii :=
  chars machine ++ [space] ++ chars key ++ [space] ++ value_line v.
Lemma chars_app a b : chars (a +:+ b)%string = chars a ++ chars b.
Proof. apply text_app. Qed.
Lemma symbol_char_line c : symbol_char c = true -> line_char c = true.
Proof. destruct c as [[] [] [] [] [] [] [] []]; vm_compute; try done; discriminate. Qed.
Lemma letter_symbol c : letter c = true -> symbol_char c = true.
Proof. unfold symbol_char. by intros ->. Qed.
Lemma symbol_no_quote c : symbol_char c = true -> (code c =? 34) = false.
Proof. destruct c as [[] [] [] [] [] [] [] []]; vm_compute; try done; discriminate. Qed.
Lemma symbol_no_space c : symbol_char c = true -> (code c =? 32) = false.
Proof. destruct c as [[] [] [] [] [] [] [] []]; vm_compute; try done; discriminate. Qed.
Lemma symbol_line l : Forall (fun c => symbol_char c = true) l -> Forall (fun c => line_char c = true) l.
Proof. apply List.Forall_impl, symbol_char_line. Qed.
Lemma symbol_matches c l : letter c = true -> Forall (fun c => symbol_char c = true) l -> symbol_pattern (c :: l) = true.
Proof.
  intros Hc Hl. unfold symbol_pattern, skip_quote at 1. rewrite symbol_no_quote by (by apply letter_symbol).
  by rewrite Hc, (span_all _ _ Hl).
Qed.
Lemma storable_symbol v : storable v -> kind v = t_symbol -> exists c l, chars (sValue v) = c :: l /\ letter c = true /\ Forall (fun c => symbol_char c = true) l /\
  number_like (chars (sValue v)) = false /\ sValue v ∉ ["TRUE"; "FALSE"; "NULL"].
Proof. intros Sv K. unfold storable in Sv. rewrite K in Sv. destruct Sv as ((c & l & Hl & Hc & Hs) & Hn & Ht). eauto 10. Qed.

Lemma print_long_chars z : Forall (fun c => line_char c = true) (print_long z).
Proof.
  unfold print_long. destruct (Z.ltb_spec z 0) as [Hz|Hz]; [constructor; [done |] |]; apply word_line, digits_word;
    first [apply print_nat_nonempty; lia | apply print_nat_sound; lia].
Qed.

Section Entry.
Context `{DynEnv} `{!Printing}.
Lemma entry_text_run prec v : storable v -> entry_text prec v = Ok (value_line v, prec).
Proof.
  intros Sv. unfold entry_text, value_line. destruct (kind v) eqn:K; unfold storable in Sv; rewrite K in Sv; try done.
  - destruct Sv as (z & E & _). unfold print_Value. by rewrite K, E.
  - destruct Sv as (Hn & Hl & Hb & _). unfold quoted, asString. destruct dyn_depth; cbn [asString_n]; rewrite K; cbn;
      (destruct (chars (sValue v)) as [|c l] eqn:Ec; [done |]); unfold between_quotes in Hb; rewrite <- negb_andb, Hb; cbn;
      by rewrite !chars_app, Ec.
  - destruct Sv as ((c & l & Ec & Hc & Hl) & _). assert (asString v = Ok (sValue v)) as ->.
    { unfold asString. destruct dyn_depth; cbn; by rewrite K. }
    cbn. rewrite Ec, c_str_line by (apply symbol_line; constructor; [by apply letter_symbol | done]).
    rewrite symbol_matches by done. cbn [orb]. unfold print_Value. by rewrite K, Ec.
Qed.
Lemma not_among (s : string) (r : list string) : s ∉ r -> forall x, x ∈ r -> bool_decide (s = x) = false.
Proof. intros Hs x Hx. apply bool_decide_eq_false. by intros ->. Qed.
Lemma unquoted_line v : storable v -> unquoted (value_line v) =
  (match kind v with t_string => t_string | _ => t_symbol end, match kind v with t_integer => print_long (default 0 (iValue v)) | _ => chars (sValue v) end).
Proof.
  intros Sv. unfold value_line. destruct (kind v) eqn:K; unfold storable in Sv; rewrite K in Sv; try done.
  - unfold unquoted. destruct (print_long _) as [|c l] eqn:E; [done |]. replace (code c =? 34) with false; [done |].
    symmetry. apply Z.eqb_neq. intros Hc. unfold print_long in E. destruct (Z.ltb_spec (default 0 (iValue v)) 0) as [|Hz]; [injection E as <- _; discriminate Hc |].
    destruct (print_nat_sound (default 0 (iValue v)) Hz) as [_ Ha]. rewrite E in Ha. inversion Ha as [|? ? Hd _]; subst.
    unfold is_digit in Hd. rewrite Hc in Hd. done.
  - destruct Sv as (Hn & _). unfold unquoted. cbn [app]. change (?a :: ?b ++ [?c]) with ((a :: b) ++ [c]).
    rewrite List.last_last. replace (2 <? length _)%nat with true.
    + cbn [code chr andb]. by rewrite List.removelast_last.
    + symmetry. apply Nat.ltb_lt. rewrite length_app. destruct (chars (sValue v)); [done |]. cbn. lia.
  - destruct Sv as ((c & l & -> & Hc & _) & _). unfold unquoted. by rewrite symbol_no_quote by (by apply letter_symbol).
Qed.
(** What a tokeniser still has room for. *)
Definition room (t : Tokeniser) (n : nat) : Prop := tok_wf t /\ Tokeniser.next t + Z.of_nat n <= INT_MAX.
Lemma print_long_not_literal z : bool_decide (str (print_long z) = "FALSE") || bool_decide (str (print_long z) = "TRUE") = false.
Proof.
  assert (Hx : forall c l, print_long z = c :: l -> code c <= 57).
  { intros c l. unfold print_long. destruct (Z.ltb_spec z 0) as [|Hz]; [intros [= <- _]; done |].
    destruct (print_nat_sound z Hz) as [_ Ha]. intros E. rewrite E in Ha. inversion Ha as [|? ? Hd _]; subst.
    unfold is_digit in Hd. lia. }
  destruct (print_long z) as [|c l]; [done |]. specialize (Hx c l eq_refl).
  rewrite !bool_decide_false; [done | intros [= -> _]; by apply Hx..].
Qed.
Lemma load_value_run v n t : storable v -> room t (S n) ->
  exists w t', load_value (value_line v) t = Ok (w, t') /\ same v w /\ room t' n /\ tok_ext t t'.
Proof.
  intros Sv [Hw Hn]. unfold load_value. rewrite unquoted_line by done. destruct (kind v) eqn:K; try (by unfold storable in Sv; rewrite K in Sv).
  - unfold storable in Sv. rewrite K in Sv. destruct Sv as (z & E & Hz). rewrite E. cbn [default]. rewrite print_long_not_literal.
    rewrite strtol_print_long by done. exists (Value_long z), t. split; [done |]. split; [by split; rewrite K | split; [split; [done | lia] | apply tok_ext_refl]].
  - unfold storable in Sv. rewrite K in Sv. destruct Sv as (_ & _ & _ & Hl & Ht). unfold number_like in Hl.
    rewrite str_chars, !(not_among _ _ Ht) by set_solver. cbn [orb].
    destruct (strtol _) as [i e1]. destruct (strtod _) as [d e2]. cbn [snd] in Hl. apply orb_false_iff in Hl as [-> ->].
    exists (mkString t_string (sValue v) 0), t. split; [done |]. split; [by split; rewrite K | split; [split; [done | lia] | apply tok_ext_refl]].
  - destruct (storable_symbol v Sv K) as (c & l & Ec & _ & _ & Hl & Ht). unfold number_like in Hl.
    rewrite str_chars, !(not_among _ _ Ht) by set_solver. cbn [orb].
    destruct (strtol _) as [i e1]. destruct (strtod _) as [d e2]. cbn [snd] in Hl. apply orb_false_iff in Hl as [-> ->].
    unfold Value_cstr. cbn [Kind_eqb andb]. rewrite bool_decide_false by (intros E; by rewrite E in Ec).
    rewrite !(not_among _ _ Ht) by set_solver. cbn [negb].
    destruct (getTokenId_defined (sValue v) t Hw ltac:(lia)) as (id & t' & E). rewrite (sbind_run _ _ _ _ _ E).
    exists (mkString t_symbol (sValue v) id), t'. split; [done |]. split; [by split; rewrite K |].
    pose proof (getTokenId_next _ _ _ _ E). destruct (getTokenId_inv _ _ _ _ Hw E) as (? & ? & _). split; [split; [done | lia] | done].
Qed.
(** The names are words and the line fits the buffer. *)
Record entry_ok (m k : string) (v : Value) : Prop := {
  eo_machine : word (chars m);
  eo_key : word (chars k);
  eo_value : storable v;
  eo_line : (length (line_of m k v) <= 399)%nat
}.
Lemma value_line_head v : storable v -> exists c l, value_line v = c :: l /\ (code c =? 32) = false.
Proof.
  intros Sv. unfold value_line. destruct (kind v) eqn:K; try (by unfold storable in Sv; rewrite K in Sv).
  - destruct (print_long _) as [|c l] eqn:E.
    + exfalso. unfold print_long in E. destruct (Z.ltb_spec (default 0 (iValue v)) 0) as [|Hz]; [done |]. by apply print_nat_nonempty in E.
    + exists c, l. split; [done |]. unfold print_long in E. destruct (Z.ltb_spec (default 0 (iValue v)) 0) as [|Hz]; [by injection E as <- _ |].
      destruct (print_nat_sound _ Hz) as [_ Ha]. rewrite E in Ha. inversion Ha as [|? ? Hd _]; subst. unfold is_digit in Hd. lia.
  - by eexists _, _.
  - destruct (storable_symbol v Sv K) as (c & l & -> & Hc & _). exists c, l. split; [done |]. by apply symbol_no_space, letter_symbol.
Qed.
Lemma value_line_chars v : storable v -> Forall (fun c => line_char c = true) (value_line v).
Proof.
  intros Sv. unfold value_line. destruct (kind v) eqn:K; try (by unfold storable in Sv; rewrite K in Sv).
  - apply print_long_chars.
  - unfold storable in Sv. rewrite K in Sv. destruct Sv as (_ & Hl & _). constructor; [done |]. apply Forall_app. split; [done | by repeat constructor].
  - destruct (storable_symbol v Sv K) as (c & l & -> & Hc & Hl & _). apply symbol_line. constructor; [by apply letter_symbol | done].
Qed.
End Entry.

(** ** The file *)
Definition value_at (st : PersistentStore) (m k : string) : option Value := vs ← init_values st !! m; vs !! k.
Lemma value_at_persist st m k v : value_at (persist m k v st) m k = Some (assign (default Value_empty (value_at st m k)) v).
Proof.
  unfold value_at, persist. cbn. rewrite lookup_insert_eq. cbn. unfold map_assign. rewrite lookup_insert_eq.
  by destruct (init_values st !! m).
Qed.
Lemma value_at_other st m k v m' k' : (m', k') <> (m, k) -> value_at (persist m k v st) m' k' = value_at st m' k'.
Proof.
  intros Hn. unfold value_at, persist. cbn. destruct (decide (m' = m)) as [-> | Hm].
  - rewrite lookup_insert_eq. cbn. unfold map_assign. rewrite lookup_insert_ne by congruence. destruct (init_values st !! m); [done | apply lookup_empty].
  - by rewrite lookup_insert_ne by congruence.
Qed.
(** The entries in the order of the file. *)
Definition Entry : Type := string * string * Value.
Definition listed (st : PersistentStore) : list Entry :=
  mv ← in_order (init_values st); (fun kv => (fst mv, fst kv, snd kv)) <$> entries (snd mv).
Definition ok_entry (e : Entry) : Prop := entry_ok (fst (fst e)) (snd (fst e)) (snd e).
Definition entry_line (e : Entry) : list ascii := line_of (fst (fst e)) (snd (fst e)) (snd e).
Definition file_text (l : list Entry) : list ascii := concat (map (fun e => entry_line e ++ [newline]) l).
Lemma elem_of_listed st m k v : (m, k, v) ∈ listed st <-> value_at st m k = Some v.
Proof.
  unfold listed, value_at. rewrite list_elem_of_bind. split.
  - intros ([m' vs] & Hk & Hm). apply list_elem_of_fmap in Hk as ([k' v'] & E & Hk). cbn in *. injection E as -> -> ->.
    apply elem_of_in_order in Hm. apply elem_of_entries in Hk. by rewrite Hm.
  - destruct (init_values st !! m) as [vs|] eqn:Em; [|done]. cbn. intros Ek. exists (m, vs).
    rewrite elem_of_in_order, list_elem_of_fmap. split; [|done]. exists (k, v). by rewrite elem_of_entries.
Qed.
Lemma NoDup_listed st : NoDup (fst <$> listed st).
Proof.
  unfold listed. pose proof (NoDup_keys (init_values st)) as Hk. rewrite <- in_order_keys in Hk. revert Hk.
  generalize (in_order (init_values st)) as l. induction l as [|[m vs] l IH]; intros Hk; [constructor |].
  cbn [fmap list_fmap fst] in Hk. apply list.NoDup_cons in Hk as [Hm Hk]. rewrite bind_cons, fmap_app. apply list.NoDup_app. split; [|split; [|by apply IH]].
  - rewrite <- list_fmap_compose. rewrite (list_fmap_ext _ ((fun k => (m, k)) ∘ fst)) by done. rewrite list_fmap_compose.
    apply NoDup_fmap_2; [by intros ? ? [= ->] | apply entries_NoDup].
  - intros [m' k] Ha Hb. apply Hm. apply list_elem_of_fmap in Ha as ([[? ?] ?] & E & ([? ?] & E' & _)%list_elem_of_fmap).
    apply list_elem_of_fmap in Hb as ([[? ?] ?] & Eb & Hb). apply list_elem_of_bind in Hb as ([m2 vs2] & Hb & H2).
    apply list_elem_of_fmap in Hb as ([? ?] & Eb' & _). cbn in *. simplify_eq. apply list_elem_of_fmap. by eexists (_, vs2).
Qed.

Section File.
Context `{DynEnv} `{!Printing}.
(** *** Writing *)
Lemma print_entries_run m l prec : Forall (fun kv => storable (snd kv)) l ->
  print_entries m l prec = Ok (file_text ((fun kv => (m, fst kv, snd kv)) <$> l), prec).
Proof.
  induction 1 as [|[k v] l Hv _ IH]; [done |]. cbn [print_entries]. rewrite entry_text_run by done. cbn. rewrite IH. cbn.
  do 2 f_equal. unfold file_text. cbn [fmap list_fmap map concat]. f_equal. unfold row, entry_line, line_of. cbn [fst snd app].
  repeat (rewrite <- app_assoc; cbn [app]). done.
Qed.
Lemma file_text_app a b : file_text (a ++ b) = file_text a ++ file_text b.
Proof. unfold file_text. by rewrite map_app, concat_app. Qed.
Lemma print_machines_run l prec : Forall (fun mv => Forall (fun kv => storable (snd kv)) (entries (snd mv))) l ->
  print_machines l prec = Ok (file_text (mv ← l; (fun kv => (fst mv, fst kv, snd kv)) <$> entries (snd mv))).
Proof.
  induction 1 as [|[m vs] l Hv _ IH]; [done |]. cbn [print_machines]. rewrite print_entries_run by done. cbn [mbind res_bind]. rewrite IH, bind_cons, file_text_app. done.
Qed.
Definition store_ok (st : PersistentStore) : Prop := forall m k v, value_at st m k = Some v -> entry_ok m k v.
Lemma store_ok_listed st : store_ok st -> Forall ok_entry (listed st).
Proof. intros Hs. apply list.Forall_forall. intros [[m k] v] He. apply elem_of_listed in He. by apply Hs. Qed.
Lemma save_run st : store_ok st -> save st = Ok (file_text (listed st)).
Proof.
  intros Hs. unfold save. apply print_machines_run. apply list.Forall_forall. intros [m vs] Hm. apply list.Forall_forall. intros [k v] Hk.
  apply elem_of_in_order in Hm. apply elem_of_entries in Hk. apply (eo_value m k). apply Hs. unfold value_at. by rewrite Hm.
Qed.

(** *** Reading *)
Lemma read_name_first w l : word w -> read_word (Some (w ++ space :: l)) = (w, Some (space :: l)).
Proof.
  intros Hw. pose proof (word_nonspace w Hw) as Hs. destruct w as [|c w]; [by destruct Hw |]. unfold read_word.
  inversion Hs as [|? ? Hc Hs']; subst. cbn [app]. rewrite skip_space by (by destruct (is_space c)). cbn [snd].
  change (c :: w ++ space :: l) with ((c :: w) ++ space :: l). by rewrite (span_app _ (c :: w) space l Hs eq_refl).
Qed.
Lemma read_name_next w l : word w -> read_word (Some (space :: w ++ space :: l)) = (w, Some (space :: l)).
Proof.
  intros Hw. rewrite <- (read_name_first w l Hw). unfold read_word.
  replace (snd (span is_space (space :: w ++ space :: l))) with (snd (span is_space (w ++ space :: l))); [done |].
  change (span is_space (space :: w ++ space :: l)) with (let '(a, b) := span is_space (w ++ space :: l) in (space :: a, b)).
  by destruct (span is_space (w ++ space :: l)).
Qed.
Lemma skip_one_space v : storable v -> snd (span (fun c => code c =? 32) (space :: value_line v)) = value_line v.
Proof. intros Sv. destruct (value_line_head v Sv) as (c & l & -> & Hc). cbn. by rewrite Hc. Qed.
Lemma entry_line_chars e : ok_entry e -> Forall (fun c => line_char c = true) (entry_line e).
Proof.
  intros [Hm Hk Hv _]. unfold entry_line, line_of. repeat (apply Forall_app; split); try (by repeat constructor); [by apply word_line.. | by apply value_line_chars].
Qed.
Lemma load_entry_run e st n t : ok_entry e -> room t (S n) ->
  exists w t', load_entry (entry_line e) st t = Ok (persist (fst (fst e)) (snd (fst e)) w st, t') /\ same (snd e) w /\ room t' n /\ tok_ext t t'.
Proof.
  destruct e as [[m k] v]. intros [Hm Hk Hv Hl] Hr. cbn [fst snd] in *. destruct (load_value_run v n t Hv Hr) as (w & t' & E & Hs & Hr').
  exists w, t'. split; [|done]. unfold load_entry, entry_line, line_of. cbn [fst snd app]. rewrite read_name_first, read_name_next by done.
  cbn [default]. change (id (space :: value_line v)) with (space :: value_line v). rewrite skip_one_space by done.
  rewrite (sbind_run _ _ _ _ _ E). by rewrite !str_chars.
Qed.
(** What reading entries leaves: their values, and the old ones of other properties. *)
Definition read_back (l : list Entry) (st st' : PersistentStore) : Prop := forall m k,
  (forall v, (m, k, v) ∈ l -> exists w, value_at st' m k = Some w /\ same v w) /\
  ((m, k) ∉ (fst <$> l) -> value_at st' m k = value_at st m k).
Lemma load_entries_run l st n t : Forall ok_entry l -> NoDup (fst <$> l) -> room t (length l + n) ->
  exists st' t', load_entries (map entry_line l) st t = Ok (st', t') /\ room t' n /\ read_back l st st' /\ tok_ext t t'.
Proof.
  intros Hl. revert st t. induction Hl as [|e l He Hl IH]; intros st t Hd Hr.
  { exists st, t. split; [done |]. split; [done |]. split; [|apply tok_ext_refl]. intros m k. split; [by intros v Hv%not_elem_of_nil | done]. }
  destruct (load_entry_run e st (length l + n) t He Hr) as (w & t1 & E1 & Hs & Hr1 & X1).
  cbn [fmap list_fmap] in Hd. apply list.NoDup_cons in Hd as [Hne Hd].
  destruct (IH (persist (fst (fst e)) (snd (fst e)) w st) t1 Hd Hr1) as (st2 & t2 & E2 & Hr2 & Hb & X2).
  exists st2, t2. split; [|split; [done | split; [|by eapply tok_ext_trans]]].
  - cbn [map load_entries]. rewrite (proj2 (Nat.leb_le _ _)) by apply He. rewrite c_str_line by (by apply entry_line_chars).
    by rewrite (sbind_run _ _ _ _ _ E1).
  - destruct e as [[m0 k0] v0]. cbn [fst snd] in *. intros m k. destruct (Hb m k) as [Hin Hout]. split.
    + intros v [E | Hv]%elem_of_cons; [|by apply Hin]. injection E as -> -> ->. rewrite Hout by done. rewrite value_at_persist. eexists. split; [done |].
      apply same_assign; [apply He | done].
    + cbn. rewrite not_elem_of_cons. intros [Hn Hk]. rewrite Hout by done. by apply value_at_other.
Qed.
Lemma lines_of_text l : Forall ok_entry l -> lines_of (file_text l) = map entry_line l.
Proof.
  induction 1 as [|e l He _ IH]; [done |]. unfold file_text. cbn [map concat]. rewrite <- app_assoc. cbn [app].
  rewrite lines_of_line by (by apply entry_line_chars). f_equal. exact IH.
Qed.
Lemma save_loads st n t : store_ok st -> room t (length (listed st) + n) ->
  exists f st' t', save st = Ok f /\ load_store (Some f) PersistentStore_new t = Ok (st', t') /\ room t' n /\ tok_ext t t' /\
    forall m k, option_Forall2 same (value_at st m k) (value_at st' m k).
Proof.
  intros Hs Hr. pose proof (store_ok_listed st Hs) as Hl.
  destruct (load_entries_run (listed st) PersistentStore_new n t Hl (NoDup_listed st) Hr) as (st' & t' & E & Hr' & Hb & X).
  exists (file_text (listed st)), (mkPersistent (init_values st') false), t'. split; [by apply save_run |]. split; [|split; [done | split; [done |]]].
  - unfold load_store. rewrite lines_of_text by done. by rewrite (sbind_run _ _ _ _ _ E).
  - intros m k. change (value_at (mkPersistent (init_values st') false) m k) with (value_at st' m k). destruct (Hb m k) as [Hin Hout].
    destruct (value_at st m k) as [v|] eqn:Ev.
    + destruct (Hin v) as (w & -> & Hw); [by apply elem_of_listed |]. by constructor.
    + rewrite Hout; [constructor |]. intros ([[m' k'] v] & E' & Hv)%list_elem_of_fmap. cbn in E'. injection E' as -> ->.
      apply elem_of_listed in Hv. congruence.
Qed.
End File.

(** ** persistd *)
Section Messages.
Context `{DynEnv} `{!Printing} `{!Libm}.
(** The message of a publisher about a change of a property (Channels.v). *)
Definition reports (e : Entry) (msg : list ascii) : Prop := exists nv kv,
  is_text (kind nv) = true /\ sValue nv = fst (fst e) /\ sendable nv /\
  is_text (kind kv) = true /\ sValue kv = snd (fst e) /\ sendable kv /\
  encodeCommand4 "PROPERTY" nv kv (snd e) Null = Ok msg.
Fixpoint persistd_messages (msgs : list (list ascii)) (st : PersistentStore) (file : option (list ascii))
    : SM Tokeniser (PersistentStore * option (list ascii)) :=
  match msgs with
  | [] => sret (st, file)
  | msg :: l => let! r := persistd_message msg st file in persistd_messages l (fst r) (snd r)
  end.
(** The value of the last change of a property, [old] if there is none. *)
Definition last_of (l : list Entry) (m k : string) (old : option Value) : option Value :=
  foldl (fun r e => if bool_decide (fst e = (m, k)) then Some (snd e) else r) old l.

Lemma text_value v t w : is_text (kind v) = true -> received t v w -> asString w = Ok (sValue v).
Proof.
  intros Ht [K E]. unfold asString. destruct (kind v) eqn:Kv; try done; destruct dyn_depth; cbn; rewrite K;
    first [by rewrite E | by destruct E as [-> _]].
Qed.
Lemma received_same t v w : storable v -> received t v w -> same v w.
Proof. intros Sv [K E]. split; [done |]. unfold storable in Sv. destruct (kind v); try done. by destruct E. Qed.
Lemma line_same m k v w : same v w -> line_of m k w = line_of m k v.
Proof. intros [K E]. unfold line_of, value_line. rewrite K. destruct (kind v); by rewrite ?E. Qed.
Lemma entry_ok_same m k v w : entry_ok m k v -> same v w -> entry_ok m k w.
Proof. intros [Hm Hk Hv Hl] Hs. split; [done | done | by eapply same_storable | by rewrite (line_same _ _ _ _ Hs)]. Qed.
Lemma store_ok_persist m k v w st : store_ok st -> entry_ok m k v -> same v w -> store_ok (persist m k w st).
Proof.
  intros Hst He Hs m' k' x. destruct (decide ((m', k') = (m, k))) as [E | Hn].
  - injection E as -> ->. rewrite value_at_persist. intros [= <-]. eapply entry_ok_same; [done |]. by apply same_assign; [apply He |].
  - rewrite value_at_other by done. apply Hst.
Qed.
Lemma encode_three nv kv v : Forall sendable [nv; kv; v] -> encodeCommand4 "PROPERTY" nv kv v Null = encodeCommand "PROPERTY" (Some [nv; kv; v]).
Proof.
  rewrite !list.Forall_cons. intros (? & ? & ? & _). unfold encodeCommand4, not_null. by rewrite (sendable_not_null nv), (sendable_not_null kv), (sendable_not_null v) by done.
Qed.
Lemma message_run e msg st file n t : store_ok st -> ok_entry e -> sendable (snd e) -> reports e msg -> room t (3 + n) ->
  exists w f t', persistd_message msg st file t = Ok ((persist (fst (fst e)) (snd (fst e)) w st, Some f), t') /\
    save (persist (fst (fst e)) (snd (fst e)) w st) = Ok f /\ same (snd e) w /\ room t' n.
Proof.
  destruct e as [[m k] v]. cbn [fst snd]. intros Hst He Hsv (nv & kv & Tn & En & Sn & Tk & Ek & Sk & Em) [Hw Hn].
  cbn [fst snd] in *. assert (Hf : Forall sendable [nv; kv; v]) by (by repeat constructor).
  destruct (command_decodes "PROPERTY" [nv; kv; v] t) as (msg' & vs & t' & Em' & Hd & Hr & Hw' & _ & Hn'); [by repeat constructor | done | done | done | cbn [length]; lia |].
  rewrite encode_three, Em' in Em by done. injection Em as ->.
  inversion Hr as [|? nv' ? l1 Rn Hr1]; subst. inversion Hr1 as [|? kv' ? l2 Rk Hr2]; subst. inversion Hr2 as [|? w ? l3 Rv Hr3]; subst. inversion Hr3; subst.
  pose proof (received_same _ _ _ (eo_value _ _ _ He) Rv) as Hs.
  pose proof (store_ok_persist _ _ _ _ _ Hst He Hs) as Hst'.
  eexists w, _, t'. split; [|split; [by apply save_run | split; [done | split; [done | cbn [length] in Hn'; lia]]]].
  unfold persistd_message. rewrite (sbind_run _ _ _ _ _ Hd), bool_decide_true by done.
  rewrite (slift_run _ _ _ _ (text_value _ _ _ Tn Rn)), (slift_run _ _ _ _ (text_value _ _ _ Tk Rk)).
  unfold saved. by rewrite (slift_run _ _ _ _ (save_run _ Hst')).
Qed.
Lemma option_same_trans a b c : option_Forall2 same a b -> option_Forall2 same b c -> option_Forall2 same a c.
Proof. intros [x y Hx|] Hc; inversion Hc; subst; constructor. by eapply same_trans. Qed.
Lemma last_of_same l m k a b : option_Forall2 same a b -> option_Forall2 same (last_of l m k a) (last_of l m k b).
Proof.
  unfold last_of. revert a b. induction l as [|e l IH]; intros a b Hab; [done |]. cbn. apply IH. case_bool_decide; [constructor; apply same_refl | done].
Qed.
Lemma messages_run l msgs st f n t : store_ok st -> save st = Ok f -> Forall2 reports l msgs -> Forall ok_entry l -> Forall (fun e => sendable (snd e)) l ->
  room t (3 * length l + n) ->
  exists st' f' t', persistd_messages msgs st (Some f) t = Ok ((st', Some f'), t') /\ store_ok st' /\ save st' = Ok f' /\ room t' n /\
    forall m k, option_Forall2 same (last_of l m k (value_at st m k)) (value_at st' m k).
Proof.
  intros Hst Hf Hr. revert st f t Hst Hf. induction Hr as [|e msg l msgs He _ IH]; intros st f t Hst Hf Hl Hs Ht.
  { exists st, f, t. split; [done |]. split; [done |]. split; [done |]. split; [done |]. intros m k. cbn. destruct (value_at st m k); constructor. apply same_refl. }
  apply list.Forall_cons in Hl as [Hle Hl]. apply list.Forall_cons in Hs as [Hse Hs].
  destruct (message_run e msg st (Some f) (3 * length l + n) t Hst Hle Hse He) as (w & f1 & t1 & E1 & Hf1 & Hw & Ht1).
  { replace (3 + (3 * length l + n))%nat with (3 * length (e :: l) + n)%nat by (cbn; lia). done. }
  destruct (IH (persist (fst (fst e)) (snd (fst e)) w st) f1 t1) as (st' & f' & t' & E & Hok & Hf' & Ht' & Hv); try done.
  { by eapply store_ok_persist. }
  exists st', f', t'. split; [cbn [persistd_messages]; by rewrite (sbind_run _ _ _ _ _ E1) |]. split; [done |]. split; [done |]. split; [done |].
  intros m k. eapply option_same_trans; [|apply Hv]. cbn [last_of foldl]. apply last_of_same. destruct e as [[m0 k0] v]. cbn [fst snd] in *. case_bool_decide as E0.
  - injection E0 as -> ->. rewrite value_at_persist. constructor. apply same_assign; [apply Hle | done].
  - rewrite value_at_other by congruence. destruct (value_at st m k); constructor. apply same_refl.
Qed.
End Messages.

(** C16: what persistd was told survives a restart: persistd, with a store that is in its
    file, handles any sequence of messages of a publisher about values that can be kept;
    whenever clockwork then loads the file it finds for every property the value of its
    last change, and the old value of a property that did not change, with the same kind
    and contents. The values of the old store and of the messages are [storable]: integers
    (in messages up to [2 ^ 53]), symbols of letters, digits, points and underscores that
    start with a letter, and texts of one line that are not empty and not in quotes, none
    of them a number, TRUE or FALSE, nor a symbol NULL; there are no truth values, floats
    or empty values. Names are words, lines have at most 399 characters and the tables of
    tokens have room. *)
Theorem persisted_changes_reload `{DynEnv} `{!Printing} `{!Libm} l msgs st f t t2 :
  store_ok st -> save st = Ok f -> Forall2 reports l msgs -> Forall ok_entry l -> Forall (fun e => sendable (snd e)) l ->
  room t (3 * length l) ->
  exists st1 f1 t1, persistd_messages msgs st (Some f) t = Ok ((st1, Some f1), t1) /\
    (room t2 (length (listed st1)) -> exists st2 t2', load_store (Some f1) PersistentStore_new t2 = Ok (st2, t2') /\
       forall m k, option_Forall2 same (last_of l m k (value_at st m k)) (value_at st2 m k)).
Proof.
  intros Hst Hf Hr Hl Hs Ht. rewrite (plus_n_O (3 * length l)) in Ht.
  destruct (messages_run l msgs st f O t Hst Hf Hr Hl Hs Ht) as (st1 & f1 & t1 & E & Hok & Hf1 & _ & Hv).
  exists st1, f1, t1. split; [done |]. intros Ht2. rewrite (plus_n_O (length (listed st1))) in Ht2.
  destruct (save_loads st1 O t2 Hok Ht2) as (f2 & st2 & t2' & Hf2 & E2 & _ & _ & Hv2). rewrite Hf1 in Hf2. injection Hf2 as <-.
  exists st2, t2'. split; [done |]. intros m k. by eapply option_same_trans.
Qed.

(** ** Samples *)
Definition plain_text : Printing := {| dynamic_text := fun _ => [] |}.
Definition sym (s : string) : Value := mkString t_symbol s 1.
Definition dial_store : PersistentStore := persist "dial" "VALUE" (Value_long 5) PersistentStore_new.
Definition sample_changes : list Entry :=
  [("dial", "VALUE", Value_long 42); ("panel", "title", mkString t_string "main door" 0); ("dial", "mode", sym "fast")].
Definition message_of (e : Entry) : list ascii :=
  match @encodeCommand4 no_dyn "PROPERTY" (sym (fst (fst e))) (sym (snd (fst e))) (snd e) Null with Ok m => m | _ => [] end.
Lemma sample_entry m k v : forallb word_char (chars m) && forallb word_char (chars k) = true -> m <> "" -> k <> "" -> storable v ->
  (length (line_of m k v) <=? 399)%nat = true -> entry_ok m k v.
Proof.
  intros [Hm Hk]%andb_true_iff Nm Nk Hv Hl. split; [| | done | by apply Nat.leb_le].
  - split; [by destruct m | by apply list.Forall_forall; intros c Hc; eapply forallb_forall in Hm; [| by apply list_elem_of_In]].
  - split; [by destruct k | by apply list.Forall_forall; intros c Hc; eapply forallb_forall in Hk; [| by apply list_elem_of_In]].
Qed.
Lemma dial_store_ok : store_ok dial_store.
Proof.
  intros m k v Hv. unfold dial_store in Hv. destruct (decide ((m, k) = ("dial", "VALUE"))) as [E | Hn].
  - injection E as -> ->. rewrite value_at_persist in Hv. injection Hv as <-. apply sample_entry; try done. by exists 5.
  - by rewrite value_at_other in Hv by done.
Qed.
Lemma sample_ok_entries : Forall ok_entry sample_changes.
Proof.
  apply list.Forall_cons_2; [|apply list.Forall_cons_2; [|apply list.Forall_cons_2; [|constructor]]]; apply sample_entry; try done.
  - by exists 42.
  - split; [done |]. split; [by repeat constructor |]. split; [done |]. split; [by vm_compute | cbn; set_solver].
  - split; [eexists _, _; split; [reflexivity |]; split; [done | by repeat constructor] |]. split; [by vm_compute | cbn; set_solver].
Qed.
Lemma sample_symbol s : MessageEncodingProps.plain s -> s ∉ ["TRUE"; "FALSE"; "NULL"] -> @sendable sample_libm (sym s).
Proof. intros Hs Hn. by split. Qed.
Lemma sample_sendables : Forall (fun e : Entry => @sendable sample_libm (snd e)) sample_changes.
Proof.
  apply list.Forall_cons_2; [|apply list.Forall_cons_2; [|apply list.Forall_cons_2; [|constructor]]].
  - exists 42. split; [done | lia].
  - cbn. by repeat constructor.
  - apply sample_symbol; [by repeat constructor | set_solver].
Qed.
Lemma sample_reports : Forall2 (@reports no_dyn sample_libm) sample_changes (map message_of sample_changes).
Proof.
  assert (H : forall e, e ∈ sample_changes -> MessageEncodingProps.plain (fst (fst e)) /\ (fst (fst e) ∉ ["TRUE"; "FALSE"; "NULL"]) /\ MessageEncodingProps.plain (snd (fst e)) /\ (snd (fst e) ∉ ["TRUE"; "FALSE"; "NULL"]) /\
    @encodeCommand4 no_dyn "PROPERTY" (sym (fst (fst e))) (sym (snd (fst e))) (snd e) Null = Ok (message_of e)).
  { intros e He. unfold sample_changes in He. rewrite !elem_of_cons, elem_of_nil in He.
    destruct He as [-> | [-> | [-> | []]]]; (split; [by repeat constructor | split; [cbn; set_solver | split; [by repeat constructor | split; [cbn; set_solver | by vm_compute]]]]). }
  revert H. generalize sample_changes as l. induction l as [|e l IH]; intros H; [constructor |]. constructor.
  - destruct (H e) as (P1 & N1 & P2 & N2 & E); [by left |]. exists (sym (fst (fst e))), (sym (snd (fst e))).
    split; [done |]. split; [done |]. split; [by apply sample_symbol |]. split; [done |]. split; [done |]. split; [by apply sample_symbol | done].
  - apply IH. intros e' He'. apply H. by right.
Qed.
Definition dial_file : list ascii := Eval vm_compute in match @save no_dyn plain_text dial_store with Ok f => f | _ => [] end.
Lemma persisted_changes_reload_w : exists st1 f1 t1,
  @persistd_messages no_dyn plain_text sample_libm (map message_of sample_changes) dial_store (Some dial_file) Tokeniser_new = Ok ((st1, Some f1), t1) /\
  (room Tokeniser_new (length (listed st1)) -> exists st2 t2, load_store (Some f1) PersistentStore_new Tokeniser_new = Ok (st2, t2) /\
    option_Forall2 same (Some (Value_long 42)) (value_at st2 "dial" "VALUE")).
Proof.
  destruct (@persisted_changes_reload no_dyn plain_text sample_libm sample_changes (map message_of sample_changes) dial_store dial_file Tokeniser_new Tokeniser_new
    dial_store_ok ltac:(by vm_compute) sample_reports sample_ok_entries sample_sendables ltac:(by split; [apply tok_wf_new | vm_compute; congruence]))
    as (st1 & f1 & t1 & E & Hl).
  exists st1, f1, t1. split; [exact E |]. intros Hr. destruct (Hl Hr) as (st2 & t2 & E2 & Hv). exists st2, t2. split; [exact E2 |].
  exact (Hv "dial" "VALUE").
Defined.
