(* ===== verification/PersistenceRestart.v ===== *)
(** A persistent machine whose values are asked for, saved, and loaded after a restart.
    A restart: persistent machines get the numbers that are in the file. *)
From S2P Require Import Prelude Cnum Tokeniser Value SymbolTable ValueOps ValueProps Message Json MessageEncoding MessageEncodingProps Modbus MappingFile Machine Names Properties NamesProps ExpressionProps PropertiesProps DynamicValuesProps Assignments AssignmentsProps Persistence PersistenceProps.
From Stdlib Require Import Ascii.
Open Scope Z_scope.
Local Open Scope sm_scope.

Definition dial_tok : Tokeniser := Eval vm_compute in
  match (sbind (getTokenId "PERSISTENT") (fun _ => getTokenId "true")) (snd tokens0) with Ok (_, t) => t | _ => Tokeniser_new end.
Definition dial_true : Value := mkString t_symbol "true" (default 0 (tokens dial_tok !! "true")).
Definition dial_class : MachineClass := sample_class "DIAL" 101 ["idle"].
Definition dial_with (l : list (string * Value)) : Store :=
  mkStore {[4%positive :=
    mkInstance (sample_fixed "dial" "DIAL" dial_class) [] [] ∅ (mkST (list_to_map (("PERSISTENT", dial_true) :: l)) ∅)
      "idle" true 0 Value_empty ∅ ∅ 0 false false 0]} {["dial" := 4%positive]} SymbolTable_new SymbolTable_new dial_tok [].
(** The answer to PERSISTENT STATUS, what persistd writes for it, and the properties of a
    new machine that loads this file. *)
Definition status_answer (l : list (string * Value)) : res (list ascii) :=
  fst <$> @IODCommandPersistentState_run no_dyn sample_clock ct0 [4%positive] (dial_with l).
Definition file_of_status (l : list (string * Value)) : res (option (list ascii)) :=
  a ← status_answer l; snd <$> (fst <$> @collect_status no_dyn plain_text sample_libm a PersistentStore_new None Tokeniser_new).
Definition after_restart (l : list (string * Value)) (fresh : list (string * Value)) (key : string) : res (option (Kind * option Z * string)) :=
  f ← file_of_status l;
  r ← @load_properties_file no_dyn sample_clock ct0 f true [4%positive] (dial_with fresh);
  i ← rd (heap (snd r) !! 4%positive);
  Ok (v ← st (properties i) !! key; Some (kind v, iValue v, sValue v)).
Example status_text : status_answer [("VALUE", Value_long 7)] =
  Ok (chars "[[" ++ [chr 34] ++ chars "dial" ++ [chr 34] ++ chars "," ++ [chr 34] ++ chars "PERSISTENT" ++ [chr 34] ++ chars "," ++ [chr 34] ++
      chars "true" ++ [chr 34] ++ chars "],[" ++ [chr 34] ++ chars "dial" ++ [chr 34] ++ chars "," ++ [chr 34] ++ chars "VALUE" ++ [chr 34] ++ chars ",7]]").
Proof. vm_compute. reflexivity. Qed.
Example value_restored : after_restart [("VALUE", Value_long 7)] [("VALUE", Value_long 0)] "VALUE" = Ok (Some (t_integer, Some 7, "")).
Proof. vm_compute. reflexivity. Qed.
Example sentence_restored : after_restart [("title", mkString t_string "main door" 0)] [("title", mkString t_string "none" 0)] "title" =
  Ok (Some (t_string, None, "main door")).
Proof. vm_compute. reflexivity. Qed.
(** A string of one word comes back as a symbol, a truth value as the symbol [true]: the
    answer has strings and symbols alike, and the loader knows [TRUE] only. *)
Example word_becomes_symbol : after_restart [("title", mkString t_string "door" 0)] [("title", mkString t_string "none" 0)] "title" =
  Ok (Some (t_symbol, None, "door")).
Proof. vm_compute. reflexivity. Qed.
Example truth_becomes_symbol : after_restart [("flag", Value_bool true)] [("flag", Value_bool false)] "flag" = Ok (Some (t_symbol, None, "true")).
Proof. vm_compute. reflexivity. Qed.
(** A property without a value leaves an item of two fields, and persistd reads the third. *)
Example empty_property_crashes : file_of_status [("VALUE", Value_empty)] = Undef.
Proof. vm_compute. reflexivity. Qed.
(** Texts that the file does not keep: the empty string, a number as a text. *)
Definition reloaded (v : Value) : res (option (Kind * option Z * string)) :=
  f ← @save no_dyn plain_text (persist "m" "p" v PersistentStore_new);
  r ← load_store (Some f) PersistentStore_new Tokeniser_new;
  Ok (w ← value_at (fst r) "m" "p"; Some (kind w, iValue w, sValue w)).
Example empty_string_changes : reloaded (mkString t_string "" 0) = Ok (Some (t_symbol, None, str [chr 34; chr 34])).
Proof. vm_compute. reflexivity. Qed.
Example digits_become_number : reloaded (mkString t_string "007" 0) = Ok (Some (t_integer, Some 7, "")).
Proof. vm_compute. reflexivity. Qed.
(** A line of 400 characters ends the reading of the file. *)
Example long_line_ends_loading :
  match load_store (Some (row "a" "p" (repeat (chr 97) 400) ++ row "b" "p" (chars "1"))) PersistentStore_new Tokeniser_new with
  | Ok (s, _) => bool_decide (init_values s = ∅) | _ => false end = true.
Proof. vm_compute. reflexivity. Qed.
(** After a zero, a small number is written with one digit. *)
Example small_number_cut :
  @save no_dyn plain_text (persist "m" "b" (Value_double (dec_float false 124 (-7))) (persist "m" "a" (Value_double fzero) PersistentStore_new)) =
  Ok (row "m" "a" (chars "0.0") ++ row "m" "b" (chars "1.2e-05")).
Proof. vm_compute. reflexivity. Qed.

Section Restart.
Context `{DynEnv} `{Clock}.
Variable ct : ClockworkToken.

(** ** Machines *)
(** A machine of its own name whose property PERSISTENT is true. *)
Record flagged (s : Store) (m : ptr) (i : MachineInstance) (c : MachineClass) : Prop := {
  fg_inst : heap s !! m = Some i;
  fg_class : state_machine (fixed i) = Some c;
  fg_variable : is_variable ct c = false;
  fg_global : global_references c !! "PERSISTENT" = None;
  fg_keyword : st (keywords s) !! "PERSISTENT" = None;
  fg_tok : tok_wf (tok s) /\ built_in ct (tok s) /\ is_Some (tokens (tok s) !! "PERSISTENT");
  fg_true : exists v id, st (properties i) !! "PERSISTENT" = Some v /\ kind v = t_symbol /\ token_id v = Some id /\ tokens (tok s) !! "true" = Some id;
  fg_owner : owner (fixed i) = None
}.
Lemma flagged_persistent s m i c : flagged s m i c -> (0 < call_depth)%nat -> isPersistent ct m s = Ok (true, s).
Proof.
  intros [E C V G K (Tw & B & [t T]) (v & id & Pv & Kv & Iv & Ti) _] Hd. unfold isPersistent.
  assert (R : getValue ct m "PERSISTENT" s = Ok (RProp m "PERSISTENT", s)).
  { unfold getValue. destruct call_depth as [|n]; [lia |]. apply (getValue_own ct n m "PERSISTENT" t c i v s); try done.
    - eapply other_token; [done | exact T | exact (bi_timer _ _ B) | done].
    - by rewrite Kv. }
  assert (Lv : load (RProp m "PERSISTENT") s = Ok (v, s)) by (unfold load; cbn; rewrite E; cbn; by rewrite Pv).
  rewrite (sbind_run _ _ _ _ _ R), (sbind_run _ _ _ _ _ Lv), (slift_run _ _ _ false) by (apply not_null; by rewrite Kv).
  assert (Ty : tokenise (Value_cstr "true" t_symbol) s = Ok (mkString t_symbol "true" id, s)).
  { apply tokenise_same. unfold Value_cstr. cbn [Kind_eqb andb negb]. rewrite !bool_decide_false by done. cbn [negb].
    unfold getTokenId. unfold sbind. rewrite Ti. done. }
  rewrite (sbind_run _ _ _ _ _ Ty). unfold slift.
  rewrite (value_eq_symbols v (mkString t_symbol "true" id) id id) by done. by rewrite Z.eqb_refl.
Qed.
(** Facts that a change of one property keeps. *)
Definition frame (m : ptr) (p : string) (i i' : MachineInstance) (s s' : Store) : Prop :=
  fixed i' = fixed i /\ tok s' = tok s /\ keywords s' = keywords s /\ (forall o, o <> m -> heap s' !! o = heap s !! o) /\
  (forall k, k <> p -> st (properties i') !! k = st (properties i) !! k).
Lemma own_number_frame s s' m i i' c p q z : own_number ct s m i c q z -> heap s' !! m = Some i' -> frame m p i i' s s' -> q <> p ->
  own_number ct s' m i' c q z.
Proof.
  intros [E C F G V A N K Sp Q O T Nv R] E' (Fi & Ft & Fk & L & X) Hq. split; rewrite ?Fi, ?Ft, ?Fk; try done.
  - intros o Ho. by eapply others_live; [exact E | exact E' | exact L | apply O].
  - by rewrite X.
Qed.
Lemma flagged_frame s s' m i i' c p : flagged s m i c -> heap s' !! m = Some i' -> frame m p i i' s s' -> p <> "PERSISTENT" -> flagged s' m i' c.
Proof. intros [E C V G K T N O] E' (Fi & Ft & Fk & L & X) Hp. split; rewrite ?Fi, ?Ft, ?Fk; try done. by rewrite X. Qed.
Lemma own_number_other s s' m i c q z : own_number ct s m i c q z -> heap s' !! m = Some i -> tok s' = tok s -> keywords s' = keywords s ->
  (forall o, is_Some (heap s !! o) -> is_Some (heap s' !! o)) -> own_number ct s' m i c q z.
Proof. intros [E C F G V A N K Sp Q O T Nv R] E' Ft Fk L. split; rewrite ?Ft, ?Fk; try done. intros o Ho. by apply L, O. Qed.
Lemma flagged_other s s' m i c : flagged s m i c -> heap s' !! m = Some i -> tok s' = tok s -> keywords s' = keywords s -> flagged s' m i c.
Proof. intros [E C V G K T N O] E' Ft Fk. split; by rewrite ?Ft, ?Fk. Qed.

(** ** Setting what was loaded *)
Definition numbers (l : list (string * Value)) : Prop := forall k v, (k, v) ∈ l -> k <> "PERSISTENT" /\ exists z, number v z /\ in_long z = true.
Lemma set_loaded_run s m i c k v old z : own_number ct s m i c k old -> (0 < call_depth)%nat -> number v z -> in_long z = true ->
  exists s' i', set_loaded ct m k v s = Ok (tt, s') /\ own_number ct s' m i' c k z /\ frame m k i i' s s'.
Proof.
  intros On Hd Nv Hz. destruct (set_number ct s m i c k old v z On Hd Nv Hz) as (s' & i' & R & On' & Hf).
  exists s', i'. split; [|done]. unfold set_loaded. destruct Nv as [-> _]. by rewrite (sbind_run _ _ _ _ _ R).
Qed.
Lemma set_all_run l s m i c : NoDup (fst <$> l) -> numbers l -> (0 < call_depth)%nat -> flagged s m i c ->
  (forall k v, (k, v) ∈ l -> exists old, own_number ct s m i c k old) ->
  exists s' i', set_all_loaded ct m l s = Ok (tt, s') /\ flagged s' m i' c /\ tok s' = tok s /\ keywords s' = keywords s /\
    fixed i' = fixed i /\ (forall o, o <> m -> heap s' !! o = heap s !! o) /\
    (forall k v z, (k, v) ∈ l -> number v z -> own_number ct s' m i' c k z) /\
    (forall k z, k ∉ (fst <$> l) -> own_number ct s m i c k z -> own_number ct s' m i' c k z).
Proof.
  intros Hnd Hn Hd. revert s i. induction l as [|[k v] l IH]; intros s i Hf Ho.
  { exists s, i. repeat (split; [done |]). split; [by intros ? ? ? ?%not_elem_of_nil | done]. }
  cbn [fmap list_fmap fst] in Hnd. apply list.NoDup_cons in Hnd as [Hk Hnd].
  destruct (Hn k v) as (Hp & z & Nv & Hz); [by left |]. destruct (Ho k v) as [old On]; [by left |].
  destruct (set_loaded_run s m i c k v old z On Hd Nv Hz) as (s1 & i1 & R1 & On1 & Fr).
  pose proof (on_inst _ _ _ _ _ _ _ On1) as E1. pose proof Fr as (Fi & Ft & Fk & L & X).
  assert (Hx : forall q w, (q, w) ∈ l -> q <> k).
  { intros q w Hq ->. apply Hk, list_elem_of_fmap. by exists (k, w). }
  destruct (IH Hnd) with (s := s1) (i := i1) as (s' & i' & R & Hf' & Ft' & Fk' & Fi' & L' & Hin & Hout).
  - intros q w Hq. apply Hn. by right.
  - by eapply flagged_frame.
  - intros q w Hq. destruct (Ho q w) as [oq Oq]; [by right |]. exists oq. eapply own_number_frame; [done | done | done | by eapply Hx].
  - exists s', i'. split; [cbn [set_all_loaded]; by rewrite (sbind_run _ _ _ _ _ R1) |]. split; [done |].
    split; [congruence |]. split; [congruence |]. split; [congruence |]. split; [intros o Hoo; by rewrite L', L |]. split.
    + intros q w y [E | Hq]%elem_of_cons Ny; [|by eapply Hin]. injection E as -> ->. apply Hout; [done |].
      destruct Nv as [_ Iv], Ny as [_ Iy]. rewrite Iv in Iy. injection Iy as ->. done.
    + cbn. intros q y [Hqk Hq]%not_elem_of_cons Oq. apply Hout; [done |]. by eapply own_number_frame.
Qed.

(** ** All machines *)
(** A persistent machine whose values in the store are numbers, of properties that are
    numbers. *)
Definition restorable (st : PersistentStore) (s : Store) (m : ptr) : Prop := exists i c, flagged s m i c /\
  forall k v, value_at st (i_name (fixed i)) k = Some v -> k <> "PERSISTENT" /\ (exists z, number v z /\ in_long z = true) /\
    exists old, own_number ct s m i c k old.
(** The numbers of the store are the values of the properties. *)
Definition restored (st : PersistentStore) (s0 s : Store) (m : ptr) : Prop := exists i0 i c, heap s0 !! m = Some i0 /\ heap s !! m = Some i /\
  fixed i = fixed i0 /\ forall k v z, value_at st (i_name (fixed i)) k = Some v -> number v z -> own_number ct s m i c k z.
Lemma stored_fullName_run s m i : heap s !! m = Some i -> owner (fixed i) = None -> (0 < call_depth)%nat -> fullName m s = Ok (i_name (fixed i), s).
Proof.
  intros E O Hd. unfold fullName. destruct call_depth as [|n]; [lia |]. cbn [fullName_n]. rewrite (sbind_run _ _ _ _ _ (get_run m i s E)), O.
  by rewrite string_app_nil_r.
Qed.
Lemma load_machine_run st s m : restorable st s m -> (0 < call_depth)%nat ->
  exists s', load_machine ct true st m s = Ok (tt, s') /\ restored st s s' m /\ tok s' = tok s /\ keywords s' = keywords s /\
    (forall o, o <> m -> heap s' !! o = heap s !! o) /\ is_Some (heap s' !! m).
Proof.
  intros (i & c & Hf & Hv) Hd. pose proof (fg_inst _ _ _ _ Hf) as E.
  unfold load_machine. rewrite (sbind_run _ _ _ _ _ (get_run m i s E)), (sbind_run _ _ s true s).
  2: { cbn [negb]. case_bool_decide; [done |]. by eapply flagged_persistent. }
  rewrite (sbind_run _ _ _ _ _ (stored_fullName_run s m i E (fg_owner _ _ _ _ Hf) Hd)). unfold value_at in Hv.
  destruct (init_values st !! i_name (fixed i)) as [vs|] eqn:Ev.
  - destruct (set_all_run (entries vs) s m i c) as (s' & i' & R & Hf' & Ft & Fk & Fi & L & Hin & _); try done.
    + apply entries_NoDup.
    + intros k v Hk. apply elem_of_entries in Hk. by destruct (Hv k v Hk) as (? & ? & _).
    + intros k v Hk. apply elem_of_entries in Hk. by destruct (Hv k v Hk) as (_ & _ & ?).
    + exists s'. split; [done |]. split; [|by repeat (split; [done |]); rewrite (fg_inst _ _ _ _ Hf')]. exists i, i', c. split; [done |]. split; [apply Hf' |]. split; [done |].
      intros k v z Hk Nz. unfold value_at in Hk. rewrite Fi, Ev in Hk. apply (Hin k v z); [by apply elem_of_entries | done].
  - exists s. split; [done |]. split; [|by repeat (split; [done |]); rewrite E]. exists i, i, c. split; [done |]. split; [done |]. split; [done |].
    intros k v z Hk. unfold value_at in Hk. by rewrite Ev in Hk.
Qed.
Lemma load_machines_run st l s : NoDup l -> Forall (restorable st s) l -> (0 < call_depth)%nat ->
  exists s', load_machines ct true st l s = Ok (tt, s') /\ Forall (restored st s s') l /\ tok s' = tok s /\ keywords s' = keywords s /\
    (forall o, o ∉ l -> heap s' !! o = heap s !! o) /\ (forall o, is_Some (heap s !! o) -> is_Some (heap s' !! o)).
Proof.
  intros Hnd Hl Hd. revert s Hl. induction Hnd as [|m l Hm Hnd IH]; intros s Hl; [by exists s |].
  apply list.Forall_cons in Hl as [Hr Hl]. destruct (load_machine_run st s m Hr Hd) as (s1 & R1 & Hm1 & Ft & Fk & L & Hs1).
  assert (Live : forall o, is_Some (heap s !! o) -> is_Some (heap s1 !! o)).
  { intros o Ho. destruct (decide (o = m)) as [-> | Hn]; [done | by rewrite L]. }
  destruct (IH s1) as (s' & R & Hr' & Ft' & Fk' & L' & Live').
  - apply list.Forall_forall. intros o Ho. eapply list.Forall_forall in Hl; [|exact Ho]. destruct Hl as (i & c & Hf & Hv).
    assert (Eo : heap s1 !! o = Some i) by (rewrite L; [apply Hf | by intros ->]).
    exists i, c. split; [by eapply flagged_other |]. intros k v Hk. destruct (Hv k v Hk) as (Hp & Hz & old & On).
    split; [done |]. split; [done |]. exists old. by eapply own_number_other.
  - exists s'. split; [cbn [load_machines]; by rewrite (sbind_run _ _ _ _ _ R1) |]. split; [|split; [congruence | split; [congruence | split]]].
    + constructor.
      2: { apply list.Forall_forall. intros o Ho. eapply list.Forall_forall in Hr'; [|exact Ho]. destruct Hr' as (i0 & i & c & E0 & Ei & Fi & Hv).
           exists i0, i, c. split; [|done]. rewrite <- E0. symmetry. apply L. by intros ->. }
      destruct Hm1 as (i0 & i & c & E0 & Ei & Fi & Hv). assert (Em : heap s' !! m = Some i) by (by rewrite L').
      exists i0, i, c. split; [done |]. split; [done |]. split; [done |]. intros k v z Hk Nz. eapply own_number_other; [by eapply Hv | done..].
    + intros o [Hom Hol]%not_elem_of_cons. by rewrite L', L.
    + intros o Ho. by apply Live', Live.
Qed.
Lemma restorable_tok st st2 s t2 m : restorable st s m -> (forall n k, option_Forall2 same (value_at st n k) (value_at st2 n k)) ->
  tok_ext (tok s) t2 -> tok_wf t2 -> restorable st2 (with_tok t2 s) m.
Proof.
  intros (i & c & [E C V G K (Tw & B & Tp) (v0 & id & Pv & Kv & Iv & Ti) O] & Hv) Hs Hx Hw. exists i, c. split.
  - split; try done.
    + cbn. split; [done |]. split; [by eapply built_in_ext |]. destruct Tp as [t Tp]. exists t. by eapply tok_ext_lookup.
    + exists v0, id. repeat (split; [done |]). by eapply tok_ext_lookup.
  - intros k w Hw2. pose proof (Hs (i_name (fixed i)) k) as Hk. rewrite Hw2 in Hk. inversion Hk as [v ? [Ks Es] Ev Ew|]; subst.
    destruct (Hv k v) as (Hp & (z & [Nk Ni] & Hz) & old & [E' C' F' G' V' A' N' K' Sp' Q' O' (T1 & T2 & [t T3]) Nv' R']); [done |].
    split; [done |]. split.
    + exists z. rewrite Nk in *. split; [|done]. split; congruence.
    + exists old. split; try done. cbn. split; [done |]. split; [by eapply built_in_ext |]. exists t. by eapply tok_ext_lookup.
Qed.
End Restart.


(** ** A sample *)
Definition dial_instance (l : list (string * Value)) : MachineInstance :=
  mkInstance (sample_fixed "dial" "DIAL" dial_class) [] [] ∅ (mkST (list_to_map (("PERSISTENT", dial_true) :: l)) ∅)
    "idle" true 0 Value_empty ∅ ∅ 0 false false 0.
Lemma dial_tok_wf : tok_wf dial_tok.
Proof. by apply tok_wf_check; vm_compute. Qed.
Lemma dial_number : own_number ct0 (dial_with [("VALUE", Value_long 0)]) 4%positive (dial_instance [("VALUE", Value_long 0)]) dial_class "VALUE" 0.
Proof.
  split; [done | done | done | done | done | done | by split | done | set_solver | by split; [|left] | done | | by eexists | done].
  split; [exact dial_tok_wf | split; [split; by vm_compute | by eexists; vm_compute]].
Qed.
Lemma dial_restorable : restorable ct0 dial_store (dial_with [("VALUE", Value_long 0)]) 4%positive.
Proof.
  exists (dial_instance [("VALUE", Value_long 0)]), dial_class. split.
  - split; try done.
    + split; [exact dial_tok_wf | split; [split; by vm_compute | by eexists; vm_compute]].
    + eexists _, _. split; [reflexivity |]. split; [done |]. split; [reflexivity | by vm_compute].
  - intros k v Hk. unfold dial_store in Hk. destruct (decide (k = "VALUE")) as [-> | Hn].
    + cbn in Hk. rewrite value_at_persist in Hk. injection Hk as <-. split; [done |]. split; [by exists 5 | eexists; exact dial_number].
    + cbn in Hk. rewrite value_at_other in Hk by congruence. done.
Qed.
