(* ===== verification/Shell.v ===== *)
(** The commands of the control shell: how a text becomes a command (parseCommandString of
    ClientInterface.cpp) and the commands on properties and names (IODCommands.cpp), on
    the store of Names.v. The commands that change machines are in ShellMachines.v. *)
From S2P Require Import Prelude Cnum Tokeniser Value SymbolTable ValueOps Message Json MessageEncoding Modbus Machine Names Properties Lists Persistence.
From Stdlib Require Import Ascii.
Open Scope Z_scope.
Local Open Scope sm_scope.

(** ** Commands *)
Inductive IODCommandKind :=
| IODCommandList | IODCommandGetStatus | IODCommandGetProperty | IODCommandModbusExport | IODCommandModbusRefresh | IODCommandModbusWrite
| IODCommandSetStatus | IODCommandDebugShow | IODCommandDebug | IODCommandTracing | IODCommandToggleEtherCAT | IODCommandToggle
| IODCommandSend | IODCommandQuit | IODCommandListJSON | IODCommandEnable | IODCommandResume | IODCommandDisable | IODCommandDescribe
| IODCommandBusy | IODCommandTriggers | IODCommandShow | IODCommandPerformance | IODCommandChannel | IODCommandChannels
| IODCommandChannelRefresh | IODCommandData | IODCommandProperty | IODCommandPersistentState | IODCommandHelp | IODCommandShowMessages
| IODCommandSchedulerState | IODCommandFind | IODCommandNotice | IODCommandInfo | IODCommandFreeze | IODCommandShutdown | IODCommandUnknown.
(** The result of [run] and the text of the answer, [result_str] or [error_str]. *)
Record Reply := mkReply { succeeded : bool; answer_text : string }.
Definition OK_reply : Reply := mkReply true "OK".

Section Parse.
Context `{DynEnv} `{!Libm}.
(** [params[i] == "text"]: the text is a symbol. *)
Definition param_is (params : list Value) (i : nat) (text : string) : SM Tokeniser bool :=
  let? v := rd (params !! i) in
  let! w := Value_cstr text t_symbol in
  slift (value_eq v w).
(** The words of a text, one by one. *)
Fixpoint words_n (fuel : nat) (s : option (list ascii)) : list (list ascii) :=
  match fuel with
  | O => []
  | S n => match read_word s with ([], _) => [] | (w, rest) => w :: words_n n rest end
  end.
Definition words (data : list ascii) : list (list ascii) := words_n (S (length data)) (Some data).
(** The parameters: those of a message, or the words; a text without words gives an
    empty one. *)
Definition text_param (w : list ascii) : Value := mkString t_string (str w) 0.
Definition command_params (data : list ascii) : SM Tokeniser (list Value) :=
  let! c := getCommand data in
  match c with
  | Some (ds, param_list) => sret (mkString t_string ds 0 :: default [] param_list)
  | None => sret (map text_param (match words data with [] => [[]] | l => l end))
  end.
(** The chain of conditions: on the first word and the number of parameters, and on other
    words. *)
Definition Choice_ : Type := bool * list (nat * string) * IODCommandKind.
Definition command_table (ds : string) (count : nat) : list Choice_ :=
  let word1 s := bool_decide (ds = s) in
  let n k := (count =? k)%nat in
  let least k := (k <=? count)%nat in
  [(n 1%nat && word1 "LIST", [], IODCommandList);
   (word1 "GET" && n 2%nat, [], IODCommandGetStatus);
   (word1 "GET" && n 3%nat, [], IODCommandGetProperty);
   (word1 "MODBUS" && (n 2%nat || n 3%nat), [(1%nat, "EXPORT")], IODCommandModbusExport);
   (word1 "MODBUS" && n 2%nat, [(1%nat, "REFRESH")], IODCommandModbusRefresh);
   (word1 "MODBUS", [], IODCommandModbusWrite);
   (least 4%nat && word1 "SET", [(2%nat, "TO")], IODCommandSetStatus);
   (least 3%nat && word1 "STATE", [], IODCommandSetStatus);
   (n 2%nat && word1 "DEBUG", [(1%nat, "SHOW")], IODCommandDebugShow);
   (n 3%nat && word1 "DEBUG", [], IODCommandDebug);
   (n 2%nat && word1 "TRACING", [], IODCommandTracing);
   (n 2%nat && word1 "TOGGLE", [(1%nat, "ETHERCAT")], IODCommandToggleEtherCAT);
   (n 2%nat && word1 "TOGGLE", [], IODCommandToggle);
   (word1 "SEND", [], IODCommandSend);
   (n 1%nat && word1 "QUIT", [], IODCommandQuit);
   (least 2%nat && word1 "LIST", [(1%nat, "JSON")], IODCommandListJSON);
   (n 2%nat && word1 "ENABLE", [], IODCommandEnable);
   (n 2%nat && word1 "RESUME", [], IODCommandResume);
   (n 4%nat && word1 "RESUME", [(2%nat, "AT")], IODCommandResume);
   (n 2%nat && word1 "DISABLE", [], IODCommandDisable);
   ((n 2%nat || n 3%nat) && word1 "DESCRIBE", [], IODCommandDescribe);
   (n 2%nat && word1 "SHOW", [(1%nat, "BUSY")], IODCommandBusy);
   (n 2%nat && word1 "SHOW", [(1%nat, "TRIGGERS")], IODCommandTriggers);
   (n 2%nat && word1 "SHOW", [], IODCommandShow);
   (word1 "STATS", [], IODCommandPerformance);
   (least 2%nat && word1 "CHANNEL", [], IODCommandChannel);
   (word1 "CHANNELS", [], IODCommandChannels);
   (word1 "REFRESH" && n 2%nat, [], IODCommandChannelRefresh);
   (least 3%nat && word1 "DATA", [], IODCommandData);
   (word1 "PROPERTY", [], IODCommandProperty);
   (word1 "PERSISTENT", [], IODCommandPersistentState);
   (word1 "HELP", [], IODCommandHelp);
   (word1 "MESSAGES", [], IODCommandShowMessages);
   (word1 "CLEAR" && n 2%nat, [(1%nat, "MESSAGES")], IODCommandShowMessages);
   (word1 "SCHEDULER", [], IODCommandSchedulerState);
   ((n 1%nat || n 2%nat) && word1 "FIND", [], IODCommandFind);
   (word1 "NOTICE", [], IODCommandNotice);
   (word1 "INFO", [], IODCommandInfo);
   (word1 "FREEZE", [], IODCommandFreeze);
   (word1 "SHUTDOWN", [], IODCommandShutdown)].
Fixpoint all_params (params : list Value) (tests : list (nat * string)) : SM Tokeniser bool :=
  match tests with
  | [] => sret true
  | (i, s) :: l => let! b := param_is params i s in if b : bool then all_params params l else sret false
  end.
Fixpoint choose_command (params : list Value) (l : list Choice_) : SM Tokeniser IODCommandKind :=
  match l with
  | [] => sret IODCommandUnknown
  | (cond, tests, k) :: l' =>
      if cond : bool then
        let! b := all_params params tests in if b : bool then sret k else choose_command params l'
      else choose_command params l'
  end.
Definition parseCommandString (data : list ascii) : SM Tokeniser (option (IODCommandKind * list Value)) :=
  let! params := command_params data in
  match params with
  | [] => sret None
  | p0 :: _ =>
      let? ds := asString p0 in
      let! k := choose_command params (command_table ds (length params)) in
      sret (Some (k, params))
  end.
End Parse.

(** ** Properties and names *)
Section Properties.
Context `{DynEnv} `{Clock} `{!Printing}.
(** The last result of a dynamic value, and the list of all machines. *)
Variable lastResult : dynref -> Value.
Variable ct : ClockworkToken.
Variable all_machines : list ptr.

(** [MachineInstance::find]. *)
Fixpoint first_with_name (name : string) (l : list ptr) : NM (option ptr) :=
  match l with
  | [] => sret None
  | m :: l' => let! i := get m in if bool_decide (i_name (fixed i) = name) then sret (Some m) else first_with_name name l'
  end.
Definition find_instance (name : string) : NM (option ptr) :=
  match split_dot name with
  | Some (machine, short) =>
      let! mi := first_with_name machine all_machines in
      match mi with Some m => lookup ct m short | None => sret None end
  | None => first_with_name name all_machines
  end.
Definition param_text (params : list Value) (i : nat) : res string := v ← rd (params !! i); asString v.
Definition found_by (params : list Value) : NM (option ptr) := let? n := param_text params 1 in find_instance n.
Definition refuse (txt : string) : NM Reply := sret (mkReply false txt).

(** GET machine property. *)
Definition GetProperty_run (params : list Value) : NM Reply :=
  let! m := found_by params in
  match m with
  | None => refuse "Error: Unknown device"
  | Some m =>
      if negb (length params =? 3)%nat then refuse "Error: usage is GET machine property" else
      let? p := param_text params 2 in
      let! r := getValue ct m p in
      let! v := load r in
      let? null := value_eq v Null in
      if null : bool then refuse "Error: property not found" else
      let? txt := (match kind v, dyn_value v with
                   | t_dynamic, Some d => asString (lastResult d)
                   | _, _ => asString v
                   end) in
      sret (mkReply true txt)
  end.

(** PROPERTY machine property value, with an authority on a channel. *)
Definition property_value_of (v : Value) : res Value :=
  match kind v with
  | t_string | t_symbol =>
      txt ← asString v;
      let '(x, p) := strtol (c_str (chars txt)) in
      Ok (if at_end p then Value_long x else v)
  | _ => Ok v
  end.
Definition Property_run (params : list Value) : NM Reply :=
  let! m := found_by params in
  match m with
  | None => let? n := param_text params 1 in refuse (str (snprintf_buf 200 (chars ("Unknown device: " +:+ n)%string)))
  | Some m =>
      if (5 <? length params)%nat then refuse "Usage: PROPERTY machine property value" else
      if negb ((length params =? 4)%nat || (length params =? 5)%nat) then refuse "Could not set property" else
      let? given := (match params !! 4%nat with Some a => asInteger a (Some 0) | None => Ok (false, Some 0) end) in
      let? authority := (if fst given : bool then rd (snd given) else Ok 0) in
      let! i := get m in
      if fst given && negb (authority =? 0) && negb (is_shadow (fixed i)) then
        refuse "Refusing to change property due to authorisation conflict" else
      let? key := param_text params 2 in
      let? v := rd (params !! 3%nat) in
      let? w := property_value_of v in
      let! changed := setValue ct m key w (u64 authority) in
      if changed : bool then sret OK_reply else refuse "Could not set property"
  end.

(** DATA list value ...: the values are appended to the list. *)
Fixpoint add_values `{!StateControl} (m : ptr) (l : list Value) : NM unit :=
  match l with
  | [] => sret tt
  | v :: l' => run! addParameter_value ct m (Names.plain v) None (-1) false in add_values m l'
  end.
Definition Data_run `{!StateControl} (params : list Value) : NM Reply :=
  let! m := found_by params in
  let? n := param_text params 1 in
  let unknown := refuse ("Unknown device: " +:+ n +:+ str [newline])%string in
  match m with
  | None => unknown
  | Some m =>
      let! i := get m in
      if bool_decide (i_type (fixed i) = "LIST") then run! add_values m (drop 2 params) in sret OK_reply
      else unknown
  end.

(** SHOW and FIND: the value of a machine if it has one, its state otherwise. *)
Definition own_lookup (m : ptr) (key : string) : NM Value :=
  let! i := get m in let! r := table_ref (RProp m key) key (properties i) in load r.
Definition disabled_mark (i : MachineInstance) : list ascii := if is_enabled i then [] else chars " [DISABLED]".
Definition status_line (prec : Z) (m : ptr) : NM (list ascii * Z) :=
  let! i := get m in
  let! val := own_lookup m "VALUE" in
  let? some_value := value_ne val Null in
  let? shown := (if some_value : bool then print_Value prec val else Ok (chars (current_state i), prec)) in
  sret (chars (i_name (fixed i)) ++ [space] ++ chars (i_type (fixed i)) ++ [space] ++ fst shown ++ disabled_mark i, snd shown).
Definition Show_run (params : list Value) : NM Reply :=
  if negb (length params =? 2)%nat then refuse "usage: SHOW machine" else
  let? n := param_text params 1 in
  fun s => (match machines s !! n with
   | Some m => let! l := status_line 6 m in sret (mkReply true (str (fst l)))
   | None => refuse (str (snprintf_buf 200 (chars ("Unknown device: " +:+ n)%string)))
   end) s.
Definition contains (l sub : list ascii) : bool := match rfind sub l with Some _ => true | None => false end.
Definition find_line (params : list Value) (prec : Z) (m : ptr) : NM (list ascii * Z) :=
  let! i := get m in
  let? by_name := (if (length params =? 1)%nat then Ok true else n ← param_text params 1; Ok (contains (chars (i_name (fixed i))) (chars n))) in
  if by_name : bool then let! l := status_line prec m in sret (fst l ++ [newline], snd l)
  else
    let? n := param_text params 1 in
    match state_machine (fixed i) with
    | Some c =>
        if contains (chars (c_name c)) (chars n) then
          sret (chars (i_name (fixed i)) ++ [space] ++ chars (i_type (fixed i)) ++ [space] ++ chars (current_state i) ++
                disabled_mark i ++ [newline], prec)
        else sret ([], prec)
    | None => sret ([], prec)
    end.
Fixpoint find_lines (params : list Value) (l : list (string * ptr)) (prec : Z) : NM (list ascii) :=
  match l with
  | [] => sret []
  | (_, m) :: l' =>
      let! r := find_line params prec m in
      let! rest := find_lines params l' (snd r) in
      sret (fst r ++ rest)
  end.
Definition Find_run (params : list Value) : NM Reply := fun s =>
  (let! txt := find_lines params (in_order (machines s)) 6 in sret (mkReply true (str txt))) s.

(** LIST. *)
Fixpoint list_lines (l : list ptr) (prec : Z) : NM (list ascii) :=
  match l with
  | [] => sret []
  | m :: l' =>
      let! name := fullName m in
      let! i := get m in
      let! tab := (if bool_decide (i_type (fixed i) = "POINT") then
                     let! v := own_lookup m "tab" in
                     let? p := print_Value prec v in sret ([space] ++ fst p, snd p)
                   else sret ([], prec)) in
      let! rest := list_lines l' (snd tab) in
      sret (chars name ++ [space] ++ chars (i_type (fixed i)) ++ fst tab ++ [newline] ++ rest)
  end.
Definition List_run : NM Reply := let! txt := list_lines all_machines 6 in sret (mkReply true (str txt)).

(** The thread that handles commands answers with the result or the error; the commands of
    this file. *)
Definition store_command `{!StateControl} (k : IODCommandKind) (params : list Value) : option (NM Reply) :=
  match k with
  | IODCommandGetProperty => Some (GetProperty_run params)
  | IODCommandProperty => Some (Property_run params)
  | IODCommandData => Some (Data_run params)
  | IODCommandShow => Some (Show_run params)
  | IODCommandFind => Some (Find_run params)
  | IODCommandList => Some List_run
  | _ => None
  end.
Definition store_answer `{!StateControl} `{!Libm} (data : list ascii) : NM (option string) :=
  let! c := tokenise (parseCommandString data) in
  match c with
  | Some (k, params) =>
      match store_command k params with
      | Some run => let! r := run in sret (Some (answer_text r))
      | None => sret None
      end
  | None => sret None
  end.
End Properties.

(** ** Texts of several parameters *)
Section Texts.
Context `{DynEnv} `{!Printing}.
(** The words of a text with a space between two. *)
Fixpoint joined (l : list string) : string :=
  match l with [] => "" | [s] => s | s :: l' => (s +:+ " " +:+ joined l')%string end.
(** Parameters are written with [<<], strings in quotes. *)
Fixpoint printed_n (prec : Z) (params : list Value) : res (list string) :=
  match params with
  | [] => Ok []
  | v :: l => '(txt, prec1) ← print_Value prec v; ts ← printed_n prec1 l; Ok (str txt :: ts)
  end.
Definition printed (params : list Value) : res string := ts ← printed_n 6 params; Ok (joined ts).
End Texts.
