(* ===== verification/ShellProps.v ===== *)
(** A number set by PROPERTY is answered by GET. *)
From S2P Require Import Prelude Cnum Tokeniser Value SymbolTable ValueOps ValueProps Message Json MessageEncoding MessageEncodingProps Modbus MappingFile Machine Names Properties Lists Persistence PersistenceProps NamesProps PropertiesProps ExpressionProps DynamicValuesProps Assignments AssignmentsProps Shell.
From Stdlib Require Import Ascii.
Open Scope Z_scope.
Local Open Scope sm_scope.

(** ** Words *)
Fixpoint line_of_words (l : list (list ascii)) : list ascii :=
  match l with [] => [] | [w] => w | w :: l' => w ++ space :: line_of_words l' end.
Lemma read_last w : word w -> read_word (Some w) = (w, Some []).
Proof.
  intros Hw. pose proof (word_nonspace w Hw) as Hs. destruct w as [|c w]; [by destruct Hw |]. unfold read_word.
  inversion Hs as [|? ? Hc Hs']; subst. rewrite skip_space by (by destruct (is_space c)). cbn [snd].
  by rewrite (span_all _ (c :: w) Hs).
Qed.
Lemma read_spaced l : read_word (Some (space :: l)) = read_word (Some l).
Proof.
  unfold read_word. change (span is_space (space :: l)) with (let '(a, b) := span is_space l in (space :: a, b)). by destruct (span is_space l).
Qed.
Lemma words_n_line n l : Forall word l -> (length l <= n)%nat -> words_n n (Some (space :: line_of_words l)) = l /\ words_n n (Some (line_of_words l)) = l.
Proof.
  intros Hl. revert n. induction Hl as [|w l Hw Hl IH]; intros n Hn.
  - destruct n; done.
  - destruct n as [|n]; [cbn in Hn; lia |]. cbn [length] in Hn. apply le_S_n in Hn. cbn [words_n]. rewrite read_spaced.
    enough (words_n (S n) (Some (line_of_words (w :: l))) = w :: l) as Hx by (by split). cbn [words_n].
    destruct l as [|w2 l].
    + cbn [line_of_words]. rewrite read_last by done. destruct w; [by destruct Hw |]. f_equal. by destruct n.
    + change (line_of_words (w :: w2 :: l)) with (w ++ space :: line_of_words (w2 :: l)). rewrite read_name_first by done.
      destruct w; [by destruct Hw |]. f_equal. by apply IH.
Qed.
Lemma line_length l : Forall word l -> (length l <= S (length (line_of_words l)))%nat.
Proof.
  induction 1 as [|w l Hw Hl IH]; [cbn; lia |]. destruct w as [|c w]; [by destruct Hw |]. destruct l as [|w2 l]; [cbn; lia |].
  change (line_of_words ((c :: w) :: w2 :: l)) with ((c :: w) ++ space :: line_of_words (w2 :: l)). rewrite length_app. cbn [length] in *. lia.
Qed.
Lemma words_line l : Forall word l -> words (line_of_words l) = l.
Proof. intros Hl. apply words_n_line; [done | by apply line_length]. Qed.

(** ** Parsing *)
Section Lines.
Context `{DynEnv} `{!Libm}.
Lemma number_word z : word (print_long z).
Proof.
  split.
  - unfold print_long. destruct (Z.ltb_spec z 0); [done |]. by apply print_nat_nonempty.
  - unfold print_long. destruct (Z.ltb_spec z 0); [constructor; [done |] |]; apply digits_word; first [apply print_nat_nonempty; lia | apply print_nat_sound; lia].
Qed.
Lemma PROPERTY_not_json l t : getCommand (chars "PROPERTY" ++ space :: l) t = Ok (None, t).
Proof. reflexivity. Qed.
Lemma GET_not_json l t : getCommand (chars "GET" ++ space :: l) t = Ok (None, t).
Proof. reflexivity. Qed.
Definition property_line (name p : string) (z : Z) : list ascii := line_of_words [chars "PROPERTY"; chars name; chars p; print_long z].
Definition get_line (name p : string) : list ascii := line_of_words [chars "GET"; chars name; chars p].
Definition texts (l : list (list ascii)) : list Value := map text_param l.
Lemma keyword_word s : forallb word_char (chars s) = true -> s <> "" -> word (chars s).
Proof. intros Hf Hn. split; [by destruct s |]. apply list.Forall_forall. intros c Hc. eapply forallb_forall in Hf; [done | by apply list_elem_of_In]. Qed.
Lemma text_asString w : asString (text_param w) = Ok (str w).
Proof. unfold asString. by destruct dyn_depth. Qed.
Lemma property_parsed name p z t : word (chars name) -> word (chars p) ->
  parseCommandString (property_line name p z) t = Ok (Some (IODCommandProperty, texts [chars "PROPERTY"; chars name; chars p; print_long z]), t).
Proof.
  intros Hn Hp. unfold parseCommandString, command_params. unfold property_line at 1. cbn [line_of_words].
  rewrite (sbind_run _ _ _ (texts [chars "PROPERTY"; chars name; chars p; print_long z]) t).
  - cbn [texts map]. rewrite (slift_run _ _ _ _ (text_asString _)). reflexivity.
  - rewrite (sbind_run _ _ _ _ _ (PROPERTY_not_json _ t)). unfold property_line. rewrite words_line; [done |].
    repeat (apply list.Forall_cons_2; [first [done | apply number_word | by apply keyword_word] |]). constructor.
Qed.
Lemma get_parsed name p t : word (chars name) -> word (chars p) ->
  parseCommandString (get_line name p) t = Ok (Some (IODCommandGetProperty, texts [chars "GET"; chars name; chars p]), t).
Proof.
  intros Hn Hp. unfold parseCommandString, command_params. unfold get_line at 1. cbn [line_of_words].
  rewrite (sbind_run _ _ _ (texts [chars "GET"; chars name; chars p]) t).
  - cbn [texts map]. rewrite (slift_run _ _ _ _ (text_asString _)). reflexivity.
  - rewrite (sbind_run _ _ _ _ _ (GET_not_json _ t)). unfold get_line. rewrite words_line; [done |].
    repeat (apply list.Forall_cons_2; [first [done | by apply keyword_word] |]). constructor.
Qed.
End Lines.

(** ** Setting and asking *)
Section Shell.
Context `{DynEnv} `{Clock} `{!Printing} `{!StateControl} `{!Libm}.
Variable lastResult : dynref -> Value.
Variable ct : ClockworkToken.

(** The machine is the first of its name. *)
Definition first_of (s : Store) (name : string) (all : list ptr) (m : ptr) : Prop :=
  exists before after, all = before ++ m :: after /\ Forall (fun o => o <> m /\ exists i, heap s !! o = Some i /\ i_name (fixed i) <> name) before.
Lemma first_found s name all m i : first_of s name all m -> heap s !! m = Some i -> i_name (fixed i) = name ->
  first_with_name name all s = Ok (Some m, s).
Proof.
  intros (before & after & -> & Hb) Em Hn. induction Hb as [|o l (_ & io & Eo & Ho) _ IH]; cbn [app first_with_name].
  - rewrite (sbind_run _ _ _ _ _ (get_run m i s Em)). by rewrite bool_decide_true.
  - rewrite (sbind_run _ _ _ _ _ (get_run o io s Eo)). by rewrite bool_decide_false.
Qed.
Lemma first_kept s s' name all m : first_of s name all m -> (forall o, o <> m -> heap s' !! o = heap s !! o) -> first_of s' name all m.
Proof.
  intros (b & a & E & Hb) L. exists b, a. split; [done |]. eapply list.Forall_impl; [exact Hb |]. intros o (Hn & io & Eo & Ho).
  split; [done |]. exists io. by rewrite L.
Qed.
Lemma found_run s name all m i ws : first_of s name all m -> heap s !! m = Some i -> i_name (fixed i) = name -> split_dot name = None ->
  ws !! 1%nat = Some (chars name) -> found_by ct all (texts ws) s = Ok (Some m, s).
Proof.
  intros Hf Em Hn Hd Hw. unfold found_by. rewrite (slift_run _ _ _ name).
  - unfold find_instance. rewrite Hd. by eapply first_found.
  - unfold param_text, texts. rewrite list_lookup_fmap, Hw. cbn. rewrite text_asString. by rewrite str_chars.
Qed.
Lemma number_asString v z : number v z -> LONG_MIN <= z <= LONG_MAX -> asString v = Ok (str (print_long z)).
Proof.
  intros [K I] Hz. unfold asString. destruct dyn_depth; cbn; rewrite K, I; cbn; unfold snprintf_buf; rewrite take_ge; try done;
    pose proof (print_long_length z Hz); lia.
Qed.
Lemma property_value_number z : LONG_MIN <= z <= LONG_MAX -> property_value_of (text_param (print_long z)) = Ok (Value_long z).
Proof.
  intros Hz. unfold property_value_of. cbn [kind text_param mkString]. rewrite text_asString. cbn [mbind res_bind].
  unfold text_param, str, chars. rewrite String.list_ascii_of_string_of_list_ascii, c_str_print_long, strtol_print_long by done. done.
Qed.
Lemma property_run s name all m i c p old z : own_number ct s m i c p old -> (0 < call_depth)%nat -> first_of s name all m ->
  i_name (fixed i) = name -> split_dot name = None -> in_long z = true ->
  exists s' i', Property_run ct all (texts [chars "PROPERTY"; chars name; chars p; print_long z]) s = Ok (OK_reply, s') /\
    own_number ct s' m i' c p z /\ first_of s' name all m /\ i_name (fixed i') = name.
Proof.
  intros On Hd Hf Hn Hs Hz. pose proof (on_inst _ _ _ _ _ _ _ On) as Em.
  destruct (set_number ct s m i c p old (Value_long z) z On Hd) as (s' & i' & R & On' & F' & _ & _ & L & _); [done | done |].
  exists s', i'. split; [|split; [done | split; [by eapply first_kept | by rewrite F']]].
  unfold Property_run. rewrite (sbind_run _ _ _ _ _ (found_run s name all m i [chars "PROPERTY"; chars name; chars p; print_long z] Hf Em Hn Hs eq_refl)).
  cbn [texts map length Nat.ltb Nat.leb Nat.eqb orb negb lookup list_lookup].
  rewrite (slift_run _ _ _ (false, Some 0)) by done. cbn [fst]. rewrite (slift_run _ _ _ 0) by done. rewrite (sbind_run _ _ _ _ _ (get_run m i s Em)). cbn [andb].
  rewrite (slift_run _ _ _ p) by (unfold param_text; cbn; rewrite text_asString; by rewrite str_chars).
  rewrite (slift_run _ _ _ (text_param (print_long z))) by done. rewrite (slift_run _ _ _ _ (property_value_number z (proj1 (in_long_spec z) Hz))).
  change (u64 0) with 0. by rewrite (sbind_run _ _ _ _ _ R).
Qed.
Lemma get_run_number s name all m i c p z : own_number ct s m i c p z -> (0 < call_depth)%nat -> first_of s name all m ->
  i_name (fixed i) = name -> split_dot name = None ->
  GetProperty_run lastResult ct all (texts [chars "GET"; chars name; chars p]) s = Ok (mkReply true (str (print_long z)), s).
Proof.
  intros On Hd Hf Hn Hs. pose proof (on_inst _ _ _ _ _ _ _ On) as Em.
  destruct (read_number ct s m i c p z On Hd) as (v & R & Lv & Nv).
  unfold GetProperty_run. rewrite (sbind_run _ _ _ _ _ (found_run s name all m i [chars "GET"; chars name; chars p] Hf Em Hn Hs eq_refl)).
  cbn [texts map length Nat.eqb negb].
  rewrite (slift_run _ _ _ p) by (unfold param_text; cbn; rewrite text_asString; by rewrite str_chars).
  rewrite (sbind_run _ _ _ _ _ R), (sbind_run _ _ _ _ _ Lv), (slift_run _ _ _ _ (proj1 (not_null v (number_kind _ _ Nv)))).
  pose proof (on_range _ _ _ _ _ _ _ On) as Hz%in_long_spec.
  rewrite (slift_run _ _ _ (str (print_long z))); [done |]. destruct Nv as [K I]. rewrite K. by apply number_asString.
Qed.
End Shell.


(** ** A sample: the machine that counts *)
Definition still : StateControl := {| setState := fun _ _ => sret tt |}.
Definition asked (line : string) : res (option string) :=
  fst <$> @store_answer no_dyn sample_clock plain_text (fun _ => Value_empty) ct0 [4%positive] still sample_libm (chars line) counting_store.
Example list_answer : asked "LIST" = Ok (Some ("counter COUNTER" +:+ str [newline])%string).
Proof. vm_compute. reflexivity. Qed.
Example show_answer : asked "SHOW counter" = Ok (Some "counter COUNTER idle").
Proof. vm_compute. reflexivity. Qed.
Example find_answer : asked "FIND COUNT" = Ok (Some ("counter COUNTER idle" +:+ str [newline])%string).
Proof. vm_compute. reflexivity. Qed.
Example unknown_answer : asked "GET nobody count" = Ok (Some "Error: Unknown device").
Proof. vm_compute. reflexivity. Qed.
