(* ===== verification/ShellMachines.v ===== *)
(** The commands of the control shell that change machines (IODCommands.cpp): SET and STATE,
    ENABLE, DISABLE, RESUME, TOGGLE, SEND and texts that another machine handles.
    What the shell answers when it cannot do what it was asked: a shadow that is sent to a
    state it does not have, and messages that were routed to a machine. *)
From S2P Require Import Prelude Cnum Tokeniser Value SymbolTable MessageEncodingProps Names Persistence Shell ShellProps Message Json MessageEncoding Modbus MappingFile Handlers Machine MachineProps StableStates Transitions TransitionsProps TransitionOrder Control MachineActions MachineActionsProps.
Open Scope Z_scope.
Local Open Scope sm_scope.

(** What the commands ask of the devices: the component of a name, whether it is an output,
    the number of its bits, its value, and whether it is on or off. [message_handlers] is
    the table of messages that were routed to a machine. *)
Class Devices := {
  lookup_device : string -> option ptr;
  is_output : ptr -> bool;
  device_bits : ptr -> Z;
  device_value : ptr -> TWorld -> Z;
  device_on : ptr -> TWorld -> bool;
  device_off : ptr -> TWorld -> bool;
  message_handlers : gmap string string
}.

Section Commands.
Variable tk : ClockworkToken.
Context `{DynEnv} `{!Reactions} `{!Hub} `{!Virtuals} `{!MachineActions.Scope} `{!Devices}.
(** All machines, and a bound for the depth of related machines. *)
Variable all_machines : list ptr.
Variable depth : nat.

Definition failed (txt : string) : TM Reply := sret (mkReply false txt).
Definition well : TM Reply := sret OK_reply.
Definition text_at (params : list Value) (i : nat) : TM string := slift (param_text params i).
(** [params[i] == "text"]. *)
Definition word_is (params : list Value) (i : nat) (txt : string) : TM bool := tokenise (param_is params i txt).
(** [MachineInstance::find]. *)
Fixpoint first_machine (name : string) (l : list ptr) : TM (option ptr) :=
  match l with
  | [] => sret None
  | m :: l' => let! n := mname m in if bool_decide (n = name) then sret (Some m) else first_machine name l'
  end.
Definition find_by_name (name : string) : TM (option ptr) :=
  match split_dot name with
  | Some (machine, rest) =>
      let! mi := first_machine machine all_machines in
      match mi with Some m => lookup_machine m rest | None => sret None end
  | None => first_machine name all_machines
  end.
Definition output_named (name : string) : option ptr :=
  match lookup_device name with Some d => if is_output d then Some d else None | None => None end.

(** GET machine. *)
Definition GetStatus_run (params : list Value) : TM Reply :=
  if negb (length params =? 2)%nat then failed "" else
  let! ds := text_at params 1 in
  match lookup_device ds with
  | Some d =>
      let! w := world in
      let number := if 1 <? device_bits d then snprintf_buf 9 (chars "(" ++ print_long (device_value d w) ++ chars ")") else [] in
      sret (mkReply true (io_state d +:+ str number)%string)
  | None =>
      let! m := find_by_name ds in
      match m with
      | Some m => let! s := get_site m in sret (mkReply true (s_text (Transitions.current_state s)))
      | None => failed "Not Found"
      end
  end.

(** SET machine TO state and STATE machine state, with an authority. *)
Definition authority_at (params : list Value) (i : nat) : TM Z :=
  let? v := rd (params !! i) in
  let? a := asInteger v None in
  if fst a then let? z := rd (snd a) in sret (u64 z) else sret 0.
Definition status_params (params : list Value) : TM (option (string * string * Z)) :=
  let n := length params in
  let! to := (if (n =? 5)%nat then sret true else if (n =? 4)%nat then word_is params 2 "TO" else sret false) in
  if to : bool then
    let! ds := text_at params 1 in
    let! st := text_at params 3 in
    let! a := (if (n =? 5)%nat then authority_at params 4 else sret 0) in sret (Some (ds, st, a))
  else if (n =? 3)%nat || (n =? 4)%nat then
    let! ds := text_at params 1 in
    let! st := text_at params 2 in
    let! a := (if (n =? 4)%nat then authority_at params 3 else sret 0) in sret (Some (ds, st, a))
  else sret None.
(** [setState (const char *, ...)]: a state that the class does not have is an error. *)
Definition setState_name (m : ptr) (name : string) (authority : Z) (resume : bool) : TM Status :=
  let! x := machine m in
  match state_machine x with
  | None => run! record (ELog m) in sret Failed
  | Some _ =>
      let! s := get_site m in
      match findState_name name (class_states s) with
      | None => run! record (ELog m) in sret Failed
      | Some st => setState tk m st authority resume
      end
  end.
(** [enqueueAction] of SET SELF TO a state. *)
Definition queue_set (m : ptr) (state : string) : TM unit :=
  on_heap (let! a := Action_new m None (BSetState "SELF" state) in enqueueAction a m).
Definition set_machine (m : ptr) (state_name : string) (auth : Z) : TM Reply :=
  let! x := machine m in
  let! s := get_site m in
  match state_machine x with
  | None => run! record (ELog m) in failed (str (snprintf_buf 150 (chars ("Error: machine " +:+ m_name x +:+ " has no state machine")%string)))
  | Some _ =>
      let known := bool_decide (is_Some (findState_name state_name (class_states s))) in
      if negb known && negb (shadow s) then
        run! record (ELog m) in
        failed (str (snprintf_buf 150 (chars ("Error: machine " +:+ m_name x +:+ " has no state called '" +:+ state_name +:+ "'")%string)))
      else
        run! (if shadow s then let! _st := setState_name m state_name auth false in sret tt else queue_set m state_name) in
        well
  end.
Definition SetStatus_run (params : list Value) : TM Reply :=
  let! p := status_params params in
  match p with
  | None => failed "Usage: SET device TO state"
  | Some (ds, state_name, auth) =>
      match output_named ds with
      | Some d =>
          run! (if bool_decide (state_name = "on") then record (EDevice d IOTurnOn)
                else if bool_decide (state_name = "off") then record (EDevice d IOTurnOff) else sret tt) in
          sret (mkReply true (io_state d))
      | None =>
          let! mi := find_by_name ds in
          match mi with
          | Some m => set_machine m state_name auth
          | None => failed ("Not found: " +:+ ds)%string
          end
      end
  end.

(** ENABLE, DISABLE and RESUME; the second parameter is printed before it is counted. *)
Definition on_machine (params : list Value) (act : ptr -> TM unit) : TM Reply :=
  let! name := text_at params 1 in
  if (length params =? 2)%nat then
    let! m := find_by_name name in
    match m with
    | Some m => run! act m in well
    | None => failed "Could not find machine"
    end
  else failed "Failed to find machine".
Definition Enable_run (params : list Value) : TM Reply := on_machine params (enable_n tk depth).
Definition Disable_run (params : list Value) : TM Reply := on_machine params (disable_n tk depth).
Definition Resume_run (params : list Value) : TM Reply :=
  let! name := text_at params 1 in
  let! accepted := (if (length params =? 2)%nat then sret true
                    else if (length params =? 4)%nat then word_is params 2 "AT" else sret false) in
  if accepted : bool then
    let! m := find_by_name name in
    run! (match m with
          | Some m => let! x := machine m in if is_enabled x then sret tt else resume_n tk depth m
          | None => sret tt
          end) in well
  else failed "Failed to find machine".

(** TOGGLE: a machine of two states is sent a message if it handles it, and set otherwise;
    a device is switched. *)
Definition toggle_to (m : ptr) (message state : string) : TM unit :=
  let! q := new_message message SIMPLEMSG in
  let! handled := receives_message tk m q None in
  if handled : bool then let! msg := new_message message SIMPLEMSG in sendMessageToReceiver m msg m false
  else
    let! x := machine m in
    let? _c := rd (state_machine x) in
    let! s := get_site m in
    match findState_name state (class_states s) with
    | None => sret tt
    | Some st => if machine_active x then queue_set m state else let! _r := setState tk m st 0 false in sret tt
    end.
Definition toggle_device (m d : ptr) : TM Reply :=
  let! w := world in
  if device_on d w then run! record (EDevice d IOTurnOff) in well
  else if device_off d w then run! record (EDevice d IOTurnOn) in well
  else failed ("device is neither on nor off" +:+ str [newline])%string.
Definition toggle_point (m : ptr) : TM Reply :=
  let! s := get_site m in
  let state := s_text (Transitions.current_state s) in
  if bool_decide (state = "on") || bool_decide (state = "off") then
    let! msg := new_message (if bool_decide (state = "off") then "on_enter" else "off_enter") ENTERMSG in
    let! _st := execute_message tk m msg (Transitions.mq_interface s) in well
  else failed "Unknown message for a POINT".
(** The name before the first dash, and the rest. *)
Definition split_dash (name : string) : string * option string :=
  match span (fun c => negb (code c =? 45)) (chars name) with
  | (a, []) => (str a, None)
  | (a, _ :: b) => (str a, Some (str b))
  end.
Definition toggle_machine (name : string) (m : ptr) : TM Reply :=
  let! x := machine m in
  let! s := get_site m in
  if negb (is_enabled x) then failed "Device is disabled" else
  if negb (bool_decide (_type s = "POINT")) then
    let! on := tokenise (State_new "on") in
    let! off := tokenise (State_new "off") in
    run! (if state_eq (Transitions.current_state s) on then toggle_to m "turnOff" "off"
          else if state_eq (Transitions.current_state s) off then toggle_to m "turnOn" "on" else sret tt) in
    well
  else match output_named name with Some d => toggle_device m d | None => toggle_point m end.
Definition Toggle_run (params : list Value) : TM Reply :=
  if negb (length params =? 2)%nat then failed "Unknown device" else
  let! name := text_at params 1 in
  let '(machine_name, sub) := split_dash name in
  let! m := find_by_name machine_name in
  match m with
  | None => failed "Usage: toggle device_name"
  | Some m =>
      match sub with
      | None => toggle_machine name m
      | Some sub =>
          let! m' := lookup_machine m sub in
          match m' with Some m' => toggle_machine name m' | None => failed "No such machine" end
      end
  end.

(** SEND machine.command and SEND command TO machine; the ROUTE table comes first. *)
Definition split_last_dot (l : string) : string * string :=
  match split_property (chars l) with Some (m, c) => (str m, str c) | None => (l, l) end.
Definition send_target (machine_name : string) : TM (option (option ptr)) :=
  match split_dash machine_name with
  | (owner_name, Some sub) =>
      let! o := find_by_name owner_name in
      match o with
      | None => sret None
      | Some o => let! m := lookup_machine o (match split_dot sub with Some (a, _) => a | None => sub end) in sret (Some m)
      end
  | (_, None) => let! m := find_by_name machine_name in sret (Some m)
  end.
Definition send_to (command : string) (m : ptr) : TM Reply :=
  run! sendMessage m command m false in
  let! s := get_site m in
  run! send_entries m command (entries_of s) in
  let! x := machine m in
  sret (mkReply true (command +:+ " sent to " +:+ m_name x)%string).
Definition send_words (params : list Value) : TM (option (string * string)) :=
  if (length params =? 2)%nat then
    let! t := text_at params 1 in sret (Some (split_last_dot t))
  else if (length params =? 4)%nat then
    let! upper := word_is params 2 "TO" in
    let! to := (if upper : bool then sret true else word_is params 2 "to") in
    if to : bool then let! c := text_at params 1 in let! m := text_at params 3 in sret (Some (m, c)) else sret None
  else sret None.
Definition routed (params : list Value) : TM (option (string * ptr)) :=
  if (length params =? 2)%nat then
    let! command := text_at params 1 in
    match message_handlers !! command with
    | Some name => let! m := find_by_name name in sret ((fun m => (command, m)) <$> m)
    | None => sret None
    end
  else sret None.
Definition Send_run (params : list Value) : TM Reply :=
  let! r := routed params in
  match r with
  | Some (command, m) => send_to command m
  | None =>
      let! w := send_words params in
      match w with
      | None => failed "Usage: SEND machine.command | SEND command TO machine "
      | Some (machine_name, command) =>
          let! t := send_target machine_name in
          match t with
          | None => failed "could not find machine"
          | Some (Some m) => send_to command m
          | Some None => failed ("Could not find machine " +:+ fst (split_dash machine_name) +:+ " for command " +:+ command)%string
          end
      end
  end.

(** A text that is no command is a message for the machine that handles it. *)
Section Unknown.
Context `{!Printing}.
Definition Unknown_run (params : list Value) : TM Reply :=
  match params with
  | [] => well
  | _ =>
      let? txt := printed params in
      let! m := (match message_handlers !! txt with Some name => find_by_name name | None => sret None end) in
      match m with
      | Some m =>
          let! msg := new_message txt SIMPLEMSG in
          run! sendMessageToReceiver m msg m false in well
      | None => failed (txt +:+ ": Unknown command: ")%string
      end
  end.
End Unknown.
End Commands.

Section Answers.
Variable tk : ClockworkToken.
Context `{DynEnv} `{!Reactions} `{!Hub} `{!Virtuals} `{!MachineActions.Scope} `{!Devices}.
Definition logged (m : ptr) (w : TWorld) : TWorld :=
  mkTWorld (tw w) (sites w) (rules w) (toks w) (key_words w) (sequence w) (to_deliver w) (log w ++ [ELog m]).
Lemma first_machine_run w name l m x : machines (tw w) !! m = Some x -> m_name x = name ->
  first_machine name (m :: l) w = Ok (Some m, w).
Proof. intros E Hn. cbn [first_machine]. unfold mname, sbind. rewrite (machine_run m x w E). cbn. by rewrite bool_decide_true. Qed.
Lemma unknown_state_logged w m x s name auth : machines (tw w) !! m = Some x -> is_Some (state_machine x) -> sites w !! m = Some s ->
  shadow s = true -> findState_name name (class_states s) = None ->
  set_machine tk m name auth w = Ok (OK_reply, logged m w).
Proof.
  intros E [c Ec] Es Hs Hf. unfold set_machine. rewrite (sbind_run _ _ _ _ _ (machine_run m x w E)), (sbind_run _ _ _ _ _ (get_site_run m s w Es)), Ec, Hf, Hs.
  cbn [negb andb]. rewrite andb_false_r. rewrite (sbind_run _ _ w tt (logged m w)); [done |]. unfold setState_name.
  rewrite (sbind_run _ _ w Failed (logged m w)); [done |].
  rewrite (sbind_run _ _ _ _ _ (machine_run m x w E)), Ec, (sbind_run _ _ _ _ _ (get_site_run m s w Es)), Hf. done.
Qed.
(** Asked to put a shadow into a state that its class does not have, the shell answers OK
    although nothing changes; the comment in the code announces its initial state. *)
Lemma unknown_shadow_state w m l x s name state : machines (tw w) !! m = Some x -> m_name x = name -> is_Some (state_machine x) -> sites w !! m = Some s ->
  shadow s = true -> findState_name state (class_states s) = None -> split_dot name = None -> output_named name = None ->
  SetStatus_run tk (m :: l) (texts [chars "STATE"; chars name; chars state]) w = Ok (OK_reply, logged m w).
Proof.
  intros E Hn Hc Es Hs Hf Hd Ho. unfold SetStatus_run.
  assert (Ht : forall i ws u, ws !! i = Some (chars u) -> text_at (texts ws) i w = Ok (u, w)).
  { intros i ws u Hu. unfold text_at, slift, param_text, texts. rewrite list_lookup_fmap, Hu. cbn. rewrite text_asString. cbn. by rewrite str_chars. }
  rewrite (sbind_run _ _ w (Some (name, state, 0)) w).
  - rewrite Ho. rewrite (sbind_run _ _ w (Some m) w); [by eapply unknown_state_logged |].
    unfold find_by_name. rewrite Hd. by eapply first_machine_run.
  - unfold status_params. cbn [texts map length Nat.eqb orb]. rewrite (sbind_run _ _ w false w) by done.
    rewrite (sbind_run _ _ _ _ _ (Ht 1%nat [chars "STATE"; chars name; chars state] name eq_refl)).
    rewrite (sbind_run _ _ _ _ _ (Ht 2%nat [chars "STATE"; chars name; chars state] state eq_refl)). done.
Qed.

(** A word that is no command is looked up among the routed messages with quotes around it,
    so it is never found among names without quotes. *)
Lemma routed_message_unknown `{!Printing} all wd w : (forall k, is_Some (message_handlers !! k) -> head (chars k) <> Some (chr 34)) ->
  exists txt, Unknown_run all (texts [wd]) w = Ok (mkReply false txt, w).
Proof.
  intros Hk. eexists. unfold Unknown_run. cbn [texts map].
  rewrite (slift_run _ _ _ (str ([chr 34] ++ wd ++ [chr 34]))).
  - destruct (message_handlers !! str ([chr 34] ++ wd ++ [chr 34])) as [name|] eqn:Em.
    + exfalso. by apply (Hk _ (mk_is_Some _ _ Em)).
    + rewrite (sbind_run _ _ w None w) by done. done.
  - unfold printed. cbn [printed_n print_Value text_param kind mkString sValue mbind res_bind]. cbn [joined]. do 2 f_equal. cbn [app].
    unfold chars, str. by rewrite String.list_ascii_of_string_of_list_ascii.
Qed.
End Answers.
