(* ===== verification/Logging.v ===== *)
(** The log (Logger.cpp, DebugExtra.cpp, MessageLog.cpp), statistics (Statistic.h), and the
    commands of the shell that read and change them (IODCommands.cpp). *)
From S2P Require Import Prelude Cnum Tokeniser Value SymbolTable ValueOps Message Json MessageEncoding Modbus Machine Names Properties Lists Persistence Shell.
From Stdlib Require Import Ascii.
Open Scope Z_scope.
Local Open Scope sm_scope.

(** ** Debug groups *)
Record LogState := mkLogState { state_flags : gset Z; flag_names : list string; name_map : gmap string Z }.
Definition LogState_new : LogState := mkLogState ∅ [] ∅.
Definition LogState_define (new_name : string) (ls : LogState) : Z * LogState :=
  let logid := Z.of_nat (length (flag_names ls)) in
  (logid, mkLogState (state_flags ls) (flag_names ls ++ [new_name]) (<[new_name := logid]> (name_map ls))).
Definition LogState_lookup (name : string) (ls : LogState) : Z := default 0 (name_map ls !! name).
Definition with_flags (f : gset Z) (ls : LogState) : LogState := mkLogState f (flag_names ls) (name_map ls).
Definition LogState_insert (flag_num : Z) (ls : LogState) : LogState := with_flags ({[flag_num]} ∪ state_flags ls) ls.
Definition LogState_insert_name (name : string) (ls : LogState) : Z * LogState :=
  match name_map ls !! name with Some n => (n, LogState_insert n ls) | None => (-1, ls) end.
Definition LogState_erase (flag_num : Z) (ls : LogState) : LogState := with_flags (state_flags ls ∖ {[flag_num]}) ls.
(** The overload for a name inserts the flag. *)
Definition LogState_erase_name (name : string) (ls : LogState) : LogState :=
  match name_map ls !! name with Some n => LogState_insert n ls | None => ls end.
Definition LogState_includes (flag_num : Z) (ls : LogState) : bool := bool_decide (flag_num ∈ state_flags ls).
(** The overload for a name says whether the name is defined. *)
Definition LogState_includes_name (name : string) (ls : LogState) : bool := bool_decide (is_Some (name_map ls !! name)).
(** [<<]: one line for a name. *)
Definition flag_line (ls : LogState) (p : string * Z) : list ascii :=
  chars (fst p) ++ [chr 32] ++ (if LogState_includes (snd p) ls then chars "on" else chars "off").
Fixpoint flag_lines (ls : LogState) (delim : list ascii) (l : list (string * Z)) : list ascii :=
  match l with [] => [] | p :: l' => delim ++ flag_line ls p ++ flag_lines ls [newline] l' end.
Definition print_LogState (ls : LogState) : list ascii := flag_lines ls [] (in_order (name_map ls)).

(** The levels of the logger and the groups of DebugExtra. *)
Definition define_on (name : string) (ls : LogState) : Z * LogState :=
  let '(id, ls1) := LogState_define name ls in (id, LogState_insert id ls1).
Record Levels := mkLevels { lv_None : Z; lv_Important : Z; lv_Debug : Z; lv_Everything : Z }.
Definition Logger_new (ls : LogState) : Levels * LogState :=
  let '(n, ls1) := define_on "None" ls in
  let '(i, ls2) := define_on "Important" ls1 in
  let '(d, ls3) := define_on "Debug" ls2 in
  let '(e, ls4) := define_on "Everything" ls3 in
  (mkLevels n i d e, ls4).
Definition debug_groups : list string :=
  ["DEBUG_PARSER"; "DEBUG_PREDICATES"; "DEBUG_MESSAGING"; "DEBUG_STATECHANGES"; "DEBUG_SCHEDULER"; "DEBUG_AUTOSTATES";
   "DEBUG_MACHINELOOKUPS"; "DEBUG_PROPERTIES"; "DEBUG_DEPENDANCIES"; "DEBUG_ACTIONS"; "DEBUG_INITIALISATION"; "DEBUG_MODBUS";
   "DEBUG_DISPATCHER"; "DEBUG_CHANNELS"; "DEBUG_ETHERCAT"; "DEBUG_PROCESSING"].
Definition DebugExtra_new (ls : LogState) : LogState := fold_left (fun a n => snd (LogState_define n a)) debug_groups ls.
(** [setLevel] with a name; other names leave the level. *)
Definition setLevel (lv : Levels) (level_name : string) (log_level : Z) : Z :=
  if bool_decide (level_name = "None") then lv_None lv
  else if bool_decide (level_name = "Important") then lv_Important lv
  else if bool_decide (level_name = "Debug") then lv_Debug lv
  else if bool_decide (level_name = "Everything") then lv_Everything lv
  else log_level.

(** ** Times *)
(** What [localtime_r] and [gettimeofday] give. *)
Record Now := mkNow { tm_year : Z; tm_mon : Z; tm_mday : Z; tm_hour : Z; tm_min : Z; tm_sec : Z; tv_usec : Z }.
(** [%0wd]: the sign counts as one of the [w] characters. *)
Definition print_0d (w : nat) (z : Z) : list ascii :=
  if z <? 0 then chr 45 :: pad_left (chr 48) (w - 1) (print_nat (- z)) else pad_left (chr 48) w (print_nat z).
Definition getTimeString (n : Now) (buf_size : nat) (buf : list ascii) : list ascii :=
  if (28 <=? buf_size)%nat then
    snprintf_buf buf_size
      (print_0d 4 (tm_year n + 1900) ++ chars "-" ++ print_0d 2 (tm_mon n + 1) ++ chars "-" ++ print_0d 2 (tm_mday n) ++
       chars " " ++ print_0d 2 (tm_hour n) ++ chars ":" ++ print_0d 2 (tm_min n) ++ chars ":" ++ print_0d 2 (tm_sec n) ++
       chars "." ++ print_0d 6 (to_s32 (u32 (tv_usec n))) ++ chars " ")
  else buf.
(** What [Logger::log] and the text after it put on the stream of the log. *)
Definition Logger_log (n : Now) (l : Z) (text : list ascii) (ls : LogState) : list ascii :=
  if LogState_includes l ls then getTimeString n 40 [] ++ text else [].

(** ** Messages *)
Record LogEntry := mkEntry { size_ : Z; message : list ascii }.
Definition sizeof_LogEntry : Z := 40.
Definition LogEntry_new (msg : list ascii) : LogEntry :=
  mkEntry (u64 (Z.of_nat (length (c_str msg)) + 1 + sizeof_LogEntry)) (c_str msg).
Definition LogEntry_toJSON (e : LogEntry) : cJSON :=
  cJSON_AddItemToObject cJSON_CreateObject (chars "message") (cJSON_CreateString (message e)).

Record MessageLog := mkLog {
  mutex_ : bool;               (** held *)
  max_memory : Z;
  current_memory : Z;
  entries : list LogEntry;
  output : list ascii
}.
Definition MessageLog_new (max : Z) : MessageLog := mkLog false max 0 [] [].
Definition LM : Type -> Type := SM MessageLog.
Definition set_mutex (b : bool) (l : MessageLog) : MessageLog := mkLog b (max_memory l) (current_memory l) (entries l) (output l).
(** A thread that locks the mutex again: behaviour boost leaves undefined. *)
Definition mutex_lock : LM unit := fun l => if mutex_ l then Undef else Ok (tt, set_mutex true l).
Definition mutex_unlock : LM unit := fun l => if mutex_ l then Ok (tt, set_mutex false l) else Undef.
(** [scoped_lock]: released at the end of the block. *)
Definition scoped {A} (m : LM A) : LM A := run! mutex_lock in let! a := m in run! mutex_unlock in sret a.
Definition setMaxMemory (max : Z) (l : MessageLog) : MessageLog := mkLog (mutex_ l) max (current_memory l) (entries l) (output l).

(** The oldest entries go until there is room for [extra] bytes. *)
Fixpoint trim (max extra cur : Z) (es : list LogEntry) : Z * list LogEntry :=
  match es with
  | [] => (cur, [])
  | e :: es' => if max <? u64 (cur + extra) then trim max extra (u32 (cur - size_ e)) es' else (cur, es)
  end.
Definition log_append (msg : list ascii) (extra : Z) : LM unit := fun l =>
  let '(cur, es) := (if max_memory l <? u64 (current_memory l + extra) then trim (max_memory l) extra (current_memory l) (entries l)
                     else (current_memory l, entries l)) in
  Ok (tt, mkLog (mutex_ l) (max_memory l) (u32 (cur + extra)) (es ++ [LogEntry_new msg]) (output l)).
Definition entry_room (msg : list ascii) : Z := u64 (Z.of_nat (length msg) + 1 + sizeof_LogEntry).
(** [add] of up to four texts, whose result is the message, and [add] of one. *)
Definition log_add4 (n : Now) (a b c d : list ascii) : LM (list ascii) :=
  let msg := getTimeString n 50 [] ++ a ++ b ++ c ++ d in
  run! scoped (log_append msg (entry_room msg)) in sret msg.
Definition log_add (n : Now) (text : list ascii) : LM unit :=
  let buf := getTimeString n 50 [] ++ c_str text in
  scoped (log_append buf (entry_room buf)).
(** [purge] leaves [current_memory]. *)
Definition purge : LM unit :=
  scoped (fun l => Ok (tt, mkLog (mutex_ l) (max_memory l) (current_memory l) [] (output l))).
Definition log_count (l : MessageLog) : Z := Z.of_nat (length (entries l)).

(** A message that is written to a stream. *)
Definition get_stream : LM unit := run! mutex_lock in fun l => Ok (tt, mkLog (mutex_ l) (max_memory l) (current_memory l) (entries l) []).
Definition write_stream (text : list ascii) : LM unit := fun l =>
  Ok (tt, mkLog (mutex_ l) (max_memory l) (current_memory l) (entries l) (output l ++ text)).
Definition access_stream_message (l : MessageLog) : list ascii := output l.
Definition release_stream (n : Now) : LM unit := fun l => (run! mutex_unlock in log_add n (output l)) l.
Definition close_stream : LM unit := mutex_unlock.

(** The last [num] entries, all for 0. *)
Definition last_entries (num : Z) (es : list LogEntry) : list LogEntry :=
  if num =? 0 then es else drop (Z.to_nat (to_s64 (u64 (Z.of_nat (length es) - num)))) es.
Definition log_toJSON (num : Z) : LM cJSON := scoped (fun l =>
  Ok (fold_left (fun a e => cJSON_AddItemToArray a (LogEntry_toJSON e)) (last_entries num (entries l)) cJSON_CreateArray, l)).
Definition log_toString (num : Z) : LM (list ascii) := scoped (fun l =>
  Ok (c_str (concat (map (fun e => message e ++ [newline]) (last_entries num (entries l)))), l)).
(** [save] to a file that opens or not; the text that is written. *)
Definition log_save (opens : bool) : LM (option (list ascii)) := scoped (
  if opens then let! data := log_toJSON 0 in let? text := cJSON_PrintUnformatted data in sret (Some text) else sret None).

(** The body of [load] up to its end or the text it throws; a file that does not open is
    [None], one that cannot be read [Some None]. *)
Fixpoint add_items (n : Now) (items : list cJSON) : LM (option string) :=
  match items with
  | [] => sret None
  | i :: items' =>
      match jtype i with
      | cJSON_String => let? s := rd (valuestring i) in run! log_add n s in add_items n items'
      | _ => sret (Some "Unexpected JSON type detected in file")
      end
  end.
Definition log_load_text `{!Libm} (n : Now) (file : option (option (list ascii))) : LM (option string) :=
  match file with
  | None => sret (Some "Error opening error log file")
  | Some None => sret (Some "Error reading from error log file.")
  | Some (Some buf) =>
      let? data := cJSON_Parse (c_str buf) in
      match data with
      | Some d => match jtype d with cJSON_Array => add_items n (child d) | _ => sret None end
      | None => sret None
      end
  end.
Definition log_load `{!Libm} (n : Now) (file : option (option (list ascii))) : LM unit :=
  let! err := scoped (log_load_text n file) in
  match err with Some e => log_add n (chars e) | None => sret tt end.

(** ** Statistics *)
(** [ssq] is not initialised by the constructor and read only to be added to: it is left
    out. *)
Record Statistic := mkStat { st_text : string; sum : double; st_count : Z; min_value : Z; max_value : Z }.
Definition Statistic_new (msg : string) : Statistic := mkStat msg fzero 0 LONG_MAX LONG_MIN.
Definition Statistic_reset (s : Statistic) : Statistic := Statistic_new (st_text s).
Definition Statistic_add (new_value : Z) (s : Statistic) : res Statistic :=
  n ← int_of (st_count s + 1);
  _ ← long_of (new_value * new_value);
  Ok (mkStat (st_text s) (fadd (sum s) (float_of_Z new_value)) n
             (if new_value <? min_value s then new_value else min_value s)
             (if max_value s <? new_value then new_value else max_value s)).
Definition stat_average (s : Statistic) : double := if st_count s =? 0 then fzero else fdiv (sum s) (float_of_Z (st_count s)).
(** [reportArray] and the report of all statistics. *)
Definition reportArray (s : Statistic) : cJSON :=
  fold_left cJSON_AddItemToArray
    [cJSON_CreateLong (st_count s); cJSON_CreateLong (min_value s); cJSON_CreateLong (max_value s);
     cJSON_CreateDouble (stat_average s); cJSON_CreateDouble (sum s)] cJSON_CreateArray.
(** [report] into an object: all numbers become integers. *)
Definition stat_report (s : Statistic) (obj : cJSON) : res cJSON :=
  ave ← long_of_float (stat_average s);
  total ← long_of_float (sum s);
  Ok (fold_left (fun o '(name, z) => cJSON_AddItemToObject o (chars name) (cJSON_CreateLong z))
        [("count", st_count s); ("min", min_value s); ("max", max_value s); ("ave", ave); ("sum", total)] obj).
Definition reportAll (stats : list Statistic) (obj : cJSON) : cJSON :=
  fold_left (fun o s => cJSON_AddItemToArray o (cJSON_AddItemToObject cJSON_CreateObject (chars (st_text s)) (reportArray s))) stats obj.
(** The time between construction and destruction of a [CaptureDuration]. *)
Definition CaptureDuration_start (keep_statistics : bool) (microsecs : Z) : Z := if keep_statistics then microsecs else 0.
Definition CaptureDuration_end (keep_statistics : bool) (microsecs start : Z) (s : Statistic) : res Statistic :=
  if keep_statistics then Statistic_add (to_s64 (u64 (microsecs - start))) s else Ok s.

(** ** Commands *)
(** The log, the debug groups, the machines with their debug flags and the messages to the
    modbus interface. *)
Record LogWorld := mkLogWorld {
  lw_tok : Tokeniser; lw_state : LogState; lw_log : MessageLog; lw_debug : gmap string bool; lw_modbus : list string
}.
Definition LWM : Type -> Type := SM LogWorld.
Definition on_tok {A} (m : SM Tokeniser A) : LWM A := fun w =>
  '(a, t) ← m (lw_tok w); Ok (a, mkLogWorld t (lw_state w) (lw_log w) (lw_debug w) (lw_modbus w)).
Definition on_log {A} (m : LM A) : LWM A := fun w =>
  '(a, l) ← m (lw_log w); Ok (a, mkLogWorld (lw_tok w) (lw_state w) l (lw_debug w) (lw_modbus w)).
Definition on_state (f : LogState -> LogState) : LWM unit := fun w =>
  Ok (tt, mkLogWorld (lw_tok w) (f (lw_state w)) (lw_log w) (lw_debug w) (lw_modbus w)).
Definition setDebug (name : string) (b : bool) : LWM unit := fun w =>
  Ok (tt, mkLogWorld (lw_tok w) (lw_state w) (lw_log w) (<[name := b]> (lw_debug w)) (lw_modbus w)).
Definition modbus_message (text : string) : LWM unit := fun w =>
  Ok (tt, mkLogWorld (lw_tok w) (lw_state w) (lw_log w) (lw_debug w) (lw_modbus w ++ [text])).

Section Commands.
Context `{DynEnv} `{!Printing}.
(** MESSAGES, also CLEAR MESSAGES: JSON, then a number of messages. *)
Definition param_text_is (params : list Value) (i : nat) (text : string) : res bool :=
  match params !! i with Some v => s ← asString v; Ok (bool_decide (s = text)) | None => Ok false end.
Definition ShowMessages_run (params : list Value) : LWM Reply :=
  let? p0 := rd (params !! 0%nat) in
  let? first := asString p0 in
  if bool_decide (first = "CLEAR") then run! on_log purge in sret OK_reply
  else
    let? use_json := param_text_is params 1 "JSON" in
    let idx := (if use_json then 2 else 1)%nat in
    let? num := (match params !! idx with Some v => '(_, z) ← asInteger v (Some 0); rd z | None => Ok 0 end) in
    let! result := on_log (log_toJSON (u32 num)) in
    if use_json then let? text := cJSON_Print result in sret (mkReply true (str text))
    else let! text := on_log (log_toString (u32 num)) in sret (mkReply true (str text)).
(** NOTICE: the words, the first one included, become a message. *)
Definition Notice_run (n : Now) (params : list Value) : LWM Reply :=
  let? _ := rd (params !! 0%nat) in
  let? msg := printed params in
  run! on_log (log_add n (chars msg)) in sret OK_reply.
(** DEBUG SHOW and DEBUG group on|off. *)
Definition DebugShow_run : LWM Reply := fun w =>
  Ok (mkReply true (str (chars "Debug status: " ++ [newline] ++ print_LogState (lw_state w) ++ [newline])), w).
Definition either {A} (m1 m2 : SM A bool) : SM A bool := let! b := m1 in if b : bool then sret true else m2.
Definition switched (params : list Value) (lower upper : string) : LWM bool :=
  on_tok (either (param_is params 2 lower) (param_is params 2 upper)).
Definition tell_modbus (params : list Value) (text : string) : LWM unit :=
  let! b := on_tok (param_is params 1 "DEBUG_MODBUS") in
  if b : bool then modbus_message text else sret tt.
Definition Debug_usage (ls : LogState) : Reply :=
  mkReply false (str (chars "usage: DEBUG debug_group on|off" ++ [newline; newline] ++ chars "Debug groups: " ++ [newline] ++ print_LogState ls)).
(** A name that is no group is one of a machine, whose flag is set before. *)
Definition debug_machine (params : list Value) (name : string) : LWM bool := fun w =>
  match lw_debug w !! name with
  | Some _ => (let! on := switched params "on" "ON" in run! setDebug name on in sret true) w
  | None => Ok (false, w)
  end.
Definition Debug_run (params : list Value) : LWM Reply := fun w =>
  if negb (length params =? 3)%nat then Ok (Debug_usage (lw_state w), w)
  else
    (let? p1 := rd (params !! 1%nat) in
     let? name := asString p1 in
     let group := LogState_lookup name (lw_state w) in
     let! known := (if group =? 0 then debug_machine params name else sret true) in
     if negb known then sret (mkReply false "Unknown debug group")
     else
       let! on := switched params "on" "ON" in
       if on : bool then run! on_state (LogState_insert group) in run! tell_modbus params "DEBUG ON" in sret OK_reply
       else
         let! off := switched params "off" "OFF" in
         if off : bool then run! on_state (LogState_erase group) in run! tell_modbus params "DEBUG OFF" in sret OK_reply
         else sret (mkReply false "Please use 'on' or 'off' in all upper- or lowercase")) w.
End Commands.
