(* ===== verification/LoggingProps.v ===== *)
(** Properties of the log of messages: which messages it keeps, what CLEAR MESSAGES does to it
    and where it locks itself out; the debug groups and the statistics. *)
From S2P Require Import Prelude Cnum Tokeniser Value SymbolTable ValueOps Message Json MessageEncoding Modbus Machine Names Properties Lists Persistence Shell Logging.
From Stdlib Require Import Ascii.
Open Scope Z_scope.
Local Open Scope sm_scope.

(** ** What the log should keep *)
(** The bytes of messages, and the longest end of a list of messages that fits in [max] bytes;
    the last message is kept in any case. *)
Definition room (msg : list ascii) : Z := Z.of_nat (length msg) + 1 + sizeof_LogEntry.
Definition total (l : list (list ascii)) : Z := fold_right (fun m t => room m + t) 0 l.
Fixpoint fitting (max : Z) (l : list (list ascii)) : list (list ascii) :=
  match l with
  | [] => []
  | [m] => [m]
  | m :: l' => if total l <=? max then l else fitting max l'
  end.
(** A message of the program: a text, several texts or the text of a stream. *)
Inductive LogOp := OAdd (n : Now) (text : list ascii) | OAdd4 (n : Now) (a b c d : list ascii) | OStream (n : Now) (texts : list (list ascii)).
Definition write_all (texts : list (list ascii)) : LM unit := fold_right (fun t m => run! write_stream t in m) (sret tt) texts.
Definition log_op (o : LogOp) : LM unit :=
  match o with
  | OAdd n text => log_add n text
  | OAdd4 n a b c d => run! log_add4 n a b c d in sret tt
  | OStream n texts => run! get_stream in run! write_all texts in release_stream n
  end.
Definition logged_text (o : LogOp) : list ascii :=
  match o with
  | OAdd n text => getTimeString n 50 [] ++ c_str text
  | OAdd4 n a b c d => getTimeString n 50 [] ++ a ++ b ++ c ++ d
  | OStream n texts => getTimeString n 50 [] ++ c_str (concat texts)
  end.
Definition log_ops (os : list LogOp) : LM unit := fold_right (fun o m => run! log_op o in m) (sret tt) os.
(** The texts have no NUL and are shorter than 4 GB. *)
Definition op_ok (o : LogOp) : Prop := c_str (logged_text o) = logged_text o /\ room (logged_text o) < 2 ^ 32.

(** ** The bytes of messages *)
Lemma room_pos m : 0 < room m.
Proof. unfold room, sizeof_LogEntry. lia. Qed.
Lemma total_cons m l : total (m :: l) = room m + total l.
Proof. done. Qed.
Lemma total_app l l' : total (l ++ l') = total l + total l'.
Proof. induction l as [|m l IH]; cbn [app]; [done |]. rewrite !total_cons. lia. Qed.
Lemma total_one m : total [m] = room m.
Proof. cbn. lia. Qed.
Lemma total_pos l : 0 <= total l.
Proof. induction l as [|m l IH]; [done |]. rewrite total_cons. pose proof (room_pos m). lia. Qed.
Lemma total_suffix l l' : l `suffix_of` l' -> total l <= total l'.
Proof. intros [k ->]. rewrite total_app. pose proof (total_pos k). lia. Qed.
Lemma fitting_all max l : total l <= max -> fitting max l = l.
Proof. intros Hl. destruct l as [|m [|m' l]]; [done | done |]. cbn [fitting]. by rewrite (proj2 (Z.leb_le _ _) Hl). Qed.
Lemma fitting_suffix max l : fitting max l `suffix_of` l.
Proof.
  induction l as [|m l IH]; [done |]. destruct l as [|m' l]; [done |]. cbn [fitting].
  destruct (_ <=? _); [done |]. by apply suffix_cons_r.
Qed.
Lemma fitting_cons max a l : l <> [] -> fitting max (a :: l) = if total (a :: l) <=? max then a :: l else fitting max l.
Proof. by destruct l. Qed.
Lemma fitting_last max l m : total (fitting max (l ++ [m])) <= Z.max max (room m).
Proof.
  induction l as [|a l IH]; [cbn; lia |]. cbn [app]. rewrite fitting_cons by (by destruct l).
  destruct (Z.leb_spec (total (a :: l ++ [m])) max); [lia | done].
Qed.
Lemma fitting_again max l m : fitting max (fitting max l ++ [m]) = fitting max (l ++ [m]).
Proof.
  induction l as [|a l IH]; [done |]. destruct l as [|b l]; [done |].
  rewrite (fitting_cons max a (b :: l)) by done. destruct (Z.leb_spec (total (a :: b :: l)) max) as [|Hgt]; [done |].
  rewrite IH. cbn [app]. rewrite (fitting_cons max a) by done.
  destruct (Z.leb_spec (total (a :: b :: l ++ [m])) max) as [Hle|]; [|done].
  pose proof (room_pos m). change (b :: l ++ [m]) with ((b :: l) ++ [m]) in Hle. rewrite total_cons, total_app, total_one in Hle. rewrite total_cons in Hgt. lia.
Qed.

(** ** Entries *)
Definition stored (ms : list (list ascii)) : list LogEntry := map (fun m => mkEntry (room m) m) ms.
Lemma stored_app l l' : stored (l ++ l') = stored l ++ stored l'.
Proof. apply map_app. Qed.
Lemma stored_messages ms : map message (stored ms) = ms.
Proof. unfold stored. rewrite map_map. apply map_id. Qed.
Lemma new_entry m : c_str m = m -> room m < 2 ^ 32 -> LogEntry_new m = mkEntry (room m) m.
Proof. intros Hc Hr. unfold LogEntry_new. rewrite Hc. pose proof (room_pos m). unfold room in *. rewrite u64_small by lia. done. Qed.
Lemma entry_room_small m : room m < 2 ^ 32 -> entry_room m = room m.
Proof. intros Hr. pose proof (room_pos m). unfold entry_room. apply u64_small. unfold room in *. lia. Qed.
Lemma u32_small z : 0 <= z < 2 ^ 32 -> u32 z = z.
Proof. apply Z.mod_small. Qed.

Section Room.
Variables (max p : Z).
Hypothesis Hp : 0 <= p.
(** Trimming leaves what fits beside the new message; [p] bytes count that no entry has. *)
Lemma trim_fitting m ms : p + total ms < 2 ^ 32 -> room m < 2 ^ 32 ->
  exists kept, trim max (room m) (p + total ms) (stored ms) = (p + total kept, stored kept) /\ kept ++ [m] = fitting (max - p) (ms ++ [m]).
Proof.
  intros Hb Hr. pose proof (room_pos m). induction ms as [|a ms IH]; [by exists [] |].
  rewrite total_cons in *. pose proof (room_pos a). pose proof (total_pos ms). cbn [stored map trim app size_].
  rewrite fitting_cons by (by destruct ms). rewrite u64_small by lia. rewrite total_cons, total_app, total_one.
  destruct (Z.ltb_spec max (p + (room a + total ms) + room m)).
  - rewrite (proj2 (Z.leb_gt _ _)) by lia. rewrite u32_small by lia.
    replace (p + (room a + total ms) - room a) with (p + total ms) by lia. apply IH. lia.
  - rewrite (proj2 (Z.leb_le _ _)) by lia. exists (a :: ms). rewrite total_cons. done.
Qed.
(** The room that is counted for [ms] and [p]. *)
Definition holds (ms : list (list ascii)) (l : MessageLog) : Prop :=
  mutex_ l = false /\ max_memory l = max /\ current_memory l = p + total ms /\ entries l = stored ms.
Lemma append_scoped m ms l : holds ms l -> p + total ms < 2 ^ 32 -> c_str m = m -> room m < 2 ^ 32 ->
  p + total (fitting (max - p) (ms ++ [m])) < 2 ^ 32 ->
  exists l', scoped (log_append m (entry_room m)) l = Ok (tt, l') /\ holds (fitting (max - p) (ms ++ [m])) l'.
Proof.
  intros (Hm & Hx & Hc & He) Hb Hn Hr Hf. destruct (trim_fitting m ms Hb Hr) as (kept & Ht & Hk).
  rewrite entry_room_small by done. unfold scoped, sbind, mutex_lock, log_append. rewrite Hm. cbn [set_mutex max_memory current_memory entries].
  rewrite Hx, Hc, He.
  replace (if max <? u64 (p + total ms + room m) then trim max (room m) (p + total ms) (stored ms) else (p + total ms, stored ms))
    with (trim max (room m) (p + total ms) (stored ms)) by (destruct ms; cbn [stored map trim]; by case_match).
  rewrite Ht. cbn. rewrite new_entry by done. rewrite <- Hk in *. rewrite total_app, total_one in Hf.
  pose proof (total_pos kept). pose proof (room_pos m).
  eexists. split; [done |]. unfold holds, set_mutex. cbn. rewrite total_app, total_one, stored_app, u32_small by lia. split_and!; [done | done | lia | done].
Qed.
End Room.

(** ** Histories *)
Lemma write_all_run texts l :
  write_all texts l = Ok (tt, mkLog (mutex_ l) (max_memory l) (current_memory l) (entries l) (output l ++ concat texts)).
Proof.
  revert l. induction texts as [|t texts IH]; intros l; cbn [write_all fold_right concat]; [by rewrite app_nil_r; destruct l |].
  unfold sbind at 1. cbn [write_stream]. fold (write_all texts). rewrite IH. cbn. by rewrite app_assoc.
Qed.
Section Histories.
Variables (max p : Z).
Hypothesis Hp : 0 <= p.
Lemma log_op_run o ms l : holds max p ms l -> p + total ms < 2 ^ 32 -> op_ok o -> p + Z.max (max - p) (room (logged_text o)) < 2 ^ 32 ->
  exists l', log_op o l = Ok (tt, l') /\ holds max p (fitting (max - p) (ms ++ [logged_text o])) l'.
Proof.
  intros Hl Hb [Hc Hr] Hm.
  assert (Hf : p + total (fitting (max - p) (ms ++ [logged_text o])) < 2 ^ 32).
  { pose proof (fitting_last (max - p) ms (logged_text o)). lia. }
  destruct o as [n text | n a b c d | n texts]; cbn [log_op logged_text] in *.
  - unfold log_add. exact (append_scoped max p Hp _ ms l Hl Hb Hc Hr Hf).
  - destruct (append_scoped max p Hp _ ms l Hl Hb Hc Hr Hf) as (l' & R & H'). exists l'. split; [|done].
    unfold log_add4, sbind at 1. unfold sbind at 1. by rewrite R.
  - set (l1 := mkLog false (max_memory l) (current_memory l) (entries l) (concat texts)).
    assert (H1 : holds max p ms l1) by (destruct Hl as (? & ? & ? & ?); by split_and!).
    destruct (append_scoped max p Hp _ ms l1 H1 Hb Hc Hr Hf) as (l' & R & H'). exists l'. split; [|done].
    destruct Hl as (Hx & _). unfold get_stream, mutex_lock, sbind at 1. unfold sbind at 1. rewrite Hx. cbn [set_mutex mutex_ max_memory current_memory entries].
    unfold sbind at 1. rewrite write_all_run. cbn. unfold release_stream, mutex_unlock, sbind at 1. cbn. exact R.
Qed.
Lemma log_ops_run os hist l : holds max p (fitting (max - p) hist) l -> p + total (fitting (max - p) hist) < 2 ^ 32 ->
  Forall (fun o => op_ok o /\ p + Z.max (max - p) (room (logged_text o)) < 2 ^ 32) os ->
  exists l', log_ops os l = Ok (tt, l') /\ holds max p (fitting (max - p) (hist ++ map logged_text os)) l'.
Proof.
  revert hist l. induction os as [|o os IH]; intros hist l Hl Hb Ho; [exists l; by rewrite app_nil_r |].
  apply list.Forall_cons in Ho as [[Ho Hm] Hos]. destruct (log_op_run o _ l Hl Hb Ho Hm) as (l1 & R1 & H1). rewrite fitting_again in H1.
  destruct (IH (hist ++ [logged_text o]) l1 H1) as (l2 & R2 & H2); [|done|].
  { pose proof (fitting_last (max - p) hist (logged_text o)). lia. }
  exists l2. cbn [log_ops fold_right map]. rewrite (sbind_run _ _ _ _ _ R1), <- app_assoc in *. done.
Qed.
End Histories.
Lemma fitting_longest max l k : k `suffix_of` l -> total k <= max -> k `suffix_of` fitting max l.
Proof.
  intros Hk Ht. induction l as [|m l IH]; [done |]. destruct l as [|m' l]; [done |]. rewrite fitting_cons by done.
  destruct (Z.leb_spec (total (m :: m' :: l)) max) as [|Hgt]; [done |]. destruct k as [|x k]; [apply suffix_nil |].
  apply suffix_cons_inv in Hk as [E|Hk]; [rewrite <- E in Hgt; lia | by apply IH].
Qed.
Lemma fitting_bound max l m : total (fitting max (l ++ [m])) <= max \/ fitting max (l ++ [m]) = [m].
Proof.
  induction l as [|a l IH]; [by right |]. cbn [app]. rewrite fitting_cons by (by destruct l).
  destruct (Z.leb_spec (total (a :: l ++ [m])) max); [by left | done].
Qed.
Lemma fitting_nonempty max l m : fitting max (l ++ [m]) <> [].
Proof.
  induction l as [|a l IH]; [done |]. cbn [app]. rewrite fitting_cons by (by destruct l). by destruct (_ <=? _).
Qed.

(** C22: The log of messages, after any number of messages (texts, joined texts or streams) and
    whatever its size in bytes is: the entries are the latest messages in order, as many as
    fit into the memory the log may use and always the last one; its log_count of bytes is exact
    and its mutex is free. *)
Theorem log_keeps_latest max os : 0 <= max < 2 ^ 32 -> Forall op_ok os ->
  exists l, log_ops os (MessageLog_new max) = Ok (tt, l) /\ mutex_ l = false /\
    let kept := map message (entries l) in let hist := map logged_text os in
    kept `suffix_of` hist /\ current_memory l = total kept /\ (total kept <= max \/ length kept = 1%nat) /\
    (hist <> [] -> kept <> []) /\
    (forall k, k `suffix_of` hist -> total k <= max -> k `suffix_of` kept).
Proof.
  intros Hmax Hos.
  destruct (log_ops_run max 0 ltac:(lia) os [] (MessageLog_new max)) as (l & R & (Hm & Hx & Hc & He)).
  - by rewrite Z.sub_0_r.
  - cbn. lia.
  - eapply Forall_impl; [| exact Hos]. intros o [? ?]. split; [done | lia].
  - rewrite Z.sub_0_r in *. exists l. split; [done |]. split; [done |]. cbn zeta. rewrite He, stored_messages.
    split; [apply fitting_suffix |]. split; [exact Hc |]. cbn [app] in *. clear R. generalize (map logged_text os); intros hist; induction hist as [|h hs _] using rev_ind.
    + split; [left; cbn; lia |]. split; [done |]. intros k Hk _. exact Hk.
    + split; [destruct (fitting_bound max hs h) as [?| ->]; [by left | by right] |]. split; [|by apply fitting_longest].
      intros _. apply fitting_nonempty.
Qed.
(** Three notices of 71 to 73 bytes, and memory for two. *)
Definition noon : Now := mkNow 124 0 1 12 0 0 0.
Definition notices : list LogOp := [OAdd noon (chars "one"); OAdd4 noon (chars "t") (chars "w") (chars "o") []; OStream noon [chars "thr"; chars "ee"]].
Lemma log_keeps_latest_w : exists l, log_ops notices (MessageLog_new 150) = Ok (tt, l) /\ map message (entries l) = map logged_text (drop 1 notices).
Proof.
  destruct (log_keeps_latest 150 notices) as (l & R & _ & Hs & _ & _ & _ & Hl); [lia | repeat constructor |].
  exists l. split; [exact R |]. vm_compute in R. injection R as <-. reflexivity.
Defined.

(** ** Clearing the log *)
Definition small_op (o : LogOp) : Prop := op_ok o /\ room (logged_text o) < 2 ^ 31.
(** C30: CLEAR MESSAGES empties the log but goes on counting the bytes of what it removed: from
    then on the log keeps only what fits into the memory that was free at that moment, and
    just the last message if none was. *)
Theorem cleared_log_shrinks max os os' : 0 <= max < 2 ^ 31 -> Forall small_op os -> Forall small_op os' ->
  exists l1 l2, log_ops os (MessageLog_new max) = Ok (tt, l1) /\ (run! purge in log_ops os') l1 = Ok (tt, l2) /\
    let lost := total (map message (entries l1)) in
    map message (entries l2) = fitting (max - lost) (map logged_text os') /\
    (os' <> [] -> max <= lost -> length (entries l2) = 1%nat).
Proof.
  intros Hmax Hos Hos'.
  destruct (log_ops_run max 0 ltac:(lia) os [] (MessageLog_new max)) as (l1 & R1 & (Hm & Hx & Hc & He)).
  { by rewrite Z.sub_0_r. } { cbn. lia. }
  { eapply Forall_impl; [|exact Hos]. intros o [? ?]. split; [done | lia]. }
  rewrite Z.sub_0_r in *. cbn [app] in *. set (kept := fitting max (map logged_text os)) in *.
  assert (Hk : 0 <= total kept < 2 ^ 31).
  { split; [apply total_pos |]. subst kept. clear -Hmax Hos. induction os as [|o os _] using rev_ind; [cbn; lia |].
    rewrite map_app. cbn [map]. apply Forall_app in Hos as [_ [[_ Ho] _]%list.Forall_cons].
    pose proof (fitting_last max (map logged_text os) (logged_text o)). lia. }
  set (l1' := mkLog false max (total kept) [] (output l1)).
  destruct (log_ops_run max (total kept) ltac:(lia) os' [] l1') as (l2 & R2 & (_ & _ & _ & He2)).
  { unfold holds, l1'. cbn. split_and!; [done | done | lia | done]. } { cbn. lia. }
  { eapply Forall_impl; [|exact Hos']. intros o [? ?]. split; [done | lia]. }
  exists l1, l2. split; [done |]. split.
  { unfold sbind at 1. unfold purge, scoped, sbind, mutex_lock. rewrite Hm. cbn. unfold set_mutex. cbn. rewrite Hx, Hc. exact R2. }
  cbn zeta. rewrite He, stored_messages, He2, stored_messages. split; [done |]. intros Hne Hfull.
  unfold stored. rewrite length_map. cbn [app]. destruct os' as [|o os' _] using rev_ind; [done |]. rewrite map_app. cbn [map].
  destruct (fitting_bound (max - total kept) (map logged_text os') (logged_text o)) as [Hb | ->]; [|done].
  pose proof (fitting_nonempty (max - total kept) (map logged_text os') (logged_text o)) as Hn.
  destruct (fitting (max - total kept) (map logged_text os' ++ [logged_text o])) as [|x xs]; [done |]. rewrite total_cons in Hb. pose proof (room_pos x). pose proof (total_pos xs). lia.
Qed.
Lemma cleared_log_shrinks_w : exists l1 l2, log_ops notices (MessageLog_new 144) = Ok (tt, l1) /\
  (run! purge in log_ops notices) l1 = Ok (tt, l2) /\ length (entries l2) = 1%nat.
Proof.
  destruct (cleared_log_shrinks 144 notices notices) as (l1 & l2 & R1 & R2 & _ & Hl); [lia | repeat constructor | repeat constructor |].
  exists l1, l2. split; [exact R1 |]. split; [exact R2 |]. apply Hl; [unfold notices; discriminate |]. vm_compute in R1. injection R1 as <-. vm_compute. discriminate.
Defined.

(** ** Where the log locks itself out *)
(** [save] of a file that opens asks for the mutex it holds. *)
Lemma save_locked_out l : log_save true l = Undef.
Proof. destruct l as [[] mx cur es out]; reflexivity. Qed.
(** [load] of a file of texts does the same; a file that [save] was to write has objects. *)
Lemma load_locked_out `{!Libm} n f data s items l : cJSON_Parse (c_str f) = Ok (Some data) -> jtype data = cJSON_Array ->
  child data = s :: items -> jtype s = cJSON_String -> is_Some (valuestring s) -> log_load n (Some (Some f)) l = Undef.
Proof.
  intros Hp Ha Hc Hs [v Hv]. destruct l as [[] mx cur es out]; [done |].
  unfold log_load, sbind at 1, scoped, sbind at 1, mutex_lock. cbn [mutex_ set_mutex]. unfold sbind at 1, log_load_text.
  unfold sbind at 1, slift. rewrite Hp, Ha, Hc. cbn [add_items]. rewrite Hs. unfold sbind at 1, slift. rewrite Hv. reflexivity.
Qed.
Lemma load_missing_logged `{!Libm} n l : mutex_ l = false -> log_load n None l = log_add n (chars "Error opening error log file") l.
Proof. destruct l as [m mx cur es out]. cbn. intros ->. reflexivity. Qed.

(** ** Debug groups *)
(** Names that are defined one after the other have numbers of their own. *)
Definition ls_wf (ls : LogState) : Prop :=
  forall name id, name_map ls !! name = Some id -> 0 <= id < Z.of_nat (length (flag_names ls)) /\ flag_names ls !! Z.to_nat id = Some name.
Lemma define_wf name ls : ls_wf ls -> ls_wf (snd (LogState_define name ls)).
Proof.
  intros Hw n id. cbn. rewrite length_app. cbn [length]. intros [[<- <-]|[Hn Hl]]%lookup_insert_Some.
  - split; [lia |]. by rewrite Nat2Z.id, list_lookup_middle.
  - apply Hw in Hl as [? Hf]. split; [lia |]. by apply lookup_app_l_Some.
Qed.
Lemma groups_distinct ls n1 n2 id : ls_wf ls -> name_map ls !! n1 = Some id -> name_map ls !! n2 = Some id -> n1 = n2.
Proof. intros Hw H1%Hw H2%Hw. destruct H1 as [_ H1], H2 as [_ H2]. congruence. Qed.
Definition log_state0 : LogState := DebugExtra_new (snd (Logger_new LogState_new)).
Lemma define_on_wf name ls : ls_wf ls -> ls_wf (snd (define_on name ls)).
Proof. intros Hw. exact (define_wf name ls Hw). Qed.
Lemma log_state0_wf : ls_wf log_state0.
Proof.
  assert (He : ls_wf LogState_new) by (intros n id; cbn; by rewrite lookup_empty).
  assert (H0 : ls_wf (snd (Logger_new LogState_new))) by (apply (define_on_wf "Everything"), (define_on_wf "Debug"), (define_on_wf "Important"), (define_on_wf "None"), He).
  unfold log_state0, DebugExtra_new. revert H0. generalize (snd (Logger_new LogState_new)), debug_groups.
  intros ls l. revert ls. induction l as [|n l IH]; intros ls Hw; [done |]. cbn [fold_left]. apply IH. by apply define_wf.
Qed.
(** Erasing a flag by its number switches it off, erasing it by its name switches it on. *)
Lemma erase_number_off id ls : LogState_includes id (LogState_erase id ls) = false.
Proof. apply bool_decide_false. cbn. set_solver. Qed.
Lemma erase_name_on name id ls : name_map ls !! name = Some id -> LogState_includes id (LogState_erase_name name ls) = true.
Proof. intros E. unfold LogState_erase_name. rewrite E. apply bool_decide_true. cbn. set_solver. Qed.
(** DEBUG with the name of a machine also switches a group, the first one: None is switched
    off, so nothing is logged at that level any more. *)
Definition debug_world : LogWorld := mkLogWorld Tokeniser_new log_state0 (MessageLog_new 100) {["pump" := false]} [].
(** The answer, whether a group is on before and after, and the messages to modbus. *)
Definition say (line : list string) (group : string) : res (Reply * bool * bool * list string) :=
  let id := LogState_lookup group log_state0 in
  '(r, w) ← @Debug_run no_dyn (map (fun s => text_param (chars s)) line) debug_world;
  Ok (r, LogState_includes id log_state0, LogState_includes id (lw_state w), lw_modbus w).
Example machine_debug_off : say ["DEBUG"; "pump"; "off"] "None" = Ok (OK_reply, true, false, []).
Proof. vm_compute. reflexivity. Qed.
Example group_debug_on : say ["DEBUG"; "DEBUG_MODBUS"; "ON"] "DEBUG_MODBUS" = Ok (OK_reply, false, true, ["DEBUG ON"]).
Proof. vm_compute. reflexivity. Qed.
Example unknown_group : say ["DEBUG"; "nothing"; "ON"] "None" = Ok (mkReply false "Unknown debug group", true, true, []).
Proof. vm_compute. reflexivity. Qed.

(** ** Statistics *)
Definition stat_all (s : Statistic) (l : list Z) : res Statistic := fold_left (fun r z => t ← r; Statistic_add z t) l (Ok s).
Lemma stat_all_cons s z l : stat_all s (z :: l) = (t ← Statistic_add z s; stat_all t l).
Proof.
  unfold stat_all. cbn [fold_left mbind res_bind]. destruct (Statistic_add z s) as [t | |]; [done | |]; by induction l.
Qed.
(** Values below the root of the largest integer: the number of values and their bounds. *)
Lemma statistic_bounds s l : 0 <= st_count s -> st_count s + Z.of_nat (length l) <= INT_MAX -> Forall (fun z => Z.abs z < 3037000500) l ->
  exists t, stat_all s l = Ok t /\ st_count t = st_count s + Z.of_nat (length l) /\
    min_value t = fold_left Z.min l (min_value s) /\ max_value t = fold_left Z.max l (max_value s) /\
    sum t = fold_left (fun a z => fadd a (float_of_Z z)) l (sum s).
Proof.
  revert s. induction l as [|z l IH]; intros s H0 Hn Hl; [exists s; cbn; split_and!; [done | lia | done | done | done] |].
  apply list.Forall_cons in Hl as [Hz Hl]. cbn [length] in Hn. rewrite stat_all_cons. unfold Statistic_add.
  unfold int_of. rewrite (proj2 (in_int_spec _)) by (unfold INT_MIN, INT_MAX in *; lia). cbn [mbind res_bind].
  rewrite long_of_ok by (unfold LONG_MIN, LONG_MAX; nia). cbn [mbind res_bind].
  edestruct IH as (t & R & Hc & Hmin & Hmax & Hs); [| | exact Hl | exists t; split; [exact R |]]; cbn [st_count] in *; [lia | lia |].
  cbn [length fold_left min_value max_value sum] in *. rewrite Hmin, Hmax. split; [lia |]. split_and!; [| |exact Hs].
  - f_equal. destruct (Z.ltb_spec z (min_value s)); lia.
  - f_equal. destruct (Z.ltb_spec (max_value s) z); lia.
Qed.
