(* ===== verification/EtherCAT.v ===== *)
(** The interface to the EtherCAT master (ECInterface.cpp) and the machine that follows the
    state of the bus (ControlSystemMachine.cpp). The master is a library: its process image,
    what it reports of the link and of the slaves, and the results of its calls are inputs. *)
From S2P Require Import Prelude Cnum Tokeniser Value SymbolTable ValueOps Message BitOps Machine Names IOComponents.
Open Scope Z_scope.
Local Open Scope sm_scope.

(** ** Modules *)
Record SlaveState := mkSlave { al_state : Z; s_online : bool; s_oper : bool }.
Record ECModule := mkModule { ec_name : string; alias : Z; ec_position : Z; slave_config : bool; slave_config_state : SlaveState }.
Definition addModule (module : option ECModule) (modules : list ECModule) : bool * list ECModule :=
  match module with
  | None => (true, modules)
  | Some x =>
      if existsb (fun m => (alias m =? alias x) && (ec_position m =? ec_position x)) modules then (false, modules)
      else (true, modules ++ [x])
  end.
(** Positions from the number of modules on are not searched for. *)
Definition findModule (pos : Z) (modules : list ECModule) : option ECModule :=
  if Z.of_nat (length modules) <=? pos then None else List.find (fun m => ec_position m =? pos) modules.
Definition all_online (modules : list ECModule) : bool := forallb (fun m => s_online (slave_config_state m)) modules.
Definition all_operational (modules : list ECModule) : bool := forallb (fun m => s_oper (slave_config_state m)) modules.

(** ** The state of the interface *)
Record MasterState := mkMaster { slaves_responding : Z; al_states : Z; link_up : bool }.
(** What is written to the log. *)
Inductive Note :=
| NSlaves (was now : Z) | NFewSlaves (now expected : Z) | NALStates (was now : Z) | NLink (was now : bool)
| NEmergency (i : Z) (name : string) | NSlaveState (i : Z) (name : string) (was now : Z)
| NOnline (i : Z) (name : string) (was now : bool) | NOperational (i : Z) (name : string) (was now : bool)
| NActivated | NActivateFailed (code : Z) | NNoDomainData | NDeactivating | NCleanup | NRemoving | NDeleting (name : string)
| NRecreating | NDomain (size : Z).
Record ECState := mkEC {
  ec_master : bool; initialised : bool; active : bool;
  domain1 : option bytes;              (** the process image of the domain *)
  process_data : option bytes;         (** the image at the last collection *)
  ec_update_data : option bytes; ec_update_mask : option bytes;
  app_process_mask : option bytes;
  min_io_index : Z; max_io_index : Z;
  modules : list ECModule;
  master_state : MasterState; master_state_changed : Z; master_last_checked : Z;
  expected_slaves : Z; failure_tolerance : option Z; failure_count : Z;
  all_ok : bool; master_was_running : bool; link_was_up : bool;
  slaves_not_operational : Z; slaves_offline : Z;
  notes : list Note
}.
Definition EM : Type -> Type := SM ECState.
(** The results of [ecrt_master_activate] and [ecrt_domain_data], and whether
    [ecrt_master_create_domain] gives a domain, with its image. *)
Class MasterCalls := { ecrt_master_activate : Z; ecrt_domain_data : option bytes; ecrt_master_create_domain : option bytes }.

Definition upd (f : ECState -> ECState) : EM unit := fun s => Ok (tt, f s).
Definition ask {A} (f : ECState -> A) : EM A := fun s => Ok (f s, s).
Definition with_image (d p u m : option bytes) (s : ECState) : ECState :=
  mkEC (ec_master s) (initialised s) (active s) d p u m (app_process_mask s) (min_io_index s) (max_io_index s) (modules s)
    (master_state s) (master_state_changed s) (master_last_checked s) (expected_slaves s) (failure_tolerance s) (failure_count s)
    (all_ok s) (master_was_running s) (link_was_up s) (slaves_not_operational s) (slaves_offline s) (notes s).
Definition with_active (a : bool) (s : ECState) : ECState :=
  mkEC (ec_master s) (initialised s) a (domain1 s) (process_data s) (ec_update_data s) (ec_update_mask s) (app_process_mask s)
    (min_io_index s) (max_io_index s) (modules s) (master_state s) (master_state_changed s) (master_last_checked s) (expected_slaves s)
    (failure_tolerance s) (failure_count s) (all_ok s) (master_was_running s) (link_was_up s) (slaves_not_operational s)
    (slaves_offline s) (notes s).
Definition with_initialised (a : bool) (s : ECState) : ECState :=
  mkEC (ec_master s) a (active s) (domain1 s) (process_data s) (ec_update_data s) (ec_update_mask s) (app_process_mask s)
    (min_io_index s) (max_io_index s) (modules s) (master_state s) (master_state_changed s) (master_last_checked s) (expected_slaves s)
    (failure_tolerance s) (failure_count s) (all_ok s) (master_was_running s) (link_was_up s) (slaves_not_operational s)
    (slaves_offline s) (notes s).
Definition with_mask (m : option bytes) (s : ECState) : ECState :=
  mkEC (ec_master s) (initialised s) (active s) (domain1 s) (process_data s) (ec_update_data s) (ec_update_mask s) m
    (min_io_index s) (max_io_index s) (modules s) (master_state s) (master_state_changed s) (master_last_checked s) (expected_slaves s)
    (failure_tolerance s) (failure_count s) (all_ok s) (master_was_running s) (link_was_up s) (slaves_not_operational s)
    (slaves_offline s) (notes s).
Definition with_range (lo hi : Z) (s : ECState) : ECState :=
  mkEC (ec_master s) (initialised s) (active s) (domain1 s) (process_data s) (ec_update_data s) (ec_update_mask s) (app_process_mask s)
    lo hi (modules s) (master_state s) (master_state_changed s) (master_last_checked s) (expected_slaves s)
    (failure_tolerance s) (failure_count s) (all_ok s) (master_was_running s) (link_was_up s) (slaves_not_operational s)
    (slaves_offline s) (notes s).
Definition with_modules (ms : list ECModule) (n off : Z) (s : ECState) : ECState :=
  mkEC (ec_master s) (initialised s) (active s) (domain1 s) (process_data s) (ec_update_data s) (ec_update_mask s) (app_process_mask s)
    (min_io_index s) (max_io_index s) ms (master_state s) (master_state_changed s) (master_last_checked s) (expected_slaves s)
    (failure_tolerance s) (failure_count s) (all_ok s) (master_was_running s) (link_was_up s) n off (notes s).
Definition with_master (ms : MasterState) (checked : Z) (s : ECState) : ECState :=
  mkEC (ec_master s) (initialised s) (active s) (domain1 s) (process_data s) (ec_update_data s) (ec_update_mask s) (app_process_mask s)
    (min_io_index s) (max_io_index s) (modules s) ms (master_state_changed s) checked (expected_slaves s)
    (failure_tolerance s) (failure_count s) (all_ok s) (master_was_running s) (link_was_up s) (slaves_not_operational s)
    (slaves_offline s) (notes s).
Definition with_changed (now : Z) (s : ECState) : ECState :=
  mkEC (ec_master s) (initialised s) (active s) (domain1 s) (process_data s) (ec_update_data s) (ec_update_mask s) (app_process_mask s)
    (min_io_index s) (max_io_index s) (modules s) (master_state s) now (master_last_checked s) (expected_slaves s)
    (failure_tolerance s) (failure_count s) (all_ok s) (master_was_running s) (link_was_up s) (slaves_not_operational s)
    (slaves_offline s) (notes s).
Definition with_health (expected count : Z) (ok running up : bool) (s : ECState) : ECState :=
  mkEC (ec_master s) (initialised s) (active s) (domain1 s) (process_data s) (ec_update_data s) (ec_update_mask s) (app_process_mask s)
    (min_io_index s) (max_io_index s) (modules s) (master_state s) (master_state_changed s) (master_last_checked s) expected
    (failure_tolerance s) count ok running up (slaves_not_operational s) (slaves_offline s) (notes s).
Definition note (n : Note) : EM unit := upd (fun s =>
  mkEC (ec_master s) (initialised s) (active s) (domain1 s) (process_data s) (ec_update_data s) (ec_update_mask s) (app_process_mask s)
    (min_io_index s) (max_io_index s) (modules s) (master_state s) (master_state_changed s) (master_last_checked s) (expected_slaves s)
    (failure_tolerance s) (failure_count s) (all_ok s) (master_was_running s) (link_was_up s) (slaves_not_operational s)
    (slaves_offline s) (notes s ++ [n])).

(** ** Process data *)
Definition setMinIOIndex (new_val : Z) : EM unit := fun s =>
  if min_io_index s =? 0 then Ok (tt, with_range new_val (max_io_index s) s) else Abort.
Definition setMaxIOIndex (new_val : Z) : EM unit := upd (fun s => with_range (min_io_index s) new_val s).
Definition getProcessDataSize (s : ECState) : Z := u32 (max_io_index s - min_io_index s + 1).
Definition ec_setProcessData (pd : option bytes) : EM unit := upd (fun s =>
  with_image (domain1 s) pd (ec_update_data s) (ec_update_mask s) s).
(** A copy of the first [size] bytes of the mask. *)
Definition setAppProcessMask (new_mask : bytes) (size : Z) : EM unit := fun s =>
  if Z.of_nat (length new_mask) <? size then Undef else Ok (tt, with_mask (Some (take (Z.to_nat size) new_mask)) s).

(** Data from the program: bits whose mask is set and that differ go into the image. *)
Fixpoint domain_bits (n : nat) (bitmask data mask pd : Z) : Z :=
  match n with
  | O => pd
  | S n' => domain_bits n' (u8 (Z.shiftl bitmask 1)) data mask
              (if negb (Z.land mask bitmask =? 0) then change_bit data bitmask pd else pd)
  end.
Fixpoint update_bytes (size : nat) (data mask pd : bytes) : res bytes :=
  match size with
  | O => Ok pd
  | S n =>
      match data, mask, pd with
      | d :: data', m :: mask', p :: pd' =>
          rest ← update_bytes n data' mask' pd';
          Ok ((if negb (m =? 0) && negb (d =? p) then domain_bits 8 1 d m p else p) :: rest)
      | _, _, _ => Undef
      end
  end.
Definition updateDomain (size : Z) (data mask : bytes) : EM unit := fun s =>
  pd ← rd (domain1 s);
  pd' ← update_bytes (Z.to_nat size) data mask pd;
  Ok (tt, with_image (Some pd') (process_data s) (ec_update_data s) (ec_update_mask s) s).

(** Changes of the image: the bits that matter and that changed since the last time are
    marked; the first time all that matter. *)
Fixpoint collect_bits (n : nat) (bitmask pm pd last : Z) (st : Z * Z) : Z * Z :=
  match n with
  | O => st
  | S n' =>
      let '(m, affected) := st in
      collect_bits n' (u8 (Z.shiftl bitmask 1)) pm pd last
        (if negb (Z.land pm bitmask =? 0) && negb (Z.land pd bitmask =? Z.land last bitmask)
         then (Z.lor m bitmask, affected + 1) else st)
  end.
Fixpoint collect_bytes (domain pm : bytes) (last : option bytes) : res (bytes * Z) :=
  match domain with
  | [] => Ok ([], 0)
  | d :: domain' =>
      m ← rd (pm !! 0%nat);
      st ← (match last with
            | None => Ok (m, 1)
            | Some l => b ← rd (l !! 0%nat); Ok (if b =? d then (0, 0) else collect_bits 8 1 m d b (0, 0))
            end);
      rest ← collect_bytes domain' (drop 1 pm) (match last with Some l => Some (drop 1 l) | None => None end);
      Ok (fst st :: fst rest, snd st + snd rest)
  end.
(** The bits in [update_data] are overwritten by the copy of the image at the end. *)
Definition collectState : EM Z := fun s =>
  if negb (ec_master s) || negb (initialised s) || negb (active s) then Ok (0, s)
  else match domain1 s with
  | None => Ok (0, s)
  | Some d =>
      if Z.of_nat (length d) <? u64 (max_io_index s - min_io_index s + 1) then Ok (0, s)
      else
        pm ← match app_process_mask s with Some m => Ok m | None => Abort end;
        if negb (min_io_index s =? 0) then Abort
        else
          r ← collect_bytes d pm (process_data s);
          n ← int_of (snd r);
          Ok (n, with_image (Some d) (Some d) (Some d) (Some (fst r)) s)
  end.
(** What is sent to the bus. *)
Definition sendUpdates (s : ECState) : option bytes :=
  if negb (ec_master s) || negb (initialised s) || negb (active s) || negb (all_ok s) then None else domain1 s.

(** ** Starting and stopping the master *)
Section Calls.
Context `{!MasterCalls}.
Definition ec_activate : EM bool :=
  if negb (ecrt_master_activate =? 0) then run! note (NActivateFailed ecrt_master_activate) in sret false
  else
    run! upd (with_active true) in
    run! note NActivated in
    match ecrt_domain_data with
    | None => run! note NNoDomainData in run! upd (with_active false) in sret false
    | Some d => run! upd (fun s => with_image (Some d) (process_data s) (ec_update_data s) (ec_update_mask s) s) in sret true
    end.
Fixpoint note_all (l : list Note) : EM unit :=
  match l with [] => sret tt | n :: l' => run! note n in note_all l' end.
(** With a master a domain that cannot be made again is an error; without one the old domain
    stays. *)
Definition ec_deactivate : EM bool :=
  run! note NDeactivating in
  run! upd (with_active false) in
  let! has := ask ec_master in
  run! (if has : bool then
          run! note NRecreating in
          match ecrt_master_create_domain with
          | Some d => upd (fun s => with_image (Some d) (process_data s) (ec_update_data s) (ec_update_mask s) s)
          | None => fun _ => Abort
          end
        else sret tt) in
  run! note NCleanup in
  run! ec_setProcessData None in
  run! note NRemoving in
  let! ms := ask modules in
  run! note_all (map (fun m => NDeleting (ec_name m)) ms) in
  run! upd (fun s => with_modules [] (slaves_not_operational s) (slaves_offline s) s) in
  let! d := ask domain1 in
  match d with
  | None => run! upd (with_initialised false) in sret false
  | Some l =>
      run! note (NDomain (Z.of_nat (length l))) in
      run! upd (fun s => with_health (expected_slaves s) 0 true (master_was_running s) (link_was_up s) s) in
      sret true
  end.

(** ** Following the master *)
(** [++failure_count > *failure_tolerance], where there is a tolerance; then [all_ok] is
    lost. *)
Definition count_failure : EM unit := fun s =>
  match failure_tolerance s with
  | None => Ok (tt, s)
  | Some t =>
      n ← int_of (failure_count s + 1);
      Ok (tt, with_health (expected_slaves s) n (if t <? n then false else all_ok s) (master_was_running s) (link_was_up s) s)
  end.
Definition count_failure_if_ok : EM unit := fun s => if all_ok s then count_failure s else Ok (tt, s).
Definition check_slaves (now : Z) (ms : MasterState) : EM unit :=
  let! old := ask master_state in
  let! expected := ask expected_slaves in
  let differ := negb (slaves_responding ms =? slaves_responding old) in
  run! (if differ then
          run! upd (with_changed now) in
          note (if expected <=? slaves_responding ms then NSlaves (slaves_responding old) (slaves_responding ms)
                else NFewSlaves (slaves_responding ms) expected)
        else sret tt) in
  if differ || (slaves_responding ms <? expected) then
    if expected <? slaves_responding ms then
      upd (fun s => with_health (slaves_responding ms) (failure_count s) (all_ok s) (master_was_running s) (link_was_up s) s)
    else count_failure
  else sret tt.
Definition check_al_states (now : Z) (ms : MasterState) : EM unit :=
  let! old := ask master_state in
  run! (if al_states ms =? al_states old then sret tt
        else run! upd (with_changed now) in note (NALStates (al_states old) (al_states ms))) in
  let! running := ask master_was_running in
  if running && negb (al_states ms =? 8) then count_failure_if_ok
  else if al_states ms =? 8 then
    upd (fun s => with_health (expected_slaves s) (failure_count s) (all_ok s) true (link_was_up s) s)
  else sret tt.
Definition check_link (now : Z) (ms : MasterState) : EM unit :=
  let! old := ask master_state in
  let differ := negb (Bool.eqb (link_up ms) (link_up old)) in
  run! (if differ then run! upd (with_changed now) in note (NLink (link_up old) (link_up ms)) else sret tt) in
  let! was_up := ask link_was_up in
  if differ || (was_up && negb (link_up ms)) then
    if negb (link_up ms) then count_failure_if_ok
    else
      run! upd (fun s => with_health (expected_slaves s) 0 (all_ok s) (master_was_running s) true s) in
      let! a := ask active in
      if a : bool then let! _b := ec_activate in sret tt else sret tt
  else sret tt.
Definition check_master_state (now : Z) (ms : MasterState) : EM unit :=
  run! check_slaves now ms in
  run! check_al_states now ms in
  run! check_link now ms in
  upd (with_master ms now).

(** What the master says of a slave: an emergency and its state. *)
Definition changed_note {A} `{EqDecision A} (was now : A) (n : Note) : EM unit := if bool_decide (now = was) then sret tt else note n.
Fixpoint check_modules (report : ECModule -> bool * SlaveState) (i : Z) (l : list ECModule) : EM (list ECModule * Z) :=
  match l with
  | [] => sret ([], 0)
  | m :: l' =>
      if negb (slave_config m) then
        let! rest := check_modules report i l' in sret (m :: fst rest, snd rest)
      else
        let '(emergency, st) := report m in
        let old := slave_config_state m in
        run! (if emergency : bool then note (NEmergency i (ec_name m)) else sret tt) in
        run! changed_note (al_state old) (al_state st) (NSlaveState i (ec_name m) (al_state old) (al_state st)) in
        run! changed_note (s_online old) (s_online st) (NOnline i (ec_name m) (s_online old) (s_online st)) in
        run! changed_note (s_oper old) (s_oper st) (NOperational i (ec_name m) (s_oper old) (s_oper st)) in
        let! rest := check_modules report (i + 1) l' in
        sret (mkModule (ec_name m) (alias m) (ec_position m) true st :: fst rest, (if s_online st then 0 else 1) + snd rest)
  end.
(** The number of offline slaves is added to every time; [slaves_offline] is never reset. *)
Definition check_slave_config_states (report : ECModule -> bool * SlaveState) : EM unit :=
  let! ms := ask modules in
  let! r := check_modules report 0 ms in
  let! off := ask slaves_offline in
  let? n := int_of (off + snd r) in
  upd (with_modules (fst r) (snd r) n).
(** [receiveState]: the bus writes the image. *)
Definition receiveState (now : Z) (image : bytes -> bytes) (ms : MasterState) (report : ECModule -> bool * SlaveState) : EM unit := fun s =>
  if negb (ec_master s) || negb (initialised s) then Ok (tt, s)
  else
    (run! (if active s then upd (fun s => with_image (image <$> domain1 s) (process_data s) (ec_update_data s) (ec_update_mask s) s) else sret tt) in
     run! check_master_state now ms in
     check_slave_config_states report) s.
End Calls.
