(* ===== verification/EtherCATProps.v ===== *)
(** Process data on the bus: what the program sends goes into the image bit by bit, what
    changes in the image reaches the program, and an output that is switched comes back
    through the image. *)
From S2P Require Import Prelude Cnum Tokeniser Value BitOps Message IOComponents IOMaskProps IOProps IOOutputs IOCycle EtherCAT.
Open Scope Z_scope.
Local Open Scope sm_scope.

(** ** Bytes *)
Lemma next_mask n : (n < 8)%nat -> u8 (Z.shiftl (2 ^ (8 - Z.of_nat (S n))) 1) = if (n =? 0)%nat then 0 else 2 ^ (8 - Z.of_nat n).
Proof. intros Hn. do 8 (destruct n as [|n]; [reflexivity |]). lia. Qed.
(** The bits from [8 - n] on are taken from [d] where [m] is set. *)
Lemma domain_bits_spec n : forall p, (n <= 8)%nat -> byte p -> forall d m,
  let q := domain_bits n (if (n =? 0)%nat then 0 else 2 ^ (8 - Z.of_nat n)) d m p in
  byte q /\ forall k, 0 <= k < 8 -> Z.testbit q k = if (8 - Z.of_nat n <=? k) && Z.testbit m k then Z.testbit d k else Z.testbit p k.
Proof.
  induction n as [|n IH]; intros p Hn Hp d m; cbn zeta.
  { split; [done |]. intros k Hk. change (Z.of_nat 0) with 0. rewrite (proj2 (Z.leb_gt _ k)) by lia. done. }
  change (S n =? 0)%nat with false. cbn [domain_bits]. rewrite next_mask by lia. set (j := 8 - Z.of_nat (S n)). assert (Hj : 0 <= j < 8) by (subst j; lia).
  rewrite mask_bit by lia. set (p1 := if Z.testbit m j then change_bit d (2 ^ j) p else p).
  assert (H1 : byte p1 /\ forall k, 0 <= k < 8 -> Z.testbit p1 k = if (k =? j) && Z.testbit m k then Z.testbit d k else Z.testbit p k).
  { subst p1. destruct (Z.testbit m j) eqn:Em.
    - split; [by apply (change_bit_spec d p j 0) |]. intros k Hk. rewrite (proj2 (change_bit_spec d p j k Hp Hj ltac:(lia))).
      destruct (Z.eqb_spec k j) as [-> |]; [by rewrite Em | done].
    - split; [done |]. intros k Hk. destruct (Z.eqb_spec k j) as [-> |]; [by rewrite Em | done]. }
  destruct H1 as [B1 T1]. destruct (IH p1 ltac:(lia) B1 d m) as [B2 T2]. split; [exact B2 |]. intros k Hk. rewrite T2, T1 by done.
  destruct (Z.leb_spec (8 - Z.of_nat n) k), (Z.eqb_spec k j), (Z.leb_spec j k), (Z.testbit m k); subst j; done || lia.
Qed.
Lemma domain_byte d m p : byte d -> byte m -> byte p ->
  (if negb (m =? 0) && negb (d =? p) then domain_bits 8 1 d m p else p) = merge p d m.
Proof.
  intros Hd Hm Hp. destruct (Z.eqb_spec m 0) as [-> |]; [by rewrite merge_none |].
  destruct (Z.eqb_spec d p) as [-> |]; [by rewrite merge_same |]. cbn [negb andb].
  destruct (domain_bits_spec 8 p ltac:(lia) Hp d m) as [B T]. apply merge_byte_bits; try done.
  intros k Hk. rewrite T by done. rewrite (proj2 (Z.leb_le _ _)) by lia. done.
Qed.
Lemma update_bytes_merges pd : forall data mask, Forall byte data -> Forall byte mask -> Forall byte pd ->
  length data = length pd -> length mask = length pd -> update_bytes (length pd) data mask pd = Ok (merge_bytes pd data mask).
Proof.
  induction pd as [|p pd IH]; intros [|d data] [|m mask] Hd Hm Hp Ld Lm; try discriminate; [done |].
  apply list.Forall_cons in Hd as [? ?], Hm as [? ?], Hp as [? ?]. cbn [length update_bytes merge_bytes].
  rewrite (IH data mask) by (done || (cbn in Ld, Lm; lia)). cbn [mbind res_bind]. by rewrite domain_byte.
Qed.
(** The marked bits of a byte, from [8 - n] on, and of all bytes. *)
Fixpoint ones (n : nat) (b : Z) : Z :=
  match n with O => 0 | S n' => (if Z.testbit b (8 - Z.of_nat n) then 1 else 0) + ones n' b end.
Definition marks (l : bytes) : Z := fold_right (fun b t => ones 8 b + t) 0 l.
Lemma ones_range n b : 0 <= ones n b <= Z.of_nat n.
Proof. induction n as [|n IH]; [cbn; lia |]. cbn [ones]. destruct (Z.testbit _ _); lia. Qed.
Lemma marks_range l : 0 <= marks l <= 8 * Z.of_nat (length l).
Proof. induction l as [|b l IH]; [cbn; lia |]. cbn [marks fold_right length]. fold (marks l). pose proof (ones_range 8 b). lia. Qed.
Lemma ones_zero n : ones n 0 = 0.
Proof. induction n as [|n IH]; [done |]. cbn [ones]. by rewrite Z.bits_0, IH. Qed.
Lemma collect_bits_spec n : forall m0 a0 pm pd last, (n <= 8)%nat ->
  let w := Z.land pm (Z.lxor pd last) in
  exists m1, collect_bits n (if (n =? 0)%nat then 0 else 2 ^ (8 - Z.of_nat n)) pm pd last (m0, a0) = (m1, a0 + ones n w) /\
    forall k, 0 <= k -> Z.testbit m1 k = Z.testbit m0 k || ((8 - Z.of_nat n <=? k) && (k <? 8) && Z.testbit w k).
Proof.
  induction n as [|n IH]; intros m0 a0 pm pd last Hn; cbn zeta.
  { exists m0. split; [cbn; f_equal; lia |]. intros k Hk. destruct (Z.leb_spec (8 - Z.of_nat 0) k), (Z.ltb_spec k 8); try lia; by rewrite orb_false_r. }
  change (S n =? 0)%nat with false. cbn [collect_bits ones]. rewrite next_mask by lia. set (j := 8 - Z.of_nat (S n)). assert (Hj : 0 <= j < 8) by (subst j; lia).
  rewrite mask_bit, land_bit_eqb by lia. set (w := Z.land pm (Z.lxor pd last)).
  assert (Ew : Z.testbit pm j && negb (Bool.eqb (Z.testbit pd j) (Z.testbit last j)) = Z.testbit w j).
  { subst w. rewrite Z.land_spec, Z.lxor_spec. by destruct (Z.testbit pd j), (Z.testbit last j). }
  rewrite Ew. set (st := if Z.testbit w j then (Z.lor m0 (2 ^ j), a0 + 1) else (m0, a0)).
  destruct (IH (fst st) (snd st) pm pd last ltac:(lia)) as (m1 & R & T). rewrite <- surjective_pairing in R. fold w in R, T.
  exists m1. split.
  - rewrite R. f_equal. subst st. destruct (Z.testbit w j); cbn [snd]; lia.
  - intros k Hk. rewrite T by done. subst st. assert (Hje : j = 7 - Z.of_nat n) by (subst j; lia). clearbody j. clear R T IH.
    destruct (Z.testbit w j) eqn:E; cbn [fst]; rewrite ?Z.lor_spec, ?Z.pow2_bits_eqb by lia; destruct (Z.eqb_spec j k) as [-> |];
      rewrite ?E; destruct (Z.leb_spec (8 - Z.of_nat n) k), (Z.ltb_spec k 8); try lia;
      destruct (Z.leb_spec j k) || destruct (Z.leb_spec k k); try lia; cbn [andb]; rewrite ?orb_true_r, ?orb_false_r, ?andb_false_r; done.
Qed.
Lemma collect_byte pm pd last : byte pm -> byte pd -> byte last ->
  collect_bits 8 1 pm pd last (0, 0) = (Z.land pm (Z.lxor pd last), ones 8 (Z.land pm (Z.lxor pd last))).
Proof.
  intros Hm Hp Hl. destruct (collect_bits_spec 8 0 0 pm pd last ltac:(lia)) as (m1 & R & T). change (2 ^ (8 - Z.of_nat 8)) with 1 in R.
  cbn [Nat.eqb] in R. rewrite R. f_equal. apply Z.bits_inj'. intros k Hk. rewrite T, Z.bits_0 by done.
  destruct (Z.leb_spec (8 - Z.of_nat 8) k), (Z.ltb_spec k 8); try lia; cbn [andb orb]; [done |].
  by rewrite Z.land_spec, (byte_bits pm) by done.
Qed.
Definition changes (d pm l : bytes) : bytes := zip_with (fun '(x, m) y => Z.land m (Z.lxor x y)) (zip d pm) l.
Lemma land_byte m x : byte m -> byte (Z.land m x).
Proof.
  intros Hm. destruct (Z.eq_dec (Z.land m x) 0) as [-> | Hne]; [by split |].
  assert (0 <= Z.land m x) by (apply Z.land_nonneg; left; apply Hm). split; [done |].
  apply Z.log2_lt_cancel. change (Z.log2 256) with 8. apply Z.le_lt_trans with 7; [|lia]. apply Z.lt_succ_r, Z.nle_gt. intros Hle.
  assert (Hb : Z.testbit (Z.land m x) (Z.log2 (Z.land m x)) = true) by (apply Z.bit_log2; lia).
  rewrite Z.land_spec, byte_bits in Hb by done. done.
Qed.
Lemma collect_bytes_spec d : forall pm l, Forall byte d -> Forall byte pm -> Forall byte l ->
  (length d <= length pm)%nat -> length l = length d ->
  collect_bytes d pm (Some l) = Ok (changes d pm l, marks (changes d pm l)).
Proof.
  induction d as [|x d IH]; intros [|m pm] [|y l] Hd Hm Hl Lm Ll; try (cbn in *; lia || discriminate || done).
  apply list.Forall_cons in Hd as [? ?], Hm as [? ?], Hl as [? ?]. cbn [collect_bytes lookup list_lookup rd mbind res_bind]. change (drop 1 (m :: pm)) with pm. change (drop 1 (y :: l)) with l.
  rewrite (IH pm l) by (done || (cbn in Lm, Ll; lia)). cbn [mbind res_bind fst snd]. cbn [changes zip zip_with marks fold_right].
  fold (changes d pm l). fold (marks (changes d pm l)). destruct (Z.eqb_spec y x) as [-> |].
  - rewrite Z.lxor_nilpotent, Z.land_0_r, ones_zero. done.
  - by rewrite collect_byte.
Qed.
Lemma changes_bytes d : forall pm l, Forall byte pm -> Forall byte (changes d pm l).
Proof.
  induction d as [|x d IH]; intros [|m pm] [|y l] Hm; try (by constructor). apply list.Forall_cons in Hm as [? ?].
  constructor; [by apply land_byte | by apply IH].
Qed.
Lemma changes_length d pm l : length pm = length d -> length l = length d -> length (changes d pm l) = length d.
Proof. intros Lm Ll. unfold changes. rewrite length_zip_with, length_zip_with. lia. Qed.
Lemma changes_bit d pm l g : length pm = length d -> length l = length d -> 0 <= g ->
  bit (changes d pm l) g = bit pm g && xorb (bit d g) (bit l g).
Proof.
  intros Lm Ll Hg. unfold bit, changes. pose proof (Z.mod_pos_bound g 8 ltac:(lia)).
  destruct (pm !! Z.to_nat (g / 8)) as [m|] eqn:Em.
  - pose proof (lookup_lt_Some _ _ _ Em). destruct (lookup_lt_is_Some_2 d (Z.to_nat (g / 8))) as [x Ex]; [lia |].
    destruct (lookup_lt_is_Some_2 l (Z.to_nat (g / 8))) as [y Ey]; [lia |].
    rewrite lookup_zip_with, lookup_zip_with, Ex, Em, Ey. cbn. by rewrite Z.land_spec, Z.lxor_spec.
  - rewrite lookup_zip_with, lookup_zip_with, Em. by destruct (d !! Z.to_nat (g / 8)).
Qed.
Lemma bit_head b l k : 0 <= k < 8 -> bit (b :: l) k = Z.testbit b k.
Proof. intros Hk. by apply (bit_at (b :: l) 0 k b). Qed.
Lemma bit_tail b l g : 0 <= g -> bit (b :: l) (g + 8) = bit l g.
Proof.
  intros Hg. unfold bit. replace ((g + 8) / 8) with (g / 8 + 1) by (rewrite <- (Z.div_add g 1 8) by lia; done).
  replace ((g + 8) mod 8) with (g mod 8) by (rewrite <- (Z.mod_add g 1 8) by lia; done).
  pose proof (Z.div_pos g 8 Hg ltac:(lia)). by rewrite Z2Nat.inj_add, Nat.add_1_r by lia.
Qed.
Lemma marks_none l : (forall g, 0 <= g -> bit l g = false) -> marks l = 0.
Proof.
  induction l as [|b l IH]; intros Hb; [done |]. cbn [marks fold_right]. fold (marks l). rewrite IH.
  - cbn [ones]. rewrite <- !(bit_head b l) by lia. rewrite !Hb by lia. done.
  - intros g Hg. rewrite <- (bit_tail b) by done. apply Hb. lia.
Qed.
Lemma marks_one l : forall g0, 0 <= g0 < 8 * Z.of_nat (length l) -> (forall g, 0 <= g -> bit l g = (g =? g0)) -> marks l = 1.
Proof.
  induction l as [|b l IH]; intros g0 Hr Hb; [cbn in Hr; lia |]. cbn [marks fold_right length] in *. fold (marks l).
  assert (Ho : ones 8 b = if g0 <? 8 then 1 else 0).
  { cbn [ones]. rewrite <- !(bit_head b l) by lia. rewrite !Hb by lia. destruct (Z.ltb_spec g0 8).
    - assert (g0 = 0 \/ g0 = 1 \/ g0 = 2 \/ g0 = 3 \/ g0 = 4 \/ g0 = 5 \/ g0 = 6 \/ g0 = 7) as Hc by lia. by destruct_or! Hc; subst.
    - by rewrite !(proj2 (Z.eqb_neq _ _)) by lia. }
  rewrite Ho. assert (Ht : forall g, 0 <= g -> bit l g = (g + 8 =? g0)) by (intros g Hg; rewrite <- (bit_tail b) by done; apply Hb; lia).
  destruct (Z.ltb_spec g0 8).
  - rewrite marks_none; [done |]. intros g Hg. rewrite Ht by done. apply Z.eqb_neq. lia.
  - rewrite (IH (g0 - 8)); [done | lia |]. intros g Hg. rewrite Ht by done. destruct (Z.eqb_spec (g + 8) g0), (Z.eqb_spec g (g0 - 8)); done || lia.
Qed.

(** ** The image and the program *)
(** The master is active and the program has told which bits matter ([pm]); [d] is the
    image, [l] the image at the last collection. *)
Record bus_ready (e : ECState) (d l pm : bytes) : Prop := {
  br_up : ec_master e = true /\ initialised e = true /\ active e = true;
  br_domain : domain1 e = Some d;
  br_last : process_data e = Some l;
  br_mask : app_process_mask e = Some pm;
  br_range : min_io_index e = 0 /\ 0 <= max_io_index e < Z.of_nat (length d) /\ 8 * Z.of_nat (length d) <= INT_MAX;
  br_length : length pm = length d /\ length l = length d;
  br_bytes : Forall byte d /\ Forall byte l /\ Forall byte pm
}.
Definition collected (d m : bytes) (e : ECState) : ECState := with_image (Some d) (Some d) (Some d) (Some m) e.
Lemma collect_run e d l pm : bus_ready e d l pm ->
  collectState e = Ok (marks (changes d pm l), collected d (changes d pm l) e).
Proof.
  intros [(Hm & Hi & Ha) Hd Hl Hp (Hmin & Hmax & Hs) [Lp Ll] (Bd & Bl & Bp)]. unfold collectState.
  rewrite Hm, Hi, Ha, Hd, Hmin, Hp, Hl. cbn [negb orb]. rewrite u64_small by (unfold INT_MAX in Hs; lia).
  rewrite (proj2 (Z.ltb_ge _ _)) by lia. cbn [mbind res_bind Z.eqb negb]. rewrite collect_bytes_spec by (done || lia).
  cbn [mbind res_bind fst snd]. pose proof (marks_range (changes d pm l)) as Hr. rewrite changes_length in Hr by done.
  unfold int_of. rewrite (proj2 (in_int_spec _)) by (unfold INT_MIN, INT_MAX in *; lia). done.
Qed.
Definition agree (pm a b : bytes) : Prop := forall g, 0 <= g -> bit pm g = true -> bit a g = bit b g.

(** C11: Changes on the bus reach the program: when the process data of the program and the image
    at the last collection agree on the bits that matter, collecting marks exactly those of
    them that changed (and counts them), and after the program has processed what was
    collected it agrees with the image again on every bit that matters, has kept every other
    bit, and exactly the components of the marked bits are handed on. *)
Theorem bus_reaches_program e d l pm clock u s q : bus_ready e d l pm -> length q = length d -> Forall byte q -> agree pm q l ->
  hardware_state s <> s_hardware_preinit -> io_process_data s = Some q -> process_data_size s = Z.of_nat (length q) ->
  length (indexed_components s) = (length q * 8)%nat -> is_Some (last_process_data s) ->
  (forall c, touched s (changes d pm l) c -> is_Some (components s !! c)) ->
  (updates_sent s = true -> forall c, c ∈ updatedComponentsOut s -> touched s (changes d pm l) c \/ pending_known s c) ->
  exists m e' s' q' upd, collectState e = Ok (marks m, e') /\ ec_update_data e' = Some d /\ ec_update_mask e' = Some m /\
    (forall g, 0 <= g -> bit m g = bit pm g && xorb (bit d g) (bit l g)) /\
    processAll clock (Z.of_nat (length q)) m d u s = Ok (upd, s') /\ io_process_data s' = Some q' /\ agree pm q' d /\
    (forall g, 0 <= g < 8 * Z.of_nat (length q) -> bit pm g = false -> bit q' g = bit q g) /\
    (forall c, c ∈ upd <-> c ∈ u \/ touched s m c) /\ bus_ready e' d d pm.
Proof.
  intros Hb Lq Bq Hag Hh Hq Hsz Hix Hlast Htc Hpk. pose proof (collect_run _ _ _ _ Hb) as Rc.
  destruct Hb as [Hup Hd Hl Hp Hrg [Lp Ll] (Bd & Bl & Bp)]. set (m := changes d pm l) in *.
  assert (Hm : forall g, 0 <= g -> bit m g = bit pm g && xorb (bit d g) (bit l g)) by (intros g Hg; by apply changes_bit).
  assert (Lm : length m = length d) by (by apply changes_length).
  destruct (processAll_spec clock m d u s q) as (s' & upd & R & D & Hu & _ & _ & _); try done.
  { apply exact_bytes_intro; try done; [by apply changes_bytes | lia |]. intros g Hg. rewrite Hm by done.
    intros [Hpg Hx]%andb_prop. rewrite (Hag g Hg Hpg). by destruct (bit d g), (bit l g). }
  { lia. }
  exists m, (collected d m e), s', (merge_bytes q d m), upd. split; [done |]. do 2 (split; [done |]). split; [done |]. split; [done |].
  split; [done |]. split; [|split; [|split; [done |]]].
  - intros g Hg Hpg. destruct (Z.lt_ge_cases g (8 * Z.of_nat (length q))) as [Hlt|Hge].
    + rewrite merge_bytes_bit, Hm, Hpg by (done || lia). cbn [andb]. pose proof (Hag g Hg Hpg) as Hql.
      destruct (bit d g), (bit l g); cbn [xorb]; congruence.
    + unfold bit. assert (Z.of_nat (length q) <= g / 8) by (apply Z.div_le_lower_bound; lia).
      rewrite !lookup_ge_None_2; [done | lia | rewrite merge_bytes_length; lia].
  - intros g Hg Hpg. rewrite merge_bytes_bit, Hm, Hpg by (done || lia). done.
  - split; try done.
Qed.

(** ** Outputs through the image *)
Lemma updateDomain_run e d data mask : domain1 e = Some d -> Forall byte d -> Forall byte data -> Forall byte mask ->
  length data = length d -> length mask = length d ->
  updateDomain (Z.of_nat (length d)) data mask e
    = Ok (tt, with_image (Some (merge_bytes d data mask)) (process_data e) (ec_update_data e) (ec_update_mask e) e).
Proof. intros Hd Bd Bu Bm Lu Lm. unfold updateDomain. rewrite Hd. cbn [rd mbind res_bind]. rewrite Nat2Z.id, update_bytes_merges by done. done. Qed.
Lemma merge_bytes_byte q : forall p m, Forall byte q -> Forall byte p -> Forall byte m -> Forall byte (merge_bytes q p m).
Proof.
  induction q as [|b q IH]; intros [|c p] [|d m] Hq Hp Hm; try (by constructor).
  apply list.Forall_cons in Hq as [? ?], Hp as [? ?], Hm as [? ?]. constructor; [|by apply IH].
  rewrite <- domain_byte by done. destruct (_ && _); [|done]. by apply (domain_bits_spec 8 b ltac:(lia)).
Qed.
Section Bus.
Context `{Ecrt}.
Variable enabled : ptr -> bool.
Variable sample : ptr -> Z -> IM Z.
(** One round between the program and the bus: the output is switched, the update goes into
    the image, the image is collected and the program processes what changed. The size of the
    update is the length of its data, which is what the program sends when the process data
    start at byte 0. *)
Definition on_io {A} (m : IM A) : SM (IOState * ECState) A := fun '(s, e) => '(a, s') ← m s; Ok (a, (s', e)).
Definition on_bus {A} (m : EM A) : SM (IOState * ECState) A := fun '(s, e) => '(a, e') ← m e; Ok (a, (s, e')).
Definition bus_cycle (clock : Z) (b : bool) (c : ptr) : SM (IOState * ECState) Z :=
  run! on_io (switch b c) in
  let! u := on_io (getUpdates enabled) in
  match u with
  | None => sret 0
  | Some up =>
      run! on_bus (updateDomain (Z.of_nat (length (u_data up))) (u_data up) (u_mask up)) in
      run! on_io (updatesSent true) in
      let! n := on_bus collectState in
      let! data := on_bus (ask ec_update_data) in
      let! mask := on_bus (ask ec_update_mask) in
      let? data := rd data in
      let? mask := rd mask in
      let! changed := on_io (processAll clock (Z.of_nat (length data)) mask data ∅) in
      run! on_io (io_fold (fun _ d => handleChange sample d) tt (elements changed)) in
      sret n
  end.
Lemma on_io_run {A} (m : IM A) s e a s' : m s = Ok (a, s') -> on_io m (s, e) = Ok (a, (s', e)).
Proof. intros R. unfold on_io. by rewrite R. Qed.
Lemma on_bus_run {A} (m : EM A) s e a e' : m e = Ok (a, e') -> on_bus m (s, e) = Ok (a, (s, e')).
Proof. intros R. unfold on_bus. by rewrite R. Qed.

End Bus.

(** ** A bus of three bytes *)
Definition sample_bus (d : bytes) : ECState :=
  mkEC true true true (Some d) (Some zeros) None None (Some [255; 255; 255]) 0 2 [] (mkMaster 2 8 true) 0 0 2 None 0 true true true 0 1 [].
Lemma sample_ready d : length d = 3%nat -> Forall byte d -> bus_ready (sample_bus d) d zeros [255; 255; 255].
Proof.
  intros Hl Hd. split; cbn; rewrite ?Hl; try done.
  split; [done |]. split; [apply zeros_byte | by repeat constructor].
Qed.
Lemma bus_reaches_program_w : exists m e' s' q' upd, collectState (sample_bus valve_mask) = Ok (marks m, e') /\ ec_update_mask e' = Some m /\
  processAll 7 3 m valve_mask ∅ ready_io = Ok (upd, s') /\ io_process_data s' = Some q' /\ bit m 3 = true /\ bit q' 3 = true.
Proof.
  assert (Ec : changes valve_mask [255; 255; 255] zeros = valve_mask) by reflexivity.
  destruct (bus_reaches_program (sample_bus valve_mask) valve_mask zeros [255; 255; 255] 7 ∅ ready_io zeros)
    as (m & e' & s' & q' & upd & Rc & _ & Hm & Hb & R & D & Ha & _); rewrite ?Ec.
  - apply sample_ready; [reflexivity | apply put_at_bytes, zeros_byte].
  - reflexivity.
  - apply zeros_byte.
  - done.
  - discriminate.
  - reflexivity.
  - reflexivity.
  - reflexivity.
  - eexists. reflexivity.
  - intros c ->%valve_touched. eexists. reflexivity.
  - discriminate.
  - exists m, e', s', q', upd. split; [exact Rc |]. split; [exact Hm |]. split; [exact R |]. split; [exact D |].
    split; [by rewrite Hb | by rewrite (Ha 3)].
Defined.

(** ** Failures *)
(** What a step leaves: the tolerance, and whether all is well. *)
Definition keeps_ok {A} (m : EM A) : Prop := forall s, failure_tolerance s = None ->
  exists a s', m s = Ok (a, s') /\ failure_tolerance s' = None /\ all_ok s' = all_ok s.
Lemma keeps_ok_bind {A B} (m : EM A) (f : A -> EM B) : keeps_ok m -> (forall a, keeps_ok (f a)) -> keeps_ok (sbind m f).
Proof.
  intros Hm Hf s Hs. destruct (Hm s Hs) as (a & s1 & R1 & T1 & O1). destruct (Hf a s1 T1) as (b & s2 & R2 & T2 & O2).
  exists b, s2. rewrite (sbind_run _ _ _ _ _ R1). split; [done |]. split; [done | by rewrite O2].
Qed.
Lemma keeps_ok_ret {A} (a : A) : keeps_ok (sret a).
Proof. intros s Hs. by exists a, s. Qed.
Lemma keeps_ok_ask {A} (f : ECState -> A) : keeps_ok (ask f).
Proof. intros s Hs. by exists (f s), s. Qed.
Lemma keeps_ok_upd f : (forall s, failure_tolerance (f s) = failure_tolerance s /\ all_ok (f s) = all_ok s) -> keeps_ok (upd f).
Proof. intros Hf s Hs. exists tt, (f s). destruct (Hf s) as [E1 E2]. by rewrite E1, E2. Qed.
Lemma keeps_ok_failure : keeps_ok count_failure /\ keeps_ok count_failure_if_ok.
Proof.
  assert (H0 : keeps_ok count_failure) by (intros s Hs; exists tt, s; unfold count_failure; by rewrite Hs).
  split; [done |]. intros s Hs. unfold count_failure_if_ok. destruct (all_ok s) eqn:E; [|by exists tt, s].
  destruct (H0 s Hs) as (a & s' & R & T & O). exists a, s'. by rewrite O.
Qed.
Ltac keeps_ok_step :=
  first [ apply keeps_ok_bind; [|intros ?] | apply keeps_ok_ret | apply keeps_ok_ask | apply (proj1 keeps_ok_failure)
        | apply (proj2 keeps_ok_failure) | apply keeps_ok_upd; intros ?; by split | case_match ].
(** Without a tolerance, which no code sets, lost slaves, a lost link or a bus that leaves the
    operational state never stop the updates. *)
Lemma no_tolerance_never_fails `{!MasterCalls} now ms : keeps_ok (check_master_state now ms).
Proof.
  unfold check_master_state, check_slaves, check_al_states, check_link, ec_activate, note. repeat keeps_ok_step.
Qed.
(** With a tolerance of [t] failures, the link that comes back clears the count but not the
    result: the updates stay off. *)
Definition lost_link : ECState :=
  mkEC true true false None None None None None 0 0 [] (mkMaster 1 8 false) 0 0 1 (Some 0) 1 false true true 0 1 [].
Example link_back_still_off :
  match @check_master_state {| ecrt_master_activate := 0; ecrt_domain_data := None; ecrt_master_create_domain := None |} 5 (mkMaster 1 8 true) lost_link with
  | Ok (_, s) => (failure_count s, all_ok s) | _ => (1, true) end = (0, false).
Proof. reflexivity. Qed.
