(* ===== verification/ControlSystem.v ===== *)
(** The machine that follows the state of the bus (ControlSystemMachine.cpp): it asks the
    machine ETHERCAT and the machines of the modules to change state. *)
From S2P Require Import Prelude Cnum Tokeniser Value SymbolTable ValueOps Message Machine Names Lists Shell EtherCAT.
Open Scope Z_scope.
Local Open Scope sm_scope.

Inductive states := s_unknown | s_disconnected | s_connected | s_slaves_online | s_operational.
#[export] Instance states_eq_dec : EqDecision states.
Proof. solve_decision. Defined.
Record ControlSystemMachine := mkCSM {
  state : states;
  ethercat_machine : option ptr;
  activate_requested : bool; deactivate_requested : bool;
  ecat_last_synced : Z; ecat_last_state : Z
}.
(** A SET action put on the queue of a machine: the target and its new state. *)
Record Request := mkRequest { rq_machine : ptr; rq_target : string; rq_state : string }.
Record CSWorld := mkCSW { cs : ControlSystemMachine; cs_store : Store; cs_requests : list Request }.
Definition CM : Type -> Type := SM CSWorld.

(** ** What others ask *)
Definition cs_ready (c : ControlSystemMachine) : bool := bool_decide (state c = s_operational).
Definition cs_connected (c : ControlSystemMachine) : bool := bool_decide (state c = s_connected) || bool_decide (state c = s_operational).
Definition requestActivation (which : bool) (c : ControlSystemMachine) : ControlSystemMachine :=
  mkCSM (state c) (ethercat_machine c) which false (ecat_last_synced c) (ecat_last_state c).
Definition requestDeactivation (which : bool) (c : ControlSystemMachine) : ControlSystemMachine :=
  mkCSM (state c) (ethercat_machine c) false which (ecat_last_synced c) (ecat_last_state c).
Definition activationRequested : ControlSystemMachine -> bool := activate_requested.
Definition deactivationRequested : ControlSystemMachine -> bool := deactivate_requested.
Definition lastUpdated : ControlSystemMachine -> Z := ecat_last_synced.

(** ** Conditions *)
Definition c_connected (e : ECState) : bool := link_up (master_state e).
Definition c_disconnected (e : ECState) : bool := negb (c_connected e).
Definition c_operational (e : ECState) : bool := c_connected e && all_operational (modules e).
Definition c_online (e : ECState) : bool := c_connected e && all_online (modules e).
Definition c_active (e : ECState) : bool := c_connected e && active e.

Section Idle.
Context `{DynEnv} `{!Clock}.
Variable ct : ClockworkToken.
(** All machines, for [MachineInstance::find], and those of the modules. *)
Variables all_machines io_modules : list ptr.

Definition on_store {A} (m : NM A) : CM A := fun w => '(a, s) ← m (cs_store w); Ok (a, mkCSW (cs w) s (cs_requests w)).
Definition upd_cs (f : ControlSystemMachine -> ControlSystemMachine) : CM unit := fun w => Ok (tt, mkCSW (f (cs w)) (cs_store w) (cs_requests w)).
Definition ask_cs {A} (f : ControlSystemMachine -> A) : CM A := fun w => Ok (f (cs w), w).
Definition enqueue_set (m : ptr) (target st : string) : CM unit := fun w =>
  Ok (tt, mkCSW (cs w) (cs_store w) (cs_requests w ++ [mkRequest m target st])).

(** ** Changes of state *)
Definition enter (st : states) : CM unit := upd_cs (fun c =>
  mkCSM st (ethercat_machine c) (activate_requested c) (deactivate_requested c) 0 (ecat_last_state c)).
Definition ask_ethercat (l : list (string * string)) : CM unit :=
  let! m := ask_cs ethercat_machine in
  match m with
  | Some m => fold_right (fun r k => run! enqueue_set m (fst r) (snd r) in k) (sret tt) l
  | None => sret tt
  end.
Definition enter_connected : CM unit :=
  run! enter s_connected in ask_ethercat [("ETHERCAT_LS", "UP"); ("SELF", "CONNECTED")].
Definition enter_disconnected : CM unit :=
  run! enter s_disconnected in ask_ethercat [("ETHERCAT_LS", "DOWN"); ("SELF", "DISCONNECTED")].
Definition enter_slaves_online : CM unit := run! enter s_slaves_online in ask_ethercat [("SELF", "CONFIG")].
Definition enter_operational : CM unit := run! enter s_operational in ask_ethercat [("SELF", "ACTIVE")].
Definition enter_unknown : CM unit := enter s_unknown.

(** The machines of modules follow the states the master reports. *)
Definition module_state (al : Z) : option string :=
  let st := Z.land al 15 in
  if st =? 1 then Some "INIT" else if st =? 2 then Some "PREOP" else if st =? 3 then Some "BOOT"
  else if st =? 4 then Some "SAFEOP" else if st =? 8 then Some "OP" else None.
Definition sync_module (e : ECState) (m : ptr) : CM unit :=
  let! i := on_store (get m) in
  if is_enabled i then
    let! r := on_store (getValue ct m "position") in
    let! pos := on_store (Names.load r) in
    let? known := value_ne pos Null in
    if known : bool then
      let? p := rd (iValue pos) in
      match findModule (u32 p) (modules e) with
      | Some x =>
          match module_state (al_state (slave_config_state x)) with
          | Some st => if bool_decide (current_state i = st) then sret tt else enqueue_set m "SELF" st
          | None => sret tt
          end
      | None => sret tt
      end
    else sret tt
  else upd_cs (fun c => mkCSM (state c) (ethercat_machine c) (activate_requested c) (deactivate_requested c) 0 (ecat_last_state c)).
Definition sync_slaves (e : ECState) : CM unit :=
  fold_right (fun m k => run! sync_module e m in k) (sret tt) io_modules.

(** ** One turn *)
Definition switch_state (e : ECState) (st : states) : CM unit :=
  match st with
  | s_unknown =>
      run! (if c_connected e then enter_connected else sret tt) in
      if c_disconnected e then enter_disconnected else sret tt
  | s_connected =>
      if c_online e then enter_slaves_online
      else if c_operational e then enter_operational
      else if c_disconnected e then enter_disconnected
      else if negb (c_connected e) then enter_unknown else sret tt
  | s_slaves_online =>
      if c_active e then enter_operational
      else if negb (c_online e) then
        if c_connected e then enter_connected else if c_disconnected e then enter_disconnected else enter_unknown
      else sret tt
  | s_operational =>
      if negb (c_active e) then
        if c_online e then enter_slaves_online
        else if c_connected e then enter_connected
        else if c_disconnected e then enter_disconnected else enter_unknown
      else sret tt
  | s_disconnected =>
      if c_connected e then enter_connected else if negb (c_disconnected e) then enter_unknown else sret tt
  end.
Definition find_ethercat : CM unit :=
  let! m := ask_cs ethercat_machine in
  match m with
  | Some _ => sret tt
  | None =>
      let! f := on_store (find_instance ct all_machines "ETHERCAT") in
      upd_cs (fun c => mkCSM (state c) f (activate_requested c) (deactivate_requested c) (ecat_last_synced c) (ecat_last_state c))
  end.
Definition cs_idle (e : ECState) : CM unit :=
  run! upd_cs (fun c => mkCSM (state c) (ethercat_machine c) (activate_requested c) (deactivate_requested c)
                          (master_state_changed e) (al_states (master_state e))) in
  run! find_ethercat in
  let! st := ask_cs state in
  run! switch_state e st in
  sync_slaves e.
End Idle.
