(* ===== verification/ControlSystemProps.v ===== *)
(** The machine that follows the bus comes to the state the bus is in, and the machines of
    the modules are asked to follow the states of the modules. *)
From S2P Require Import Prelude Cnum Tokeniser Value SymbolTable ValueOps ValueProps Message Machine Names Properties Lists NamesProps PropertiesProps DynamicValuesProps Assignments AssignmentsProps Shell EtherCAT ControlSystem.
Open Scope Z_scope.
Local Open Scope sm_scope.

Section Follow.
Context `{DynEnv} `{!Clock}.
Variable ct : ClockworkToken.
Variables all_machines io_modules : list ptr.
Hypothesis Hdepth : (0 < call_depth)%nat.
(** The machine ETHERCAT is known; the machines of the modules that are enabled have their
    positions. *)
Variables (s : Store) (eth : ptr) (pos : ptr -> Z).
Definition placed (m : ptr) : Prop :=
  exists i, heap s !! m = Some i /\ (is_enabled i = true -> exists c, own_number ct s m i c "position" (pos m)).
Definition following (w : CSWorld) : Prop := cs_store w = s /\ ethercat_machine (cs w) = Some eth.

(** ** One turn *)
(** What a machine of a module is asked. *)
Definition wanted (e : ECState) (m : ptr) : list Request :=
  match heap s !! m with
  | Some i =>
      if is_enabled i then
        match findModule (u32 (pos m)) (modules e) with
        | Some x => match module_state (al_state (slave_config_state x)) with
                    | Some st => if bool_decide (current_state i = st) then [] else [mkRequest m "SELF" st]
                    | None => []
                    end
        | None => []
        end
      else []
  | None => []
  end.
Lemma sync_module_run e m w : following w -> placed m -> exists w', sync_module ct e m w = Ok (tt, w') /\ following w' /\
  state (cs w') = state (cs w) /\ cs_requests w' = cs_requests w ++ wanted e m.
Proof.
  destruct w as [c st rq]. intros [Hs He] (i & Hi & Hp). cbn in Hs, He. subst st. unfold sync_module, wanted. rewrite Hi.
  assert (Rg : on_store (get m) (mkCSW c s rq) = Ok (i, mkCSW c s rq)) by (unfold on_store, get; cbn; by rewrite Hi).
  rewrite (sbind_run _ _ _ _ _ Rg). destruct (is_enabled i) eqn:En.
  - destruct (Hp eq_refl) as [cl Ho]. destruct (read_number ct s m i cl "position" (pos m) Ho Hdepth) as (v & Rv & Lv & Nv).
    assert (R1 : on_store (getValue ct m "position") (mkCSW c s rq) = Ok (RProp m "position", mkCSW c s rq)) by (unfold on_store; cbn; by rewrite Rv).
    assert (R2 : on_store (Names.load (RProp m "position")) (mkCSW c s rq) = Ok (v, mkCSW c s rq)) by (unfold on_store; cbn [cs_store]; by rewrite Lv).
    rewrite (sbind_run _ _ _ _ _ R1), (sbind_run _ _ _ _ _ R2), (slift_run _ _ _ true) by (by apply not_null, (number_kind v (pos m))).
    destruct Nv as [_ Ni]. rewrite (slift_run _ _ _ (pos m)) by (by rewrite Ni).
    destruct (findModule _ _) as [x|]; [destruct (module_state _) as [t|]; [case_bool_decide |] |];
      (eexists; split; [reflexivity |]; split; [done |]; split; [done |]; cbn; by rewrite ?app_nil_r).
  - eexists. split; [reflexivity |]. split; [done |]. split; [done |]. cbn. by rewrite app_nil_r.
Qed.
Lemma sync_slaves_run e l : forall w, following w -> Forall placed l -> exists w', sync_slaves ct l e w = Ok (tt, w') /\ following w' /\
  state (cs w') = state (cs w) /\ cs_requests w' = cs_requests w ++ flat_map (wanted e) l.
Proof.
  induction l as [|m l IH]; intros w Hw Hl; [exists w; cbn; by rewrite app_nil_r |]. apply list.Forall_cons in Hl as [Hm Hl].
  destruct (sync_module_run e m w Hw Hm) as (w1 & R1 & F1 & S1 & Q1). destruct (IH w1 F1 Hl) as (w2 & R2 & F2 & S2 & Q2).
  exists w2. cbn [sync_slaves fold_right flat_map]. rewrite (sbind_run _ _ _ _ _ R1). split; [exact R2 |]. split; [done |].
  split; [by rewrite S2 |]. by rewrite Q2, Q1, app_assoc.
Qed.

(** The state the machine comes to from the conditions, and what ETHERCAT is asked on the way. *)
Definition target (e : ECState) (st : states) : states :=
  if negb (link_up (master_state e)) then s_disconnected
  else match st with
  | s_unknown | s_disconnected => s_connected
  | s_connected => if all_online (modules e) then s_slaves_online else if all_operational (modules e) then s_operational else s_connected
  | s_slaves_online => if active e then s_operational else if all_online (modules e) then s_slaves_online else s_connected
  | s_operational => if active e then s_operational else if all_online (modules e) then s_slaves_online else s_connected
  end.
Definition announce (st : states) : list (string * string) :=
  match st with
  | s_connected => [("ETHERCAT_LS", "UP"); ("SELF", "CONNECTED")]
  | s_disconnected => [("ETHERCAT_LS", "DOWN"); ("SELF", "DISCONNECTED")]
  | s_slaves_online => [("SELF", "CONFIG")]
  | s_operational => [("SELF", "ACTIVE")]
  | s_unknown => []
  end.
Definition told (from to : states) : list Request :=
  if bool_decide (from = to) then [] else map (fun r => mkRequest eth (fst r) (snd r)) (announce to).
Lemma switch_state_run e w : following w -> exists w', switch_state e (state (cs w)) w = Ok (tt, w') /\ following w' /\
  state (cs w') = target e (state (cs w)) /\ cs_requests w' = cs_requests w ++ told (state (cs w)) (target e (state (cs w))).
Proof.
  destruct w as [[st eo ar dr ls la] st0 rq]. intros [Hs He]. cbn in Hs, He. subst st0 eo.
  unfold switch_state, target, c_disconnected, c_active, c_online, c_operational, c_connected. cbn [cs state].
  destruct (link_up (master_state e)), st; cbn [negb andb];
    repeat match goal with |- context [if all_online ?x then _ else _] => destruct (all_online x) eqn:?
      | |- context [if all_operational ?x then _ else _] => destruct (all_operational x) eqn:?
      | |- context [if active ?x then _ else _] => destruct (active x) eqn:? end; cbn [negb andb];
    (eexists; split; [reflexivity |]; split; [done |]; split; [done |]; cbn; by rewrite ?app_nil_r, <- ?app_assoc).
Qed.
Lemma idle_run e w : following w -> Forall placed io_modules -> exists w', cs_idle ct all_machines io_modules e w = Ok (tt, w') /\ following w' /\
  state (cs w') = target e (state (cs w)) /\
  cs_requests w' = cs_requests w ++ told (state (cs w)) (target e (state (cs w))) ++ flat_map (wanted e) io_modules.
Proof.
  destruct w as [[st eo ar dr ls la] st0 rq]. intros [Hs He] Hl. cbn in Hs, He. subst st0 eo.
  set (w1 := mkCSW (mkCSM st (Some eth) ar dr (master_state_changed e) (al_states (master_state e))) s rq).
  destruct (switch_state_run e w1) as (w2 & R2 & F2 & S2 & Q2); [done |].
  destruct (sync_slaves_run e io_modules w2 F2 Hl) as (w3 & R3 & F3 & S3 & Q3).
  exists w3. split.
  { unfold cs_idle. erewrite (sbind_run (upd_cs _)) by reflexivity. erewrite (sbind_run (find_ethercat _ _)) by reflexivity.
    erewrite (sbind_run (ask_cs state)) by reflexivity. fold w1. cbn [cs state] in R2 |- *. by rewrite (sbind_run _ _ _ _ _ R2). }
  split; [done |]. split; [by rewrite S3, S2 |]. by rewrite Q3, Q2, <- app_assoc.
Qed.

(** ** Any number of turns *)
Fixpoint idles (n : nat) (e : ECState) : CM unit :=
  match n with O => sret tt | S n' => run! cs_idle ct all_machines io_modules e in idles n' e end.
(** What the machine ETHERCAT was asked, and what it is asked in [n] turns. *)
Definition asked (w : CSWorld) : list Request := filter (fun r => rq_machine r = eth) (cs_requests w).
Fixpoint trail (n : nat) (e : ECState) (st : states) : list Request :=
  match n with O => [] | S n' => told st (target e st) ++ trail n' e (target e st) end.
Lemma told_mine from to : filter (fun r => rq_machine r = eth) (told from to) = told from to.
Proof. unfold told. case_bool_decide; [done |]. by destruct to; cbn; rewrite ?decide_True by done. Qed.
Lemma wanted_others e l : eth ∉ l -> filter (fun r => rq_machine r = eth) (flat_map (wanted e) l) = [].
Proof.
  induction l as [|m l IH]; intros Hn; [done |]. apply not_elem_of_cons in Hn as [Hm Hn]. cbn [flat_map]. rewrite list.filter_app, IH by done.
  unfold wanted. repeat case_match; try done. cbn. by rewrite decide_False by (cbn; congruence).
Qed.
Lemma idles_run n e : forall w, following w -> Forall placed io_modules -> eth ∉ io_modules ->
  exists w', idles n e w = Ok (tt, w') /\ following w' /\ state (cs w') = Nat.iter n (target e) (state (cs w)) /\
    asked w' = asked w ++ trail n e (state (cs w)).
Proof.
  induction n as [|n IH]; intros w Hw Hl Hn; [exists w; cbn; by rewrite app_nil_r |].
  destruct (idle_run e w Hw Hl) as (w1 & R1 & F1 & S1 & Q1). destruct (IH w1 F1 Hl Hn) as (w2 & R2 & F2 & S2 & A2).
  exists w2. cbn [idles trail]. rewrite (sbind_run _ _ _ _ _ R1). split; [done |]. split; [done |]. split.
  - rewrite S2, S1. symmetry. apply Nat.iter_succ_r.
  - rewrite A2. unfold asked. rewrite Q1, !list.filter_app, told_mine, wanted_others, S1, app_nil_r by done. by rewrite <- app_assoc.
Qed.
Lemma target_fixed e st n : target e st = st -> Nat.iter n (target e) st = st /\ trail n e st = [].
Proof.
  intros Ht. induction n as [|n [IH1 IH2]]; [done |]. rewrite Nat.iter_succ, IH1. split; [done |]. cbn [trail]. rewrite Ht, IH2.
  unfold told. by rewrite bool_decide_true.
Qed.
Lemma trail_fixed k n e st : (k <= n)%nat -> target e (Nat.iter k (target e) st) = Nat.iter k (target e) st ->
  Nat.iter n (target e) st = Nat.iter k (target e) st /\ trail n e st = trail k e st.
Proof.
  intros Hk Hf. replace n with ((n - k) + k)%nat by lia. generalize (n - k)%nat. clear n Hk. intros n.
  revert st Hf. induction k as [|k IH]; intros st Hf.
  - rewrite Nat.add_0_r. destruct (target_fixed e st n Hf) as [? ?]. by split.
  - rewrite <- plus_n_Sm, !Nat.iter_succ_r. cbn [trail]. rewrite Nat.iter_succ_r in Hf. destruct (IH (target e st) Hf) as [E1 E2]. by rewrite E1, E2.
Qed.

(** What ETHERCAT is asked on the way to operation. *)
Definition way_up (st : states) : list (string * string) :=
  match st with
  | s_unknown | s_disconnected => [("ETHERCAT_LS", "UP"); ("SELF", "CONNECTED"); ("SELF", "CONFIG"); ("SELF", "ACTIVE")]
  | s_connected => [("SELF", "CONFIG"); ("SELF", "ACTIVE")]
  | s_slaves_online => [("SELF", "ACTIVE")]
  | s_operational => []
  end.
(** ... in how many turns, *)
Definition turns_up (st : states) : nat :=
  match st with s_unknown | s_disconnected => 3 | s_connected => 2 | s_slaves_online => 1 | s_operational => 0 end.
(** ... and without a link. *)
Definition way_down (st : states) : list (string * string) :=
  match st with s_disconnected => [] | _ => [("ETHERCAT_LS", "DOWN"); ("SELF", "DISCONNECTED")] end.

(** C17: The control system follows the bus, whatever state it is in: after one turn or more
    without a link it is disconnected, and after at most three turns (the number that are missing from its state) with a link, an active
    master and all slaves online it is operational and stays so; the machine ETHERCAT, once it is known, is
    asked exactly what is missing on the way from the state the control system was in, once,
    in order, and not again. The machines of the modules that are enabled have a number as
    their property position. *)
Theorem control_follows_bus e w n : following w -> Forall placed io_modules -> eth ∉ io_modules ->
  exists w', idles n e w = Ok (tt, w') /\
    (link_up (master_state e) = false -> (1 <= n)%nat -> state (cs w') = s_disconnected /\ cs_connected (cs w') = false /\
       asked w' = asked w ++ map (fun r => mkRequest eth (fst r) (snd r)) (way_down (state (cs w)))) /\
    (link_up (master_state e) = true -> active e = true -> all_online (modules e) = true -> (turns_up (state (cs w)) <= n)%nat ->
       state (cs w') = s_operational /\ cs_ready (cs w') = true /\
       asked w' = asked w ++ map (fun r => mkRequest eth (fst r) (snd r)) (way_up (state (cs w)))).
Proof.
  intros Hw Hl Hn. destruct (idles_run n e w Hw Hl Hn) as (w' & R & _ & S' & A'). exists w'. split; [done |].
  unfold cs_ready, cs_connected. rewrite S', A'. split.
  - intros Hlink H1. assert (Ht : forall st, target e st = s_disconnected) by (intros st; unfold target; by rewrite Hlink).
    destruct (trail_fixed 1 n e (state (cs w))) as [-> ->]; [lia | cbn; by rewrite !Ht |]. cbn [Nat.iter trail nat_rect]. rewrite !Ht.
    rewrite app_nil_r. split; [done |]. split; [done |]. by destruct (state (cs w)).
  - intros Hlink Ha Ho H3.
    assert (Hop : target e s_operational = s_operational) by (unfold target; by rewrite Hlink, Ha).
    assert (Hi : Nat.iter (turns_up (state (cs w))) (target e) (state (cs w)) = s_operational)
      by (destruct (state (cs w)); unfold target; cbn; rewrite ?Hlink, ?Ha, ?Ho; cbn; rewrite ?Hlink, ?Ha, ?Ho; reflexivity).
    destruct (trail_fixed (turns_up (state (cs w))) n e (state (cs w))) as [-> ->]; [done | by rewrite Hi |]. rewrite Hi. split; [done |]. split; [done |].
    destruct (state (cs w)); unfold turns_up, trail, target, told; by rewrite ?Hlink, ?Ho, ?Ha.
Qed.
End Follow.

(** ** A bus of one module *)
Definition bus_tok : Tokeniser := Eval vm_compute in match getTokenId "position" (snd tokens0) with Ok (_, t) => t | _ => Tokeniser_new end.
Definition module_class : MachineClass := sample_class "MODULE" 101 ["INIT"; "OP"].
Definition coupler : MachineInstance :=
  mkInstance (sample_fixed "coupler" "MODULE" module_class) [] [] ∅ (mkST (list_to_map [("position", Value_long 0)]) ∅)
    "INIT" true 0 Value_empty ∅ ∅ 0 false false 0.
Definition bus_store : Store := mkStore {[4%positive := coupler]} {["coupler" := 4%positive]} SymbolTable_new SymbolTable_new bus_tok [].
Definition sample_ec (up : bool) : ECState :=
  mkEC true true true None None None None None 0 0 [mkModule "EK1100" 0 0 true (mkSlave 8 true true)] (mkMaster 1 8 up) 0 0 1 None 0 true true true 0 1 [].
Definition start_world : CSWorld := mkCSW (mkCSM s_unknown (Some 9%positive) false false 0 0) bus_store [].
Lemma coupler_number : own_number ct0 bus_store 4%positive coupler module_class "position" 0.
Proof.
  split; [done | done | done | done | done | done | by split | done | set_solver | by split; [|left] | done | | by eexists | done].
  split; [by apply tok_wf_check; vm_compute | split; [split; by vm_compute | by eexists; vm_compute]].
Qed.
Lemma coupler_placed : Forall (placed ct0 bus_store (fun _ => 0)) [4%positive].
Proof. constructor; [|done]. exists coupler. split; [done |]. intros _. exists module_class. exact coupler_number. Qed.
(** The machine of the module is asked to follow it in each turn until it has. *)
Lemma control_follows_bus_w : exists w', @idles no_dyn sample_clock ct0 [] [4%positive] 3 (sample_ec true) start_world = Ok (tt, w') /\
  cs_ready (cs w') = true /\ asked 9%positive w' =
    map (fun r => mkRequest 9%positive (fst r) (snd r)) [("ETHERCAT_LS", "UP"); ("SELF", "CONNECTED"); ("SELF", "CONFIG"); ("SELF", "ACTIVE")].
Proof.
  destruct (@control_follows_bus no_dyn sample_clock ct0 [] [4%positive] ltac:(by apply Nat.lt_0_succ) bus_store 9%positive (fun _ => 0) (sample_ec true) start_world 3)
    as (w' & R & _ & Hup).
  - by split.
  - exact coupler_placed.
  - set_solver.
  - destruct (Hup eq_refl eq_refl eq_refl ltac:(cbn; lia)) as (_ & Hr & Ha). exists w'. split; [exact R |]. split; [exact Hr | exact Ha].
Defined.
Example module_asked : match @cs_idle no_dyn sample_clock ct0 [] [4%positive] (sample_ec true) start_world with
  | Ok (_, w) => drop 2 (cs_requests w) | _ => [] end = [mkRequest 4%positive "SELF" "OP"].
Proof. vm_compute. reflexivity. Qed.
(** A master that is not active with slaves that are operational but not online: the machine
    goes to and fro between two states. *)
Lemma control_oscillates e : link_up (master_state e) = true -> active e = false -> all_online (modules e) = false ->
  all_operational (modules e) = true -> target e s_connected = s_operational /\ target e s_operational = s_connected.
Proof. intros Hl Ha Ho Hp. unfold target. by rewrite Hl, Ha, Ho, Hp. Qed.
